(* ===== verification/_CoqProject ===== *)
-Q . S2P
Prelude.v
Irp.v
PortState.v
Registry.v
Buffer.v
SeriBase.v
TaskGroup.v
ParaGrp.v
Sched.v
BlkBitmap.v
BlkCache.v
BlkStore.v
BlkRefine.v
BlkSuper.v
BlkAlloc.v
BlkDisk.v
DirTree.v
DirWf.v
DirSplit.v
DirInsert.v
DirCreate.v
DirCalls.v
DirReload.v
