(* ===== verification/Prelude.v ===== *)
(** * rpc-frmwrk: a verification library (root)

    rpc-frmwrk is a C++ framework for distributed objects.  A call travels as
    an I/O request packet (IRP) down a stack of ports, each of which admits it
    through a small state machine; the arguments of the call are packed into
    byte buffers by a typed serializer; drivers and ports find each other in a
    registry of paths.  Inside a process the work is done by tasks, which run in
    serial or parallel groups; a router shares the request slots of its
    connections among such groups with a scheduler.  The monitor keeps its
    configuration in a file system of its own, a block store with a cache and an
    allocator below, and directories as B+ trees above.  The library models these
    parts as executable definitions and proves what makes each of them correct.

    ** Files

    - [Prelude] (this file): machine integers, masked fields of flag words, the
      status codes of [include/defines.h], the outcomes of a call, vectors,
      notation and tactics.
    - [Irp]: [IoRequestPacket] and [IRP_CONTEXT] of [ipc/irp.cpp], [ipc/irp.h].
      The record [IRP] has the fields of the class; each method that changes
      it is a function of the same name from packets to packets.
    - [PortState]: [CPortState] of [ipc/portstat.cpp].  The record [PortState]
      holds [m_vecStates] (top first) and the counters; [CanContinue],
      [PopState], [SetPortState] and [ResumeSubmitTask] are the entry points
      that [CPort] and the I/O manager call.  It reads the top command of the
      IRPs of [Irp].
    - [Registry]: [CRegistry] and [CDirEntry] of [combase/registry.cpp].
    - [Buffer]: [CBuffer] of [combase/buffer.cpp], [include/buffer.h].
    - [SeriBase]: [CSerialBase] of [combase/seribase.cpp],
      [include/seribase.h], on top of [Buffer].
    - [TaskGroup]: [CIfTaskGroup] of [ipc/iftasks.cpp], the serial group, with
      its relation, its queue and its states.
    - [ParaGrp]: [CIfParallelTaskGrpRfc] of [ipc/iftasks.cpp] and
      [CIfParallelTaskGrpRfc2] of [rpc/reqfwdr.cpp], the groups with a limit of
      running and of pending tasks.
    - [Sched]: [CRRTaskScheduler] of [rpc/taskschd.cpp], which hands out the
      limits of these groups and chooses the next one to run.

    The block layer of the file system ([monitor/registry/blkalloc.cpp] and
    [.h]), from the bottom up:
    - [BlkBitmap]: [CBlockBitmap] and [CGroupBitmap], the bitmaps of the blocks of
      a group and of the groups, with the count in their last bytes.
    - [BlkCache]: reading and writing blocks: the intervals of the cache
      ([IntersectIntervals], [SubtractIntervals], [FindContigousBlocks]),
      [ReadCache], [CacheBlocks], [MergeBlocks], [CommitCache], the transactions
      and what decides when to commit.
    - [BlkStore]: what these calls do to the bytes of the blocks.
    - [BlkRefine]: the cache against an array of bytes.
    - [BlkSuper]: [CSuperBlock].
    - [BlkAlloc]: [CBlockGroup] and [CBlockAllocator], which hands out blocks of
      all groups and makes new groups, and starts from the superblock.
    - [BlkDisk]: the allocator and the superblock on top of the cache, with
      commits and restarts.

    The directories ([monitor/registry/dir.cpp], the structures in
    [blkalloc.h]), each a B+ tree in a file of its own:
    - [DirTree]: [CBPlusNode], [CFreeBNodePool] and [CDirImage]: the data, and
      the operations that look up, list, add, commit, format and reload, as
      actions on the directory.  A node is known by its page number; a pointer
      to a node is that number.
    - [DirWf]: what a well-formed tree is ([tree_ok]: every node has its level
      and its interval of keys, the leaves are chained in order), what it holds,
      and the operations that only read.
    - [DirSplit]: how a tree changes when a leaf gets a key, a node is divided,
      and a root is put on top, as facts on trees.
    - [DirInsert]: the file below: the pages, the pool of free ones, what memory
      and the disk have in common ([store_ok]).
    - [DirCreate]: the code of [Insert] and [Split] does what [DirSplit] says.
    - [DirCalls]: the calls, as operations on a finite map.
    - [DirReload]: the pages are read back, and the directory with them; the
      histories of a directory.

    ** How state and calls are modelled

    An object is a record and a method a function from the record (and its
    arguments) to the new record and the status it returns.  [outcome] adds the
    two ways a method does not return: a C++ exception ([Throw]) and undefined
    behaviour ([Undef]: a null pointer, an access outside of a block).  Status
    codes are the signed 32-bit numbers of the source; [STATUS_PENDING] is
    positive and neither an error nor a success.  Methods that run under a lock
    are atomic steps.  Where a method releases its lock in between, it takes a
    script: the operations of others in each such window.  Theorems are for
    every script, so for every interleaving.  The host is little-endian.

    Loops whose recursion is not structural take fuel, and a theorem says that
    what they are given is enough:
    - [NameiLoop] runs on the length of the path plus one, each turn removing
      at least the slash ([Registry.Namei_spec]);
    - [FullPathLoop] runs on the size of the heap plus one, an upward walk of a
      well-formed tree visiting no entry twice ([Registry.GetFullPath_GetEntry]);
    - [RollbackLoop] runs on the number of components
      ([Registry.registry_wf], [Registry.MakeDir_atomic]);
    - [CanContinueFuel] runs on the value of the semaphore plus one, each turn
      taking one unit ([PortState.CanContinue_answers]);
    - [CancelLoop] runs on the length of the queue plus one, no task being added
      to a group that is stopping ([TaskGroup.serial_cancel_drains]);
    - [ParaRunLoop] runs on [para_fuel], the pending tasks and what the script
      can add, each turn starting one at least ([ParaGrp.rfc_run]);
    - [AddTaskGrpLoop] goes round twice, the first time to add the connection
      ([Sched.sched_slots]);
    - [AllocWhile] of the allocator runs on twice the blocks that are asked for
      and two more, each turn taking a block or making groups, and [NewGroups] on
      the groups that are missing and one more ([BlkAlloc.alloc_spec]);
    - [BinLoop] runs on the width of the interval plus one; the walks up and down
      a directory on [tree_fuel], the number of nodes plus one, which no path and
      no chain of leaves exceeds; [PoolLoop] on the pages of the pool plus one
      ([DirCalls.CreateFile_spec], [DirCalls.Search_spec],
      [DirCalls.ListDir_spec]); [ReloadNode] and [ReloadPool] on the pages of the
      file plus one, every node and every page of the pool having one of its own
      ([DirReload.ReloadDir_spec]).

    ** What the theorems show

    - [Irp]: of all attempts to complete or cancel a packet the first wins
      ([attempts_first_wins]); the context stack, the flag word and the count of
      slaves behave ([alloc_pop], [put_flag_get_flag], [slave_count]); the
      completion position can be stale after a pop ([stale_curpos]).
    - [PortState]: the stack of states refines an abstract reader/writer gate
      that can be drained ([port_refines_gate]); exclusion, termination and the
      draining of a stop request, or its refusal when too many share the port
      ([port_exclusion], [CanContinue_answers], [stop_drains]); two defects
      ([wakeup_never_posts], [refused_and_undefined]).
    - [Registry]: well-formedness of the tree is invariant ([registry_wf]),
      creation is all or nothing ([MakeDir_atomic]), removal takes the subtree
      ([RemoveDir_subtree]), paths and properties round-trip
      ([GetFullPath_GetEntry], [property_roundtrip]), the splitting loop equals
      a left-to-right reference ([Namei_spec]), and one defect
      ([RemoveDir_root_drops_props]).
    - [Buffer]: resizing and appending keep the window ([Resize_spec],
      [Append_spec]), the serialized form round-trips ([Serialize_roundtrip]),
      and two defects ([Serialize_overflow], [Detach_Attach]).
    - [SeriBase]: every value of every type of the universe [ty] is read back
      from what was written ([seri_roundtrip]); which errors get out of the
      container routines and which are lost ([map_errors_reported],
      [array_errors_lost], [bytes_overread], [string_dropped],
      [string_truncated]).

    - [TaskGroup]: a serial group runs its tasks in order and ends with the
      result of its relation ([serial_group_result]); it is never left without
      somebody to run it on, but when the task that it waits for is removed or
      the I/O manager fails ([serial_group_live]), and then it is left for good
      ([serial_group_forgotten]); cancelling drains it ([serial_cancel_drains]).
    - [ParaGrp]: a run starts the pending tasks in order and within the limit
      ([rfc_run]); a group sits on work that it may do only after a call that
      does not run it, each of which is named ([rfc_live]); admission is bounded
      ([rfc_admission]).
    - [Sched]: the slots of a connection are never overdrawn, and by how much at
      most once [RemoveTaskGrps] is called ([sched_slots]); which group is chosen
      next ([next_group_spec]), and that the choice is fair
      ([round_robin_fair]); three defects ([SetSlotCount_inverted],
      [RemoveTaskGrp_starves], [RemoveTaskGrps_overdraws]).
    - [BlkBitmap]: blocks that are handed out were free and come back
      ([bitmap_alloc_free]), what is written is what is in memory
      ([bitmap_persist]), and one defect ([double_free_miscounts]).
    - [BlkRefine]: reads, writes and commits behave as on an array of bytes
      ([cache_refines_store]); after a commit the disk holds the array
      ([commit_durable]); three defects ([merge_misplaces_superblock],
      [block_address_wraps], [read_count_last_interval]).
    - [BlkAlloc]: allocation over the groups hands out blocks that were free, as
      many as there are ([alloc_spec]), freeing undoes it ([alloc_free_inverse]),
      after a format every block is free ([format_all_free]), and a reload finds
      the same groups ([reload_same]).
    - [BlkSuper]: the superblock round-trips ([super_roundtrip]); a reload fixes
      the sizes for the rest of the run ([super_reload_type]).
    - [BlkDisk]: what was committed is what the next start finds, the sizes of
      the superblock included, once it was flushed ([file_system_recovers]).
    - [DirCalls]: a directory is a finite map from names to inodes: adding a name
      inserts it, whatever the tree has to split ([CreateFile_spec]), looking up
      finds what is there ([Search_spec]), listing answers all of it in order
      ([ListDir_spec]); each call leaves the disk as memory is.
    - [DirReload]: a committed directory is found again from its file
      ([ReloadDir_spec]), and so after any history of calls and restarts it has
      what was created ([directory_recovers]); inserting from the root, as a
      rename does, has three defects ([root_insert_defects]).

    ** Interfaces

    [SeriBase] picks a serializer by type through the class [Seri]; [Format]
    is the wire format a type promises, and [Codec] its laws: what is written
    is the format, and what is read back is the value.  The containers are
    proved against [Codec] alone, and [den_codec] discharges it for every type.
    [Registry] is a [Section] over the type of property values.  The allocator
    is written against the class [BlockDev], a device of blocks, and proved
    against its laws [BlockDevOk]; an array in memory and the cache of [BlkCache]
    are instances.  A directory is written against the class [DirFile], the file
    it is stored in, and proved against its laws [DirFileOk]; a file in memory
    is an instance.

    ** Not modelled

    Memory allocation ([al] in [Buffer]) and the answers of the I/O manager to
    a scheduled task ([sched] in [PortState], [mgr] in [TaskGroup] and [ParaGrp])
    are parameters.  Buffers that
    hold [ObjPtr] or [DMsgPtr] values are modelled as far as [Resize] resets
    them.  [ListDir] only reads and is left out.  The statistics of the
    scheduler and the messages that tell a task to stop leave the program.  The
    unlimited parallel group, the root group and the retry timers of tasks are
    not modelled.

    The block layer is modelled in safe mode, on a disk whose reads and writes
    succeed and keep what they are given; the bitmap of the groups is taken to
    fit in one block, and blocks to lie where a 32-bit address reaches.  The
    asynchronous I/O of the commit, the truncation of the file before [Format] and
    the file handle are left out; what [fsync] answers is a parameter.

    Directories are modelled in safe mode too, for pages of a power of two and
    fewer than 65535 of them ([node_geom]), and names without a NUL.  Removing
    and renaming, with the rebalancing that they need, are left out, and so are
    the times and modes that the calls keep in the inode.  The class [DirFile]
    stands for the files ([file.cpp]), which are not modelled, nor are the calls
    of the file system ([regfs.cpp]) and the checker.

    Ports, drivers, the I/O manager, the message loop, D-Bus, sockets and the
    compiler are not part of the library yet; next come the files of the monitor,
    the interface state machine ([ipc/ifstat.cpp]) and the IRP life cycle in the
    I/O manager ([ipc/iomgr.cpp]). *)

From Stdlib Require Import ZArith Lia.
From stdpp Require Export base tactics strings numbers option gmap list.
#[global] Open Scope Z_scope.
#[global] Set Default Goal Selector "!".

(** ** Fixed-width integers

    [guint8], [guint16], [guint32], [guint64] and [gint32] are carried as [Z];
    the functions below are the C conversions to each type. *)

Definition uN (n : Z) (z : Z) : Z := z mod 2 ^ n.
Definition u8 (z : Z) : Z := uN 8 z.
Definition u16 (z : Z) : Z := uN 16 z.
Definition u32 (z : Z) : Z := uN 32 z.
Definition u64 (z : Z) : Z := uN 64 z.
Definition sN (n : Z) (z : Z) : Z := (z + 2 ^ (n - 1)) mod 2 ^ n - 2 ^ (n - 1).
Definition s32 (z : Z) : Z := sN 32 z.

Lemma uN_range n z : 0 <= n -> 0 <= uN n z < 2 ^ n.
Proof. intros. unfold uN. apply Z.mod_pos_bound, Z.pow_pos_nonneg; lia. Qed.

Lemma uN_small n z : 0 <= z < 2 ^ n -> uN n z = z.
Proof. apply Z.mod_small. Qed.

Lemma u32_range z : 0 <= u32 z < 2 ^ 32.
Proof. apply uN_range; lia. Qed.

Lemma u32_small z : 0 <= z < 2 ^ 32 -> u32 z = z.
Proof. apply uN_small. Qed.

Lemma sN_uN n z : 0 < n -> sN n (uN n z) = sN n z.
Proof.
  intros Hn. unfold sN, uN. by rewrite Zplus_mod_idemp_l.
Qed.

Lemma sN_small n z : 0 < n -> - 2 ^ (n - 1) <= z < 2 ^ (n - 1) -> sN n z = z.
Proof.
  intros Hn Hz. unfold sN.
  assert (2 ^ n = 2 * 2 ^ (n - 1)) as Hp.
  { rewrite <- Z.pow_succ_r by lia. f_equal; lia. }
  rewrite Z.mod_small by lia. lia.
Qed.

(** ** Masked fields of a flag word

    The pattern [w &= ~mask; w |= v & mask] that the sources use for every
    packed field, and the tests on single flags. *)

Definition put_bits (w mask v : Z) : Z := Z.lor (Z.ldiff w mask) (Z.land v mask).

Lemma put_bits_same w mask v : Z.land (put_bits w mask v) mask = Z.land v mask.
Proof.
  unfold put_bits. apply Z.bits_inj'; intros i Hi.
  rewrite !Z.land_spec, Z.lor_spec, Z.ldiff_spec, Z.land_spec.
  destruct (Z.testbit w i), (Z.testbit mask i), (Z.testbit v i); done.
Qed.

Lemma put_bits_other w mask v mask' :
  Z.land mask mask' = 0 -> Z.land (put_bits w mask v) mask' = Z.land w mask'.
Proof.
  intros Hd. unfold put_bits. apply Z.bits_inj'; intros i Hi.
  assert (Z.testbit (Z.land mask mask') i = false) as Hb
    by (rewrite Hd; apply Z.bits_0).
  rewrite Z.land_spec in Hb.
  rewrite !Z.land_spec, Z.lor_spec, Z.ldiff_spec, Z.land_spec.
  destruct (Z.testbit w i), (Z.testbit mask i), (Z.testbit v i), (Z.testbit mask' i); done.
Qed.

Lemma put_bits_0 w mask : put_bits w mask 0 = Z.ldiff w mask.
Proof. unfold put_bits. by rewrite Z.land_0_l, Z.lor_0_r. Qed.

Lemma put_bits_all w mask : put_bits w mask mask = Z.lor w mask.
Proof.
  unfold put_bits. apply Z.bits_inj'; intros i Hi.
  rewrite !Z.lor_spec, Z.ldiff_spec, Z.land_spec.
  destruct (Z.testbit w i), (Z.testbit mask i); done.
Qed.

(** [( w & mask ) != 0] *)
Definition has_flag (w mask : Z) : bool := negb (Z.land w mask =? 0).

Lemma has_flag_set w mask : mask <> 0 -> has_flag (Z.lor w mask) mask = true.
Proof.
  intros Hm. unfold has_flag. rewrite <- put_bits_all, put_bits_same, Z.land_diag.
  destruct (Z.eqb_spec mask 0); [done | done].
Qed.

Lemma has_flag_clear w mask : has_flag (Z.ldiff w mask) mask = false.
Proof.
  unfold has_flag. rewrite <- put_bits_0, put_bits_same, Z.land_0_l. done.
Qed.

Lemma has_flag_set_other w mask mask' :
  Z.land mask mask' = 0 -> has_flag (Z.lor w mask) mask' = has_flag w mask'.
Proof.
  intros Hd. unfold has_flag. by rewrite <- put_bits_all, put_bits_other.
Qed.

Lemma has_flag_clear_other w mask mask' :
  Z.land mask mask' = 0 -> has_flag (Z.ldiff w mask) mask' = has_flag w mask'.
Proof.
  intros Hd. unfold has_flag. by rewrite <- put_bits_0, put_bits_other.
Qed.

(** ** Status codes ([include/defines.h], [errno.h]) *)

Definition EPERM : Z := 1.
Definition ENOENT : Z := 2.
Definition E2BIG : Z := 7.
Definition EAGAIN : Z := 11.
Definition ENOMEM : Z := 12.
Definition EACCES : Z := 13.
Definition EFAULT : Z := 14.
Definition EEXIST : Z := 17.
Definition EINVAL : Z := 22.
Definition ERANGE : Z := 34.
Definition ENAMETOOLONG : Z := 36.
Definition EOVERFLOW : Z := 75.
Definition ENOTSUP : Z := 95.
Definition ETIMEDOUT : Z := 110.
Definition ECANCELED : Z := 125.

Definition STATUS_SUCCESS : Z := 0.
Definition STATUS_PENDING : Z := 0x10001.
Definition ERROR_FAIL : Z := s32 0x80000001.
Definition ERROR_STATE : Z := s32 0x80010003.
Definition ERROR_FALSE : Z := s32 0x80010007.
Definition ERROR_REPEAT : Z := s32 0x80010008.
Definition ERROR_CANNOT_COMP : Z := s32 0x8001000b.
Definition ERROR_KILLED_BYSCHED : Z := s32 0x80010012.

(** [ERROR( ret )] and [SUCCEEDED( ret )]: a positive status such as
    [STATUS_PENDING] is neither. *)
Definition ERROR (ret : Z) : bool := ret <? 0.
Definition SUCCEEDED (ret : Z) : bool := ret =? 0.

(** ** Outcomes of a call

    [Ret] is a normal return; [Throw] a C++ exception that leaves the
    function; [Undef] undefined behaviour (a null or out-of-range access). *)
Inductive outcome (A : Type) : Type :=
  | Ret (a : A)
  | Throw
  | Undef.
Arguments Ret {A} a.
Arguments Throw {A}.
Arguments Undef {A}.

Declare Scope rpcf_scope.
Delimit Scope rpcf_scope with rpcf.

Definition obind {A B} (m : outcome A) (f : A -> outcome B) : outcome B :=
  match m with Ret a => f a | Throw => Throw | Undef => Undef end.

Notation "'let!' x ':=' m 'in' k" := (obind m (fun x => k))
  (at level 10, x pattern, m at level 100, k at level 200) : rpcf_scope.

(** ** Lists used as vectors *)

(** [pop_back]: the vector without its last element. *)
Fixpoint pop_back {A} (l : list A) : list A :=
  match l with
  | [] => []
  | [_] => []
  | x :: l => x :: pop_back l
  end.

Lemma pop_back_snoc {A} (l : list A) x : pop_back (l ++ [x]) = l.
Proof. induction l as [|y [|z l] IH]; simpl in *; [done|done|by f_equal]. Qed.

Lemma length_pop_back {A} (l : list A) : length (pop_back l) = pred (length l).
Proof. induction l as [|y [|z l] IH]; simpl in *; [done|done|lia]. Qed.

Lemma lookup_pop_back {A} (l : list A) (i : nat) :
  (i < pred (length l))%nat -> pop_back l !! i = l !! i.
Proof.
  destruct l as [|x l _] using rev_ind; [simpl; lia|].
  rewrite pop_back_snoc, length_app. simpl. intros Hi.
  rewrite lookup_app_l by lia. done.
Qed.

(** ** Automation *)

Create HintDb rpcf.
Create Rewrite HintDb rpcf.
#[export] Hint Rewrite @pop_back_snoc @length_pop_back @last_snoc
  put_bits_same has_flag_clear : rpcf.
#[export] Hint Resolve u32_range : rpcf.

(** Case analysis on every [match]/[if] of the goal, keeping equations. *)
Ltac split_matches :=
  repeat (case_match; simplify_eq/=; try done).

(** Turn boolean comparisons of the context into propositions. *)
Ltac zify_bools :=
  repeat match goal with
  | H : (_ && _)%bool = true |- _ => apply andb_true_iff in H as [? ?]
  | H : (_ || _)%bool = false |- _ => apply orb_false_iff in H as [? ?]
  | H : negb _ = true |- _ => apply negb_true_iff in H
  | H : negb _ = false |- _ => apply negb_false_iff in H
  | H : (_ =? _) = true |- _ => apply Z.eqb_eq in H
  | H : (_ =? _) = false |- _ => apply Z.eqb_neq in H
  | H : (_ <? _) = true |- _ => apply Z.ltb_lt in H
  | H : (_ <? _) = false |- _ => apply Z.ltb_ge in H
  | H : (_ <=? _) = true |- _ => apply Z.leb_le in H
  | H : (_ <=? _) = false |- _ => apply Z.leb_gt in H
  | H : (_ >? _) = true |- _ => rewrite Z.gtb_ltb in H; apply Z.ltb_lt in H
  | H : (_ >? _) = false |- _ => rewrite Z.gtb_ltb in H; apply Z.ltb_ge in H
  | H : (_ >=? _) = true |- _ => rewrite Z.geb_leb in H; apply Z.leb_le in H
  | H : (_ >=? _) = false |- _ => rewrite Z.geb_leb in H; apply Z.leb_gt in H
  end.
