(* ===== verification/Irp.v ===== *)
(** * IRPs: [ipc/irp.cpp], [ipc/irp.h]

    The I/O request packet and its context stack: the flag words, the context
    stack operations, the atomic state word with the compare-and-swap that
    arbitrates between completion and cancellation, and the bookkeeping of
    slave IRPs.  Pointers ([PortPtr], [IrpPtr], [BufPtr], [EventPtr]) are
    addresses in [Z], [0] being [nullptr].  [m_vecCtxStack] lists the stack
    bottom first, so its last element is [back()]. *)

From Stdlib Require Import ZArith Lia.
From S2P Require Import Prelude.
Local Open Scope rpcf_scope.

(** ** Constants of [ipc/irp.h] *)

Definition IRP_MAJOR_MASK : Z := 0xFF.
Definition IRP_MINOR_MASK : Z := 0xFF.
Definition IRP_CTRLCODE_MASK : Z := 0xFFFF.

Definition IRP_MJ_PNP : Z := 0x01.
Definition IRP_MJ_FUNC : Z := 0x02.
Definition IRP_MJ_INVALID : Z := 0xFF.
Definition IRP_MN_INVALID : Z := 0xFF.
Definition CTRLCODE_INVALID : Z := 0xFFFF.

Definition IRP_MN_PNP_START : Z := 0x01.
Definition IRP_MN_PNP_STOP : Z := 0x02.
Definition IRP_MN_PNP_QUERY_STOP : Z := 0x03.
Definition IRP_MN_PNP_STACK_BUILT : Z := 0x04.
Definition IRP_MN_PNP_STACK_DESTROY : Z := 0x05.
Definition IRP_MN_PNP_STOP_CHILD : Z := 0x06.
Definition IRP_MN_PNP_REATTACH : Z := 0x07.
Definition IRP_MN_PNP_STACK_READY : Z := 0x08.

Definition IRP_DIR_MASK : Z := 0x03.
Definition IRP_SYNC_CALL : Z := 0x04.
Definition IRP_PENDING : Z := 0x08.
Definition IRP_NO_COMPLETE : Z := 0x10.
Definition IRP_NON_DBUS : Z := 0x20.
Definition IRP_CALLBACK_ONLY : Z := 0x40.
Definition IRP_SUBMITED : Z := 0x80.
Definition IRP_COMP_INPLACE : Z := 0x100.

Definition IRP_STATE_READY : Z := 0x01.
Definition IRP_STATE_COMPLETING : Z := 0x02.
Definition IRP_STATE_COMPLETED : Z := 0x03.
Definition IRP_STATE_CANCELLING : Z := 0x04.
Definition IRP_STATE_CANCELLED : Z := 0x05.
Definition IRP_STATE_CANCEL_SLAVE : Z := 0x06.
Definition IRP_STATE_BUSY : Z := 0x07.

Definition IOSTACK_ALLOC_NEW : Z := 1.
Definition IOSTACK_ALLOC_COPY : Z := 2.

(** ** The per-port context *)

Record IRP_CONTEXT := mkCtx {
  ctx_dwFlags : Z;
  ctx_iStatus : Z;
  ctx_dwMajorCmd : Z;
  ctx_dwMinorCmd : Z;
  ctx_dwCtrlCmd : Z;
  ctx_pReqData : Z;
  ctx_pRespData : Z;
  ctx_pExtBuf : Z;
}.

(** The default constructor. *)
Definition NewCtx : IRP_CONTEXT := mkCtx 0 0 0 0 0 0 0 0.

(** [operator=]: every field but the extension buffer, which stays the
    destination's. *)
Definition AssignCtx (dst src : IRP_CONTEXT) : IRP_CONTEXT :=
  mkCtx (ctx_dwFlags src) (ctx_iStatus src) (ctx_dwMajorCmd src)
    (ctx_dwMinorCmd src) (ctx_dwCtrlCmd src) (ctx_pReqData src)
    (ctx_pRespData src) (ctx_pExtBuf dst).

Definition GetMajorCmd (c : IRP_CONTEXT) : Z := Z.land (ctx_dwMajorCmd c) IRP_MAJOR_MASK.
Definition GetMinorCmd (c : IRP_CONTEXT) : Z := Z.land (ctx_dwMinorCmd c) IRP_MINOR_MASK.
Definition GetCtrlCode (c : IRP_CONTEXT) : Z := Z.land (ctx_dwCtrlCmd c) IRP_CTRLCODE_MASK.

Definition SetMajorCmd (c : IRP_CONTEXT) (dwMajorCmd : Z) : IRP_CONTEXT :=
  mkCtx (ctx_dwFlags c) (ctx_iStatus c)
    (put_bits (ctx_dwMajorCmd c) IRP_MAJOR_MASK dwMajorCmd)
    (ctx_dwMinorCmd c) (ctx_dwCtrlCmd c) (ctx_pReqData c)
    (ctx_pRespData c) (ctx_pExtBuf c).

Definition SetMinorCmd (c : IRP_CONTEXT) (dwMinorCmd : Z) : IRP_CONTEXT :=
  mkCtx (ctx_dwFlags c) (ctx_iStatus c) (ctx_dwMajorCmd c)
    (put_bits (ctx_dwMinorCmd c) IRP_MINOR_MASK dwMinorCmd)
    (ctx_dwCtrlCmd c) (ctx_pReqData c) (ctx_pRespData c) (ctx_pExtBuf c).

Definition SetCtrlCode (c : IRP_CONTEXT) (dwCtrlCode : Z) : IRP_CONTEXT :=
  mkCtx (ctx_dwFlags c) (ctx_iStatus c) (ctx_dwMajorCmd c) (ctx_dwMinorCmd c)
    (put_bits (ctx_dwCtrlCmd c) IRP_CTRLCODE_MASK dwCtrlCode)
    (ctx_pReqData c) (ctx_pRespData c) (ctx_pExtBuf c).

Definition CtxGetStatus (c : IRP_CONTEXT) : Z := ctx_iStatus c.
Definition CtxSetStatus (c : IRP_CONTEXT) (iStatus : Z) : IRP_CONTEXT :=
  mkCtx (ctx_dwFlags c) iStatus (ctx_dwMajorCmd c) (ctx_dwMinorCmd c)
    (ctx_dwCtrlCmd c) (ctx_pReqData c) (ctx_pRespData c) (ctx_pExtBuf c).

Definition SetExtBuf (c : IRP_CONTEXT) (bufPtr : Z) : IRP_CONTEXT :=
  mkCtx (ctx_dwFlags c) (ctx_iStatus c) (ctx_dwMajorCmd c) (ctx_dwMinorCmd c)
    (ctx_dwCtrlCmd c) (ctx_pReqData c) (ctx_pRespData c) bufPtr.

Definition GetIoDirection (c : IRP_CONTEXT) : Z := Z.land (ctx_dwFlags c) IRP_DIR_MASK.
Definition CtxSetFlags (c : IRP_CONTEXT) (w : Z) : IRP_CONTEXT :=
  mkCtx w (ctx_iStatus c) (ctx_dwMajorCmd c) (ctx_dwMinorCmd c)
    (ctx_dwCtrlCmd c) (ctx_pReqData c) (ctx_pRespData c) (ctx_pExtBuf c).
Definition SetIoDirection (c : IRP_CONTEXT) (dwDir : Z) : IRP_CONTEXT :=
  CtxSetFlags c (put_bits (ctx_dwFlags c) IRP_DIR_MASK dwDir).

Definition IsNonDBusReq (c : IRP_CONTEXT) : bool := 0 <? Z.land (ctx_dwFlags c) IRP_NON_DBUS.
Definition SetNonDBusReq (c : IRP_CONTEXT) (bNonDBus : bool) : IRP_CONTEXT :=
  CtxSetFlags c (Z.lor (Z.ldiff (ctx_dwFlags c) IRP_NON_DBUS)
    (if bNonDBus then IRP_NON_DBUS else 0)).

(** ** The packet *)

Record IRP := mkIrp {
  m_iStatus : Z;
  m_dwFlags : Z;
  m_atmState : Z;
  m_pCallback : Z;
  m_dwContext : Z;
  m_IrpThrdPtr : Z;
  m_vecCtxStack : list (Z * IRP_CONTEXT);
  m_semWait : Z;
  m_dwTimeoutSec : Z;
  m_iTimerId : Z;
  m_pMgr : Z;
  m_dwCurPos : Z;
  m_dwTid : Z;
  m_pMasterIrp : Z;
  m_mapSlaveIrps : gmap Z Z;
  m_wMinSlaves : Z;
}.

(** Field updates, one per field the operations assign. *)
Definition set_iStatus (v : Z) (p : IRP) : IRP :=
  mkIrp v (m_dwFlags p) (m_atmState p) (m_pCallback p) (m_dwContext p)
    (m_IrpThrdPtr p) (m_vecCtxStack p) (m_semWait p) (m_dwTimeoutSec p)
    (m_iTimerId p) (m_pMgr p) (m_dwCurPos p) (m_dwTid p) (m_pMasterIrp p)
    (m_mapSlaveIrps p) (m_wMinSlaves p).
Definition set_dwFlags (v : Z) (p : IRP) : IRP :=
  mkIrp (m_iStatus p) v (m_atmState p) (m_pCallback p) (m_dwContext p)
    (m_IrpThrdPtr p) (m_vecCtxStack p) (m_semWait p) (m_dwTimeoutSec p)
    (m_iTimerId p) (m_pMgr p) (m_dwCurPos p) (m_dwTid p) (m_pMasterIrp p)
    (m_mapSlaveIrps p) (m_wMinSlaves p).
Definition set_atmState (v : Z) (p : IRP) : IRP :=
  mkIrp (m_iStatus p) (m_dwFlags p) v (m_pCallback p) (m_dwContext p)
    (m_IrpThrdPtr p) (m_vecCtxStack p) (m_semWait p) (m_dwTimeoutSec p)
    (m_iTimerId p) (m_pMgr p) (m_dwCurPos p) (m_dwTid p) (m_pMasterIrp p)
    (m_mapSlaveIrps p) (m_wMinSlaves p).
Definition set_callback (v c : Z) (p : IRP) : IRP :=
  mkIrp (m_iStatus p) (m_dwFlags p) (m_atmState p) v c (m_IrpThrdPtr p)
    (m_vecCtxStack p) (m_semWait p) (m_dwTimeoutSec p) (m_iTimerId p)
    (m_pMgr p) (m_dwCurPos p) (m_dwTid p) (m_pMasterIrp p) (m_mapSlaveIrps p)
    (m_wMinSlaves p).
Definition set_IrpThrdPtr (v : Z) (p : IRP) : IRP :=
  mkIrp (m_iStatus p) (m_dwFlags p) (m_atmState p) (m_pCallback p)
    (m_dwContext p) v (m_vecCtxStack p) (m_semWait p) (m_dwTimeoutSec p)
    (m_iTimerId p) (m_pMgr p) (m_dwCurPos p) (m_dwTid p) (m_pMasterIrp p)
    (m_mapSlaveIrps p) (m_wMinSlaves p).
Definition set_stack (v : list (Z * IRP_CONTEXT)) (p : IRP) : IRP :=
  mkIrp (m_iStatus p) (m_dwFlags p) (m_atmState p) (m_pCallback p)
    (m_dwContext p) (m_IrpThrdPtr p) v (m_semWait p) (m_dwTimeoutSec p)
    (m_iTimerId p) (m_pMgr p) (m_dwCurPos p) (m_dwTid p) (m_pMasterIrp p)
    (m_mapSlaveIrps p) (m_wMinSlaves p).
Definition set_semWait (v : Z) (p : IRP) : IRP :=
  mkIrp (m_iStatus p) (m_dwFlags p) (m_atmState p) (m_pCallback p)
    (m_dwContext p) (m_IrpThrdPtr p) (m_vecCtxStack p) v (m_dwTimeoutSec p)
    (m_iTimerId p) (m_pMgr p) (m_dwCurPos p) (m_dwTid p) (m_pMasterIrp p)
    (m_mapSlaveIrps p) (m_wMinSlaves p).
Definition set_timer (t i m : Z) (p : IRP) : IRP :=
  mkIrp (m_iStatus p) (m_dwFlags p) (m_atmState p) (m_pCallback p)
    (m_dwContext p) (m_IrpThrdPtr p) (m_vecCtxStack p) (m_semWait p) t i m
    (m_dwCurPos p) (m_dwTid p) (m_pMasterIrp p) (m_mapSlaveIrps p)
    (m_wMinSlaves p).
Definition set_dwCurPos (v : Z) (p : IRP) : IRP :=
  mkIrp (m_iStatus p) (m_dwFlags p) (m_atmState p) (m_pCallback p)
    (m_dwContext p) (m_IrpThrdPtr p) (m_vecCtxStack p) (m_semWait p)
    (m_dwTimeoutSec p) (m_iTimerId p) (m_pMgr p) v (m_dwTid p)
    (m_pMasterIrp p) (m_mapSlaveIrps p) (m_wMinSlaves p).
Definition set_dwTid (v : Z) (p : IRP) : IRP :=
  mkIrp (m_iStatus p) (m_dwFlags p) (m_atmState p) (m_pCallback p)
    (m_dwContext p) (m_IrpThrdPtr p) (m_vecCtxStack p) (m_semWait p)
    (m_dwTimeoutSec p) (m_iTimerId p) (m_pMgr p) (m_dwCurPos p) v
    (m_pMasterIrp p) (m_mapSlaveIrps p) (m_wMinSlaves p).
Definition set_pMasterIrp (v : Z) (p : IRP) : IRP :=
  mkIrp (m_iStatus p) (m_dwFlags p) (m_atmState p) (m_pCallback p)
    (m_dwContext p) (m_IrpThrdPtr p) (m_vecCtxStack p) (m_semWait p)
    (m_dwTimeoutSec p) (m_iTimerId p) (m_pMgr p) (m_dwCurPos p) (m_dwTid p) v
    (m_mapSlaveIrps p) (m_wMinSlaves p).
Definition set_slaves (v : gmap Z Z) (n : Z) (p : IRP) : IRP :=
  mkIrp (m_iStatus p) (m_dwFlags p) (m_atmState p) (m_pCallback p)
    (m_dwContext p) (m_IrpThrdPtr p) (m_vecCtxStack p) (m_semWait p)
    (m_dwTimeoutSec p) (m_iTimerId p) (m_pMgr p) (m_dwCurPos p) (m_dwTid p)
    (m_pMasterIrp p) v n.

(** The constructor, run on thread [tid]. *)
Definition NewIrp (tid : Z) : IRP :=
  mkIrp STATUS_PENDING 0 IRP_STATE_READY 0 0 0 [] 0 0 (-1) 0 0 tid 0 ∅ 0.

(** *** Context stack *)

Definition GetStackSize (p : IRP) : Z := Z.of_nat (length (m_vecCtxStack p)).

(** [back()] of an empty vector is undefined. *)
Definition GetTopStack (p : IRP) : outcome IRP_CONTEXT :=
  match last (m_vecCtxStack p) with
  | Some e => Ret (snd e)
  | None => Undef
  end.
Definition GetTopPort (p : IRP) : outcome Z :=
  match last (m_vecCtxStack p) with
  | Some e => Ret (fst e)
  | None => Undef
  end.

(** The port of the popped entry releases the extension of the context that
    is destroyed with it. *)
Definition PopCtxStack (p : IRP) : IRP :=
  if GetStackSize p =? 0 then p
  else set_stack (pop_back (m_vecCtxStack p)) p.

Definition AllocNextStack (pPort iAllocOption : Z) (p : IRP) : outcome (IRP * Z) :=
  if iAllocOption =? IOSTACK_ALLOC_COPY then
    let! c := GetTopStack p in
    Ret (set_stack (m_vecCtxStack p ++ [(pPort, AssignCtx NewCtx c)]) p, 0)
  else if negb (iAllocOption =? IOSTACK_ALLOC_NEW) then Ret (p, - EINVAL)
  else Ret (set_stack (m_vecCtxStack p ++ [(pPort, NewCtx)]) p, 0).

Definition GetCurPos (p : IRP) : Z := m_dwCurPos p.
Definition IsIrpHolder (p : IRP) : bool := u32 (GetCurPos p + 1) =? GetStackSize p.

Definition SetCurPos (dwIdx : Z) (p : IRP) : IRP * bool :=
  if dwIdx <? GetStackSize p then (set_dwCurPos dwIdx p, true) else (p, false).

(** Out of range: [std::out_of_range]. *)
Definition GetCtxAt (dwPos : Z) (p : IRP) : outcome IRP_CONTEXT :=
  match m_vecCtxStack p !! Z.to_nat dwPos with
  | Some e => Ret (snd e)
  | None => Throw
  end.
Definition GetPortAt (dwPos : Z) (p : IRP) : outcome Z :=
  match m_vecCtxStack p !! Z.to_nat dwPos with
  | Some e => Ret (fst e)
  | None => Throw
  end.
Definition GetCurCtx (p : IRP) : outcome IRP_CONTEXT := GetCtxAt (GetCurPos p) p.
Definition GetCurPort (p : IRP) : outcome Z := GetPortAt (GetCurPos p) p.

Definition MajorCmd (p : IRP) : outcome Z :=
  if GetStackSize p =? 0 then Ret IRP_MJ_INVALID
  else let! c := GetCurCtx p in Ret (GetMajorCmd c).
Definition MinorCmd (p : IRP) : outcome Z :=
  if GetStackSize p =? 0 then Ret IRP_MN_INVALID
  else let! c := GetCurCtx p in Ret (GetMinorCmd c).
Definition CtrlCode (p : IRP) : outcome Z :=
  if GetStackSize p =? 0 then Ret CTRLCODE_INVALID
  else let! c := GetCurCtx p in Ret (GetCtrlCode c).
Definition IoDirection (p : IRP) : outcome Z :=
  if GetStackSize p =? 0 then Ret CTRLCODE_INVALID
  else let! c := GetCurCtx p in Ret (GetIoDirection c).

(** *** Flag word *)

Definition IsPending (p : IRP) : bool := has_flag (m_dwFlags p) IRP_PENDING.
Definition MarkPending (p : IRP) : IRP := set_dwFlags (Z.lor (m_dwFlags p) IRP_PENDING) p.
Definition RemovePending (p : IRP) : IRP := set_dwFlags (Z.ldiff (m_dwFlags p) IRP_PENDING) p.

Definition IsSyncCall (p : IRP) : bool := has_flag (m_dwFlags p) IRP_SYNC_CALL.
Definition SetSyncCall (bSync : bool) (p : IRP) : IRP :=
  if bSync then set_dwFlags (Z.lor (m_dwFlags p) IRP_SYNC_CALL) p
  else set_dwFlags (Z.ldiff (m_dwFlags p) IRP_SYNC_CALL) p.

Definition IsCbOnly (p : IRP) : bool := has_flag (m_dwFlags p) IRP_CALLBACK_ONLY.
Definition SetCbOnly (bCbOnly : bool) (p : IRP) : IRP :=
  if bCbOnly then set_dwFlags (Z.lor (m_dwFlags p) IRP_CALLBACK_ONLY) p
  else set_dwFlags (Z.ldiff (m_dwFlags p) IRP_CALLBACK_ONLY) p.

Definition IsNoComplete (p : IRP) : bool := has_flag (m_dwFlags p) IRP_NO_COMPLETE.
Definition SetNoComplete (bNoComplete : bool) (p : IRP) : IRP :=
  if bNoComplete then set_dwFlags (Z.lor (m_dwFlags p) IRP_NO_COMPLETE) p
  else set_dwFlags (Z.ldiff (m_dwFlags p) IRP_NO_COMPLETE) p.

Definition CompleteInPlace (p : IRP) : bool := has_flag (m_dwFlags p) IRP_COMP_INPLACE.
Definition SetCompleteInPlace (bInPlace : bool) (p : IRP) : IRP :=
  if bInPlace then set_dwFlags (Z.lor (m_dwFlags p) IRP_COMP_INPLACE) p
  else set_dwFlags (Z.ldiff (m_dwFlags p) IRP_COMP_INPLACE) p.

Definition IsSubmited (p : IRP) : bool := has_flag (m_dwFlags p) IRP_SUBMITED.
Definition SetSubmited (p : IRP) : IRP := set_dwFlags (Z.lor (m_dwFlags p) IRP_SUBMITED) p.
Definition ClearSubmited (p : IRP) : IRP := set_dwFlags (Z.ldiff (m_dwFlags p) IRP_SUBMITED) p.

(** *** Atomic state *)

Definition GetState (p : IRP) : Z := m_atmState p.

(** [compare_exchange_strong] *)
Definition SetState (iCurState iNewState : Z) (p : IRP) : IRP * bool :=
  if m_atmState p =? iCurState then (set_atmState iNewState p, true) else (p, false).

Definition CanContinue (iNewState : Z) (p : IRP) : IRP * Z :=
  if m_atmState p =? IRP_STATE_READY then (set_atmState iNewState p, 0)
  else if (m_atmState p =? IRP_STATE_COMPLETED) || (m_atmState p =? IRP_STATE_CANCELLED)
  then (p, - EPERM)
  else (p, ERROR_STATE).

(** Run on thread [tid]. *)
Definition CanComplete (tid : Z) (p : IRP) : bool :=
  if IsNoComplete p then false
  else negb (m_dwTid p =? tid) || IsPending p.
Definition CanCancel (tid : Z) (p : IRP) : bool := CanComplete tid p.

(** *** Slave IRPs *)

Definition SetMinSlaves (wCount : Z) (p : IRP) : IRP :=
  set_slaves (m_mapSlaveIrps p) (u16 wCount) p.

Definition AddSlaveIrp (pSlave : Z) (p : IRP) : IRP :=
  match m_mapSlaveIrps p !! pSlave with
  | Some _ => p
  | None =>
      set_slaves (<[pSlave := STATUS_PENDING]> (m_mapSlaveIrps p))
        (if 0 <? m_wMinSlaves p then m_wMinSlaves p - 1 else m_wMinSlaves p) p
  end.

Definition FindSlaveIrp (pSlave : Z) (p : IRP) : bool :=
  bool_decide (is_Some (m_mapSlaveIrps p !! pSlave)).
Definition RemoveSlaveIrp (pSlave : Z) (p : IRP) : IRP :=
  set_slaves (delete pSlave (m_mapSlaveIrps p)) (m_wMinSlaves p) p.
Definition RemoveAllSlaves (p : IRP) : IRP := set_slaves ∅ (m_wMinSlaves p) p.
Definition GetSlaveCount (p : IRP) : Z :=
  u32 (Z.of_nat (size (m_mapSlaveIrps p)) + m_wMinSlaves p).

Definition SetMasterIrp (pMaster : Z) (p : IRP) : IRP := set_pMasterIrp pMaster p.
Definition GetMasterIrp (p : IRP) : Z := m_pMasterIrp p.

(** *** Status, callback, timer *)

Definition SetStatus (iStatus : Z) (p : IRP) : IRP := set_iStatus iStatus p.
Definition GetStatus (p : IRP) : Z := m_iStatus p.
Definition SetCallback (pEvent dwContext : Z) (p : IRP) : IRP := set_callback pEvent dwContext p.
Definition RemoveCallback (p : IRP) : IRP := set_callback 0 0 p.
Definition ClearIrpThread (p : IRP) : IRP := set_IrpThrdPtr 0 p.

Definition HasTimer (p : IRP) : bool := 0 <? m_iTimerId p.

(** [AddTimer] belongs to the timer service: its answer is an argument. *)
Definition SetTimer (AddTimer : Z -> Z) (dwTimeoutSec pMgr : Z) (p : IRP) : IRP :=
  if 3600 * 72 <? dwTimeoutSec then set_timer dwTimeoutSec (m_iTimerId p) (m_pMgr p) p
  else if pMgr =? 0 then set_timer dwTimeoutSec (m_iTimerId p) (m_pMgr p) p
  else
    let iTimerId := AddTimer dwTimeoutSec in
    set_timer dwTimeoutSec (if 0 <? iTimerId then iTimerId else m_iTimerId p) pMgr p.

Definition RemoveTimer (p : IRP) : IRP :=
  if negb (m_pMgr p =? 0) && (0 <? m_iTimerId p)
  then set_timer (m_dwTimeoutSec p) (-1) (m_pMgr p) p else p.

(** [OnEvent( eventTimeout )] up to the call of [CancelIrp], which the I/O
    manager performs when the answer is [0]. *)
Definition OnTimeout (pMgr : Z) (p : IRP) : outcome (IRP * Z) :=
  if pMgr =? 0 then Ret (p, - EINVAL) else
  let '(p, ret) := CanContinue IRP_STATE_READY p in
  if ERROR ret then Ret (p, ret) else
  let p := set_timer (m_dwTimeoutSec p) (-1) (m_pMgr p) p in
  match last (m_vecCtxStack p) with
  | None => Undef
  | Some (pPort, c) =>
      Ret (set_stack (pop_back (m_vecCtxStack p) ++
             [(pPort, CtxSetStatus c (- ETIMEDOUT))]) p, ret)
  end.

(** ** Derived notions used in the statements *)

(** The single-bit flags of [m_dwFlags], with the accessor and the mutator
    the code gives each of them. *)
Inductive irp_flag := FlagPending | FlagSync | FlagCbOnly | FlagNoComplete
  | FlagInPlace | FlagSubmited.

#[export] Instance irp_flag_eq_dec : EqDecision irp_flag.
Proof. solve_decision. Defined.

Definition get_flag (f : irp_flag) (p : IRP) : bool :=
  match f with
  | FlagPending => IsPending p
  | FlagSync => IsSyncCall p
  | FlagCbOnly => IsCbOnly p
  | FlagNoComplete => IsNoComplete p
  | FlagInPlace => CompleteInPlace p
  | FlagSubmited => IsSubmited p
  end.

Definition put_flag (f : irp_flag) (b : bool) (p : IRP) : IRP :=
  match f with
  | FlagPending => if b then MarkPending p else RemovePending p
  | FlagSync => SetSyncCall b p
  | FlagCbOnly => SetCbOnly b p
  | FlagNoComplete => SetNoComplete b p
  | FlagInPlace => SetCompleteInPlace b p
  | FlagSubmited => if b then SetSubmited p else ClearSubmited p
  end.

(** Successive attempts to take an IRP, one new state each, with the answer
    each attempt got. *)
Fixpoint attempts (news : list Z) (p : IRP) : IRP * list Z :=
  match news with
  | [] => (p, [])
  | s :: news =>
      let '(p, r) := CanContinue s p in
      let '(p, rs) := attempts news p in (p, r :: rs)
  end.

Definition add_slaves (l : list Z) (p : IRP) : IRP := foldl (fun p s => AddSlaveIrp s p) p l.
Definition remove_slaves (l : list Z) (p : IRP) : IRP :=
  foldl (fun p s => RemoveSlaveIrp s p) p l.

Definition flag_mask (f : irp_flag) : Z :=
  match f with
  | FlagPending => IRP_PENDING
  | FlagSync => IRP_SYNC_CALL
  | FlagCbOnly => IRP_CALLBACK_ONLY
  | FlagNoComplete => IRP_NO_COMPLETE
  | FlagInPlace => IRP_COMP_INPLACE
  | FlagSubmited => IRP_SUBMITED
  end.

(** ** Lemmas *)

Lemma get_flag_mask f p : get_flag f p = has_flag (m_dwFlags p) (flag_mask f).
Proof. by destruct f. Qed.

Lemma put_flag_mask f b p :
  put_flag f b p =
    set_dwFlags (if b then Z.lor (m_dwFlags p) (flag_mask f)
                 else Z.ldiff (m_dwFlags p) (flag_mask f)) p.
Proof. by destruct f, b. Qed.

Lemma flag_mask_pos f : flag_mask f <> 0.
Proof. by destruct f. Qed.

Lemma flag_mask_disjoint f g : f <> g -> Z.land (flag_mask f) (flag_mask g) = 0.
Proof. by destruct f, g. Qed.

Lemma GetStackSize_nonneg p : 0 <= GetStackSize p.
Proof. unfold GetStackSize. lia. Qed.

Lemma pop_pushed p e : PopCtxStack (set_stack (m_vecCtxStack p ++ [e]) p) = p.
Proof.
  unfold PopCtxStack, GetStackSize. simpl. rewrite length_app. simpl.
  destruct (Z.eqb_spec (Z.of_nat (length (m_vecCtxStack p) + 1)) 0); [lia|].
  rewrite pop_back_snoc. by destruct p.
Qed.

Lemma CanContinue_ready s p :
  m_atmState p = IRP_STATE_READY -> CanContinue s p = (set_atmState s p, 0).
Proof. intros H. unfold CanContinue. by rewrite H. Qed.

Lemma CanContinue_taken s p :
  m_atmState p <> IRP_STATE_READY ->
  CanContinue s p =
    (p, if decide (m_atmState p = IRP_STATE_COMPLETED \/ m_atmState p = IRP_STATE_CANCELLED)
        then - EPERM else ERROR_STATE).
Proof.
  intros H. unfold CanContinue.
  destruct (Z.eqb_spec (m_atmState p) IRP_STATE_READY); [done|].
  destruct (Z.eqb_spec (m_atmState p) IRP_STATE_COMPLETED),
    (Z.eqb_spec (m_atmState p) IRP_STATE_CANCELLED), (decide _); simpl; tauto.
Qed.

Lemma CanContinue_taken_error s p :
  m_atmState p <> IRP_STATE_READY ->
  fst (CanContinue s p) = p /\ ERROR (snd (CanContinue s p)) = true.
Proof. intros H. rewrite CanContinue_taken by done. simpl. by case_decide. Qed.

Lemma attempts_taken news p :
  m_atmState p <> IRP_STATE_READY ->
  attempts news p = (p, replicate (length news) (snd (CanContinue IRP_STATE_READY p))).
Proof.
  intros H. induction news as [|s news IH]; simpl; [done|].
  rewrite !CanContinue_taken in * by done. simpl in *. by rewrite IH.
Qed.

Lemma SetState_spec old new p :
  SetState old new p =
    if decide (m_atmState p = old) then (set_atmState new p, true) else (p, false).
Proof.
  unfold SetState. case_decide as H.
  - by rewrite H, Z.eqb_refl.
  - by apply Z.eqb_neq in H as ->.
Qed.

Lemma add_slaves_spec l p :
  NoDup l -> (forall s, s ∈ l -> m_mapSlaveIrps p !! s = None) -> 0 <= m_wMinSlaves p ->
  size (m_mapSlaveIrps (add_slaves l p)) = (size (m_mapSlaveIrps p) + length l)%nat /\
  m_wMinSlaves (add_slaves l p) = Z.max 0 (m_wMinSlaves p - Z.of_nat (length l)).
Proof.
  revert p. induction l as [|s l IH]; intros p Hnd Hfresh Hmin.
  { simpl. split; [lia|]. lia. }
  apply NoDup_cons in Hnd as [Hs Hnd].
  assert (m_mapSlaveIrps p !! s = None) as Hnone by (apply Hfresh; set_solver).
  assert (AddSlaveIrp s p = set_slaves (<[s:=STATUS_PENDING]> (m_mapSlaveIrps p))
    (if 0 <? m_wMinSlaves p then m_wMinSlaves p - 1 else m_wMinSlaves p) p) as Hadd
    by (unfold AddSlaveIrp; by rewrite Hnone).
  change (add_slaves (s :: l) p) with (add_slaves l (AddSlaveIrp s p)).
  destruct (IH (AddSlaveIrp s p)) as [H1 H2]; [done| | |].
  - intros t Ht. rewrite Hadd. simpl. rewrite lookup_insert_ne by (intros ->; done).
    apply Hfresh. set_solver.
  - rewrite Hadd. simpl. destruct (Z.ltb_spec 0 (m_wMinSlaves p)); lia.
  - rewrite H1, H2, Hadd. simpl. rewrite map_size_insert_None by done.
    split; [lia|]. destruct (Z.ltb_spec 0 (m_wMinSlaves p)); lia.
Qed.

Lemma add_slaves_dom l p :
  dom (m_mapSlaveIrps (add_slaves l p)) = dom (m_mapSlaveIrps p) ∪ list_to_set l.
Proof.
  revert p. induction l as [|s l IH]; intros p; simpl; [set_solver|].
  change (add_slaves (s :: l) p) with (add_slaves l (AddSlaveIrp s p)).
  rewrite IH. unfold AddSlaveIrp. destruct (m_mapSlaveIrps p !! s) eqn:E; simpl.
  - assert (s ∈ dom (m_mapSlaveIrps p)) by (by apply elem_of_dom). set_solver.
  - rewrite dom_insert_L. set_solver.
Qed.

Lemma remove_slaves_spec l p :
  dom (m_mapSlaveIrps (remove_slaves l p)) = dom (m_mapSlaveIrps p) ∖ list_to_set l /\
  m_wMinSlaves (remove_slaves l p) = m_wMinSlaves p.
Proof.
  revert p. induction l as [|s l IH]; intros p; simpl; [set_solver|].
  change (remove_slaves (s :: l) p) with (remove_slaves l (RemoveSlaveIrp s p)).
  destruct (IH (RemoveSlaveIrp s p)) as [-> ->]. simpl. rewrite dom_delete_L. set_solver.
Qed.

(** ** Properties *)

(** C34: the state word arbitrates.  Of any sequence of
    attempts to take a ready IRP (completion, cancellation, slave
    cancellation, a port's own hold) the first gets the IRP and its new state
    stays; every later attempt fails and changes nothing, with [-EPERM] when
    the winner completed or cancelled the IRP and [ERROR_STATE] otherwise. *)
Theorem attempts_first_wins s news p :
  m_atmState p = IRP_STATE_READY -> s <> IRP_STATE_READY ->
  attempts (s :: news) p =
    (set_atmState s p,
     0 :: replicate (length news)
            (if decide (s = IRP_STATE_COMPLETED \/ s = IRP_STATE_CANCELLED)
             then - EPERM else ERROR_STATE)).
Proof.
  intros Hr Hs. simpl. rewrite CanContinue_ready by done.
  rewrite attempts_taken by done. by rewrite CanContinue_taken.
Qed.

Lemma attempts_first_wins_witness :
  attempts [IRP_STATE_COMPLETING; IRP_STATE_CANCELLING] (NewIrp 7) =
    (set_atmState IRP_STATE_COMPLETING (NewIrp 7), [0; ERROR_STATE]).
Proof.
  apply (attempts_first_wins IRP_STATE_COMPLETING [IRP_STATE_CANCELLING] (NewIrp 7));
    [reflexivity | discriminate].
Defined.

(** Every flag of [m_dwFlags] is its own: after a
    mutator, the accessor of that flag reads what was written, and the
    accessors of all the other flags read what they read before. *)
Theorem put_flag_get_flag f g b p :
  get_flag g (put_flag f b p) = if decide (f = g) then b else get_flag g p.
Proof.
  rewrite !get_flag_mask, put_flag_mask. simpl. case_decide as H.
  - subst. destruct b; [apply has_flag_set, flag_mask_pos|apply has_flag_clear].
  - pose proof (flag_mask_disjoint _ _ H). destruct b.
    + by apply has_flag_set_other.
    + by apply has_flag_clear_other.
Qed.

(** A context pushed for a lower port is on top with that
    port; a copy carries the commands, the status and the buffers of the
    context below it but no extension buffer; popping it restores the IRP. *)
Theorem alloc_pop pPort opt p p' :
  AllocNextStack pPort opt p = Ret (p', 0) ->
  GetTopPort p' = Ret pPort /\ PopCtxStack p' = p /\
  GetStackSize p' = GetStackSize p + 1 /\
  (opt = IOSTACK_ALLOC_COPY -> exists c, GetTopStack p = Ret c /\
     GetTopStack p' = Ret (SetExtBuf c 0)) /\
  (opt = IOSTACK_ALLOC_NEW -> GetTopStack p' = Ret NewCtx).
Proof.
  unfold AllocNextStack. intros H.
  assert (forall c, let q := set_stack (m_vecCtxStack p ++ [(pPort, c)]) p in
    GetTopPort q = Ret pPort /\ PopCtxStack q = p /\
    GetStackSize q = GetStackSize p + 1 /\ GetTopStack q = Ret c) as Hq.
  { intros c q. unfold GetTopPort, GetTopStack, GetStackSize, q; simpl.
    rewrite last_snoc, length_app. simpl. split_and!; [done|apply pop_pushed|lia|done]. }
  destruct (Z.eqb_spec opt IOSTACK_ALLOC_COPY) as [->|Hc]; simpl in H.
  - destruct (GetTopStack p) as [c| |] eqn:Ht; simplify_eq/=.
    destruct (Hq (AssignCtx NewCtx c)) as (?&?&?&?).
    split_and!; try done. intros _. exists c. split; [done|]. by destruct c.
  - destruct (Z.eqb_spec opt IOSTACK_ALLOC_NEW); simplify_eq/=.
    destruct (Hq NewCtx) as (?&?&?&?). split_and!; done.
Qed.

Lemma alloc_pop_witness :
  let p := set_stack [(3, SetMajorCmd (SetExtBuf NewCtx 9) IRP_MJ_FUNC)] (NewIrp 7) in
  exists p', AllocNextStack 5 IOSTACK_ALLOC_COPY p = Ret (p', 0) /\ PopCtxStack p' = p.
Proof.
  eexists. split; [reflexivity|].
  refine (proj1 (proj2 (alloc_pop 5 IOSTACK_ALLOC_COPY _ _ _))). reflexivity.
Defined.

(** The count that holds a master IRP back.  After
    [SetMinSlaves( n )] and the association of [l] distinct slaves the count
    is [max( n, |l| )]; once exactly these slaves are gone it is what is left
    of the quota, hence zero just when the quota was met. *)
Theorem slave_count n l p :
  m_mapSlaveIrps p = ∅ -> NoDup l -> 0 <= n < 2 ^ 16 -> Z.of_nat (length l) < 2 ^ 31 ->
  let q := add_slaves l (SetMinSlaves n p) in
  GetSlaveCount q = Z.max n (Z.of_nat (length l)) /\
  (forall s, FindSlaveIrp s q = bool_decide (s ∈ l)) /\
  GetSlaveCount (remove_slaves l q) = Z.max 0 (n - Z.of_nat (length l)).
Proof.
  intros Hm Hnd Hn Hl q.
  destruct (add_slaves_spec l (SetMinSlaves n p)) as [Hsz Hmin]; simpl in *.
  { done. } { intros. by rewrite Hm, lookup_empty. } { unfold u16. apply uN_range; lia. }
  pose proof (add_slaves_dom l (SetMinSlaves n p)) as Hdom. simpl in Hdom.
  fold q in Hsz, Hmin, Hdom.
  rewrite Hm in Hsz, Hdom. unfold u16 in Hmin. rewrite uN_small in Hmin by done.
  rewrite map_size_empty in Hsz.
  split_and!.
  - unfold GetSlaveCount. rewrite Hsz, Hmin, u32_small by lia. lia.
  - intros s. unfold FindSlaveIrp. apply bool_decide_ext.
    rewrite <- elem_of_dom, Hdom. set_solver.
  - destruct (remove_slaves_spec l q) as [Hd Hmn]. unfold GetSlaveCount. rewrite Hmn, Hmin.
    rewrite Hdom in Hd.
    assert (m_mapSlaveIrps (remove_slaves l q) = ∅) as ->
      by (apply dom_empty_inv_L; set_solver).
    rewrite map_size_empty, u32_small by lia. lia.
Qed.

Lemma slave_count_witness :
  GetSlaveCount (remove_slaves [11; 12] (add_slaves [11; 12] (SetMinSlaves 3 (NewIrp 7)))) = 1.
Proof.
  refine (proj2 (proj2 (slave_count 3 [11; 12] (NewIrp 7) _ _ _ _)));
    [reflexivity | apply (bool_decide_unpack _); vm_compute; exact I | lia | simpl; lia].
Defined.

(** The completion position.  [SetCurPos] accepts exactly
    the positions of the stack and then the current context is that entry,
    but [PopCtxStack] leaves the position alone: after the entry it points at
    is popped from a deeper stack, asking the IRP for its command throws
    [std::out_of_range]. *)
Theorem stale_curpos i p :
  0 <= i ->
  (snd (SetCurPos i p) = true <-> i < GetStackSize p) /\
  (i < GetStackSize p -> exists pPort c,
     m_vecCtxStack p !! Z.to_nat i = Some (pPort, c) /\
     GetCurPort (fst (SetCurPos i p)) = Ret pPort /\
     MajorCmd (fst (SetCurPos i p)) = Ret (GetMajorCmd c)) /\
  (0 < i -> i + 1 = GetStackSize p ->
     IsIrpHolder (fst (SetCurPos i p)) = bool_decide (i + 1 < 2 ^ 32) /\
     MajorCmd (PopCtxStack (fst (SetCurPos i p))) = Throw).
Proof.
  intros Hi. unfold SetCurPos. destruct (Z.ltb_spec i (GetStackSize p)) as [Hlt|Hge].
  2: { simpl. split_and!; [split; [done|lia]|lia|intros; lia]. }
  simpl. split_and!.
  - done.
  - intros _. unfold GetStackSize in Hlt.
    destruct (lookup_lt_is_Some_2 (m_vecCtxStack p) (Z.to_nat i)) as [[pPort c] He]; [lia|].
    exists pPort, c. unfold MajorCmd, GetCurPort, GetCurCtx, GetPortAt, GetCtxAt, GetStackSize.
    simpl. rewrite He. split_and!; [done|done|].
    destruct (Z.eqb_spec (Z.of_nat (length (m_vecCtxStack p))) 0); [lia|done].
  - intros H0 Hsz. unfold IsIrpHolder, GetCurPos, MajorCmd, PopCtxStack, GetStackSize in *.
    simpl. split.
    + rewrite <- Hsz. case_bool_decide.
      * rewrite u32_small by lia. apply Z.eqb_refl.
      * apply Z.eqb_neq. pose proof (u32_range (i + 1)). lia.
    + destruct (Z.eqb_spec (Z.of_nat (length (m_vecCtxStack p))) 0); [lia|]. simpl.
      rewrite length_pop_back.
      destruct (Z.eqb_spec (Z.of_nat (pred (length (m_vecCtxStack p)))) 0); [lia|].
      unfold GetCurCtx, GetCtxAt. simpl.
      rewrite (lookup_ge_None_2 _ _); [done|]. rewrite length_pop_back. lia.
Qed.

Lemma stale_curpos_witness :
  let p := set_stack [(3, NewCtx); (4, NewCtx)] (NewIrp 7) in
  MajorCmd (PopCtxStack (fst (SetCurPos 1 p))) = Throw.
Proof.
  intros p. refine (proj2 (proj2 (proj2 (stale_curpos 1 p _)) _ _)); [lia|lia|reflexivity].
Defined.
