(* ===== verification/PortState.v ===== *)
(** * The port state machine: [ipc/portstat.cpp], [ipc/port.h]

    [CPortState] guards a port with a stack of states: a life-cycle state at
    the bottom and the claims of the requests in progress above it.  The
    module models the transition table, every handler behind [CanContinue],
    [PushState], [PopState] and [SetPortState], and the task that resumes a
    request which waited for the shared requests to drain.

    [m_vecStates] is read from [back()] down to [front()]: the head of the
    list is the top of the stack.  IRPs live in a heap [h : Z -> IRP], address
    [0] being [nullptr]. *)

From Stdlib Require Import ZArith Lia.
From S2P Require Import Prelude Irp.
Local Open Scope rpcf_scope.

(** ** States and the transition table *)

Definition PORT_STATE_INVALID : Z := 0xFFFFFFFF.
Definition PORT_STATE_READY : Z := 0.
Definition PORT_STATE_ATTACHED : Z := 1.
Definition PORT_STATE_STARTING : Z := 2.
Definition PORT_STATE_STOPPING : Z := 3.
Definition PORT_STATE_STOPPED : Z := 4.
Definition PORT_STATE_REMOVED : Z := 5.
Definition PORT_STATE_BUSY : Z := 6.
Definition PORT_STATE_BUSY_SHARED : Z := 7.
Definition PORT_STATE_EXCLUDE_PENDING : Z := 8.
Definition PORT_STATE_STOP_RESUME : Z := 9.
Definition PORT_STATE_BUSY_RESUME : Z := 10.
Definition MAX_PORT_STATE : Z := 10.
Definition PORTSTAT_MAP_LEN : Z := 11.

Definition m_arrStatMap : list (list Z) :=
  [ (*  READY            *) [1; 0; 0;  1; 0; 0; 1; 1; 0; 0; 0];
    (*  ATTACHED         *) [0; 2; 1;  0; 0; 0; 1; 0; 0; 0; 0];
    (*  STARTING         *) [4; 3; 2;  0; 2; 0; 0; 0; 0; 0; 0];
    (*  STOPPING         *) [0; 0; 0;  2; 4; 0; 0; 0; 0; 0; 0];
    (*  STOPPED          *) [0; 1; 0;  0; 2; 1; 1; 0; 0; 0; 0];
    (*  REMOVED          *) [0; 0; 0;  0; 0; 2; 0; 0; 0; 0; 0];
    (*  BUSY             *) [3; 3; 0;  0; 3; 0; 2; 0; 0; 0; 0];
    (*  BUSY_SHARED      *) [3; 0; 0; -1; 0; 0; 0; 1; 1; 0; 0];
    (*  EXCLUDE_PENDING  *) [0; 0; 0;  0; 0; 0; 0; 0; 0; 4; 4];
    (*  STOP_RESUME      *) [0; 0; 0;  1; 0; 0; 0; 0; 0; 0; 0];
    (*  BUSY_RESUME      *) [0; 0; 0;  0; 0; 0; 1; 0; 0; 4; 0] ].

(** [m_arrStatMap[ cur ][ new ]]; out of the table is undefined. *)
Definition StatMap (cur new : Z) : outcome Z :=
  match m_arrStatMap !! Z.to_nat cur with
  | Some row => match row !! Z.to_nat new with Some a => Ret a | None => Undef end
  | None => Undef
  end.

(** ** State *)

Record CPortState := mkPortState {
  m_pExclIrp : Z;
  m_vecStates : list Z;
  m_semWaitForReady : Z;
  m_pResume : Z;
}.

Definition set_states (l : list Z) (ps : CPortState) : CPortState :=
  mkPortState (m_pExclIrp ps) l (m_semWaitForReady ps) (m_pResume ps).
Definition set_excl (v : Z) (ps : CPortState) : CPortState :=
  mkPortState v (m_vecStates ps) (m_semWaitForReady ps) (m_pResume ps).
Definition set_sem (v : Z) (ps : CPortState) : CPortState :=
  mkPortState (m_pExclIrp ps) (m_vecStates ps) v (m_pResume ps).
Definition set_resume (v : Z) (ps : CPortState) : CPortState :=
  mkPortState (m_pExclIrp ps) (m_vecStates ps) (m_semWaitForReady ps) v.

(** The constructor: a port starts attached. *)
Definition NewPortState : CPortState := mkPortState 0 [PORT_STATE_ATTACHED] 0 0.

(** [SEM_WAKEUP_SINGLE]: [sem_getvalue] answers the value of the semaphore,
    and the macro posts only when that answer is negative. *)
Definition SEM_WAKEUP_SINGLE (ps : CPortState) : CPortState :=
  let iCount := - m_semWaitForReady ps in
  if iCount <=? 0 then ps else set_sem (m_semWaitForReady ps + 1) ps.
Definition SEM_WAKEUP_ALL (ps : CPortState) : CPortState :=
  let iCount := - m_semWaitForReady ps in
  if iCount <=? 0 then ps else set_sem (m_semWaitForReady ps + iCount) ps.

Definition GetPortState (ps : CPortState) : Z :=
  match m_vecStates ps with [] => PORT_STATE_INVALID | s :: _ => s end.

(** The early [return -EINVAL] of a [bool] function is [true]. *)
Definition IsValidSubmit (ps : CPortState) (dwNewState : Z) : outcome bool :=
  if MAX_PORT_STATE <? dwNewState then Ret true else
  match m_vecStates ps with
  | [] => Undef
  | cur :: _ =>
      let! bAction := StatMap cur dwNewState in
      Ret ((bAction =? 1) || (bAction =? -1))
  end.

Definition SetPortState (dwNewState : Z) (ps : CPortState) : outcome (CPortState * Z) :=
  if MAX_PORT_STATE <? dwNewState then Ret (ps, - EINVAL) else
  match m_vecStates ps with
  | [] => Ret (set_states [dwNewState] ps, 0)
  | cur :: rest =>
      let! bAction := StatMap cur dwNewState in
      if bAction =? 0 then Ret (ps, ERROR_STATE)
      else if negb (dwNewState =? PORT_STATE_STOP_RESUME)
      then Ret (set_states (u8 dwNewState :: rest) ps, 0)
      else if negb (cur =? PORT_STATE_BUSY_RESUME) then Ret (ps, ERROR_STATE)
      else match rest with
        | [] => Undef
        | b :: below =>
            if negb (b =? PORT_STATE_READY) then Ret (set_states rest ps, ERROR_STATE)
            else Ret (set_states (u8 dwNewState :: below) ps, 0)
        end
  end.

(** [SetPortStateWake( cur, new, bWakeAll )] *)
Definition SetPortStateWake (dwCurState dwNewState : Z) (bWakeAll : bool)
    (ps : CPortState) : outcome (CPortState * bool) :=
  match m_vecStates ps with
  | [] => Ret (ps, false)
  | cur :: _ =>
      if negb (dwCurState =? cur) then Ret (ps, false) else
      let! (ps, ret) := SetPortState dwNewState ps in
      if ERROR ret then Ret (ps, false)
      else Ret (if bWakeAll then SEM_WAKEUP_ALL ps else SEM_WAKEUP_SINGLE ps, true)
  end.

Definition IsPortReady (ps : CPortState) : bool :=
  match m_vecStates ps with [] => false | s :: _ => s =? PORT_STATE_READY end.

Definition SetResumePoint (pFunc : Z) (ps : CPortState) : CPortState := set_resume pFunc ps.

(** The I/O manager of the port, [None] being [nullptr]; [GetNumCores] of it. *)
Definition PushState (mgr : option Z) (dwState : Z) (bCheckLimit : bool)
    (ps : CPortState) : CPortState * Z :=
  if PORTSTAT_MAP_LEN <? dwState then (ps, - EINVAL) else
  match mgr with
  | None => (ps, - EFAULT)
  | Some dwNumCores =>
      if bCheckLimit && (u32 (dwNumCores + 1) <? Z.of_nat (length (m_vecStates ps)))
      then (ps, - EAGAIN)
      else (set_states (u8 dwState :: m_vecStates ps) ps, 0)
  end.

(** ** Handlers

    [TopCmds h pIrp] is the major and minor command on top of the IRP's
    context stack, [None] when the handlers' guard
    [pIrp == nullptr || pIrp->GetStackSize() == 0] holds. *)
Definition TopCmds (h : Z -> IRP) (pIrp : Z) : option (Z * Z) :=
  if pIrp =? 0 then None
  else match GetTopStack (h pIrp) with
    | Ret c => Some (GetMajorCmd c, GetMinorCmd c)
    | _ => None
    end.

Section Handlers.
Context (h : Z -> IRP) (mgr : option Z).

Definition HandleReady (pIrp dwNewState : Z) (ps : CPortState) : outcome (CPortState * Z) :=
  match TopCmds h pIrp with
  | None => Ret (ps, - EINVAL)
  | Some (dwMajorCmd, dwMinorCmd) =>
      if dwMajorCmd =? IRP_MJ_PNP then
        if (dwMinorCmd =? IRP_MN_PNP_QUERY_STOP) && (dwNewState =? PORT_STATE_BUSY_SHARED)
        then Ret (PushState mgr dwNewState false ps)
        else if (dwMinorCmd =? IRP_MN_PNP_STACK_READY) && (dwNewState =? PORT_STATE_BUSY)
        then Ret (PushState mgr dwNewState false ps)
        else if (dwMinorCmd =? IRP_MN_PNP_STOP_CHILD) && (dwNewState =? PORT_STATE_BUSY_SHARED)
        then Ret (PushState mgr dwNewState false ps)
        else if (dwMinorCmd =? IRP_MN_PNP_STOP) && (dwNewState =? PORT_STATE_STOPPING)
        then SetPortState dwNewState ps
        else Ret (ps, ERROR_STATE)
      else if dwMajorCmd =? IRP_MJ_FUNC then
        if (dwNewState =? PORT_STATE_BUSY_SHARED) || (dwNewState =? PORT_STATE_BUSY)
        then Ret (PushState mgr dwNewState true ps)
        else Ret (ps, ERROR_STATE)
      else Ret (ps, ERROR_STATE)
  end.

Definition HandleAttached (pIrp dwNewState : Z) (ps : CPortState) : outcome (CPortState * Z) :=
  match TopCmds h pIrp with
  | None => Ret (ps, - EINVAL)
  | Some (dwMajorCmd, dwMinorCmd) =>
      if dwMajorCmd =? IRP_MJ_PNP then
        if (dwMinorCmd =? IRP_MN_PNP_START) && (dwNewState =? PORT_STATE_STARTING)
        then SetPortState dwNewState ps
        else if (dwMinorCmd =? IRP_MN_PNP_STACK_BUILT) && (dwNewState =? PORT_STATE_BUSY)
        then Ret (PushState mgr dwNewState true ps)
        else if (dwMinorCmd =? IRP_MN_PNP_STACK_DESTROY) && (dwNewState =? PORT_STATE_BUSY)
        then Ret (PushState mgr dwNewState false ps)
        else Ret (ps, ERROR_STATE)
      else Ret (ps, ERROR_STATE)
  end.

Definition HandleStarting (pIrp dwNewState : Z) (ps : CPortState) : outcome (CPortState * Z) :=
  match TopCmds h pIrp with
  | None => Ret (ps, - EINVAL)
  | Some (dwMajorCmd, dwMinorCmd) =>
      if dwMajorCmd =? IRP_MJ_PNP then
        if (dwMinorCmd =? IRP_MN_PNP_STOP) && (dwNewState =? PORT_STATE_STOPPING)
        then Ret (ps, - EAGAIN) else Ret (ps, ERROR_STATE)
      else Ret (ps, ERROR_STATE)
  end.

Definition HandleStopping (pIrp dwNewState : Z) (ps : CPortState) : outcome (CPortState * Z) :=
  match TopCmds h pIrp with
  | None => Ret (ps, - EINVAL)
  | Some _ => Ret (ps, ERROR_STATE)
  end.

Definition HandleStopped (pIrp dwNewState : Z) (ps : CPortState) : outcome (CPortState * Z) :=
  match TopCmds h pIrp with
  | None => Ret (ps, - EINVAL)
  | Some (dwMajorCmd, dwMinorCmd) =>
      if dwMajorCmd =? IRP_MJ_PNP then
        if (dwMinorCmd =? IRP_MN_PNP_REATTACH) && (dwNewState =? PORT_STATE_ATTACHED)
        then SetPortState dwNewState ps
        else if (dwMinorCmd =? IRP_MN_PNP_STACK_DESTROY) && (dwNewState =? PORT_STATE_BUSY)
        then Ret (PushState mgr dwNewState true ps)
        else Ret (ps, ERROR_STATE)
      else Ret (ps, ERROR_STATE)
  end.

Definition HandleRemoved (pIrp dwNewState : Z) (ps : CPortState) : outcome (CPortState * Z) :=
  match TopCmds h pIrp with
  | None => Ret (ps, - EINVAL)
  | Some _ => Ret (ps, ERROR_STATE)
  end.

(** [sem_wait]: [None] when the calling thread blocks. *)
Definition HandleBusy (pIrp dwNewState : Z) (ps : CPortState) : option (CPortState * Z) :=
  match TopCmds h pIrp with
  | None => Some (ps, - EINVAL)
  | Some _ =>
      if 0 <? m_semWaitForReady ps
      then Some (set_sem (m_semWaitForReady ps - 1) ps, ERROR_REPEAT)
      else None
  end.

Definition HandleBusyShared (pIrp dwNewState : Z) (ps : CPortState) : outcome (CPortState * Z) :=
  match TopCmds h pIrp with
  | None => Ret (ps, - EINVAL)
  | Some (dwMajorCmd, dwMinorCmd) =>
      let exclude :=
        let '(ps', ret) := PushState mgr PORT_STATE_EXCLUDE_PENDING true ps in
        if SUCCEEDED ret then (set_excl pIrp ps', STATUS_PENDING) else (ps', ret) in
      if dwMajorCmd =? IRP_MJ_PNP then
        let '(ps1, ret, bDone) :=
          if (dwMinorCmd =? IRP_MN_PNP_QUERY_STOP) && (dwNewState =? PORT_STATE_BUSY_SHARED)
          then let '(ps', r) := PushState mgr dwNewState false ps in (ps', r, SUCCEEDED r)
          else if (dwMinorCmd =? IRP_MN_PNP_STOP_CHILD) && (dwNewState =? PORT_STATE_BUSY_SHARED)
          then let '(ps', r) := PushState mgr dwNewState false ps in (ps', r, SUCCEEDED r)
          else (ps, ERROR_STATE, false) in
        if bDone then Ret (ps1, ret)
        else if dwMinorCmd =? IRP_MN_PNP_STOP then Ret exclude
        else Ret (ps1, ret)
      else if dwMajorCmd =? IRP_MJ_FUNC then
        if dwNewState =? PORT_STATE_BUSY then Ret exclude
        else if dwNewState =? PORT_STATE_BUSY_SHARED
        then Ret (PushState mgr PORT_STATE_BUSY_SHARED false ps)
        else Ret (ps, ERROR_STATE)
      else Ret (ps, - EAGAIN)
  end.

Definition HandleExclPending (pIrp dwNewState : Z) (ps : CPortState) : outcome (CPortState * Z) :=
  match TopCmds h pIrp with
  | None => Ret (ps, - EINVAL)
  | Some _ => Ret (ps, ERROR_STATE)
  end.

Definition HandleStopResume (pIrp dwNewState : Z) (ps : CPortState) : outcome (CPortState * Z) :=
  if negb (dwNewState =? PORT_STATE_STOPPING) then Ret (ps, ERROR_STATE)
  else SetPortState dwNewState ps.

Definition HandleBusyResume (pIrp dwNewState : Z) (ps : CPortState) : outcome (CPortState * Z) :=
  if negb (dwNewState =? PORT_STATE_BUSY) then Ret (ps, ERROR_STATE)
  else SetPortState dwNewState ps.

(** The [switch] of [CanContinue] for every state but [BUSY]. *)
Definition Dispatch (cur pIrp dwNewState : Z) (ps : CPortState) : outcome (CPortState * Z) :=
  if cur =? PORT_STATE_READY then HandleReady pIrp dwNewState ps
  else if cur =? PORT_STATE_ATTACHED then HandleAttached pIrp dwNewState ps
  else if cur =? PORT_STATE_STARTING then HandleStarting pIrp dwNewState ps
  else if cur =? PORT_STATE_STOPPING then HandleStopping pIrp dwNewState ps
  else if cur =? PORT_STATE_STOPPED then HandleStopped pIrp dwNewState ps
  else if cur =? PORT_STATE_REMOVED then HandleRemoved pIrp dwNewState ps
  else if cur =? PORT_STATE_BUSY_SHARED then HandleBusyShared pIrp dwNewState ps
  else if cur =? PORT_STATE_EXCLUDE_PENDING then HandleExclPending pIrp dwNewState ps
  else if cur =? PORT_STATE_STOP_RESUME then HandleStopResume pIrp dwNewState ps
  else if cur =? PORT_STATE_BUSY_RESUME then HandleBusyResume pIrp dwNewState ps
  else Ret (ps, ERROR_STATE).

(** The answer of [CanContinue]: a status, or the thread blocks for ever in
    [sem_wait] with the port lock held. *)
Inductive cc_answer := Returns (ret : Z) | Blocked.

(** The tail of [CanContinue]: a failure is logged with the commands of the
    top context, which is read without a check. *)
Definition LogFailure (pIrp ret : Z) (ps : CPortState) : outcome (CPortState * cc_answer) :=
  if ERROR ret then
    match TopCmds h pIrp with None => Undef | Some _ => Ret (ps, Returns ret) end
  else Ret (ps, Returns ret).

Fixpoint CanContinueLoop (fuel : nat) (pIrp dwNewState : Z) (ps : CPortState)
    : option (outcome (CPortState * cc_answer)) :=
  match fuel with
  | O => None
  | S fuel =>
      match m_vecStates ps with
      | [] => Some (Ret (ps, Returns ERROR_STATE))
      | cur :: _ =>
          match IsValidSubmit ps dwNewState with
          | Ret false => Some (Ret (ps, Returns ERROR_STATE))
          | Ret true =>
              if cur =? PORT_STATE_BUSY then
                match HandleBusy pIrp dwNewState ps with
                | None => Some (Ret (ps, Blocked))
                | Some (ps', ret) =>
                    if ret =? ERROR_REPEAT
                    then CanContinueLoop fuel pIrp dwNewState ps'
                    else Some (LogFailure pIrp ret ps')
                end
              else Some (let! (ps', ret) := Dispatch cur pIrp dwNewState ps in
                         LogFailure pIrp ret ps')
          | Throw => Some Throw
          | Undef => Some Undef
          end
      end
  end.

(** Each turn of the loop takes one unit of the semaphore. *)
Definition CanContinueFuel (ps : CPortState) : nat := S (Z.to_nat (m_semWaitForReady ps)).

Definition CanContinue (pIrp dwNewState : Z) (ps : CPortState)
    : option (outcome (CPortState * cc_answer)) :=
  if PORTSTAT_MAP_LEN <? dwNewState then Some (Ret (ps, Returns (- EINVAL)))
  else CanContinueLoop (CanContinueFuel ps) pIrp dwNewState ps.

(** ** Releasing a claim *)

Record pop_result := mkPop {
  pop_state : CPortState;
  pop_dwState : Z;
  pop_ret : Z;
  pop_sched : option (Z * Z);
}.

(** [sched] is the answer of the I/O manager to [ScheduleTask]; the task and
    the IRP handed to it are in [pop_sched]. *)
Definition PopState (sched dwState0 : Z) (ps : CPortState) : outcome pop_result :=
  match m_vecStates ps with
  | [] => Ret (mkPop ps dwState0 ERROR_STATE None)
  | dwState :: rest =>
      let ps := set_states rest ps in
      if dwState =? PORT_STATE_BUSY then Ret (mkPop (SEM_WAKEUP_SINGLE ps) dwState 0 None)
      else if negb (dwState =? PORT_STATE_EXCLUDE_PENDING) then Ret (mkPop ps dwState 0 None)
      else
        if Z.of_nat (length rest) <=? 1 then Ret (mkPop ps dwState ERROR_STATE None) else
        match rest with
        | [] => Undef
        | dwState :: rest =>
            if negb (dwState =? PORT_STATE_BUSY_SHARED)
            then Ret (mkPop ps dwState ERROR_STATE None)
            else
              let ps := set_states rest ps in
              match rest with
              | [] => Undef
              | below :: _ =>
                  if below =? PORT_STATE_BUSY_SHARED
                  then Ret (mkPop (set_states (PORT_STATE_EXCLUDE_PENDING :: rest) ps) dwState 0 None)
                  else if (m_pExclIrp ps =? 0) || (GetStackSize (h (m_pExclIrp ps)) =? 0)
                          || (m_pResume ps =? 0)
                  then Throw
                  else
                    let pTask := m_pResume ps in
                    let pIrp := m_pExclIrp ps in
                    let ps := set_excl 0 (set_resume 0 ps) in
                    let ps := set_states (PORT_STATE_EXCLUDE_PENDING :: rest) ps in
                    let! (ps, ret) := SetPortState PORT_STATE_BUSY_RESUME ps in
                    if ERROR ret then Ret (mkPop ps dwState ret None)
                    else Ret (mkPop ps dwState sched (Some (pTask, pIrp)))
              end
        end
  end.

(** [CPortStateResumeSubmitTask::operator()] up to the call of the resumed
    task: a nonzero status means the task is not called. *)
Definition ResumeSubmitTask (pIrp : Z) (ps : CPortState) : outcome (CPortState * Z) :=
  let ret := snd (Irp.CanContinue IRP_STATE_READY (h pIrp)) in
  if ERROR ret then Ret (ps, ret) else
  match TopCmds h pIrp with
  | None => Ret (ps, - EFAULT)
  | Some (dwMajorCmd, dwMinorCmd) =>
      if (dwMajorCmd =? IRP_MJ_PNP) && (dwMinorCmd =? IRP_MN_PNP_STOP)
      then SetPortState PORT_STATE_STOP_RESUME ps
      else Ret (ps, 0)
  end.
End Handlers.

(** ** Abstract specification: a drainable reader/writer gate

    What the stack of states promises: the port is in a life-cycle state, or
    shared by [S n] requests, or shared by [S n] requests with an exclusive
    one waiting for them, or handed over to that one, or owned exclusively. *)
Inductive gate :=
  | Life (b : Z)
  | Shared (n : nat)
  | Draining (n : nat)
  | Handover
  | Excl (b : Z).

Definition lifecycle : list Z :=
  [PORT_STATE_READY; PORT_STATE_ATTACHED; PORT_STATE_STARTING; PORT_STATE_STOPPING;
   PORT_STATE_STOPPED; PORT_STATE_REMOVED].

(** The stack of states that implements a gate. *)
Definition gate_stack (g : gate) : list Z :=
  match g with
  | Life b => [b]
  | Shared n => replicate (S n) PORT_STATE_BUSY_SHARED ++ [PORT_STATE_READY]
  | Draining n =>
      PORT_STATE_EXCLUDE_PENDING :: replicate (S n) PORT_STATE_BUSY_SHARED ++ [PORT_STATE_READY]
  | Handover => [PORT_STATE_BUSY_RESUME; PORT_STATE_READY]
  | Excl b => [PORT_STATE_BUSY; b]
  end.

Definition gate_ok (g : gate) : Prop :=
  match g with
  | Life b => b ∈ PORT_STATE_STOP_RESUME :: lifecycle
  | Excl b => b ∈ lifecycle
  | _ => True
  end.

(** The moves a gate may make. *)
Inductive gate_step : gate -> gate -> Prop :=
  | gs_stay g : gate_step g g
  | gs_first : gate_step (Life PORT_STATE_READY) (Shared 0)
  | gs_share n : gate_step (Shared n) (Shared (S n))
  | gs_unshare n : gate_step (Shared (S n)) (Shared n)
  | gs_last : gate_step (Shared 0) (Life PORT_STATE_READY)
  | gs_wait n : gate_step (Shared n) (Draining n)
  | gs_drain n : gate_step (Draining (S n)) (Draining n)
  | gs_handover : gate_step (Draining 0) Handover
  | gs_resume_busy : gate_step Handover (Excl PORT_STATE_READY)
  | gs_resume_stop : gate_step Handover (Life PORT_STATE_STOP_RESUME)
  | gs_abandon : gate_step Handover (Life PORT_STATE_READY)
  | gs_enter b : b ∈ lifecycle -> gate_step (Life b) (Excl b)
  | gs_leave b : gate_step (Excl b) (Life b)
  | gs_life b b' : b' ∈ lifecycle -> gate_step (Life b) (Life b').

(** The calls made on a port: submissions, releases by the holder of a claim,
    the resume machinery, and the life-cycle changes of the start and stop
    code, which runs while the port holds no claim. *)
Inductive port_step (h : Z -> IRP) (mgr : option Z) : CPortState -> CPortState -> Prop :=
  | ps_continue pIrp new ps ps' ans :
      0 <= new <= MAX_PORT_STATE ->
      CanContinue h mgr pIrp new ps = Some (Ret (ps', ans)) -> port_step h mgr ps ps'
  | ps_pop sched w ps r :
      (2 <= length (m_vecStates ps))%nat ->
      PopState h sched w ps = Ret r -> port_step h mgr ps (pop_state r)
  | ps_resume_point f ps : port_step h mgr ps (SetResumePoint f ps)
  | ps_resume pIrp ps ps' ret :
      GetPortState ps = PORT_STATE_BUSY_RESUME ->
      ResumeSubmitTask h pIrp ps = Ret (ps', ret) -> port_step h mgr ps ps'
  | ps_life b new ps ps' ret :
      m_vecStates ps = [b] -> new ∈ lifecycle ->
      SetPortState new ps = Ret (ps', ret) -> port_step h mgr ps ps'.

Definition port_inv (ps : CPortState) : Prop :=
  m_semWaitForReady ps = 0 /\
  exists g, gate_ok g /\ m_vecStates ps = gate_stack g.


(** What a handler may do to the stack: nothing, push a claim, or replace the
    top through [SetPortState]; with the states on top and the new states for
    which each happens. *)
Definition push_pairs : list (Z * Z) :=
  [(PORT_STATE_READY, PORT_STATE_BUSY_SHARED); (PORT_STATE_READY, PORT_STATE_BUSY);
   (PORT_STATE_ATTACHED, PORT_STATE_BUSY); (PORT_STATE_STOPPED, PORT_STATE_BUSY);
   (PORT_STATE_BUSY_SHARED, PORT_STATE_BUSY_SHARED);
   (PORT_STATE_BUSY_SHARED, PORT_STATE_EXCLUDE_PENDING)].
Definition set_pairs : list (Z * Z) :=
  [(PORT_STATE_READY, PORT_STATE_STOPPING); (PORT_STATE_ATTACHED, PORT_STATE_STARTING);
   (PORT_STATE_STOPPED, PORT_STATE_ATTACHED); (PORT_STATE_STOP_RESUME, PORT_STATE_STOPPING);
   (PORT_STATE_BUSY_RESUME, PORT_STATE_BUSY)].

Definition effect (cur new : Z) (ps ps' : CPortState) (ret : Z) : Prop :=
  ps' = ps \/
  (exists s, (cur, s) ∈ push_pairs /\ m_vecStates ps' = s :: m_vecStates ps /\
     m_semWaitForReady ps' = m_semWaitForReady ps) \/
  ((cur, new) ∈ set_pairs /\ SetPortState new ps = Ret (ps', ret)).

(** ** Lemmas *)

Lemma wakeup_idle ps : 0 <= m_semWaitForReady ps -> SEM_WAKEUP_SINGLE ps = ps.
Proof. intros H. unfold SEM_WAKEUP_SINGLE. destruct (Z.leb_spec (- m_semWaitForReady ps) 0); [done|lia]. Qed.

Ltac enum_states :=
  repeat match goal with
  | H : _ ∈ _ :: _ |- _ => apply elem_of_cons in H as [H|H]; [try discriminate H; subst|]
  | H : _ ∈ [] |- _ => by apply elem_of_nil in H
  | H : _ ∈ lifecycle |- _ => unfold lifecycle in H
  end.

Lemma new_states new :
  0 <= new <= MAX_PORT_STATE ->
  new ∈ [0; 1; 2; 3; 4; 5; 6; 7; 8; 9; 10].
Proof.
  unfold MAX_PORT_STATE. intros H.
  assert (new = 0 \/ new = 1 \/ new = 2 \/ new = 3 \/ new = 4 \/ new = 5 \/ new = 6 \/
    new = 7 \/ new = 8 \/ new = 9 \/ new = 10) as Hn by lia.
  set_solver.
Qed.

(** The pushes the handlers perform, as an equation. *)
Lemma PushState_states mgr s b ps ps' r :
  PushState mgr s b ps = (ps', r) ->
  m_semWaitForReady ps' = m_semWaitForReady ps /\
  (ps' = ps /\ ERROR r = true \/
   r = 0 /\ ps' = set_states (u8 s :: m_vecStates ps) ps).
Proof.
  unfold PushState. intros H. split_matches; simplify_eq/=; auto.
Qed.

(** A claim for exclusive use fits while the shared ones are few. *)
Lemma PushState_shared n cores ps :
  m_vecStates ps = gate_stack (Shared n) -> 0 <= cores < 2 ^ 32 - 1 ->
  Z.of_nat n + 2 <= cores + 1 ->
  PushState (Some cores) PORT_STATE_EXCLUDE_PENDING true ps =
    (set_states (gate_stack (Draining n)) ps, 0).
Proof.
  intros Hst Hc Hn. unfold PushState. rewrite Hst, u32_small by lia. simpl.
  rewrite length_app, length_replicate.
  destruct (Z.ltb_spec (cores + 1) (Z.of_nat (S (n + length [PORT_STATE_READY]))));
    [simpl in *; lia|done].
Qed.


Lemma PushState_ret0 mgr s b ps ps' :
  PushState mgr s b ps = (ps', 0) -> m_vecStates ps' = u8 s :: m_vecStates ps.
Proof.
  intros H. destruct (PushState_states _ _ _ _ _ _ H) as [_ [[_ ?]|[_ ->]]]; done.
Qed.

Lemma gate_stack_cons g : gate_stack g <> [].
Proof. by destruct g. Qed.

(** One accepted or refused submission, by the state on top. *)
Lemma continue_turn h mgr pIrp new ps ps' ans cur rest :
  m_semWaitForReady ps = 0 -> m_vecStates ps = cur :: rest ->
  0 <= new <= MAX_PORT_STATE -> cur ∈ [0; 1; 2; 3; 4; 5; 6; 7; 8; 9; 10] ->
  CanContinue h mgr pIrp new ps = Some (Ret (ps', ans)) ->
  (ps' = ps /\ (exists ret, ans = Returns ret /\ ERROR ret = true)) \/
  (exists ret a, cur <> PORT_STATE_BUSY /\ StatMap cur new = Ret a /\ (a = 1 \/ a = -1) /\
     Dispatch h mgr cur pIrp new ps = Ret (ps', ret) /\ ans = Returns ret).
Proof.
  intros Hsem Hst Hnew Hcur H.
  assert (exists a, StatMap cur new = Ret a) as [a Ha].
  { apply new_states in Hnew. enum_states; by eexists. }
  assert (cur = PORT_STATE_BUSY -> a <> 1 /\ a <> -1) as Hbusy.
  { intros ->. apply new_states in Hnew. enum_states; vm_compute in Ha; by simplify_eq. }
  unfold CanContinue, CanContinueFuel in H. rewrite Hsem in H. cbn [CanContinueLoop Z.to_nat] in H.
  unfold PORTSTAT_MAP_LEN in H. unfold MAX_PORT_STATE in Hnew.
  destruct (Z.ltb_spec 11 new); [lia|].
  rewrite Hst in H. unfold IsValidSubmit in H. rewrite Hst in H. unfold MAX_PORT_STATE in H.
  destruct (Z.ltb_spec 10 new); [lia|]. rewrite Ha in H. simpl in H.
  destruct (Z.eqb_spec a 1) as [Ha1|Ha1], (Z.eqb_spec a (-1)) as [Ha2|Ha2]; simpl in H;
    try (simplify_eq; left; split; [done|]; by eexists).
  all: destruct (Z.eqb_spec cur PORT_STATE_BUSY) as [Hb|Hb];
    [destruct (Hbusy Hb); lia|].
  all: destruct (Dispatch h mgr cur pIrp new ps) as [[ps1 ret]| |] eqn:Hd; simplify_eq/=.
  all: right; eexists ret, _; (split; [exact Hb|]); (split; [exact Ha|]);
    (split; [lia|]); unfold LogFailure in H; split_matches; auto.
Qed.

Lemma effect_push cur new s b mgr ps ps' ret :
  (cur, s) ∈ push_pairs -> PushState mgr s b ps = (ps', ret) -> effect cur new ps ps' ret.
Proof.
  intros Hin H. destruct (PushState_states _ _ _ _ _ _ H) as [Hs [[-> _]|[_ ->]]]; [by left|].
  right; left. exists s. split_and!; [done| |done]. simpl.
  unfold push_pairs in Hin. f_equal.
  repeat (apply elem_of_cons in Hin as [Hin|Hin]; [simplify_eq; done|]).
  by apply elem_of_nil in Hin.
Qed.

Lemma effect_excl cur new v ps ps' ret :
  effect cur new ps ps' ret -> (cur, new) ∉ set_pairs -> ps' <> ps ->
  effect cur new ps (set_excl v ps') STATUS_PENDING.
Proof.
  intros [->|[(s & ? & ? & ?)|[? ?]]] ? ?; [done| |done].
  right; left. exists s. done.
Qed.

Ltac or_cases := repeat match goal with
  | H : (_ || _)%bool = true |- _ => apply orb_true_iff in H as [H|H]; zify_bools
  end.

Ltac in_pairs :=
  unfold push_pairs, set_pairs; rewrite ?elem_of_cons; simplify_eq; tauto.

Ltac use_push :=
  match goal with
  | H : Ret (PushState _ _ _ _) = Ret _ |- _ => injection H as H; eapply effect_push; [|exact H]; in_pairs
  | H : PushState _ _ _ _ = _ |- _ => eapply effect_push; [|exact H]; in_pairs
  end.

Ltac use_set := match goal with
  | H : SetPortState _ _ = Ret _ |- _ => right; right; split; [in_pairs|exact H]
  end.

Lemma HandleBusyShared_effect h mgr pIrp new ps ps' ret :
  HandleBusyShared h mgr pIrp new ps = Ret (ps', ret) ->
  effect PORT_STATE_BUSY_SHARED new ps ps' ret.
Proof.
  unfold HandleBusyShared. intros H.
  destruct (TopCmds h pIrp) as [[major minor]|]; [|simplify_eq; by left].
  assert (forall r, (let '(ps'0, ret0) := PushState mgr PORT_STATE_EXCLUDE_PENDING true ps in
    if SUCCEEDED ret0 then (set_excl pIrp ps'0, STATUS_PENDING) else (ps'0, ret0)) = r ->
    effect PORT_STATE_BUSY_SHARED new ps (fst r) (snd r)) as Hx.
  { intros r <-. destruct (PushState mgr PORT_STATE_EXCLUDE_PENDING true ps) as [q e] eqn:Hp.
    destruct (PushState_states _ _ _ _ _ _ Hp) as [Hs [[-> He]|[-> ->]]]; simpl.
    - unfold SUCCEEDED. unfold ERROR in He. apply Z.ltb_lt in He.
      destruct (Z.eqb_spec e 0); [lia|]. by left.
    - right; left. exists PORT_STATE_EXCLUDE_PENDING. split_and!; [in_pairs|done|done]. }
  set (x := let '(_, _) := PushState mgr PORT_STATE_EXCLUDE_PENDING true ps in _) in *.
  specialize (Hx x eq_refl).
  repeat (case_match; zify_bools; subst; simplify_eq/=);
    try (by left); try (by rewrite H in Hx); try exact Hx; try use_push.
Qed.

Lemma Dispatch_effect h mgr cur pIrp new ps ps' ret :
  Dispatch h mgr cur pIrp new ps = Ret (ps', ret) -> effect cur new ps ps' ret.
Proof.
  unfold Dispatch, HandleReady, HandleAttached, HandleStarting, HandleStopping, HandleStopped,
    HandleRemoved, HandleExclPending, HandleStopResume, HandleBusyResume.
  intros H. repeat (case_match; zify_bools; or_cases; subst);
    try (simplify_eq; by left); try use_set; try use_push.
  - by apply HandleBusyShared_effect in H.
Qed.

(** [SetPortState] on a one-element stack, and on the hand-over state. *)
Lemma SetPortState_top new ps ps' ret cur rest :
  m_vecStates ps = cur :: rest -> new <> PORT_STATE_STOP_RESUME ->
  SetPortState new ps = Ret (ps', ret) ->
  (ps' = ps /\ ERROR ret = true) \/
  (new <= MAX_PORT_STATE /\ ret = 0 /\ ps' = set_states (u8 new :: rest) ps).
Proof.
  unfold SetPortState. intros Hst Hn H. rewrite Hst in H.
  destruct (Z.ltb_spec MAX_PORT_STATE new); [simplify_eq; by left|].
  destruct (StatMap cur new) as [a| |]; simplify_eq/=.
  case_match; [simplify_eq; by left|].
  apply Z.eqb_neq in Hn as Hn'. rewrite Hn' in H. simplify_eq/=. by right.
Qed.

Lemma top_of_shared n rest cur :
  replicate n PORT_STATE_BUSY_SHARED ++ [PORT_STATE_READY] = cur :: rest ->
  (n = 0%nat /\ cur = PORT_STATE_READY /\ rest = []) \/
  (cur = PORT_STATE_BUSY_SHARED /\ exists m, n = S m /\
     rest = replicate m PORT_STATE_BUSY_SHARED ++ [PORT_STATE_READY]).
Proof. destruct n; simpl; intros; simplify_eq; [left; done|right; eauto]. Qed.

Ltac in_pair_cases H :=
  unfold push_pairs, set_pairs in H;
  repeat (apply elem_of_cons in H as [H|H]; [|]); [..|by apply elem_of_nil in H].

Lemma lifecycle_small b : b ∈ lifecycle -> u8 b = b.
Proof. intros H. enum_states; done. Qed.

Ltac in_life :=
  simpl; unfold lifecycle; repeat first [apply list_elem_of_here | apply list_elem_of_further].

(** What an effect means for the gate. *)
Lemma effect_simulates g new ps ps' ret cur rest :
  gate_ok g -> m_vecStates ps = gate_stack g -> gate_stack g = cur :: rest ->
  effect cur new ps ps' ret ->
  exists g', gate_ok g' /\ m_vecStates ps' = gate_stack g' /\ gate_step g g'.
Proof.
  intros Hok Hst Hg [->|[(s & Hin & Hs & _)|[Hin Hset]]].
  - exists g. split_and!; [done|done|constructor].
  - rewrite Hs, Hst. clear Hs. in_pair_cases Hin; simplify_eq;
      destruct g as [b|n|n| |b]; simplify_eq/=; try (exfalso; enum_states; done).
    + exists (Shared 0). split_and!; [done|done|constructor].
    + exists (Excl PORT_STATE_READY). split_and!; [in_life|done|constructor; in_life].
    + exists (Excl PORT_STATE_ATTACHED). split_and!; [in_life|done|constructor; in_life].
    + exists (Excl PORT_STATE_STOPPED). split_and!; [in_life|done|constructor; in_life].
    + exists (Shared (S n)). split_and!; [done|done|constructor].
    + exists (Draining n). split_and!; [done|done|constructor].
  - assert (new <> PORT_STATE_STOP_RESUME) as Hnew by (in_pair_cases Hin; by simplify_eq).
    destruct (SetPortState_top _ _ _ _ _ _ (eq_trans Hst Hg) Hnew Hset)
      as [[-> _]|(_ & _ & ->)].
    { exists g. split_and!; [done|done|constructor]. }
    in_pair_cases Hin; simplify_eq; destruct g as [b|n|n| |b]; simplify_eq/=;
      try (exfalso; enum_states; done).
    1-4: eexists (Life _); simpl; (split; [|split; [reflexivity|]]); [in_life|].
    1-4: apply gs_life; in_life.
    exists (Excl PORT_STATE_READY). split_and!; [in_life|done|constructor].
Qed.

Lemma effect_sem cur new ps ps' ret :
  effect cur new ps ps' ret -> m_semWaitForReady ps' = m_semWaitForReady ps.
Proof.
  intros [->|[(s & _ & _ & ?)|[_ H]]]; [done|done|].
  unfold SetPortState in H.
  repeat (case_match; simplify_eq/=; try done); unfold obind in H; repeat (case_match; simplify_eq/=; try done).
Qed.

(** What releasing a claim does, per gate. *)
Lemma PopState_gate h sched w ps g r :
  gate_ok g -> 0 <= m_semWaitForReady ps -> m_vecStates ps = gate_stack g ->
  (2 <= length (gate_stack g))%nat ->
  PopState h sched w ps = Ret r ->
  m_semWaitForReady (pop_state r) = m_semWaitForReady ps /\
  match g with
  | Shared (S n) => m_vecStates (pop_state r) = gate_stack (Shared n) /\ pop_sched r = None
  | Shared O | Handover =>
      m_vecStates (pop_state r) = gate_stack (Life PORT_STATE_READY) /\ pop_sched r = None
  | Excl b => m_vecStates (pop_state r) = gate_stack (Life b) /\ pop_sched r = None
  | Draining (S n) =>
      m_vecStates (pop_state r) = gate_stack (Draining n) /\ pop_sched r = None /\
      m_pExclIrp (pop_state r) = m_pExclIrp ps /\ m_pResume (pop_state r) = m_pResume ps
  | Draining O =>
      m_vecStates (pop_state r) = gate_stack Handover /\
      pop_sched r = Some (m_pResume ps, m_pExclIrp ps) /\
      m_pExclIrp (pop_state r) = 0 /\ m_pResume (pop_state r) = 0
  | Life _ => False
  end.
Proof.
  intros Hok Hsem Hst Hlen H. unfold PopState in H. rewrite Hst in H.
  destruct g as [b|[|n]|[|n]| |b]; simpl in *; try lia; simplify_eq/=; try done.
  - split_matches.
  - rewrite length_app, length_replicate in H. simpl in H.
    destruct (Z.leb_spec (Z.of_nat (S (S (n + 1)))) 1); [lia|]. by simplify_eq/=.
  - rewrite wakeup_idle by done. done.
Qed.

Lemma gate_top_range g cur rest :
  gate_ok g -> gate_stack g = cur :: rest -> cur ∈ [0; 1; 2; 3; 4; 5; 6; 7; 8; 9; 10].
Proof.
  intros Hok Hg. destruct g as [b|n|n| |b]; simpl in *; simplify_eq; enum_states; in_life.
Qed.

Lemma continue_simulates h mgr pIrp new ps ps' ans g :
  0 <= new <= MAX_PORT_STATE -> gate_ok g -> m_semWaitForReady ps = 0 ->
  m_vecStates ps = gate_stack g ->
  CanContinue h mgr pIrp new ps = Some (Ret (ps', ans)) ->
  m_semWaitForReady ps' = 0 /\
  (exists ret, ans = Returns ret) /\
  exists g', gate_ok g' /\ m_vecStates ps' = gate_stack g' /\ gate_step g g'.
Proof.
  intros Hnew Hok Hsem Hst H.
  destruct (gate_stack g) as [|cur rest] eqn:Hg; [by apply gate_stack_cons in Hg|].
  pose proof (gate_top_range _ _ _ Hok Hg) as Hcur.
  destruct (continue_turn _ _ _ _ _ _ _ _ _ Hsem Hst Hnew Hcur H)
    as [[-> (ret & -> & _)]|(ret & a & Hb & Ha & Hva & Hd & ->)].
  - split_and!; [done|eauto|]. exists g. rewrite Hg. split_and!; [done|done|constructor].
  - apply Dispatch_effect in Hd. split_and!; [|eauto|].
    + by rewrite (effect_sem _ _ _ _ _ Hd).
    + rewrite <- Hg in Hst. by eapply effect_simulates.
Qed.

Lemma SetPortState_sem new ps ps' ret :
  SetPortState new ps = Ret (ps', ret) -> m_semWaitForReady ps' = m_semWaitForReady ps.
Proof.
  unfold SetPortState, obind. intros H. by repeat (case_match; simplify_eq/=; try done).
Qed.

Lemma resume_simulates h pIrp ps ps' ret g :
  gate_ok g -> m_vecStates ps = gate_stack g ->
  GetPortState ps = PORT_STATE_BUSY_RESUME -> ResumeSubmitTask h pIrp ps = Ret (ps', ret) ->
  m_semWaitForReady ps' = m_semWaitForReady ps /\
  exists g', gate_ok g' /\ m_vecStates ps' = gate_stack g' /\ gate_step g g'.
Proof.
  intros Hok Hst Htop H. unfold GetPortState in Htop. rewrite Hst in Htop.
  destruct g as [b|n|n| |b]; simpl in *; try done.
  { subst. exfalso. enum_states; done. }
  assert (ps' = ps \/ ps' = set_states [PORT_STATE_STOP_RESUME] ps) as Hps.
  { unfold ResumeSubmitTask, SetPortState in H. rewrite Hst in H. simpl in H.
    repeat (case_match; simplify_eq/=; auto). }
  destruct Hps as [->| ->]; (split; [done|]).
  - exists Handover. split_and!; [done|done|constructor].
  - exists (Life PORT_STATE_STOP_RESUME). split_and!; [in_life|done|constructor].
Qed.

Lemma life_simulates new ps ps' ret b g :
  gate_ok g -> m_vecStates ps = gate_stack g -> m_vecStates ps = [b] -> new ∈ lifecycle ->
  SetPortState new ps = Ret (ps', ret) ->
  exists g', gate_ok g' /\ m_vecStates ps' = gate_stack g' /\ gate_step g g'.
Proof.
  intros Hok Hst Hb Hnew H.
  assert (new <> PORT_STATE_STOP_RESUME) as Hn by (intros ->; enum_states; done).
  assert (g = Life b) as ->.
  { rewrite Hb in Hst. destruct g as [b'|n|n| |b']; simpl in *; simplify_eq; try done.
    by destruct n. }
  destruct (SetPortState_top _ _ _ _ _ _ Hb Hn H) as [[-> _]|(_ & _ & ->)].
  - exists (Life b). split_and!; [done|done|constructor].
  - exists (Life new). rewrite lifecycle_small by done.
    split_and!; [by apply list_elem_of_further|done|by constructor].
Qed.

Lemma StatMap_total cur new :
  cur ∈ [0; 1; 2; 3; 4; 5; 6; 7; 8; 9; 10] -> 0 <= new <= MAX_PORT_STATE ->
  exists a, StatMap cur new = Ret a.
Proof. intros Hcur Hnew%new_states. enum_states; by eexists. Qed.

Lemma SetPortState_total new ps cur rest :
  m_vecStates ps = cur :: rest -> cur ∈ [0; 1; 2; 3; 4; 5; 6; 7; 8; 9; 10] ->
  0 <= new <= MAX_PORT_STATE -> new <> PORT_STATE_STOP_RESUME ->
  exists r, SetPortState new ps = Ret r.
Proof.
  intros Hst Hcur Hnew Hn. unfold SetPortState. rewrite Hst.
  destruct (StatMap_total _ _ Hcur Hnew) as [a ->].
  apply Z.eqb_neq in Hn as ->. simpl. repeat case_match; by eexists.
Qed.

Lemma HandleBusyShared_total h mgr pIrp new ps :
  exists r, HandleBusyShared h mgr pIrp new ps = Ret r.
Proof. unfold HandleBusyShared. repeat case_match; by eexists. Qed.

Lemma Dispatch_total h mgr pIrp new ps cur rest :
  m_vecStates ps = cur :: rest -> cur ∈ [0; 1; 2; 3; 4; 5; 6; 7; 8; 9; 10] ->
  0 <= new <= MAX_PORT_STATE -> exists r, Dispatch h mgr cur pIrp new ps = Ret r.
Proof.
  intros Hst Hcur Hnew.
  unfold Dispatch, HandleReady, HandleAttached, HandleStarting, HandleStopping, HandleStopped,
    HandleRemoved, HandleExclPending, HandleStopResume, HandleBusyResume.
  repeat (case_match; zify_bools; subst);
    try (by eexists); try (by apply HandleBusyShared_total);
    eapply SetPortState_total; eauto; done.
Qed.








(** ** Properties *)

(** C1: the stack of states implements the reader/writer gate: every call made
    on the port, whatever the IRP and its answer, is a move of the gate. *)
Theorem port_refines_gate h mgr ps ps' g :
  gate_ok g -> m_semWaitForReady ps = 0 -> m_vecStates ps = gate_stack g ->
  port_step h mgr ps ps' ->
  m_semWaitForReady ps' = 0 /\
  exists g', gate_ok g' /\ m_vecStates ps' = gate_stack g' /\ gate_step g g'.
Proof.
  intros Hok Hsem Hst Hstep.
  destruct Hstep as [pIrp new ps ps' ans Hnew H|sched w ps r Hlen H|f ps
    |pIrp ps ps' ret Htop H|b new ps ps' ret Hb Hnew H].
  - destruct (continue_simulates _ _ _ _ _ _ _ _ Hnew Hok Hsem Hst H) as (? & _ & ?). done.
  - rewrite Hst in Hlen.
    assert (0 <= m_semWaitForReady ps) as Hs0 by lia.
    destruct (PopState_gate _ _ _ _ _ _ Hok Hs0 Hst Hlen H) as [Hs Hc].
    split; [congruence|].
    destruct g as [b|[|n]|[|n]| |b]; [done|..]; eexists; (split; [|split; [apply Hc|constructor]]);
      simpl in *; first [done | by apply list_elem_of_further | in_life].
  - split; [done|]. exists g. split_and!; [done|done|constructor].
  - destruct (resume_simulates _ _ _ _ _ _ Hok Hst Htop H) as [? ?]. split; [congruence|done].
  - split; [|by eapply life_simulates]. by rewrite (SetPortState_sem _ _ _ _ H).
Qed.

Lemma port_refines_gate_witness :
  let c := SetMinorCmd (SetMajorCmd NewCtx IRP_MJ_FUNC) 1 in
  let h (p : Z) := set_stack [(5, c)] (NewIrp 1) in
  let ps := mkPortState 0 [PORT_STATE_READY] 0 0 in
  exists g', gate_step (Life PORT_STATE_READY) g' /\
    gate_stack g' = [PORT_STATE_BUSY_SHARED; PORT_STATE_READY].
Proof.
  intros c h ps.
  destruct (port_refines_gate h (Some 4) ps
    (mkPortState 0 [PORT_STATE_BUSY_SHARED; PORT_STATE_READY] 0 0) (Life PORT_STATE_READY))
    as (_ & g' & _ & Hs & Hg).
  - vm_compute. in_life.
  - reflexivity.
  - reflexivity.
  - apply (ps_continue h (Some 4) 7 PORT_STATE_BUSY_SHARED ps _ (Returns 0)); [vm_compute; split; discriminate|reflexivity].
  - exists g'. split; [exact Hg|symmetry; exact Hs].
Defined.

(** C3: what every reachable port looks like.  An exclusive claim is alone
    above a life-cycle state: it never coexists with shared requests nor with
    a second exclusive one; and a request waiting for exclusive access sits
    above at least one shared request it waits for. *)
Theorem port_exclusion h mgr ps :
  rtc (port_step h mgr) NewPortState ps ->
  (exists g, gate_ok g /\ m_vecStates ps = gate_stack g) /\
  (PORT_STATE_BUSY ∈ m_vecStates ps ->
     exists b, b ∈ lifecycle /\ m_vecStates ps = [PORT_STATE_BUSY; b]) /\
  (PORT_STATE_EXCLUDE_PENDING ∈ m_vecStates ps ->
     exists n, m_vecStates ps = PORT_STATE_EXCLUDE_PENDING ::
       replicate (S n) PORT_STATE_BUSY_SHARED ++ [PORT_STATE_READY]).
Proof.
  intros Hr.
  assert (m_semWaitForReady ps = 0 /\ exists g, gate_ok g /\ m_vecStates ps = gate_stack g)
    as (_ & g & Hok & Hst).
  { assert (m_semWaitForReady NewPortState = 0 /\
      exists g, gate_ok g /\ m_vecStates NewPortState = gate_stack g) as H0.
    { split; [done|]. exists (Life PORT_STATE_ATTACHED). split; [in_life|done]. }
    induction Hr as [|x y z Hxy _ IH]; [done|]. apply IH.
    destruct H0 as (Hs & g & Hok & Hst).
    destruct (port_refines_gate _ _ _ _ _ Hok Hs Hst Hxy) as (? & g' & ? & ? & _). eauto. }
  split; [eauto|]. rewrite Hst. destruct g as [b|n|n| |b]; simpl in *; split; intros Hin.
  all: repeat rewrite ?elem_of_cons, ?elem_of_app, ?elem_of_replicate, ?elem_of_nil in Hin.
  all: try (destruct_or!; destruct_and?; try done; subst; enum_states; done).
  all: eauto.
Qed.

Lemma port_exclusion_witness :
  let ps := mkPortState 0 [PORT_STATE_BUSY; PORT_STATE_ATTACHED] 0 0 in
  exists b, b ∈ lifecycle /\ m_vecStates ps = [PORT_STATE_BUSY; b].
Proof.
  intros ps.
  set (c := SetMinorCmd (SetMajorCmd NewCtx IRP_MJ_PNP) IRP_MN_PNP_STACK_BUILT).
  refine (proj1 (proj2 (port_exclusion (fun _ => set_stack [(5, c)] (NewIrp 1)) (Some 4) ps _)) _).
  - eapply rtc_l; [|apply rtc_refl].
    apply (ps_continue _ _ 7 PORT_STATE_BUSY _ _ (Returns 0)); [vm_compute; split; discriminate|reflexivity].
  - apply list_elem_of_here.
Defined.

(** C4: [CanContinue] always answers.  On a port in any state its calls can
    lead to, with an IRP that has a context and a valid state to go to, the
    submission loop ends with a status; it never blocks on the semaphore of
    the [BUSY] state, because the transition table rejects every submission
    to a busy port first. *)
Theorem CanContinue_answers h mgr pIrp new ps g :
  gate_ok g -> m_semWaitForReady ps = 0 -> m_vecStates ps = gate_stack g ->
  is_Some (TopCmds h pIrp) -> 0 <= new <= MAX_PORT_STATE ->
  exists ps' ret, CanContinue h mgr pIrp new ps = Some (Ret (ps', Returns ret)) /\
    (GetPortState ps = PORT_STATE_BUSY -> ps' = ps /\ ret = ERROR_STATE).
Proof.
  intros Hok Hsem Hst [c Hc] Hnew.
  destruct (gate_stack g) as [|cur rest] eqn:Hg; [by apply gate_stack_cons in Hg|].
  pose proof (gate_top_range _ _ _ Hok Hg) as Hcur.
  assert (exists ps' ans, CanContinue h mgr pIrp new ps = Some (Ret (ps', ans))) as (ps' & ans & H).
  { destruct (StatMap_total _ _ Hcur Hnew) as [a Ha].
    destruct (Dispatch_total h mgr pIrp new ps cur rest Hst Hcur Hnew) as [[ps' ret] Hd].
    unfold CanContinue, CanContinueFuel, PORTSTAT_MAP_LEN. unfold MAX_PORT_STATE in Hnew.
    destruct (Z.ltb_spec 11 new); [lia|]. rewrite Hsem. cbn [CanContinueLoop Z.to_nat].
    unfold IsValidSubmit, HandleBusy, MAX_PORT_STATE. rewrite Hst, Ha, Hc, Hd, Hsem.
    destruct (Z.ltb_spec 10 new); [lia|]. cbn [obind]. change (0 <? 0) with false.
    unfold LogFailure. rewrite Hc.
    destruct ((a =? 1) || (a =? -1))%bool, (cur =? PORT_STATE_BUSY), (ERROR ret); eauto. }
  destruct (continue_turn _ _ _ _ _ _ _ _ _ Hsem Hst Hnew Hcur H)
    as [[-> (ret & -> & He)]|(ret & a & Hb & Ha & Hva & Hd & ->)].
  2: { exists ps', ret. split; [done|]. unfold GetPortState. by rewrite Hst. }
  exists ps, ret. split; [done|]. unfold GetPortState. rewrite Hst. intros ->. split; [done|].
  unfold CanContinue, CanContinueFuel, PORTSTAT_MAP_LEN in H. unfold MAX_PORT_STATE in Hnew.
  destruct (Z.ltb_spec 11 new); [lia|]. rewrite Hsem in H. cbn [CanContinueLoop Z.to_nat] in H.
  unfold IsValidSubmit in H. rewrite Hst in H. unfold MAX_PORT_STATE in H.
  apply new_states in Hnew. enum_states; simpl in H; simplify_eq; done.
Qed.

Lemma CanContinue_answers_witness :
  let h (p : Z) := set_stack [(5, SetMajorCmd NewCtx IRP_MJ_FUNC)] (NewIrp 1) in
  let ps := mkPortState 0 [PORT_STATE_BUSY; PORT_STATE_READY] 0 0 in
  exists ps' ret, CanContinue h (Some 4) 7 PORT_STATE_BUSY_SHARED ps = Some (Ret (ps', Returns ret)).
Proof.
  intros h ps.
  destruct (CanContinue_answers h (Some 4) 7 PORT_STATE_BUSY_SHARED ps (Excl PORT_STATE_READY))
    as (ps' & ret & H & _); [in_life|reflexivity|reflexivity|by eexists|vm_compute; split; discriminate|].
  by exists ps', ret.
Defined.





(** The wake-up macros never wake anybody.  [sem_getvalue] answers the
    value of the semaphore, which is not negative, and both macros post only
    for a negative answer: releasing an exclusive claim leaves the semaphore
    of the waiters as it was. *)
Theorem wakeup_never_posts ps b :
  0 <= m_semWaitForReady ps ->
  SEM_WAKEUP_SINGLE ps = ps /\ SEM_WAKEUP_ALL ps = ps /\
  forall h sched w r, m_vecStates ps = [PORT_STATE_BUSY; b] ->
    PopState h sched w ps = Ret r -> m_semWaitForReady (pop_state r) = m_semWaitForReady ps.
Proof.
  intros H. split_and!; [by apply wakeup_idle| |].
  - unfold SEM_WAKEUP_ALL. destruct (Z.leb_spec (- m_semWaitForReady ps) 0); [done|lia].
  - intros h sched w r Hst Hp. unfold PopState in Hp. rewrite Hst in Hp. simpl in Hp.
    simplify_eq/=. by rewrite wakeup_idle.
Qed.

Lemma wakeup_never_posts_witness :
  SEM_WAKEUP_SINGLE (mkPortState 0 [PORT_STATE_READY] 0 0) = mkPortState 0 [PORT_STATE_READY] 0 0.
Proof.
  refine (proj1 (wakeup_never_posts (mkPortState 0 [PORT_STATE_READY] 0 0) 0 _)).
  simpl. lia.
Defined.

(** Refusals the handlers do not intend.  A function request for exclusive
    use of a shared port is turned away by the table, so the branch of
    [HandleBusyShared] that would queue it is dead; and a null IRP, which
    every handler answers with [-EINVAL], ends in undefined behaviour in the
    logging tail of [CanContinue] when a ready port is asked for [BUSY] or
    [BUSY_SHARED]. *)
Theorem refused_and_undefined h mgr ps n pIrp new :
  m_semWaitForReady ps = 0 ->
  (m_vecStates ps = gate_stack (Shared n) -> TopCmds h pIrp <> None ->
   CanContinue h mgr pIrp PORT_STATE_BUSY ps = Some (Ret (ps, Returns ERROR_STATE)) /\
   (forall cores, mgr = Some cores -> 0 <= cores < 2 ^ 32 - 1 -> Z.of_nat n + 2 <= cores + 1 ->
    TopCmds h pIrp = Some (IRP_MJ_FUNC, 1) ->
    exists ps', HandleBusyShared h mgr pIrp PORT_STATE_BUSY ps = Ret (ps', STATUS_PENDING))) /\
  (m_vecStates ps = [PORT_STATE_READY] -> new ∈ [PORT_STATE_BUSY; PORT_STATE_BUSY_SHARED] ->
   CanContinue h mgr 0 new ps = Some Undef).
Proof.
  intros Hsem. split.
  - intros Hst Hc. split.
    + unfold CanContinue, CanContinueFuel. rewrite Hsem. simpl.
      unfold IsValidSubmit. rewrite Hst. done.
    + intros cores -> Hcores Hn Hf. unfold HandleBusyShared. rewrite Hf. simpl.
      rewrite (PushState_shared n) by done. by eexists.
  - intros Hst Hnew. unfold CanContinue, CanContinueFuel. rewrite Hsem. simpl.
    unfold IsValidSubmit. rewrite Hst. enum_states; reflexivity.
Qed.

Lemma refused_and_undefined_witness :
  let ps := mkPortState 0 [PORT_STATE_READY] 0 0 in
  CanContinue (fun _ => NewIrp 1) (Some 4) 0 PORT_STATE_BUSY ps = Some Undef.
Proof.
  intros ps.
  refine (proj2 (refused_and_undefined (fun _ => NewIrp 1) (Some 4) ps 0 7 PORT_STATE_BUSY _) _ _);
    [reflexivity|reflexivity|apply list_elem_of_here].
Defined.
