(* ===== verification/Registry.v ===== *)
(** * The object registry: [combase/registry.cpp], [include/registry.h]

    A tree of named directory entries with properties, a root, and a current
    directory, addressed by UNIX-like paths.  Entries live in a heap indexed
    by [nat] (the addresses of the [CDirEntry] objects) so that the parent
    pointers, the raw pointer [m_pCurDir] and what [erase] unlinks can be
    talked about; an unlinked entry stays in the heap as garbage.  Strings are
    lists of characters; [V] is the type of property values ([Variant]). *)

From Stdlib Require Import ZArith Lia Ascii.
From S2P Require Import Prelude.
Local Open Scope rpcf_scope.

Abbreviation stdstr := (list ascii).
Definition lit (s : string) : stdstr := String.list_ascii_of_string s.

(** [REG_MAX_NAME] is D-Bus's [DBUS_MAXIMUM_NAME_LENGTH]. *)
Definition REG_MAX_PATH : Z := 2048.
Definition REG_MAX_NAME : Z := 255.

Definition slash : ascii := "/"%char.
Definition strlen (s : stdstr) : Z := Z.of_nat (length s).

(** ** Path decomposition *)

(** [std::string::rfind]: the position of the last occurrence. *)
Fixpoint rfind (c : ascii) (s : stdstr) : option nat :=
  match s with
  | [] => None
  | x :: s =>
      match rfind c s with
      | Some i => Some (S i)
      | None => if Ascii.eqb x c then Some O else None
      end
  end.

(** The loop of [Namei]; [strTemp] gets shorter on every turn. *)
Fixpoint NameiLoop (fuel : nat) (strTemp : stdstr) (vecComponents : list stdstr)
    : option (list stdstr) :=
  match fuel with
  | O => None
  | S fuel =>
      match strTemp with
      | [] => Some vecComponents
      | _ =>
          match rfind slash strTemp with
          | None => Some (vecComponents ++ [strTemp])
          | Some pos =>
              if (0 <? pos)%nat && (pos + 1 =? length strTemp)%nat
              then NameiLoop fuel (take pos strTemp) vecComponents
              else if (pos =? 0)%nat && (1 =? length strTemp)%nat
              then Some (vecComponents ++ [strTemp])
              else
                let vecComponents := vecComponents ++ [drop (pos + 1) strTemp] in
                if (0 <? pos)%nat
                then NameiLoop fuel (take pos strTemp) vecComponents
                else NameiLoop fuel (take (pos + 1) strTemp) vecComponents
          end
      end
  end.

Definition Namei (strPath : stdstr) : option (Z * list stdstr) :=
  if (strlen strPath =? 0) || (REG_MAX_PATH <? strlen strPath) then Some (- EINVAL, [])
  else
    match NameiLoop (S (length strPath)) strPath [] with
    | None => None
    | Some vec => Some (0, if (1 <? length vec)%nat then reverse vec else vec)
    end.

(** ** Entries and the registry *)

Section Registry.
Context {V : Type}.

Record CDirEntry := mkDir {
  m_mapChilds : gmap stdstr nat;
  m_mapProps : option (gmap Z V);
  m_pParent : option nat;
  m_strName : stdstr;
}.

Definition NewDirEntry (strName : stdstr) : CDirEntry := mkDir ∅ (Some ∅) None strName.
Definition set_childs (m : gmap stdstr nat) (e : CDirEntry) : CDirEntry :=
  mkDir m (m_mapProps e) (m_pParent e) (m_strName e).
Definition set_props (m : option (gmap Z V)) (e : CDirEntry) : CDirEntry :=
  mkDir (m_mapChilds e) m (m_pParent e) (m_strName e).
Definition SetParent (p : option nat) (e : CDirEntry) : CDirEntry :=
  mkDir (m_mapChilds e) (m_mapProps e) p (m_strName e).
Definition IsRoot (e : CDirEntry) : bool := bool_decide (m_pParent e = None).

Record CRegistry := mkReg {
  reg_heap : gmap nat CDirEntry;
  reg_next : nat;
  m_pRootDir : nat;
  m_pCurDir : nat;
}.

Definition set_heap (h : gmap nat CDirEntry) (r : CRegistry) : CRegistry :=
  mkReg h (reg_next r) (m_pRootDir r) (m_pCurDir r).
Definition set_cur (d : nat) (r : CRegistry) : CRegistry :=
  mkReg (reg_heap r) (reg_next r) (m_pRootDir r) d.

Definition NewRegistry : CRegistry :=
  mkReg {[ O := NewDirEntry (lit "/") ]} 1 0 0.

(** Access through a pointer. *)
Definition deref (r : CRegistry) (d : nat) : outcome CDirEntry :=
  match reg_heap r !! d with Some e => Ret e | None => Undef end.

(** *** [CDirEntry] operations *)

Definition GetChild (r : CRegistry) (d : nat) (strName : stdstr) : outcome (option nat) :=
  if REG_MAX_NAME <? strlen strName then Ret None else
  let! e := deref r d in Ret (m_mapChilds e !! strName).

(** [AddChild( pEnt )], for an entry that is not [nullptr]. *)
Definition AddChildEnt (d c : nat) (r : CRegistry) : outcome (CRegistry * Z) :=
  let! ent := deref r c in
  let! e := deref r d in
  match m_mapChilds e !! m_strName ent with
  | Some _ => Ret (r, - EEXIST)
  | None =>
      let h := <[c := SetParent (Some d) ent]> (reg_heap r) in
      Ret (set_heap (alter (fun e => set_childs (<[m_strName ent := c]> (m_mapChilds e)) e) d h) r, 0)
  end.

(** [AddChild( strName )]: a new entry at the next address. *)
Definition AddChild (d : nat) (strName : stdstr) (r : CRegistry) : outcome (CRegistry * Z) :=
  if REG_MAX_NAME <? strlen strName then Ret (r, - EINVAL) else
  let c := reg_next r in
  AddChildEnt d c
    (mkReg (<[c := NewDirEntry strName]> (reg_heap r)) (S c) (m_pRootDir r) (m_pCurDir r)).

Definition RemoveChild (d : nat) (strName : stdstr) (r : CRegistry) : outcome (CRegistry * Z) :=
  if REG_MAX_NAME <? strlen strName then Ret (r, - EINVAL) else
  let! e := deref r d in
  match m_mapChilds e !! strName with
  | Some _ =>
      Ret (set_heap (<[d := set_childs (delete strName (m_mapChilds e)) e]> (reg_heap r)) r, 0)
  | None => Ret (r, - ENOENT)
  end.

Definition RemoveAllChildren (d : nat) (r : CRegistry) : outcome (CRegistry * Z) :=
  let! e := deref r d in
  Ret (set_heap (<[d := set_childs ∅ e]> (reg_heap r)) r, 0).

(** [GetFullPath]: climb to the root; [fuel] bounds the climb. *)
Fixpoint FullPathLoop (fuel : nat) (r : CRegistry) (d : nat) (strPath : stdstr)
    : option (outcome stdstr) :=
  match fuel with
  | O => None
  | S fuel =>
      match reg_heap r !! d with
      | None => Some Undef
      | Some e =>
          match m_pParent e with
          | None => Some (Ret strPath)
          | Some p =>
              let strName := if (0 <? strlen strPath) then m_strName e ++ [slash] else m_strName e in
              FullPathLoop fuel r p (strName ++ strPath)
          end
      end
  end.

Definition GetFullPath (r : CRegistry) (d : nat) (strPath0 : stdstr) : option (outcome stdstr) :=
  match FullPathLoop (S (size (reg_heap r))) r d strPath0 with
  | Some (Ret s) => Some (Ret (if (0 <? strlen s) then slash :: s else lit "/"))
  | x => x
  end.

(** *** [CRegistry] operations *)

Fixpoint GetEntryLoop (r : CRegistry) (vecComp : list stdstr) (pCurDir : nat)
    : outcome (Z * nat) :=
  match vecComp with
  | [] => Ret (0, pCurDir)
  | c :: vecComp =>
      if decide (c = lit ".") then GetEntryLoop r vecComp pCurDir
      else if decide (c = lit "..") then
        if (pCurDir =? m_pRootDir r)%nat then Ret (- ENOENT, pCurDir)
        else
          let! e := deref r pCurDir in
          match m_pParent e with
          | Some p => GetEntryLoop r vecComp p
          | None => Undef
          end
      else if decide (c = lit "/") then GetEntryLoop r vecComp (m_pRootDir r)
      else
        let! oc := GetChild r pCurDir c in
        match oc with
        | None => Ret (- ENOENT, pCurDir)
        | Some d => GetEntryLoop r vecComp d
        end
  end.

(** The second component is the entry, when the first is a success. *)
Definition GetEntry (r : CRegistry) (strDir : stdstr) : outcome (Z * nat) :=
  if REG_MAX_PATH <? strlen strDir then Ret (- EINVAL, O) else
  match Namei strDir with
  | None => Undef
  | Some (ret, vecComp) =>
      if ERROR ret then Ret (ret, O) else GetEntryLoop r vecComp (m_pCurDir r)
  end.

Definition ChangeDir (strDir : stdstr) (r : CRegistry) : outcome (CRegistry * Z) :=
  let! (ret, pDir) := GetEntry r strDir in
  if ERROR ret then Ret (r, ret) else Ret (set_cur pDir r, ret).

Definition MakeEntry (strName : stdstr) (r : CRegistry) : outcome (CRegistry * Z) :=
  if REG_MAX_NAME <? strlen strName then Ret (r, - EINVAL) else
  match Namei strName with
  | None => Undef
  | Some (ret, vecComp) =>
      if ret <? 0 then Ret (r, ret)
      else if (1 <? length vecComp)%nat then Ret (r, - EINVAL)
      else match vecComp with
        | [] => Undef
        | c :: _ => if decide (c = lit "/") then Ret (r, - EINVAL)
                    else AddChild (m_pCurDir r) strName r
        end
  end.

Fixpoint ExistingLoop (r : CRegistry) (vecComp : list stdstr) (pCurDir : nat) : outcome Z :=
  match vecComp with
  | [] => Ret 0
  | c :: vecComp =>
      let! oc := GetChild r pCurDir c in
      match oc with
      | None => Ret (- ENOENT)
      | Some d => ExistingLoop r vecComp d
      end
  end.

Definition ExistingDir (r : CRegistry) (strPath : stdstr) : outcome Z :=
  if REG_MAX_PATH <? strlen strPath then Ret (- EINVAL)
  else if strlen strPath =? 0 then Ret (- EINVAL) else
  match Namei strPath with
  | None => Undef
  | Some (ret, vecComp) =>
      if ret <? 0 then Ret ret else
      match vecComp with
      | [] => Undef
      | c :: rest =>
          if decide (c = lit "/") then ExistingLoop r rest (m_pRootDir r)
          else ExistingLoop r vecComp (m_pCurDir r)
      end
  end.

(** The creation loop of [MakeDir]: the registry, the status, [pCurDir],
    [pParent] and [pRollback] when it ends. *)
Fixpoint MakeDirLoop (vecComp : list stdstr) (r : CRegistry)
    (pCurDir : nat) (pParent pRollback : option nat)
    : outcome (CRegistry * Z * nat * option nat * option nat) :=
  match vecComp with
  | [] => Ret (r, 0, pCurDir, pParent, pRollback)
  | c :: vecComp =>
      let pPar := pCurDir in
      let! oc := GetChild r pCurDir c in
      match oc with
      | Some d => MakeDirLoop vecComp r d (Some pPar) pRollback
      | None =>
          let pRollback := match pRollback with None => Some pPar | s => s end in
          let! (r, ret) := AddChild pPar c r in
          if ret <? 0 then Ret (r, ret, pPar, Some pPar, pRollback)
          else
            let! oc := GetChild r pPar c in
            match oc with
            | None => Ret (r, - EFAULT, pPar, Some pPar, pRollback)
            | Some d => MakeDirLoop vecComp r d (Some pPar) pRollback
            end
      end
  end.

(** The undo loop: [while( pRollback != pLeaf )]. *)
Fixpoint RollbackLoop (fuel : nat) (pRollback pLeaf : option nat) (r : CRegistry)
    : option (outcome CRegistry) :=
  match fuel with
  | O => None
  | S fuel =>
      if decide (pRollback = pLeaf) then Some (Ret r) else
      match pLeaf with
      | None => Some Undef
      | Some l =>
          match deref r l with
          | Ret e =>
              match m_pParent e with
              | None => RollbackLoop fuel pRollback None r
              | Some p =>
                  match RemoveChild p (m_strName e) r with
                  | Ret (r, _) => RollbackLoop fuel pRollback (Some p) r
                  | _ => Some Undef
                  end
              end
          | _ => Some Undef
          end
      end
  end.

Definition MakeDir (strPath : stdstr) (r : CRegistry) : option (outcome (CRegistry * Z)) :=
  if (strlen strPath =? 0) || (REG_MAX_PATH <? strlen strPath) then Some (Ret (r, - EINVAL)) else
  match Namei strPath with
  | None => None
  | Some (ret, vecComp) =>
      if ret <? 0 then Some (Ret (r, ret)) else
      match vecComp with
      | [] => Some Undef
      | c :: rest =>
          let '(comps, start) :=
            if decide (c = lit "/") then (rest, m_pRootDir r) else (vecComp, m_pCurDir r) in
          match MakeDirLoop comps r start None None with
          | Ret (r', ret, pCurDir, pParent, pRollback) =>
              if ERROR ret then
                match RollbackLoop (S (length comps)) pRollback pParent r' with
                | Some (Ret r'') => Some (Ret (r'', ret))
                | Some _ => Some Undef
                | None => None
                end
              else Some (Ret (set_cur pCurDir r', ret))
          | _ => Some Undef
          end
      end
  end.

Definition RemoveDir (strPath : stdstr) (r : CRegistry) : outcome (CRegistry * Z) :=
  let! (r, ret) := ChangeDir strPath r in
  if ERROR ret then Ret (r, ret) else
  let! (r, ret) := RemoveAllChildren (m_pCurDir r) r in
  let! e := deref r (m_pCurDir r) in
  let r := set_heap (<[m_pCurDir r := set_props None e]> (reg_heap r)) r in
  match m_pParent e with
  | None => Ret (r, ret)
  | Some pParent =>
      let strName := m_strName e in
      let! (r, _) := ChangeDir (lit "..") r in
      let! (r, _) := RemoveChild pParent strName r in
      Ret (r, ret)
  end.

(** Properties of the current directory; a cleared property map ([None]) is
    dereferenced without a check. *)
Definition GetProperty (iProp : Z) (r : CRegistry) : outcome (option V * Z) :=
  let! e := deref r (m_pCurDir r) in
  match m_mapProps e with
  | None => Undef
  | Some m => match m !! iProp with None => Ret (None, - ENOENT) | Some v => Ret (Some v, 0) end
  end.
Definition SetProperty (iProp : Z) (v : V) (r : CRegistry) : outcome (CRegistry * Z) :=
  let! e := deref r (m_pCurDir r) in
  match m_mapProps e with
  | None => Undef
  | Some m =>
      Ret (set_heap (<[m_pCurDir r := set_props (Some (<[iProp := v]> m)) e]> (reg_heap r)) r, 0)
  end.
Definition RemoveProperty (iProp : Z) (r : CRegistry) : outcome (CRegistry * Z) :=
  let! e := deref r (m_pCurDir r) in
  match m_mapProps e with
  | None => Undef
  | Some m =>
      match m !! iProp with
      | None => Ret (r, - ENOENT)
      | Some _ =>
          Ret (set_heap (<[m_pCurDir r := set_props (Some (delete iProp m)) e]> (reg_heap r)) r, 0)
      end
  end.

(** ** Reference notions *)

(** The segments between slashes, and the components a path should have: the
    root when it is absolute, then its segments that are not empty. *)
Fixpoint split_slash (s : stdstr) : list stdstr :=
  match s with
  | [] => [[]]
  | c :: s =>
      if Ascii.eqb c slash then [] :: split_slash s
      else match split_slash s with [] => [[c]] | x :: l => (c :: x) :: l end
  end.

Definition components (s : stdstr) : list stdstr :=
  (if decide (head s = Some slash) then [lit "/"] else []) ++
  filter (fun x => x <> []) (split_slash s).

(** Following names downwards from an entry. *)
Fixpoint walk (h : gmap nat CDirEntry) (d : nat) (path : list stdstr) : option nat :=
  match path with
  | [] => Some d
  | n :: path =>
      match h !! d with
      | None => None
      | Some e => match m_mapChilds e !! n with None => None | Some c => walk h c path end
      end
  end.

(** A well-formed registry: children know their parent and their name, the
    root has no parent, and the current directory is linked below the root. *)
Record reg_wf (r : CRegistry) : Prop := {
  wf_root : exists e, reg_heap r !! m_pRootDir r = Some e /\ m_pParent e = None;
  wf_child : forall d e n c, reg_heap r !! d = Some e -> m_mapChilds e !! n = Some c ->
    exists e', reg_heap r !! c = Some e' /\ m_pParent e' = Some d /\ m_strName e' = n /\
               strlen n <= REG_MAX_NAME;
  wf_cur : exists p, walk (reg_heap r) (m_pRootDir r) p = Some (m_pCurDir r);
  wf_next : forall d e, reg_heap r !! d = Some e -> (d < reg_next r)%nat;
}.

Definition reachable (r : CRegistry) (d : nat) : Prop :=
  exists p, walk (reg_heap r) (m_pRootDir r) p = Some d.

(** A name that [GetChild] and [AddChild] take. *)
Definition fits (n : stdstr) : Prop := strlen n <= REG_MAX_NAME.

(** What [MakeDir] has built so far: undoing the last of [k] creations below
    [d0] leads back to the entries of [h0] (those below [N]), plus unlinked
    entries without children. *)
Inductive created (h0 : gmap nat CDirEntry) (N d0 : nat) :
    gmap nat CDirEntry -> nat -> nat -> Prop :=
  | cr_nil h :
      (forall d, (d < N)%nat -> h !! d = h0 !! d) ->
      (forall d e, (N <= d)%nat -> h !! d = Some e -> m_mapChilds e = ∅) ->
      created h0 N d0 h d0 0
  | cr_snoc h leaf e p pe k :
      (N <= leaf)%nat -> h !! leaf = Some e -> m_pParent e = Some p -> h !! p = Some pe ->
      fits (m_strName e) -> is_Some (m_mapChilds pe !! m_strName e) ->
      created h0 N d0 (<[p := set_childs (delete (m_strName e) (m_mapChilds pe)) pe]> h) p k ->
      created h0 N d0 h leaf (S k).

(** The registry after a new entry [n] was linked below [d]. *)
Definition linked (r : CRegistry) (d : nat) (e : CDirEntry) (n : stdstr) : CRegistry :=
  mkReg (<[d := set_childs (<[n := reg_next r]> (m_mapChilds e)) e]>
          (<[reg_next r := mkDir ∅ (Some ∅) (Some d) n]> (reg_heap r)))
    (S (reg_next r)) (m_pRootDir r) (m_pCurDir r).

(** Every link of [h] is a link of [h']. *)
Definition links_kept (h h' : gmap nat CDirEntry) : Prop :=
  forall x ex m c, h !! x = Some ex -> m_mapChilds ex !! m = Some c ->
    exists ex', h' !! x = Some ex' /\ m_mapChilds ex' !! m = Some c.

(** What [RemoveDir] leaves of the heap: [d] emptied, its link [n] gone. *)
Definition unlinked (h : gmap nat CDirEntry) (d : nat) (e : CDirEntry) (p : nat) (pe : CDirEntry)
    (n : stdstr) : gmap nat CDirEntry :=
  <[p := set_childs (delete n (m_mapChilds pe)) pe]> (<[d := set_props None (set_childs ∅ e)]> h).

(** Where [MakeDir] starts, and the names it goes down from there. *)
Definition dir_target (strPath : stdstr) (r : CRegistry) : list stdstr * nat :=
  match components strPath with
  | [] => ([], m_pCurDir r)
  | c :: rest =>
      if decide (c = lit "/") then (rest, m_pRootDir r) else (c :: rest, m_pCurDir r)
  end.

Fixpoint ChangeDirs (moves : list stdstr) (r : CRegistry) : outcome CRegistry :=
  match moves with
  | [] => Ret r
  | s :: moves => let! (r, _) := ChangeDir s r in ChangeDirs moves r
  end.

(** A name that path resolution passes on to [GetChild] as it is. *)
Definition plain_name (n : stdstr) : Prop :=
  n <> [] /\ (slash ∉ n) /\ n <> lit "." /\ n <> lit "..".

(** The absolute path that spells the names [p]. *)
Definition path_string (p : list stdstr) : stdstr :=
  match p with [] => lit "/" | _ => concat (map (cons slash) p) end.

(** The operations on the tree, as one function. *)
Inductive reg_op :=
  | OpMakeEntry (s : stdstr)
  | OpMakeDir (s : stdstr)
  | OpChangeDir (s : stdstr)
  | OpRemoveDir (s : stdstr).

Definition run_op (o : reg_op) (r : CRegistry) : option (outcome (CRegistry * Z)) :=
  match o with
  | OpMakeEntry s => Some (MakeEntry s r)
  | OpMakeDir s => MakeDir s r
  | OpChangeDir s => Some (ChangeDir s r)
  | OpRemoveDir s => Some (RemoveDir s r)
  end.

(** ** Lemmas: paths *)

Lemma rfind_Some c s pos :
  rfind c s = Some pos -> exists a b, s = a ++ c :: b /\ length a = pos /\ c ∉ b.
Proof.
  revert pos. induction s as [|x s IH]; intros pos H; simpl in H; [done|].
  destruct (rfind c s) as [i|] eqn:Hr; simplify_eq.
  - destruct (IH i eq_refl) as (a & b & -> & <- & Hb). by exists (x :: a), b.
  - destruct (Ascii.eqb_spec x c); simplify_eq. exists [], s. split_and!; [done|done|].
    clear IH. induction s as [|y s IH]; simpl in *; [set_solver|].
    destruct (rfind c s); [done|]. destruct (Ascii.eqb_spec y c); [done|].
    rewrite not_elem_of_cons. auto.
Qed.

Lemma rfind_None c s : rfind c s = None -> c ∉ s.
Proof.
  induction s as [|y s IH]; simpl; intros H; [set_solver|].
  destruct (rfind c s); [done|]. destruct (Ascii.eqb_spec y c); [done|].
  rewrite not_elem_of_cons. auto.
Qed.

Lemma split_no_slash s : slash ∉ s -> split_slash s = [s].
Proof.
  induction s as [|c s IH]; simpl; [done|]. rewrite not_elem_of_cons. intros [Hc Hs].
  destruct (Ascii.eqb_spec c slash); [congruence|]. by rewrite IH.
Qed.

Lemma split_slash_nonempty s : split_slash s <> [].
Proof. destruct s as [|c s]; simpl; repeat case_match; done. Qed.

Lemma split_snoc a b : slash ∉ b -> split_slash (a ++ (slash :: b)) = split_slash a ++ [b].
Proof.
  intros Hb. induction a as [|c a IH]; simpl; [by rewrite split_no_slash|].
  destruct (Ascii.eqb_spec c slash); [by rewrite IH|]. rewrite IH.
  pose proof (split_slash_nonempty a). by destruct (split_slash a).
Qed.

Lemma components_snoc a b :
  a <> [] -> slash ∉ b ->
  components (a ++ (slash :: b)) = components a ++ (if decide (b = []) then [] else [b]).
Proof.
  intros Ha Hb. unfold components. rewrite split_snoc by done.
  replace (head (a ++ slash :: b)) with (head a) by (by destruct a).
  rewrite filter_app, app_assoc. f_equal.
  rewrite filter_cons, filter_nil. by case_decide; case_decide.
Qed.

Lemma components_root b :
  slash ∉ b -> components (slash :: b) = lit "/" :: (if decide (b = []) then [] else [b]).
Proof.
  intros Hb. unfold components. simpl. rewrite split_no_slash by done.
  rewrite filter_cons. rewrite decide_False by tauto.
  rewrite filter_cons, filter_nil. by case_decide; case_decide.
Qed.

Lemma components_plain s : s <> [] -> slash ∉ s -> components s = [s].
Proof.
  intros Hs Hn. unfold components. rewrite split_no_slash, filter_cons, filter_nil by done.
  rewrite (decide_False (P := head s = _)), decide_True; [done|done|].
  destruct s as [|c s]; [done|]. intros [= ->]. apply Hn, list_elem_of_here.
Qed.

Lemma NameiLoop_components fuel s vec :
  s <> [] -> (length s < fuel)%nat ->
  NameiLoop fuel s vec = Some (vec ++ reverse (components s)).
Proof.
  revert s vec. induction fuel as [|fuel IH]; intros s vec Hs Hf; [lia|].
  cbn [NameiLoop]. destruct s as [|c0 s0] eqn:Es; [done|]. rewrite <- Es in *. clear Es c0 s0.
  destruct (rfind slash s) as [pos|] eqn:Hr.
  2: { rewrite components_plain by (try done; by apply rfind_None). by rewrite reverse_singleton. }
  apply rfind_Some in Hr as (a & b & -> & <- & Hb).
  rewrite length_app in *. simpl in *. rewrite take_app_length.
  destruct (decide (a = [])) as [->|Ha].
  - rewrite app_nil_l in *. rewrite components_root by done. simpl. rewrite reverse_cons.
    destruct b as [|x b]; [done|]. simpl. rewrite IH by (try done; simpl in *; lia).
    rewrite components_root by set_solver. simpl.
    rewrite !reverse_cons, reverse_nil. simpl. by rewrite <- app_assoc.
  - assert (0 < length a)%nat as Hla by (destruct a; [done|simpl; lia]).
    destruct (Nat.ltb_spec 0 (length a)); [|lia]. simpl.
    rewrite components_snoc by done.
    destruct (decide (b = [])) as [->|Hbn].
    + rewrite (proj2 (Nat.eqb_eq _ _)) by (simpl; lia). rewrite IH by (try done; simpl in *; lia).
      by rewrite app_nil_r.
    + assert (0 < length b)%nat by (destruct b; [done|simpl; lia]).
      rewrite (proj2 (Nat.eqb_neq _ _)) by lia.
      destruct (Nat.eqb_spec (length a) 0); [lia|]. simpl.
      rewrite drop_app_ge by lia. replace (length a + 1 - length a)%nat with 1%nat by lia. simpl.
      rewrite IH by (try done; simpl in *; lia).
      rewrite reverse_app, reverse_singleton, <- app_assoc. done.
Qed.

Lemma Namei_components s :
  0 < strlen s <= REG_MAX_PATH -> Namei s = Some (0, components s).
Proof.
  intros [H0 Hmax]. unfold Namei.
  destruct (Z.eqb_spec (strlen s) 0); [lia|]. destruct (Z.ltb_spec REG_MAX_PATH (strlen s)); [lia|].
  cbn [orb]. assert (s <> []) as Hs by (intros ->; unfold strlen in H0; simpl in H0; lia).
  rewrite NameiLoop_components by (try done; lia). simpl. rewrite length_reverse, reverse_involutive.
  destruct (Nat.ltb_spec 1 (length (components s))) as [|Hl]; [done|].
  do 2 f_equal. destruct (components s) as [|x [|y l]]; simpl in *; [done|done|lia].
Qed.

Lemma Namei_rejects s :
  strlen s = 0 \/ REG_MAX_PATH < strlen s -> Namei s = Some (- EINVAL, []).
Proof.
  intros H. unfold Namei.
  destruct (Z.eqb_spec (strlen s) 0); [done|]. destruct (Z.ltb_spec REG_MAX_PATH (strlen s)); [done|lia].
Qed.

(** ** Lemmas: the tree *)

Lemma walk_app h d p q :
  walk h d (p ++ q) = match walk h d p with Some x => walk h x q | None => None end.
Proof.
  revert d. induction p as [|n p IH]; intros d; simpl; [done|].
  destruct (h !! d) as [e|]; [|done]. by destruct (m_mapChilds e !! n).
Qed.

Lemma walk_last h d p n x :
  walk h d (p ++ [n]) = Some x ->
  exists y e, walk h d p = Some y /\ h !! y = Some e /\ m_mapChilds e !! n = Some x.
Proof.
  rewrite walk_app. destruct (walk h d p) as [y|]; [|done]. simpl.
  intros H. destruct (h !! y) as [e|] eqn:He; [|done].
  destruct (m_mapChilds e !! n) eqn:Hc; simplify_eq. eauto.
Qed.

Lemma walk_live r d p x :
  reg_wf r -> is_Some (reg_heap r !! d) -> walk (reg_heap r) d p = Some x ->
  is_Some (reg_heap r !! x).
Proof.
  intros Hwf Hd. destruct p as [|n p _] using rev_ind; intros H; [by simplify_eq/=|].
  apply walk_last in H as (y & e & _ & He & Hc).
  destruct (wf_child _ Hwf _ _ _ _ He Hc) as (e' & ? & _). eauto.
Qed.

(** Growing the children maps keeps every walk. *)
Lemma walk_mono h h' d p x :
  links_kept h h' -> walk h d p = Some x -> walk h' d p = Some x.
Proof.
  intros Hm. revert d. induction p as [|n p IH]; intros d H; simpl in *; [done|].
  destruct (h !! d) as [e|] eqn:He; [|done].
  destruct (m_mapChilds e !! n) as [c|] eqn:Hc; [|done].
  destruct (Hm _ _ _ _ He Hc) as (e' & -> & ->). auto.
Qed.

(** The root-to-entry path is unique: parent and name determine it. *)
Lemma walk_inj r p q x :
  reg_wf r -> walk (reg_heap r) (m_pRootDir r) p = Some x ->
  walk (reg_heap r) (m_pRootDir r) q = Some x -> p = q.
Proof.
  intros Hwf. revert q x. destruct (wf_root _ Hwf) as (er & Her & Hpr).
  induction p as [|n p IH] using rev_ind; intros q x Hp Hq.
  - simplify_eq/=. destruct q as [|m q _] using rev_ind; [done|].
    apply walk_last in Hq as (y & e & _ & He & Hc).
    destruct (wf_child _ Hwf _ _ _ _ He Hc) as (e' & ? & ? & _). congruence.
  - apply walk_last in Hp as (y & e & Hp & He & Hc).
    destruct (wf_child _ Hwf _ _ _ _ He Hc) as (e' & Hx & Hpar & Hname & _).
    destruct q as [|m q _] using rev_ind.
    + by simplify_eq/=.
    + apply walk_last in Hq as (y' & e2 & Hq & He2 & Hc2).
      destruct (wf_child _ Hwf _ _ _ _ He2 Hc2) as (e'' & Hx' & Hpar' & Hname' & _).
      simplify_eq. by rewrite (IH _ _ Hp Hq).
Qed.

(** Changing an entry does not disturb a walk that does not go through it. *)
Lemma walk_insert h d0 e0 d p :
  (forall q s, p = q ++ s -> s <> [] -> walk h d q <> Some d0) ->
  walk (<[d0 := e0]> h) d p = walk h d p.
Proof.
  revert d. induction p as [|n p IH]; intros d Hq; simpl; [done|].
  assert (d <> d0) as Hd by (intros ->; by apply (Hq [] (n :: p))).
  rewrite lookup_insert_ne by done. destruct (h !! d) as [e|] eqn:He; [|done].
  destruct (m_mapChilds e !! n) as [c|] eqn:Hc; [|done].
  apply IH. intros q s -> Hs. specialize (Hq (n :: q) s eq_refl Hs). simpl in Hq.
  by rewrite He, Hc in Hq.
Qed.

(** The same inside a well-formed tree: changing [d0] keeps the walk to [x]
    unless [d0] is a proper ancestor of [x]. *)
Lemma walk_insert_self r e0 p x :
  reg_wf r -> walk (reg_heap r) (m_pRootDir r) p = Some x ->
  walk (<[x := e0]> (reg_heap r)) (m_pRootDir r) p = Some x.
Proof.
  intros Hwf H. rewrite walk_insert; [done|]. intros q s -> Hs Hq.
  apply Hs. pose proof (walk_inj _ _ _ _ Hwf Hq H) as Heq.
  apply (f_equal length) in Heq. rewrite length_app in Heq. apply length_zero_iff_nil. lia.
Qed.

Lemma reachable_live r d : reg_wf r -> reachable r d -> exists e, reg_heap r !! d = Some e.
Proof.
  intros Hwf [p Hp]. destruct (wf_root _ Hwf) as (er & Her & _).
  destruct (walk_live r _ _ _ Hwf (ex_intro _ _ Her) Hp) as [e ?]. eauto.
Qed.

Lemma reachable_child r d e n c :
  reachable r d -> reg_heap r !! d = Some e -> m_mapChilds e !! n = Some c -> reachable r c.
Proof.
  intros [p Hp] He Hc. exists (p ++ [n]). rewrite walk_app, Hp. simpl. by rewrite He, Hc.
Qed.

Lemma reachable_parent r d :
  reg_wf r -> reachable r d -> d <> m_pRootDir r ->
  exists e p, reg_heap r !! d = Some e /\ m_pParent e = Some p /\ reachable r p.
Proof.
  intros Hwf [p Hp] Hd. destruct p as [|n p _] using rev_ind; [by simplify_eq/=|].
  apply walk_last in Hp as (y & e & Hp & He & Hc).
  destruct (wf_child _ Hwf _ _ _ _ He Hc) as (e' & ? & ? & _).
  exists e', y. split_and!; [done|done|by exists p].
Qed.

Lemma wf_set_cur r d : reg_wf r -> reachable r d -> reg_wf (set_cur d r).
Proof. intros [] Hd. by split. Qed.

Lemma deref_live r d e : reg_heap r !! d = Some e -> deref r d = Ret e.
Proof. intros H. unfold deref. by rewrite H. Qed.

Lemma GetChild_live r d e n :
  reg_heap r !! d = Some e ->
  GetChild r d n = Ret (if decide (fits n) then m_mapChilds e !! n else None).
Proof.
  intros He. unfold GetChild, fits. rewrite (deref_live _ _ _ He).
  destruct (Z.ltb_spec REG_MAX_NAME (strlen n)); case_decide; done || lia.
Qed.

(** Path resolution answers, and a success is a linked entry. *)
Lemma GetEntryLoop_reachable r comps d :
  reg_wf r -> reachable r d ->
  exists ret d', GetEntryLoop r comps d = Ret (ret, d') /\ reachable r d' /\
    (ret = 0 \/ ret = - ENOENT).
Proof.
  intros Hwf. revert d. induction comps as [|c comps IH]; intros d Hd; simpl; [eauto 6|].
  case_decide; [by apply IH|]. case_decide.
  { destruct (Nat.eqb_spec d (m_pRootDir r)); [eauto 6|].
    destruct (reachable_parent r d Hwf Hd) as (e & p & He & Hp & Hr); [done|].
    rewrite (deref_live _ _ _ He). simpl. rewrite Hp. by apply IH. }
  case_decide; [apply IH; by exists []|].
  destruct (reachable_live r d Hwf Hd) as [e He]. rewrite (GetChild_live _ _ _ _ He). simpl.
  case_decide; [|eauto 6]. destruct (m_mapChilds e !! c) eqn:Hc; [|eauto 6].
  apply IH. by eapply reachable_child.
Qed.

Lemma GetEntry_reachable r s :
  reg_wf r -> exists ret d, GetEntry r s = Ret (ret, d) /\ (ERROR ret = false -> reachable r d /\ ret = 0).
Proof.
  intros Hwf. unfold GetEntry.
  destruct (Z.ltb_spec REG_MAX_PATH (strlen s)); [by eexists _, _|].
  destruct (decide (strlen s = 0)).
  { rewrite Namei_rejects by auto. by eexists _, _. }
  rewrite Namei_components by (unfold strlen in *; lia). simpl.
  destruct (GetEntryLoop_reachable r (components s) (m_pCurDir r) Hwf (wf_cur _ Hwf))
    as (ret & d & -> & Hd & Hret).
  exists ret, d. split; [done|]. destruct Hret as [-> | ->]; done.
Qed.

Lemma ChangeDir_wf s r :
  reg_wf r -> exists r' ret, ChangeDir s r = Ret (r', ret) /\ reg_wf r' /\
    reg_heap r' = reg_heap r /\ m_pRootDir r' = m_pRootDir r /\
    (ERROR ret = true -> r' = r) /\ (ERROR ret = false -> ret = 0).
Proof.
  intros Hwf. destruct (GetEntry_reachable r s Hwf) as (ret & d & He & Hd).
  unfold ChangeDir. rewrite He. simpl. destruct (ERROR ret) eqn:Hret.
  - exists r, ret. split_and!; try done; congruence.
  - destruct Hd as [Hd ->]; [done|]. exists (set_cur d r), 0.
    split_and!; try done. by apply wf_set_cur.
Qed.

Lemma ChangeDirs_heap moves r r' : ChangeDirs moves r = Ret r' -> reg_heap r' = reg_heap r.
Proof.
  revert r. induction moves as [|s moves IH]; intros r H; simpl in H; [by simplify_eq|].
  destruct (ChangeDir s r) as [[r1 ret]| |] eqn:Hc; simplify_eq/=. rewrite (IH _ H).
  unfold ChangeDir in Hc. destruct (GetEntry r s) as [[ret' d]| |]; simplify_eq/=.
  by destruct (ERROR ret'); simplify_eq/=.
Qed.

(** *** Creating and unlinking *)

Lemma AddChild_eq r d e n :
  reg_wf r -> reg_heap r !! d = Some e ->
  AddChild d n r =
    if decide (fits n) then
      match m_mapChilds e !! n with
      | Some _ => Ret (mkReg (<[reg_next r := NewDirEntry n]> (reg_heap r)) (S (reg_next r))
                         (m_pRootDir r) (m_pCurDir r), - EEXIST)
      | None => Ret (linked r d e n, 0)
      end
    else Ret (r, - EINVAL).
Proof.
  intros Hwf He. pose proof (wf_next _ Hwf _ _ He) as Hlt. unfold AddChild, fits.
  destruct (Z.ltb_spec REG_MAX_NAME (strlen n)); case_decide; try lia; [done|].
  unfold AddChildEnt, deref. simpl. rewrite lookup_insert_eq. simpl.
  rewrite lookup_insert_ne by lia. rewrite He. simpl.
  destruct (m_mapChilds e !! n); [done|]. do 2 f_equal.
  unfold set_heap, linked. simpl. f_equal. rewrite insert_insert_eq.
  apply map_eq. intros i. destruct (decide (i = d)) as [->|].
  - rewrite lookup_alter_eq, lookup_insert_ne, He, lookup_insert_eq by lia. done.
  - by rewrite lookup_alter_ne, (lookup_insert_ne _ d) by done.
Qed.

Lemma linked_mono r d e n :
  reg_wf r -> reg_heap r !! d = Some e -> m_mapChilds e !! n = None ->
  links_kept (reg_heap r) (reg_heap (linked r d e n)).
Proof.
  intros Hwf He Hn x ex m c Hx Hm. pose proof (wf_next _ Hwf _ _ Hx). simpl.
  destruct (decide (x = d)) as [->|].
  - rewrite lookup_insert_eq. eexists. split; [done|]. simplify_eq. simpl.
    rewrite lookup_insert_ne by congruence. done.
  - rewrite !lookup_insert_ne by lia. eauto.
Qed.

Lemma linked_wf r d e n :
  reg_wf r -> reg_heap r !! d = Some e -> m_mapChilds e !! n = None -> fits n ->
  reg_wf (linked r d e n).
Proof.
  intros Hwf He Hn Hfit. pose proof (wf_next _ Hwf _ _ He) as Hlt.
  destruct (wf_root _ Hwf) as (er & Her & Hpr). pose proof (wf_next _ Hwf _ _ Her).
  split; simpl.
  - destruct (decide (m_pRootDir r = d)) as [Hd|].
    + rewrite Hd, lookup_insert_eq. eexists. split; [done|]. simpl. congruence.
    + rewrite !lookup_insert_ne by lia. eauto.
  - intros x ex m c Hx Hm.
    assert (forall c', (c' < reg_next r)%nat -> forall e', reg_heap r !! c' = Some e' ->
      m_pParent e' = Some x /\ m_strName e' = m /\ fits m ->
      exists e'', <[d:=set_childs (<[n:=reg_next r]> (m_mapChilds e)) e]>
        (<[reg_next r:=mkDir ∅ (Some ∅) (Some d) n]> (reg_heap r)) !! c' = Some e'' /\
        m_pParent e'' = Some x /\ m_strName e'' = m /\ fits m) as Hkeep.
    { intros c' Hc' e' He' Hp. destruct (decide (c' = d)) as [->|].
      - rewrite lookup_insert_eq. eexists. split; [done|]. simplify_eq. done.
      - rewrite !lookup_insert_ne by lia. eauto. }
    apply lookup_insert_Some in Hx as [[<- <-]|[Hne Hx]].
    + simpl in Hm. apply lookup_insert_Some in Hm as [[<- <-]|[Hnm Hm]].
      * rewrite lookup_insert_ne, lookup_insert_eq by lia. eexists. split; [done|]. done.
      * destruct (wf_child _ Hwf _ _ _ _ He Hm) as (e' & He' & Hp').
        eapply Hkeep; eauto. by eapply wf_next.
    + apply lookup_insert_Some in Hx as [[<- <-]|[Hne' Hx]];
        [simpl in Hm; by rewrite lookup_empty in Hm|].
      destruct (wf_child _ Hwf _ _ _ _ Hx Hm) as (e' & He' & Hp').
      eapply Hkeep; eauto. by eapply wf_next.
  - destruct (wf_cur _ Hwf) as [p Hp]. exists p. eapply walk_mono; [|exact Hp].
    by apply linked_mono.
  - intros x ex Hx. apply lookup_insert_Some in Hx as [[<- _]|[_ Hx]]; [lia|].
    apply lookup_insert_Some in Hx as [[<- _]|[_ Hx]]; [lia|].
    pose proof (wf_next _ Hwf _ _ Hx). lia.
Qed.

Lemma set_childs_id e : set_childs (m_mapChilds e) e = e.
Proof. by destruct e. Qed.

Lemma created_garbage h0 N d0 h leaf k c x :
  created h0 N d0 h leaf k -> h !! c = None -> (N <= c)%nat -> m_mapChilds x = ∅ ->
  created h0 N d0 (<[c := x]> h) leaf k.
Proof.
  intros H Hc HN Hx. induction H as [h Hlo Hhi|h leaf e p pe k Hl He Hp Hpe Hf Hin H IH].
  - apply cr_nil.
    + intros d Hd. rewrite lookup_insert_ne by lia. auto.
    + intros d e Hd Hde. apply lookup_insert_Some in Hde as [[<- <-]|[_ Hde]]; eauto.
  - assert (p <> c) by congruence. assert (leaf <> c) by congruence.
    eapply cr_snoc; eauto; rewrite ?lookup_insert_ne by done; eauto.
    rewrite insert_insert_ne by done. apply IH. by rewrite lookup_insert_ne.
Qed.

Lemma created_linked h0 N d0 r d e n k :
  reg_wf r -> created h0 N d0 (reg_heap r) d k -> (N <= reg_next r)%nat ->
  reg_heap r !! d = Some e -> m_mapChilds e !! n = None -> fits n ->
  created h0 N d0 (reg_heap (linked r d e n)) (reg_next r) (S k).
Proof.
  intros Hwf H HN He Hn Hf. pose proof (wf_next _ Hwf _ _ He). simpl.
  eapply cr_snoc with (e := mkDir ∅ (Some ∅) (Some d) n).
  - done.
  - by rewrite lookup_insert_ne, lookup_insert_eq by lia.
  - done.
  - apply lookup_insert_eq.
  - done.
  - simpl. rewrite lookup_insert_eq. eauto.
  - simpl. rewrite insert_insert_eq, delete_insert_id by done.
    replace (set_childs (m_mapChilds e) (set_childs _ e)) with e by (by destruct e).
    rewrite insert_insert_ne, (insert_id (reg_heap r)) by (done || lia).
    apply created_garbage; try done.
    destruct (reg_heap r !! reg_next r) eqn:Hx; [|done]. pose proof (wf_next _ Hwf _ _ Hx). lia.
Qed.

(** The undo loop leads back, and allocates nothing. *)
Lemma Rollback_created h0 N d0 h leaf k fuel r :
  (d0 < N)%nat -> created h0 N d0 h leaf k -> reg_heap r = h -> (k < fuel)%nat ->
  exists h', RollbackLoop fuel (Some d0) (Some leaf) r = Some (Ret (set_heap h' r)) /\
    created h0 N d0 h' d0 0 /\ (forall d, is_Some (h' !! d) -> is_Some (h !! d)).
Proof.
  intros Hd0 H. revert fuel r.
  induction H as [h Hlo Hhi|h leaf e p pe k Hl He Hp Hpe Hf Hin H IH];
    intros fuel r Hr Hk; (destruct fuel as [|fuel]; [lia|]); simpl.
  - rewrite decide_True by done. exists h.
    split_and!; [by destruct r; simplify_eq/=|by apply cr_nil|done].
  - rewrite decide_False by (intros [=]; lia). subst h.
    rewrite (deref_live _ _ _ He), Hp. unfold RemoveChild, fits in *.
    destruct (Z.ltb_spec REG_MAX_NAME (strlen (m_strName e))); [lia|].
    rewrite (deref_live _ _ _ Hpe). simpl. destruct Hin as [c ->]. simpl.
    destruct (IH fuel (set_heap (<[p := set_childs (delete (m_strName e) (m_mapChilds pe)) pe]>
      (reg_heap r)) r)) as (h' & -> & Hh' & Hdom); [done|lia|].
    exists h'. split_and!; [done|done|]. intros d Hd. apply Hdom in Hd as [x Hx].
    apply lookup_insert_Some in Hx as [[<- _]|[_ Hx]]; eauto.
Qed.

(** *** The creation loop *)

Lemma links_kept_trans h1 h2 h3 : links_kept h1 h2 -> links_kept h2 h3 -> links_kept h1 h3.
Proof. intros H1 H2 x ex m c Hx Hm. destruct (H1 _ _ _ _ Hx Hm) as (e' & ? & ?). eauto. Qed.

Lemma links_kept_refl h : links_kept h h.
Proof. intros x ex m c. eauto. Qed.

Lemma MakeDirLoop_fresh h0 N d0 comps r d k pp :
  reg_wf r -> (N <= reg_next r)%nat -> created h0 N d0 (reg_heap r) d k ->
  (exists e, reg_heap r !! d = Some e /\ m_mapChilds e = ∅) ->
  exists r' ret d' pp',
    MakeDirLoop comps r d pp (Some d0) = Ret (r', ret, d', pp', Some d0) /\
    m_pRootDir r' = m_pRootDir r /\ m_pCurDir r' = m_pCurDir r /\ reg_wf r' /\
    (Forall fits comps /\ ret = 0 /\ walk (reg_heap r') d comps = Some d' /\
       links_kept (reg_heap r) (reg_heap r') \/
     ~ Forall fits comps /\ ret = - EINVAL /\
       exists l j, pp' = Some l /\ created h0 N d0 (reg_heap r') l j /\
         (j <= k + length comps)%nat).
Proof.
  revert r d k pp. induction comps as [|c comps IH]; intros r d k pp Hwf HN Hcr (e & He & Hch).
  { exists r, 0, d, pp. split_and!; try done. left. split_and!; auto using links_kept_refl. }
  simpl. rewrite (GetChild_live _ _ _ _ He). simpl.
  rewrite Hch, lookup_empty, (AddChild_eq _ _ _ _ Hwf He), Hch, lookup_empty.
  replace (if decide (fits c) then None else None) with (@None nat) by (by case_decide).
  destruct (decide (fits c)) as [Hf|Hf]; simpl.
  2: { exists r, (- EINVAL), d, (Some d). split_and!; try done. right. split_and!; try done.
       - intros Hall. by apply Forall_cons in Hall as [? _].
       - exists d, k. split_and!; [done|done|lia]. }
  assert (m_mapChilds e !! c = None) as Hn by (by rewrite Hch, lookup_empty).
  pose proof (linked_wf _ _ _ _ Hwf He Hn Hf) as Hwf'.
  assert (reg_heap (linked r d e c) !! d = Some (set_childs (<[c:=reg_next r]> (m_mapChilds e)) e))
    as Hd' by (simpl; by rewrite lookup_insert_eq).
  rewrite (GetChild_live _ _ _ _ Hd'), decide_True by done.
  cbn [obind m_mapChilds set_childs]. rewrite lookup_insert_eq. cbn [obind].
  pose proof (wf_next _ Hwf _ _ He).
  destruct (IH (linked r d e c) (reg_next r) (S k) (Some d))
    as (r' & ret & d' & pp' & H1 & H2 & H3 & H4 & H5).
  { done. } { simpl; lia. } { by apply created_linked. }
  { simpl. rewrite lookup_insert_ne, lookup_insert_eq by lia. eexists. split; [done|done]. }
  exists r', ret, d', pp'. split_and!; try done.
  destruct H5 as [(Hall & -> & Hw & Hk)|(Hall & -> & l & j & -> & Hl & Hj)].
  - left. split_and!; [by constructor|done| |by eapply links_kept_trans; [apply linked_mono|]].
    destruct (Hk _ _ c (reg_next r) Hd') as (e' & He' & Hc'); [simpl; by rewrite lookup_insert_eq|].
    cbn [walk]. by rewrite He', Hc'.
  - right. split_and!; try done.
    + intros Hall'. by apply Forall_cons in Hall' as [_ ?].
    + exists l, j. split_and!; [done|done|lia].
Qed.

Lemma MakeDirLoop_spec comps r d pp :
  reg_wf r -> is_Some (reg_heap r !! d) ->
  exists r' ret d' pp' pr',
    MakeDirLoop comps r d pp None = Ret (r', ret, d', pp', pr') /\
    m_pRootDir r' = m_pRootDir r /\ m_pCurDir r' = m_pCurDir r /\ reg_wf r' /\
    (Forall fits comps /\ ret = 0 /\ walk (reg_heap r') d comps = Some d' /\
       links_kept (reg_heap r) (reg_heap r') \/
     ~ Forall fits comps /\ ret = - EINVAL /\
       exists d0 l j, pr' = Some d0 /\ pp' = Some l /\ (d0 < reg_next r)%nat /\
         created (reg_heap r) (reg_next r) d0 (reg_heap r') l j /\ (j <= length comps)%nat).
Proof.
  intros Hwf. revert d pp. induction comps as [|c comps IH]; intros d pp [e He].
  { exists r, 0, d, pp, None. split_and!; try done. left. split_and!; auto using links_kept_refl. }
  pose proof (wf_next _ Hwf _ _ He) as Hlt.
  assert (created (reg_heap r) (reg_next r) d (reg_heap r) d 0) as Hnil.
  { apply cr_nil; [done|]. intros x ex Hx Hex. pose proof (wf_next _ Hwf _ _ Hex). lia. }
  cbn [MakeDirLoop]. rewrite (GetChild_live _ _ _ _ He). cbn [obind].
  destruct (decide (fits c)) as [Hf|Hf].
  2: { rewrite (AddChild_eq _ _ _ _ Hwf He), decide_False by done.
       exists r, (- EINVAL), d, (Some d), (Some d). split_and!; try done. right. split_and!; try done.
       - intros Hall. by apply Forall_cons in Hall as [? _].
       - exists d, d, O. split_and!; auto; lia. }
  destruct (m_mapChilds e !! c) as [d1|] eqn:Hc.
  { destruct (wf_child _ Hwf _ _ _ _ He Hc) as (e1 & He1 & _).
    destruct (IH d1 (Some d)) as (r' & ret & d' & pp' & pr' & H1 & H2 & H3 & H4 & H5); [eauto|].
    exists r', ret, d', pp', pr'. split_and!; try done.
    destruct H5 as [(Hall & -> & Hw & Hk)|(Hall & -> & d0 & l & j & -> & -> & ? & ? & ?)].
    - left. split_and!; [by constructor|done| |done].
      destruct (Hk _ _ _ _ He Hc) as (e' & He' & Hc'). cbn [walk]. by rewrite He', Hc'.
    - right. split_and!; try done.
      + intros Hall'. by apply Forall_cons in Hall' as [_ ?].
      + exists d0, l, j. split_and!; try done. simpl. lia. }
  rewrite (AddChild_eq _ _ _ _ Hwf He), decide_True, Hc by done.
  assert (reg_heap (linked r d e c) !! d = Some (set_childs (<[c:=reg_next r]> (m_mapChilds e)) e))
    as Hd' by (simpl; by rewrite lookup_insert_eq).
  cbn [obind]. rewrite (proj2 (Z.ltb_ge 0 0)) by lia.
  rewrite (GetChild_live _ _ _ _ Hd'), decide_True by done.
  cbn [obind m_mapChilds set_childs]. rewrite lookup_insert_eq. cbn [obind].
  pose proof (linked_wf _ _ _ _ Hwf He Hc Hf) as Hwf'.
  destruct (MakeDirLoop_fresh (reg_heap r) (reg_next r) d comps (linked r d e c) (reg_next r) 1 (Some d))
    as (r' & ret & d' & pp' & H1 & H2 & H3 & H4 & H5).
  { done. } { simpl; lia. } { by apply created_linked. }
  { simpl. rewrite lookup_insert_ne, lookup_insert_eq by lia. eexists. split; [done|done]. }
  exists r', ret, d', pp', (Some d). split_and!; try done.
  destruct H5 as [(Hall & -> & Hw & Hk)|(Hall & -> & l & j & -> & Hl & Hj)].
  - left. split_and!; [by constructor|done| |by eapply links_kept_trans; [apply linked_mono|]].
    destruct (Hk _ _ c (reg_next r) Hd') as (e' & He' & Hc'); [simpl; by rewrite lookup_insert_eq|].
    cbn [walk]. by rewrite He', Hc'.
  - right. split_and!; try done.
    + intros Hall'. by apply Forall_cons in Hall' as [_ ?].
    + exists d, l, j. split_and!; try done.
Qed.

(** *** Shrinking the tree *)

(** Taking links away, and leaving parents and names as they are, keeps the
    registry well-formed as long as the current directory stays linked. *)
Lemma shrunk_wf r h' cur :
  reg_wf r ->
  (forall x e', h' !! x = Some e' -> exists e, reg_heap r !! x = Some e /\
     m_pParent e' = m_pParent e /\ m_strName e' = m_strName e /\
     m_mapChilds e' ⊆ m_mapChilds e) ->
  (forall x, is_Some (reg_heap r !! x) -> is_Some (h' !! x)) ->
  (exists q, walk h' (m_pRootDir r) q = Some cur) ->
  reg_wf (mkReg h' (reg_next r) (m_pRootDir r) cur).
Proof.
  intros Hwf Hsh Hdom Hcur. destruct (wf_root _ Hwf) as (er & Her & Hpr). split; simpl.
  - destruct (Hdom (m_pRootDir r)) as [e' He']; [eauto|]. exists e'. split; [done|].
    destruct (Hsh _ _ He') as (e & He & -> & _). congruence.
  - intros d e' n c He' Hc. destruct (Hsh _ _ He') as (e & He & _ & _ & Hsub).
    assert (m_mapChilds e !! n = Some c) as Hc1 by (by eapply lookup_weaken).
    destruct (wf_child _ Hwf _ _ _ _ He Hc1) as (ec & Hec & Hp & Hn & Hl).
    destruct (Hdom c) as [ec' Hec']; [eauto|]. exists ec'.
    destruct (Hsh _ _ Hec') as (ec2 & ? & -> & -> & _). by simplify_eq.
  - done.
  - intros d e' He'. destruct (Hsh _ _ He') as (e & He & _). by eapply wf_next.
Qed.

Lemma RemoveDir_eq s r d :
  reg_wf r -> GetEntry r s = Ret (0, d) -> d <> m_pRootDir r ->
  exists e p pe q, reg_heap r !! d = Some e /\ m_pParent e = Some p /\ reg_heap r !! p = Some pe /\
    m_mapChilds pe !! m_strName e = Some d /\ p <> d /\
    walk (reg_heap r) (m_pRootDir r) q = Some p /\
    RemoveDir s r = Ret (mkReg (unlinked (reg_heap r) d e p pe (m_strName e)) (reg_next r)
                           (m_pRootDir r) p, 0).
Proof.
  intros Hwf Hs Hd. destruct (GetEntry_reachable r s Hwf) as (ret & d1 & Hs1 & Hr).
  rewrite Hs in Hs1. simplify_eq. destruct (Hr eq_refl) as [[q Hq] _].
  destruct q as [|n q _] using rev_ind; [by simplify_eq/=|].
  pose proof (walk_last _ _ _ _ _ Hq) as (p & pe & Hp & Hpe & Hc).
  destruct (wf_child _ Hwf _ _ _ _ Hpe Hc) as (e & He & Hpar & Hn & Hl). subst n.
  assert (p <> d1) as Hpd.
  { intros ->. pose proof (walk_inj _ _ _ _ Hwf Hq Hp) as Heq.
    apply (f_equal length) in Heq. rewrite length_app in Heq. simpl in Heq. lia. }
  exists e, p, pe, q. split_and!; try done.
  unfold RemoveDir, ChangeDir at 1. rewrite Hs. cbn [obind]. simpl ERROR. cbv iota. cbn [obind].
  unfold RemoveAllChildren, deref at 1. simpl. rewrite He. simpl.
  unfold deref at 1. simpl. rewrite lookup_insert_eq. simpl. rewrite Hpar.
  rewrite insert_insert_eq.
  unfold ChangeDir, GetEntry. simpl.
  destruct (Nat.eqb_spec d1 (m_pRootDir r)) as [|_]; [done|].
  unfold deref at 1. simpl. rewrite lookup_insert_eq. simpl. rewrite Hpar. simpl.
  unfold RemoveChild. destruct (Z.ltb_spec REG_MAX_NAME (strlen (m_strName e))); [lia|].
  unfold deref. simpl. rewrite lookup_insert_ne, Hpe by done. simpl. rewrite Hc. done.
Qed.

Lemma unlinked_wf r d e p pe q :
  reg_wf r -> reg_heap r !! d = Some e -> reg_heap r !! p = Some pe ->
  m_mapChilds pe !! m_strName e = Some d -> p <> d ->
  walk (reg_heap r) (m_pRootDir r) q = Some p ->
  reg_wf (mkReg (unlinked (reg_heap r) d e p pe (m_strName e)) (reg_next r) (m_pRootDir r) p).
Proof.
  intros Hwf He Hpe Hc Hpd Hq.
  apply shrunk_wf; [done|..].
  - intros x e' Hx. unfold unlinked in Hx. apply lookup_insert_Some in Hx as [[<- <-]|[Hxp Hx]].
    + exists pe. split_and!; [done|done|done|]. simpl. apply delete_subseteq.
    + apply lookup_insert_Some in Hx as [[<- <-]|[Hxd Hx]]; [|by exists e'].
      exists e. split_and!; [done|done|done|]. apply map_empty_subseteq.
  - intros x Hx. unfold unlinked. destruct (decide (x = p)) as [->|]; [by rewrite lookup_insert_eq|].
    rewrite lookup_insert_ne by done.
    destruct (decide (x = d)) as [->|]; [by rewrite lookup_insert_eq|]. by rewrite lookup_insert_ne.
  - exists q. assert (walk (reg_heap r) (m_pRootDir r) (q ++ [m_strName e]) = Some d) as Hqd
      by (rewrite walk_app, Hq; simpl; by rewrite Hpe, Hc).
    unfold unlinked. rewrite walk_insert.
    + rewrite walk_insert; [done|]. intros q1 s1 -> Hs1 Hq1.
      pose proof (walk_inj _ _ _ _ Hwf Hq1 Hqd) as Heq.
      apply (f_equal length) in Heq. rewrite !length_app in Heq. simpl in Heq. lia.
    + intros q1 s1 -> Hs1 Hq1. rewrite walk_insert in Hq1.
      * pose proof (walk_inj _ _ _ _ Hwf Hq1 Hq) as Heq.
        apply (f_equal length) in Heq. rewrite length_app in Heq. apply Hs1, length_zero_iff_nil. lia.
      * intros q2 s2 -> Hs2 Hq2.
        pose proof (walk_inj _ _ _ _ Hwf Hq2 Hqd) as Heq.
        apply (f_equal length) in Heq. rewrite !length_app in Heq. simpl in Heq. lia.
Qed.

(** After [unlinked], the walks below the link are gone, the others are not
    affected. *)
Lemma unlinked_walk r d e p pe q path :
  reg_wf r -> reg_heap r !! d = Some e -> reg_heap r !! p = Some pe ->
  m_mapChilds pe !! m_strName e = Some d -> p <> d ->
  walk (reg_heap r) (m_pRootDir r) q = Some p ->
  walk (unlinked (reg_heap r) d e p pe (m_strName e)) (m_pRootDir r) path =
    if decide ((q ++ [m_strName e]) `prefix_of` path) then None
    else walk (reg_heap r) (m_pRootDir r) path.
Proof.
  intros Hwf He Hpe Hc Hpd Hq.
  assert (walk (reg_heap r) (m_pRootDir r) (q ++ [m_strName e]) = Some d) as Hqd
    by (rewrite walk_app, Hq; simpl; by rewrite Hpe, Hc).
  assert (Hnot : forall path, ~ (q ++ [m_strName e]) `prefix_of` path ->
    walk (unlinked (reg_heap r) d e p pe (m_strName e)) (m_pRootDir r) path =
    walk (reg_heap r) (m_pRootDir r) path).
  { clear path. intros path. induction path as [|m path IH] using rev_ind; intros Hn; [done|].
    rewrite !walk_app, IH by (intros Hpre; by apply Hn, prefix_app_r).
    destruct (walk (reg_heap r) (m_pRootDir r) path) as [y|] eqn:Hy; [|done]. simpl.
    unfold unlinked. destruct (decide (y = p)) as [->|Hyp].
    - rewrite lookup_insert_eq, Hpe. simpl. rewrite lookup_delete_ne; [done|].
      intros <-. apply Hn. by rewrite (walk_inj _ _ _ _ Hwf Hq Hy).
    - rewrite lookup_insert_ne, lookup_insert_ne; [done| |done].
      intros <-. apply Hn. rewrite (walk_inj _ _ _ _ Hwf Hqd Hy). by apply prefix_app_r. }
  case_decide as Hpre; [|by apply Hnot]. destruct Hpre as [t ->].
  rewrite walk_app, walk_app, Hnot, Hq.
  - simpl. unfold unlinked. rewrite lookup_insert_eq. simpl. by rewrite lookup_delete_eq.
  - intros Hpre. apply prefix_length in Hpre. rewrite length_app in Hpre. simpl in Hpre. lia.
Qed.

(** *** [MakeDir] and the paths *)

Lemma components_nonempty s : s <> [] -> components s <> [].
Proof.
  unfold components. destruct s as [|c s]; [done|]. intros _. simpl.
  destruct (Ascii.eqb_spec c slash) as [->|Hc].
  - by rewrite decide_True by done.
  - rewrite decide_False by congruence. simpl.
    destruct (split_slash s); rewrite filter_cons_True by done; done.
Qed.

Lemma rolled_back_wf r h' next' :
  reg_wf r ->
  (forall d, (d < reg_next r)%nat -> h' !! d = reg_heap r !! d) ->
  (forall d e, (reg_next r <= d)%nat -> h' !! d = Some e -> m_mapChilds e = ∅) ->
  (forall d e, h' !! d = Some e -> (d < next')%nat) ->
  links_kept (reg_heap r) h' /\ reg_wf (mkReg h' next' (m_pRootDir r) (m_pCurDir r)).
Proof.
  intros Hwf Hlo Hhi Hdom. destruct (wf_root _ Hwf) as (er & Her & Hpr).
  assert (links_kept (reg_heap r) h') as Hk.
  { intros x ex m c Hx Hm. exists ex. by rewrite Hlo by (by eapply wf_next). }
  split; [done|]. split; simpl.
  - exists er. by rewrite Hlo by (by eapply wf_next).
  - intros d e n c He Hc. destruct (decide (d < reg_next r)%nat) as [Hd|Hd].
    + rewrite Hlo in He by done. destruct (wf_child _ Hwf _ _ _ _ He Hc) as (e' & He' & ?).
      exists e'. by rewrite Hlo by (by eapply wf_next).
    + rewrite (Hhi d e) in Hc by (done || lia). by rewrite lookup_empty in Hc.
  - destruct (wf_cur _ Hwf) as [q Hq]. exists q. by eapply walk_mono.
  - done.
Qed.

Lemma MakeDir_cases s r :
  reg_wf r ->
  exists r' ret, MakeDir s r = Some (Ret (r', ret)) /\ reg_wf r' /\ m_pRootDir r' = m_pRootDir r /\
    links_kept (reg_heap r) (reg_heap r') /\
    (0 < strlen s <= REG_MAX_PATH /\ Forall fits (dir_target s r).1 /\ ret = 0 /\
       walk (reg_heap r') (dir_target s r).2 (dir_target s r).1 = Some (m_pCurDir r') \/
     ~ (0 < strlen s <= REG_MAX_PATH /\ Forall fits (dir_target s r).1) /\ ret = - EINVAL /\
       m_pCurDir r' = m_pCurDir r /\
       (forall d, (d < reg_next r)%nat -> reg_heap r' !! d = reg_heap r !! d)).
Proof.
  intros Hwf. unfold MakeDir.
  destruct (Z.eqb_spec (strlen s) 0) as [Hs0|Hs0];
    [|destruct (Z.ltb_spec REG_MAX_PATH (strlen s)) as [Hsm|Hsm]]; cbn [orb].
  1, 2: exists r, (- EINVAL); split_and!; auto using links_kept_refl;
    right; split_and!; [intros [? _]; lia|done..].
  assert (0 < strlen s <= REG_MAX_PATH) as Hs by (unfold strlen in *; lia).
  rewrite Namei_components by done. cbn [Z.ltb Z.compare].
  assert (s <> []) as Hne by (intros ->; done).
  destruct (components s) as [|c comps] eqn:Hc; [by apply components_nonempty in Hc|].
  assert ((if decide (c = lit "/") then (comps, m_pRootDir r) else (c :: comps, m_pCurDir r)) =
    dir_target s r) as -> by (unfold dir_target; by rewrite Hc).
  destruct (dir_target s r) as [cs start] eqn:Hdt. cbn [fst snd].
  assert (is_Some (reg_heap r !! start)) as Hstart.
  { unfold dir_target in Hdt. rewrite Hc in Hdt. destruct (wf_root _ Hwf) as (er & Her & _).
    case_decide; simplify_eq; [by exists er|].
    destruct (reachable_live r _ Hwf (wf_cur _ Hwf)) as [e ?]. by exists e. }
  destruct (MakeDirLoop_spec cs r start None Hwf Hstart)
    as (r' & ret & d' & pp' & pr' & -> & Hroot & Hcur & Hwf' & Hcase).
  destruct Hcase as [(Hall & -> & Hw & Hk)|(Hall & -> & d0 & l & j & -> & -> & Hd0 & Hcr & Hj)].
  - simpl. exists (set_cur d' r'), 0. split_and!; auto.
    apply wf_set_cur; [done|].
    assert (reachable r start) as [q Hq].
    { unfold dir_target in Hdt. rewrite Hc in Hdt.
      case_decide; simplify_eq; [by exists []|apply (wf_cur _ Hwf)]. }
    exists (q ++ cs). rewrite walk_app, Hroot.
    by rewrite (walk_mono _ _ _ _ _ Hk Hq).
  - destruct (Rollback_created (reg_heap r) (reg_next r) d0 (reg_heap r') l j (S (length cs)) r')
      as (h' & Hrb & Hcr' & Hdom); [done|done|done|lia|].
    change (ERROR (- EINVAL)) with true. cbv iota. rewrite Hrb.
    inversion Hcr' as [h Hlo Hhi|]; subst.
    destruct (rolled_back_wf r h' (reg_next r') Hwf Hlo Hhi) as [Hk Hwf''].
    { intros d e He. destruct (Hdom d) as [e' He']; [eauto|]. by eapply wf_next. }
    exists (set_heap h' r'), (- EINVAL). split_and!; try done.
    + unfold set_heap. by rewrite Hroot, Hcur.
    + right. split_and!; try done. by intros [_ ?].
Qed.

Lemma MakeEntry_cases s r :
  reg_wf r ->
  exists r' ret, MakeEntry s r = Ret (r', ret) /\ reg_wf r' /\ m_pRootDir r' = m_pRootDir r /\
    m_pCurDir r' = m_pCurDir r /\ links_kept (reg_heap r) (reg_heap r').
Proof.
  intros Hwf. unfold MakeEntry.
  destruct (Z.ltb_spec REG_MAX_NAME (strlen s)) as [|Hs];
    [exists r, (- EINVAL); auto using links_kept_refl|].
  destruct (decide (strlen s = 0)) as [H0|H0].
  { rewrite Namei_rejects by auto. exists r, (- EINVAL). auto using links_kept_refl. }
  rewrite Namei_components by (unfold strlen, REG_MAX_NAME, REG_MAX_PATH in *; lia).
  rewrite (proj2 (Z.ltb_ge 0 0)) by lia.
  destruct (1 <? _)%nat; [exists r, (- EINVAL); auto using links_kept_refl|].
  destruct (components s) as [|c l] eqn:Hc.
  { apply components_nonempty in Hc; [done|]. by intros ->. }
  case_decide; [exists r, (- EINVAL); auto using links_kept_refl|].
  destruct (reachable_live r _ Hwf (wf_cur _ Hwf)) as [e He].
  rewrite (AddChild_eq _ _ _ _ Hwf He), decide_True by done.
  destruct (m_mapChilds e !! s) eqn:Hn.
  - assert (forall x ex, reg_heap r !! x = Some ex -> (x < reg_next r)%nat) as Hlt
      by (intros; by eapply wf_next).
    edestruct (rolled_back_wf r (<[reg_next r := NewDirEntry s]> (reg_heap r)) (S (reg_next r)) Hwf)
      as [Hk Hwf'].
    + intros x Hx. by rewrite lookup_insert_ne by lia.
    + intros x ex Hx Hex. apply lookup_insert_Some in Hex as [[_ <-]|[_ Hex]]; [done|].
      apply Hlt in Hex. lia.
    + intros x ex Hex. apply lookup_insert_Some in Hex as [[<- _]|[_ Hex]]; [lia|].
      apply Hlt in Hex. lia.
    + eexists _, _. split_and!; done.
  - eexists _, _. split_and!; [done|by apply linked_wf|done|done|by apply linked_mono].
Qed.

Lemma RemoveDir_root s r :
  reg_wf r -> GetEntry r s = Ret (0, m_pRootDir r) ->
  exists e, reg_heap r !! m_pRootDir r = Some e /\
    RemoveDir s r = Ret (mkReg (<[m_pRootDir r := set_props None (set_childs ∅ e)]> (reg_heap r))
      (reg_next r) (m_pRootDir r) (m_pRootDir r), 0).
Proof.
  intros Hwf Hs. destruct (wf_root _ Hwf) as (e & He & Hp). exists e. split; [done|].
  unfold RemoveDir, ChangeDir at 1. rewrite Hs. cbn [obind]. simpl ERROR. cbv iota. cbn [obind].
  unfold RemoveAllChildren, deref at 1. simpl. rewrite He. simpl.
  unfold deref. simpl. rewrite lookup_insert_eq. simpl. rewrite Hp. by rewrite insert_insert_eq.
Qed.

Lemma RemoveDir_wf s r :
  reg_wf r -> exists r' ret, RemoveDir s r = Ret (r', ret) /\ reg_wf r' /\
    m_pRootDir r' = m_pRootDir r.
Proof.
  intros Hwf. destruct (GetEntry_reachable r s Hwf) as (ret & d & Hs & Hr).
  destruct (ERROR ret) eqn:Hret.
  { exists r, ret. split_and!; [|done..]. unfold RemoveDir, ChangeDir at 1. rewrite Hs.
    cbn [obind]. rewrite Hret. cbn [obind]. by rewrite Hret. }
  destruct (Hr eq_refl) as [_ ->].
  destruct (decide (d = m_pRootDir r)) as [->|Hd].
  - destruct (RemoveDir_root s r Hwf Hs) as (e & He & ->). eexists _, _. split_and!; [done| |done].
    apply shrunk_wf; [done|..].
    + intros x e' Hx. apply lookup_insert_Some in Hx as [[<- <-]|[_ Hx]]; [|by exists e'].
      exists e. split_and!; [done|done|done|apply map_empty_subseteq].
    + intros x Hx. by apply lookup_insert_is_Some'; right.
    + by exists [].
  - destruct (RemoveDir_eq s r d Hwf Hs Hd) as (e & p & pe & q & He & Hp & Hpe & Hc & Hpd & Hq & ->).
    eexists _, _. split_and!; [done| |done]. by eapply unlinked_wf.
Qed.

(** *** Full paths *)

Lemma split_app a b : slash ∉ a -> split_slash (a ++ slash :: b) = a :: split_slash b.
Proof.
  induction a as [|c a IH]; simpl; [done|]. rewrite not_elem_of_cons. intros [Hc Ha].
  destruct (Ascii.eqb_spec c slash); [congruence|]. by rewrite IH.
Qed.

Lemma split_path_string n p :
  (slash ∉ n) -> Forall (fun n => slash ∉ n) p ->
  split_slash (n ++ concat (map (cons slash) p)) = n :: p.
Proof.
  intros Hn Hp. revert n Hn. induction Hp as [|m p Hm Hp IH]; intros n Hn; simpl.
  - by rewrite app_nil_r, split_no_slash.
  - by rewrite split_app, IH.
Qed.

Lemma components_path_string p :
  Forall plain_name p -> components (path_string p) = lit "/" :: p.
Proof.
  intros Hp. destruct p as [|n p]; [done|]. unfold components, path_string. simpl.
  apply Forall_cons in Hp as [[Hn [Hs _]] Hp].
  rewrite split_path_string; [|done|by eapply Forall_impl; [exact Hp|intros ? (?&?&?)]].
  rewrite filter_cons_False by tauto.
  f_equal. rewrite filter_cons_True by done. f_equal.
  clear Hn Hs. induction Hp as [|m p [Hm _] Hp IH]; [done|]. rewrite filter_cons_True by done.
  by f_equal.
Qed.

Lemma GetEntryLoop_walk r p d x :
  reg_wf r -> reachable r d -> Forall plain_name p -> walk (reg_heap r) d p = Some x ->
  GetEntryLoop r p d = Ret (0, x).
Proof.
  intros Hwf Hd Hp. revert d Hd. induction Hp as [|n p (Hn & Hs & Hd1 & Hd2) Hp IH];
    intros d Hd Hw; [by simplify_eq/=|].
  cbn [walk] in Hw. destruct (reg_heap r !! d) as [e|] eqn:He; [|done].
  destruct (m_mapChilds e !! n) as [c|] eqn:Hc; [|done].
  destruct (wf_child _ Hwf _ _ _ _ He Hc) as (ec & _ & _ & _ & Hl).
  cbn [GetEntryLoop]. rewrite (decide_False (P := n = lit ".")), (decide_False (P := n = lit ".."))
    by done.
  rewrite decide_False by (intros ->; apply Hs, list_elem_of_here).
  rewrite (GetChild_live _ _ _ _ He). cbn [obind]. rewrite decide_True, Hc by done.
  apply IH; [by eapply reachable_child|done].
Qed.

(** The climb, from the entry that the names [p] lead to. *)
Lemma FullPathLoop_walk r p x fuel acc :
  reg_wf r -> walk (reg_heap r) (m_pRootDir r) p = Some x -> (length p < fuel)%nat ->
  Forall (fun n => n <> []) p ->
  FullPathLoop fuel r x acc =
    Some (Ret (match p with
               | [] => acc
               | n :: q => n ++ concat (map (cons slash) q) ++
                           (if decide (acc = []) then [] else slash :: acc)
               end)).
Proof.
  intros Hwf. revert x fuel acc. induction p as [|n p IH] using rev_ind;
    intros x fuel acc Hp Hf Hne; (destruct fuel as [|fuel]; [lia|]); cbn [FullPathLoop].
  - simplify_eq/=. destruct (wf_root _ Hwf) as (er & -> & ->). done.
  - apply walk_last in Hp as (y & e & Hp & He & Hc).
    destruct (wf_child _ Hwf _ _ _ _ He Hc) as (ex & -> & -> & -> & _).
    apply Forall_app in Hne as [Hne Hn]. apply Forall_cons in Hn as [Hn _].
    rewrite length_app in Hf. simpl in Hf.
    rewrite (IH y fuel) by (done || lia). do 2 f_equal.
    set (t := (if (0 <? strlen acc) then n ++ [slash] else n) ++ acc).
    assert (t <> []) as Ht by (unfold t; clear -Hn; destruct n; [congruence|by destruct (0 <? strlen acc)]).
    assert (t = n ++ (if decide (acc = []) then [] else slash :: acc)) as Hteq.
    { unfold t. destruct acc as [|a acc]; [by rewrite !app_nil_r|].
      rewrite decide_False by done. destruct (Z.ltb_spec 0 (strlen (a :: acc))) as [|Hlt].
      - by rewrite <- app_assoc.
      - unfold strlen in Hlt. simpl in Hlt. lia. }
    destruct p as [|m p]; simpl; [by rewrite Hteq|].
    rewrite decide_False by done. rewrite map_app, concat_app, <- app_assoc. simpl.
    by rewrite Hteq, app_nil_r.
Qed.

(** A walk visits different entries, so it is shorter than the heap. *)
Lemma walk_length r p x :
  reg_wf r -> walk (reg_heap r) (m_pRootDir r) p = Some x -> (length p < size (reg_heap r))%nat.
Proof.
  intros Hwf Hp.
  assert (exists X : gset nat, size X = S (length p) /\ X ⊆ dom (reg_heap r) /\
    forall y, y ∈ X -> exists q, q `prefix_of` p /\ walk (reg_heap r) (m_pRootDir r) q = Some y)
    as (X & HX & Hsub & _).
  { revert x Hp. induction p as [|n p IH] using rev_ind; intros x Hp.
    - exists {[ m_pRootDir r ]}. destruct (wf_root _ Hwf) as (er & Her & _).
      split_and!; [apply size_singleton| |].
      + apply singleton_subseteq_l. by apply elem_of_dom.
      + intros y ->%elem_of_singleton. by exists [].
    - pose proof (walk_last _ _ _ _ _ Hp) as (y & e & Hy & He & Hc).
      destruct (IH y Hy) as (X & HX & Hsub & Hq). exists ({[ x ]} ∪ X).
      split_and!.
      + rewrite size_union, size_singleton, HX, length_app; [simpl; lia|].
        intros z ->%elem_of_singleton Hz. destruct (Hq _ Hz) as (q & Hpre & Hw).
        rewrite (walk_inj _ _ _ _ Hwf Hw Hp) in Hpre. apply prefix_length in Hpre.
        rewrite length_app in Hpre. simpl in Hpre. lia.
      + apply union_subseteq. split; [|done]. apply singleton_subseteq_l, elem_of_dom.
        by eapply walk_live; [| |exact Hp]; [|destruct (wf_root _ Hwf) as (er & Her & _); eauto].
      + intros z [->%elem_of_singleton|Hz]%elem_of_union; [by exists (p ++ [n])|].
        destruct (Hq _ Hz) as (q & Hpre & Hw). exists q. split; [by apply prefix_app_r|done]. }
  apply subseteq_size in Hsub. rewrite size_dom in Hsub. lia.
Qed.

(** ** Properties *)

(** C5: from a well-formed registry, every operation on the tree
    ([MakeEntry], [MakeDir], [ChangeDir], [RemoveDir], on any path) answers
    and leaves a well-formed registry: children know their parent and name
    and the current directory is still linked below the root (the raw pointer
    [m_pCurDir] never dangles).  The fresh registry is well-formed. *)
Theorem registry_wf (r : CRegistry) (o : reg_op) :
  reg_wf r ->
  exists r' ret, run_op o r = Some (Ret (r', ret)) /\ reg_wf r' /\
    m_pRootDir r' = m_pRootDir r /\ reg_wf NewRegistry.
Proof.
  intros Hwf.
  assert (reg_wf NewRegistry) as Hnew.
  { split; simpl.
    - by exists (NewDirEntry (lit "/")).
    - intros d e n c He Hc. apply lookup_singleton_Some in He as [<- <-].
      simpl in Hc. by rewrite lookup_empty in Hc.
    - by exists [].
    - intros d e He. apply lookup_singleton_Some in He as [<- _]. lia. }
  destruct o as [s|s|s|s]; simpl.
  - destruct (MakeEntry_cases s r Hwf) as (r' & ret & -> & ? & ? & _). eauto 8.
  - destruct (MakeDir_cases s r Hwf) as (r' & ret & -> & ? & ? & _). eauto 8.
  - destruct (ChangeDir_wf s r Hwf) as (r' & ret & -> & ? & _ & ? & _). eauto 8.
  - destruct (RemoveDir_wf s r Hwf) as (r' & ret & -> & ? & ?). eauto 8.
Qed.

(** C6: [MakeDir] is all or nothing.  When the path has a legal
    length and every name fits, it succeeds, the path leads from the starting
    directory to the new current directory, and every link that was there
    still is.  Otherwise it returns [-EINVAL], every entry that existed is as
    it was, the current directory is the same, and every path still leads
    where it led: whatever was created before the failing name is undone. *)
Theorem MakeDir_atomic (r : CRegistry) (s : stdstr) :
  reg_wf r ->
  exists r' ret, MakeDir s r = Some (Ret (r', ret)) /\
    let ok := 0 < strlen s <= REG_MAX_PATH /\ Forall fits (dir_target s r).1 in
    (ok /\ ret = 0 /\
       walk (reg_heap r') (dir_target s r).2 (dir_target s r).1 = Some (m_pCurDir r') /\
       links_kept (reg_heap r) (reg_heap r')) \/
    (~ ok /\ ret = - EINVAL /\ m_pCurDir r' = m_pCurDir r /\
       (forall d, (d < reg_next r)%nat -> reg_heap r' !! d = reg_heap r !! d) /\
       (forall p, walk (reg_heap r') (m_pRootDir r) p = walk (reg_heap r) (m_pRootDir r) p)).
Proof.
  intros Hwf. destruct (MakeDir_cases s r Hwf) as (r' & ret & Hm & Hwf' & Hroot & Hk & Hcase).
  exists r', ret. split; [done|]. destruct Hcase as [(?&?&?&?)|(Hno & ? & ? & Hlo)]; [by left|].
  right. split_and!; try done. intros p. induction p as [|n p IH] using rev_ind; [done|].
  rewrite !walk_app, IH. destruct (walk (reg_heap r) (m_pRootDir r) p) as [y|] eqn:Hy; [|done].
  simpl. rewrite Hlo; [done|].
  destruct (reachable_live r y Hwf) as [e He]; [by exists p|]. by eapply wf_next.
Qed.

(** C32: [RemoveDir] of a path that resolves to an entry [d] other
    than the root succeeds, moves to [d]'s parent, and takes exactly the
    subtree of [d] away: paths through [d] lead nowhere, every other path
    leads where it led. *)
Theorem RemoveDir_subtree (r : CRegistry) (s : stdstr) (d : nat) :
  reg_wf r -> GetEntry r s = Ret (0, d) -> d <> m_pRootDir r ->
  exists r' q n, RemoveDir s r = Ret (r', 0) /\
    walk (reg_heap r) (m_pRootDir r) (q ++ [n]) = Some d /\
    walk (reg_heap r) (m_pRootDir r) q = Some (m_pCurDir r') /\
    forall path, walk (reg_heap r') (m_pRootDir r) path =
      if decide ((q ++ [n]) `prefix_of` path) then None
      else walk (reg_heap r) (m_pRootDir r) path.
Proof.
  intros Hwf Hs Hd.
  destruct (RemoveDir_eq s r d Hwf Hs Hd) as (e & p & pe & q & He & Hp & Hpe & Hc & Hpd & Hq & ->).
  eexists _, q, (m_strName e). split_and!; [done| |done|].
  - rewrite walk_app, Hq. simpl. by rewrite Hpe, Hc.
  - intros path. simpl. by eapply unlinked_walk.
Qed.

(** C33: [GetFullPath] of a linked entry answers with the absolute
    path that spells the names from the root (the climb ends within the size
    of the heap), and [GetEntry] of that path, from any current directory,
    finds the entry again, when the names are plain and the path is short
    enough. *)
Theorem GetFullPath_GetEntry (r : CRegistry) (p : list stdstr) (d : nat) :
  reg_wf r -> walk (reg_heap r) (m_pRootDir r) p = Some d -> Forall plain_name p ->
  strlen (path_string p) <= REG_MAX_PATH ->
  GetFullPath r d [] = Some (Ret (path_string p)) /\
  GetEntry r (path_string p) = Ret (0, d).
Proof.
  intros Hwf Hp Hpl Hlen. split.
  - unfold GetFullPath. pose proof (walk_length _ _ _ Hwf Hp).
    rewrite (FullPathLoop_walk r p d) by
      (done || lia || (eapply Forall_impl; [exact Hpl|by intros ? (?&?&?)])).
    destruct p as [|n p]; [done|]. simpl. rewrite app_nil_r.
    apply Forall_cons in Hpl as [[Hn _] _]. destruct n as [|c n]; [done|]. done.
  - unfold GetEntry. destruct (Z.ltb_spec REG_MAX_PATH (strlen (path_string p))); [lia|].
    rewrite Namei_components, components_path_string; [|done|].
    + change (ERROR 0) with false. cbv iota. cbn [GetEntryLoop].
      rewrite !decide_False by done. rewrite decide_True by done.
      by apply GetEntryLoop_walk; [|exists []|..].
    + split; [|done]. destruct p; unfold strlen; simpl; lia.
Qed.

(** Properties live in the directory that was current.  A property
    set there is read back after any sequence of [ChangeDir]s that comes back
    to it, other keys are not affected, and once removed it is gone
    ([-ENOENT]). *)
Theorem property_roundtrip (r r1 r2 : CRegistry) (k j : Z) (v : V) (moves : list stdstr) :
  SetProperty k v r = Ret (r1, 0) -> j <> k ->
  ChangeDirs moves r1 = Ret r2 -> m_pCurDir r2 = m_pCurDir r ->
  GetProperty k r2 = Ret (Some v, 0) /\ GetProperty j r2 = GetProperty j r /\
  exists r3, RemoveProperty k r2 = Ret (r3, 0) /\ GetProperty k r3 = Ret (None, - ENOENT) /\
    GetProperty j r3 = GetProperty j r.
Proof.
  intros Hset Hjk Hmv Hcur. apply ChangeDirs_heap in Hmv.
  unfold SetProperty, deref in Hset. destruct (reg_heap r !! m_pCurDir r) as [e|] eqn:He; [|done].
  simpl in Hset. destruct (m_mapProps e) as [m|] eqn:Hm; [|done]. simplify_eq. simpl in Hmv.
  unfold GetProperty, RemoveProperty, deref. rewrite Hcur, Hmv, He, lookup_insert_eq. simpl.
  rewrite lookup_insert_eq, lookup_insert_ne, Hm by done. split_and!; [done|done|].
  eexists. split; [done|]. simpl. rewrite Hcur, lookup_insert_eq. simpl.
  by rewrite lookup_delete_eq, lookup_delete_ne, lookup_insert_ne by done.
Qed.

(** C40: [RemoveDir] of a path that resolves to the root succeeds
    and unlinks every child, and it drops the root's property map for good:
    from then on every property operation on the root dereferences the null
    pointer, and a property can be set again only after another directory was
    made current. *)
Theorem RemoveDir_root_drops_props (r : CRegistry) (s : stdstr) :
  reg_wf r -> GetEntry r s = Ret (0, m_pRootDir r) ->
  exists r', RemoveDir s r = Ret (r', 0) /\ m_pCurDir r' = m_pRootDir r /\
    (forall n p, walk (reg_heap r') (m_pRootDir r) (n :: p) = None) /\
    forall k v, GetProperty k r' = Undef /\ SetProperty k v r' = Undef /\
      RemoveProperty k r' = Undef.
Proof.
  intros Hwf Hs. destruct (RemoveDir_root s r Hwf Hs) as (e & He & ->).
  eexists. split_and!; [done|done| |].
  - intros n p. simpl. by rewrite lookup_insert_eq.
  - intros k v. unfold GetProperty, SetProperty, RemoveProperty, deref. simpl.
    by rewrite lookup_insert_eq.
Qed.
End Registry.

(** C35: the right-to-left splitting loop of [Namei] terminates and
    computes the components of the path, the root followed by the segments
    that are not empty (repeated and trailing slashes do not count); the empty
    path and one above [REG_MAX_PATH] are refused. *)
Theorem Namei_spec (s : stdstr) :
  Namei s = if decide (0 < strlen s <= REG_MAX_PATH) then Some (0, components s)
            else Some (- EINVAL, []).
Proof.
  case_decide; [by apply Namei_components|apply Namei_rejects]. unfold strlen in *. lia.
Qed.

(** ** Witnesses and examples *)

Definition reg0 : CRegistry (V := Z) := NewRegistry.

Lemma reg0_wf : reg_wf reg0.
Proof.
  split; simpl.
  - by exists (NewDirEntry (lit "/")).
  - intros d e n c He Hc. apply lookup_singleton_Some in He as [<- <-].
    simpl in Hc. by rewrite lookup_empty in Hc.
  - by exists [].
  - intros d e He. apply lookup_singleton_Some in He as [<- _]. lia.
Qed.

(** The registry after [MakeDir( "/bus/port0" )]. *)
Definition reg1 : CRegistry (V := Z) :=
  match MakeDir (lit "/bus/port0") reg0 with Some (Ret (r, _)) => r | _ => reg0 end.

Lemma reg1_wf : reg_wf reg1.
Proof.
  destruct (MakeDir_cases (lit "/bus/port0") reg0 reg0_wf) as (r' & ret & H & Hwf & _).
  unfold reg1. by rewrite H.
Qed.

Example Namei_slashes : Namei (lit "//a//b/") = Some (0, [lit "/"; lit "a"; lit "b"]).
Proof. vm_compute. reflexivity. Qed.

Lemma registry_wf_witness :
  reg_wf reg1 /\ exists r' ret, run_op (OpRemoveDir (lit "..")) reg1 = Some (Ret (r', ret)) /\ reg_wf r'.
Proof.
  split; [exact reg1_wf|].
  destruct (registry_wf reg1 (OpRemoveDir (lit "..")) reg1_wf) as (r' & ret & H & Hwf & _).
  exists r', ret. exact (conj H Hwf).
Defined.

Lemma MakeDir_atomic_witness :
  reg_wf reg0 /\ exists r' ret, MakeDir (lit "/bus/port0") reg0 = Some (Ret (r', ret)) /\ ret = 0.
Proof.
  split; [exact reg0_wf|].
  destruct (MakeDir_atomic reg0 (lit "/bus/port0") reg0_wf) as (r' & ret & H & [(_ & Hret & _)|(Hno & _)]).
  - exists r', ret. exact (conj H Hret).
  - exfalso. apply Hno. split; [split; vm_compute; congruence|].
    apply Forall_cons; split; [vm_compute; congruence|].
    apply Forall_cons; split; [vm_compute; congruence|]. apply Forall_nil_2.
Defined.

Lemma RemoveDir_subtree_witness :
  GetEntry reg1 (lit "/bus") = Ret (0, 1%nat) /\
  exists r' q n, RemoveDir (lit "/bus") reg1 = Ret (r', 0) /\
    walk (reg_heap reg1) 0 (q ++ [n]) = Some 1%nat.
Proof.
  split; [vm_compute; reflexivity|].
  destruct (RemoveDir_subtree reg1 (lit "/bus") 1 reg1_wf) as (r' & q & n & H & Hw & _).
  - vm_compute. reflexivity.
  - vm_compute. discriminate.
  - exists r', q, n. split; [exact H|exact Hw].
Defined.

Lemma plain_names_bus : Forall plain_name [lit "bus"; lit "port0"].
Proof.
  assert (forall n, bool_decide (plain_name n) = true -> plain_name n) as H
    by (intros n Hn; by apply bool_decide_eq_true in Hn).
  apply Forall_cons; split; [apply H; vm_compute; reflexivity|].
  apply Forall_cons; split; [apply H; vm_compute; reflexivity|]. apply Forall_nil_2.
Qed.

Lemma GetFullPath_GetEntry_witness :
  GetFullPath reg1 2 [] = Some (Ret (lit "/bus/port0")) /\
  GetEntry reg1 (lit "/bus/port0") = Ret (0, 2%nat).
Proof.
  refine (GetFullPath_GetEntry reg1 [lit "bus"; lit "port0"] 2 reg1_wf _ plain_names_bus _).
  - vm_compute. reflexivity.
  - vm_compute. congruence.
Defined.

Lemma property_roundtrip_witness :
  match SetProperty 7 42 reg1 with
  | Ret (r1, _) =>
      match ChangeDirs [lit ".."; lit "port0"] r1 with
      | Ret r2 => GetProperty 7 r2 = Ret (Some 42, 0) /\ GetProperty 8 r2 = GetProperty 8 reg1
      | _ => False
      end
  | _ => False
  end.
Proof.
  destruct (SetProperty 7 42 reg1) as [[r1 ret]| |] eqn:Hs;
    [|vm_compute in Hs; discriminate Hs..].
  assert (ret = 0) as -> by (vm_compute in Hs; congruence).
  destruct (ChangeDirs [lit ".."; lit "port0"] r1) as [r2| |] eqn:Hc.
  - destruct (property_roundtrip reg1 r1 r2 7 8 42 _ Hs ltac:(discriminate) Hc) as (H1 & H2 & _).
    + vm_compute in Hs. injection Hs as <-. vm_compute in Hc. injection Hc as <-.
      vm_compute. reflexivity.
    + exact (conj H1 H2).
  - vm_compute in Hs. injection Hs as <-. vm_compute in Hc. discriminate Hc.
  - vm_compute in Hs. injection Hs as <-. vm_compute in Hc. discriminate Hc.
Defined.

Lemma RemoveDir_root_drops_props_witness :
  exists r', RemoveDir (lit "/") reg1 = Ret (r', 0) /\ GetProperty 7 r' = Undef.
Proof.
  destruct (RemoveDir_root_drops_props reg1 (lit "/") reg1_wf) as (r' & H & _ & _ & Hp).
  - vm_compute. reflexivity.
  - exists r'. exact (conj H (proj1 (Hp 7 0))).
Defined.

(** A trailing slash: [MakeEntry] checks the components and adds the string. *)
Example MakeEntry_trailing_slash :
  match MakeEntry (lit "a/") reg0 with
  | Ret (r, ret) => ret = 0 /\ GetEntry r (lit "a/") = Ret (- ENOENT, 0%nat) /\
                    GetEntry r (lit "a") = Ret (- ENOENT, 0%nat)
  | _ => False
  end.
Proof. vm_compute. split_and!; reflexivity. Qed.

(** [MakeDir] creates directories named [..], which no path resolves to. *)
Example MakeDir_dotdot :
  match MakeDir (lit "/a/../b") reg0 with
  | Some (Ret (r, ret)) =>
      ret = 0 /\ walk (reg_heap r) 0 [lit "a"; lit ".."; lit "b"] = Some (m_pCurDir r) /\
      GetEntry r (lit "/a/../b") = Ret (- ENOENT, 0%nat)
  | _ => False
  end.
Proof. vm_compute. split_and!; reflexivity. Qed.
