(* ===== verification/Buffer.v ===== *)
(** * The byte buffer: [combase/buffer.cpp], [include/buffer.h]

    [CBuffer] keeps a block of [m_dwSize] bytes, either the 48 bytes inside
    the object ([m_arrBuf]) or a heap block, and a window
    [m_dwOffset .. m_dwTailOff] into it, which [ptr] and [size] talk about.
    Blocks are lists of bytes ([Z]); a read or write outside of the block is
    [Undef].  [al] is the allocator: [al n] is the block that [malloc( n )]
    hands out, or nothing.  [rel] is what releasing a smart pointer leaves of
    its bytes; buffers that hold [ObjPtr] or [DMsgPtr] are modelled only as
    far as [Resize] resets them. *)

From Stdlib Require Import ZArith Lia.
From S2P Require Import Prelude.
Local Open Scope rpcf_scope.

(** ** Constants and bytes *)

Definition MAX_BYTES_PER_BUFFER : Z := 16 * 1024 * 1024.
Definition BUF_MAX_SIZE : Z := 512 * 1024 * 1024.
Definition DATATYPE_MASK : Z := 0x0F.
Definition DATATYPE_MASK_EX : Z := 0xF0.
Definition BUFFLAG_NOFREE : Z := 0x100.
Definition ARRBUF : Z := 48.

Definition DataTypeMem : Z := 0.
Definition DataTypeObjPtr : Z := 1.
Definition DataTypeMsgPtr : Z := 2.

Definition typeNone : Z := 0.
Definition typeByte : Z := 1.
Definition typeUInt16 : Z := 2.
Definition typeUInt32 : Z := 3.
Definition typeUInt64 : Z := 4.
Definition typeFloat : Z := 5.
Definition typeDouble : Z := 6.
Definition typeString : Z := 7.
Definition typeByteArr : Z := 10.

Abbreviation bytes := (list Z).

Definition zlen (l : bytes) : Z := Z.of_nat (length l).
Definition ztake (n : Z) (l : bytes) : bytes := take (Z.to_nat n) l.
Definition zdrop (n : Z) (l : bytes) : bytes := drop (Z.to_nat n) l.

(** [n] bytes of a block at an offset, and the block with bytes written. *)
Definition read (l : bytes) (off n : Z) : outcome bytes :=
  if off + n <=? zlen l then Ret (ztake n (zdrop off l)) else Undef.
Definition write (l : bytes) (off : Z) (bs : bytes) : outcome bytes :=
  if off + zlen bs <=? zlen l
  then Ret (ztake off l ++ bs ++ zdrop (off + zlen bs) l) else Undef.

(** The [n] bytes of a number, least significant first, and back. *)
Fixpoint le_bytes (n : nat) (z : Z) : bytes :=
  match n with O => [] | S n => Z.land z 0xFF :: le_bytes n (Z.shiftr z 8) end.
Fixpoint le_val (l : bytes) : Z :=
  match l with [] => 0 | b :: l => Z.lor b (Z.shiftl (le_val l) 8) end.

(** [htons], [htonl], [htonll]: the host is little-endian, the wire is not. *)
Definition be_bytes (n : nat) (z : Z) : bytes := rev (le_bytes n z).
Definition be_val (l : bytes) : Z := le_val (rev l).

(** ** The buffer *)

Inductive dataptr := PNull | PArr | PHeap (blk : bytes).

Record CBuffer := mkBuf {
  m_pData : dataptr;
  m_arrBuf : bytes;
  m_dwSize : Z;
  m_dwType : Z;
  m_dwOffset : Z;
  m_dwTailOff : Z;
}.

Definition block (b : CBuffer) : bytes :=
  match m_pData b with PNull => [] | PArr => m_arrBuf b | PHeap l => l end.
Definition set_block (l : bytes) (b : CBuffer) : CBuffer :=
  match m_pData b with
  | PNull => b
  | PArr => mkBuf PArr l (m_dwSize b) (m_dwType b) (m_dwOffset b) (m_dwTailOff b)
  | PHeap _ => mkBuf (PHeap l) (m_arrBuf b) (m_dwSize b) (m_dwType b) (m_dwOffset b) (m_dwTailOff b)
  end.
Definition set_arr (l : bytes) (b : CBuffer) : CBuffer :=
  mkBuf (m_pData b) l (m_dwSize b) (m_dwType b) (m_dwOffset b) (m_dwTailOff b).
Definition set_type (t : Z) (b : CBuffer) : CBuffer :=
  mkBuf (m_pData b) (m_arrBuf b) (m_dwSize b) t (m_dwOffset b) (m_dwTailOff b).
Definition set_off (o : Z) (b : CBuffer) : CBuffer :=
  mkBuf (m_pData b) (m_arrBuf b) (m_dwSize b) (m_dwType b) o (m_dwTailOff b).
Definition set_tail (t : Z) (b : CBuffer) : CBuffer :=
  mkBuf (m_pData b) (m_arrBuf b) (m_dwSize b) (m_dwType b) (m_dwOffset b) t.

Definition SetBuffer (p : dataptr) (dwSize : Z) (b : CBuffer) : CBuffer :=
  mkBuf p (m_arrBuf b) dwSize (m_dwType b) 0 dwSize.

Definition GetDataType (b : CBuffer) : Z := Z.land (m_dwType b) DATATYPE_MASK.
Definition SetDataType (dt : Z) (b : CBuffer) : CBuffer :=
  set_type (put_bits (m_dwType b) DATATYPE_MASK dt) b.
Definition GetExDataType (b : CBuffer) : Z :=
  Z.shiftr (Z.land (m_dwType b) DATATYPE_MASK_EX) 4.
Definition SetExDataType (dt : Z) (b : CBuffer) : CBuffer :=
  set_type (put_bits (m_dwType b) DATATYPE_MASK_EX (Z.shiftl dt 4)) b.
Definition IsNoFree (b : CBuffer) : bool := has_flag (m_dwType b) BUFFLAG_NOFREE.
Definition SetNoFree (bNoFree : bool) (b : CBuffer) : CBuffer :=
  set_type (if bNoFree then Z.lor (m_dwType b) BUFFLAG_NOFREE
            else Z.ldiff (m_dwType b) BUFFLAG_NOFREE) b.

(** [ptr() == nullptr] *)
Definition ptr_null (b : CBuffer) : bool :=
  match m_pData b with PNull => m_dwOffset b =? 0 | _ => false end.
Definition is_arr (b : CBuffer) : bool := match m_pData b with PArr => true | _ => false end.
Definition size (b : CBuffer) : Z := u32 (m_dwTailOff b - m_dwOffset b).
Definition GetShadowSize (b : CBuffer) : Z := u32 (m_dwSize b - m_dwTailOff b).
Definition empty (b : CBuffer) : bool := (size b =? 0) || ptr_null b.

(** The bytes of the window. *)
Definition view (b : CBuffer) : bytes := ztake (size b) (zdrop (m_dwOffset b) (block b)).

Definition SetOffset (dwOffset : Z) (b : CBuffer) : CBuffer * Z :=
  if negb (GetDataType b =? DataTypeMem) then (b, ERROR_STATE)
  else match m_pData b with
  | PNull => (b, ERROR_STATE)
  | _ => if m_dwTailOff b <? dwOffset then (b, - EINVAL) else (set_off dwOffset b, STATUS_SUCCESS)
  end.
Definition IncOffset (dwOffset : Z) (b : CBuffer) : CBuffer * Z :=
  SetOffset (u32 (m_dwOffset b + dwOffset)) b.
Definition SetTailOff (dwSize : Z) (b : CBuffer) : CBuffer :=
  if negb (GetDataType b =? DataTypeMem) then b
  else
    let dwSize := if m_dwSize b <? dwSize then m_dwSize b else dwSize in
    let dwSize := if dwSize <? m_dwOffset b then m_dwOffset b else dwSize in
    set_tail dwSize b.
Definition SetWinSize (dwSize : Z) (b : CBuffer) : CBuffer :=
  SetTailOff (u32 (m_dwOffset b + dwSize)) b.
Definition SlideWindow (dwNewSize : Z) (b : CBuffer) : CBuffer * Z :=
  if negb (GetDataType b =? DataTypeMem) then (b, ERROR_STATE)
  else
    let dwOldWin := size b in
    IncOffset dwOldWin (SetWinSize (u32 (dwOldWin + dwNewSize)) b).

Section Buffer.
Context (al : Z -> option bytes) (rel : bytes -> bytes).

(** [realloc] to a larger or smaller block. *)
Definition realloc (l : bytes) (n : Z) : option bytes :=
  match al n with None => None | Some fresh => Some (ztake n l ++ zdrop (zlen l) fresh) end.

(** [ResizeWithOffset]: the window is moved to the start of the block. *)
Definition ResizeWithOffset (dwSize : Z) (b : CBuffer) : outcome (CBuffer * Z) :=
  if (dwSize =? 0) || (MAX_BYTES_PER_BUFFER <? dwSize) then Ret (b, - EINVAL)
  else if negb (GetDataType b =? DataTypeMem) then Ret (b, - ENOTSUP)
  else
    let dwActSize := m_dwSize b in
    let bArrBuf := is_arr b in
    if dwSize =? size b then Ret (SetExDataType typeByteArr b, 0) else
    let dwBytesCopy := Z.min (size b) dwSize in
    let bMove := (0 <? dwBytesCopy) && (0 <? m_dwOffset b) in
    if (dwSize <=? ARRBUF) && (dwActSize <=? ARRBUF) then
      let! arr := (if bMove then
                     let! src := read (block b) (m_dwOffset b) dwBytesCopy in
                     write (m_arrBuf b) 0 src
                   else Ret (m_arrBuf b)) in
      Ret (SetExDataType typeByteArr (SetBuffer PArr dwSize (set_arr arr b)), 0)
    else if (ARRBUF <? dwSize) && (dwActSize <=? ARRBUF) then
      if negb bArrBuf then Ret (b, ERROR_STATE)
      else match al dwSize with
      | None => Ret (b, - ENOMEM)
      | Some pData =>
          let! src := read (block b) (m_dwOffset b) dwBytesCopy in
          let! pData := write pData 0 src in
          Ret (SetExDataType typeByteArr (SetBuffer (PHeap pData) dwSize b), 0)
      end
    else if (ARRBUF <? dwActSize) && (dwSize <=? ARRBUF) then
      if bArrBuf then Ret (b, ERROR_STATE)
      else
        let! src := read (block b) (m_dwOffset b) dwBytesCopy in
        let! arr := write (m_arrBuf b) 0 src in
        Ret (SetExDataType typeByteArr (SetBuffer PArr dwSize (set_arr arr b)), 0)
    else
      if bArrBuf then Ret (b, ERROR_STATE)
      else
        let! blk := (if bMove then
                       let! src := read (block b) (m_dwOffset b) dwBytesCopy in
                       write (block b) 0 src
                     else Ret (block b)) in
        if dwActSize <? dwSize then
          match realloc blk dwSize with
          | None => Ret (set_block blk b, - ENOMEM)
          | Some pData => Ret (SetExDataType typeByteArr (SetBuffer (PHeap pData) dwSize b), 0)
          end
        else Ret (SetExDataType typeByteArr (SetBuffer (PHeap blk) dwSize b), 0).

(** The branch of [Resize] for [DataTypeMem], before an error is thrown. *)
Definition Resize_mem (dwSize : Z) (b : CBuffer) : outcome (CBuffer * Z) :=
  if dwSize =? 0 then Ret (SetExDataType typeNone (SetBuffer PNull 0 b), 0)
  else if (0 <? m_dwOffset b) || (0 <? GetShadowSize b) then ResizeWithOffset dwSize b
  else if dwSize =? size b then Ret (SetExDataType typeByteArr b, 0)
  else if (dwSize <=? ARRBUF) && (size b <=? ARRBUF) then
    Ret (SetExDataType typeByteArr (SetBuffer PArr dwSize b), 0)
  else if (ARRBUF <? dwSize) && (size b <=? ARRBUF) then
    match al dwSize with
    | None => Ret (b, - ENOMEM)
    | Some pData =>
        let! src := read (m_arrBuf b) 0 (size b) in
        let! pData := write pData 0 src in
        Ret (SetExDataType typeByteArr (SetBuffer (PHeap pData) dwSize b), 0)
    end
  else if (ARRBUF <? size b) && (dwSize <=? ARRBUF) then
    let! src := read (block b) (m_dwOffset b) dwSize in
    let! arr := write (m_arrBuf b) 0 src in
    Ret (SetExDataType typeByteArr (SetBuffer PArr dwSize (set_arr arr b)), 0)
  else
    match realloc (block b) dwSize with
    | None => Ret (b, - ENOMEM)
    | Some pNewBuf => Ret (SetExDataType typeByteArr (SetBuffer (PHeap pNewBuf) dwSize b), 0)
    end.

(** Releasing the smart pointer a buffer holds. *)
Definition release (b : CBuffer) : CBuffer :=
  let b := if ptr_null b then b else set_block (rel (block b)) b in
  SetExDataType typeNone (SetDataType DataTypeMem b).

Definition throw_on_error (r : CBuffer * Z) : outcome (CBuffer * Z) :=
  if ERROR r.2 then Throw else Ret r.

Definition Resize (dwSize : Z) (b : CBuffer) : outcome (CBuffer * Z) :=
  if MAX_BYTES_PER_BUFFER <? dwSize then Ret (b, - E2BIG)
  else if IsNoFree b then Ret (b, - EACCES)
  else if GetDataType b =? DataTypeMem then
    let! r := Resize_mem dwSize b in throw_on_error r
  else if (GetDataType b =? DataTypeMsgPtr) || (GetDataType b =? DataTypeObjPtr) then
    let! r := Resize_mem dwSize (release b) in throw_on_error r
  else Ret (b, 0).

(** [CBuffer( dwSize )]; [arr] is what the 48 bytes hold by chance. *)
Definition NewBuffer (arr : bytes) (dwSize : Z) : outcome CBuffer :=
  let b := mkBuf PNull arr 0 (put_bits (put_bits 0 DATATYPE_MASK DataTypeMem)
                                DATATYPE_MASK_EX (Z.shiftl typeNone 4)) 0 0 in
  if BUF_MAX_SIZE <? dwSize then Ret b
  else let! (b, _) := Resize dwSize b in Ret b.

(** [Append( pBlock, dwSize )]: [pBlock] is [None] for [nullptr], and
    otherwise the memory it points to. *)
Definition Append (pBlock : option bytes) (dwSize : Z) (b : CBuffer) : outcome (CBuffer * Z) :=
  if negb (GetDataType b =? DataTypeMem) then Ret (b, - EINVAL)
  else if IsNoFree b then Ret (b, - EACCES)
  else match pBlock with
  | None => Ret (b, - EINVAL)
  | Some mem =>
      if (BUF_MAX_SIZE <? dwSize) || (dwSize =? 0) then Ret (b, - EINVAL)
      else
        let dwOldSize := size b in
        let! (b, ret) := Resize (u32 (size b + dwSize)) b in
        if ERROR ret then Ret (b, ret)
        else
          let! src := read mem 0 dwSize in
          let! blk := write (block b) (m_dwOffset b + dwOldSize) src in
          Ret (SetExDataType typeByteArr (set_block blk b), 0)
  end.

(** [operator=( const CBuffer& )] for a source of memory. *)
Definition assign (rhs b : CBuffer) : outcome CBuffer :=
  let! (b, _) := Resize (size rhs) b in
  if size b =? 0 then Ret b
  else if ptr_null b then Throw
  else if GetDataType rhs =? DataTypeMem then
    let b := SetDataType DataTypeMem b in
    let! src := read (block rhs) (m_dwOffset rhs) (size b) in
    let! blk := write (block b) (m_dwOffset b) src in
    Ret (SetExDataType (GetExDataType rhs) (set_block blk b))
  else Throw.

(** [operator==] for two buffers of memory at different addresses. *)
Definition eq_mem (b rhs : CBuffer) : outcome bool :=
  if negb (size b =? size rhs) || negb (GetDataType b =? GetDataType rhs) then Ret false
  else
    let! x := read (block b) (m_dwOffset b) (size b) in
    let! y := read (block rhs) (m_dwOffset rhs) (size b) in
    Ret (bool_decide (x = y)).

(** *** Serialization *)

Definition Clsid_CBuffer : Z := 0x0825.
Definition SERI_HEADER_SIZE : Z := 20.

(** [*pheader = oHeader] after [hton]: the class id, the size and the version,
    then, behind three reserved bytes that [operator=] leaves alone, the type
    and the class id of the object. *)
Definition put_header (dwClsid dwSize dwType dwObjClsid : Z) (b : CBuffer) : outcome CBuffer :=
  let! blk := write (block b) (m_dwOffset b) (be_bytes 4 dwClsid ++ be_bytes 4 dwSize ++ [1]) in
  let! blk := write blk (m_dwOffset b + 12) (be_bytes 4 dwType ++ be_bytes 4 dwObjClsid) in
  Ret (set_block blk b).

(** [strncpy]: up to the terminator, then zeros. *)
Fixpoint strncpy (n : nat) (src : bytes) : outcome bytes :=
  match n with
  | O => Ret []
  | S n =>
      match src with
      | [] => Undef
      | c :: src => if c =? 0 then Ret (repeat 0 (S n)) else let! r := strncpy n src in Ret (c :: r)
      end
  end.

(** What [SerializePrimeType] and [DeserializePrimeType] copy from the memory
    at [src] into the destination; [None] is [-ENOTSUP]. *)
Definition PrimeType (ty sz : Z) (src : bytes) : outcome (option bytes) :=
  let swapped n := let! x := read src 0 n in Ret (Some (rev x)) in
  if (ty =? typeNone) || (ty =? typeByteArr) then let! x := read src 0 sz in Ret (Some x)
  else if ty =? typeByte then let! x := read src 0 1 in Ret (Some x)
  else if ty =? typeUInt16 then swapped 2
  else if (ty =? typeUInt32) || (ty =? typeFloat) then swapped 4
  else if (ty =? typeUInt64) || (ty =? typeDouble) then swapped 8
  else if ty =? typeString then
    let! x := strncpy (Z.to_nat sz) src in Ret (Some (pop_back x ++ [0]))
  else Ret None.

(** The branches for a held [ObjPtr] or [DMsgPtr] are not modelled: [ser_ptr]
    and [des_ptr] stand for them. *)
Context (ser_ptr : CBuffer -> CBuffer -> outcome (CBuffer * Z))
        (des_ptr : bytes -> CBuffer -> outcome (CBuffer * Z)).

Definition Serialize (b toBuf : CBuffer) : outcome (CBuffer * Z) :=
  let! (toBuf, _) := Resize SERI_HEADER_SIZE toBuf in
  if ptr_null b || (size b =? 0) then
    let! toBuf := put_header Clsid_CBuffer 0 DataTypeMem 0 toBuf in Ret (toBuf, 0)
  else if (GetDataType b =? DataTypeMsgPtr) || (GetDataType b =? DataTypeObjPtr) then ser_ptr b toBuf
  else if GetDataType b =? DataTypeMem then
    let! (toBuf, _) := Resize (u32 (SERI_HEADER_SIZE + size b)) toBuf in
    let! toBuf := put_header Clsid_CBuffer (size b) (m_dwType b) 0 toBuf in
    let! c := PrimeType (GetExDataType b) (size b) (zdrop (m_dwOffset b) (block b)) in
    match c with
    | None => Ret (toBuf, - ENOTSUP)
    | Some bs =>
        let! blk := write (block toBuf) (m_dwOffset toBuf + SERI_HEADER_SIZE) bs in
        Ret (set_block blk toBuf, 0)
    end
  else Ret (toBuf, - ENOTSUP).

(** [Deserialize( pBuf, dwBufSize )]: [src] is the memory at [pBuf]; the size
    that the caller passes is not looked at. *)
Definition Deserialize (src : bytes) (dwBufSize : Z) (b : CBuffer) : outcome (CBuffer * Z) :=
  let! hdr := read src 0 SERI_HEADER_SIZE in
  let dwClsid := be_val (ztake 4 hdr) in
  let dwSize := be_val (ztake 4 (zdrop 4 hdr)) in
  let dwType := be_val (ztake 4 (zdrop 12 hdr)) in
  if negb (dwClsid =? Clsid_CBuffer) then Ret (b, - EINVAL)
  else if BUF_MAX_SIZE <? dwSize then Ret (b, - EINVAL)
  else
    let dt := Z.land dwType DATATYPE_MASK in
    if dt =? DataTypeMem then
      if dwSize =? 0 then let! (b, _) := Resize 0 b in Ret (b, 0)
      else
        let! (b, _) := Resize dwSize b in
        if ptr_null b then Ret (b, - EFAULT)
        else
          let b := set_type dwType b in
          let! c := PrimeType (GetExDataType b) (size b) (zdrop SERI_HEADER_SIZE src) in
          match c with
          | None => Ret (b, - ENOTSUP)
          | Some bs =>
              let! blk := write (block b) (m_dwOffset b) bs in Ret (set_block blk b, 0)
          end
    else if (dt =? DataTypeMsgPtr) || (dt =? DataTypeObjPtr) then des_ptr src b
    else Ret (b, - ENOTSUP).

(** *** Handing the block over *)

(** [Expose] and [Detach]: the pointer and the three offsets. *)
Definition Expose (b : CBuffer) : dataptr * Z * Z * Z :=
  (m_pData b, m_dwSize b, m_dwOffset b, m_dwTailOff b).

Definition Detach (b : CBuffer) : CBuffer * option (dataptr * Z * Z * Z) * Z :=
  if negb (GetDataType b =? DataTypeMem) then (b, None, - EINVAL)
  else if is_arr b then (b, None, - EACCES)
  else
    (SetExDataType typeNone (SetDataType DataTypeMem
       (mkBuf PArr (m_arrBuf b) 0 (m_dwType b) (m_dwOffset b) (m_dwTailOff b))),
     Some (Expose b), 0).

Definition Attach (pMem : dataptr) (dwSize dwOffset dwTailOff : Z) (b : CBuffer)
    : outcome (CBuffer * Z) :=
  match pMem with
  | PNull => Ret (b, - EINVAL)
  | _ =>
      if dwSize <? ARRBUF then Ret (b, - EACCES)
      else
        let! (b, _) := Resize 0 b in
        let b := mkBuf pMem (m_arrBuf b) dwSize (m_dwType b) (m_dwOffset b) (m_dwTailOff b) in
        let '(b, _) := SetOffset dwOffset b in
        let b := SetTailOff dwTailOff b in
        Ret (SetExDataType typeByteArr (SetDataType DataTypeMem b), 0)
  end.

End Buffer.

(** ** Reference notions *)

(** A buffer of memory whose window lies in its block. *)
Record buf_wf (b : CBuffer) : Prop := {
  wf_arr : zlen (m_arrBuf b) = ARRBUF;
  wf_win : 0 <= m_dwOffset b <= m_dwTailOff b /\ m_dwTailOff b <= m_dwSize b < 2 ^ 32;
  wf_blk : match m_pData b with
           | PNull => m_dwSize b = 0
           | PArr => m_dwSize b <= ARRBUF
           | PHeap l => ARRBUF < m_dwSize b <= zlen l
           end;
  wf_mem : GetDataType b = DataTypeMem;
}.

Definition buf_wfb (b : CBuffer) : bool :=
  (zlen (m_arrBuf b) =? ARRBUF) && (0 <=? m_dwOffset b) && (m_dwOffset b <=? m_dwTailOff b) &&
  (m_dwTailOff b <=? m_dwSize b) && (m_dwSize b <? 2 ^ 32) &&
  match m_pData b with
  | PNull => m_dwSize b =? 0
  | PArr => m_dwSize b <=? ARRBUF
  | PHeap l => (ARRBUF <? m_dwSize b) && (m_dwSize b <=? zlen l)
  end && (GetDataType b =? DataTypeMem).

(** [malloc] gives a block of the length asked for, here always. *)
Definition al_ok (al : Z -> option bytes) : Prop :=
  forall n, ARRBUF < n <= MAX_BYTES_PER_BUFFER -> exists l, al n = Some l /\ zlen l = n.

(** What a resize to [n] promises: a window of [n] bytes that begins like the
    old one; the window starts at the block unless nothing had to be done. *)
Record resized (b b' : CBuffer) (n : Z) : Prop := {
  rs_wf : buf_wf b';
  rs_nofree : IsNoFree b' = IsNoFree b;
  rs_size : size b' = n;
  rs_view : ztake (Z.min (size b) n) (view b') = ztake (Z.min (size b) n) (view b);
  rs_type : GetExDataType b' = if n =? 0 then typeNone else typeByteArr;
  rs_off : m_dwOffset b' = 0 \/ n = size b /\ m_dwOffset b' = m_dwOffset b;
}.

(** A window that holds a value of its extended type. *)
Definition prime_ok (b : CBuffer) : Prop :=
  let ty := GetExDataType b in
  if (ty =? typeNone) || (ty =? typeByteArr) then 0 < size b
  else if ty =? typeByte then size b = 1
  else if ty =? typeUInt16 then size b = 2
  else if (ty =? typeUInt32) || (ty =? typeFloat) then size b = 4
  else if (ty =? typeUInt64) || (ty =? typeDouble) then size b = 8
  else if ty =? typeString then exists s, view b = s ++ [0] /\ Forall (fun c => c <> 0) s
  else False.

(** *** Concrete buffers, for the witnesses *)

(** An allocator that always has memory, filled with [0xAA]. *)
Definition al_aa (n : Z) : option bytes := Some (repeat 0xAA (Z.to_nat n)).

Definition no_rel (l : bytes) : bytes := l.

Definition fresh : CBuffer := mkBuf PNull (repeat 0 48) 0 0 0 0.
(** [n] bytes [k, k+1, ...] in a buffer. *)
Definition filled (k : Z) (n : nat) : CBuffer :=
  match Append al_aa no_rel (Some (map (fun i => k + Z.of_nat i) (seq 0 n))) (Z.of_nat n) fresh with
  | Ret (b, _) => b
  | _ => fresh
  end.

(** A byte array of exactly [MAX_BYTES_PER_BUFFER] bytes. *)
Definition full (blk : bytes) : CBuffer :=
  mkBuf (PHeap blk) (repeat 0 48) MAX_BYTES_PER_BUFFER (Z.shiftl typeByteArr 4) 0 MAX_BYTES_PER_BUFFER.

Definition full_block : bytes := repeat 0 (Z.to_nat MAX_BYTES_PER_BUFFER).

(** A block of 60 bytes whose first 10 were consumed. *)
Definition consumed : CBuffer := (IncOffset 10 (filled 1 60)).1.

(** ** Lemmas: bytes *)

Lemma zlen_nonneg l : 0 <= zlen l.
Proof. unfold zlen. lia. Qed.

Lemma zlen_app l k : zlen (l ++ k) = zlen l + zlen k.
Proof. unfold zlen. rewrite length_app. lia. Qed.

Lemma zlen_ztake n l : 0 <= n -> zlen (ztake n l) = Z.min n (zlen l).
Proof. intros. unfold zlen, ztake. rewrite length_take. lia. Qed.

Lemma zlen_zdrop n l : 0 <= n -> zlen (zdrop n l) = Z.max 0 (zlen l - n).
Proof. intros. unfold zlen, zdrop. rewrite length_drop. lia. Qed.

Lemma ztake_ztake m n l : m <= n -> ztake m (ztake n l) = ztake m l.
Proof. intros. unfold ztake. rewrite take_take. f_equal. lia. Qed.

Lemma ztake_all n l : zlen l <= n -> ztake n l = l.
Proof. intros H. unfold ztake, zlen in *. apply take_ge. lia. Qed.

Lemma ztake_app n l k : n <= zlen l -> ztake n (l ++ k) = ztake n l.
Proof. intros. unfold ztake, zlen in *. apply take_app_le. lia. Qed.

Lemma ztake_app_exact n l k : n = zlen l -> ztake n (l ++ k) = l.
Proof. intros ->. unfold ztake, zlen. by rewrite Nat2Z.id, take_app_length. Qed.

Lemma zdrop_app_exact n l k : n = zlen l -> zdrop n (l ++ k) = k.
Proof. intros ->. unfold zdrop, zlen. by rewrite Nat2Z.id, drop_app_length. Qed.

Lemma zdrop_zdrop m n l : 0 <= m -> 0 <= n -> zdrop m (zdrop n l) = zdrop (n + m) l.
Proof. intros. unfold zdrop. rewrite drop_drop. f_equal. lia. Qed.

Lemma zdrop_0 l : zdrop 0 l = l.
Proof. done. Qed.

Lemma ztake_0 l : ztake 0 l = [].
Proof. done. Qed.

Lemma ztake_zdrop n l : ztake n l ++ zdrop n l = l.
Proof. apply take_drop. Qed.

Lemma read_ok l off n : off + n <= zlen l -> read l off n = Ret (ztake n (zdrop off l)).
Proof. intros H. unfold read. by rewrite (proj2 (Z.leb_le _ _)) by done. Qed.

Lemma write_ok l off bs :
  off + zlen bs <= zlen l -> write l off bs = Ret (ztake off l ++ bs ++ zdrop (off + zlen bs) l).
Proof. intros H. unfold write. by rewrite (proj2 (Z.leb_le _ _)) by done. Qed.

Lemma write_0 l bs : zlen bs <= zlen l -> write l 0 bs = Ret (bs ++ zdrop (zlen bs) l).
Proof. intros H. by rewrite write_ok by lia. Qed.

#[local] Hint Rewrite zlen_app zlen_ztake zlen_zdrop using lia : rpcf.

(** ** Lemmas: the fields *)

Lemma DataType_SetEx dt b : GetDataType (SetExDataType dt b) = GetDataType b.
Proof.
  unfold GetDataType, SetExDataType, set_type. simpl. by rewrite put_bits_other.
Qed.

Lemma NoFree_SetEx dt b : IsNoFree (SetExDataType dt b) = IsNoFree b.
Proof.
  unfold IsNoFree, SetExDataType, set_type, has_flag. simpl. by rewrite put_bits_other.
Qed.

Lemma ExDataType_SetEx dt b : 0 <= dt < 16 -> GetExDataType (SetExDataType dt b) = dt.
Proof.
  intros Hdt. unfold GetExDataType, SetExDataType, set_type, DATATYPE_MASK_EX. simpl.
  rewrite put_bits_same. change 0xF0 with (Z.shiftl (Z.ones 4) 4).
  rewrite <- Z.shiftl_land, Z.shiftr_shiftl_l, Z.land_ones by lia.
  change (4 - 4) with 0. rewrite Z.shiftl_0_r. by apply Z.mod_small.
Qed.

Lemma size_wf b : buf_wf b -> size b = m_dwTailOff b - m_dwOffset b.
Proof. intros [_ ? _ _]. unfold size. apply u32_small. lia. Qed.

Lemma zlen_block b : buf_wf b -> m_dwSize b <= zlen (block b).
Proof.
  intros [Ha _ Hb _]. unfold block. destruct (m_pData b); unfold zlen in *; simpl; lia.
Qed.

Lemma zlen_view b : buf_wf b -> zlen (view b) = size b.
Proof.
  intros Hwf. pose proof (zlen_block b Hwf). pose proof (size_wf b Hwf). destruct (wf_win b Hwf).
  unfold view. rewrite zlen_ztake, zlen_zdrop by lia. lia.
Qed.

Lemma SetBuffer_resized b p n arr X :
  buf_wf b -> zlen arr = ARRBUF -> 0 < n <= MAX_BYTES_PER_BUFFER ->
  match p with PNull => False | PArr => X = arr /\ n <= ARRBUF | PHeap l => X = l /\ ARRBUF < n end ->
  n <= zlen X ->
  ztake (Z.min (size b) n) X = ztake (Z.min (size b) n) (zdrop (m_dwOffset b) (block b)) ->
  resized b (SetExDataType typeByteArr (SetBuffer p n (set_arr arr b))) n.
Proof.
  intros Hwf Harr Hn Hp HX Hpre. unfold MAX_BYTES_PER_BUFFER in *. split.
  - split.
    + done.
    + simpl. lia.
    + simpl. destruct p; [done| |]; destruct Hp as [-> ?]; unfold zlen in *; lia.
    + rewrite DataType_SetEx. apply (wf_mem _ Hwf).
  - by rewrite NoFree_SetEx.
  - unfold size. simpl. rewrite Z.sub_0_r. apply u32_small. lia.
  - unfold view at 1. unfold size at 2. simpl. rewrite Z.sub_0_r, u32_small by lia.
    assert (block (SetExDataType typeByteArr (SetBuffer p n (set_arr arr b))) = X) as ->
      by (unfold block; simpl; destruct p; [done| |]; by destruct Hp as [-> _]).
    unfold view. rewrite zdrop_0, !ztake_ztake by lia. done.
  - rewrite ExDataType_SetEx by (unfold typeByteArr; lia).
    destruct (Z.eqb_spec n 0); [lia|done].
  - by left.
Qed.

Lemma set_arr_id b : set_arr (m_arrBuf b) b = b.
Proof. by destruct b. Qed.

(** ** Lemmas: resizing *)

Section Resizing.
Context (al : Z -> option bytes) (rel : bytes -> bytes) (Hal : al_ok al).

(** The bytes to keep can be read, and lead any block they are copied to. *)
Lemma kept_bytes b m :
  buf_wf b -> 0 <= m <= size b ->
  exists src, read (block b) (m_dwOffset b) m = Ret src /\ zlen src = m /\
    src = ztake m (zdrop (m_dwOffset b) (block b)).
Proof.
  intros Hwf Hm. pose proof (zlen_block b Hwf). pose proof (size_wf b Hwf). destruct (wf_win b Hwf).
  eexists. split_and!; [apply read_ok; lia| |done]. rewrite zlen_ztake, zlen_zdrop by lia. lia.
Qed.

Lemma copied_prefix m src X : zlen src = m -> ztake m (src ++ X) = src.
Proof. intros <-. by apply ztake_app_exact. Qed.

(** Both allocations give a block that starts with what was there. *)
Lemma realloc_ok l n :
  ARRBUF < n <= MAX_BYTES_PER_BUFFER -> zlen l <= n ->
  exists blk, realloc al l n = Some blk /\ zlen blk = n /\ ztake (zlen l) blk = l.
Proof.
  intros Hn Hl. destruct (Hal n Hn) as (fresh & Hf & Hlen). unfold realloc. rewrite Hf.
  pose proof (zlen_nonneg l). rewrite ztake_all by done.
  eexists. split_and!; [done| |by apply ztake_app_exact].
  rewrite zlen_app, zlen_zdrop by lia. lia.
Qed.

Lemma realloc_keeps l n m :
  ARRBUF < n <= MAX_BYTES_PER_BUFFER -> 0 <= m <= n -> m <= zlen l ->
  exists blk, realloc al l n = Some blk /\ n <= zlen blk /\ ztake m blk = ztake m l.
Proof.
  intros Hn Hm Hl. destruct (Hal n Hn) as (fresh & Hf & Hlen). unfold realloc. rewrite Hf.
  pose proof (zlen_nonneg l). eexists. split_and!; [done| |].
  - rewrite zlen_app, zlen_ztake, zlen_zdrop by lia. lia.
  - rewrite ztake_app by (rewrite zlen_ztake; lia). by rewrite ztake_ztake by lia.
Qed.

Lemma SetEx_resized b n :
  buf_wf b -> n = size b -> 0 < n -> resized b (SetExDataType typeByteArr b) n.
Proof.
  intros Hwf -> Hn. split.
  - destruct Hwf. split; try done. by rewrite DataType_SetEx.
  - by rewrite NoFree_SetEx.
  - done.
  - done.
  - rewrite ExDataType_SetEx by (unfold typeByteArr; lia). destruct (Z.eqb_spec (size b) 0); [lia|done].
  - by right.
Qed.

(** A copy of the kept bytes to the front of a block that is large enough. *)
Lemma write_front b m blk :
  buf_wf b -> 0 <= m <= size b -> m <= zlen blk ->
  exists src, read (block b) (m_dwOffset b) m = Ret src /\
    exists blk', write blk 0 src = Ret blk' /\ zlen blk' = zlen blk /\
      ztake m blk' = ztake m (zdrop (m_dwOffset b) (block b)).
Proof.
  intros Hwf Hm Hblk. destruct (kept_bytes b m Hwf Hm) as (src & Hr & Hl & Hsrc).
  exists src. split; [done|]. rewrite write_0 by lia. eexists. split_and!; [done| |].
  - rewrite zlen_app, zlen_zdrop by lia. lia.
  - by rewrite copied_prefix.
Qed.

Lemma ResizeWithOffset_ok b n :
  buf_wf b -> m_pData b <> PNull -> 0 < n <= MAX_BYTES_PER_BUFFER ->
  exists b', ResizeWithOffset al n b = Ret (b', 0) /\ resized b b' n.
Proof.
  intros Hwf Hnn Hn. pose proof (zlen_block b Hwf) as Hblk. pose proof (size_wf b Hwf) as Hsz.
  destruct (wf_win b Hwf) as [Hw1 Hw2]. unfold ResizeWithOffset.
  rewrite (proj2 (Z.eqb_neq _ _)), (proj2 (Z.ltb_ge _ _)) by lia. cbn [orb].
  rewrite (wf_mem _ Hwf). cbn [negb Z.eqb DataTypeMem].
  destruct (Z.eqb_spec n (size b)) as [->|Hne].
  { eexists. split; [done|]. apply SetEx_resized; auto. lia. }
  set (m := Z.min (size b) n). assert (0 <= m <= size b) as Hm by lia.
  assert (Hmove : forall blk, m <= zlen blk -> blk = block b ->
    exists blk', (if (0 <? m) && (0 <? m_dwOffset b) then
       let! src := read (block b) (m_dwOffset b) m in write blk 0 src else Ret blk) = Ret blk' /\
      zlen blk' = zlen blk /\ ztake m blk' = ztake m (zdrop (m_dwOffset b) (block b))).
  { intros blk Hb ->. destruct (Z.ltb_spec 0 m), (Z.ltb_spec 0 (m_dwOffset b)); cbn [andb].
    1: { destruct (write_front b m (block b) Hwf Hm Hb) as (src & -> & blk' & H1 & H2 & H3). eauto. }
    all: eexists; split_and!; [done|done|].
    - by assert (m_dwOffset b = 0) as -> by lia.
    - by assert (m = 0) as -> by lia.
    - by assert (m_dwOffset b = 0) as -> by lia. }
  pose proof (wf_blk _ Hwf) as Hd. pose proof (wf_arr _ Hwf) as Harr.
  unfold ARRBUF in *.
  destruct (Z.leb_spec n 48), (Z.leb_spec (m_dwSize b) 48); cbn [andb];
    rewrite ?(proj2 (Z.ltb_lt 48 n)), ?(proj2 (Z.ltb_ge 48 n)),
      ?(proj2 (Z.ltb_lt 48 (m_dwSize b))), ?(proj2 (Z.ltb_ge 48 (m_dwSize b))) by lia; cbn [andb].
  - assert (exists arr, (if (0 <? m) && (0 <? m_dwOffset b) then
       let! src := read (block b) (m_dwOffset b) m in write (m_arrBuf b) 0 src
       else Ret (m_arrBuf b)) = Ret arr /\ zlen arr = 48 /\
       ztake m arr = ztake m (zdrop (m_dwOffset b) (block b))) as (arr & Harr' & Hlen & Hpre).
    { unfold block in *. destruct (m_pData b).
      - assert (m = 0) as -> by lia. exists (m_arrBuf b). done.
      - destruct (Hmove (m_arrBuf b)) as (arr & ? & ? & ?); [lia|done|].
        eexists. split_and!; [done|lia|done].
      - lia. }
    fold m. rewrite Harr'. cbn [obind]. eexists. split; [done|].
    apply (SetBuffer_resized b PArr n arr arr); try done. lia.
  - destruct (write_front b m (m_arrBuf b) Hwf Hm) as (src & Hr & arr & Hwr & Hl & Hpre); [lia|].
    unfold is_arr. destruct (m_pData b) eqn:Hp; [lia..|].
    fold m. rewrite Hr. cbn [obind]. rewrite Hwr. cbn [obind]. eexists. split; [done|].
    apply (SetBuffer_resized b PArr n arr arr); try done; unfold ARRBUF; lia.
  - destruct (Hal n) as (fresh & Hf & Hfl); [unfold ARRBUF; lia|].
    destruct (write_front b m fresh Hwf Hm) as (src & Hr & blk & Hwr & Hl & Hpre); [lia|].
    unfold is_arr. destruct (m_pData b) eqn:Hp; [done| |lia]. cbn [negb].
    fold m. rewrite Hf, Hr. cbn [obind]. rewrite Hwr. cbn [obind]. eexists. split; [done|].
    rewrite <- (set_arr_id b) at 2.
    apply (SetBuffer_resized b (PHeap blk) n (m_arrBuf b) blk); try done; unfold ARRBUF; lia.
  - destruct (Hmove (block b)) as (blk & Hmv & Hl & Hpre); [lia|done|].
    unfold is_arr. destruct (m_pData b) as [| |l] eqn:Hp; [done|lia|].
    fold m. rewrite Hmv. cbn [obind]. destruct (Z.ltb_spec (m_dwSize b) n).
    + destruct (realloc_keeps blk n m) as (blk' & Hr & Hl' & Hpre');
        [unfold ARRBUF; lia|lia|lia|].
      rewrite Hr. eexists. split; [done|]. rewrite <- (set_arr_id b) at 2.
      apply (SetBuffer_resized b (PHeap blk') n (m_arrBuf b) blk'); try done.
      fold m. by rewrite Hpre'.
    + eexists. split; [done|]. rewrite <- (set_arr_id b) at 2.
      apply (SetBuffer_resized b (PHeap blk) n (m_arrBuf b) blk); try done; unfold ARRBUF; lia.
Qed.

Lemma Resize_mem_ok b n :
  buf_wf b -> 0 <= n <= MAX_BYTES_PER_BUFFER ->
  exists b', Resize_mem al n b = Ret (b', 0) /\ resized b b' n.
Proof.
  intros Hwf Hn. pose proof (zlen_block b Hwf) as Hblk. pose proof (size_wf b Hwf) as Hsz.
  destruct (wf_win b Hwf) as [Hw1 Hw2]. pose proof (wf_arr _ Hwf) as Harr.
  pose proof (wf_blk _ Hwf) as Hd. unfold Resize_mem.
  destruct (Z.eqb_spec n 0) as [->|Hn0].
  { eexists. split; [done|]. split; try done.
    - split; simpl; try done; try lia. rewrite DataType_SetEx. apply (wf_mem _ Hwf).
    - by rewrite NoFree_SetEx.
    - rewrite Z.min_r by lia. by rewrite !ztake_0.
    - by rewrite ExDataType_SetEx.
    - by left. }
  assert (GetShadowSize b = m_dwSize b - m_dwTailOff b) as Hsh
    by (unfold GetShadowSize; apply u32_small; lia).
  destruct ((0 <? m_dwOffset b) || (0 <? GetShadowSize b)) eqn:Hoff.
  { apply ResizeWithOffset_ok; [done| |lia]. intros Hp. rewrite Hp in Hd.
    apply orb_true_iff in Hoff as [?%Z.ltb_lt|?%Z.ltb_lt]; lia. }
  apply orb_false_iff in Hoff as [Ho%Z.ltb_ge Hs%Z.ltb_ge].
  assert (m_dwOffset b = 0) as Ho0 by lia. rewrite Ho0 in *.
  destruct (Z.eqb_spec n (size b)) as [->|Hne].
  { eexists. split; [done|]. apply SetEx_resized; auto. lia. }
  set (m := Z.min (size b) n). unfold ARRBUF in *.
  destruct (Z.leb_spec n 48), (Z.leb_spec (size b) 48); cbn [andb];
    rewrite ?(proj2 (Z.ltb_lt 48 n)), ?(proj2 (Z.ltb_ge 48 n)),
      ?(proj2 (Z.ltb_lt 48 (size b))), ?(proj2 (Z.ltb_ge 48 (size b))) by lia; cbn [andb].
  - eexists. split; [done|]. rewrite <- (set_arr_id b) at 2.
    apply (SetBuffer_resized b PArr n (m_arrBuf b) (m_arrBuf b)); try done; try (unfold ARRBUF; lia).
    rewrite Ho0, zdrop_0. unfold block in *. destruct (m_pData b); [|done|lia].
    by replace (Z.min (size b) n) with 0 by lia.
  - destruct (write_front b n (m_arrBuf b) Hwf) as (src & Hr & arr & Hwr & Hl & Hpre); [lia..|].
    rewrite Ho0 in Hr. rewrite Hr. cbn [obind]. rewrite Hwr. cbn [obind]. eexists. split; [done|].
    apply (SetBuffer_resized b PArr n arr arr); try done; try (unfold ARRBUF; lia).
    by rewrite Z.min_r by lia.
  - destruct (Hal n) as (fresh & Hf & Hfl); [unfold ARRBUF; lia|]. rewrite Hf.
    rewrite read_ok by lia. cbn [obind].
    assert (zlen (ztake (size b) (zdrop 0 (m_arrBuf b))) = size b) as Hls
      by (rewrite zdrop_0, zlen_ztake by lia; lia).
    rewrite write_0 by lia. cbn [obind]. eexists. split; [done|].
    match goal with |- context [PHeap ?x] => set (blk := x) end.
    rewrite <- (set_arr_id b) at 2.
    apply (SetBuffer_resized b (PHeap blk) n (m_arrBuf b) blk); try done; try lia.
    + unfold blk. rewrite zlen_app, zlen_zdrop by lia. lia.
    + unfold blk. rewrite Z.min_l by lia. rewrite copied_prefix, Ho0, !zdrop_0 by done.
      unfold block in *. destruct (m_pData b); [|done|lia]. by replace (size b) with 0 by lia.
  - destruct (realloc_keeps (block b) n m) as (blk' & Hr & Hl' & Hpre'); [unfold ARRBUF; lia|lia|lia|].
    rewrite Hr. eexists. split; [done|]. rewrite <- (set_arr_id b) at 2.
    apply (SetBuffer_resized b (PHeap blk') n (m_arrBuf b) blk'); try done; try lia.
    fold m. by rewrite Ho0, zdrop_0.
Qed.

Lemma Resize_ok b n :
  buf_wf b -> IsNoFree b = false -> 0 <= n <= MAX_BYTES_PER_BUFFER ->
  exists b', Resize al rel n b = Ret (b', 0) /\ resized b b' n.
Proof.
  intros Hwf Hnf Hn. unfold Resize. rewrite (proj2 (Z.ltb_ge _ _)) by lia.
  rewrite Hnf, (wf_mem _ Hwf). cbn [Z.eqb DataTypeMem].
  destruct (Resize_mem_ok b n Hwf Hn) as (b' & -> & Hr). by exists b'.
Qed.
End Resizing.

(** ** Lemmas: writing into the window *)

Lemma le_val_bytes n z : 0 <= z < 2 ^ (8 * Z.of_nat n) -> le_val (le_bytes n z) = z.
Proof.
  revert z. induction n as [|n IH]; intros z Hz; cbn [le_bytes le_val].
  - change (8 * Z.of_nat 0) with 0 in Hz. lia.
  - rewrite IH.
    + apply Z.bits_inj'. intros i Hi.
      rewrite Z.lor_spec, Z.land_spec. change 0xFF with (Z.ones 8).
      destruct (Z.ltb_spec i 8).
      * rewrite Z.ones_spec_low, andb_true_r by lia. rewrite Z.shiftl_spec_low by lia.
        apply orb_false_r.
      * rewrite Z.ones_spec_high, andb_false_r by lia.
        rewrite Z.shiftl_spec, Z.shiftr_spec by lia. simpl. f_equal. lia.
    + rewrite Z.shiftr_div_pow2 by lia. split; [apply Z.div_pos; lia|].
      apply Z.div_lt_upper_bound; [lia|]. rewrite <- Z.pow_add_r by lia.
      replace (8 + 8 * Z.of_nat n) with (8 * Z.of_nat (S n)) by lia. lia.
Qed.

Lemma be_val_bytes n z : 0 <= z < 2 ^ (8 * Z.of_nat n) -> be_val (be_bytes n z) = z.
Proof. intros. unfold be_val, be_bytes. rewrite rev_involutive. by apply le_val_bytes. Qed.

Lemma zlen_be_bytes n z : zlen (be_bytes n z) = Z.of_nat n.
Proof.
  unfold zlen, be_bytes. rewrite length_rev. f_equal. revert z.
  induction n; intros z; simpl; auto.
Qed.

Lemma write_app p w s bs :
  zlen bs = zlen w -> write (p ++ w ++ s) (zlen p) bs = Ret (p ++ bs ++ s).
Proof.
  intros H. rewrite write_ok by (rewrite !zlen_app; pose proof (zlen_nonneg s); lia).
  rewrite ztake_app_exact by done. do 3 f_equal. rewrite H, <- zlen_app, app_assoc.
  by apply zdrop_app_exact.
Qed.

(** The block around the window. *)
Lemma block_split b :
  buf_wf b -> block b = ztake (m_dwOffset b) (block b) ++ view b ++
    zdrop (size b) (zdrop (m_dwOffset b) (block b)) /\
    zlen (ztake (m_dwOffset b) (block b)) = m_dwOffset b.
Proof.
  intros Hwf. pose proof (zlen_block b Hwf). destruct (wf_win b Hwf). split.
  - unfold view. by rewrite ztake_zdrop, ztake_zdrop.
  - rewrite zlen_ztake by lia. lia.
Qed.

Lemma set_block_wf b l : buf_wf b -> zlen l = zlen (block b) -> buf_wf (set_block l b).
Proof.
  intros [Ha Hw Hb Hm] Hl. unfold set_block, block in *.
  destruct (m_pData b) eqn:Hp; [by split; rewrite ?Hp|..]; split; simpl; rewrite ?Hl; done.
Qed.

Lemma set_block_fields l b :
  size (set_block l b) = size b /\ m_dwOffset (set_block l b) = m_dwOffset b /\
  m_dwType (set_block l b) = m_dwType b /\ m_dwSize (set_block l b) = m_dwSize b /\
  m_dwTailOff (set_block l b) = m_dwTailOff b /\ ptr_null (set_block l b) = ptr_null b.
Proof. unfold set_block, size, ptr_null. destruct (m_pData b) eqn:Hp; simpl; by rewrite ?Hp. Qed.

Lemma write_view b i bs :
  buf_wf b -> 0 <= i -> i + zlen bs <= size b ->
  exists blk, write (block b) (m_dwOffset b + i) bs = Ret blk /\ buf_wf (set_block blk b) /\
    view (set_block blk b) = ztake i (view b) ++ bs ++ zdrop (i + zlen bs) (view b).
Proof.
  intros Hwf Hi Hbs. destruct (block_split b Hwf) as [Hs Hl]. pose proof (zlen_view b Hwf) as Hv.
  pose proof (zlen_nonneg bs).
  set (A := ztake (m_dwOffset b) (block b)) in *.
  set (C := zdrop (size b) (zdrop (m_dwOffset b) (block b))) in *.
  set (W1 := ztake i (view b)). set (W3 := zdrop (i + zlen bs) (view b)).
  set (W2 := ztake (zlen bs) (zdrop i (view b))).
  assert (view b = W1 ++ W2 ++ W3) as Hw.
  { unfold W1, W2, W3. rewrite <- zdrop_zdrop by lia. by rewrite !ztake_zdrop. }
  assert (zlen W1 = i) as H1 by (unfold W1; rewrite zlen_ztake by lia; lia).
  assert (zlen W2 = zlen bs) as H2
    by (unfold W2; rewrite zlen_ztake, zlen_zdrop by lia; lia).
  exists (A ++ (W1 ++ bs ++ W3) ++ C). split_and!.
  - rewrite Hs, Hw, <- Hl, <- H1, <- zlen_app, <- !app_assoc.
    rewrite !(app_assoc A W1). by rewrite write_app by done.
  - apply set_block_wf; [done|]. rewrite Hs, Hw, !zlen_app. lia.
  - destruct (set_block_fields (A ++ (W1 ++ bs ++ W3) ++ C) b) as (Hsz & Ho & _).
    unfold view at 1. rewrite Hsz, Ho. unfold set_block, block.
    destruct (m_pData b) eqn:Hp; simpl.
    + assert (size b = 0) as Hs0.
      { rewrite size_wf by done. destruct (wf_win b Hwf). pose proof (wf_blk b Hwf) as Hk.
        rewrite Hp in Hk. lia. }
      assert (zlen (W1 ++ bs ++ W3) = 0) as Hz by (rewrite Hw in Hv; rewrite !zlen_app in *; lia).
      unfold zlen in Hz. destruct (W1 ++ bs ++ W3); [by rewrite Hp, Hs0|simpl in Hz; lia].
    + rewrite <- Hl at 1. rewrite zdrop_app_exact by done. apply ztake_app_exact.
      rewrite <- Hv, Hw, !zlen_app. lia.
    + rewrite <- Hl at 1. rewrite zdrop_app_exact by done. apply ztake_app_exact.
      rewrite <- Hv, Hw, !zlen_app. lia.
Qed.

(** ** Lemmas: appending and serializing *)

Section Using.
Context (al : Z -> option bytes) (rel : bytes -> bytes) (Hal : al_ok al).

Lemma view_prefix b b' n :
  resized b b' n -> buf_wf b -> size b <= n -> ztake (size b) (view b') = view b.
Proof.
  intros Hr Hwf Hn. pose proof (rs_view _ _ _ Hr) as Hv. rewrite Z.min_l in Hv by done.
  rewrite Hv. apply ztake_all. rewrite zlen_view by done. lia.
Qed.

Lemma NoFree_set_block l b : IsNoFree (set_block l b) = IsNoFree b.
Proof. unfold IsNoFree. by destruct (set_block_fields l b) as (_ & _ & -> & _). Qed.

Lemma SetEx_wf dt b : buf_wf b -> buf_wf (SetExDataType dt b).
Proof. intros []. split; try done. by rewrite DataType_SetEx. Qed.

Lemma Append_ok b mem n :
  buf_wf b -> IsNoFree b = false -> 0 < n -> size b + n <= MAX_BYTES_PER_BUFFER -> n <= zlen mem ->
  exists b', Append al rel (Some mem) n b = Ret (b', 0) /\ buf_wf b' /\ IsNoFree b' = false /\
    view b' = view b ++ ztake n mem /\ m_dwOffset b' = 0.
Proof.
  intros Hwf Hnf Hn Hmax Hmem. pose proof (zlen_nonneg (view b)) as Hsz.
  rewrite zlen_view in Hsz by done. unfold Append, MAX_BYTES_PER_BUFFER, BUF_MAX_SIZE in *.
  rewrite (wf_mem _ Hwf), Hnf. cbn [Z.eqb DataTypeMem negb].
  rewrite (proj2 (Z.ltb_ge _ _)), (proj2 (Z.eqb_neq _ _)) by lia. cbn [orb].
  rewrite u32_small by lia.
  destruct (Resize_ok al rel Hal b (size b + n) Hwf Hnf) as (b1 & -> & Hr);
    [unfold MAX_BYTES_PER_BUFFER; lia|].
  cbn [obind]. change (ERROR 0) with false. cbv iota.
  rewrite read_ok by lia. cbn [obind]. rewrite zdrop_0.
  assert (zlen (ztake n mem) = n) as Hl by (rewrite zlen_ztake by lia; lia).
  pose proof (rs_wf _ _ _ Hr) as Hwf1. pose proof (rs_size _ _ _ Hr) as Hs1.
  destruct (write_view b1 (size b) (ztake n mem) Hwf1) as (blk & -> & Hwf2 & Hv); [lia|lia|].
  cbn [obind]. eexists. split; [done|]. split_and!.
  - by apply SetEx_wf.
  - rewrite NoFree_SetEx, NoFree_set_block, (rs_nofree _ _ _ Hr). done.
  - change (view (SetExDataType typeByteArr (set_block blk b1))) with (view (set_block blk b1)).
    rewrite Hv, (view_prefix b b1 (size b + n)) by (done || lia).
    assert (zdrop (size b + zlen (ztake n mem)) (view b1) = []) as ->.
    { unfold zdrop. apply drop_ge. pose proof (zlen_view b1 Hwf1) as Hlv. unfold zlen in *. lia. }
    by rewrite app_nil_r.
  - destruct (set_block_fields blk b1) as (_ & Ho & _). simpl. rewrite Ho.
    destruct (rs_off _ _ _ Hr) as [|[? _]]; [done|lia].
Qed.

Lemma Append_fails b mem n :
  buf_wf b -> IsNoFree b = false -> 0 <= n < 2 ^ 32 ->
  (mem = None \/ n = 0 \/ BUF_MAX_SIZE < n -> Append al rel mem n b = Ret (b, - EINVAL)) /\
  (mem <> None -> 0 < n <= BUF_MAX_SIZE -> MAX_BYTES_PER_BUFFER < size b + n < 2 ^ 32 ->
     Append al rel mem n b = Ret (b, - E2BIG)).
Proof.
  intros Hwf Hnf Hn. unfold Append. rewrite (wf_mem _ Hwf), Hnf. cbn [Z.eqb DataTypeMem negb].
  split.
  - intros H. destruct mem; [|done]. destruct (Z.ltb_spec BUF_MAX_SIZE n), (Z.eqb_spec n 0); try done.
    destruct H as [|[|]]; [done|lia|lia].
  - intros Hm Hn' Hs. destruct mem; [|done]. unfold BUF_MAX_SIZE in *.
    rewrite (proj2 (Z.ltb_ge _ _)), (proj2 (Z.eqb_neq _ _)) by lia. cbn [orb].
    rewrite u32_small by (unfold MAX_BYTES_PER_BUFFER in *; lia).
    unfold Resize. rewrite (proj2 (Z.ltb_lt _ _)) by lia. done.
Qed.

Lemma strncpy_exact s extra :
  Forall (fun c => c <> 0) s -> strncpy (S (length s)) (s ++ 0 :: extra) = Ret (s ++ [0]).
Proof.
  induction 1 as [|c s Hc Hs IH]; [done|]. simpl in *. destruct (Z.eqb_spec c 0); [done|].
  simpl in IH. by rewrite IH.
Qed.

(** The conversion is its own inverse on a value of its type. *)
Lemma PrimeType_roundtrip b extra :
  buf_wf b -> prime_ok b ->
  exists p, PrimeType (GetExDataType b) (size b) (zdrop (m_dwOffset b) (block b)) = Ret (Some p) /\
    zlen p = size b /\ PrimeType (GetExDataType b) (size b) (p ++ extra) = Ret (Some (view b)).
Proof.
  intros Hwf Hp. destruct (block_split b Hwf) as [Hs Hl]. pose proof (zlen_view b Hwf) as Hv.
  assert (zdrop (m_dwOffset b) (block b) =
    view b ++ zdrop (size b) (zdrop (m_dwOffset b) (block b))) as Hd
    by (unfold view; by rewrite ztake_zdrop).
  set (C := zdrop (size b) _) in Hd. rewrite Hd. clearbody C.
  assert (Hread : forall l x, zlen l = size b -> read (l ++ x) 0 (size b) = Ret l).
  { intros l x Hlen. pose proof (zlen_nonneg x).
    rewrite read_ok by (rewrite zlen_app; lia). by rewrite zdrop_0, ztake_app_exact. }
  assert (Hrev : zlen (rev (view b)) = size b) by (unfold zlen in *; by rewrite length_rev).
  unfold prime_ok in Hp. unfold PrimeType.
  destruct ((GetExDataType b =? typeNone) || (GetExDataType b =? typeByteArr)).
  { exists (view b). by rewrite !Hread. }
  destruct (GetExDataType b =? typeByte).
  { exists (view b). rewrite <- Hp, !Hread by done. done. }
  destruct (GetExDataType b =? typeUInt16).
  { exists (rev (view b)). rewrite <- Hp, !Hread by done. simpl. by rewrite rev_involutive. }
  destruct ((GetExDataType b =? typeUInt32) || (GetExDataType b =? typeFloat)).
  { exists (rev (view b)). rewrite <- Hp, !Hread by done. simpl. by rewrite rev_involutive. }
  destruct ((GetExDataType b =? typeUInt64) || (GetExDataType b =? typeDouble)).
  { exists (rev (view b)). rewrite <- Hp, !Hread by done. simpl. by rewrite rev_involutive. }
  destruct (GetExDataType b =? typeString); [|done].
  destruct Hp as (s & Hvs & Hnz). exists (s ++ [0]).
  assert (Z.to_nat (size b) = S (length s)) as Hn.
  { rewrite <- Hv, Hvs. unfold zlen. rewrite length_app. simpl. lia. }
  rewrite Hn, Hvs, <- !app_assoc. change ([0] ++ C) with (0 :: C). change ([0] ++ extra) with (0 :: extra). rewrite !strncpy_exact by done.
  cbn [obind]. rewrite pop_back_snoc. split_and!; [done| |done]. rewrite <- Hvs. done.
Qed.

Lemma put_header_ok c sz t o b :
  buf_wf b -> SERI_HEADER_SIZE <= size b ->
  exists b' X, put_header c sz t o b = Ret b' /\ buf_wf b' /\ zlen X = 3 /\ size b' = size b /\
    m_dwOffset b' = m_dwOffset b /\
    view b' = (be_bytes 4 c ++ be_bytes 4 sz ++ [1] ++ X ++ be_bytes 4 t ++ be_bytes 4 o) ++
              zdrop SERI_HEADER_SIZE (view b).
Proof.
  unfold SERI_HEADER_SIZE. intros Hwf Hs. unfold put_header. pose proof (zlen_view b Hwf) as Hv.
  set (h1 := be_bytes 4 c ++ be_bytes 4 sz ++ [1]). set (h2 := be_bytes 4 t ++ be_bytes 4 o).
  assert (zlen h1 = 9) as H1 by (unfold h1; by rewrite !zlen_app, !zlen_be_bytes).
  assert (zlen h2 = 8) as H2 by (unfold h2; by rewrite !zlen_app, !zlen_be_bytes).
  destruct (write_view b 0 h1 Hwf) as (blk1 & Hw1 & Hwf1 & Hv1); [lia|lia|].
  rewrite Z.add_0_r in Hw1. rewrite Hw1. cbn [obind].
  set (X := ztake 3 (zdrop 9 (view b))).
  assert (zlen X = 3) as HX by (unfold X; rewrite zlen_ztake, zlen_zdrop by lia; lia).
  assert (view (set_block blk1 b) =
    (h1 ++ X) ++ ztake 8 (zdrop 12 (view b)) ++ zdrop 20 (view b)) as Hv1'.
  { rewrite Hv1, H1. change (ztake 0 (view b)) with (@nil Z). rewrite app_nil_l, <- app_assoc. f_equal.
    change (0 + 9) with 9. change 20 with (12 + 8). rewrite <- zdrop_zdrop, ztake_zdrop by lia.
    change 12 with (9 + 3). rewrite <- zdrop_zdrop by lia. unfold X. by rewrite ztake_zdrop. }
  destruct (set_block_fields blk1 b) as (Hs1 & Ho1 & _).
  destruct (write_view (set_block blk1 b) 12 h2 Hwf1) as (blk2 & Hw2 & Hwf2 & Hv2); [lia|lia|].
  rewrite Ho1 in Hw2.
  assert (block (set_block blk1 b) = blk1 /\
    forall l, set_block l (set_block blk1 b) = set_block l b) as [Hb1 Hbb].
  { unfold set_block, block. destruct (m_pData b) eqn:Hp; simpl; rewrite ?Hp; [|done|done].
    exfalso. pose proof (wf_blk b Hwf) as Hk. rewrite Hp in Hk. destruct (wf_win b Hwf).
    rewrite size_wf in Hs by done. lia. }
  rewrite Hb1 in Hw2. rewrite Hw2. cbn [obind].
  exists (set_block blk2 b), X. rewrite Hbb in Hwf2, Hv2.
  destruct (set_block_fields blk2 b) as (Hs2 & Ho2 & _).
  split_and!; try done. rewrite Hv2, Hv1', H2.
  rewrite ztake_app_exact by (rewrite zlen_app; lia). change (12 + 8) with 20.
  rewrite (app_assoc (h1 ++ X) (ztake 8 _)), zdrop_app_exact.
  - unfold h1, h2. by rewrite <- !app_assoc.
  - rewrite !zlen_app, zlen_ztake, zlen_zdrop by lia. lia.
Qed.

Lemma prime_pos b : prime_ok b -> buf_wf b -> 0 < size b.
Proof.
  unfold prime_ok. intros Hp Hwf.
  destruct ((GetExDataType b =? typeNone) || (GetExDataType b =? typeByteArr)); [done|].
  destruct (GetExDataType b =? typeByte); [lia|]. destruct (GetExDataType b =? typeUInt16); [lia|].
  destruct ((GetExDataType b =? typeUInt32) || (GetExDataType b =? typeFloat)); [lia|].
  destruct ((GetExDataType b =? typeUInt64) || (GetExDataType b =? typeDouble)); [lia|].
  destruct (GetExDataType b =? typeString); [|done].
  destruct Hp as (s & Hv & _). rewrite <- zlen_view, Hv, zlen_app by done.
  pose proof (zlen_nonneg s). change (zlen [0]) with 1. lia.
Qed.

Lemma not_null b : buf_wf b -> 0 < size b -> m_pData b <> PNull.
Proof.
  intros Hwf Hs Hp. pose proof (wf_blk b Hwf) as Hk. rewrite Hp in Hk. destruct (wf_win b Hwf).
  rewrite size_wf in Hs by done. lia.
Qed.

Lemma ptr_null_false b : buf_wf b -> 0 < size b -> ptr_null b = false.
Proof.
  intros Hwf Hs. pose proof (not_null b Hwf Hs). unfold ptr_null. by destruct (m_pData b).
Qed.

(** What [Serialize] leaves in the target: the header, then the converted
    value. *)
Lemma Serialize_ok ser_ptr b toBuf :
  buf_wf b -> prime_ok b -> size b + SERI_HEADER_SIZE <= MAX_BYTES_PER_BUFFER ->
  buf_wf toBuf -> IsNoFree toBuf = false ->
  exists t X p, Serialize al rel ser_ptr b toBuf = Ret (t, 0) /\ buf_wf t /\
    size t = SERI_HEADER_SIZE + size b /\ zlen X = 3 /\ zlen p = size b /\
    view t = (be_bytes 4 Clsid_CBuffer ++ be_bytes 4 (size b) ++ [1] ++ X ++
              be_bytes 4 (m_dwType b) ++ be_bytes 4 0) ++ p /\
    forall extra, PrimeType (GetExDataType b) (size b) (p ++ extra) = Ret (Some (view b)).
Proof.
  unfold SERI_HEADER_SIZE, MAX_BYTES_PER_BUFFER. intros Hwf Hp Hmax Hwt Hnf.
  pose proof (prime_pos b Hp Hwf) as Hpos. unfold Serialize, SERI_HEADER_SIZE.
  destruct (Resize_ok al rel Hal toBuf 20 Hwt Hnf) as (t1 & -> & Hr1); [done|]. cbn [obind].
  rewrite ptr_null_false by done. rewrite (proj2 (Z.eqb_neq (size b) 0)) by lia. cbn [orb].
  rewrite (wf_mem _ Hwf). cbn [Z.eqb DataTypeMem DataTypeMsgPtr DataTypeObjPtr orb].
  rewrite u32_small by lia.
  destruct (Resize_ok al rel Hal t1 (20 + size b) (rs_wf _ _ _ Hr1)) as (t2 & -> & Hr2).
  { by rewrite (rs_nofree _ _ _ Hr1). } { unfold MAX_BYTES_PER_BUFFER. lia. }
  cbn [obind]. pose proof (rs_size _ _ _ Hr2) as Hs2.
  destruct (put_header_ok Clsid_CBuffer (size b) (m_dwType b) 0 t2 (rs_wf _ _ _ Hr2))
    as (t3 & X & -> & Hwf3 & HX & Hs3 & Ho3 & Hv3); [unfold SERI_HEADER_SIZE; lia|].
  cbn [obind].
  destruct (PrimeType_roundtrip b [] Hwf Hp) as (p & Hp1 & Hp2 & _). rewrite Hp1. cbn [obind].
  destruct (write_view t3 20 p Hwf3) as (blk & Hw & Hwf4 & Hv4); [lia|lia|].
  rewrite Hw. cbn [obind].
  destruct (set_block_fields blk t3) as (Hs4 & _).
  exists (set_block blk t3), X, p. split_and!; try done; [lia| |].
  - set (h := be_bytes 4 Clsid_CBuffer ++ be_bytes 4 (size b) ++ [1] ++ X ++
      be_bytes 4 (m_dwType b) ++ be_bytes 4 0) in *.
    assert (zlen h = 20) as Hh by (unfold h; rewrite !zlen_app, !zlen_be_bytes, HX; done).
    rewrite Hv4, Hv3, ztake_app_exact by done. f_equal.
    assert (zdrop (20 + zlen p) (h ++ zdrop SERI_HEADER_SIZE (view t2)) = []) as ->.
    { unfold zdrop at 1. apply drop_ge. pose proof (zlen_view t3 Hwf3) as Hl. rewrite Hv3 in Hl.
      unfold zlen in *. lia. }
    by rewrite app_nil_r.
  - intros extra. destruct (PrimeType_roundtrip b extra Hwf Hp) as (p' & Hp1' & _ & Hp3).
    assert (p' = p) as -> by congruence. exact Hp3.
Qed.
End Using.

(** ** Properties *)

(** C30: [Resize] on a well-formed memory buffer keeps it well-formed
    and keeps the leading bytes of the window, however the block moves (inside
    [m_arrBuf], between it and the heap, within the heap, from behind an
    offset): the window has the new size and begins like the old one.  More
    than [MAX_BYTES_PER_BUFFER] and a buffer that must not be freed are
    refused without a change. *)
Theorem Resize_spec (al : Z -> option bytes) (rel : bytes -> bytes) (b : CBuffer) (n : Z) :
  al_ok al -> buf_wf b -> 0 <= n ->
  (MAX_BYTES_PER_BUFFER < n -> Resize al rel n b = Ret (b, - E2BIG)) /\
  (n <= MAX_BYTES_PER_BUFFER -> IsNoFree b = true -> Resize al rel n b = Ret (b, - EACCES)) /\
  (n <= MAX_BYTES_PER_BUFFER -> IsNoFree b = false ->
     exists b', Resize al rel n b = Ret (b', 0) /\ resized b b' n).
Proof.
  intros Hal Hwf Hn. split_and!.
  - intros H. unfold Resize. by rewrite (proj2 (Z.ltb_lt _ _)).
  - intros H Hnf. unfold Resize. by rewrite (proj2 (Z.ltb_ge _ _)), Hnf by lia.
  - intros H Hnf. by apply Resize_ok.
Qed.

(** C31: [Append] of [n] bytes makes the window the old one followed
    by those bytes and moves it to the start of the block; no block, no bytes
    or too many are [-EINVAL], and a total above [MAX_BYTES_PER_BUFFER] is
    [-E2BIG], both without a change. *)
Theorem Append_spec (al : Z -> option bytes) (rel : bytes -> bytes) (b : CBuffer)
    (mem : bytes) (n : Z) :
  al_ok al -> buf_wf b -> IsNoFree b = false -> 0 <= n < 2 ^ 32 -> n <= zlen mem ->
  (0 < n -> size b + n <= MAX_BYTES_PER_BUFFER ->
     exists b', Append al rel (Some mem) n b = Ret (b', 0) /\ buf_wf b' /\
       view b' = view b ++ ztake n mem /\ m_dwOffset b' = 0) /\
  (n = 0 \/ BUF_MAX_SIZE < n -> Append al rel (Some mem) n b = Ret (b, - EINVAL)) /\
  (0 < n <= BUF_MAX_SIZE -> MAX_BYTES_PER_BUFFER < size b + n < 2 ^ 32 ->
     Append al rel (Some mem) n b = Ret (b, - E2BIG)) /\
  Append al rel None n b = Ret (b, - EINVAL).
Proof.
  intros Hal Hwf Hnf Hn Hmem. split_and!.
  - intros Hpos Hmax. destruct (Append_ok al rel Hal b mem n) as (b' & ? & ? & ? & ? & ?); eauto.
  - intros H. destruct (Append_fails al rel b (Some mem) n Hwf Hnf Hn) as [Hf _]. tauto.
  - intros H1 H2. destruct (Append_fails al rel b (Some mem) n Hwf Hnf Hn) as [_ Hf]. by apply Hf.
  - destruct (Append_fails al rel b None n Hwf Hnf Hn) as [Hf _]. tauto.
Qed.

(** C31: what [Serialize] writes for a buffer that holds a value of its
    extended type (bytes, a 8/16/32/64-bit number, a float, a string), and
    that leaves room for the header, [Deserialize] reads back: the same window
    and the same type word, whatever follows the bytes and whatever size the
    caller claims. *)
Theorem Serialize_roundtrip (al : Z -> option bytes) (rel : bytes -> bytes)
    (ser_ptr : CBuffer -> CBuffer -> outcome (CBuffer * Z))
    (des_ptr : bytes -> CBuffer -> outcome (CBuffer * Z))
    (b toBuf dst : CBuffer) (extra : bytes) (n : Z) :
  al_ok al -> buf_wf b -> prime_ok b -> 0 <= m_dwType b < 2 ^ 32 ->
  size b + SERI_HEADER_SIZE <= MAX_BYTES_PER_BUFFER ->
  buf_wf toBuf -> IsNoFree toBuf = false -> buf_wf dst -> IsNoFree dst = false ->
  exists t d, Serialize al rel ser_ptr b toBuf = Ret (t, 0) /\
    size t = SERI_HEADER_SIZE + size b /\
    Deserialize al rel des_ptr (view t ++ extra) n dst = Ret (d, 0) /\
    view d = view b /\ m_dwType d = m_dwType b.
Proof.
  intros Hal Hwf Hp Hty Hmax Hwt Hnt Hwd Hnd. pose proof (prime_pos b Hp Hwf) as Hpos.
  destruct (Serialize_ok al rel Hal ser_ptr b toBuf) as (t & X & p & Ht & _ & Hst & HX & Hlp & Hv & Hprime);
    try done.
  exists t. unfold SERI_HEADER_SIZE, MAX_BYTES_PER_BUFFER in *.
  set (hdr := be_bytes 4 Clsid_CBuffer ++ be_bytes 4 (size b) ++ [1] ++ X ++
    be_bytes 4 (m_dwType b) ++ be_bytes 4 0) in Hv.
  assert (zlen hdr = 20) as Hh by (unfold hdr; rewrite !zlen_app, !zlen_be_bytes, HX; done).
  unfold Deserialize, SERI_HEADER_SIZE. rewrite Hv, <- app_assoc.
  pose proof (zlen_nonneg p). pose proof (zlen_nonneg extra).
  rewrite read_ok by (rewrite !zlen_app; lia). cbn [obind].
  rewrite zdrop_0, (ztake_app_exact 20), (zdrop_app_exact 20) by done.
  assert (ztake 4 hdr = be_bytes 4 Clsid_CBuffer) as ->
    by (apply ztake_app_exact; by rewrite zlen_be_bytes).
  assert (ztake 4 (zdrop 4 hdr) = be_bytes 4 (size b)) as ->.
  { unfold hdr. rewrite zdrop_app_exact by (by rewrite zlen_be_bytes).
    apply ztake_app_exact. by rewrite zlen_be_bytes. }
  assert (ztake 4 (zdrop 12 hdr) = be_bytes 4 (m_dwType b)) as ->.
  { unfold hdr. rewrite (app_assoc [1] X), (app_assoc (be_bytes 4 (size b))),
      (app_assoc (be_bytes 4 Clsid_CBuffer)).
    rewrite zdrop_app_exact by (rewrite !zlen_app, !zlen_be_bytes, HX; done).
    apply ztake_app_exact. by rewrite zlen_be_bytes. }
  rewrite !be_val_bytes by (done || (simpl; lia)).
  rewrite Z.eqb_refl, (proj2 (Z.ltb_ge _ _)) by (unfold BUF_MAX_SIZE; lia). cbn [negb].
  change (Z.land (m_dwType b) DATATYPE_MASK) with (GetDataType b). rewrite (wf_mem _ Hwf), Z.eqb_refl.
  rewrite (proj2 (Z.eqb_neq (size b) 0)) by lia.
  destruct (Resize_ok al rel Hal dst (size b) Hwd Hnd) as (d & -> & Hr);
    [unfold MAX_BYTES_PER_BUFFER; lia|].
  cbn [obind]. pose proof (rs_wf _ _ _ Hr) as Hwf1. pose proof (rs_size _ _ _ Hr) as Hs1.
  rewrite ptr_null_false by (done || lia).
  change (GetExDataType (set_type (m_dwType b) d)) with (GetExDataType b).
  change (size (set_type (m_dwType b) d)) with (size d).
  rewrite Hs1, Hprime. cbn [obind].
  assert (buf_wf (set_type (m_dwType b) d)) as Hwf2
    by (destruct Hwf1; split; try done; apply (wf_mem _ Hwf)).
  pose proof (zlen_view b Hwf) as Hvb.
  destruct (write_view (set_type (m_dwType b) d) 0 (view b) Hwf2) as (blk & Hw & _ & Hvd);
    [lia|change (size (set_type (m_dwType b) d)) with (size d); lia|].
  rewrite Z.add_0_r in Hw. rewrite Hw. cbn [obind]. eexists. split_and!; [done|lia|done| |].
  - rewrite Hvd. change (ztake 0 (view (set_type (m_dwType b) d))) with (@nil Z).
    rewrite Z.add_0_l, app_nil_l.
    assert (zdrop (zlen (view b)) (view (set_type (m_dwType b) d)) = []) as ->; [|by rewrite app_nil_r].
    unfold zdrop. apply drop_ge.
    pose proof (zlen_view _ Hwf2) as Hl. change (size (set_type (m_dwType b) d)) with (size d) in Hl.
    unfold zlen in *. lia.
  - by destruct (set_block_fields blk (set_type (m_dwType b) d)) as (_ & _ & -> & _).
Qed.

(** C38: the status of [Resize] is not looked at in [Serialize]: for
    a byte array within the 20 bytes of the header below the limit (a size
    that [Append] and [Resize] allow), the second [Resize] is refused, and
    the copy runs past the end of the 48-byte block of a fresh target. *)
Theorem Serialize_overflow (al : Z -> option bytes) (rel : bytes -> bytes)
    (ser_ptr : CBuffer -> CBuffer -> outcome (CBuffer * Z)) (b toBuf : CBuffer) :
  buf_wf b -> GetExDataType b = typeByteArr ->
  MAX_BYTES_PER_BUFFER - SERI_HEADER_SIZE < size b <= MAX_BYTES_PER_BUFFER ->
  buf_wf toBuf -> m_pData toBuf = PNull -> IsNoFree toBuf = false ->
  Serialize al rel ser_ptr b toBuf = Undef.
Proof.
  unfold MAX_BYTES_PER_BUFFER, SERI_HEADER_SIZE. intros Hwf Hty Hs Hwt Hnull Hnf.
  pose proof (wf_blk _ Hwt) as Hk. rewrite Hnull in Hk. destruct (wf_win _ Hwt) as [Hw1 Hw2].
  pose proof (wf_arr _ Hwt) as Harr.
  unfold Serialize, SERI_HEADER_SIZE. unfold Resize at 1. cbn [Z.ltb].
  change (MAX_BYTES_PER_BUFFER <? 20) with false. rewrite Hnf, (wf_mem _ Hwt). cbn [Z.eqb DataTypeMem].
  assert (size toBuf = 0) as Hs0 by (rewrite size_wf by done; lia).
  assert (GetShadowSize toBuf = 0) as Hsh0 by (unfold GetShadowSize; rewrite u32_small; lia).
  unfold Resize_mem. rewrite Hs0, Hsh0. replace (m_dwOffset toBuf) with 0 by lia.
  cbn [Z.eqb Z.ltb Z.compare orb andb Z.leb ARRBUF Pos.compare Pos.compare_cont throw_on_error
       obind ERROR snd fst].
  set (t := SetExDataType typeByteArr (SetBuffer PArr 20 toBuf)).
  assert (GetDataType t = DataTypeMem /\ IsNoFree t = false) as [Htm Htn].
  { unfold t. rewrite DataType_SetEx, NoFree_SetEx. split; [apply (wf_mem _ Hwt)|done]. }
  rewrite ptr_null_false by (done || lia). rewrite (proj2 (Z.eqb_neq (size b) 0)) by lia. cbn [orb].
  rewrite (wf_mem _ Hwf). cbn [Z.eqb DataTypeMem DataTypeMsgPtr DataTypeObjPtr orb].
  rewrite u32_small by lia. unfold Resize. rewrite (proj2 (Z.ltb_lt _ _))
    by (unfold MAX_BYTES_PER_BUFFER; lia). cbn [obind].
  assert (Hwt' : buf_wf t).
  { unfold t. apply SetEx_wf. destruct Hwt. split; simpl; unfold ARRBUF in *; try done; lia. }
  destruct (put_header_ok Clsid_CBuffer (size b) (m_dwType b) 0 t Hwt')
    as (t' & X & Hph & Hwf3 & _ & Hs3 & Ho3 & _); [vm_compute; congruence|].
  rewrite Hph. cbn [obind].
  rewrite Hty. unfold PrimeType. cbn [Z.eqb typeByteArr typeNone orb Pos.eqb].
  pose proof (zlen_block b Hwf). destruct (wf_win b Hwf).
  rewrite size_wf in * by done.
  rewrite read_ok by (rewrite zlen_zdrop; lia). cbn [obind].
  unfold write at 1. rewrite zdrop_0.
  assert (zlen (block t') <= 48) as Hb.
  { assert (m_pData t' = PArr) as Hpa.
    { unfold put_header in Hph. destruct (write (block t) _ _) as [b1| |]; [|done..]. simpl in Hph.
      destruct (write b1 _ _) as [b2| |]; [|done..]. simpl in Hph. by simplify_eq. }
    unfold block. rewrite Hpa, (wf_arr _ Hwf3). done. }
  assert (0 <= m_dwOffset t') by (destruct (wf_win _ Hwf3); lia).
  rewrite (proj2 (Z.leb_gt _ _)); [done|]. rewrite zlen_ztake, zlen_zdrop by lia. lia.
Qed.

(** C36: [Detach] hands out the block with its offset and tail, and
    [Attach] of exactly these on another buffer succeeds but sets the offset
    while the tail is still 0, so that it is refused: the window of the
    receiver always starts at the block.  The window comes over only when
    the offset was 0.  And the donor keeps the offset and the tail, so that
    its [size] is still that of the window it gave away, over its 48 bytes. *)
Theorem Detach_Attach (al : Z -> option bytes) (rel : bytes -> bytes) (b c : CBuffer) (l : bytes) :
  buf_wf b -> m_pData b = PHeap l -> buf_wf c -> IsNoFree c = false ->
  exists b' c', Detach b = (b', Some (PHeap l, m_dwSize b, m_dwOffset b, m_dwTailOff b), 0) /\
    Attach al rel (PHeap l) (m_dwSize b) (m_dwOffset b) (m_dwTailOff b) c = Ret (c', 0) /\
    buf_wf c' /\ view c' = ztake (m_dwTailOff b) l /\
    (view c' = view b <-> m_dwOffset b = 0) /\
    size b' = size b /\ zlen (block b') = ARRBUF.
Proof.
  intros Hwf Hp Hwc Hnf. pose proof (wf_blk _ Hwf) as Hk. rewrite Hp in Hk.
  destruct (wf_win _ Hwf) as [Hw1 Hw2]. pose proof (zlen_view b Hwf) as Hvb.
  pose proof (size_wf b Hwf) as Hsz. unfold ARRBUF in *.
  unfold Detach, is_arr. rewrite (wf_mem _ Hwf), Hp. cbn [Z.eqb DataTypeMem negb].
  unfold Expose. rewrite Hp.
  unfold Attach, ARRBUF. rewrite (proj2 (Z.ltb_ge _ _)) by lia.
  unfold Resize. cbn [Z.ltb Z.compare]. change (MAX_BYTES_PER_BUFFER <? 0) with false.
  rewrite Hnf, (wf_mem _ Hwc). cbn [Z.eqb DataTypeMem Resize_mem obind throw_on_error ERROR snd fst].
  set (c1 := mkBuf (PHeap l) (m_arrBuf c) (m_dwSize b)
    (put_bits (m_dwType c) DATATYPE_MASK_EX (Z.shiftl typeNone 4)) 0 0).
  change (throw_on_error (SetExDataType typeNone (SetBuffer PNull 0 c), 0))
    with (Ret (SetExDataType typeNone (SetBuffer PNull 0 c), 0)). cbn [obind].
  change (mkBuf (PHeap l) (m_arrBuf (SetExDataType typeNone (SetBuffer PNull 0 c))) (m_dwSize b)
    (m_dwType (SetExDataType typeNone (SetBuffer PNull 0 c)))
    (m_dwOffset (SetExDataType typeNone (SetBuffer PNull 0 c)))
    (m_dwTailOff (SetExDataType typeNone (SetBuffer PNull 0 c)))) with c1.
  assert (GetDataType c1 = DataTypeMem) as Hc1
    by (rewrite <- (wf_mem _ Hwc); apply (DataType_SetEx typeNone c)).
  assert (exists ret, SetOffset (m_dwOffset b) c1 = (c1, ret)) as [ret ->].
  { unfold SetOffset. rewrite Hc1. cbn [Z.eqb DataTypeMem negb m_pData c1 m_dwTailOff].
    destruct (Z.ltb_spec 0 (m_dwOffset b)); [by eexists|].
    replace (m_dwOffset b) with 0 by lia. by eexists. }
  assert (SetTailOff (m_dwTailOff b) c1 = set_tail (m_dwTailOff b) c1) as ->.
  { unfold SetTailOff. rewrite Hc1. cbn [Z.eqb DataTypeMem negb m_dwSize c1 m_dwOffset].
    rewrite (proj2 (Z.ltb_ge (m_dwSize b) _)), (proj2 (Z.ltb_ge (m_dwTailOff b) 0)) by lia. done. }
  set (c' := SetExDataType typeByteArr (SetDataType DataTypeMem (set_tail (m_dwTailOff b) c1))).
  assert (view c' = ztake (m_dwTailOff b) l) as Hv.
  { unfold view, size. simpl. by rewrite Z.sub_0_r, u32_small, zdrop_0 by lia. }
  assert (buf_wf c') as Hwf'.
  { split; [apply (wf_arr _ Hwc)|simpl; lia|simpl; unfold ARRBUF; lia|].
    unfold c'. rewrite DataType_SetEx. unfold GetDataType, SetDataType, set_type. simpl.
    by rewrite put_bits_same. }
  eexists _, c'. split_and!; [done|done|done|done| |done|apply (wf_arr _ Hwf)].
  split.
  - intros Heq. rewrite <- Heq, Hv, zlen_ztake in Hvb by lia. lia.
  - intros Ho. rewrite Hv. unfold view. rewrite Hsz, Ho, Z.sub_0_r, zdrop_0.
    unfold block. by rewrite Hp.
Qed.

(** ** Witnesses and examples *)

Lemma buf_wfb_ok b : buf_wfb b = true -> buf_wf b.
Proof.
  unfold buf_wfb. intros H. zify_bools. split; auto.
  destruct (m_pData b); zify_bools; auto.
Qed.

Lemma al_aa_ok : al_ok al_aa.
Proof.
  intros n Hn. eexists. split; [done|]. unfold zlen. rewrite repeat_length. unfold ARRBUF in *. lia.
Qed.
Lemma Resize_spec_witness :
  buf_wf (filled 1 60) /\
  exists b', Resize al_aa no_rel 20 (filled 1 60) = Ret (b', 0) /\ resized (filled 1 60) b' 20.
Proof.
  assert (buf_wf (filled 1 60)) as Hwf by (apply buf_wfb_ok; vm_compute; reflexivity).
  split; [exact Hwf|].
  refine (proj2 (proj2 (Resize_spec al_aa no_rel (filled 1 60) 20 al_aa_ok Hwf _)) _ _);
    vm_compute; congruence.
Defined.

Lemma Append_spec_witness :
  exists b', Append al_aa no_rel (Some [7; 8; 9]) 2 (filled 1 47) = Ret (b', 0) /\
    view b' = view (filled 1 47) ++ [7; 8].
Proof.
  assert (buf_wf (filled 1 47)) as Hwf by (apply buf_wfb_ok; vm_compute; reflexivity).
  destruct (Append_spec al_aa no_rel (filled 1 47) [7; 8; 9] 2 al_aa_ok Hwf) as (H & _).
  - vm_compute. reflexivity.
  - split; vm_compute; congruence.
  - vm_compute. congruence.
  - destruct H as (b' & Ha & _ & Hv & _); [vm_compute; reflexivity|vm_compute; congruence|].
    exists b'. exact (conj Ha Hv).
Defined.

Lemma Serialize_roundtrip_witness :
  exists t d, Serialize al_aa no_rel (fun _ t => Ret (t, 0)) (filled 1 60) fresh = Ret (t, 0) /\
    Deserialize al_aa no_rel (fun _ d => Ret (d, 0)) (view t ++ [99]) 0 fresh = Ret (d, 0) /\
    view d = view (filled 1 60).
Proof.
  assert (buf_wf (filled 1 60)) as Hwf by (apply buf_wfb_ok; vm_compute; reflexivity).
  assert (buf_wf fresh) as Hwf0 by (apply buf_wfb_ok; vm_compute; reflexivity).
  assert (prime_ok (filled 1 60)) as Hp by (vm_compute; reflexivity).
  assert (0 <= m_dwType (filled 1 60) < 2 ^ 32) as Ht by (vm_compute; split; congruence).
  assert (size (filled 1 60) + SERI_HEADER_SIZE <= MAX_BYTES_PER_BUFFER) as Hs
    by (vm_compute; congruence).
  destruct (Serialize_roundtrip al_aa no_rel (fun _ t => Ret (t, 0)) (fun _ d => Ret (d, 0))
    (filled 1 60) fresh fresh [99] 0 al_aa_ok Hwf Hp Ht Hs Hwf0 eq_refl Hwf0 eq_refl)
    as (t & d & Hser & _ & Hd & Hv & _).
  exists t, d. exact (conj Hser (conj Hd Hv)).
Defined.

Lemma full_wf blk : zlen blk = MAX_BYTES_PER_BUFFER -> buf_wf (full blk).
Proof.
  intros H. split; [done| | |done].
  - cbn [full m_dwOffset m_dwTailOff m_dwSize]. unfold MAX_BYTES_PER_BUFFER. lia.
  - cbn [full m_pData m_dwSize]. rewrite H. unfold ARRBUF, MAX_BYTES_PER_BUFFER. lia.
Qed.

Lemma full_block_len : zlen full_block = MAX_BYTES_PER_BUFFER.
Proof. unfold zlen, full_block. rewrite repeat_length. unfold MAX_BYTES_PER_BUFFER. lia. Qed.

Lemma full_size blk : MAX_BYTES_PER_BUFFER - SERI_HEADER_SIZE < size (full blk) <= MAX_BYTES_PER_BUFFER.
Proof. vm_compute. split; congruence. Qed.

Lemma full_type blk : GetExDataType (full blk) = typeByteArr.
Proof. reflexivity. Qed.

Lemma fresh_wf : buf_wf fresh.
Proof. apply buf_wfb_ok. vm_compute. reflexivity. Qed.

Lemma Serialize_overflow_witness :
  buf_wf (full full_block) /\
  Serialize al_aa no_rel (fun _ t => Ret (t, 0)) (full full_block) fresh = Undef.
Proof.
  split; [exact (full_wf _ full_block_len)|].
  exact (Serialize_overflow al_aa no_rel (fun _ t => Ret (t, 0)) (full full_block) fresh
    (full_wf _ full_block_len) (full_type _) (full_size _) fresh_wf eq_refl eq_refl).
Defined.

Lemma Detach_Attach_witness :
  exists b' c', Detach consumed = (b', Some (m_pData consumed, 60, 10, 60), 0) /\
    Attach al_aa no_rel (m_pData consumed) 60 10 60 fresh = Ret (c', 0) /\
    view c' <> view consumed.
Proof.
  assert (buf_wf consumed) as Hwf by (apply buf_wfb_ok; vm_compute; reflexivity).
  destruct (m_pData consumed) as [| |l] eqn:Hp; [vm_compute in Hp; discriminate Hp..|].
  destruct (Detach_Attach al_aa no_rel consumed fresh l Hwf Hp) as (b' & c' & Hd & Ha & _ & _ & Hv & _).
  - apply buf_wfb_ok. vm_compute. reflexivity.
  - reflexivity.
  - exists b', c'. split; [exact Hd|]. split; [exact Ha|].
    intros H. apply Hv in H. vm_compute in H. discriminate H.
Defined.

(** The number 0x01020304 goes over the wire most significant byte first. *)
Example Serialize_u32 :
  let b := SetExDataType typeUInt32 (filled 1 4) in
  match Serialize al_aa no_rel (fun _ t => Ret (t, 0)) b fresh with
  | Ret (t, _) => zdrop SERI_HEADER_SIZE (view t) = [4; 3; 2; 1]
  | _ => False
  end.
Proof. vm_compute. reflexivity. Qed.
