(* ===== verification/SeriBase.v ===== *)
(** * The typed serializer: [combase/seribase.cpp], [include/seribase.h]

    [CSerialBase] turns numbers, strings, byte arrays, vectors and maps into
    bytes at the end of a [CBuffer] and back.  While a buffer is written, its
    offset stands behind what was written; while it is read, the offset stands
    at the next byte.  The C++ templates that pick a function by the type of
    the element are the type class [Seri] here, with one instance per type.
    [ObjPtr], [Variant], generated structures and stream handles, whose
    serializers are other components, have no instance. *)

From Stdlib Require Import ZArith Lia Ascii.
From stdpp Require Import sorting.
From S2P Require Import Prelude Buffer.
Local Open Scope rpcf_scope.

Definition MAX_ELEM_COUNT : Z := 1000000.
Definition EBADMSG : Z := 74.

(** ** The element types *)

(** An integer of [w] bytes: [guint8], [char], [guint16], [gint16], ... *)
Inductive cint (w : nat) (sg : bool) := CInt (z : Z).
Arguments CInt {w sg} z.
(** [float] and [double] by their bits. *)
Inductive cfloat (w : nat) := CFloat (bits : Z).
Arguments CFloat {w} bits.
Inductive gint8 := GInt8 (z : Z).
Inductive cstring := CStr (s : bytes).
(** A [BufPtr] value: null, or the window of the buffer. *)
Inductive bytearr := CBytes (o : option bytes).
(** A [std::map]: its pairs, in the order of the keys. *)
Inductive stdmap (K V : Type) := SMap (l : list (K * V)).
Arguments SMap {K V} l.

Definition cint_val {w sg} (c : cint w sg) : Z := match c with CInt z => z end.
Definition cfloat_bits {w} (c : cfloat w) : Z := match c with CFloat z => z end.
Definition str_val (c : cstring) : bytes := match c with CStr s => s end.
Definition buf_val (c : bytearr) : option bytes := match c with CBytes o => o end.
Definition pairs {K V} (m : stdmap K V) : list (K * V) := match m with SMap l => l end.

(** The conversion to the C type. *)
Definition conv (w : nat) (sg : bool) (z : Z) : Z :=
  let n := 8 * Z.of_nat w in if sg then sN n z else uN n z.

Abbreviation signature := (list ascii).
Abbreviation BufPtr := (option CBuffer).

(** What [SerialElem] and [DeserialElem] do for a type: the signature, the
    buffer (null or not), and the value or the variable to be filled. *)
Class Seri (T : Type) := {
  SerialElem : signature -> T -> BufPtr -> outcome (BufPtr * Z);
  DeserialElem : signature -> BufPtr -> T -> outcome (BufPtr * Z * T);
  value_init : T;
}.

(** The order of the keys of a [std::map]. *)
Class KeyLess (K : Type) := key_less : K -> K -> bool.
#[export] Instance cint_less {w sg} : KeyLess (cint w sg) :=
  fun a b => cint_val a <? cint_val b.
Fixpoint bytes_less (a b : bytes) : bool :=
  match a, b with
  | _, [] => false
  | [], _ => true
  | x :: a, y :: b => (x <? y) || (x =? y) && bytes_less a b
  end.
#[export] Instance cstring_less : KeyLess cstring :=
  fun a b => match a, b with CStr a, CStr b => bytes_less a b end.

(** [insert]: an existing key keeps its value. *)
Fixpoint map_insert {K V} `{KeyLess K} (k : K) (v : V) (m : list (K * V)) : list (K * V) :=
  match m with
  | [] => [(k, v)]
  | (k', v') :: m' =>
      if key_less k k' then (k, v) :: m
      else if key_less k' k then (k', v') :: map_insert k v m'
      else m
  end.

Section Seri.
Context (al : Z -> option bytes) (rel : bytes -> bytes).

(** [APPEND( pBuf, ptr, size )]: the status of [Append] is dropped. *)
Definition APPEND (ptr : bytes) (n : Z) (b : CBuffer) : outcome CBuffer :=
  let dwOffset := m_dwOffset b in
  let '(b, _) := SetOffset 0 b in
  let! (b, _) := Append al rel (Some ptr) n b in
  let '(b, _) := SetOffset (u32 (dwOffset + n)) b in
  Ret b.

(** ** Scalars *)

(** [Serialize< gint16 >] to [Serialize< char >]: the bytes in network
    order. *)
Definition Serialize_num (w : nat) (z : Z) (pBuf : BufPtr) : outcome (BufPtr * Z) :=
  match pBuf with
  | None => Ret (None, - EINVAL)
  | Some b =>
      let! b := APPEND (be_bytes w (uN (8 * Z.of_nat w) z)) (Z.of_nat w) b in
      Ret (Some b, STATUS_SUCCESS)
  end.

Definition Deserialize_num (w : nat) (sg : bool) (pBuf : BufPtr) (val : Z)
    : outcome (BufPtr * Z * Z) :=
  match pBuf with
  | None => Ret (None, - EINVAL, val)
  | Some b =>
      if empty b then Ret (pBuf, - EINVAL, val)
      else if size b <? Z.of_nat w then Ret (pBuf, - ERANGE, val)
      else
        let! x := read (block b) (m_dwOffset b) (Z.of_nat w) in
        let '(b, _) := IncOffset (Z.of_nat w) b in
        Ret (Some b, STATUS_SUCCESS, conv w sg (be_val x))
  end.

(** A [bool] is copied as it is; a byte other than 0 and 1 is not a [bool]. *)
Definition Deserialize_bool (pBuf : BufPtr) (val : bool) : outcome (BufPtr * Z * bool) :=
  let! (b, ret, x) := Deserialize_num 1 false pBuf (if val then 1 else 0) in
  if x =? 0 then Ret (b, ret, false) else if x =? 1 then Ret (b, ret, true) else Undef.

(** ** Strings and byte arrays *)

Definition Serialize_string (val : bytes) (pBuf : BufPtr) : outcome (BufPtr * Z) :=
  match pBuf with
  | None => Ret (None, - EINVAL)
  | Some _ =>
      let i := u32 (zlen val) in
      if MAX_BYTES_PER_BUFFER <=? i then Ret (pBuf, - ERANGE)
      else
        let! (pBuf, _) := Serialize_num 4 i pBuf in
        match pBuf with
        | Some b =>
            if 0 <? i then let! b := APPEND val i b in Ret (Some b, STATUS_SUCCESS)
            else Ret (Some b, STATUS_SUCCESS)
        | None => Undef
        end
  end.

Definition Deserialize_string (pBuf : BufPtr) (val : bytes) : outcome (BufPtr * Z * bytes) :=
  match pBuf with
  | None => Ret (None, - EINVAL, val)
  | Some b =>
      if empty b then Ret (pBuf, - EINVAL, val)
      else
        let! (pBuf, ret, dwCount) := Deserialize_num 4 false pBuf 0 in
        if ERROR ret then Ret (pBuf, ret, val)
        else if dwCount =? 0 then Ret (pBuf, ret, [])
        else match pBuf with
        | None => Undef
        | Some b =>
            let dwBytes := Z.min dwCount (size b) in
            let! s := read (block b) (m_dwOffset b) dwBytes in
            let '(b, _) := IncOffset dwBytes b in
            Ret (Some b, STATUS_SUCCESS, s)
        end
  end.

Definition Serialize_bytes (val : option bytes) (pBuf : BufPtr) : outcome (BufPtr * Z) :=
  match pBuf with
  | None => Ret (None, - EINVAL)
  | Some _ =>
      let i := match val with None => 0 | Some l => u32 (zlen l) end in
      if MAX_BYTES_PER_BUFFER <=? i then Ret (pBuf, - ERANGE)
      else
        let! (pBuf, _) := Serialize_num 4 i pBuf in
        if i =? 0 then Ret (pBuf, STATUS_SUCCESS)
        else match pBuf, val with
        | Some b, Some l => let! b := APPEND l i b in Ret (Some b, STATUS_SUCCESS)
        | _, _ => Undef
        end
  end.

(** [val->Append( pBuf->ptr(), i )] on the window [v] of the value. *)
Definition AppendView (v : bytes) (b : CBuffer) (i : Z) : outcome (bytes * Z) :=
  if (BUF_MAX_SIZE <? i) || (i =? 0) then Ret (v, - EINVAL)
  else if MAX_BYTES_PER_BUFFER <? zlen v + i then Ret (v, - E2BIG)
  else let! x := read (block b) (m_dwOffset b) i in Ret (v ++ x, 0).

Definition Deserialize_bytes (pBuf : BufPtr) (val : option bytes)
    : outcome (BufPtr * Z * option bytes) :=
  match pBuf with
  | None => Ret (None, - EINVAL, val)
  | Some _ =>
      let v := match val with None => [] | Some v => v end in
      let! (pBuf, ret, i) := Deserialize_num 4 false pBuf 0 in
      if ERROR ret then Ret (pBuf, ret, Some v)
      else if i =? 0 then Ret (pBuf, STATUS_SUCCESS, None)
      else match pBuf with
      | None => Undef
      | Some b =>
          let! (v, ret) := AppendView v b i in
          if ERROR ret then Ret (Some b, ret, Some v)
          else let '(b, _) := IncOffset i b in Ret (Some b, STATUS_SUCCESS, Some v)
      end
  end.

(** ** Instances of the scalar and string types *)

#[local] Instance seri_cint {w sg} : Seri (cint w sg) := {|
  SerialElem := fun _ v b => match v with CInt z => Serialize_num w z b end;
  DeserialElem := fun _ b v =>
    match v with CInt z => let! (b, ret, x) := Deserialize_num w sg b z in Ret (b, ret, CInt x) end;
  value_init := CInt 0;
|}.
#[local] Instance seri_cfloat {w} : Seri (cfloat w) := {|
  SerialElem := fun _ v b => match v with CFloat z => Serialize_num w z b end;
  DeserialElem := fun _ b v =>
    match v with CFloat z => let! (b, ret, x) := Deserialize_num w false b z in Ret (b, ret, CFloat x) end;
  value_init := CFloat 0;
|}.
#[local] Instance seri_bool : Seri bool := {|
  SerialElem := fun _ (v : bool) b => Serialize_num 1 (if v then 1 else 0) b;
  DeserialElem := fun _ b v => Deserialize_bool b v;
  value_init := false;
|}.
(** [gint8] is accepted as an element, but only [char] has a specialization. *)
#[local] Instance seri_gint8 : Seri gint8 := {|
  SerialElem := fun _ v b => Ret (b, - ENOTSUP);
  DeserialElem := fun _ b v => Ret (b, - ENOTSUP, v);
  value_init := GInt8 0;
|}.
#[local] Instance seri_cstring : Seri cstring := {|
  SerialElem := fun _ v b => match v with CStr s => Serialize_string s b end;
  DeserialElem := fun _ b v =>
    match v with CStr s => let! (b, ret, x) := Deserialize_string b s in Ret (b, ret, CStr x) end;
  value_init := CStr [];
|}.
#[local] Instance seri_bytearr : Seri bytearr := {|
  SerialElem := fun _ v b => match v with CBytes s => Serialize_bytes s b end;
  DeserialElem := fun _ b v =>
    match v with CBytes s => let! (b, ret, x) := Deserialize_bytes b s in Ret (b, ret, CBytes x) end;
  value_init := CBytes None;
|}.

(** ** Vectors *)

(** [( open ) elem ( close )]: the signature of the element, when the brackets
    are there.  A null signature is treated like an empty one by the code. *)
Definition strip (open close : ascii) (sig : signature) : option signature :=
  match sig with
  | [] => None
  | c :: strElemSig =>
      if Ascii.eqb c open then
        match last strElemSig with
        | Some d => if Ascii.eqb d close then Some (pop_back strElemSig) else None
        | None => None
        end
      else None
  end.

Definition buf_offset (pBuf : BufPtr) : Z :=
  match pBuf with Some b => m_dwOffset b | None => 0 end.

(** The patch of the byte count: [pBuf->ptr() - pBuf->offset() + dwBytesOff]. *)
Definition patch_u32 (dwBytesOff dwBytes : Z) (b : CBuffer) : outcome CBuffer :=
  let! blk := write (block b) dwBytesOff (be_bytes 4 dwBytes) in Ret (set_block blk b).

Section Array.
Context {T : Type} `{Seri T}.

(** The loop over the elements, up to the first error. *)
Fixpoint SerialElems (sig : signature) (vals : list T) (pBuf : BufPtr) : outcome (BufPtr * Z) :=
  match vals with
  | [] => Ret (pBuf, 0)
  | v :: vals =>
      let! (pBuf, ret) := SerialElem sig v pBuf in
      if ERROR ret then Ret (pBuf, ret) else SerialElems sig vals pBuf
  end.

(** The [ret] of the element loop is declared inside the block, and the
    function returns the outer one. *)
Definition SerializeArray (sig : signature) (val : list T) (pBuf : BufPtr) : outcome (BufPtr * Z) :=
  match pBuf with
  | None => Ret (None, - EINVAL)
  | Some _ =>
      match strip "(" ")" sig with
      | None => Ret (pBuf, - EINVAL)
      | Some strElemSig =>
          let dwBytesOff := buf_offset pBuf in
          let! (pBuf, _) := Serialize_num 4 0 pBuf in
          let ret_outer := STATUS_SUCCESS in
          let cnt := Z.of_nat (length val) in
          if cnt =? 0 then
            let! (pBuf, _) := Serialize_num 4 0 pBuf in Ret (pBuf, ret_outer)
          else if MAX_ELEM_COUNT <=? cnt then Ret (pBuf, - ERANGE)
          else
            let! (pBuf, _) := Serialize_num 4 cnt pBuf in
            let dwHdrSize := u32 (buf_offset pBuf - dwBytesOff) in
            let! (pBuf, ret) := SerialElems strElemSig val pBuf in
            if ERROR ret then Ret (pBuf, ret_outer)
            else match pBuf with
            | None => Undef
            | Some b =>
                let dwBytes := u32 (m_dwOffset b - dwBytesOff - dwHdrSize) in
                let! b := patch_u32 dwBytesOff dwBytes b in
                Ret (Some b, ret_outer)
            end
      end
  end.

(** The loop over the resized vector: the elements after an error keep what
    they were. *)
Fixpoint DeserialElems (sig : signature) (pBuf : BufPtr) (vals : list T)
    : outcome (BufPtr * Z * list T) :=
  match vals with
  | [] => Ret (pBuf, 0, [])
  | v :: vals =>
      let! (pBuf, ret, v) := DeserialElem sig pBuf v in
      if ERROR ret then Ret (pBuf, ret, v :: vals)
      else
        let! (pBuf, ret, vals) := DeserialElems sig pBuf vals in
        Ret (pBuf, ret, v :: vals)
  end.

(** [std::vector::resize] *)
Definition vec_resize (n : nat) (l : list T) : list T :=
  take n l ++ repeat value_init (n - length l).

Definition DeserialArray (sig : signature) (pBuf : BufPtr) (val : list T)
    : outcome (BufPtr * Z * list T) :=
  match pBuf with
  | None => Ret (None, - EINVAL, val)
  | Some b =>
      if empty b then Ret (pBuf, - EINVAL, val)
      else if size b <? 8 then Ret (pBuf, - EINVAL, val)
      else match strip "(" ")" sig with
      | None => Ret (pBuf, - EINVAL, val)
      | Some strElemSig =>
          let pdwBytes := m_dwOffset b in
          let! (pBuf, ret, dwBytes) := Deserialize_num 4 false pBuf 0 in
          if ERROR ret then Ret (pBuf, ret, val)
          else if MAX_BYTES_PER_BUFFER <? dwBytes then Ret (pBuf, - ERANGE, val)
          else
            let! (pBuf, ret_outer, dwCount) := Deserialize_num 4 false pBuf 0 in
            if ERROR ret_outer then Ret (pBuf, ret_outer, val)
            else if (dwBytes =? 0) || (dwCount =? 0) then Ret (pBuf, ret_outer, val)
            else if MAX_ELEM_COUNT <=? dwCount then Ret (pBuf, ret_outer, val)
            else
              let dwHdrSize := u32 (buf_offset pBuf - pdwBytes) in
              let! (pBuf, ret, val) :=
                DeserialElems strElemSig pBuf (vec_resize (Z.to_nat dwCount) val) in
              let dwActBytes := u32 (buf_offset pBuf - pdwBytes - dwHdrSize) in
              let ret := if ERROR ret then ret
                         else if negb (dwActBytes =? dwBytes) then - EBADMSG else ret in
              Ret (pBuf, ret_outer, val)
      end
  end.

#[local] Instance seri_list : Seri (list T) := {|
  SerialElem := SerializeArray;
  DeserialElem := DeserialArray;
  value_init := [];
|}.
End Array.

(** ** Maps *)

Section Map.
Context {K V : Type} `{KeyLess K} `{Seri K} `{Seri V}.

(** The signature of the key is one character, the rest is the value's. *)
Definition key_value_sig (sig : signature) : outcome (signature * signature) :=
  match sig with [] => Undef | c :: sig => Ret ([c], sig) end.

Fixpoint SerialPairs (ksig vsig : signature) (l : list (K * V)) (pBuf : BufPtr)
    : outcome (BufPtr * Z) :=
  match l with
  | [] => Ret (pBuf, 0)
  | (k, v) :: l =>
      let! (pBuf, ret) := SerialElem ksig k pBuf in
      if ERROR ret then Ret (pBuf, ret)
      else
        let! (pBuf, ret) := SerialElem vsig v pBuf in
        if ERROR ret then Ret (pBuf, ret) else SerialPairs ksig vsig l pBuf
  end.

Definition SerializeMap (sig : signature) (mapVals : stdmap K V) (pBuf : BufPtr)
    : outcome (BufPtr * Z) :=
  match pBuf with
  | None => Ret (None, - EINVAL)
  | Some _ =>
      match strip "[" "]" sig with
      | None => Ret (pBuf, - EINVAL)
      | Some strElemSig =>
          let! (strKeySig, strElemSig) := key_value_sig strElemSig in
          let dwBytesOff := buf_offset pBuf in
          let! (pBuf, _) := Serialize_num 4 0 pBuf in
          let ret_outer := STATUS_SUCCESS in
          let cnt := Z.of_nat (length (pairs mapVals)) in
          if cnt =? 0 then
            let! (pBuf, _) := Serialize_num 4 0 pBuf in Ret (pBuf, ret_outer)
          else if MAX_ELEM_COUNT <=? cnt then Ret (pBuf, - ERANGE)
          else
            let! (pBuf, _) := Serialize_num 4 cnt pBuf in
            let dwHdrSize := u32 (buf_offset pBuf - dwBytesOff) in
            let! (pBuf, ret) := SerialPairs strKeySig strElemSig (pairs mapVals) pBuf in
            if ERROR ret then Ret (pBuf, ret_outer)
            else match pBuf with
            | None => Undef
            | Some b =>
                let dwBytes := u32 (m_dwOffset b - dwBytesOff - dwHdrSize) in
                let! b := patch_u32 dwBytesOff dwBytes b in
                Ret (Some b, ret_outer)
            end
      end
  end.

(** [dwCount] fresh pairs are read and inserted; here the status is the
    function's. *)
Fixpoint DeserialPairs (n : nat) (ksig vsig : signature) (pBuf : BufPtr) (m : list (K * V))
    : outcome (BufPtr * Z * list (K * V)) :=
  match n with
  | O => Ret (pBuf, 0, m)
  | S n =>
      let! (pBuf, ret, k) := DeserialElem ksig pBuf value_init in
      if ERROR ret then Ret (pBuf, ret, m)
      else
        let! (pBuf, ret, v) := DeserialElem vsig pBuf value_init in
        if ERROR ret then Ret (pBuf, ret, m)
        else DeserialPairs n ksig vsig pBuf (map_insert k v m)
  end.

Definition DeserialMap (sig : signature) (pBuf : BufPtr) (mapVals : stdmap K V)
    : outcome (BufPtr * Z * stdmap K V) :=
  match pBuf with
  | None => Ret (None, - EINVAL, mapVals)
  | Some b =>
      if empty b then Ret (pBuf, - EINVAL, mapVals)
      else if size b <? 8 then Ret (pBuf, - EINVAL, mapVals)
      else match strip "[" "]" sig with
      | None => Ret (pBuf, - EINVAL, mapVals)
      | Some strElemSig =>
          let! (strKeySig, strElemSig) := key_value_sig strElemSig in
          let pdwBytes := m_dwOffset b in
          let! (pBuf, ret, dwBytes) := Deserialize_num 4 false pBuf 0 in
          if ERROR ret then Ret (pBuf, ret, mapVals)
          else if MAX_BYTES_PER_BUFFER <? dwBytes then Ret (pBuf, - ERANGE, mapVals)
          else
            let! (pBuf, ret, dwCount) := Deserialize_num 4 false pBuf 0 in
            if ERROR ret then Ret (pBuf, ret, mapVals)
            else if dwCount =? 0 then Ret (pBuf, ret, mapVals)
            else if MAX_ELEM_COUNT <=? dwCount then Ret (pBuf, - ERANGE, mapVals)
            else
              let dwHdrSize := u32 (buf_offset pBuf - pdwBytes) in
              let! (pBuf, ret, m) :=
                DeserialPairs (Z.to_nat dwCount) strKeySig strElemSig pBuf (pairs mapVals) in
              if ERROR ret then Ret (pBuf, ret, SMap m)
              else
                let dwActBytes := u32 (buf_offset pBuf - pdwBytes - dwHdrSize) in
                if negb (dwActBytes =? dwBytes) then Ret (pBuf, - EBADMSG, SMap m)
                else Ret (pBuf, ret, SMap m)
      end
  end.

#[local] Instance seri_map : Seri (stdmap K V) := {|
  SerialElem := SerializeMap;
  DeserialElem := DeserialMap;
  value_init := SMap [];
|}.
End Map.

(** ** The types of the interface language, and their serializers *)

(** Keys are numbers and strings; vectors and maps nest. *)
Inductive keyty := KInt (w : nat) (sg : bool) | KStr.
Inductive ty :=
  | TKey (k : keyty)
  | TFloat (w : nat)
  | TBool
  | TBytes
  | TArr (t : ty)
  | TMap (k : keyty) (t : ty).

Definition kden (k : keyty) : Type :=
  match k with KInt w sg => cint w sg | KStr => cstring end.
Fixpoint den (t : ty) : Type :=
  match t with
  | TKey k => kden k
  | TFloat w => cfloat w
  | TBool => bool
  | TBytes => bytearr
  | TArr t => list (den t)
  | TMap k t => stdmap (kden k) (den t)
  end.

#[local] Instance kden_less (k : keyty) : KeyLess (kden k) :=
  match k with KInt w sg => cint_less | KStr => cstring_less end.
#[local] Instance kden_seri (k : keyty) : Seri (kden k) :=
  match k with KInt w sg => seri_cint | KStr => seri_cstring end.
#[local] Instance den_seri : forall t : ty, Seri (den t) :=
  fix go t := match t return Seri (den t) with
  | TKey k => kden_seri k
  | TFloat w => seri_cfloat
  | TBool => seri_bool
  | TBytes => seri_bytearr
  | TArr t => @seri_list (den t) (go t)
  | TMap k t => @seri_map (kden k) (den t) (kden_less k) (kden_seri k) (go t)
  end.
End Seri.

(** ** Reference notions *)

(** A buffer that is being written: its window is empty, and what was written
    lies before it. *)
Record ser_buf (b : CBuffer) : Prop := {
  sb_wf : buf_wf b;
  sb_nofree : IsNoFree b = false;
  sb_end : m_dwOffset b = m_dwTailOff b;
}.
Definition content (b : CBuffer) : bytes := ztake (m_dwTailOff b) (block b).

(** [b'] is [b] with [n] more bytes read. *)
Record eaten (b b' : CBuffer) (n : Z) : Prop := {
  ea_wf : buf_wf b';
  ea_block : block b' = block b;
  ea_off : m_dwOffset b' = m_dwOffset b + n;
  ea_view : view b' = zdrop n (view b);
}.

(** The wire format of a type: its signatures, its well-formed values and
    their encodings. *)
Class Format (T : Type) := {
  sig_ok : signature -> Prop;
  valid : T -> Prop;
  enc : T -> bytes;
}.

(** The promise of an element type to the containers: [SerialElem] appends the
    encoding of a well-formed value, and [DeserialElem] reads it back. *)
Class Codec (al : Z -> option bytes) (rel : bytes -> bytes) (T : Type)
    `{Seri T} `{Format T} : Prop := {
  enc_pos v : valid v -> 0 < zlen (enc v);
  ser_ok sig v b : sig_ok sig -> valid v -> ser_buf b ->
    zlen (content b) + zlen (enc v) <= MAX_BYTES_PER_BUFFER ->
    exists b', SerialElem sig v (Some b) = Ret (Some b', 0) /\ ser_buf b' /\
      content b' = content b ++ enc v;
  des_ok sig v b rest : sig_ok sig -> valid v -> buf_wf b -> view b = enc v ++ rest ->
    exists b', DeserialElem sig (Some b) value_init = Ret (Some b', 0, v) /\
      eaten b b' (zlen (enc v));
}.

(** The order of the keys is asymmetric. *)
Class KeyAsym (K : Type) `{KeyLess K} :=
  key_asym (a b : K) : key_less a b = true -> key_less b a = false.

(** The four-byte header words. *)
Definition word (z : Z) : bytes := be_bytes 4 z.
#[global] Arguments word : simpl never.

(** The layout of a container: the bytes of the elements, their number, the
    elements; an empty one is two zero words. *)
Definition enc_seq (cnt : Z) (body : bytes) : bytes :=
  if cnt =? 0 then word 0 ++ word 0 else word (zlen body) ++ word cnt ++ body.

(** What a container of [cnt] elements and [body] bytes may be. *)
Definition seq_fits (cnt : Z) (body : bytes) : Prop :=
  cnt < MAX_ELEM_COUNT /\ zlen body <= MAX_BYTES_PER_BUFFER.

#[local] Instance format_cint {w sg} : Format (cint w sg) := {|
  sig_ok := fun sig => length sig = 1%nat;
  valid := fun v => (0 < w)%nat /\ (let n := 8 * Z.of_nat w in
    if sg then - 2 ^ (n - 1) <= cint_val v < 2 ^ (n - 1) else 0 <= cint_val v < 2 ^ n);
  enc := fun v => be_bytes w (uN (8 * Z.of_nat w) (cint_val v));
|}.
#[local] Instance format_cfloat {w} : Format (cfloat w) := {|
  sig_ok := fun sig => length sig = 1%nat;
  valid := fun v => (0 < w)%nat /\ 0 <= cfloat_bits v < 2 ^ (8 * Z.of_nat w);
  enc := fun v => be_bytes w (uN (8 * Z.of_nat w) (cfloat_bits v));
|}.
#[local] Instance format_bool : Format bool := {|
  sig_ok := fun sig => length sig = 1%nat;
  valid := fun _ => True;
  enc := fun v : bool => [if v then 1 else 0];
|}.
#[local] Instance format_cstring : Format cstring := {|
  sig_ok := fun sig => length sig = 1%nat;
  valid := fun v => zlen (str_val v) < MAX_BYTES_PER_BUFFER;
  enc := fun v => word (zlen (str_val v)) ++ str_val v;
|}.
#[local] Instance format_bytearr : Format bytearr := {|
  sig_ok := fun sig => length sig = 1%nat;
  valid := fun v => forall l, buf_val v = Some l -> 0 < zlen l < MAX_BYTES_PER_BUFFER;
  enc := fun v => let l := default [] (buf_val v) in word (zlen l) ++ l;
|}.

Section ArrayFormat.
Context {T : Type} `{Format T}.
Definition body_of (l : list T) : bytes := concat (map enc l).
#[local] Instance format_list : Format (list T) := {|
  sig_ok := fun sig => exists s, sig_ok s /\ sig = ("(" :: s ++ [")"])%char;
  valid := fun v => Forall valid v /\ seq_fits (Z.of_nat (length v)) (body_of v);
  enc := fun v => enc_seq (Z.of_nat (length v)) (body_of v);
|}.
End ArrayFormat.
#[local] Existing Instance format_list.

(** A map is encoded in the order of its keys. *)
Section MapFormat.
Context {K V : Type} `{KeyLess K} `{FK : Format K} `{FV : Format V}.
Definition enc_pair (p : K * V) : bytes := enc p.1 ++ enc p.2.
Definition pairs_of (l : list (K * V)) : bytes := concat (map enc_pair l).
Definition pair_valid (p : K * V) : Prop := valid p.1 /\ valid p.2.
Definition before (p q : K * V) : Prop := key_less p.1 q.1 = true.
#[local] Instance format_map : Format (stdmap K V) := {|
  sig_ok := fun sig => exists c s, sig_ok (T := K) [c] /\ sig_ok (T := V) s /\
              sig = ("[" :: (c :: s) ++ ["]"])%char;
  valid := fun v => Forall pair_valid (pairs v) /\ StronglySorted before (pairs v) /\
             seq_fits (Z.of_nat (length (pairs v))) (pairs_of (pairs v));
  enc := fun v => enc_seq (Z.of_nat (length (pairs v))) (pairs_of (pairs v));
|}.
End MapFormat.
#[local] Existing Instance format_map.

#[local] Existing Instance kden_less.
#[local] Instance kden_format (k : keyty) : Format (kden k) :=
  match k return Format (kden k) with KInt w sg => format_cint | KStr => format_cstring end.
#[local] Instance den_format : forall t : ty, Format (den t) :=
  fix go t := match t return Format (den t) with
  | TKey k => kden_format k
  | TFloat w => format_cfloat
  | TBool => format_bool
  | TBytes => format_bytearr
  | TArr t => @format_list (den t) (go t)
  | TMap k t => @format_map (kden k) (den t) (kden_less k) (kden_format k) (go t)
  end.

(** *** Concrete values, for the witnesses *)

(** A buffer that holds the bytes [l], to be read. *)
Definition loaded (l : bytes) : CBuffer :=
  match Append al_aa no_rel (Some l) (zlen l) fresh with Ret (b, _) => b | _ => fresh end.

Definition ascii_sig (s : string) : signature := String.list_ascii_of_string s.

(** [map< string, vector< gint16 > >] *)
Definition t_ex : ty := TMap KStr (TArr (TKey (KInt 2 true))).
Definition v_ex : den t_ex :=
  SMap [(CStr [97], [CInt 1; CInt (-2)]); (CStr [97; 98], [])].

(** One pair in the buffer, two in the header: the rest is missed. *)
Definition map_bytes : bytes := [0; 0; 0; 2; 0; 0; 0; 1; 5; 6].
Definition u8_seri : Seri (cint 1 false) := seri_cint al_aa no_rel.
Definition map_read : outcome (BufPtr * Z * stdmap (cint 1 false) (cint 1 false)) :=
  DeserialMap (H0 := u8_seri) (H1 := u8_seri) (ascii_sig "[yy]") (Some (loaded map_bytes)) (SMap []).

(** Two words written, then a string of one byte less than the limit. *)
Definition two_words : CBuffer :=
  match Serialize_num al_aa no_rel 8 0 (Some fresh) with Ret (Some b, _) => b | _ => fresh end.
Definition long_string : bytes := repeat 65 (Z.to_nat (MAX_BYTES_PER_BUFFER - 1)).

(** ** Lemmas: writing *)

Lemma set_off_id b : set_off (m_dwOffset b) b = b.
Proof. by destruct b. Qed.

(** The buffer seen from its beginning. *)
Lemma rewind b :
  buf_wf b -> exists b0 ret, SetOffset 0 b = (b0, ret) /\ buf_wf b0 /\
    IsNoFree b0 = IsNoFree b /\ view b0 = content b /\ block b0 = block b /\
    size b0 = m_dwTailOff b /\ m_dwOffset b0 = 0 /\ (m_pData b <> PNull -> b0 = set_off 0 b /\ ret = 0).
Proof.
  intros Hwf. destruct (wf_win b Hwf) as [Hw1 Hw2].
  assert (buf_wf (set_off 0 b)) as Hwf0 by (destruct Hwf; split; try done; simpl; lia).
  assert (size (set_off 0 b) = m_dwTailOff b) as Hs by (rewrite size_wf by done; simpl; lia).
  assert (view (set_off 0 b) = content b) as Hv by (unfold view; by rewrite Hs).
  unfold SetOffset. rewrite (wf_mem b Hwf). cbn [Z.eqb DataTypeMem negb].
  destruct (m_pData b) eqn:Hp.
  - pose proof (wf_blk b Hwf) as Hk. rewrite Hp in Hk.
    assert (set_off 0 b = b) as He by (rewrite <- (set_off_id b) at 2; f_equal; lia).
    rewrite He in *. exists b, ERROR_STATE. split_and!; try done; lia.
  - rewrite (proj2 (Z.ltb_ge _ _)) by lia. by exists (set_off 0 b), 0.
  - rewrite (proj2 (Z.ltb_ge _ _)) by lia. by exists (set_off 0 b), 0.
Qed.

Lemma SetOffset_ok b n :
  buf_wf b -> m_pData b <> PNull -> 0 <= n <= m_dwTailOff b ->
  SetOffset n b = (set_off n b, 0) /\ buf_wf (set_off n b).
Proof.
  intros Hwf Hp Hn. destruct (wf_win b Hwf) as [Hw1 Hw2]. unfold SetOffset.
  rewrite (wf_mem b Hwf). cbn [Z.eqb DataTypeMem negb].
  split; [destruct (m_pData b); [done|by rewrite (proj2 (Z.ltb_ge _ _)) by lia..]|].
  destruct Hwf; split; try done; simpl; lia.
Qed.

Lemma content_len b : buf_wf b -> zlen (content b) = m_dwTailOff b.
Proof.
  intros Hwf. pose proof (zlen_block b Hwf). destruct (wf_win b Hwf). unfold content.
  rewrite zlen_ztake by lia. lia.
Qed.

Section Codecs.
Context (al : Z -> option bytes) (rel : bytes -> bytes) (Hal : al_ok al).

Lemma APPEND_ok b bs n :
  ser_buf b -> 0 < n -> n = zlen bs -> zlen (content b) + n <= MAX_BYTES_PER_BUFFER ->
  exists b', APPEND al rel bs n b = Ret b' /\ ser_buf b' /\ content b' = content b ++ bs.
Proof.
  intros [Hwf Hnf Hend] Hn Hbs Hmax. unfold APPEND.
  destruct (rewind b Hwf) as (b0 & ret & -> & Hwf0 & Hnf0 & Hv0 & _ & Hs0 & _).
  rewrite content_len in Hmax by done.
  destruct (Append_ok al rel Hal b0 bs n Hwf0) as (b1 & -> & Hwf1 & Hnf1 & Hv1 & Ho1);
    [congruence|lia|lia|lia|]. cbn [obind].
  rewrite Hv0, ztake_all in Hv1 by lia. destruct (wf_win b Hwf) as [Hw1 Hw2].
  assert (m_dwTailOff b1 = m_dwOffset b + n) as Ht.
  { pose proof (zlen_view b1 Hwf1) as Hl. rewrite Hv1, zlen_app, content_len in Hl by done.
    rewrite size_wf in Hl by done. lia. }
  rewrite u32_small by (unfold MAX_BYTES_PER_BUFFER in *; lia).
  destruct (SetOffset_ok b1 (m_dwOffset b + n) Hwf1) as [-> Hwf2]; [|lia|].
  { apply not_null; [done|]. rewrite size_wf by done. lia. }
  eexists. split; [done|]. split.
  - split; [done| |simpl; lia]. unfold IsNoFree in *. done.
  - rewrite <- Hv1. unfold view, content. rewrite size_wf by done.
    replace (m_dwTailOff b1 - m_dwOffset b1) with (m_dwTailOff b1) by lia. by rewrite Ho1.
Qed.

Lemma Serialize_num_ok w z b :
  ser_buf b -> (0 < w)%nat -> zlen (content b) + Z.of_nat w <= MAX_BYTES_PER_BUFFER ->
  exists b', Serialize_num al rel w z (Some b) = Ret (Some b', 0) /\ ser_buf b' /\
    content b' = content b ++ be_bytes w (uN (8 * Z.of_nat w) z).
Proof.
  intros Hb Hw Hmax. unfold Serialize_num.
  destruct (APPEND_ok b (be_bytes w (uN (8 * Z.of_nat w) z)) (Z.of_nat w) Hb)
    as (b' & -> & Hb' & Hc); [lia|by rewrite zlen_be_bytes|done|].
  cbn [obind]. by exists b'.
Qed.

Lemma Serialize_word_ok z b :
  ser_buf b -> 0 <= z < 2 ^ 32 -> zlen (content b) + 4 <= MAX_BYTES_PER_BUFFER ->
  exists b', Serialize_num al rel 4 z (Some b) = Ret (Some b', 0) /\ ser_buf b' /\
    content b' = content b ++ word z.
Proof.
  intros Hb Hz Hmax. destruct (Serialize_num_ok 4 z b) as (b' & H1 & H2 & H3); [done|lia|done|].
  exists b'. split_and!; [done|done|]. rewrite H3. unfold word. f_equal. f_equal.
  apply uN_small. done.
Qed.

Lemma Serialize_string_ok s b :
  ser_buf b -> zlen s < MAX_BYTES_PER_BUFFER ->
  zlen (content b) + (4 + zlen s) <= MAX_BYTES_PER_BUFFER ->
  exists b', Serialize_string al rel s (Some b) = Ret (Some b', 0) /\ ser_buf b' /\
    content b' = content b ++ word (zlen s) ++ s.
Proof.
  intros Hb Hs Hmax. pose proof (zlen_nonneg s). unfold Serialize_string.
  rewrite u32_small by (unfold MAX_BYTES_PER_BUFFER in *; lia).
  rewrite (proj2 (Z.leb_gt _ _)) by lia.
  destruct (Serialize_word_ok (zlen s) b) as (b1 & -> & Hb1 & Hc1);
    [done|unfold MAX_BYTES_PER_BUFFER in *; lia|lia|].
  cbn [obind]. destruct (Z.ltb_spec 0 (zlen s)).
  - destruct (APPEND_ok b1 s (zlen s) Hb1) as (b2 & -> & Hb2 & Hc2); [lia|done| |].
    { rewrite Hc1, zlen_app. change (zlen (word (zlen s))) with 4. lia. }
    cbn [obind]. exists b2. split_and!; [done|done|]. by rewrite Hc2, Hc1, <- app_assoc.
  - exists b1. split_and!; [done|done|]. rewrite Hc1. destruct s; [by rewrite app_nil_r|].
    unfold zlen in *. simpl in *. lia.
Qed.

Lemma Serialize_bytes_ok o b :
  ser_buf b -> (forall l, o = Some l -> 0 < zlen l < MAX_BYTES_PER_BUFFER) ->
  let l := default [] o in
  zlen (content b) + (4 + zlen l) <= MAX_BYTES_PER_BUFFER ->
  exists b', Serialize_bytes al rel o (Some b) = Ret (Some b', 0) /\ ser_buf b' /\
    content b' = content b ++ word (zlen l) ++ l.
Proof.
  intros Hb Hv l Hmax. unfold Serialize_bytes. destruct o as [k|]; cbn in l; subst l.
  - specialize (Hv k eq_refl). rewrite u32_small by (unfold MAX_BYTES_PER_BUFFER in *; lia).
    rewrite (proj2 (Z.leb_gt _ _)) by lia.
    destruct (Serialize_word_ok (zlen k) b) as (b1 & -> & Hb1 & Hc1);
      [done|unfold MAX_BYTES_PER_BUFFER in *; lia|lia|].
    cbn [obind]. rewrite (proj2 (Z.eqb_neq _ _)) by lia.
    destruct (APPEND_ok b1 k (zlen k) Hb1) as (b2 & -> & Hb2 & Hc2); [lia|done| |].
    { rewrite Hc1, zlen_app. change (zlen (word (zlen k))) with 4. lia. }
    cbn [obind]. exists b2. split_and!; [done|done|]. by rewrite Hc2, Hc1, <- app_assoc.
  - destruct (Serialize_word_ok 0 b) as (b1 & Hs & Hb1 & Hc1); [done|lia|done|].
    exists b1. change (MAX_BYTES_PER_BUFFER <=? 0) with false. cbv iota. rewrite Hs.
    split_and!; [done|done|]. by rewrite Hc1, app_nil_r.
Qed.

(** ** Lemmas: reading *)

Lemma IncOffset_ok b n :
  buf_wf b -> 0 < size b -> 0 <= n <= size b ->
  exists b', IncOffset n b = (b', 0) /\ eaten b b' n.
Proof.
  intros Hwf Hs Hn. destruct (wf_win b Hwf) as [Hw1 Hw2]. rewrite size_wf in * by done.
  unfold IncOffset. rewrite u32_small by lia.
  destruct (SetOffset_ok b (m_dwOffset b + n) Hwf) as [-> Hwf']; [|lia|].
  { apply not_null; [done|]. rewrite size_wf by done. lia. }
  eexists. split; [done|]. split; [done|done|done|].
  unfold view. rewrite !size_wf by done. simpl.
  change (block (set_off (m_dwOffset b + n) b)) with (block b).
  rewrite <- zdrop_zdrop by lia. unfold ztake, zdrop. rewrite skipn_firstn_comm. f_equal. lia.
Qed.

Lemma eaten_view b b' l rest : view b = l ++ rest -> eaten b b' (zlen l) -> view b' = rest.
Proof. intros Hv Hb. rewrite (ea_view _ _ _ Hb), Hv. by apply zdrop_app_exact. Qed.

Lemma eaten_trans b1 b2 b3 n m :
  0 <= n -> 0 <= m -> eaten b1 b2 n -> eaten b2 b3 m -> eaten b1 b3 (n + m).
Proof.
  intros Hn Hm [] []. split; [done|congruence|lia|].
  rewrite ea_view1, ea_view0. by apply zdrop_zdrop.
Qed.

Lemma read_view b l rest :
  buf_wf b -> view b = l ++ rest -> read (block b) (m_dwOffset b) (zlen l) = Ret l.
Proof.
  intros Hwf Hv. pose proof (zlen_view b Hwf) as Hl. pose proof (zlen_block b Hwf).
  destruct (wf_win b Hwf). rewrite Hv, zlen_app, size_wf in Hl by done.
  pose proof (zlen_nonneg rest). pose proof (zlen_nonneg l). rewrite read_ok by lia. f_equal.
  rewrite <- (ztake_ztake (zlen l) (size b)) by (rewrite size_wf by done; lia).
  change (ztake (size b) (zdrop (m_dwOffset b) (block b))) with (view b). rewrite Hv.
  by apply ztake_app_exact.
Qed.

Lemma size_view b l rest : buf_wf b -> view b = l ++ rest -> size b = zlen l + zlen rest.
Proof. intros Hwf Hv. by rewrite <- (zlen_view b Hwf), Hv, zlen_app. Qed.

Lemma empty_false b : buf_wf b -> 0 < size b -> empty b = false.
Proof.
  intros Hwf Hs. unfold empty. rewrite ptr_null_false by done.
  by rewrite (proj2 (Z.eqb_neq _ _)) by lia.
Qed.

Lemma Deserialize_num_ok w sg z b rest :
  buf_wf b -> (0 < w)%nat -> view b = be_bytes w (uN (8 * Z.of_nat w) z) ++ rest ->
  exists b', (forall x, Deserialize_num w sg (Some b) x = Ret (Some b', 0, conv w sg z)) /\
    eaten b b' (Z.of_nat w).
Proof.
  intros Hwf Hw Hv. set (l := be_bytes _ _) in Hv.
  assert (zlen l = Z.of_nat w) as Hl by apply zlen_be_bytes.
  pose proof (size_view b l rest Hwf Hv) as Hs. pose proof (zlen_nonneg rest).
  unfold Deserialize_num. rewrite empty_false, (proj2 (Z.ltb_ge _ _)) by (done || lia).
  rewrite <- Hl, (read_view b l rest Hwf Hv). cbn [obind].
  destruct (IncOffset_ok b (zlen l) Hwf) as (b' & -> & Hb'); [lia|lia|].
  exists b'. split; [|done]. intros x. do 2 f_equal. unfold l.
  rewrite be_val_bytes by (apply uN_range; lia). unfold conv.
  destruct sg; [apply sN_uN; lia|]. unfold uN. apply Z.mod_mod.
  apply Z.pow_nonzero; lia.
Qed.

Lemma Deserialize_word_ok z b rest :
  buf_wf b -> 0 <= z < 2 ^ 32 -> view b = word z ++ rest ->
  exists b', (forall x, Deserialize_num 4 false (Some b) x = Ret (Some b', 0, z)) /\ eaten b b' 4 /\
    view b' = rest.
Proof.
  intros Hwf Hz Hv. destruct (Deserialize_num_ok 4 false z b rest Hwf) as (b' & Hd & Hb'); [lia| |].
  { change (8 * Z.of_nat 4) with 32. by rewrite uN_small. }
  exists b'. split_and!; [|done|by apply (eaten_view b b' (word z))].
  intros x. rewrite Hd. do 2 f_equal. unfold conv. change (8 * Z.of_nat 4) with 32. by apply uN_small.
Qed.

Lemma Deserialize_string_ok s x b rest :
  buf_wf b -> zlen s < MAX_BYTES_PER_BUFFER -> view b = word (zlen s) ++ s ++ rest ->
  exists b', Deserialize_string (Some b) x = Ret (Some b', 0, s) /\ eaten b b' (4 + zlen s).
Proof.
  intros Hwf Hs Hv. pose proof (zlen_nonneg s). pose proof (zlen_nonneg rest).
  pose proof (size_view b _ _ Hwf Hv) as Hsz. change (zlen (word (zlen s))) with 4 in Hsz.
  rewrite zlen_app in Hsz. unfold Deserialize_string. rewrite empty_false by (done || lia).
  destruct (Deserialize_word_ok (zlen s) b (s ++ rest) Hwf) as (b1 & -> & Hb1 & Hv1);
    [unfold MAX_BYTES_PER_BUFFER in *; lia|done|].
  cbn [obind]. change (ERROR 0) with false. cbv iota.
  destruct (Z.eqb_spec (zlen s) 0) as [Hz|Hz].
  - exists b1. destruct s; [|unfold zlen in *; simpl in *; lia]. done.
  - pose proof (size_view b1 _ _ (ea_wf _ _ _ Hb1) Hv1) as Hs1.
    rewrite Z.min_l by lia. rewrite (read_view b1 s rest) by (done || apply Hb1). cbn [obind].
    destruct (IncOffset_ok b1 (zlen s) (ea_wf _ _ _ Hb1)) as (b2 & -> & Hb2); [lia|lia|].
    exists b2. split; [done|]. by eapply eaten_trans; [lia|lia|..].
Qed.

Lemma Deserialize_bytes_ok o b rest :
  buf_wf b -> (forall l, o = Some l -> 0 < zlen l < MAX_BYTES_PER_BUFFER) ->
  let l := default [] o in
  view b = word (zlen l) ++ l ++ rest ->
  exists b', Deserialize_bytes (Some b) None = Ret (Some b', 0, o) /\ eaten b b' (4 + zlen l).
Proof.
  intros Hwf Ho l Hv. pose proof (zlen_nonneg rest). unfold Deserialize_bytes.
  destruct o as [k|]; cbn in l; subst l.
  - specialize (Ho k eq_refl).
    destruct (Deserialize_word_ok (zlen k) b (k ++ rest) Hwf) as (b1 & -> & Hb1 & Hv1);
      [unfold MAX_BYTES_PER_BUFFER in *; lia|done|].
    cbn [obind]. change (ERROR 0) with false. cbv iota. rewrite (proj2 (Z.eqb_neq _ _)) by lia.
    pose proof (size_view b1 _ _ (ea_wf _ _ _ Hb1) Hv1) as Hs1.
    unfold AppendView. rewrite (proj2 (Z.ltb_ge _ _))
      by (unfold BUF_MAX_SIZE, MAX_BYTES_PER_BUFFER in *; lia).
    rewrite (proj2 (Z.eqb_neq _ _)) by lia. cbn [orb].
    rewrite (proj2 (Z.ltb_ge _ _)) by (change (zlen []) with 0; lia).
    rewrite (read_view b1 k rest) by (done || apply Hb1). cbn [obind].
    change (ERROR 0) with false. cbv iota.
    destruct (IncOffset_ok b1 (zlen k) (ea_wf _ _ _ Hb1)) as (b2 & -> & Hb2); [lia|lia|].
    exists b2. split; [done|]. by eapply eaten_trans; [lia|lia|..].
  - destruct (Deserialize_word_ok 0 b rest Hwf) as (b1 & -> & Hb1 & Hv1); [lia|done|].
    by exists b1.
Qed.

(** ** The scalar and string codecs *)

#[local] Instance inst_cint {w sg} : Seri (cint w sg) := seri_cint al rel.
#[local] Instance inst_cfloat {w} : Seri (cfloat w) := seri_cfloat al rel.
#[local] Instance inst_bool : Seri bool := seri_bool al rel.
#[local] Instance inst_cstring : Seri cstring := seri_cstring al rel.
#[local] Instance inst_bytearr : Seri bytearr := seri_bytearr al rel.

Lemma conv_id (w : nat) (sg : bool) z :
  (0 < w)%nat -> (let n := 8 * Z.of_nat w in
    if sg then - 2 ^ (n - 1) <= z < 2 ^ (n - 1) else 0 <= z < 2 ^ n) -> conv w sg z = z.
Proof. intros Hw Hz. unfold conv. destruct sg; [apply sN_small; [lia|done]|by apply uN_small]. Qed.

#[local] Instance codec_cint {w sg} : Codec al rel (cint w sg).
Proof.
  split; cbn [enc valid sig_ok format_cint].
  - intros v [Hw _]. rewrite zlen_be_bytes. lia.
  - intros sig [z] b _ [Hw _] Hb Hmax. simpl in *. rewrite zlen_be_bytes in Hmax.
    by apply Serialize_num_ok.
  - intros sig [z] b rest _ [Hw Hz] Hb Hv. simpl in Hv.
    change (DeserialElem sig (Some b) value_init) with
      (let! (b, ret, x) := Deserialize_num w sg (Some b) 0 in Ret (b, ret, @CInt w sg x)).
    destruct (Deserialize_num_ok w sg z b rest Hb Hw Hv) as (b' & -> & Hb'). cbn [obind].
    exists b'. rewrite zlen_be_bytes, conv_id by done. done.
Qed.

#[local] Instance codec_cfloat {w} : Codec al rel (cfloat w).
Proof.
  split; cbn [enc valid sig_ok format_cfloat].
  - intros [z] [Hw _]. cbn beta iota. rewrite zlen_be_bytes. lia.
  - intros sig [z] b _ [Hw _] Hb Hmax. simpl in *. rewrite zlen_be_bytes in Hmax.
    by apply Serialize_num_ok.
  - intros sig [z] b rest _ [Hw Hz] Hb Hv. simpl in Hv.
    change (DeserialElem sig (Some b) value_init) with
      (let! (b, ret, x) := Deserialize_num w false (Some b) 0 in Ret (b, ret, @CFloat w x)).
    destruct (Deserialize_num_ok w false z b rest Hb Hw Hv) as (b' & -> & Hb'). cbn [obind].
    exists b'. rewrite zlen_be_bytes, conv_id by done. done.
Qed.

#[local] Instance codec_bool : Codec al rel bool.
Proof.
  split; cbn [enc valid sig_ok format_bool].
  - done.
  - intros sig v b _ _ Hb Hmax. simpl in *.
    destruct (Serialize_num_ok 1 (if v then 1 else 0) b Hb) as (b' & H1 & H2 & H3); [lia|done|].
    exists b'. split_and!; [done|done|]. rewrite H3. by destruct v.
  - intros sig v b rest _ _ Hb Hv. simpl in Hv.
    change (DeserialElem sig (Some b) value_init) with (Deserialize_bool (Some b) false).
    unfold Deserialize_bool.
    destruct (Deserialize_num_ok 1 false (if v then 1 else 0) b rest Hb) as (b' & -> & Hb');
      [lia|by destruct v|].
    cbn [obind]. exists b'. by destruct v.
Qed.

#[local] Instance codec_cstring : Codec al rel cstring.
Proof.
  split; cbn [enc valid sig_ok format_cstring].
  - intros [s] _. cbn beta iota. rewrite zlen_app. change (zlen (word _)) with 4.
    pose proof (zlen_nonneg (str_val (CStr s))). lia.
  - intros sig [s] b _ Hs Hb Hmax. cbn beta iota delta [str_val] in *. rewrite zlen_app in Hmax.
    by apply (Serialize_string_ok s b).
  - intros sig [s] b rest _ Hs Hb Hv. cbn beta iota delta [str_val] in *.
    change (DeserialElem sig (Some b) value_init) with
      (let! (b, ret, x) := Deserialize_string (Some b) [] in Ret (b, ret, CStr x)). rewrite <- app_assoc in Hv.
    destruct (Deserialize_string_ok s [] b rest Hb Hs Hv) as (b' & -> & Hb'). cbn [obind].
    exists b'. by rewrite zlen_app.
Qed.

#[local] Instance codec_bytearr : Codec al rel bytearr.
Proof.
  split; cbn [enc valid sig_ok format_bytearr].
  - intros [o] _. cbn beta iota zeta. rewrite zlen_app. change (zlen (word _)) with 4.
    pose proof (zlen_nonneg (default [] (buf_val (CBytes o)))). lia.
  - intros sig [o] b _ Ho Hb Hmax. cbn beta iota zeta delta [buf_val] in *. rewrite zlen_app in Hmax.
    by apply (Serialize_bytes_ok o b).
  - intros sig [o] b rest _ Ho Hb Hv. cbn beta iota zeta delta [buf_val] in *.
    change (DeserialElem sig (Some b) value_init) with
      (let! (b, ret, x) := Deserialize_bytes (Some b) None in Ret (b, ret, CBytes x)). rewrite <- app_assoc in Hv.
    destruct (Deserialize_bytes_ok o b rest Hb Ho Hv) as (b' & -> & Hb'). cbn [obind].
    exists b'. by rewrite zlen_app.
Qed.

(** ** Lemmas: containers *)

Lemma strip_ok (o c : ascii) s : strip o c (o :: s ++ [c]) = Some s.
Proof.
  unfold strip. rewrite Ascii.eqb_refl, last_snoc, Ascii.eqb_refl, pop_back_snoc. done.
Qed.

Lemma zlen_word z : zlen (word z) = 4.
Proof. done. Qed.

Lemma ser_off b : ser_buf b -> m_dwOffset b = zlen (content b).
Proof. intros [Hwf _ He]. by rewrite content_len. Qed.

Lemma patch_ok b c x r n :
  ser_buf b -> content b = c ++ word x ++ r ->
  exists b', patch_u32 (zlen c) n b = Ret b' /\ ser_buf b' /\ content b' = c ++ word n ++ r.
Proof.
  intros [Hwf Hnf Hend] Hc. pose proof (content_len b Hwf) as Hl.
  rewrite Hc, !zlen_app, zlen_word in Hl. pose proof (zlen_nonneg c). pose proof (zlen_nonneg r).
  assert (m_pData b <> PNull) as Hp.
  { intros Hp. pose proof (wf_blk b Hwf) as Hk. rewrite Hp in Hk. destruct (wf_win b Hwf). lia. }
  destruct (rewind b Hwf) as (b0 & ret & _ & Hwf0 & _ & Hv0 & Hb0 & Hs0 & Ho0 & Heq).
  destruct (Heq Hp) as [-> _].
  destruct (write_view (set_off 0 b) (zlen c) (word n) Hwf0) as (blk & Hw & Hwf1 & Hv1);
    [lia|rewrite zlen_word; lia|].
  rewrite Ho0, Hb0, Z.add_0_l in Hw. unfold patch_u32. fold (word n). rewrite Hw. cbn [obind].
  assert (set_block blk b = set_off (m_dwOffset b) (set_block blk (set_off 0 b))) as He
    by (unfold set_block; destruct b as [d ? ? ? ? ?]; simpl; destruct d; done).
  destruct (set_block_fields blk (set_off 0 b)) as (Hs1 & Ho1 & _ & _ & Ht1 & _).
  exists (set_block blk b). split_and!; [done| |].
  - split; [|by rewrite NoFree_set_block|].
    + rewrite He. apply SetOffset_ok; [done| |rewrite Ht1; simpl; destruct (wf_win b Hwf); lia].
      apply not_null; [done|]. lia.
    + destruct (set_block_fields blk b) as (_ & -> & _ & _ & -> & _). done.
  - assert (content (set_block blk b) = view (set_block blk (set_off 0 b))) as ->.
    { unfold content, view. rewrite Hs1, Ho1, Hs0.
      destruct (set_block_fields blk b) as (_ & _ & _ & _ & -> & _). f_equal.
      rewrite zdrop_0. unfold set_block, block. destruct b as [d ? ? ? ? ?]; simpl in *; by destruct d. }
    rewrite Hv1, Hv0, Hc, ztake_app_exact by done. do 2 f_equal.
    rewrite zlen_word, app_assoc. apply zdrop_app_exact. by rewrite zlen_app, zlen_word.
Qed.

(** The end of both container writers: the elements are there, the byte count
    is filled in. *)
Lemma patch_body b c cnt body :
  ser_buf b -> cnt <> 0 -> content b = c ++ word 0 ++ word cnt ++ body ->
  zlen (content b) <= MAX_BYTES_PER_BUFFER ->
  exists b', patch_u32 (zlen c) (u32 (m_dwOffset b - zlen c - 8)) b = Ret b' /\ ser_buf b' /\
    content b' = c ++ enc_seq cnt body.
Proof.
  intros Hb Hcnt Hc Hmax. rewrite (ser_off b Hb). pose proof (zlen_nonneg c).
  pose proof (zlen_nonneg body). unfold MAX_BYTES_PER_BUFFER in *.
  assert (zlen (content b) - zlen c - 8 = zlen body) as ->
    by (rewrite Hc, !zlen_app, !zlen_word; lia).
  rewrite u32_small by (rewrite Hc, !zlen_app, !zlen_word in Hmax; lia).
  unfold enc_seq. rewrite (proj2 (Z.eqb_neq _ _)) by done. by eapply patch_ok.
Qed.

(** The two header words of a container that is read. *)
Lemma header_ok b x y rest :
  buf_wf b -> 0 <= x < 2 ^ 32 -> 0 <= y < 2 ^ 32 -> view b = word x ++ word y ++ rest ->
  empty b = false /\ 8 <= size b /\ exists b1 b2,
    (forall v, Deserialize_num 4 false (Some b) v = Ret (Some b1, 0, x)) /\
    (forall v, Deserialize_num 4 false (Some b1) v = Ret (Some b2, 0, y)) /\
    eaten b b2 8 /\ view b2 = rest.
Proof.
  intros Hwf Hx Hy Hv. pose proof (zlen_nonneg rest).
  assert (8 <= size b) by (rewrite (size_view b _ _ Hwf Hv), !zlen_app, !zlen_word; lia).
  split_and!; [apply empty_false; [done|lia]|done|].
  destruct (Deserialize_word_ok x b _ Hwf Hx Hv) as (b1 & H1 & Hb1 & Hv1).
  destruct (Deserialize_word_ok y b1 _ (ea_wf _ _ _ Hb1) Hy Hv1) as (b2 & H2 & Hb2 & Hv2).
  exists b1, b2. split_and!; [done|done|by apply (eaten_trans b b1 b2 4 4)|done].
Qed.

Section Array.
Context {T : Type} `{HT : Seri T} `{FT : Format T} {CT : Codec al rel T}.

Lemma SerialElems_ok sig vals b :
  sig_ok sig -> Forall valid vals -> ser_buf b ->
  zlen (content b) + zlen (body_of vals) <= MAX_BYTES_PER_BUFFER ->
  exists b', SerialElems sig vals (Some b) = Ret (Some b', 0) /\ ser_buf b' /\
    content b' = content b ++ body_of vals.
Proof.
  intros Hsig Hv. revert b. unfold body_of.
  induction Hv as [|v vals Hv Hvs IH]; intros b Hb Hmax; simpl in *.
  - exists b. by rewrite app_nil_r.
  - rewrite zlen_app in Hmax. pose proof (zlen_nonneg (concat (map enc vals))).
    destruct (ser_ok sig v b Hsig Hv Hb) as (b1 & -> & Hb1 & Hc1); [lia|]. cbn [obind].
    change (ERROR 0) with false. cbv iota.
    destruct (IH b1 Hb1) as (b2 & -> & Hb2 & Hc2); [rewrite Hc1, zlen_app; lia|].
    exists b2. split_and!; [done|done|]. by rewrite Hc2, Hc1, <- app_assoc.
Qed.

Lemma DeserialElems_ok sig vals b rest :
  sig_ok sig -> Forall valid vals -> buf_wf b -> view b = body_of vals ++ rest ->
  exists b', DeserialElems sig (Some b) (repeat value_init (length vals)) = Ret (Some b', 0, vals) /\
    eaten b b' (zlen (body_of vals)).
Proof.
  intros Hsig Hv. revert b. unfold body_of.
  induction Hv as [|v vals Hv Hvs IH]; intros b Hb Hview; simpl in *.
  - exists b. split; [done|]. split; [done|done|change (zlen []) with 0; lia|done].
  - rewrite <- app_assoc in Hview. destruct (des_ok sig v b _ Hsig Hv Hb Hview) as (b1 & -> & Hb1).
    cbn [obind]. change (ERROR 0) with false. cbv iota.
    pose proof (eaten_view _ _ _ _ Hview Hb1) as Hv1.
    destruct (IH b1 (ea_wf _ _ _ Hb1) Hv1) as (b2 & -> & Hb2). cbn [obind].
    exists b2. split; [done|]. rewrite zlen_app.
    eapply eaten_trans; [apply zlen_nonneg|apply zlen_nonneg|done|done].
Qed.

Lemma body_pos l : Forall valid l -> l <> [] -> 0 < zlen (body_of l).
Proof.
  intros Hl Hne. destruct Hl as [|v l Hv Hl]; [done|]. unfold body_of. simpl. rewrite zlen_app.
  pose proof (enc_pos v Hv). pose proof (zlen_nonneg (concat (map enc l))). lia.
Qed.

#[local] Instance inst_list : Seri (list T) := seri_list al rel.

Lemma SerializeArray_ok sig (v : list T) b :
  (exists s, sig_ok s /\ sig = ("(" :: s ++ [")"])%char) ->
  Forall valid v -> seq_fits (Z.of_nat (length v)) (body_of v) -> ser_buf b ->
  zlen (content b) + zlen (enc_seq (Z.of_nat (length v)) (body_of v)) <= MAX_BYTES_PER_BUFFER ->
  exists b', SerializeArray al rel sig v (Some b) = Ret (Some b', 0) /\ ser_buf b' /\
    content b' = content b ++ enc_seq (Z.of_nat (length v)) (body_of v).
Proof.
  intros (s & Hs & ->) Hv [Hcnt Hlen] Hb Hmax. unfold SerializeArray. rewrite strip_ok.
  unfold enc_seq in *. unfold MAX_ELEM_COUNT in *.
  destruct (Z.eqb_spec (Z.of_nat (length v)) 0) as [Hz|Hz];
    rewrite ?zlen_app, ?zlen_word in Hmax; pose proof (zlen_nonneg (body_of v)).
  - destruct (Serialize_word_ok 0 b Hb) as (b1 & -> & Hb1 & Hc1); [lia|lia|].
    cbn [obind].
    destruct (Serialize_word_ok 0 b1 Hb1) as (b2 & -> & Hb2 & Hc2);
      [lia|rewrite Hc1, zlen_app, zlen_word; lia|].
    exists b2. split_and!; [done|done|]. by rewrite Hc2, Hc1, <- app_assoc.
  - rewrite (proj2 (Z.leb_gt _ _)) by lia.
    destruct (Serialize_word_ok 0 b Hb) as (b1 & -> & Hb1 & Hc1); [lia|lia|].
    cbn [obind].
    destruct (Serialize_word_ok (Z.of_nat (length v)) b1 Hb1) as (b2 & -> & Hb2 & Hc2);
      [lia|rewrite Hc1, zlen_app, zlen_word; lia|].
    cbn [obind buf_offset]. rewrite (ser_off b Hb), (ser_off b2 Hb2), Hc2, Hc1, !zlen_app, !zlen_word.
    rewrite u32_small by lia.
    destruct (SerialElems_ok s v b2 Hs Hv Hb2) as (b3 & -> & Hb3 & Hc3);
      [rewrite Hc2, Hc1, !zlen_app, !zlen_word; lia|].
    cbn [obind]. change (ERROR 0) with false. cbv iota.
    replace (zlen (content b) + 4 + 4 - zlen (content b)) with 8 by lia.
    rewrite Hc2, Hc1, <- !app_assoc in Hc3.
    destruct (patch_body b3 (content b) _ (body_of v) Hb3 Hz Hc3) as (b4 & -> & Hb4 & Hc4);
      [rewrite Hc3, !zlen_app, !zlen_word; lia|].
    cbn [obind]. exists b4. split_and!; [done|done|]. rewrite Hc4. unfold enc_seq.
    by rewrite (proj2 (Z.eqb_neq _ _)).
Qed.

Lemma DeserialArray_ok sig (v : list T) b rest :
  (exists s, sig_ok s /\ sig = ("(" :: s ++ [")"])%char) ->
  Forall valid v -> seq_fits (Z.of_nat (length v)) (body_of v) -> buf_wf b ->
  view b = enc_seq (Z.of_nat (length v)) (body_of v) ++ rest ->
  exists b', DeserialArray sig (Some b) [] = Ret (Some b', 0, v) /\
    eaten b b' (zlen (enc_seq (Z.of_nat (length v)) (body_of v))).
Proof.
  intros (s & Hs & ->) Hv [Hcnt Hlen] Hb Hview. unfold DeserialArray. rewrite strip_ok.
  unfold enc_seq in *. unfold MAX_ELEM_COUNT, MAX_BYTES_PER_BUFFER in *.
  destruct (Z.eqb_spec (Z.of_nat (length v)) 0) as [Hz|Hz]; rewrite <- !app_assoc in Hview.
  - destruct (header_ok b 0 0 rest Hb) as (-> & H8 & b1 & b2 & H1 & H2 & Hb2 & _); [lia|lia|done|].
    rewrite (proj2 (Z.ltb_ge _ _)), H1 by lia. cbn [obind]. change (ERROR 0) with false. cbv iota.
    change (MAX_BYTES_PER_BUFFER <? 0) with false. cbv iota. rewrite H2. cbn [obind].
    exists b2. split; [|by rewrite zlen_app, !zlen_word].
    destruct v; [done|simpl in Hz; lia].
  - assert (v <> []) as Hne by (intros ->; simpl in Hz; lia). pose proof (body_pos v Hv Hne).
    destruct (header_ok b (zlen (body_of v)) (Z.of_nat (length v)) (body_of v ++ rest) Hb)
      as (-> & H8 & b1 & b2 & H1 & H2 & Hb2 & Hv2); [lia|lia|done|].
    rewrite (proj2 (Z.ltb_ge (size b) 8)), H1 by lia. cbn [obind]. change (ERROR 0) with false. cbv iota.
    rewrite (proj2 (Z.ltb_ge _ _)), H2 by (unfold MAX_BYTES_PER_BUFFER; lia). cbn [obind].
    change (ERROR 0) with false. cbv iota. rewrite !(proj2 (Z.eqb_neq _ _)) by lia. cbn [orb].
    rewrite (proj2 (Z.leb_gt _ _)) by (unfold MAX_ELEM_COUNT; lia).
    rewrite Nat2Z.id. unfold vec_resize. rewrite take_nil, app_nil_l. cbn [length].
    rewrite Nat.sub_0_r.
    destruct (DeserialElems_ok s v b2 rest Hs Hv (ea_wf _ _ _ Hb2) Hv2) as (b3 & -> & Hb3).
    cbn [obind]. exists b3. split; [done|]. rewrite !zlen_app, !zlen_word.
    replace (4 + (4 + zlen (body_of v))) with (8 + zlen (body_of v)) by lia.
    eapply eaten_trans; [lia|lia|done|done].
Qed.

#[local] Instance codec_list : Codec al rel (list T).
Proof.
  split; cbn [enc valid sig_ok format_list].
  - intros v _. cbn beta. unfold enc_seq. pose proof (zlen_nonneg (body_of v)).
    destruct (_ =? 0); rewrite !zlen_app, !zlen_word; lia.
  - intros sig v b Hs [Hv Hf] Hb Hmax. by apply SerializeArray_ok.
  - intros sig v b rest Hs [Hv Hf] Hb Hview. by apply (DeserialArray_ok sig v b rest).
Qed.
End Array.

Section Map.
Context {K V : Type} `{KL : KeyLess K} {KA : KeyAsym K} `{HK : Seri K} `{HV : Seri V}.
Context `{FK : Format K} `{FV : Format V} {CK : Codec al rel K} {CV : Codec al rel V}.

Lemma SerialPairs_ok ks vs (l : list (K * V)) b :
  sig_ok (T := K) ks -> sig_ok (T := V) vs -> Forall pair_valid l -> ser_buf b ->
  zlen (content b) + zlen (pairs_of l) <= MAX_BYTES_PER_BUFFER ->
  exists b', SerialPairs ks vs l (Some b) = Ret (Some b', 0) /\ ser_buf b' /\
    content b' = content b ++ pairs_of l.
Proof.
  intros Hks Hvs Hl. revert b. unfold pairs_of.
  induction Hl as [|[k v] l [Hk Hv] Hl IH]; intros b Hb Hmax; simpl in *.
  - exists b. by rewrite app_nil_r.
  - unfold enc_pair in *. simpl in *. rewrite !zlen_app in Hmax.
    pose proof (zlen_nonneg (concat (map enc_pair l))). pose proof (zlen_nonneg (enc v)).
    unfold enc_pair in *.
    destruct (ser_ok ks k b Hks Hk Hb) as (b1 & -> & Hb1 & Hc1); [lia|]. cbn [obind].
    change (ERROR 0) with false. cbv iota.
    destruct (ser_ok vs v b1 Hvs Hv Hb1) as (b2 & -> & Hb2 & Hc2); [rewrite Hc1, zlen_app; lia|].
    cbn [obind]. change (ERROR 0) with false. cbv iota.
    destruct (IH b2 Hb2) as (b3 & -> & Hb3 & Hc3); [rewrite Hc2, Hc1, !zlen_app; lia|].
    exists b3. split_and!; [done|done|]. by rewrite Hc3, Hc2, Hc1, <- !app_assoc.
Qed.

(** Keys that come in order are inserted at the end. *)
Lemma map_insert_last (m : list (K * V)) k v :
  Forall (fun p => before p (k, v)) m -> map_insert k v m = m ++ [(k, v)].
Proof.
  induction 1 as [|[k' v'] m Hp Hm IH]; simpl; [done|]. unfold before in Hp. simpl in Hp.
  by rewrite (key_asym _ _ Hp), Hp, IH.
Qed.

Lemma DeserialPairs_ok ks vs (l m : list (K * V)) b rest :
  sig_ok (T := K) ks -> sig_ok (T := V) vs -> Forall pair_valid l -> StronglySorted before (m ++ l) ->
  buf_wf b -> view b = pairs_of l ++ rest ->
  exists b', DeserialPairs (length l) ks vs (Some b) m = Ret (Some b', 0, m ++ l) /\
    eaten b b' (zlen (pairs_of l)).
Proof.
  intros Hks Hvs Hl. revert m b. unfold pairs_of.
  induction Hl as [|[k v] l [Hk Hv] Hl IH]; intros m b Hsort Hb Hview.
  - exists b. simpl. rewrite app_nil_r. split; [done|].
    split; [done|done|change (zlen []) with 0; lia|done].
  - cbn [map concat] in *. unfold enc_pair at 1 in Hview. unfold enc_pair at 1. cbn [fst snd] in *.
    rewrite <- !app_assoc in Hview. cbn [length DeserialPairs].
    destruct (des_ok ks k b _ Hks Hk Hb Hview) as (b1 & -> & Hb1). cbn [obind].
    change (ERROR 0) with false. cbv iota.
    pose proof (eaten_view _ _ _ _ Hview Hb1) as Hv1.
    destruct (des_ok vs v b1 _ Hvs Hv (ea_wf _ _ _ Hb1) Hv1) as (b2 & -> & Hb2). cbn [obind].
    change (ERROR 0) with false. cbv iota.
    pose proof (eaten_view _ _ _ _ Hv1 Hb2) as Hv2.
    rewrite map_insert_last.
    + destruct (IH (m ++ [(k, v)]) b2) as (b3 & -> & Hb3); [by rewrite <- app_assoc|apply Hb2|done|].
      exists b3. rewrite <- app_assoc. split; [done|]. rewrite !zlen_app.
      eapply eaten_trans; [|apply zlen_nonneg| |done].
      * pose proof (zlen_nonneg (enc k)). pose proof (zlen_nonneg (enc v)). lia.
      * eapply eaten_trans; [apply zlen_nonneg|apply zlen_nonneg|done|done].
    + apply Forall_forall. intros p Hp. eapply StronglySorted_app_1_elem_of; [exact Hsort|exact Hp|left].
Qed.

#[local] Instance inst_map : Seri (stdmap K V) := seri_map al rel.

Lemma SerializeMap_ok sig (v : stdmap K V) b :
  (exists c s, sig_ok (T := K) [c] /\ sig_ok (T := V) s /\ sig = ("[" :: (c :: s) ++ ["]"])%char) ->
  Forall pair_valid (pairs v) -> seq_fits (Z.of_nat (length (pairs v))) (pairs_of (pairs v)) ->
  ser_buf b ->
  zlen (content b) + zlen (enc_seq (Z.of_nat (length (pairs v))) (pairs_of (pairs v)))
    <= MAX_BYTES_PER_BUFFER ->
  exists b', SerializeMap al rel sig v (Some b) = Ret (Some b', 0) /\ ser_buf b' /\
    content b' = content b ++ enc_seq (Z.of_nat (length (pairs v))) (pairs_of (pairs v)).
Proof.
  intros (c & s & Hc & Hs & ->) Hv [Hcnt Hlen] Hb Hmax. unfold SerializeMap. rewrite strip_ok.
  cbn [key_value_sig obind]. unfold enc_seq in *. unfold MAX_ELEM_COUNT in *.
  set (l := pairs v) in *.
  destruct (Z.eqb_spec (Z.of_nat (length l)) 0) as [Hz|Hz];
    rewrite ?zlen_app, ?zlen_word in Hmax; pose proof (zlen_nonneg (pairs_of l)).
  - destruct (Serialize_word_ok 0 b Hb) as (b1 & -> & Hb1 & Hc1); [lia|lia|].
    cbn [obind].
    destruct (Serialize_word_ok 0 b1 Hb1) as (b2 & -> & Hb2 & Hc2);
      [lia|rewrite Hc1, zlen_app, zlen_word; lia|].
    exists b2. split_and!; [done|done|]. by rewrite Hc2, Hc1, <- app_assoc.
  - rewrite (proj2 (Z.leb_gt _ _)) by lia.
    destruct (Serialize_word_ok 0 b Hb) as (b1 & -> & Hb1 & Hc1); [lia|lia|].
    cbn [obind].
    destruct (Serialize_word_ok (Z.of_nat (length l)) b1 Hb1) as (b2 & -> & Hb2 & Hc2);
      [lia|rewrite Hc1, zlen_app, zlen_word; lia|].
    cbn [obind buf_offset]. rewrite (ser_off b Hb), (ser_off b2 Hb2), Hc2, Hc1, !zlen_app, !zlen_word.
    rewrite u32_small by lia.
    destruct (SerialPairs_ok [c] s l b2 Hc Hs Hv Hb2) as (b3 & -> & Hb3 & Hc3);
      [rewrite Hc2, Hc1, !zlen_app, !zlen_word; lia|].
    cbn [obind]. change (ERROR 0) with false. cbv iota.
    replace (zlen (content b) + 4 + 4 - zlen (content b)) with 8 by lia.
    rewrite Hc2, Hc1, <- !app_assoc in Hc3.
    destruct (patch_body b3 (content b) _ (pairs_of l) Hb3 Hz Hc3) as (b4 & -> & Hb4 & Hc4);
      [rewrite Hc3, !zlen_app, !zlen_word; lia|].
    cbn [obind]. exists b4. split_and!; [done|done|]. rewrite Hc4. unfold enc_seq.
    by rewrite (proj2 (Z.eqb_neq _ _)).
Qed.

Lemma pairs_pos (l : list (K * V)) : Forall pair_valid l -> l <> [] -> 0 < zlen (pairs_of l).
Proof.
  intros Hl Hne. destruct Hl as [|[k v] l [Hk Hv] Hl]; [done|].
  unfold pairs_of. cbn [map concat]. unfold enc_pair at 1. rewrite !zlen_app.
  pose proof (enc_pos k Hk). pose proof (zlen_nonneg (enc v)).
  pose proof (zlen_nonneg (concat (map enc_pair l))). simpl in *. lia.
Qed.

Lemma DeserialMap_ok sig (v : stdmap K V) b rest :
  (exists c s, sig_ok (T := K) [c] /\ sig_ok (T := V) s /\ sig = ("[" :: (c :: s) ++ ["]"])%char) ->
  Forall pair_valid (pairs v) -> StronglySorted before (pairs v) ->
  seq_fits (Z.of_nat (length (pairs v))) (pairs_of (pairs v)) -> buf_wf b ->
  view b = enc_seq (Z.of_nat (length (pairs v))) (pairs_of (pairs v)) ++ rest ->
  exists b', DeserialMap sig (Some b) (SMap []) = Ret (Some b', 0, v) /\
    eaten b b' (zlen (enc_seq (Z.of_nat (length (pairs v))) (pairs_of (pairs v)))).
Proof.
  intros (c & s & Hc & Hs & ->) Hv Hsort [Hcnt Hlen] Hb Hview. unfold DeserialMap. rewrite strip_ok.
  cbn [key_value_sig obind]. destruct v as [l]. cbn [pairs] in *.
  unfold enc_seq in *. unfold MAX_ELEM_COUNT, MAX_BYTES_PER_BUFFER in *.
  destruct (Z.eqb_spec (Z.of_nat (length l)) 0) as [Hz|Hz]; rewrite <- !app_assoc in Hview.
  - destruct (header_ok b 0 0 rest Hb) as (-> & H8 & b1 & b2 & H1 & H2 & Hb2 & _); [lia|lia|done|].
    rewrite (proj2 (Z.ltb_ge _ _)), H1 by lia. cbn [obind]. change (ERROR 0) with false. cbv iota.
    change (MAX_BYTES_PER_BUFFER <? 0) with false. cbv iota. rewrite H2. cbn [obind].
    exists b2. split; [|by rewrite zlen_app, !zlen_word].
    destruct l; [done|simpl in Hz; lia].
  - assert (l <> []) as Hne by (intros ->; simpl in Hz; lia). pose proof (pairs_pos l Hv Hne).
    destruct (header_ok b (zlen (pairs_of l)) (Z.of_nat (length l)) (pairs_of l ++ rest) Hb)
      as (-> & H8 & b1 & b2 & H1 & H2 & Hb2 & Hv2); [lia|lia|done|].
    rewrite (proj2 (Z.ltb_ge (size b) 8)), H1 by lia. cbn [obind]. change (ERROR 0) with false. cbv iota.
    rewrite (proj2 (Z.ltb_ge _ _)), H2 by (unfold MAX_BYTES_PER_BUFFER; lia). cbn [obind].
    change (ERROR 0) with false. cbv iota. rewrite (proj2 (Z.eqb_neq _ _)) by lia.
    rewrite (proj2 (Z.leb_gt _ _)) by (unfold MAX_ELEM_COUNT; lia).
    rewrite Nat2Z.id.
    destruct (DeserialPairs_ok [c] s l [] b2 rest Hc Hs Hv Hsort (ea_wf _ _ _ Hb2) Hv2)
      as (b3 & -> & Hb3).
    cbn [obind app]. change (ERROR 0) with false. cbv iota. cbn [buf_offset].
    assert (u32 (m_dwOffset b3 - m_dwOffset b - u32 (m_dwOffset b2 - m_dwOffset b)) =
      zlen (pairs_of l)) as ->.
    { rewrite (ea_off _ _ _ Hb3), (ea_off _ _ _ Hb2), (u32_small (_ + 8 - _)) by lia.
      rewrite u32_small; lia. }
    rewrite Z.eqb_refl. cbn [negb]. exists b3. split; [done|]. rewrite !zlen_app, !zlen_word.
    replace (4 + (4 + zlen (pairs_of l))) with (8 + zlen (pairs_of l)) by lia.
    eapply eaten_trans; [lia|lia|done|done].
Qed.

#[local] Instance codec_map : Codec al rel (stdmap K V).
Proof.
  split; cbn [enc valid sig_ok format_map].
  - intros v _. cbn beta. unfold enc_seq. pose proof (zlen_nonneg (pairs_of (pairs v))).
    destruct (_ =? 0); rewrite !zlen_app, !zlen_word; lia.
  - intros sig v b Hs (Hv & _ & Hf) Hb Hmax. by apply SerializeMap_ok.
  - intros sig v b rest Hs (Hv & Hsort & Hf) Hb Hview. by apply (DeserialMap_ok sig v b rest).
Qed.
End Map.

(** ** Every type of the interface language *)

#[local] Instance kden_asym (k : keyty) : KeyAsym (kden k).
Proof.
  destruct k as [w sg|]; cbn [kden kden_less].
  - intros [x] [y]. unfold key_less, cint_less. simpl. rewrite Z.ltb_lt, Z.ltb_ge. lia.
  - intros [x] [y]. unfold key_less, cstring_less. revert y.
    induction x as [|a x IH]; intros [|b y]; cbn [bytes_less]; try done.
    intros H. apply orb_true_iff in H as [H%Z.ltb_lt|[->%Z.eqb_eq Hxy]%andb_true_iff].
    + rewrite (proj2 (Z.ltb_ge _ _)), (proj2 (Z.eqb_neq _ _)) by lia. done.
    + by rewrite Z.ltb_irrefl, (IH _ Hxy), andb_false_r.
Qed.

#[local] Instance kden_inst (k : keyty) : Seri (kden k) := kden_seri al rel k.
#[local] Instance den_inst (t : ty) : Seri (den t) := den_seri al rel t.

#[local] Instance kden_codec (k : keyty) : Codec al rel (kden k).
Proof. destruct k as [w sg|]; [exact codec_cint|exact codec_cstring]. Qed.

Lemma den_codec (t : ty) : Codec al rel (den t).
Proof.
  induction t as [k|w| | |t IH|k t IH].
  - exact (kden_codec k).
  - exact codec_cfloat.
  - exact codec_bool.
  - exact codec_bytearr.
  - exact (@codec_list (den t) (den_inst t) (den_format t) IH).
  - exact (@codec_map (kden k) (den t) (kden_less k) (kden_asym k) (kden_inst k) (den_inst t)
             (kden_format k) (den_format t) (kden_codec k) IH).
Qed.
End Codecs.

(** ** Properties *)

(** C29: for every type built from numbers, strings, byte arrays,
    vectors and maps, and every well-formed value of it: serialized into an
    empty buffer it succeeds and the buffer holds exactly the encoding; read
    from the start with a matching signature, it gives the value back and
    leaves nothing. *)
Theorem seri_roundtrip (al : Z -> option bytes) (rel : bytes -> bytes) (t : ty) (sig : signature)
    (v : den t) (b : CBuffer) :
  al_ok al -> ser_buf b -> content b = [] -> sig_ok (Format := den_format t) sig ->
  valid (Format := den_format t) v ->
  zlen (enc (Format := den_format t) v) <= MAX_BYTES_PER_BUFFER ->
  exists b1 b2 b3,
    SerialElem (Seri := den_seri al rel t) sig v (Some b) = Ret (Some b1, 0) /\
    SetOffset 0 b1 = (b2, 0) /\ view b2 = enc (Format := den_format t) v /\
    DeserialElem (Seri := den_seri al rel t) sig (Some b2)
      (value_init (Seri := den_seri al rel t)) = Ret (Some b3, 0, v) /\ size b3 = 0.
Proof.
  intros Hal Hb Hc Hsig Hv Hmax. pose proof (den_codec al rel Hal t) as HC.
  destruct (ser_ok (Codec := HC) sig v b Hsig Hv Hb) as (b1 & H1 & Hb1 & Hc1); [by rewrite Hc|].
  rewrite Hc, app_nil_l in Hc1. pose proof (enc_pos (Codec := HC) v Hv) as Hpos.
  assert (m_pData b1 <> PNull) as Hp.
  { intros Hp. pose proof (wf_blk b1 (sb_wf _ Hb1)) as Hk. rewrite Hp in Hk.
    destruct (wf_win b1 (sb_wf _ Hb1)).
    pose proof (content_len b1 (sb_wf _ Hb1)) as Hl. rewrite Hc1 in Hl. lia. }
  destruct (rewind b1 (sb_wf _ Hb1)) as (b2 & ret & H2 & Hwf2 & _ & Hv2 & _ & Hs2 & _ & Heq).
  destruct (Heq Hp) as [_ ->]. rewrite Hc1 in Hv2.
  destruct (des_ok (Codec := HC) sig v b2 [] Hsig Hv Hwf2) as (b3 & H3 & Hb3);
    [by rewrite app_nil_r|].
  exists b1, b2, b3. split_and!; try done.
  rewrite <- (zlen_view b3) by apply Hb3. rewrite (ea_view _ _ _ Hb3), Hv2.
  rewrite zlen_zdrop by lia. lia.
Qed.

(** C37: the inner [ret] of the two vector routines never gets out.
    Whatever the element type: [SerializeArray] under the element limit
    returns success also when an element failed, and [DeserialArray] behind
    a header with legal numbers returns success also when an element failed,
    the elements took another number of bytes than the header says, or their
    number is above [MAX_ELEM_COUNT]. *)
Theorem array_errors_lost {T : Type} `{Seri T} (al : Z -> option bytes) (rel : bytes -> bytes)
    (sig s : signature) (l : list T) (b : CBuffer) (pb : BufPtr) (ret : Z) :
  strip "(" ")" sig = Some s ->
  (Z.of_nat (length l) < MAX_ELEM_COUNT ->
     SerializeArray al rel sig l (Some b) = Ret (pb, ret) -> ret = 0) /\
  (forall x y rest l', buf_wf b -> view b = word x ++ word y ++ rest ->
     0 <= x <= MAX_BYTES_PER_BUFFER -> 0 <= y < 2 ^ 32 ->
     DeserialArray sig (Some b) l = Ret (pb, ret, l') -> ret = 0).
Proof.
  intros Hs. split.
  - intros Hl Hser. unfold SerializeArray in Hser. rewrite Hs in Hser.
    destruct (Serialize_num al rel 4 0 (Some b)) as [[p0 r0]| |]; try done. cbn [obind] in Hser.
    destruct (Z.of_nat (length l) =? 0).
    { destruct (Serialize_num al rel 4 0 p0) as [[? ?]| |]; try done. by simplify_eq/=. }
    rewrite (proj2 (Z.leb_gt _ _)) in Hser by done.
    destruct (Serialize_num al rel 4 _ p0) as [[p1 r1]| |]; try done. cbn [obind] in Hser.
    destruct (SerialElems s l p1) as [[p2 r2]| |]; try done. cbn [obind] in Hser.
    destruct (ERROR r2); [by simplify_eq|]. destruct p2 as [b2|]; [|done].
    destruct (patch_u32 _ _ b2); try done. by simplify_eq/=.
  - intros x y rest l' Hwf Hv Hx Hy Hdes. unfold DeserialArray in Hdes. rewrite Hs in Hdes.
    unfold MAX_BYTES_PER_BUFFER in Hx.
    destruct (header_ok b x y rest Hwf) as (He & H8 & b1 & b2 & H1 & H2 & _); [lia|lia|done|].
    rewrite He, (proj2 (Z.ltb_ge _ _)), H1 in Hdes by lia. cbn [obind] in Hdes.
    change (ERROR 0) with false in Hdes. cbv iota in Hdes.
    rewrite (proj2 (Z.ltb_ge _ _)), H2 in Hdes by (unfold MAX_BYTES_PER_BUFFER; lia).
    cbn [obind] in Hdes. change (ERROR 0) with false in Hdes. cbv iota in Hdes.
    destruct (_ || _); [by simplify_eq|]. destruct (_ <=? _); [by simplify_eq|].
    destruct (DeserialElems _ _ _) as [[[p3 r3] l3]| |]; try done. by simplify_eq/=.
Qed.

(** C35: [DeserialMap] does report them: behind the same header a
    success means that as many bytes were read as the header says, unless the
    map is empty. *)
Theorem map_errors_reported {K V : Type} `{KeyLess K} `{Seri K} `{Seri V} (sig : signature)
    (c : ascii) (s : signature) (m m' : stdmap K V) (b b' : CBuffer) (x y : Z) (rest : bytes) :
  strip "[" "]" sig = Some (c :: s) -> buf_wf b -> view b = word x ++ word y ++ rest ->
  0 <= x <= MAX_BYTES_PER_BUFFER -> 0 < y < 2 ^ 32 ->
  DeserialMap sig (Some b) m = Ret (Some b', 0, m') ->
  y < MAX_ELEM_COUNT /\ u32 (m_dwOffset b' - m_dwOffset b - 8) = x /\
  exists b2, eaten b b2 8 /\
    DeserialPairs (Z.to_nat y) [c] s (Some b2) (pairs m) = Ret (Some b', 0, pairs m').
Proof.
  intros Hs Hwf Hv Hx Hy Hdes. unfold DeserialMap in Hdes. rewrite Hs in Hdes.
  cbn [key_value_sig obind] in Hdes. unfold MAX_BYTES_PER_BUFFER in Hx.
  destruct (header_ok b x y rest Hwf) as (He & H8 & b1 & b2 & H1' & H2 & Hb2 & _); [lia|lia|done|].
  rewrite He, (proj2 (Z.ltb_ge _ _)), H1' in Hdes by lia. cbn [obind] in Hdes.
  change (ERROR 0) with false in Hdes. cbv iota in Hdes.
  rewrite (proj2 (Z.ltb_ge _ _)), H2 in Hdes by (unfold MAX_BYTES_PER_BUFFER; lia).
  cbn [obind] in Hdes. change (ERROR 0) with false in Hdes. cbv iota in Hdes.
  rewrite (proj2 (Z.eqb_neq _ _)) in Hdes by lia.
  destruct (Z.leb_spec MAX_ELEM_COUNT y); [by simplify_eq|].
  destruct (DeserialPairs _ _ _ _ _) as [[[p3 r3] m3]| |] eqn:Hp; try done. cbn [obind] in Hdes.
  destruct (ERROR r3) eqn:Hr3; [simplify_eq; done|].
  destruct (Z.eqb_spec (u32 (buf_offset p3 - m_dwOffset b - u32 (buf_offset (Some b2) - m_dwOffset b))) x)
    as [Heq|]; [|done]. cbn [negb] in Hdes. simplify_eq. split_and!; [done| |by exists b2].
  cbn [buf_offset]. rewrite (ea_off _ _ _ Hb2), (u32_small (_ + 8 - _)) by lia. f_equal. lia.
Qed.

(** A string whose length field says more than there is is
    taken as far as it goes, and reported as a success. *)
Theorem string_truncated (b : CBuffer) (n : Z) (s val : bytes) :
  buf_wf b -> view b = word n ++ s -> zlen s < n < 2 ^ 32 ->
  exists b', Deserialize_string (Some b) val = Ret (Some b', 0, s) /\ size b' = 0.
Proof.
  intros Hwf Hv Hn. pose proof (zlen_nonneg s). pose proof (size_view b _ _ Hwf Hv) as Hs.
  rewrite zlen_word in Hs. unfold Deserialize_string. rewrite empty_false by (done || lia).
  destruct (Deserialize_word_ok n b s Hwf) as (b1 & -> & Hb1 & Hv1); [lia|done|].
  cbn [obind]. change (ERROR 0) with false. cbv iota. rewrite (proj2 (Z.eqb_neq _ _)) by lia.
  pose proof (ea_wf _ _ _ Hb1) as Hwf1.
  assert (size b1 = zlen s) as Hs1 by (by rewrite <- (zlen_view b1 Hwf1), Hv1).
  rewrite Z.min_r, Hs1 by lia. rewrite (read_view b1 s []) by (by rewrite ?app_nil_r). cbn [obind].
  destruct (Z.eqb_spec (zlen s) 0) as [Hz|Hz].
  - destruct (wf_win b1 Hwf1) as [Hw1 Hw2]. unfold IncOffset. rewrite Hz, Z.add_0_r, u32_small by lia.
    destruct (SetOffset_ok b1 (m_dwOffset b1) Hwf1) as [-> _]; [|lia|].
    + intros Hp. pose proof (ea_block _ _ _ Hb1) as Hbl. unfold block at 1 in Hbl. rewrite Hp in Hbl.
      pose proof (zlen_block b Hwf) as Hzb. rewrite <- Hbl in Hzb. change (zlen []) with 0 in Hzb.
      destruct (wf_win b Hwf). rewrite size_wf in Hs by done. lia.
    + exists (set_off (m_dwOffset b1) b1). split; [done|]. by rewrite set_off_id, Hs1.
  - destruct (IncOffset_ok b1 (zlen s) Hwf1) as (b2 & -> & Hb2); [lia|lia|].
    exists b2. split; [done|]. rewrite <- (zlen_view b2) by apply Hb2.
    rewrite (ea_view _ _ _ Hb2), Hv1, zlen_zdrop by lia. lia.
Qed.

(** A byte array whose length field says more than there is:
    the copy does not stop at the window.  As long as the block is long
    enough, it succeeds with the bytes behind the window, and since the
    offset cannot pass the tail, the payload is left in the buffer to be read
    again; otherwise the block is left. *)
Theorem bytes_overread (b : CBuffer) (n : Z) (s : bytes) :
  buf_wf b -> view b = word n ++ s -> zlen s < n <= MAX_BYTES_PER_BUFFER ->
  m_dwOffset b + 4 + n < 2 ^ 32 ->
  (m_dwOffset b + 4 + n <= zlen (block b) ->
     exists b', Deserialize_bytes (Some b) None =
         Ret (Some b', 0, Some (ztake n (zdrop (m_dwOffset b + 4) (block b)))) /\ view b' = s) /\
  (zlen (block b) < m_dwOffset b + 4 + n -> Deserialize_bytes (Some b) None = Undef).
Proof.
  intros Hwf Hv Hn Hov. pose proof (zlen_nonneg s). unfold MAX_BYTES_PER_BUFFER in Hn.
  destruct (Deserialize_word_ok n b s Hwf) as (b1 & Hd & Hb1 & Hv1); [lia|done|].
  unfold Deserialize_bytes. rewrite Hd. cbn [obind]. change (ERROR 0) with false. cbv iota.
  rewrite (proj2 (Z.eqb_neq _ _)) by lia. unfold AppendView, BUF_MAX_SIZE, MAX_BYTES_PER_BUFFER.
  rewrite (proj2 (Z.ltb_ge _ _)), (proj2 (Z.eqb_neq _ _)) by lia. cbn [orb].
  rewrite (proj2 (Z.ltb_ge _ _)) by (change (zlen []) with 0; lia).
  rewrite (ea_block _ _ _ Hb1), (ea_off _ _ _ Hb1). pose proof (ea_wf _ _ _ Hb1) as Hwf1.
  split; intros Hblk.
  - rewrite read_ok by lia. cbn [obind]. change (ERROR 0) with false. cbv iota.
    destruct (wf_win b1 Hwf1) as [Hw1 Hw2].
    assert (size b1 = zlen s) as Hs1 by (by rewrite <- (zlen_view b1 Hwf1), Hv1).
    rewrite size_wf in Hs1 by done.
    unfold IncOffset, SetOffset. rewrite (wf_mem b1 Hwf1). cbn [Z.eqb DataTypeMem negb].
    destruct (m_pData b1); [by exists b1|..].
    all: rewrite (ea_off _ _ _ Hb1) in *; destruct (wf_win b Hwf).
    all: rewrite u32_small, (proj2 (Z.ltb_lt _ _)) by lia; by exists b1.
  - unfold read. by rewrite (proj2 (Z.leb_gt _ _)) by lia.
Qed.

(** C34: [APPEND] ignores the status of [Append].  A string whose
    length fits below [MAX_BYTES_PER_BUFFER] but whose bytes do not fit behind
    what was written is reported as written; only its length is there, and
    the write position is back at the start of the buffer. *)
Theorem string_dropped (al : Z -> option bytes) (rel : bytes -> bytes) (b : CBuffer) (s : bytes) :
  al_ok al -> ser_buf b -> 0 < zlen s < MAX_BYTES_PER_BUFFER ->
  zlen (content b) + 4 <= MAX_BYTES_PER_BUFFER < zlen (content b) + 4 + zlen s ->
  exists b', Serialize_string al rel s (Some b) = Ret (Some b', 0) /\
    view b' = content b ++ word (zlen s) /\ m_dwOffset b' = 0.
Proof.
  intros Hal Hb Hs Hmax. unfold Serialize_string. unfold MAX_BYTES_PER_BUFFER in *.
  rewrite u32_small, (proj2 (Z.leb_gt _ _)) by (unfold MAX_BYTES_PER_BUFFER; lia).
  destruct (Serialize_word_ok al rel Hal (zlen s) b Hb) as (b1 & -> & Hb1 & Hc1);
    [lia|unfold MAX_BYTES_PER_BUFFER; lia|].
  cbn [obind]. rewrite (proj2 (Z.ltb_lt _ _)) by lia. unfold APPEND.
  destruct (rewind b1 (sb_wf _ Hb1)) as (b2 & ret & -> & Hwf2 & Hnf2 & Hv2 & _ & Hs2 & Ho2 & _).
  rewrite (sb_nofree _ Hb1) in Hnf2.
  assert (zlen (content b1) = zlen (content b) + 4) as Hl by (by rewrite Hc1, zlen_app, zlen_word).
  pose proof (content_len b1 (sb_wf _ Hb1)) as Hl1. pose proof (zlen_nonneg (content b)).
  destruct (Append_fails al rel b2 (Some s) (zlen s) Hwf2 Hnf2) as [_ Hf]; [lia|].
  rewrite Hf by (done || unfold BUF_MAX_SIZE, MAX_BYTES_PER_BUFFER; lia).
  cbn [obind]. rewrite (ser_off b1 Hb1), u32_small by lia.
  exists b2. split_and!; [|by rewrite Hv2|done]. unfold SetOffset.
  rewrite (wf_mem b2 Hwf2). cbn [Z.eqb DataTypeMem negb].
  rewrite size_wf in Hs2 by done. destruct (m_pData b2); [done|..].
  all: by rewrite (proj2 (Z.ltb_lt _ _)) by lia.
Qed.

(** ** Witnesses and examples *)

Lemma fresh_ser : ser_buf fresh.
Proof. split; [exact fresh_wf|reflexivity|reflexivity]. Qed.

Lemma t_ex_sig : sig_ok (Format := den_format t_ex) (ascii_sig "[s(n)]").
Proof.
  exists "s"%char, (ascii_sig "(n)"). split_and!; [done| |done].
  exists (ascii_sig "n"). done.
Qed.

Lemma v_ex_valid : valid (Format := den_format t_ex) v_ex.
Proof.
  assert (forall z, -32768 <= z < 32768 -> valid (Format := format_cint (w := 2) (sg := true)) (CInt z))
    as Hint by (intros z Hz; split; [lia|exact Hz]).
  cbn [t_ex v_ex den_format kden_format valid format_map format_list pairs length]. split_and!.
  - apply Forall_cons; split; [|apply Forall_cons; split; [|apply Forall_nil_2]].
    + split; [done|]. split.
      * apply Forall_cons; split; [by apply Hint|]. apply Forall_cons; split; [by apply Hint|].
        apply Forall_nil_2.
      * split; [done|]. vm_compute. congruence.
    + split; [done|]. split; [apply Forall_nil_2|]. split; [done|]. vm_compute. congruence.
  - repeat constructor.
  - split; [done|]. vm_compute. congruence.
Qed.

Lemma seri_roundtrip_witness :
  exists b1 b2 b3,
    SerialElem (Seri := den_seri al_aa no_rel t_ex) (ascii_sig "[s(n)]") v_ex (Some fresh) =
      Ret (Some b1, 0) /\
    view b2 = enc (Format := den_format t_ex) v_ex /\
    DeserialElem (Seri := den_seri al_aa no_rel t_ex) (ascii_sig "[s(n)]") (Some b2)
      (value_init (Seri := den_seri al_aa no_rel t_ex)) = Ret (Some b3, 0, v_ex).
Proof.
  destruct (seri_roundtrip al_aa no_rel t_ex (ascii_sig "[s(n)]") v_ex fresh al_aa_ok fresh_ser
    eq_refl t_ex_sig v_ex_valid) as (b1 & b2 & b3 & H1 & _ & H2 & H3 & _).
  - vm_compute. congruence.
  - exists b1, b2, b3. exact (conj H1 (conj H2 H3)).
Defined.

(** The bytes on the wire. *)
Example v_ex_bytes :
  enc (Format := den_format t_ex) v_ex =
    [0; 0; 0; 31; 0; 0; 0; 2;
     0; 0; 0; 1; 97; 0; 0; 0; 4; 0; 0; 0; 2; 0; 1; 255; 254;
     0; 0; 0; 2; 97; 98; 0; 0; 0; 0; 0; 0; 0; 0].
Proof. vm_compute. reflexivity. Qed.

(** A vector of [gint8]: no element can be written, and the vector is. *)
Lemma array_errors_lost_witness :
  SerialElems (H := seri_gint8) (ascii_sig "y") [GInt8 1; GInt8 2] (Some fresh) =
    Ret (Some fresh, - ENOTSUP) /\
  exists pb, SerializeArray (H := seri_gint8) al_aa no_rel (ascii_sig "(y)") [GInt8 1; GInt8 2]
    (Some fresh) = Ret (pb, 0).
Proof.
  split; [reflexivity|].
  destruct (SerializeArray (H := seri_gint8) al_aa no_rel (ascii_sig "(y)") [GInt8 1; GInt8 2]
    (Some fresh)) as [[pb ret]| |] eqn:He; [|vm_compute in He; discriminate He..].
  assert (strip "(" ")" (ascii_sig "(y)") = Some (ascii_sig "y")) as Hs by reflexivity.
  destruct (array_errors_lost (H := seri_gint8) al_aa no_rel _ _ [GInt8 1; GInt8 2] fresh pb ret Hs)
    as [Hser _].
  exists pb. rewrite (Hser ltac:(reflexivity) He). reflexivity.
Defined.

Lemma map_errors_reported_witness :
  exists b' m', map_read = Ret (Some b', 0, m') /\ pairs m' = [(CInt 5, CInt 6)] /\
    u32 (m_dwOffset b' - m_dwOffset (loaded map_bytes) - 8) = 2.
Proof.
  destruct map_read as [[[[b'|] ret] m']| |] eqn:He; [|vm_compute in He; discriminate He..].
  assert (ret = 0) as -> by (vm_compute in He; congruence).
  assert (pairs m' = [(CInt 5, CInt 6)]) as Hm by (vm_compute in He; injection He as _ <-; reflexivity).
  assert (buf_wf (loaded map_bytes)) as Hwf by (apply buf_wfb_ok; vm_compute; reflexivity).
  destruct (map_errors_reported (H0 := u8_seri) (H1 := u8_seri) (ascii_sig "[yy]") "y"%char
    (ascii_sig "y") (SMap []) m' (loaded map_bytes) b' 2 1 [5; 6] eq_refl Hwf) as (_ & Hx & _).
  - vm_compute. reflexivity.
  - split; vm_compute; congruence.
  - split; vm_compute; congruence.
  - exact He.
  - exists b', m'. exact (conj eq_refl (conj Hm Hx)).
Defined.

Example map_short :
  match DeserialMap (H0 := u8_seri) (H1 := u8_seri) (ascii_sig "[yy]")
          (Some (loaded [0; 0; 0; 4; 0; 0; 0; 2; 5; 6])) (SMap []) with
  | Ret (_, ret, _) => ret = - EINVAL
  | _ => False
  end.
Proof. vm_compute. reflexivity. Qed.

Lemma string_truncated_witness :
  exists b', Deserialize_string (Some (loaded [0; 0; 0; 9; 72; 105])) [] = Ret (Some b', 0, [72; 105]).
Proof.
  assert (buf_wf (loaded [0; 0; 0; 9; 72; 105])) as Hwf by (apply buf_wfb_ok; vm_compute; reflexivity).
  destruct (string_truncated (loaded [0; 0; 0; 9; 72; 105]) 9 [72; 105] [] Hwf) as (b' & H & _).
  - vm_compute. reflexivity.
  - split; vm_compute; congruence.
  - exists b'. exact H.
Defined.

(** Two bytes of payload, six announced: the rest of [m_arrBuf] comes along. *)
Lemma bytes_overread_witness :
  exists b', Deserialize_bytes (Some (loaded [0; 0; 0; 6; 1; 2])) None =
    Ret (Some b', 0, Some [1; 2; 0; 0; 0; 0]) /\ view b' = [1; 2].
Proof.
  assert (buf_wf (loaded [0; 0; 0; 6; 1; 2])) as Hwf by (apply buf_wfb_ok; vm_compute; reflexivity).
  destruct (bytes_overread (loaded [0; 0; 0; 6; 1; 2]) 6 [1; 2] Hwf) as [H _].
  - vm_compute. reflexivity.
  - split; vm_compute; congruence.
  - vm_compute. reflexivity.
  - apply H. vm_compute. congruence.
Defined.

Lemma long_string_len : zlen long_string = MAX_BYTES_PER_BUFFER - 1.
Proof.
  unfold zlen, long_string. rewrite repeat_length. apply Z2Nat.id.
  unfold MAX_BYTES_PER_BUFFER. lia.
Qed.

Lemma string_dropped_witness :
  exists b', Serialize_string al_aa no_rel long_string (Some two_words) = Ret (Some b', 0) /\
    view b' = [0; 0; 0; 0; 0; 0; 0; 0] ++ word (MAX_BYTES_PER_BUFFER - 1).
Proof.
  assert (ser_buf two_words) as Hb.
  { split; [apply buf_wfb_ok; vm_compute; reflexivity|vm_compute; reflexivity|vm_compute; reflexivity]. }
  assert (content two_words = [0; 0; 0; 0; 0; 0; 0; 0]) as Hc by (vm_compute; reflexivity).
  destruct (string_dropped al_aa no_rel two_words long_string al_aa_ok Hb) as (b' & H & Hv & _).
  - rewrite long_string_len. unfold MAX_BYTES_PER_BUFFER. lia.
  - rewrite long_string_len, Hc. change (zlen [0; 0; 0; 0; 0; 0; 0; 0]) with 8.
    unfold MAX_BYTES_PER_BUFFER. lia.
  - exists b'. rewrite Hc, long_string_len in Hv. exact (conj H Hv).
Defined.
