(* ===== verification/TaskGroup.v ===== *)
(** * Serial task groups: [CIfTaskGroup] of [ipc/iftasks.cpp], [ipc/iftasks.h]

    A task group runs the tasks of its queue one after the other, as an AND
    group (until the first failure), an OR group (until the first success) or
    all of them.  A task may finish while it is called, or answer
    [STATUS_PENDING] and finish later, when it notifies the group through
    [OnChildComplete] and the group has itself rescheduled.

    The group releases its lock while it calls a task.  What happens to it
    meanwhile is the argument [script] of the loops: for every call, what
    [GetError] of the task answers afterwards and the operations made on the
    group before the lock is taken again.  When the script ends, the next task
    pends.  Tasks are addresses in [Z], [0] being the empty pointer; the calls
    made to tasks are recorded, in order. *)

From Stdlib Require Import ZArith Lia.
From S2P Require Import Prelude.
Local Open Scope rpcf_scope.

(** ** Enumerations *)

Inductive EnumIfState :=
  | stateStopped | stateStarting | stateStarted | stateConnected | stateRecovery
  | statePaused | stateUnknown | stateStopping | statePausing | stateResuming
  | stateInvalid | stateIoDone | stateStartFailed.
#[export] Instance EnumIfState_eq_dec : EqDecision EnumIfState.
Proof. solve_decision. Defined.

Inductive EnumLogicOp := logicAND | logicOR | logicNONE.
#[export] Instance EnumLogicOp_eq_dec : EqDecision EnumLogicOp.
Proof. solve_decision. Defined.

Inductive EnumHeadState := waitStart | waitComplete | waitRunning.
#[export] Instance EnumHeadState_eq_dec : EqDecision EnumHeadState.
Proof. solve_decision. Defined.

(** The contexts a group calls its tasks with, and is cancelled with. *)
Inductive EnumEventId := eventZero | eventCancelTask | eventTimeoutCancel | eventCancelInstead.
#[export] Instance EnumEventId_eq_dec : EqDecision EnumEventId.
Proof. solve_decision. Defined.

Definition STATUS_MORE_PROCESS_NEEDED : Z := 0x10002.
Definition ERROR_CANCEL : Z := - ECANCELED.
Definition ERROR_CANCEL_INSTEAD : Z := s32 0x8001000f.

(** ** State *)

Record CIfTaskGroup := mkGroup {
  m_iTaskRel : EnumLogicOp;
  m_iTaskState : EnumIfState;
  m_bRunning : bool;
  m_bCanceling : bool;
  m_bNoSched : bool;
  m_byHeadState : EnumHeadState;
  m_queTasks : list Z;
  m_vecRetVals : list Z;
}.

Definition NewTaskGroup : CIfTaskGroup :=
  mkGroup logicAND stateStarting false false false waitStart [] [].

Definition SetRelation (iOp : EnumLogicOp) (g : CIfTaskGroup) : CIfTaskGroup :=
  mkGroup iOp (m_iTaskState g) (m_bRunning g) (m_bCanceling g) (m_bNoSched g)
    (m_byHeadState g) (m_queTasks g) (m_vecRetVals g).
Definition SetTaskState (s : EnumIfState) (g : CIfTaskGroup) : CIfTaskGroup :=
  mkGroup (m_iTaskRel g) s (m_bRunning g) (m_bCanceling g) (m_bNoSched g)
    (m_byHeadState g) (m_queTasks g) (m_vecRetVals g).
Definition SetRunning (b : bool) (g : CIfTaskGroup) : CIfTaskGroup :=
  mkGroup (m_iTaskRel g) (m_iTaskState g) b (m_bCanceling g) (m_bNoSched g)
    (m_byHeadState g) (m_queTasks g) (m_vecRetVals g).
Definition SetNoSched (b : bool) (g : CIfTaskGroup) : CIfTaskGroup :=
  mkGroup (m_iTaskRel g) (m_iTaskState g) (m_bRunning g) (m_bCanceling g) b
    (m_byHeadState g) (m_queTasks g) (m_vecRetVals g).
Definition SetHeadState (s : EnumHeadState) (g : CIfTaskGroup) : CIfTaskGroup :=
  mkGroup (m_iTaskRel g) (m_iTaskState g) (m_bRunning g) (m_bCanceling g) (m_bNoSched g)
    s (m_queTasks g) (m_vecRetVals g).
Definition set_queue (q : list Z) (g : CIfTaskGroup) : CIfTaskGroup :=
  mkGroup (m_iTaskRel g) (m_iTaskState g) (m_bRunning g) (m_bCanceling g) (m_bNoSched g)
    (m_byHeadState g) q (m_vecRetVals g).
Definition set_retvals (v : list Z) (g : CIfTaskGroup) : CIfTaskGroup :=
  mkGroup (m_iTaskRel g) (m_iTaskState g) (m_bRunning g) (m_bCanceling g) (m_bNoSched g)
    (m_byHeadState g) (m_queTasks g) v.
Definition SetCanceling (b : bool) (g : CIfTaskGroup) : CIfTaskGroup :=
  SetRunning (negb b)
    (mkGroup (m_iTaskRel g) (m_iTaskState g) (m_bRunning g) b (m_bNoSched g)
       (m_byHeadState g) (m_queTasks g) (m_vecRetVals g)).

(** ** Operations *)

Definition IsStopped (s : EnumIfState) : bool :=
  bool_decide (s = stateStopped) || bool_decide (s = stateStopping).

Definition InsertTask (pTask : Z) (g : CIfTaskGroup) : CIfTaskGroup * Z :=
  if pTask =? 0 then (g, - EINVAL)
  else if negb (bool_decide (m_iTaskState g = stateStarting)) then (g, ERROR_STATE)
  else (set_queue (pTask :: m_queTasks g) g, 0).

Definition AppendTask (pTask : Z) (g : CIfTaskGroup) : CIfTaskGroup * Z :=
  if pTask =? 0 then (g, - EINVAL)
  else if IsStopped (m_iTaskState g) then (g, ERROR_STATE)
  else if bool_decide (m_iTaskState g = stateStarted) && negb (m_bRunning g)
  then (g, ERROR_STATE)
  else (set_queue (m_queTasks g ++ [pTask]) g, 0).

(** [std::find] and [erase]: the first occurrence goes. *)
Fixpoint erase_first (x : Z) (q : list Z) : list Z :=
  match q with
  | [] => []
  | y :: q => if y =? x then q else y :: erase_first x q
  end.

(** [RemoveTask] answers [false], that is [0], for an empty task or queue. *)
Definition RemoveTask (pTask : Z) (g : CIfTaskGroup) : CIfTaskGroup * Z :=
  if pTask =? 0 then (g, 0)
  else match m_queTasks g with
  | [] => (g, 0)
  | q => if bool_decide (pTask ∈ q) then (set_queue (erase_first pTask q) g, 0)
         else (g, - ENOENT)
  end.

(** What the I/O manager answers when the group wants to be rescheduled: there
    is no manager, or [RescheduleTask] has a status. *)
Inductive mgr_ans := NoMgr (ret : Z) | Rescheduled (ret : Z).
Definition mgr_ok (m : mgr_ans) : bool :=
  match m with NoMgr _ => false | Rescheduled ret => negb (ERROR ret) end.

(** A child reports that it is done with [iRet].  The last component tells
    whether the group is rescheduled. *)
Definition OnChildComplete (mgr : mgr_ans) (iRet pChild : Z) (g : CIfTaskGroup)
    : CIfTaskGroup * Z * bool :=
  if pChild =? 0 then (g, - EINVAL, false)
  else match m_queTasks g with
  | [] => (g, - ENOENT, false)
  | pHead :: rest =>
      if negb (pChild =? pHead) then ((RemoveTask pChild g).1, - ENOENT, false)
      else
        let g := set_retvals (m_vecRetVals g ++ [iRet]) (set_queue rest g) in
        if m_bNoSched g || IsStopped (m_iTaskState g) then (g, 0, false)
        else if negb (bool_decide (m_byHeadState g = waitComplete)) then (g, 0, false)
        else match mgr with
        | NoMgr ret => (g, ret, false)
        | Rescheduled ret => (SetHeadState waitRunning g, ret, negb (ERROR ret))
        end
  end.

(** What others do to the group while it has released its lock.  A child that
    reports then finds [m_bNoSched] set, so the manager is not asked. *)
Inductive win_op :=
  | WDone (iRet t : Z)
  | WAppend (t : Z)
  | WInsert (t : Z)
  | WRemove (t : Z).

Definition apply_op (g : CIfTaskGroup) (o : win_op) : CIfTaskGroup :=
  match o with
  | WDone iRet t => (OnChildComplete (Rescheduled 0) iRet t g).1.1
  | WAppend t => (AppendTask t g).1
  | WInsert t => (InsertTask t g).1
  | WRemove t => (RemoveTask t g).1
  end.

(** [SetNoSched( true )], the call without the lock, [SetNoSched( false )]. *)
Definition window (ops : list win_op) (g : CIfTaskGroup) : CIfTaskGroup :=
  SetNoSched false (foldl apply_op (SetNoSched true g) ops).

Record run_ans := mkAns { ra_err : Z; ra_ops : list win_op }.

(** The loops drop the task that was just run when it is still in front, and
    empty tasks. *)
Fixpoint skip_prev (pPrevTask : Z) (q : list Z) : list Z :=
  match q with
  | [] => []
  | t :: q' =>
      if (negb (pPrevTask =? 0) && (pPrevTask =? t)) || (t =? 0)
      then skip_prev pPrevTask q' else q
  end.

Definition front_is (t : Z) (q : list Z) : bool :=
  match q with [] => false | t' :: _ => t' =? t end.

(** The status that decides whether a group of relation [rel] goes on. *)
Definition decisive (rel : EnumLogicOp) (ret : Z) : bool :=
  match rel with
  | logicAND => ERROR ret
  | logicOR => negb (ERROR ret)
  | logicNONE => false
  end.

Definition nonempty (q : list Z) : bool := match q with [] => false | _ => true end.

(** The loop of [RunTaskInternal]. *)
Fixpoint RunLoop (script : list run_ans) (pPrevTask ret : Z) (g : CIfTaskGroup)
    : outcome (CIfTaskGroup * Z * list (Z * EnumEventId)) :=
  match skip_prev pPrevTask (m_queTasks g) with
  | [] => Ret (set_queue [] g, ret, [])
  | pTask :: rest =>
      let g := set_queue (pTask :: rest) g in
      match script with
      | [] => Ret (SetHeadState waitComplete (window [] g), STATUS_PENDING,
                   [(pTask, eventZero)])
      | a :: script =>
          let g := window (ra_ops a) g in
          let ret := if ra_err a =? STATUS_MORE_PROCESS_NEEDED
                     then STATUS_PENDING else ra_err a in
          let! ret :=
            (if negb (front_is pTask (m_queTasks g)) && (ret =? STATUS_PENDING)
             then match last (m_vecRetVals g) with Some c => Ret c | None => Undef end
             else Ret ret) in
          if ret =? STATUS_PENDING
          then Ret (SetHeadState waitComplete g, ret, [(pTask, eventZero)])
          else if decisive (m_iTaskRel g) ret && nonempty (m_queTasks g)
          then Ret (g, ERROR_CANCEL_INSTEAD, [(pTask, eventZero)])
          else
            let! (g, ret, calls) := RunLoop script pTask ret g in
            Ret (g, ret, (pTask, eventZero) :: calls)
      end
  end.

Definition RunTaskInternal (script : list run_ans) (g : CIfTaskGroup)
    : outcome (CIfTaskGroup * Z * list (Z * EnumEventId)) :=
  if IsStopped (m_iTaskState g) then Ret (g, STATUS_PENDING, [])
  else if m_bCanceling g then Ret (g, STATUS_PENDING, [])
  else if negb (m_bRunning g) && bool_decide (m_iTaskState g = stateStarted)
  then Ret (g, STATUS_PENDING, [])
  else if m_bNoSched g then Ret (g, STATUS_PENDING, [])
  else
    let g := if bool_decide (m_iTaskState g = stateStarting)
             then SetRunning true (SetTaskState stateStarted g) else g in
    if bool_decide (m_byHeadState g = waitComplete) then Ret (g, STATUS_PENDING, [])
    else
      let stop g := SetTaskState stateStopping (SetRunning false g) in
      let iRet := last (m_vecRetVals g) in
      if match iRet with
         | Some iRet => decisive (m_iTaskRel g) iRet && nonempty (m_queTasks g)
         | None => false
         end
      then Ret (stop g, ERROR_CANCEL_INSTEAD, [])
      else
        let! (g, ret, calls) := RunLoop script 0 (default 0 iRet) g in
        if negb (ret =? STATUS_PENDING) then Ret (stop g, ret, calls)
        else Ret (g, ret, calls).

(** The loop of [OnCancel]; the script lists what happens during each call. *)
Fixpoint CancelLoop (fuel : nat) (script : list (list win_op)) (pPrevTask : Z)
    (g : CIfTaskGroup) : option (CIfTaskGroup * list (Z * EnumEventId)) :=
  match fuel with
  | O => None
  | S fuel =>
      match skip_prev pPrevTask (m_queTasks g) with
      | [] => Some (set_queue [] g, [])
      | pTask :: rest =>
          let g := window (default [] (head script)) (set_queue (pTask :: rest) g) in
          match CancelLoop fuel (tail script) pTask g with
          | Some (g, calls) => Some (g, (pTask, eventCancelTask) :: calls)
          | None => None
          end
      end
  end.

(** [None] when the group is at work in another thread: [OnCancel] then
    sleeps and looks again. *)
Definition OnCancel (script : list (list win_op)) (dwContext : EnumEventId)
    (g : CIfTaskGroup) : option (CIfTaskGroup * Z * list (Z * EnumEventId)) :=
  if IsStopped (m_iTaskState g) && negb (bool_decide (dwContext = eventCancelInstead))
  then Some (g, STATUS_PENDING, [])
  else if m_bCanceling g then Some (g, STATUS_PENDING, [])
  else if m_bNoSched g then None
  else
    let g := SetRunning false (SetTaskState stateStopping (SetCanceling true g)) in
    let ret :=
      match last (m_vecRetVals g) with
      | Some c => if bool_decide (dwContext = eventCancelInstead) then c else - ECANCELED
      | None => - ECANCELED
      end in
    match CancelLoop (S (length (m_queTasks g))) script 0 g with
    | Some (g, calls) => Some (g, ret, calls)
    | None => None
    end.

Definition RunTask (script : list run_ans) (cscript : list (list win_op)) (g : CIfTaskGroup)
    : outcome (option (CIfTaskGroup * Z * list (Z * EnumEventId))) :=
  let! (g, ret, calls) := RunTaskInternal script g in
  if ret =? ERROR_CANCEL_INSTEAD
  then Ret (match OnCancel cscript eventCancelInstead g with
            | Some (g, ret, calls') => Some (g, ret, calls ++ calls')
            | None => None
            end)
  else Ret (Some (g, ret, calls)).

Definition OnRetry (script : list run_ans) (cscript : list (list win_op)) (g : CIfTaskGroup)
    : outcome (option (CIfTaskGroup * Z * list (Z * EnumEventId))) :=
  RunTask script cscript (set_retvals [] g).

(** ** Reference notions *)

(** What a group of relation [rel] is to answer when its tasks end with the
    codes [code]: it goes on until a decisive code or the end of the queue;
    [lastret] is the code of the last task so far. *)
Fixpoint group_result (rel : EnumLogicOp) (code : Z -> Z) (lastret : option Z)
    (q : list Z) : Z :=
  match q with
  | [] => default 0 lastret
  | t :: q =>
      match lastret with
      | Some c => if decisive rel c then c else group_result rel code (Some (code t)) q
      | None => group_result rel code (Some (code t)) q
      end
  end.

(** The tasks it is to start. *)
Fixpoint group_started (rel : EnumLogicOp) (code : Z -> Z) (q : list Z) : list Z :=
  match q with
  | [] => []
  | t :: q => t :: (if decisive rel (code t) then [] else group_started rel code q)
  end.

(** A task may finish inside the call, finish inside the call but after its
    status was read, or pend and finish later. *)
Inductive how := Sync | Race | Async.

Definition ans (code : Z -> Z) (mode : Z -> how) (t : Z) : run_ans :=
  match mode t with
  | Sync => mkAns (code t) [WDone (code t) t]
  | Race => mkAns STATUS_PENDING [WDone (code t) t]
  | Async => mkAns STATUS_PENDING []
  end.

(** The life of a group: run it; when it pends, its head task finishes, which
    has to get the group rescheduled; and so on until it answers. *)
Fixpoint drive (fuel : nat) (code : Z -> Z) (mode : Z -> how)
    (cscript : list (list win_op)) (g : CIfTaskGroup)
    : option (CIfTaskGroup * Z * list (Z * EnumEventId)) :=
  match fuel with
  | O => None
  | S fuel =>
      match RunTask (map (ans code mode) (m_queTasks g)) cscript g with
      | Ret (Some (g, ret, calls)) =>
          if negb (ret =? STATUS_PENDING) then Some (g, ret, calls)
          else match m_queTasks g with
          | [] => None
          | h :: _ =>
              match OnChildComplete (Rescheduled 0) (code h) h g with
              | (g, _, true) =>
                  match drive fuel code mode cscript g with
                  | Some (g, ret, calls') => Some (g, ret, calls ++ calls')
                  | None => None
                  end
              | _ => None
              end
          end
      | _ => None
      end
  end.

Definition code_ok (c : Z) : Prop :=
  c <> STATUS_PENDING /\ c <> STATUS_MORE_PROCESS_NEEDED /\ c <> ERROR_CANCEL_INSTEAD.

(** A group that may be run. *)
Definition runnable (g : CIfTaskGroup) : Prop :=
  (m_iTaskState g = stateStarting \/ m_iTaskState g = stateStarted /\ m_bRunning g = true) /\
  m_bCanceling g = false /\ m_bNoSched g = false /\ m_byHeadState g <> waitComplete.

Definition calls_of (e : EnumEventId) (l : list Z) : list (Z * EnumEventId) :=
  map (fun t => (t, e)) l.

(** ** Lemmas: cancelling *)

Lemma calls_of_inj e l l' : calls_of e l = calls_of e l' -> l = l'.
Proof.
  intros H. apply (f_equal (map fst)) in H. unfold calls_of in H. rewrite !map_map in H.
  simpl in H. by rewrite !map_id in H.
Qed.

Lemma erase_first_sublist x q : erase_first x q `sublist_of` q.
Proof.
  induction q as [|y q IH]; simpl; [constructor|].
  destruct (y =? x); [by constructor|by constructor].
Qed.

Lemma RemoveTask_same t g :
  let g' := (RemoveTask t g).1 in
  m_queTasks g' `sublist_of` m_queTasks g /\
  g' = set_queue (m_queTasks g') g.
Proof.
  unfold RemoveTask. destruct (t =? 0); [by destruct g|].
  destruct (m_queTasks g) as [|x q] eqn:Eq; [by destruct g; simpl in *; subst|].
  rewrite <- Eq. destruct (bool_decide _).
  - split; [apply erase_first_sublist|done].
  - by destruct g.
Qed.

(** A group that has stopped takes no new tasks. *)
Lemma apply_stopped g o :
  IsStopped (m_iTaskState g) = true ->
  let g' := apply_op g o in
  m_queTasks g' `sublist_of` m_queTasks g /\ m_iTaskState g' = m_iTaskState g /\
  m_bCanceling g' = m_bCanceling g.
Proof.
  intros Hs. destruct o as [c t|t|t|t]; simpl.
  - unfold OnChildComplete. destruct (t =? 0); [done|].
    destruct (m_queTasks g) as [|x q] eqn:Eq; [by simpl; rewrite Eq|].
    destruct (negb (t =? x)).
    + destruct (RemoveTask_same t g) as [Hq Hg]. rewrite Hg in *.
      simpl in *. by rewrite <- Eq.
    + simpl. rewrite Hs, orb_true_r. simpl. split; [by constructor|done].
  - unfold AppendTask. rewrite Hs. by destruct (t =? 0).
  - unfold InsertTask. destruct (t =? 0); [done|].
    case_bool_decide as Hst; [by rewrite Hst in Hs|done].
  - destruct (RemoveTask_same t g) as [Hq Hg]. rewrite Hg in *. done.
Qed.

Lemma window_stopped ops g :
  IsStopped (m_iTaskState g) = true ->
  m_queTasks (window ops g) `sublist_of` m_queTasks g /\
  m_iTaskState (window ops g) = m_iTaskState g /\
  m_bCanceling (window ops g) = m_bCanceling g.
Proof.
  intros Hs. unfold window. simpl.
  enough (forall h, IsStopped (m_iTaskState h) = true ->
    let g' := foldl apply_op h ops in
    m_queTasks g' `sublist_of` m_queTasks h /\ m_iTaskState g' = m_iTaskState h /\
    m_bCanceling g' = m_bCanceling h) as H by (exact (H (SetNoSched true g) Hs)).
  clear. induction ops as [|o ops IH]; intros h Hs; simpl; [done|].
  destruct (apply_stopped h o Hs) as (Hq & Hst & Hc).
  destruct (IH (apply_op h o)) as (Hq' & Hst' & Hc'); [by rewrite Hst|].
  split_and!; [by etrans|congruence|congruence].
Qed.

Lemma skip_prev_sublist p q : skip_prev p q `sublist_of` q.
Proof.
  induction q as [|t q IH]; simpl; [constructor|].
  destruct ((_ && _) || _); [by constructor|done].
Qed.

Lemma skip_prev_head p q t q' :
  skip_prev p q = t :: q' -> t <> 0 /\ (p <> 0 -> p <> t).
Proof.
  induction q as [|x q IH]; simpl; [done|].
  destruct ((_ && _) || _) eqn:E; [done|]. intros [= -> ->].
  apply orb_false_iff in E as [E1 E2]. apply Z.eqb_neq in E2.
  split; [done|]. intros Hp ->. apply andb_false_iff in E1 as [E1|E1].
  - rewrite negb_false_iff, Z.eqb_eq in E1. done.
  - rewrite Z.eqb_refl in E1. done.
Qed.

Lemma skip_prev_cons p q : p <> 0 -> skip_prev p (p :: q) = skip_prev p q.
Proof.
  intros Hp. simpl. rewrite Z.eqb_refl. by destruct (Z.eqb_spec p 0).
Qed.

Lemma skip_prev_id p q : (p ∉ q) -> (0 ∉ q) -> skip_prev p q = q.
Proof.
  destruct q as [|x q]; [done|]. intros Hp H0. simpl.
  apply not_elem_of_cons in Hp as [Hp _], H0 as [H0 _].
  destruct (Z.eqb_spec p x); [done|]. destruct (Z.eqb_spec x 0); [done|].
  by rewrite andb_false_r.
Qed.

(** What follows a task that was run once it has been dropped. *)
Lemma skip_prev_after t q rest :
  t <> 0 -> q `sublist_of` t :: rest -> skip_prev t q `sublist_of` rest.
Proof.
  intros Ht Hq. apply sublist_cons_r in Hq as [Hq|(q' & -> & Hq)].
  - etrans; [apply skip_prev_sublist|done].
  - rewrite skip_prev_cons by done. etrans; [apply skip_prev_sublist|done].
Qed.

Lemma CancelLoop_spec fuel script p g :
  IsStopped (m_iTaskState g) = true ->
  (length (skip_prev p (m_queTasks g)) < fuel)%nat ->
  exists g' l, CancelLoop fuel script p g = Some (g', calls_of eventCancelTask l) /\
    m_queTasks g' = [] /\ m_iTaskState g' = m_iTaskState g /\
    m_bCanceling g' = m_bCanceling g /\
    l `sublist_of` skip_prev p (m_queTasks g).
Proof.
  revert script p g. induction fuel as [|fuel IH]; intros script p g Hs Hf; [lia|].
  cbn [CancelLoop]. destruct (skip_prev p (m_queTasks g)) as [|t rest] eqn:E.
  { by exists (set_queue [] g), []. }
  destruct (skip_prev_head _ _ _ _ E) as [Ht _].
  destruct (window_stopped (default [] (head script)) (set_queue (t :: rest) g) Hs)
    as (Hq & Hst & Hc).
  generalize dependent (window (default [] (head script)) (set_queue (t :: rest) g)).
  intros w Hq Hst Hc. simpl in Hq, Hst, Hc.
  pose proof (skip_prev_after t (m_queTasks w) rest Ht Hq) as Hsub.
  destruct (IH (tail script) t w) as (g' & l & HE & Hq' & Hst' & Hc' & Hl).
  { by rewrite Hst. }
  { apply sublist_length in Hsub. simpl in Hf. lia. }
  rewrite HE. exists g', (t :: l). split_and!; [done|done|congruence|congruence|].
  constructor. by etrans.
Qed.

(** A script under which nothing happens leaves no task out. *)
Lemma CancelLoop_quiet fuel p g :
  (0 ∉ m_queTasks g) -> (p ∉ m_queTasks g) -> NoDup (m_queTasks g) ->
  (length (m_queTasks g) < fuel)%nat ->
  exists g', CancelLoop fuel [] p g = Some (g', calls_of eventCancelTask (m_queTasks g)) /\
    m_queTasks g' = [].
Proof.
  enough (forall q, m_queTasks g = q \/ m_queTasks g = p :: q /\ p <> 0 ->
    (0 ∉ q) -> (p ∉ q) -> NoDup q -> (length q < fuel)%nat ->
    exists g', CancelLoop fuel [] p g = Some (g', calls_of eventCancelTask q) /\
      m_queTasks g' = []) as H by eauto.
  revert p g. induction fuel as [|fuel IH]; intros p g q Hg H0 Hp Hn Hf; [lia|].
  assert (skip_prev p (m_queTasks g) = q) as E.
  { destruct Hg as [-> | [-> Hp0]]; [by apply skip_prev_id|].
    rewrite skip_prev_cons by done. by apply skip_prev_id. }
  cbn [CancelLoop]. rewrite E. destruct q as [|t q]; [by exists (set_queue [] g)|].
  apply not_elem_of_cons in H0 as [H0 H0'], Hp as [Hp Hp'].
  apply NoDup_cons in Hn as [Hn Hn']. simpl in Hf.
  destruct (IH t (window [] (set_queue (t :: q) g)) q) as (g' & HE & Hq');
    [by right|done|done|done|lia|].
  exists g'. simpl in *. by rewrite HE.
Qed.

(** ** Lemmas: running *)

(** A child that finishes while the group is at work. *)
Lemma window_done c t q g :
  t <> 0 -> m_queTasks g = t :: q ->
  window [WDone c t] g =
  SetNoSched false (set_retvals (m_vecRetVals g ++ [c]) (set_queue q g)).
Proof.
  intros Ht Hq. unfold window. simpl. unfold OnChildComplete. simpl. rewrite Hq.
  destruct (Z.eqb_spec t 0); [done|]. by rewrite Z.eqb_refl.
Qed.

Lemma front_is_notin t q : (t ∉ q) -> front_is t q = false.
Proof.
  destruct q as [|x q]; [done|]. intros H. apply not_elem_of_cons in H as [H _].
  simpl. destruct (Z.eqb_spec x t); [by subst|done].
Qed.

(** How far the loop of [RunTaskInternal] gets: over tasks that finish while
    they are called, up to a decisive code, a task that pends, or the end. *)
Fixpoint run_ref (rel : EnumLogicOp) (code : Z -> Z) (mode : Z -> how) (ret : Z)
    (vals : list Z) (q : list Z) : Z * list Z * list Z * list Z :=
  match q with
  | [] => (ret, vals, [], [])
  | t :: q =>
      match mode t with
      | Async => (STATUS_PENDING, vals, t :: q, [t])
      | _ =>
          if decisive rel (code t) && nonempty q
          then (ERROR_CANCEL_INSTEAD, vals ++ [code t], q, [t])
          else let '(r, v, q', l) := run_ref rel code mode (code t) (vals ++ [code t]) q in
               (r, v, q', t :: l)
      end
  end.

Definition after_loop (g : CIfTaskGroup) (r : Z) (v q : list Z) : CIfTaskGroup :=
  mkGroup (m_iTaskRel g) (m_iTaskState g) (m_bRunning g) (m_bCanceling g) false
    (if r =? STATUS_PENDING then waitComplete else m_byHeadState g) q v.

Lemma RunLoop_spec code mode p ret g q :
  (forall t, code_ok (code t)) -> ret <> STATUS_PENDING -> m_bNoSched g = false ->
  (m_queTasks g = q \/ m_queTasks g = p :: q /\ p <> 0) ->
  (0 ∉ q) -> (p ∉ q) -> NoDup q ->
  let '(r, v, q', l) := run_ref (m_iTaskRel g) code mode ret (m_vecRetVals g) q in
  RunLoop (map (ans code mode) q) p ret g =
  Ret (after_loop g r v q', r, calls_of eventZero l).
Proof.
  intros Hcode. revert p ret g. induction q as [|t q IH]; intros p ret g Hr Hns Hg H0 Hp Hn.
  { assert (skip_prev p (m_queTasks g) = []) as E.
    { destruct Hg as [-> | [-> Hp0]]; [done|by rewrite skip_prev_cons]. }
    simpl. rewrite E. unfold after_loop. rewrite (proj2 (Z.eqb_neq _ _) Hr).
    rewrite <- Hns. by destruct g. }
  assert (skip_prev p (m_queTasks g) = t :: q) as E.
  { destruct Hg as [-> | [-> Hp0]]; [by apply skip_prev_id|].
    rewrite skip_prev_cons by done. by apply skip_prev_id. }
  apply not_elem_of_cons in H0 as [H0 H0'], Hp as [Hp Hp'].
  apply NoDup_cons in Hn as [Hn Hn']. destruct (Hcode t) as (Hc1 & Hc2 & Hc3).
  cbn [map RunLoop run_ref]. rewrite E.
  assert (Ha := eq_refl (ans code mode t)). unfold ans at 2 in Ha.
  destruct (mode t) eqn:Em; rewrite Ha; cbn [ra_err ra_ops].
  3: { simpl. by rewrite Z.eqb_refl. }
  all: rewrite (window_done _ _ q) by done; cbn [SetNoSched set_retvals set_queue m_queTasks
    m_vecRetVals m_iTaskRel]; rewrite (front_is_notin _ _ Hn).
  - rewrite (proj2 (Z.eqb_neq _ _) Hc2), (proj2 (Z.eqb_neq _ _) Hc1). cbn [negb andb obind].
    rewrite (proj2 (Z.eqb_neq _ _) Hc1).
    destruct (_ && _) eqn:Ed; [by unfold after_loop|].
    match goal with |- context [RunLoop _ t _ ?g'] => specialize (IH t (code t) g') end.
    cbn [m_queTasks m_vecRetVals m_iTaskRel] in IH.
    destruct (run_ref _ _ _ _ _ q) as [[[r v] q'] l] eqn:Er.
    rewrite IH by eauto. done.
  - change (STATUS_PENDING =? STATUS_MORE_PROCESS_NEEDED) with false.
    rewrite Z.eqb_refl. cbn [negb andb]. rewrite last_snoc. cbn [obind].
    rewrite (proj2 (Z.eqb_neq _ _) Hc1).
    destruct (_ && _) eqn:Ed; [by unfold after_loop|].
    match goal with |- context [RunLoop _ t _ ?g'] => specialize (IH t (code t) g') end.
    cbn [m_queTasks m_vecRetVals m_iTaskRel] in IH.
    destruct (run_ref _ _ _ _ _ q) as [[[r v] q'] l] eqn:Er.
    rewrite IH by eauto. done.
Qed.

Lemma run_ref_spec rel code mode ret vals q :
  (forall t, code_ok (code t)) ->
  ret = default 0 (last vals) -> ret <> STATUS_PENDING -> ret <> ERROR_CANCEL_INSTEAD ->
  (forall c, last vals = Some c -> decisive rel c = true -> q = []) ->
  let '(r, v, q', l) := run_ref rel code mode ret vals q in
  (r = ERROR_CANCEL_INSTEAD /\ last v = Some (group_result rel code (last vals) q) /\
   q = l ++ q' /\ group_started rel code q = l) \/
  (r = STATUS_PENDING /\ exists pre h rest, q' = h :: rest /\ l = pre ++ [h] /\
   q = pre ++ h :: rest /\
   group_result rel code (last vals) q = group_result rel code (Some (code h)) rest /\
   group_started rel code q = pre ++ group_started rel code (h :: rest)) \/
  (r <> STATUS_PENDING /\ r <> ERROR_CANCEL_INSTEAD /\ q' = [] /\ l = q /\
   r = group_result rel code (last vals) q /\ group_started rel code q = q).
Proof.
  intros Hcode. revert ret vals. induction q as [|t q IH]; intros ret vals Hr Hr1 Hr2 Hl.
  { simpl. right. right. by destruct (last vals). }
  assert (group_result rel code (last vals) (t :: q) = group_result rel code (Some (code t)) q)
    as Hres.
  { simpl. destruct (last vals) as [c|] eqn:E; [|done].
    destruct (decisive rel c) eqn:Ed; [by specialize (Hl c eq_refl Ed)|done]. }
  rewrite Hres. destruct (Hcode t) as (Hc1 & Hc2 & Hc3). cbn [run_ref group_started].
  assert (Hsync : let '(r, v, q', l) :=
    (if decisive rel (code t) && nonempty q
     then (ERROR_CANCEL_INSTEAD, vals ++ [code t], q, [t])
     else let '(r, v, q', l) := run_ref rel code mode (code t) (vals ++ [code t]) q in
          (r, v, q', t :: l)) in
    (r = ERROR_CANCEL_INSTEAD /\ last v = Some (group_result rel code (Some (code t)) q) /\
     t :: q = l ++ q' /\
     t :: (if decisive rel (code t) then [] else group_started rel code q) = l) \/
    (r = STATUS_PENDING /\ exists pre h rest, q' = h :: rest /\ l = pre ++ [h] /\
     t :: q = pre ++ h :: rest /\
     group_result rel code (Some (code t)) q = group_result rel code (Some (code h)) rest /\
     t :: (if decisive rel (code t) then [] else group_started rel code q) =
       pre ++ group_started rel code (h :: rest)) \/
    (r <> STATUS_PENDING /\ r <> ERROR_CANCEL_INSTEAD /\ q' = [] /\ l = t :: q /\
     r = group_result rel code (Some (code t)) q /\
     t :: (if decisive rel (code t) then [] else group_started rel code q) = t :: q)).
  { destruct (_ && _) eqn:Ed.
    { apply andb_true_iff in Ed as [Ed Eq]. left. rewrite last_snoc, Ed.
      split_and!; [done| |done|done]. destruct q; [done|]. simpl. by rewrite Ed. }
    specialize (IH (code t) (vals ++ [code t])). rewrite last_snoc in IH.
    assert (decisive rel (code t) = true -> q = []) as Hd.
    { intros E. rewrite E in Ed. by destruct q. }
    destruct (run_ref _ _ _ _ _ q) as [[[r v] q'] l].
    assert (Hst : (if decisive rel (code t) then [] else group_started rel code q)
      = group_started rel code q).
    { destruct (decisive rel (code t)); [by rewrite Hd|done]. }
    rewrite Hst. destruct IH as [(-> & Hv & -> & Hs)|[(-> & pre & h & rest & -> & -> & -> & Hg & Hs)
      |(H1 & H2 & -> & -> & -> & Hs)]]; [done|done|done| |left|right; left|right; right].
    - intros c [= <-]. exact Hd.
    - split_and!; [done|done|done|by rewrite Hs].
    - split; [done|]. exists (t :: pre), h, rest. split_and!; [done|done|done|done|].
      simpl app. f_equal. exact Hs.
    - split_and!; [done|done|done|done|done|by rewrite Hs]. }
  destruct (mode t); [exact Hsync|exact Hsync|].
  right. left. split; [done|]. exists [], t, q. done.
Qed.

(** [OnCancel] after a decisive code. *)
Lemma OnCancel_instead cs c g :
  (0 ∉ m_queTasks g) -> NoDup (m_queTasks g) ->
  m_bCanceling g = false -> m_bNoSched g = false -> last (m_vecRetVals g) = Some c ->
  exists g' l,
    OnCancel cs eventCancelInstead g = Some (g', c, calls_of eventCancelTask l) /\
    m_queTasks g' = [] /\ IsStopped (m_iTaskState g') = true /\
    l `sublist_of` m_queTasks g /\ (cs = [] -> l = m_queTasks g).
Proof.
  intros H0 Hn Hc Hs Hl. unfold OnCancel.
  rewrite (bool_decide_true (eventCancelInstead = _)), andb_false_r, Hc, Hs by done.
  set (h := SetRunning false _). change (m_vecRetVals h) with (m_vecRetVals g). rewrite Hl.
  assert (skip_prev 0 (m_queTasks g) = m_queTasks g) as Hskip.
  { by apply skip_prev_id. }
  destruct (CancelLoop_spec (S (length (m_queTasks h))) cs 0 h) as (g' & l & HE & Hq & Hst & _ & Hsub).
  { done. }
  { simpl. rewrite Hskip. lia. }
  simpl in Hsub. rewrite Hskip in Hsub.
  rewrite HE. exists g', l. split_and!; [done|done|by rewrite Hst|done|].
  intros ->. destruct (CancelLoop_quiet (S (length (m_queTasks h))) 0 h) as (g'' & HE' & _);
    [done|done|done|simpl; lia|].
  rewrite HE in HE'. injection HE' as _ HE'. simpl in HE'.
  by apply calls_of_inj in HE'.
Qed.

(** A run, from a group that may be run. *)
Definition started_group (g : CIfTaskGroup) : CIfTaskGroup :=
  if bool_decide (m_iTaskState g = stateStarting)
  then SetRunning true (SetTaskState stateStarted g) else g.

Definition stop_group (g : CIfTaskGroup) : CIfTaskGroup :=
  SetTaskState stateStopping (SetRunning false g).

Lemma RunTaskInternal_runnable script g :
  runnable g ->
  RunTaskInternal script g =
  if match last (m_vecRetVals g) with
     | Some c => decisive (m_iTaskRel g) c && nonempty (m_queTasks g)
     | None => false
     end
  then Ret (stop_group (started_group g), ERROR_CANCEL_INSTEAD, [])
  else
    let! (g, ret, calls) :=
      RunLoop script 0 (default 0 (last (m_vecRetVals g))) (started_group g) in
    if negb (ret =? STATUS_PENDING) then Ret (stop_group g, ret, calls)
    else Ret (g, ret, calls).
Proof.
  intros (Hst & Hc & Hns & Hh). unfold RunTaskInternal.
  assert (IsStopped (m_iTaskState g) = false) as ->
    by (destruct Hst as [-> | [-> _]]; done).
  assert (negb (m_bRunning g) && bool_decide (m_iTaskState g = stateStarted) = false) as ->.
  { destruct Hst as [-> | [-> ->]]; [|done]. by rewrite bool_decide_false, andb_false_r. }
  rewrite Hc, Hns. fold (started_group g).
  assert (m_byHeadState (started_group g) = m_byHeadState g) as ->
    by (unfold started_group; by case_bool_decide).
  rewrite bool_decide_false by done.
  assert (m_vecRetVals (started_group g) = m_vecRetVals g) as ->
    by (unfold started_group; by case_bool_decide).
  assert (m_iTaskRel (started_group g) = m_iTaskRel g) as ->
    by (unfold started_group; by case_bool_decide).
  assert (m_queTasks (started_group g) = m_queTasks g) as ->
    by (unfold started_group; by case_bool_decide).
  done.
Qed.

(** What stays the same when a runnable group is started. *)
Lemma started_group_fields g :
  runnable g ->
  m_iTaskState (started_group g) = stateStarted /\ m_bRunning (started_group g) = true /\
  m_iTaskRel (started_group g) = m_iTaskRel g /\
  m_bCanceling (started_group g) = false /\ m_bNoSched (started_group g) = false /\
  m_queTasks (started_group g) = m_queTasks g /\
  m_vecRetVals (started_group g) = m_vecRetVals g /\
  m_byHeadState (started_group g) = m_byHeadState g.
Proof.
  intros (Hst & Hc & Hns & Hh). unfold started_group.
  destruct Hst as [Hst | [Hst Hr]]; rewrite Hst; simpl; split_and!; done.
Qed.

(** The tasks still to be started, when [lastret] was the last code. *)
Definition started_after (rel : EnumLogicOp) (code : Z -> Z) (lastret : option Z)
    (q : list Z) : list Z :=
  match lastret with
  | Some c => if decisive rel c then [] else group_started rel code q
  | None => group_started rel code q
  end.

(** How the life of a group ends. *)
Definition drive_ends (cs : list (list win_op)) (g : CIfTaskGroup) (code : Z -> Z)
    (res : option (CIfTaskGroup * Z * list (Z * EnumEventId))) : Prop :=
  let rel := m_iTaskRel g in
  let lastret := last (m_vecRetVals g) in
  exists g' canc rest,
    res = Some (g', group_result rel code lastret (m_queTasks g),
      calls_of eventZero (started_after rel code lastret (m_queTasks g)) ++
      calls_of eventCancelTask canc) /\
    m_queTasks g' = [] /\ IsStopped (m_iTaskState g') = true /\
    m_queTasks g = started_after rel code lastret (m_queTasks g) ++ rest /\
    canc `sublist_of` rest /\ (cs = [] -> canc = rest).

Lemma group_result_ok rel code lastret q :
  (forall t, code_ok (code t)) -> (forall c, lastret = Some c -> code_ok c) ->
  code_ok (group_result rel code lastret q).
Proof.
  intros Hcode. revert lastret. induction q as [|t q IH]; intros lastret Hl; simpl.
  - destruct lastret as [c|]; [by apply Hl|]. by split_and!.
  - destruct lastret as [c|]; [destruct (decisive rel c); [by apply Hl|]|];
      apply IH; by intros ? [= <-].
Qed.

Lemma code_ok_neqb c :
  code_ok c -> (c =? STATUS_PENDING) = false /\ (c =? ERROR_CANCEL_INSTEAD) = false.
Proof. intros (? & ? & ?). by rewrite !Z.eqb_neq. Qed.

(** The group cancels what is left after a decisive code. *)
Lemma cancel_ends cs c g gs l :
  (0 ∉ m_queTasks g) -> NoDup (m_queTasks g) ->
  m_bCanceling g = false -> m_bNoSched g = false -> last (m_vecRetVals g) = Some c ->
  exists g' canc,
    match OnCancel cs eventCancelInstead g with
    | Some (g, ret, calls') => Some (g, ret, calls_of eventZero l ++ calls')
    | None => None
    end = Some (g', c, calls_of eventZero l ++ calls_of eventCancelTask canc) /\
    m_queTasks g' = [] /\ IsStopped (m_iTaskState g') = true /\
    (m_queTasks gs = l ++ m_queTasks g ->
     m_queTasks gs = l ++ m_queTasks g /\
     canc `sublist_of` m_queTasks g /\ (cs = [] -> canc = m_queTasks g)).
Proof.
  intros. destruct (OnCancel_instead cs c g) as (g' & canc & -> & ? & ? & ? & ?); [done..|].
  by exists g', canc.
Qed.

(** Running the group up to the end, to a decisive code, or to a pending task. *)
Lemma RunTask_cases code mode cs g :
  (forall t, code_ok (code t)) -> runnable g ->
  (0 ∉ m_queTasks g) -> NoDup (m_queTasks g) ->
  (forall c, last (m_vecRetVals g) = Some c -> code_ok c) ->
  let res := RunTask (map (ans code mode) (m_queTasks g)) cs g in
  (exists o, res = Ret o /\ drive_ends cs g code o) \/
  (exists g' pre h rest,
     res = Ret (Some (g', STATUS_PENDING, calls_of eventZero (pre ++ [h]))) /\
     g' = after_loop (started_group g) STATUS_PENDING (m_vecRetVals g') (h :: rest) /\
     m_queTasks g = pre ++ h :: rest /\
     group_result (m_iTaskRel g) code (last (m_vecRetVals g)) (m_queTasks g) =
       group_result (m_iTaskRel g) code (Some (code h)) rest /\
     started_after (m_iTaskRel g) code (last (m_vecRetVals g)) (m_queTasks g) =
       pre ++ group_started (m_iTaskRel g) code (h :: rest)).
Proof.
  intros Hcode Hrun H0 Hn Hlast res. unfold res, RunTask.
  rewrite RunTaskInternal_runnable by done.
  pose proof (started_group_fields g Hrun) as (F1 & F2 & F3 & F4 & F5 & F6 & F7 & F8).
  set (gs := started_group g) in *.
  destruct (match last (m_vecRetVals g) with Some c => _ | None => false end) eqn:Ed.
  { left. destruct (last (m_vecRetVals g)) as [c|] eqn:El; [|done].
    apply andb_true_iff in Ed as [Ed Hne]. cbn [obind]. rewrite Z.eqb_refl.
    eexists. split; [done|]. unfold drive_ends. rewrite El. simpl. rewrite Ed.
    destruct (cancel_ends cs c (stop_group gs) g []) as (g' & canc & HE & Hq & Hs & Hx);
      [simpl; by rewrite F6|simpl; by rewrite F6|done|done|simpl; by rewrite F7|].
    simpl in Hx, HE. destruct Hx as (Hx1 & Hx2 & Hx3); [by rewrite F6|]. rewrite F6 in Hx2, Hx3.
    rewrite HE. clear HE.
    exists g', canc, (m_queTasks g). split_and!; try done.
    destruct (m_queTasks g); [done|]. simpl. by rewrite Ed. }
  assert (forall c, last (m_vecRetVals g) = Some c -> decisive (m_iTaskRel g) c = true ->
    m_queTasks g = []) as Hdec.
  { intros c El E. rewrite El, E in Ed. by destruct (m_queTasks g). }
  assert (code_ok (default 0 (last (m_vecRetVals g)))) as (Hd1 & _ & Hd2).
  { destruct (last (m_vecRetVals g)) as [c|]; [by apply Hlast|by split_and!]. }
  pose proof (run_ref_spec (m_iTaskRel g) code mode _ (m_vecRetVals g) (m_queTasks g)
    Hcode eq_refl Hd1 Hd2 Hdec) as Hrr.
  pose proof (RunLoop_spec code mode 0 (default 0 (last (m_vecRetVals g))) gs
    (m_queTasks g) Hcode Hd1 F5 (or_introl F6) H0 H0 Hn) as Hloop.
  rewrite F3, F7 in Hloop.
  assert (Hsa : started_after (m_iTaskRel g) code (last (m_vecRetVals g)) (m_queTasks g) =
    group_started (m_iTaskRel g) code (m_queTasks g)).
  { unfold started_after. destruct (last (m_vecRetVals g)) as [c|]; [|done].
    destruct (decisive _ c) eqn:E; [by rewrite (Hdec c eq_refl E)|done]. }
  unfold drive_ends. rewrite Hsa. clear Hsa.
  destruct (run_ref _ _ _ _ _ _) as [[[r v] q'] l]. rewrite Hloop. cbn [obind].
  destruct Hrr as [(-> & Hv & Hq & ->)|[(-> & pre & h & rest & -> & -> & Hq & Hg & Hs)
    |(Hr1 & Hr2 & -> & -> & Hr & Hs)]].
  - left. change (negb (ERROR_CANCEL_INSTEAD =? STATUS_PENDING)) with true. cbn [obind].
    rewrite Z.eqb_refl. eexists. split; [done|].
    rewrite Hq in H0, Hn. apply not_elem_of_app in H0 as [_ H0]. apply NoDup_app in Hn as (_ & _ & Hn).
    edestruct (cancel_ends cs) as (g' & canc & -> & Hq2 & Hs2 & Hx); [done..|].
    exists g', canc, q'. destruct Hx as (Hx1 & Hx2 & Hx3); [exact Hq|]. by split_and!.
  - right. rewrite Z.eqb_refl. cbn [negb obind].
    change (STATUS_PENDING =? ERROR_CANCEL_INSTEAD) with false.
    exists (after_loop gs STATUS_PENDING v (h :: rest)), pre, h, rest. by split_and!.
  - left. rewrite (proj2 (Z.eqb_neq _ _) Hr1). cbn [negb obind].
    rewrite (proj2 (Z.eqb_neq _ _) Hr2). eexists. split; [done|].
    rewrite Hs. eexists _, [], []. rewrite !app_nil_r, <- Hr. by split_and!.
Qed.

(** The pending head finishes and the group is rescheduled. *)
Lemma complete_pending gs v h rest c :
  h <> 0 -> m_iTaskState gs = stateStarted ->
  OnChildComplete (Rescheduled 0) c h (after_loop gs STATUS_PENDING v (h :: rest)) =
  (SetHeadState waitRunning (set_retvals (v ++ [c])
     (set_queue rest (after_loop gs STATUS_PENDING v (h :: rest)))), 0, true).
Proof.
  intros Hh Hst. unfold OnChildComplete. destruct (Z.eqb_spec h 0); [done|].
  cbn [m_queTasks after_loop]. rewrite Z.eqb_refl. cbn. by rewrite Hst.
Qed.

Lemma drive_result fuel code mode cs g :
  (forall t, code_ok (code t)) -> runnable g ->
  (0 ∉ m_queTasks g) -> NoDup (m_queTasks g) ->
  (forall c, last (m_vecRetVals g) = Some c -> code_ok c) ->
  (length (m_queTasks g) < fuel)%nat ->
  drive_ends cs g code (drive fuel code mode cs g).
Proof.
  intros Hcode. revert g. induction fuel as [|fuel IH]; intros g Hrun H0 Hn Hlast Hf; [lia|].
  cbn [drive].
  destruct (RunTask_cases code mode cs g) as
    [(o & Ho & Hend)|(g1 & pre & h & rest & HR & Hg1 & Hq & Hres & Hs)]; [done..| |].
  { rewrite Ho. pose proof Hend as (g' & canc & rest & -> & _).
    destruct (code_ok_neqb (group_result (m_iTaskRel g) code (last (m_vecRetVals g))
      (m_queTasks g))) as [-> _]; [by apply group_result_ok|]. done. }
  rewrite HR. rewrite Z.eqb_refl. cbn [negb].
  destruct (started_group_fields g Hrun) as (F1 & F2 & F3 & F4 & F5 & F6 & F7 & F8).
  rewrite Hq in H0, Hn. apply not_elem_of_app in H0 as [_ H0]. apply not_elem_of_cons in H0 as [Hh H0].
  apply NoDup_app in Hn as (_ & _ & Hn). apply NoDup_cons in Hn as [_ Hn].
  assert (m_queTasks g1 = h :: rest) as -> by (by rewrite Hg1).
  rewrite Hg1, complete_pending by done.
  generalize (m_vecRetVals g1) as v. intros v. clear g1 Hg1 HR.
  set (g2 := SetHeadState _ _).
  destruct (IH g2) as (g' & canc & rest' & HE & Hq' & Hst' & Hr' & Hc1 & Hc2).
  { split_and!; [by right|done|done|done]. }
  { done. }
  { done. }
  { simpl. intros c. rewrite last_snoc. by intros [= <-]. }
  { simpl. rewrite Hq, length_app in Hf. simpl in Hf. lia. }
  rewrite HE. unfold drive_ends. rewrite Hres, Hs. simpl m_iTaskRel in *. simpl m_queTasks in *.
  simpl m_vecRetVals in *. rewrite last_snoc, F3 in *.
  exists g', canc, rest'. split_and!; [|done|done| |done|done].
  - f_equal. f_equal. rewrite app_assoc. f_equal.
    unfold calls_of. rewrite <- map_app, <- app_assoc. simpl. done.
  - rewrite Hq, <- app_assoc. f_equal. simpl. by f_equal.
Qed.

(** ** Liveness: the group as a state machine *)

(** The group, the task it waits for, how many of its reschedules are on
    their way, and whether the group has lost the one that was to carry it on:
    the task it waits for was taken out of the queue, or reported and the I/O
    manager did not reschedule the group.  That holds until it is rescheduled
    or calls a task again. *)
Record config := mkCfg {
  cf_grp : CIfTaskGroup; cf_wait : option Z; cf_resched : nat; cf_lost : bool
}.

(** The task that a run waits for, when it pends. *)
Definition waits_for (w : option Z) (ret : Z) (calls : list (Z * EnumEventId)) : option Z :=
  match last calls with
  | Some (t, _) => if ret =? STATUS_PENDING then Some t else None
  | None => w
  end.

(** Tasks end with a proper code, and the task [t] that is being called is not
    taken out of the queue meanwhile; every other task may be. *)
Definition op_ok (t : Z) (o : win_op) : Prop :=
  match o with WDone c _ => c <> STATUS_PENDING | WRemove x => x <> t | _ => True end.

(** That holds for every call of the loop of [RunTaskInternal]. *)
Fixpoint loop_ok (script : list run_ans) (pPrevTask : Z) (g : CIfTaskGroup) : Prop :=
  match skip_prev pPrevTask (m_queTasks g), script with
  | pTask :: rest, a :: script =>
      Forall (op_ok pTask) (ra_ops a) /\
      loop_ok script pTask (window (ra_ops a) (set_queue (pTask :: rest) g))
  | _, _ => True
  end.

Definition run_ok (script : list run_ans) (g : CIfTaskGroup) : Prop :=
  loop_ok script 0 (started_group g).

(** A run keeps what was lost unless it calls a task. *)
Definition still_lost (lost : bool) (calls : list (Z * EnumEventId)) : bool :=
  match calls with [] => lost | _ => false end.

(** The group waits for [t], and [t] is not in front of the queue [q]. *)
Definition bereft (w : option Z) (t : Z) (q : list Z) : bool :=
  bool_decide (w = Some t) && negb (front_is t q).

(** The steps of a group: tasks are added and removed; it is run, by its owner,
    by a retry or as often as it was rescheduled; a task is done, the one it
    waits for or another, and the I/O manager answers anything; it is
    cancelled. *)
Inductive grp_step : config -> config -> Prop :=
  | st_append t g w n l : grp_step (mkCfg g w n l) (mkCfg (AppendTask t g).1 w n l)
  | st_insert t g w n l : grp_step (mkCfg g w n l) (mkCfg (InsertTask t g).1 w n l)
  | st_remove t g w n l g' :
      (RemoveTask t g).1 = g' ->
      grp_step (mkCfg g w n l)
        (if bereft w t (m_queTasks g') then mkCfg g' None n true else mkCfg g' w n l)
  | st_run script cs g g' ret calls w n l :
      run_ok script g -> RunTask script cs g = Ret (Some (g', ret, calls)) ->
      grp_step (mkCfg g w n l) (mkCfg g' (waits_for w ret calls) n (still_lost l calls))
  | st_retry script cs g g' ret calls w n l :
      run_ok script (set_retvals [] g) -> OnRetry script cs g = Ret (Some (g', ret, calls)) ->
      grp_step (mkCfg g w n l) (mkCfg g' (waits_for w ret calls) n (still_lost l calls))
  | st_resched script cs g g' ret calls w n l :
      run_ok script g -> RunTask script cs g = Ret (Some (g', ret, calls)) ->
      grp_step (mkCfg g w (S n) l) (mkCfg g' (waits_for w ret calls) n (still_lost l calls))
  | st_done m c t g w n l g' ret b :
      c <> STATUS_PENDING -> OnChildComplete m c t g = (g', ret, b) ->
      grp_step (mkCfg g w n l)
        (if b then mkCfg g' (if bool_decide (w = Some t) then None else w) (S n) false
         else mkCfg g' (if bool_decide (w = Some t) then None else w) n
                (l || bool_decide (w = Some t)))
  | st_cancel cs ctx g g' ret calls w n l :
      OnCancel cs ctx g = Some (g', ret, calls) ->
      grp_step (mkCfg g w n l) (mkCfg g' (waits_for w ret calls) n l).

Definition NewConfig (rel : EnumLogicOp) : config :=
  mkCfg (SetRelation rel NewTaskGroup) None 0 false.

(** A started group waits for its head task, which it has called, or has
    itself rescheduled, or has lost the one that was to carry it on. *)
Definition live (c : config) : Prop :=
  let g := cf_grp c in
  m_iTaskState g = stateStarted ->
  (m_byHeadState g = waitComplete /\
   exists t, cf_wait c = Some t /\ t <> 0 /\ head (m_queTasks g) = Some t) \/
  (m_byHeadState g <> waitComplete /\ cf_wait c = None /\ (0 < cf_resched c)%nat) \/
  (cf_wait c = None /\ cf_lost c = true).

(** What else holds between the steps. *)
Definition quiet (g : CIfTaskGroup) : Prop :=
  m_bNoSched g = false /\
  match m_iTaskState g with
  | stateStarting => m_bCanceling g = false /\ m_byHeadState g = waitStart /\
      Forall (fun c => c <> STATUS_PENDING) (m_vecRetVals g)
  | stateStarted => m_bRunning g = true /\ m_bCanceling g = false /\
      Forall (fun c => c <> STATUS_PENDING) (m_vecRetVals g)
  | stateStopping => True
  | _ => False
  end.

(** ** Lemmas: running with any script *)

Definition started (g : CIfTaskGroup) : Prop :=
  m_iTaskState g = stateStarted /\ m_bRunning g = true /\ m_bCanceling g = false /\
  Forall (fun c => c <> STATUS_PENDING) (m_vecRetVals g).

Lemma erase_first_head t x q : t <> x -> erase_first t (x :: q) = x :: erase_first t q.
Proof. intros Ht. simpl. by destruct (Z.eqb_spec x t). Qed.

Lemma head_app_some {A} (q l : list A) t : head q = Some t -> head (q ++ l) = Some t.
Proof. by destruct q. Qed.

(** Taking out a task that is not in front. *)
Lemma RemoveTask_head x t q g :
  m_queTasks g = t :: q -> x <> t ->
  head (m_queTasks (RemoveTask x g).1) = Some t /\
  (RemoveTask x g).1 = set_queue (m_queTasks (RemoveTask x g).1) g.
Proof.
  intros Hq Hx. split; [|apply RemoveTask_same]. unfold RemoveTask. rewrite Hq.
  destruct (x =? 0); simpl; [by rewrite Hq|]. case_bool_decide; simpl; [|by rewrite Hq].
  by destruct (Z.eqb_spec t x).
Qed.

(** The called task stays in front until it reports. *)
Lemma apply_op_started t g o :
  t <> 0 -> op_ok t o -> started g -> m_bNoSched g = true ->
  head (m_queTasks g) = Some t \/ m_vecRetVals g <> [] ->
  let g' := apply_op g o in
  started g' /\ m_bNoSched g' = true /\ m_byHeadState g' = m_byHeadState g /\
  m_iTaskRel g' = m_iTaskRel g /\
  (head (m_queTasks g') = Some t \/ m_vecRetVals g' <> []).
Proof.
  intros Ht Hok (Hst & Hr & Hc & Hv) Hns Hhd.
  destruct o as [c x|x|x|x]; simpl in *.
  - unfold OnChildComplete. destruct (Z.eqb_spec x 0); [done|].
    destruct (m_queTasks g) as [|y q] eqn:Eq; [simpl; by rewrite Eq|].
    destruct (Z.eqb_spec x y) as [->|Hxy]; simpl.
    + rewrite Hns. simpl. split_and!; try done.
      * split_and!; try done. apply Forall_app. split; [done|by constructor].
      * right. by destruct (m_vecRetVals g).
    + destruct (RemoveTask_same x g) as [_ ->].
      split_and!; try done. simpl. destruct Hhd as [Hhd|Hhd]; [left|by right].
      unfold RemoveTask. destruct (Z.eqb_spec x 0); [done|]. rewrite Eq.
      case_bool_decide; simpl; [|by rewrite Eq]. by destruct (Z.eqb_spec y x).
  - unfold AppendTask. rewrite Hst, Hr. simpl. destruct (x =? 0); [done|]. simpl.
    split_and!; try done. destruct Hhd as [Hhd|Hhd]; [left|by right].
    by destruct (m_queTasks g).
  - unfold InsertTask. rewrite Hst. simpl. by destruct (x =? 0).
  - destruct (RemoveTask_same x g) as [_ ->]. split_and!; try done. simpl.
    destruct Hhd as [Hhd|Hhd]; [left|by right].
    destruct (m_queTasks g) as [|y q] eqn:Eq; [done|]. injection Hhd as ->.
    by apply (RemoveTask_head x t q g).
Qed.

Lemma window_started t rest ops g :
  t <> 0 -> Forall (op_ok t) ops -> started g -> m_queTasks g = t :: rest ->
  let g' := window ops g in
  started g' /\ m_bNoSched g' = false /\ m_byHeadState g' = m_byHeadState g /\
  m_iTaskRel g' = m_iTaskRel g /\
  (head (m_queTasks g') = Some t \/ m_vecRetVals g' <> []).
Proof.
  intros Ht Hok Hst Hq. unfold window. simpl.
  enough (forall h, started h -> m_bNoSched h = true ->
    head (m_queTasks h) = Some t \/ m_vecRetVals h <> [] ->
    let g' := foldl apply_op h ops in
    started g' /\ m_byHeadState g' = m_byHeadState h /\ m_iTaskRel g' = m_iTaskRel h /\
    (head (m_queTasks g') = Some t \/ m_vecRetVals g' <> [])) as H.
  { destruct (H (SetNoSched true g)) as (H1 & H2 & H3 & H4); [done|done|simpl; rewrite Hq; by left|].
    by split_and!. }
  clear g Hst Hq. induction Hok as [|o ops Ho _ IH]; intros h Hst Hns Hhd; simpl; [done|].
  destruct (apply_op_started t h o Ht Ho Hst Hns Hhd) as (H1 & H2 & H3 & H4 & H5).
  destruct (IH _ H1 H2 H5) as (H1' & H3' & H4' & H5'). split_and!; [done|congruence|congruence|done].
Qed.

(** The loop never reads an empty [m_vecRetVals], and when it pends the group
    waits for the last task it called, which is its head. *)
Lemma RunLoop_started script p ret g :
  loop_ok script p g ->
  started g -> m_bNoSched g = false -> ret <> STATUS_PENDING ->
  exists g' r calls,
    RunLoop script p ret g = Ret (g', r, calls) /\ started g' /\ m_bNoSched g' = false /\
    (r = STATUS_PENDING ->
     m_byHeadState g' = waitComplete /\
     exists t, last calls = Some (t, eventZero) /\ t <> 0 /\ head (m_queTasks g') = Some t).
Proof.
  revert p ret g. induction script as [|a script IH]; intros p ret g Hok Hst Hns Hr;
    cbn [RunLoop loop_ok] in *; destruct (skip_prev p (m_queTasks g)) as [|t rest] eqn:E.
  1,3: exists (set_queue [] g), ret, []; by split_and!.
  { destruct (skip_prev_head _ _ _ _ E) as [Ht _].
    eexists _, _, _. split; [done|]. split_and!; [by destruct Hst as (?&?&?&?)|done|].
    intros _. split; [done|]. by exists t. }
  destruct (skip_prev_head _ _ _ _ E) as [Ht _].
  destruct Hok as [Ha Hok]. destruct (window_started t rest (ra_ops a) (set_queue (t :: rest) g))
    as (H1 & H2 & H3 & H4 & H5); [done..|].
  generalize dependent (window (ra_ops a) (set_queue (t :: rest) g)). intros w Hok H1 H2 H3 H4 H5.
  set (err := if ra_err a =? STATUS_MORE_PROCESS_NEEDED then STATUS_PENDING else ra_err a).
  assert (exists r, (if negb (front_is t (m_queTasks w)) && (err =? STATUS_PENDING)
     then match last (m_vecRetVals w) with Some c => Ret c | None => Undef end
     else Ret err) = Ret r /\ (r = STATUS_PENDING -> head (m_queTasks w) = Some t)) as (r & -> & Hrp).
  { destruct (front_is t (m_queTasks w)) eqn:Ef; simpl.
    - exists err. split; [done|]. intros _. destruct (m_queTasks w) as [|x q]; [done|].
      simpl in Ef. apply Z.eqb_eq in Ef. by subst.
    - destruct (Z.eqb_spec err STATUS_PENDING) as [He|He]; [|by exists err].
      assert (m_vecRetVals w <> []) as Hne.
      { destruct H5 as [H5|H5]; [|done]. destruct (m_queTasks w) as [|x q]; [done|].
        injection H5 as ->. simpl in Ef. by rewrite Z.eqb_refl in Ef. }
      destruct (last (m_vecRetVals w)) as [c|] eqn:El; [|by apply last_None in El].
      exists c. split; [done|]. intros ->. apply last_Some_elem_of in El.
      destruct H1 as (_ & _ & _ & Hv). rewrite Forall_forall in Hv. by destruct (Hv _ El). }
  cbn [obind]. destruct (Z.eqb_spec r STATUS_PENDING) as [->|Hrn].
  { eexists _, _, _. split; [done|]. split_and!; [by destruct H1 as (?&?&?&?)|done|].
    intros _. split; [done|]. exists t. by split_and!; [|..|apply Hrp]. }
  destruct (_ && _); [by eexists _, _, _|].
  destruct (IH t r w Hok H1 H2 Hrn) as (g' & r' & calls & -> & Hg1 & Hg2 & Hg3). cbn [obind].
  exists g', r', ((t, eventZero) :: calls). split_and!; [done|done|done|].
  intros Hr'. destruct (Hg3 Hr') as (Hw & t' & Hl & Ht' & Hq). split; [done|].
  exists t'. split_and!; [|done|done]. destruct calls; [done|exact Hl].
Qed.

Lemma CancelLoop_NoSched fuel script p g g' calls :
  m_bNoSched g = false -> CancelLoop fuel script p g = Some (g', calls) -> m_bNoSched g' = false.
Proof.
  revert script p g g' calls. induction fuel as [|fuel IH]; intros script p g g' calls Hn; [done|].
  cbn [CancelLoop]. destruct (skip_prev p (m_queTasks g)) as [|t rest]; [by intros [= <- <-]|].
  destruct (CancelLoop fuel _ t _) as [[h l]|] eqn:E; [|done]. intros [= <- <-].
  by eapply IH in E.
Qed.

Lemma OnCancel_stops cs ctx g g' ret calls :
  m_bNoSched g = false -> OnCancel cs ctx g = Some (g', ret, calls) ->
  (g' = g /\ calls = [] /\ ret = STATUS_PENDING /\
   (IsStopped (m_iTaskState g) = true \/ m_bCanceling g = true)) \/
  (m_iTaskState g' = stateStopping /\ m_bNoSched g' = false /\ m_queTasks g' = []).
Proof.
  intros Hn. unfold OnCancel.
  destruct (_ && _) eqn:E1.
  { apply andb_true_iff in E1 as [E1 _]. intros [= <- <- <-]. left. by split_and!; [..|left]. }
  destruct (m_bCanceling g) eqn:E2; [intros [= <- <- <-]; left; by split_and!; [..|right]|].
  rewrite Hn. set (h := SetRunning false _).
  destruct (CancelLoop_spec (S (length (m_queTasks h))) cs 0 h) as (g1 & l & HE & Hq & Hst & _).
  { done. }
  { pose proof (sublist_length _ _ (skip_prev_sublist 0 (m_queTasks h))). lia. }
  rewrite HE. intros [= <- <- <-]. right. split_and!; [done| |done].
  by eapply CancelLoop_NoSched in HE.
Qed.

(** A group that has come to its end, whether or not it cancels what is left. *)
Lemma stopped_ends cs g g' ret ret' l calls w n lo :
  m_iTaskState g = stateStopping -> m_bNoSched g = false ->
  (if ret =? ERROR_CANCEL_INSTEAD
   then Ret (match OnCancel cs eventCancelInstead g with
             | Some (g, ret, calls') => Some (g, ret, l ++ calls')
             | None => None
             end)
   else Ret (Some (g, ret, l))) = Ret (Some (g', ret', calls)) ->
  quiet g' /\ live (mkCfg g' w n lo).
Proof.
  intros Hst Hns H.
  assert (m_iTaskState g' = stateStopping /\ m_bNoSched g' = false) as [Hs Hn].
  { destruct (ret =? ERROR_CANCEL_INSTEAD); [|by simplify_eq].
    destruct (OnCancel cs eventCancelInstead g) as [[[g1 r] l']|] eqn:E; [|done]. simplify_eq.
    destruct (OnCancel_stops _ _ _ _ _ _ Hns E) as [(-> & _)|(? & ? & _)]; done. }
  split; [split; [done|by rewrite Hs]|]. intros Hx. simpl in Hx. congruence.
Qed.

Lemma RunTask_runnable script cs g w n lo g' ret calls :
  run_ok script g -> runnable g ->
  Forall (fun c => c <> STATUS_PENDING) (m_vecRetVals g) ->
  RunTask script cs g = Ret (Some (g', ret, calls)) ->
  quiet g' /\ live (mkCfg g' (waits_for w ret calls) n lo).
Proof.
  intros Hok Hrun Hv. unfold RunTask. rewrite RunTaskInternal_runnable by done.
  pose proof (started_group_fields g Hrun) as (F1 & F2 & F3 & F4 & F5 & F6 & F7 & F8).
  destruct (match last (m_vecRetVals g) with Some c => _ | None => false end).
  { cbn [obind]. by apply stopped_ends. }
  destruct (RunLoop_started script 0 (default 0 (last (m_vecRetVals g))) (started_group g))
    as (g1 & r & l & -> & (H1 & H2 & H3 & H4) & Hns & Hp); [done| |done| |].
  { split_and!; [done|done|done|by rewrite F7]. }
  { destruct (last (m_vecRetVals g)) as [c|] eqn:El; [|done]. apply last_Some_elem_of in El.
    rewrite Forall_forall in Hv. by apply Hv. }
  cbn [obind]. destruct (Z.eqb_spec r STATUS_PENDING) as [->|Hr]; cbn [negb obind].
  - change (STATUS_PENDING =? ERROR_CANCEL_INSTEAD) with false. intros [= <- <- <-].
    destruct Hp as (Hw & t & Hl & Ht & Hq); [done|]. split; [split; [done|by rewrite H1]|].
    intros _. left. split; [done|]. exists t. unfold waits_for. by rewrite Hl.
  - by apply stopped_ends.
Qed.

(** A group that waits for its head is not run. *)
Lemma RunTask_waiting script cs g :
  quiet g -> m_iTaskState g = stateStarted -> m_byHeadState g = waitComplete ->
  RunTask script cs g = Ret (Some (g, STATUS_PENDING, [])).
Proof.
  intros [Hns Hq] Est Hw. rewrite Est in Hq. destruct Hq as (Hr & Hc & _).
  unfold RunTask, RunTaskInternal. rewrite Est, Hr, Hc, Hns. simpl.
  by rewrite (bool_decide_true _ Hw).
Qed.

(** One run of a group, by its owner or rescheduled. *)
Lemma RunTask_live script cs g w k n lo g' ret calls :
  run_ok script g -> quiet g -> live (mkCfg g w k lo) ->
  RunTask script cs g = Ret (Some (g', ret, calls)) ->
  quiet g' /\ live (mkCfg g' (waits_for w ret calls) n (still_lost lo calls)).
Proof.
  intros Hok Hqt Hl HR. pose proof Hqt as [Hns Hq].
  destruct (m_iTaskState g) eqn:Est; try done.
  - eapply RunTask_runnable; [done| |by apply Hq|done].
    destruct Hq as (Hc & Hh & _). split_and!; [by left|done|done|by rewrite Hh].
  - destruct Hq as (Hr & Hc & Hv).
    destruct (decide (m_byHeadState g = waitComplete)) as [Hw|Hw].
    + rewrite RunTask_waiting in HR by done. injection HR as <- <- <-. split; [done|].
      intros _. destruct (Hl Est) as [H|[(H & _)|H]]; [by left|done|by right; right].
    + eapply RunTask_runnable; [done| |done|done]. split_and!; [by right|done|done|done].
  - unfold RunTask, RunTaskInternal in HR. rewrite Est in HR. cbn [IsStopped] in HR.
    cbn [obind] in HR. change (STATUS_PENDING =? ERROR_CANCEL_INSTEAD) with false in HR.
    simplify_eq/=. split; [by split; [|rewrite Est]|]. intros Hx. simpl in Hx. congruence.
Qed.

(** A task that the group does not wait for is gone. *)
Lemma RemoveTask_live t g w n lo :
  quiet g -> live (mkCfg g w n lo) -> w <> Some t \/ head (m_queTasks g) <> Some t ->
  quiet (RemoveTask t g).1 /\ live (mkCfg (RemoveTask t g).1 w n lo).
Proof.
  intros Hqt Hl Ht. destruct (RemoveTask_same t g) as [_ E]. split; [by rewrite E|].
  intros Hst. simpl in Hst. rewrite E in Hst. simpl in Hst.
  destruct (Hl Hst) as [(Hw & x & Hx & Hx0 & Hhd)|[H|H]]; simpl in *.
  - left. split; [by rewrite E|]. exists x. split_and!; [done|done|].
    assert (t <> x) as Htx by (intros ->; by destruct Ht).
    destruct (m_queTasks g) as [|y q] eqn:Eq; [done|]. injection Hhd as ->.
    by apply (RemoveTask_head t x q g).
  - right. left. destruct H as [H ?]. split; [by rewrite E|done].
  - by right; right.
Qed.

Lemma st_remove_live t g w n lo :
  quiet g -> live (mkCfg g w n lo) ->
  let g' := (RemoveTask t g).1 in
  let c := if bereft w t (m_queTasks g') then mkCfg g' None n true else mkCfg g' w n lo in
  quiet (cf_grp c) /\ live c.
Proof.
  intros Hqt Hl. cbv zeta. destruct (RemoveTask_same t g) as [_ E].
  unfold bereft. destruct (bool_decide (w = Some t)) eqn:Ew; cbn [andb].
  - destruct (front_is t (m_queTasks (RemoveTask t g).1)) eqn:Ef; cbn [negb].
    + split; [by rewrite E|]. intros Hst. simpl in Hst. rewrite E in Hst. simpl in Hst.
      destruct (Hl Hst) as [(Hw & x & Hx & Hx0 & Hhd)|[H|H]]; simpl in *.
      * left. split; [by rewrite E|]. exists x. split_and!; [done|done|].
        apply bool_decide_eq_true in Ew. rewrite Ew in Hx. injection Hx as ->.
        destruct (m_queTasks (RemoveTask x g).1) as [|y q]; [done|]. simpl in Ef |- *.
        f_equal. lia.
      * right. left. destruct H as [H ?]. split; [by rewrite E|done].
      * by right; right.
    + split; [by rewrite E|]. intros _. right. right. done.
  - apply RemoveTask_live; [done|done|]. left. by apply bool_decide_eq_false in Ew.
Qed.

(** A task reports outside of a run. *)
Lemma OnChildComplete_live m c t g w n lo g' ret b :
  c <> STATUS_PENDING -> quiet g -> live (mkCfg g w n lo) ->
  OnChildComplete m c t g = (g', ret, b) ->
  let w' := if bool_decide (w = Some t) then None else w in
  let c' := if b then mkCfg g' w' (S n) false
            else mkCfg g' w' n (lo || bool_decide (w = Some t)) in
  quiet (cf_grp c') /\ live c'.
Proof.
  intros Hc Hqt Hl. cbv zeta. unfold OnChildComplete.
  assert (Hgone : forall h, h = g \/ h = (RemoveTask t g).1 ->
    head (m_queTasks g) <> Some t \/ t = 0 ->
    quiet h /\ live (mkCfg h (if bool_decide (w = Some t) then None else w) n
                       (lo || bool_decide (w = Some t)))).
  { intros h Hh Hhd. case_bool_decide as Ew.
    - split; [|intros _; right; right; by rewrite orb_true_r].
      destruct Hh as [-> | ->]; [done|]. by destruct (RemoveTask_same t g) as [_ ->].
    - rewrite orb_false_r. destruct Hh as [-> | ->]; [done|]. apply RemoveTask_live; [done..|by left]. }
  destruct (Z.eqb_spec t 0) as [Ht0|Ht0].
  { intros [= <- <- <-]. apply Hgone; [by left|by right]. }
  destruct (m_queTasks g) as [|y q] eqn:Eq.
  { intros [= <- <- <-]. apply Hgone; [by left|by left]. }
  destruct (Z.eqb_spec t y) as [->|Hty]; cbn [negb].
  2: { intros [= <- <- <-]. apply Hgone; [by right|left; simpl; congruence]. }
  clear Hgone. set (g1 := set_retvals _ _).
  assert (quiet g1) as Hq1.
  { destruct Hqt as [Hns Hst]. split; [done|]. simpl. destruct (m_iTaskState g); try done.
    all: destruct Hst as (H1 & H2 & H3); split_and!; [done|done|].
    all: apply Forall_app; split; [done|by constructor]. }
  assert (forall s, m_iTaskState g = stateStarted -> quiet (SetHeadState s g1)) as Hq2.
  { intros s Est. destruct Hq1 as [H1 H2]. split; [done|]. simpl in *. by rewrite Est in *. }
  destruct (decide (m_iTaskState g = stateStarted)) as [Est|Est].
  2: { assert ((if m_bNoSched g1 || IsStopped (m_iTaskState g1) then (g1, 0, false)
          else if negb (bool_decide (m_byHeadState g1 = waitComplete)) then (g1, 0, false)
          else match m with
               | NoMgr ret => (g1, ret, false)
               | Rescheduled ret => (SetHeadState waitRunning g1, ret, negb (ERROR ret))
               end) = (g1, 0, false)) as ->.
       { destruct Hqt as [Hns Hst]. simpl. rewrite Hns.
         destruct (m_iTaskState g) eqn:E; try done. destruct Hst as (_ & -> & _). done. }
       intros [= <- <- <-]. split; [done|]. intros Hx. done. }
  destruct Hqt as [Hns _]. simpl. rewrite Hns, Est. cbn [IsStopped].
  destruct (Hl Est) as [(Hw & x & Hx & Hx0 & Hhd)|[(Hw & Hx & Hn)|(Hx & Hlo)]]; simpl in *.
  - rewrite Hw. cbn. rewrite Eq in Hhd. injection Hhd as ->.
    rewrite (bool_decide_true (w = Some x)) by done.
    destruct m as [e|e]; [intros [= <- <- <-]|destruct (ERROR e); intros [= <- <- <-]].
    1,2: rewrite orb_true_r; split; [first [done|by apply Hq2]|]; intros _; by right; right.
    split; [first [done|by apply Hq2]|]. intros _. right. left. split_and!; [done|done|simpl; lia].
  - rewrite bool_decide_false by done. cbn. intros [= <- <- <-].
    split; [done|]. intros _. right. left. subst w. by rewrite bool_decide_false.
  - rewrite Hx. rewrite !(bool_decide_false (None = Some y)) by done.
    case_bool_decide; cbn.
    2: { intros [= <- <- <-]. split; [done|]. intros _. right. right. by rewrite Hlo. }
    destruct m as [e|e]; [intros [= <- <- <-]|destruct (ERROR e); intros [= <- <- <-]].
    1,2: split; [first [done|by apply Hq2]|]; intros _; right; right; by rewrite Hlo.
    split; [first [done|by apply Hq2]|]. intros _. right. left. split_and!; [done|done|simpl; lia].
Qed.

Lemma step_live c c' :
  grp_step c c' -> quiet (cf_grp c) /\ live c -> quiet (cf_grp c') /\ live c'.
Proof.
  intros Hs [Hq Hl]. destruct Hs as [t g w n lo|t g w n lo|t g w n lo g' <-
    |script cs g g' ret calls w n lo Hok HR|script cs g g' ret calls w n lo Hok HR
    |script cs g g' ret calls w n lo Hok HR
    |m c t g w n lo g' ret b Hc HO|cs ctx g g' ret calls w n lo HO];
    simpl in Hq |- *.
  - unfold AppendTask. destruct (t =? 0); [done|]. destruct (IsStopped _); [done|].
    destruct (_ && _); [done|]. split; [by destruct Hq|]. intros Hst. simpl in Hst.
    destruct (Hl Hst) as [(Hw & x & Hx & Hx0 & Hhd)|Hr]; [left|by right].
    split; [done|]. exists x. split_and!; [done|done|]. by apply head_app_some.
  - unfold InsertTask. destruct (t =? 0); [done|]. case_bool_decide as Hst; [|done].
    simpl. split; [by destruct Hq|]. intros Hx. simpl in Hx. congruence.
  - by apply st_remove_live.
  - by eapply RunTask_live.
  - eapply RunTask_live; [done| |exact Hl|done]. destruct Hq as [Hns Hq]. split; [done|].
    simpl. destruct (m_iTaskState g); try done. all: by destruct Hq as (? & ? & _).
  - by eapply RunTask_live.
  - by eapply OnChildComplete_live.
  - destruct (OnCancel_stops _ _ _ _ _ _ (proj1 Hq) HO) as [(-> & -> & _ & _)|(Hst & Hns & _)].
    { done. }
    split; [split; [done|by rewrite Hst]|]. intros Hx. simpl in Hx. congruence.
Qed.

Lemma steps_live c c' :
  rtc grp_step c c' -> quiet (cf_grp c) /\ live c -> quiet (cf_grp c') /\ live c'.
Proof. induction 1 as [|c1 c2 c3 Hs _ IH]; [done|]. intros H. eapply IH, step_live; done. Qed.

Lemma RunTask_defined script cs g :
  run_ok script g -> quiet g -> exists o, RunTask script cs g = Ret o.
Proof.
  intros Hok [Hns Hq].
  assert (runnable g /\ Forall (fun c => c <> STATUS_PENDING) (m_vecRetVals g) \/
    exists g', RunTaskInternal script g = Ret (g', STATUS_PENDING, [])) as [[Hrun Hv]|[g' Hr]].
  { destruct (decide (m_byHeadState g = waitComplete)) as [Hw|Hw].
    - right. unfold RunTaskInternal. rewrite Hns.
      destruct (m_iTaskState g); try done; simpl.
      + destruct Hq as (_ & Hh & _). congruence.
      + destruct Hq as (-> & -> & _). simpl. rewrite (bool_decide_true _ Hw). by eexists.
      + by eexists.
    - destruct (m_iTaskState g) eqn:Est; try done.
      + left. split; [|by apply Hq]. destruct Hq as (? & ? & ?). split_and!; [by left|done..].
      + left. split; [|by apply Hq]. destruct Hq as (? & ? & ?). split_and!; [by right|done..].
      + right. unfold RunTaskInternal. rewrite Est. by eexists. }
  - unfold RunTask. rewrite RunTaskInternal_runnable by done.
    destruct (started_group_fields g Hrun) as (F1 & F2 & F3 & F4 & F5 & F6 & F7 & F8).
    destruct (match last (m_vecRetVals g) with Some c => _ | None => false end); [by eexists|].
    destruct (RunLoop_started script 0 (default 0 (last (m_vecRetVals g))) (started_group g))
      as (g1 & r & l & -> & _); [done| |done| |].
    { split_and!; [done|done|done|by rewrite F7]. }
    { destruct (last (m_vecRetVals g)) as [c|] eqn:El; [|done]. apply last_Some_elem_of in El.
      rewrite Forall_forall in Hv. by apply Hv. }
    cbn [obind]. destruct (negb _); cbn [obind]; destruct (_ =? ERROR_CANCEL_INSTEAD); by eexists.
  - unfold RunTask. rewrite Hr. by eexists.
Qed.

(** ** Properties *)

(** C7: a serial group answers what its relation promises, however its
    tasks finish.  For tasks that finish while they are called, just after, or
    later, the group runs to its end, answers with the first decisive code (the
    last code when there is none), has started exactly the tasks up to that
    code, in order and once each, and has then called off the others: all of
    them, unless they vanish while the group cancels. *)
Theorem serial_group_result (rel : EnumLogicOp) (code : Z -> Z) (mode : Z -> how)
    (cs : list (list win_op)) (q : list Z) :
  (forall t, code_ok (code t)) -> (0 ∉ q) -> NoDup q ->
  exists g' canc rest,
    drive (S (length q)) code mode cs (set_queue q (SetRelation rel NewTaskGroup)) =
      Some (g', group_result rel code None q,
            calls_of eventZero (group_started rel code q) ++ calls_of eventCancelTask canc) /\
    m_queTasks g' = [] /\ IsStopped (m_iTaskState g') = true /\
    q = group_started rel code q ++ rest /\ canc `sublist_of` rest /\
    (cs = [] -> canc = rest).
Proof.
  intros Hcode H0 Hn.
  apply (drive_result (S (length q)) code mode cs (set_queue q (SetRelation rel NewTaskGroup)));
    [done| |done|done|done|simpl; lia].
  split_and!; [by left|done|done|done].
Qed.

(** C8: a serial group is forgotten in two named cases only.  In every
    state reached from a new group by adding and removing tasks, running it,
    retrying it, rescheduling it, cancelling it, and tasks that report at any
    time, also while the group is at work: a run never reads an empty list of
    return values; and a started group either waits for the task at its head,
    which it has called, and the report of that task gets it rescheduled
    exactly when there is an I/O manager that takes it; or it is rescheduled
    already and that run will not be refused; or it has lost the one that was
    to carry it on: the task it waited for was removed with [RemoveTask], or
    reported and the I/O manager failed ([cf_lost], which these two steps set
    and nothing else).  While a task is being called any other task may be
    removed, not that one. *)
Theorem serial_group_live (rel : EnumLogicOp) (c : config) (script : list run_ans)
    (cs : list (list win_op)) :
  rtc grp_step (NewConfig rel) c -> run_ok script (cf_grp c) ->
  RunTask script cs (cf_grp c) <> Undef /\
  (m_iTaskState (cf_grp c) = stateStarted ->
   (exists t, cf_wait c = Some t /\ head (m_queTasks (cf_grp c)) = Some t /\
      forall mgr code, exists g' ret,
        OnChildComplete mgr code t (cf_grp c) = (g', ret, mgr_ok mgr)) \/
   (cf_wait c = None /\ (0 < cf_resched c)%nat /\
    m_byHeadState (cf_grp c) <> waitComplete) \/
   (cf_wait c = None /\ cf_lost c = true)).
Proof.
  intros Hr Hok.
  destruct (steps_live _ _ Hr) as [Hq Hl]; [by split|]. split.
  { destruct (RunTask_defined script cs (cf_grp c)) as [o ->]; done. }
  intros Hst. destruct (Hl Hst) as [(Hw & t & Hwait & Ht & Hhd)|[(Hw & Hn & Hp)|Hlo]];
    [left|by right; left|by right; right].
  exists t. split_and!; [done|done|]. intros mgr code. destruct Hq as [Hns _].
  unfold OnChildComplete. destruct (Z.eqb_spec t 0); [done|].
  destruct (m_queTasks (cf_grp c)) as [|x q]; [done|]. injection Hhd as ->.
  rewrite Z.eqb_refl. cbn. rewrite Hns, Hst, Hw. destruct mgr; by eexists _, _.
Qed.

(** What the two cases leave behind.  A started group waits for [t] at its
    head.  When [t] is removed, its report is refused and changes nothing, and
    a run of the group does nothing.  When [t] reports and [RescheduleTask]
    fails, no later report gets the group rescheduled. *)
Theorem serial_group_forgotten (g : CIfTaskGroup) (t c : Z) (q : list Z)
    (script : list run_ans) (cs : list (list win_op)) (mgr : mgr_ans) :
  quiet g -> m_iTaskState g = stateStarted -> m_byHeadState g = waitComplete ->
  m_queTasks g = t :: q -> t <> 0 -> (t ∉ q) ->
  (let g1 := (RemoveTask t g).1 in
   m_queTasks g1 = q /\
   OnChildComplete mgr c t g1 = (g1, - ENOENT, false) /\
   RunTask script cs g1 = Ret (Some (g1, STATUS_PENDING, []))) /\
  (forall e, ERROR e = true -> exists g2,
     OnChildComplete (Rescheduled e) c t g = (g2, e, false) /\ m_queTasks g2 = q /\
     forall mgr' c' u, (OnChildComplete mgr' c' u g2).2 = false).
Proof.
  intros Hqt Hst Hw Hq Ht Hnin. split.
  - assert ((RemoveTask t g).1 = set_queue q g) as ->.
    { unfold RemoveTask. rewrite Hq. destruct (Z.eqb_spec t 0); [done|].
      rewrite bool_decide_true by (by constructor). simpl. by rewrite Z.eqb_refl. }
    split_and!; [done| |].
    + unfold OnChildComplete. destruct (Z.eqb_spec t 0); [done|]. simpl.
      destruct q as [|u q]; [done|]. apply not_elem_of_cons in Hnin as [Hu Hnin].
      destruct (Z.eqb_spec t u); [done|]. cbn [negb]. unfold RemoveTask.
      destruct (Z.eqb_spec t 0); [done|]. simpl.
      rewrite bool_decide_false; [done|]. by apply not_elem_of_cons.
    + apply RunTask_waiting; [|done|done]. destruct Hqt as [H1 H2]. by split.
  - intros e He. unfold OnChildComplete at 1. rewrite Hq, Z.eqb_refl.
    destruct (Z.eqb_spec t 0); [done|]. cbn. destruct Hqt as [-> _]. rewrite Hst, Hw. cbn.
    rewrite He. eexists. split_and!; [done|done|]. intros mgr' c' u. unfold OnChildComplete. simpl.
    destruct (u =? 0); [done|]. destruct q as [|x q]; [done|]. destruct (negb _); [done|]. simpl.
    by destruct (_ || _).
Qed.

(** Cancelling a group that is not at work in another thread always
    ends, with the queue empty, the group stopped for good (it takes no task
    any more and a run does nothing), and every task told to cancel at most
    once and in order; all of them, when no task vanishes meanwhile. *)
Theorem serial_cancel_drains (g : CIfTaskGroup) (cs : list (list win_op)) (t : Z)
    (script : list run_ans) :
  (0 ∉ m_queTasks g) -> NoDup (m_queTasks g) ->
  IsStopped (m_iTaskState g) = false -> m_bCanceling g = false -> m_bNoSched g = false ->
  exists g' l,
    OnCancel cs eventCancelTask g = Some (g', - ECANCELED, calls_of eventCancelTask l) /\
    m_queTasks g' = [] /\ l `sublist_of` m_queTasks g /\ (cs = [] -> l = m_queTasks g) /\
    (t <> 0 -> AppendTask t g' = (g', ERROR_STATE)) /\
    InsertTask t g' = (g', if t =? 0 then - EINVAL else ERROR_STATE) /\
    RunTaskInternal script g' = Ret (g', STATUS_PENDING, []).
Proof.
  intros H0 Hn Hst Hc Hns. unfold OnCancel. rewrite Hst, Hc, Hns. cbn [andb].
  set (h := SetRunning false _).
  assert (skip_prev 0 (m_queTasks h) = m_queTasks g) as Hskip by (by apply skip_prev_id).
  destruct (CancelLoop_spec (S (length (m_queTasks h))) cs 0 h) as (g' & l & HE & Hq & Hst' & _ & Hl).
  { done. }
  { rewrite Hskip. simpl. lia. }
  rewrite Hskip in Hl. rewrite HE. exists g', l. split_and!; [|done|done| | | |].
  - by destruct (last (m_vecRetVals h)).
  - intros ->. destruct (CancelLoop_quiet (S (length (m_queTasks h))) 0 h) as (g2 & HE2 & _);
      [done|done|done|lia|]. rewrite HE in HE2. injection HE2 as _ HE2. simpl in HE2.
    by apply calls_of_inj in HE2.
  - intros Ht. unfold AppendTask. rewrite Hst'. by destruct (Z.eqb_spec t 0).
  - unfold InsertTask. rewrite Hst'. by destruct (t =? 0).
  - unfold RunTaskInternal. by rewrite Hst'.
Qed.

(** ** Witnesses and examples *)

Definition ex_code (t : Z) : Z := if t =? 2 then - ETIMEDOUT else 0.
Definition ex_mode (t : Z) : how := if t =? 1 then Async else if t =? 2 then Race else Sync.

Example and_stops : group_result logicAND ex_code None [1; 2; 3] = - ETIMEDOUT.
Proof. reflexivity. Qed.
Example or_stops : group_started logicOR ex_code [2; 1; 3] = [2; 1].
Proof. reflexivity. Qed.

Lemma serial_group_result_witness :
  exists g', drive 4 ex_code ex_mode [] (set_queue [1; 2; 3] (SetRelation logicAND NewTaskGroup)) =
    Some (g', - ETIMEDOUT, [(1, eventZero); (2, eventZero); (3, eventCancelTask)]).
Proof.
  destruct (serial_group_result logicAND ex_code ex_mode [] [1; 2; 3])
    as (g' & canc & rest & H1 & _ & _ & H2 & _ & H3).
  - intros t. unfold ex_code. destruct (t =? 2); by split_and!.
  - set_solver.
  - by repeat constructor; set_solver.
  - exists g'. injection H2 as <-. rewrite (H3 eq_refl) in H1. exact H1.
Defined.

Definition ex_config : config :=
  mkCfg (SetHeadState waitComplete (SetRunning true (SetTaskState stateStarted
    (set_queue [7; 8] (SetRelation logicOR NewTaskGroup))))) (Some 7) 0 false.

Lemma ex_config_reached : rtc grp_step (NewConfig logicOR) ex_config.
Proof.
  eapply rtc_l; [apply (st_append 7)|]. eapply rtc_l; [apply (st_append 8)|].
  eapply rtc_l; [|apply rtc_refl].
  by apply (st_run [] [] _ _ STATUS_PENDING [(7, eventZero)] None 0 false).
Qed.

(** Removing the task it does not wait for is harmless; removing the other
    loses it. *)
Lemma ex_config_remove :
  grp_step ex_config (mkCfg (set_queue [7] (cf_grp ex_config)) (Some 7) 0 false) /\
  grp_step ex_config (mkCfg (set_queue [8] (cf_grp ex_config)) None 0 true).
Proof.
  split; [exact (st_remove 8 _ (Some 7) 0 false _ eq_refl)|].
  exact (st_remove 7 _ (Some 7) 0 false _ eq_refl).
Qed.

Lemma serial_group_live_witness :
  exists g' ret, OnChildComplete (Rescheduled 0) 0 7 (set_queue [7] (cf_grp ex_config)) =
    (g', ret, true).
Proof.
  destruct (serial_group_live logicOR
    (mkCfg (set_queue [7] (cf_grp ex_config)) (Some 7) 0 false) [] []) as [_ H].
  - eapply rtc_r; [exact ex_config_reached|exact (proj1 ex_config_remove)].
  - exact I.
  - destruct (H eq_refl) as [(t & Ht & _ & Hd)|[[Hd _]|[Hd _]]]; [|discriminate Hd..].
    injection Ht as <-. exact (Hd (Rescheduled 0) 0).
Defined.

(** What is asked of the tasks while one is called is not vacuous: another may
    be removed and be done meanwhile. *)
Example ex_run_ok :
  run_ok [mkAns STATUS_PENDING [WRemove 8; WDone 0 9; WAppend 5]]
    (set_queue [7; 8; 9] NewTaskGroup).
Proof. repeat constructor; done. Qed.

(** Removing the very task that is called is another matter: when no task has
    finished yet, the loop then reads [m_vecRetVals.back()] of an empty list. *)
Example called_removed :
  RunTask [mkAns STATUS_PENDING [WRemove 7]] [] (set_queue [7; 8] NewTaskGroup) = Undef.
Proof. reflexivity. Qed.

Lemma serial_cancel_drains_witness :
  exists g', OnCancel [] eventCancelTask (set_queue [4; 5] NewTaskGroup) =
    Some (g', - ECANCELED, [(4, eventCancelTask); (5, eventCancelTask)]).
Proof.
  destruct (serial_cancel_drains (set_queue [4; 5] NewTaskGroup) [] 1 [])
    as (g' & l & H1 & _ & _ & H2 & _).
  - simpl. set_solver.
  - simpl. by repeat constructor; set_solver.
  - reflexivity.
  - reflexivity.
  - reflexivity.
  - exists g'. rewrite (H2 eq_refl) in H1. exact H1.
Defined.
