(* ===== verification/ParaGrp.v ===== *)
(** * Rate-limited parallel task groups: [ipc/iftasks.cpp], [rpc/reqfwdr.cpp]

    [CIfParallelTaskGrpRfc] runs the tasks of its queue side by side, at most
    [m_dwMaxRunning] at a time, and refuses more than [m_dwMaxPending] tasks on
    top of them.  [CIfParallelTaskGrpRfc2] adds what the round-robin scheduler
    asks of a group.  The class derives from [CIfTaskGroup], whose state is the
    field [base].  The set of running tasks holds a placeholder that keeps the
    group alive, so that [GetRunningCount] is one less than its size.

    As for serial groups, the lock is released while tasks are called; what
    happens to the group meanwhile is a script, one list of operations for
    every batch.  [std::set] is a strictly increasing list. *)

From Stdlib Require Import ZArith Lia.
From S2P Require Import Prelude TaskGroup.
Local Open Scope rpcf_scope.

Definition RFC_MAX_REQS : Z := 16.
Definition RFC_MAX_PENDINGS : Z := 32.
Definition ERROR_QUEUE_FULL : Z := s32 0x8001000e.

(** ** State *)

Record CIfParallelTaskGrpRfc := mkPara {
  base : CIfTaskGroup;
  m_setTasks : list Z;
  m_quePendingTasks : list Z;
  m_dwMaxRunning : Z;
  m_dwMaxPending : Z;
  m_dwTaskAdded : Z;
  m_dwTaskRejected : Z;
}.

(** The constructor takes the limits of its configuration, or its defaults. *)
Definition NewParaGrp (propMaxReqs propMaxPendings : option Z) : CIfParallelTaskGrpRfc :=
  mkPara (SetRelation logicNONE NewTaskGroup) [] []
    (default RFC_MAX_REQS propMaxReqs) (default RFC_MAX_PENDINGS propMaxPendings) 0 0.

Definition set_base (b : CIfTaskGroup) (g : CIfParallelTaskGrpRfc) : CIfParallelTaskGrpRfc :=
  mkPara b (m_setTasks g) (m_quePendingTasks g) (m_dwMaxRunning g) (m_dwMaxPending g)
    (m_dwTaskAdded g) (m_dwTaskRejected g).
Definition set_tasks (s q : list Z) (g : CIfParallelTaskGrpRfc) : CIfParallelTaskGrpRfc :=
  mkPara (base g) s q (m_dwMaxRunning g) (m_dwMaxPending g)
    (m_dwTaskAdded g) (m_dwTaskRejected g).
Definition set_limits (r p : Z) (g : CIfParallelTaskGrpRfc) : CIfParallelTaskGrpRfc :=
  mkPara (base g) (m_setTasks g) (m_quePendingTasks g) r p
    (m_dwTaskAdded g) (m_dwTaskRejected g).
Definition inc_added (g : CIfParallelTaskGrpRfc) : CIfParallelTaskGrpRfc :=
  mkPara (base g) (m_setTasks g) (m_quePendingTasks g) (m_dwMaxRunning g) (m_dwMaxPending g)
    (u32 (m_dwTaskAdded g + 1)) (m_dwTaskRejected g).
Definition inc_rejected (g : CIfParallelTaskGrpRfc) : CIfParallelTaskGrpRfc :=
  mkPara (base g) (m_setTasks g) (m_quePendingTasks g) (m_dwMaxRunning g) (m_dwMaxPending g)
    (m_dwTaskAdded g) (u32 (m_dwTaskRejected g + 1)).

Definition IsNoSched (g : CIfParallelTaskGrpRfc) : bool := m_bNoSched (base g).
Definition set_nosched (b : bool) (g : CIfParallelTaskGrpRfc) : CIfParallelTaskGrpRfc :=
  set_base (SetNoSched b (base g)) g.

(** ** Counts *)

Definition GetMaxRunning (g : CIfParallelTaskGrpRfc) : Z := s32 (m_dwMaxRunning g).
Definition GetMaxPending (g : CIfParallelTaskGrpRfc) : Z := m_dwMaxPending g.
Definition GetPendingCount (g : CIfParallelTaskGrpRfc) : Z :=
  u32 (Z.of_nat (length (m_quePendingTasks g))).
(** [m_setTasks.size() - 1] as a [gint32]: [-1] for an empty set. *)
Definition GetRunningCount (g : CIfParallelTaskGrpRfc) : Z :=
  s32 (Z.of_nat (length (m_setTasks g)) - 1).
Definition GetTaskCount (g : CIfParallelTaskGrpRfc) : Z :=
  u32 (Z.of_nat (length (m_setTasks g)) + Z.of_nat (length (m_quePendingTasks g))).

(** [CHECK_GRP_STATE]: whether the group still takes part. *)
Definition CHECK_GRP_STATE (g : CIfParallelTaskGrpRfc) : bool :=
  let b := base g in
  if IsStopped (m_iTaskState b) then false
  else if m_bCanceling b then false
  else negb (negb (m_bRunning b) && bool_decide (m_iTaskState b = stateStarted)).

(** ** Operations *)

(** [std::set::insert] *)
Fixpoint set_insert (x : Z) (s : list Z) : list Z :=
  match s with
  | [] => [x]
  | y :: s' => if x <? y then x :: s else if x =? y then s else y :: set_insert x s'
  end.
Definition insert_all (l s : list Z) : list Z := foldl (fun s x => set_insert x s) s l.

Definition ParaRemoveTask (pTask : Z) (g : CIfParallelTaskGrpRfc) : CIfParallelTaskGrpRfc * Z :=
  if bool_decide (pTask ∈ m_setTasks g)
  then (set_tasks (erase_first pTask (m_setTasks g)) (m_quePendingTasks g) g, 0)
  else if bool_decide (pTask ∈ m_quePendingTasks g)
  then (set_tasks (m_setTasks g) (erase_first pTask (m_quePendingTasks g)) g, 0)
  else (g, - ENOENT).

(** The test that [AddAndRun], [AppendTask] and [IsQueueFull] make. *)
Definition queue_full (g : CIfParallelTaskGrpRfc) : bool :=
  s32 (GetMaxPending g) + GetMaxRunning g <=? s32 (GetPendingCount g) + GetRunningCount g.

(** [bFull] is set only when the group still takes part. *)
Definition IsQueueFull (g : CIfParallelTaskGrpRfc) : Z * option bool :=
  if negb (CHECK_GRP_STATE g) then (ERROR_STATE, None) else (0, Some (queue_full g)).

(** [CIfParallelTaskGrp::AppendTask] *)
Definition SuperAppendTask (pTask : Z) (g : CIfParallelTaskGrpRfc) : CIfParallelTaskGrpRfc * Z :=
  if pTask =? 0 then (g, - EINVAL)
  else if negb (CHECK_GRP_STATE g) then (g, ERROR_STATE)
  else (set_tasks (m_setTasks g) (m_quePendingTasks g ++ [pTask]) g, 0).

(** [m_dwTaskAdded] counts also what the base class refuses. *)
Definition ParaAppendTask (pTask : Z) (g : CIfParallelTaskGrpRfc) : CIfParallelTaskGrpRfc * Z :=
  if queue_full g then (inc_rejected g, ERROR_QUEUE_FULL)
  else let '(g, ret) := SuperAppendTask pTask g in (inc_added g, ret).

Definition ParaInsertTask (pTask : Z) (g : CIfParallelTaskGrpRfc) : CIfParallelTaskGrpRfc * Z :=
  if negb (CHECK_GRP_STATE g) then (g, ERROR_STATE)
  else (set_tasks (m_setTasks g) (pTask :: m_quePendingTasks g) (inc_added g), 0).

Definition GetLimit (g : CIfParallelTaskGrpRfc) : option (Z * Z) :=
  if CHECK_GRP_STATE g
  then Some (Z.min (m_dwMaxRunning g) RFC_MAX_REQS, Z.min (m_dwMaxPending g) RFC_MAX_PENDINGS)
  else None.

(** The last component tells whether the group is rescheduled; a failure of the
    I/O manager is kept in an inner variable and does not reach the caller. *)
Definition SetLimit (mgr : mgr_ans) (dwMaxRunning dwMaxPending : Z) (bNoResched : bool)
    (g : CIfParallelTaskGrpRfc) : CIfParallelTaskGrpRfc * Z * bool :=
  if dwMaxPending =? 0 then (g, - EINVAL, false)
  else if negb (CHECK_GRP_STATE g) then (g, ERROR_STATE, false)
  else
    let g := set_limits (Z.min dwMaxRunning RFC_MAX_REQS)
               (Z.min dwMaxPending RFC_MAX_PENDINGS) g in
    if IsNoSched g then (g, 0, false)
    else if bNoResched then (g, 0, false)
    else if (GetRunningCount g <? GetMaxRunning g) && (0 <? GetPendingCount g)
    then (g, 0, mgr_ok mgr)
    else (g, 0, false).

(** The status that the I/O manager leaves. *)
Definition mgr_ret (mgr : mgr_ans) : Z :=
  match mgr with NoMgr ret | Rescheduled ret => ret end.

(** [CIfParallelTaskGrp::OnChildComplete] *)
Definition SuperOnChildComplete (mgr : mgr_ans) (pChild : Z) (g : CIfParallelTaskGrpRfc)
    : CIfParallelTaskGrpRfc * Z * bool :=
  if pChild =? 0 then (g, - EINVAL, false)
  else
    let g := (ParaRemoveTask pChild g).1 in
    if IsNoSched g then (g, 0, false)
    else if (GetPendingCount g =? 0) && (0 <? GetTaskCount g) then (g, 0, false)
    else (g, mgr_ret mgr, mgr_ok mgr).

Definition ParaOnChildComplete (mgr : mgr_ans) (pChild : Z) (g : CIfParallelTaskGrpRfc)
    : CIfParallelTaskGrpRfc * Z * bool :=
  if GetMaxRunning g <? GetRunningCount g
  then ((ParaRemoveTask pChild g).1, 0, false)
  else SuperOnChildComplete mgr pChild g.

(** What may happen while the group has released its lock.  [AddAndRun] then
    only queues and nobody asks the I/O manager, as [IsNoSched] holds. *)
Inductive para_op :=
  | PDone (t : Z)
  | PAdd (t : Z)
  | PAppend (t : Z)
  | PInsert (t : Z)
  | PRemove (t : Z)
  | PLimit (dwMaxRunning dwMaxPending : Z) (bNoResched : bool).

(** The first half of [AddAndRun]: the last component tells whether the group
    is run next. *)
Definition AddTask (pTask : Z) (g : CIfParallelTaskGrpRfc)
    : CIfParallelTaskGrpRfc * Z * bool :=
  if pTask =? 0 then (g, - EINVAL, false)
  else if negb (CHECK_GRP_STATE g) then (g, ERROR_STATE, false)
  else if queue_full g then (inc_rejected g, ERROR_QUEUE_FULL, false)
  else
    let g := inc_added (set_tasks (m_setTasks g) (m_quePendingTasks g ++ [pTask]) g) in
    if IsNoSched g then (g, 0, false)
    else if negb (m_bRunning (base g)) || (GetMaxRunning g <=? GetRunningCount g)
    then (g, 0, false)
    else (g, 0, true).

Definition para_apply (g : CIfParallelTaskGrpRfc) (o : para_op) : CIfParallelTaskGrpRfc :=
  match o with
  | PDone t => (ParaOnChildComplete (Rescheduled 0) t g).1.1
  | PAdd t => (AddTask t g).1.1
  | PAppend t => (ParaAppendTask t g).1
  | PInsert t => (ParaInsertTask t g).1
  | PRemove t => (ParaRemoveTask t g).1
  | PLimit r p b => (SetLimit (Rescheduled 0) r p b g).1.1
  end.

Definition para_window (ops : list para_op) (g : CIfParallelTaskGrpRfc)
    : CIfParallelTaskGrpRfc :=
  set_nosched false (foldl para_apply (set_nosched true g) ops).

(** A batch of tasks that was started, and the group right after. *)
Abbreviation batch := (list Z * CIfParallelTaskGrpRfc)%type.

(** The loop of [RunTaskInternal]. *)
Fixpoint ParaRunLoop (fuel : nat) (script : list (list para_op)) (iCount : Z)
    (g : CIfParallelTaskGrpRfc) : option (CIfParallelTaskGrpRfc * Z * list batch) :=
  match fuel with
  | O => None
  | S fuel =>
      let n := Z.to_nat (Z.min iCount (GetPendingCount g)) in
      let queTasksToRun := firstn n (m_quePendingTasks g) in
      let g := set_tasks (insert_all queTasksToRun (m_setTasks g))
                 (skipn n (m_quePendingTasks g)) g in
      let g' := para_window (default [] (head script)) g in
      let iCount := s32 (GetMaxRunning g' - GetRunningCount g') in
      if (0 <? GetPendingCount g') && (0 <? iCount) then
        match ParaRunLoop fuel (tail script) iCount g' with
        | Some (h, ret, l) => Some (h, ret, (queTasksToRun, g) :: l)
        | None => None
        end
      else
        let ret := if 0 <? GetTaskCount g' then STATUS_PENDING else 0 in
        Some (g', ret, [(queTasksToRun, g)])
  end.

(** A turn of the loop takes at least one task; the others have added at most
    one task with every operation. *)
Definition para_fuel (script : list (list para_op)) (g : CIfParallelTaskGrpRfc) : nat :=
  S (length (m_quePendingTasks g) + length (concat script)).

Definition ParaStop (g : CIfParallelTaskGrpRfc) : CIfParallelTaskGrpRfc :=
  set_base (SetTaskState stateStopping (SetRunning false (base g))) g.

Definition ParaRunTaskInternal (script : list (list para_op)) (g : CIfParallelTaskGrpRfc)
    : option (CIfParallelTaskGrpRfc * Z * list batch) :=
  if negb (CHECK_GRP_STATE g) then Some (g, STATUS_PENDING, [])
  else if IsNoSched g then Some (g, STATUS_PENDING, [])
  else
    let g := if bool_decide (m_iTaskState (base g) = stateStarting)
             then set_base (SetRunning true (SetTaskState stateStarted (base g))) g else g in
    if GetTaskCount g =? 0 then Some (ParaStop g, STATUS_SUCCESS, [])
    else if GetPendingCount g =? 0 then Some (g, STATUS_PENDING, [])
    else
      let iCount := s32 (GetMaxRunning g - GetRunningCount g) in
      if iCount <=? 0 then Some (g, STATUS_PENDING, [])
      else
        match ParaRunLoop (para_fuel script g) script iCount g with
        | Some (g, ret, l) =>
            Some (if negb (ret =? STATUS_PENDING) then ParaStop g else g, ret, l)
        | None => None
        end.

Definition AddAndRun (script : list (list para_op)) (pTask : Z) (g : CIfParallelTaskGrpRfc)
    : option (CIfParallelTaskGrpRfc * Z * list batch) :=
  match AddTask pTask g with
  | (g, _, true) => ParaRunTaskInternal script g
  | (g, ret, false) => Some (g, ret, [])
  end.

(** [None] while the group is at work in another thread.  The tasks that are
    told to cancel are the last component. *)
Definition ParaOnCancel (ops : list para_op) (g : CIfParallelTaskGrpRfc)
    : option (CIfParallelTaskGrpRfc * Z * list Z) :=
  if IsStopped (m_iTaskState (base g)) then Some (g, STATUS_PENDING, [])
  else if m_bCanceling (base g) then Some (g, STATUS_PENDING, [])
  else if IsNoSched g then None
  else
    let g := set_base (SetTaskState stateStopping
               (SetCanceling true (SetRunning false (base g)))) g in
    let vecTasks := m_quePendingTasks g ++ m_setTasks g in
    let g := set_tasks [] [] g in
    match vecTasks with
    | [] => Some (g, 0, [])
    | _ => Some (para_window ops g, 0, vecTasks)
    end.

(** ** [CIfParallelTaskGrpRfc2] *)

Section Rfc2.
(** Which tasks are [CIfInvokeMethodTask]s. *)
Variable IsInvoke : Z -> bool.

(** The loop of [SelTasksToKill]: the break is looked at after a task was
    taken. *)
Fixpoint SelLoop (iCount : Z) (s : list Z) : list Z :=
  match s with
  | [] => []
  | t :: s =>
      if IsInvoke t then t :: (if iCount - 1 =? 0 then [] else SelLoop (iCount - 1) s)
      else SelLoop iCount s
  end.

Definition SelTasksToKill (vecTasks : list Z) (g : CIfParallelTaskGrpRfc) : list Z :=
  if negb (CHECK_GRP_STATE g) then vecTasks
  else if GetRunningCount g <=? GetMaxRunning g then vecTasks
  else vecTasks ++ SelLoop (s32 (GetRunningCount g - GetMaxRunning g)) (m_setTasks g).

(** A child is done.  With a scheduler its slot is given back by
    [DeferredRemove] once its answer was sent, unless the scheduler killed it;
    [Some b] tells that the slot is free now, and whether the group is
    rescheduled. *)
Definition Rfc2OnChildComplete (mgr : mgr_ans) (bScheduler : bool) (ret pChild : Z) (g : CIfParallelTaskGrpRfc)
    : CIfParallelTaskGrpRfc * option bool :=
  if pChild =? 0 then (g, Some false)
  else if negb (IsInvoke pChild) then ((ParaRemoveTask pChild g).1, Some false)
  else if bScheduler then
    if ret =? ERROR_KILLED_BYSCHED then ((ParaRemoveTask pChild g).1, Some false)
    else (g, None)
  else
    let g := (ParaRemoveTask pChild g).1 in
    if GetMaxRunning g <=? GetRunningCount g then (g, Some false)
    else if IsNoSched g then (g, Some false)
    else if (GetPendingCount g =? 0) && (0 <? GetTaskCount g) then (g, Some false)
    else (g, Some (mgr_ok mgr)).

(** [DeferredRemove], after the answer was sent: whether the scheduler is asked
    for the next group. *)
Definition DeferredRemove (pChild : Z) (g : CIfParallelTaskGrpRfc)
    : CIfParallelTaskGrpRfc * bool :=
  if negb (IsInvoke pChild) then (g, false)
  else
    let g := (ParaRemoveTask pChild g).1 in
    (g, negb (GetMaxRunning g <=? GetRunningCount g) && negb (IsNoSched g)).

End Rfc2.

Definition HasPendingTasks (g : CIfParallelTaskGrpRfc) : Z := GetPendingCount g.

Definition HasFreeSlot (g : CIfParallelTaskGrpRfc) : bool :=
  if IsNoSched g then false else negb (GetMaxRunning g <=? GetRunningCount g).

Definition HasTaskToRun (g : CIfParallelTaskGrpRfc) : bool :=
  if IsNoSched g then false
  else if GetMaxRunning g <=? GetRunningCount g then false
  else negb (GetPendingCount g =? 0).

(** ** Reference notions *)

(** Limits and operations with arguments of their types, and a group small
    enough that no count wraps. *)
Definition limits_ok (g : CIfParallelTaskGrpRfc) : Prop :=
  0 <= m_dwMaxRunning g < 2 ^ 30 /\ 0 <= m_dwMaxPending g < 2 ^ 30.
Definition para_op_ok (o : para_op) : Prop :=
  match o with PLimit r p _ => 0 <= r < 2 ^ 32 /\ 0 <= p < 2 ^ 32 | _ => True end.
Definition task_number (g : CIfParallelTaskGrpRfc) : nat :=
  (length (m_setTasks g) + length (m_quePendingTasks g))%nat.
Definition fits (n : nat) (g : CIfParallelTaskGrpRfc) : Prop :=
  Z.of_nat (task_number g + n) < 2 ^ 30.

(** How many tasks run, the placeholder left out. *)
Definition running (g : CIfParallelTaskGrpRfc) : Z := Z.of_nat (length (m_setTasks g)) - 1.

(** A group with work to do and room to do it. *)
Definition starving (g : CIfParallelTaskGrpRfc) : Prop :=
  m_quePendingTasks g <> [] /\ running g < m_dwMaxRunning g.

Definition batch_ok (b : batch) : Prop :=
  b.1 <> [] /\ running b.2 <= m_dwMaxRunning b.2 /\ Forall (fun t => t ∈ m_setTasks b.2) b.1.

(** ** Lemmas: counts *)

Lemma s32_small z : - 2 ^ 31 <= z < 2 ^ 31 -> s32 z = z.
Proof. intros H. apply (sN_small 32); lia. Qed.

Lemma fits_le n m g : (n <= m)%nat -> fits m g -> fits n g.
Proof. unfold fits. lia. Qed.

Lemma counts g :
  limits_ok g -> fits 0 g ->
  GetRunningCount g = running g /\ GetMaxRunning g = m_dwMaxRunning g /\
  GetPendingCount g = Z.of_nat (length (m_quePendingTasks g)) /\
  GetTaskCount g = Z.of_nat (task_number g) /\
  s32 (GetMaxRunning g - GetRunningCount g) = m_dwMaxRunning g - running g.
Proof.
  unfold limits_ok, fits, task_number. intros [Hr Hp] Hf.
  unfold GetRunningCount, GetMaxRunning, GetPendingCount, GetTaskCount, running.
  rewrite !s32_small by (rewrite ?s32_small; lia). rewrite !u32_small by lia.
  split_and!; lia.
Qed.

Lemma length_set_insert x s : (length (set_insert x s) <= S (length s))%nat.
Proof.
  induction s as [|y s IH]; simpl; [lia|].
  destruct (x <? y); simpl; [lia|]. destruct (x =? y); simpl; lia.
Qed.

Lemma length_insert_all l s : (length (insert_all l s) <= length s + length l)%nat.
Proof.
  unfold insert_all. revert s. induction l as [|x l IH]; intros s; simpl; [lia|].
  specialize (IH (set_insert x s)). pose proof (length_set_insert x s). lia.
Qed.

Lemma elem_of_set_insert x y s : y ∈ set_insert x s <-> y = x \/ y ∈ s.
Proof.
  induction s as [|z s IH]; simpl; [set_solver|].
  destruct (x <? z); [set_solver|]. destruct (Z.eqb_spec x z) as [->|_]; set_solver.
Qed.

Lemma elem_of_insert_all y l s : y ∈ insert_all l s <-> y ∈ l \/ y ∈ s.
Proof.
  unfold insert_all. revert s. induction l as [|x l IH]; intros s; simpl; [set_solver|].
  rewrite IH, elem_of_set_insert. set_solver.
Qed.

Lemma length_erase_first x q : (length (erase_first x q) <= length q)%nat.
Proof. apply sublist_length, erase_first_sublist. Qed.

Lemma length_erase_in x q : x ∈ q -> S (length (erase_first x q)) = length q.
Proof.
  induction q as [|y q IH]; [set_solver|]. intros H. simpl.
  destruct (Z.eqb_spec y x); [done|]. simpl. rewrite IH; [done|set_solver].
Qed.

(** ** Lemmas: operations *)

Lemma ParaRemoveTask_frame t g :
  let g' := (ParaRemoveTask t g).1 in
  g' = set_tasks (m_setTasks g') (m_quePendingTasks g') g /\
  (length (m_setTasks g') <= length (m_setTasks g))%nat /\
  (length (m_quePendingTasks g') <= length (m_quePendingTasks g))%nat.
Proof.
  unfold ParaRemoveTask. simpl. pose proof (length_erase_first t (m_setTasks g)).
  pose proof (length_erase_first t (m_quePendingTasks g)).
  repeat case_bool_decide; simpl; split_and!; try done. by destruct g.
Qed.

Lemma ParaOnChildComplete_frame m t g :
  (ParaOnChildComplete m t g).1.1 = g \/
  (ParaOnChildComplete m t g).1.1 = (ParaRemoveTask t g).1.
Proof.
  unfold ParaOnChildComplete, SuperOnChildComplete.
  destruct (_ <? _); [by right|]. destruct (t =? 0); [by left|].
  destruct (IsNoSched _); [by right|]. destruct (_ && _); by right.
Qed.

(** What an operation may change while the lock is released. *)
Lemma para_apply_frame g o :
  para_op_ok o -> limits_ok g ->
  let g' := para_apply g o in
  limits_ok g' /\ base g' = base g /\
  (task_number g' <= S (task_number g))%nat /\
  (length (m_quePendingTasks g') <= S (length (m_quePendingTasks g)))%nat.
Proof.
  intros Hok Hl. unfold task_number. destruct o as [t|t|t|t|t|r p b]; simpl.
  - destruct (ParaOnChildComplete_frame (Rescheduled 0) t g) as [-> | ->]; [split_and!; [done|done|lia|lia]|].
    destruct (ParaRemoveTask_frame t g) as (-> & H1 & H2). simpl in *. split_and!; [done|done|lia|lia].
  - unfold AddTask. destruct (t =? 0); [split_and!; [done|done|simpl; lia..]|].
    destruct (negb _); [split_and!; [done|done|simpl; lia..]|].
    destruct (queue_full g); [split_and!; [done|done|simpl; lia..]|].
    destruct (IsNoSched _); [|destruct (_ || _)];
      simpl; rewrite length_app; simpl; split_and!; [done|done|lia|lia|done|done|lia|lia|done|done|lia|lia].
  - unfold ParaAppendTask, SuperAppendTask. destruct (queue_full g); [split_and!; [done|done|simpl; lia..]|].
    destruct (t =? 0); [split_and!; [done|done|simpl; lia..]|].
    destruct (negb _); simpl; rewrite ?length_app; simpl; split_and!; [done|done|lia|lia|done|done|lia|lia].
  - unfold ParaInsertTask. destruct (negb _); simpl; split_and!; [done|done|lia|lia|done|done|lia|lia].
  - destruct (ParaRemoveTask_frame t g) as (-> & H1 & H2). simpl in *. split_and!; [done|done|lia|lia].
  - unfold SetLimit. simpl in Hok.
    assert (limits_ok (set_limits (Z.min r RFC_MAX_REQS) (Z.min p RFC_MAX_PENDINGS) g)).
    { unfold limits_ok, RFC_MAX_REQS, RFC_MAX_PENDINGS in *. simpl. lia. }
    destruct (p =? 0); [split_and!; [done|done|simpl; lia..]|].
    destruct (negb _); [split_and!; [done|done|simpl; lia..]|].
    destruct (IsNoSched _); [|destruct b; [|destruct (_ && _)]];
      simpl; split_and!; try done; lia.
Qed.

Lemma para_window_frame ops g :
  Forall para_op_ok ops -> limits_ok g ->
  let g' := para_window ops g in
  limits_ok g' /\ base g' = SetNoSched false (base g) /\
  (task_number g' <= length ops + task_number g)%nat /\
  (length (m_quePendingTasks g') <= length ops + length (m_quePendingTasks g))%nat.
Proof.
  intros Hok Hl.
  enough (forall h, limits_ok h ->
    let g' := foldl para_apply h ops in
    limits_ok g' /\ base g' = base h /\ (task_number g' <= length ops + task_number h)%nat /\
    (length (m_quePendingTasks g') <= length ops + length (m_quePendingTasks h))%nat) as H.
  { destruct (H (set_nosched true g) Hl) as (H1 & H2 & H3 & H4).
    split_and!; [exact H1| |exact H3|exact H4].
    change (SetNoSched false (base (foldl para_apply (set_nosched true g) ops)) = SetNoSched false (base g)).
    by rewrite H2. }
  clear g Hl. induction Hok as [|o ops Ho _ IH]; intros h Hh; simpl; [split_and!; [done|done|lia|lia]|].
  destruct (para_apply_frame h o Ho Hh) as (H1 & H2 & H3 & H4).
  destruct (IH _ H1) as (H1' & H2' & H3' & H4'). split_and!; [done|congruence|lia|lia].
Qed.

(** ** Lemmas: running *)

Lemma starving_dec g : starving g \/ (m_quePendingTasks g = [] \/ m_dwMaxRunning g <= running g).
Proof.
  unfold starving. destruct (m_quePendingTasks g); [by right; left|].
  destruct (Z.lt_ge_cases (running g) (m_dwMaxRunning g)); [by left|by right; right].
Qed.

Lemma starving_test g :
  limits_ok g -> fits 0 g ->
  ((0 <? GetPendingCount g) && (0 <? s32 (GetMaxRunning g - GetRunningCount g)))%bool = true <->
  starving g.
Proof.
  intros Hl Hf. destruct (counts g Hl Hf) as (_ & _ & -> & _ & ->). unfold starving.
  rewrite andb_true_iff, !Z.ltb_lt. destruct (m_quePendingTasks g); simpl; split; intros [? ?];
    split; try done; lia.
Qed.

Lemma script_split {A} (script : list (list A)) :
  concat script = default [] (head script) ++ concat (tail script).
Proof. by destruct script. Qed.

(** The tasks a turn of the loop starts. *)
Definition started_batch (g : CIfParallelTaskGrpRfc) : list Z :=
  firstn (Z.to_nat (Z.min (m_dwMaxRunning g - running g) (Z.of_nat (length (m_quePendingTasks g)))))
    (m_quePendingTasks g).
Definition after_start (g : CIfParallelTaskGrpRfc) : CIfParallelTaskGrpRfc :=
  set_tasks (insert_all (started_batch g) (m_setTasks g))
    (skipn (length (started_batch g)) (m_quePendingTasks g)) g.

Lemma after_start_spec n g :
  starving g -> limits_ok g -> fits n g ->
  batch_ok (started_batch g, after_start g) /\ limits_ok (after_start g) /\
  fits n (after_start g) /\
  (S (length (m_quePendingTasks (after_start g))) <= length (m_quePendingTasks g))%nat.
Proof.
  intros [Hq Hr] Hl Hf. unfold batch_ok, fits, limits_ok, task_number, running in *. simpl.
  pose proof (length_insert_all (started_batch g) (m_setTasks g)) as Hi.
  rewrite length_skipn. unfold started_batch in *. rewrite length_firstn in *.
  unfold running in *.
  assert (0 < length (m_quePendingTasks g))%nat by (destruct (m_quePendingTasks g); simpl; [done|lia]).
  split_and!; try lia.
  - intros E. apply (f_equal length) in E. rewrite length_firstn in E. simpl in E. lia.
  - apply Forall_forall. intros t Ht. apply elem_of_insert_all. by left.
Qed.

Lemma ParaRunLoop_spec fuel script g :
  Forall (Forall para_op_ok) script -> limits_ok g -> fits (length (concat script)) g ->
  starving g -> (length (m_quePendingTasks g) + length (concat script) < fuel)%nat ->
  exists g' ret l,
    ParaRunLoop fuel script (m_dwMaxRunning g - running g) g = Some (g', ret, l) /\
    limits_ok g' /\ fits 0 g' /\ base g' = SetNoSched false (base g) /\ ~ starving g' /\
    ret = (if 0 <? Z.of_nat (task_number g') then STATUS_PENDING else 0) /\
    Forall batch_ok l /\ l <> [].
Proof.
  revert script g. induction fuel as [|fuel IH]; intros script g Hok Hl Hf Hs Hfuel; [lia|].
  cbn [ParaRunLoop].
  assert (fits 0 g) as Hf0 by (eapply fits_le; [|done]; lia).
  destruct (counts g Hl Hf0) as (_ & _ & -> & _ & _). fold (started_batch g).
  set (n := Z.to_nat (Z.min (m_dwMaxRunning g - running g) (Z.of_nat (length (m_quePendingTasks g))))).
  assert (n = length (started_batch g)) as ->.
  { unfold started_batch. fold n. rewrite length_firstn. lia. }
  fold (after_start g).
  destruct (after_start_spec _ g Hs Hl Hf) as (Hb & Hl1 & Hf1 & Hq1).
  rewrite (script_split script), length_app in Hf1, Hfuel.
  assert (Forall para_op_ok (default [] (head script)) /\ Forall (Forall para_op_ok) (tail script))
    as [Hok1 Hok2] by (destruct Hok; simpl; done).
  destruct (para_window_frame (default [] (head script)) (after_start g) Hok1 Hl1)
    as (Hl2 & Hb2 & Ht2 & Hq2).
  set (w := para_window _ _) in *. cbn zeta in *.
  assert (fits (length (concat (tail script))) w) as Hf2 by (unfold fits in *; lia).
  assert (fits 0 w) as Hf2' by (eapply fits_le; [|done]; lia).
  destruct ((0 <? GetPendingCount w) && _)%bool eqn:Et.
  - apply starving_test in Et; [|done|done].
    destruct (IH (tail script) w Hok2 Hl2 Hf2 Et) as (g' & ret & l & HE & H1 & H2 & H3 & H4 & H5 & H6 & _).
    { lia. }
    destruct (counts w Hl2 Hf2') as (_ & _ & _ & _ & ->). rewrite HE.
    exists g', ret, ((started_batch g, after_start g) :: l). rewrite Hb2 in H3.
    split_and!; [done|done|done|done|done|done|by constructor|done].
  - exists w, (if 0 <? GetTaskCount w then STATUS_PENDING else 0), [(started_batch g, after_start g)].
    split_and!; [done|done|done|done| | |by apply Forall_singleton|done].
    + intros Hsw. apply starving_test in Hsw; [|done|done]. congruence.
    + by destruct (counts w Hl2 Hf2') as (_ & _ & _ & -> & _).
Qed.

(** A group that may be run. *)
Definition para_runnable (g : CIfParallelTaskGrpRfc) : Prop :=
  CHECK_GRP_STATE g = true /\ IsNoSched g = false.

Definition para_started (g : CIfParallelTaskGrpRfc) : CIfParallelTaskGrpRfc :=
  if bool_decide (m_iTaskState (base g) = stateStarting)
  then set_base (SetRunning true (SetTaskState stateStarted (base g))) g else g.

Lemma para_started_frame g :
  para_started g = set_base (base (para_started g)) g.
Proof. unfold para_started. destruct (bool_decide _); by destruct g. Qed.

(** A run of a group that may be run. *)
Lemma ParaRun_spec script g :
  Forall (Forall para_op_ok) script -> limits_ok g -> fits (length (concat script)) g ->
  para_runnable g ->
  exists g' ret l,
    ParaRunTaskInternal script g = Some (g', ret, l) /\ Forall batch_ok l /\
    limits_ok g' /\ fits 0 g' /\ ~ starving g' /\ IsNoSched g' = false /\
    (ret = STATUS_PENDING /\ base g' = SetNoSched false (base (para_started g)) /\
       (l = [] -> g' = para_started g) \/
     ret = 0 /\ m_iTaskState (base g') = stateStopping /\ task_number g' = 0%nat).
Proof.
  intros Hok Hl Hf [Hc Hns]. unfold ParaRunTaskInternal. rewrite Hc, Hns. cbn [negb].
  fold (para_started g). rewrite (para_started_frame g).
  set (b := base (para_started g)). set (gs := set_base b g).
  assert (m_bNoSched b = false) as Hnb.
  { unfold b, para_started. by destruct (bool_decide _). }
  assert (Hsb : SetNoSched false b = b) by (destruct b; simpl in *; by subst).
  assert (limits_ok gs) as Hl' by done.
  assert (fits 0 gs) as Hf' by (eapply (fits_le _ _ g); [|done]; lia).
  destruct (counts gs Hl' Hf') as (_ & _ & Hpc & Htc & Hic). rewrite Hpc, Htc, Hic.
  destruct (Z.eqb_spec (Z.of_nat (task_number gs)) 0) as [Ht|Ht].
  { exists (ParaStop gs), STATUS_SUCCESS, [].
    assert (m_quePendingTasks gs = []) as Hq.
    { unfold task_number in Ht. destruct (m_quePendingTasks gs); [done|simpl in Ht; lia]. }
    split_and!; [done|done|done|done|by intros [Hx _]|done|]. right. split_and!; [done|done|].
    unfold task_number in *. simpl in *. lia. }
  destruct (Z.eqb_spec (Z.of_nat (length (m_quePendingTasks gs))) 0) as [Hq|Hq].
  { exists gs, STATUS_PENDING, []. split_and!; [done|done|done|done| |done|by left].
    intros [Hx _]. destruct (m_quePendingTasks gs); [done|simpl in Hq; lia]. }
  destruct (Z.leb_spec (m_dwMaxRunning gs - running gs) 0) as [Hi|Hi].
  { exists gs, STATUS_PENDING, []. split_and!; [done|done|done|done| |done|by left].
    intros [_ Hx]. lia. }
  assert (starving gs) as Hs by (split; [intros E; rewrite E in Hq; simpl in Hq; lia|lia]).
  destruct (ParaRunLoop_spec (para_fuel script gs) script gs Hok Hl' Hf Hs)
    as (g' & ret & l & -> & H1 & H2 & H3 & H4 & H5 & H6 & H7); [unfold para_fuel; lia|].
  change (base gs) with b in H3.
  destruct (Z.ltb_spec 0 (Z.of_nat (task_number g'))) as [Hn|Hn]; subst ret.
  - exists g', STATUS_PENDING, l. split_and!; [done|done|done|done|done|unfold IsNoSched; by rewrite H3|].
    left. by split_and!.
  - exists (ParaStop g'), 0, l. split_and!; [done|done|done|done| |simpl; unfold IsNoSched; by rewrite <- Hnb, <- Hsb, <- H3|].
    + intros [Hx _]. unfold task_number in Hn. simpl in Hx. destruct (m_quePendingTasks g'); [done|simpl in Hn; lia].
    + right. split_and!; [done|done|]. unfold task_number in *. simpl in *. lia.
Qed.

(** ** Liveness: the group as a state machine *)

(** The group, how many of its reschedules are on their way, and whether
    somebody owes it a run: a task was appended or inserted without running the
    group; a running task was removed although it did not report; the limits
    leave work and room but the caller did not want the group rescheduled; or
    the I/O manager failed to reschedule it.  A run or a reschedule pays. *)
Record para_config := mkParaCfg {
  pc_grp : CIfParallelTaskGrpRfc; pc_resched : nat; pc_owed : bool
}.

(** After an operation that answered [b] and would have rescheduled the group
    had it been let, which is [wanted]. *)
Definition after_resched (g' : CIfParallelTaskGrpRfc) (n : nat) (o wanted b : bool)
    : para_config :=
  if b then mkParaCfg g' (S n) false else mkParaCfg g' n (o || wanted).

(** The steps of a group: tasks are added and run, only appended or inserted,
    removed, or they report; the limits change; the group is run by anybody, or
    as often as it was rescheduled, or cancelled. *)
Inductive para_step : para_config -> para_config -> Prop :=
  | ps_add script t g g' ret l n o :
      Forall (Forall para_op_ok) script -> fits (S (length (concat script))) g ->
      AddAndRun script t g = Some (g', ret, l) ->
      para_step (mkParaCfg g n o) (mkParaCfg g' n (o && negb (AddTask t g).2))
  | ps_append t g g' ret n o :
      fits 0 g -> ParaAppendTask t g = (g', ret) ->
      para_step (mkParaCfg g n o) (mkParaCfg g' n (o || (ret =? 0)))
  | ps_insert t g g' ret n o :
      fits 0 g -> ParaInsertTask t g = (g', ret) ->
      para_step (mkParaCfg g n o) (mkParaCfg g' n (o || (ret =? 0)))
  | ps_remove t g g' ret n o :
      fits 0 g -> ParaRemoveTask t g = (g', ret) ->
      para_step (mkParaCfg g n o) (mkParaCfg g' n (o || bool_decide (t ∈ m_setTasks g)))
  | ps_done mgr t g g' ret b n o :
      fits 0 g -> ParaOnChildComplete mgr t g = (g', ret, b) ->
      para_step (mkParaCfg g n o)
        (after_resched g' n o (ParaOnChildComplete (Rescheduled 0) t g).2 b)
  | ps_limit mgr r p bNoResched g g' ret b n o :
      fits 0 g -> 0 <= r < 2 ^ 32 -> 0 <= p < 2 ^ 32 ->
      SetLimit mgr r p bNoResched g = (g', ret, b) ->
      para_step (mkParaCfg g n o)
        (after_resched g' n o (SetLimit (Rescheduled 0) r p false g).2 b)
  | ps_run script g g' ret l n o :
      Forall (Forall para_op_ok) script -> fits (length (concat script)) g ->
      ParaRunTaskInternal script g = Some (g', ret, l) ->
      para_step (mkParaCfg g n o) (mkParaCfg g' n false)
  | ps_resched script g g' ret l n o :
      Forall (Forall para_op_ok) script -> fits (length (concat script)) g ->
      ParaRunTaskInternal script g = Some (g', ret, l) ->
      para_step (mkParaCfg g (S n) o) (mkParaCfg g' n false)
  | ps_cancel ops g g' ret l n o :
      Forall para_op_ok ops -> ParaOnCancel ops g = Some (g', ret, l) ->
      para_step (mkParaCfg g n o) (mkParaCfg g' n o).

(** What holds between the steps. *)
Definition base_ok (b : CIfTaskGroup) : Prop :=
  m_bNoSched b = false /\
  match m_iTaskState b with
  | stateStarting => m_bCanceling b = false
  | stateStarted => m_bRunning b = true /\ m_bCanceling b = false
  | stateStopping => True
  | _ => False
  end.

Definition para_inv (c : para_config) : Prop :=
  base_ok (base (pc_grp c)) /\ limits_ok (pc_grp c) /\
  (m_iTaskState (base (pc_grp c)) = stateStarted -> starving (pc_grp c) ->
   (0 < pc_resched c)%nat \/ pc_owed c = true).

Lemma base_ok_runnable g :
  base_ok (base g) -> m_iTaskState (base g) <> stateStopping -> para_runnable g.
Proof.
  intros [Hns Hst] Hne. split; [|done]. unfold CHECK_GRP_STATE.
  destruct (m_iTaskState (base g)) eqn:E; try done; simpl.
  - by rewrite Hst, andb_false_r.
  - destruct Hst as [-> ->]. done.
Qed.

Lemma ParaRun_inv script g g' ret l n o :
  Forall (Forall para_op_ok) script -> limits_ok g -> fits (length (concat script)) g ->
  base_ok (base g) -> ParaRunTaskInternal script g = Some (g', ret, l) ->
  para_inv (mkParaCfg g' n o).
Proof.
  intros Hok Hl Hf Hb HR. destruct (decide (m_iTaskState (base g) = stateStopping)) as [Hs|Hs].
  { unfold ParaRunTaskInternal, CHECK_GRP_STATE in HR. rewrite Hs in HR. simpl in HR. simplify_eq.
    split_and!; [done|done|simpl; congruence]. }
  destruct (ParaRun_spec script g Hok Hl Hf (base_ok_runnable g Hb Hs))
    as (h & r & l' & HE & _ & H1 & _ & H2 & H3 & H4). rewrite HE in HR. simplify_eq.
  split_and!; [|done|done]. split; [done|].
  destruct H4 as [(_ & Hb' & _)|(_ & Hst & _)]; simpl; [|by rewrite Hst]. rewrite Hb'. simpl.
  destruct Hb as [_ Hb]. unfold para_started.
  destruct (m_iTaskState (base g)) eqn:E; try done; simpl; by rewrite E.
Qed.

(** The branches of [OnChildComplete] that do not reschedule leave nothing to
    be run. *)
Lemma ParaOnChildComplete_starving t g g' ret :
  limits_ok g -> fits 0 g -> IsNoSched g = false ->
  ParaOnChildComplete (Rescheduled 0) t g = (g', ret, false) -> starving g' -> g' = g.
Proof.
  intros Hl Hf Hns. destruct (counts g Hl Hf) as (Hrc & Hmr & _).
  destruct (ParaRemoveTask_frame t g) as (Hfr & Hs & Hq).
  set (h := (ParaRemoveTask t g).1) in *.
  assert (limits_ok h) as Hl' by (by rewrite Hfr).
  assert (fits 0 h) as Hf' by (unfold fits, task_number in *; lia).
  destruct (counts h Hl' Hf') as (_ & _ & Hpc & Htc & _).
  unfold ParaOnChildComplete, SuperOnChildComplete. fold h. rewrite Hrc, Hmr.
  destruct (Z.ltb_spec (m_dwMaxRunning g) (running g)) as [Hx|Hx].
  { intros [= <- <-] [_ Hst]. exfalso. unfold running in *.
    assert (S (length (m_setTasks h)) >= length (m_setTasks g))%nat as Hlen.
    { subst h. unfold ParaRemoveTask. repeat case_bool_decide; simpl; [|lia..].
      rewrite length_erase_in by done. lia. }
    rewrite Hfr in Hst. simpl in Hst. lia. }
  destruct (t =? 0); [by intros [= <- <-]|].
  assert (IsNoSched h = false) as -> by (by rewrite Hfr).
  rewrite Hpc, Htc. destruct (_ && _)%bool eqn:E; [|done].
  intros [= <- <-] [Hst _]. exfalso. zify_bools. by destruct (m_quePendingTasks h).
Qed.

Lemma ParaOnChildComplete_mgr m m' t g :
  (ParaOnChildComplete m t g).1.1 = (ParaOnChildComplete m' t g).1.1.
Proof.
  unfold ParaOnChildComplete, SuperOnChildComplete. destruct (_ <? _); [done|].
  destruct (t =? 0); [done|]. destruct (IsNoSched _); [done|]. by destruct (_ && _).
Qed.

(** Starting or not, a group whose tasks and limits are those of [g]. *)
Lemma starving_same g g' :
  m_setTasks g' = m_setTasks g -> m_quePendingTasks g' = m_quePendingTasks g ->
  m_dwMaxRunning g' = m_dwMaxRunning g -> starving g' -> starving g.
Proof. unfold starving, running. by intros -> -> ->. Qed.

(** What each way to change the group without running it leaves. *)
Lemma AddTask_idle t g g' ret :
  base_ok (base g) -> limits_ok g -> fits 1 g -> m_iTaskState (base g) = stateStarted ->
  AddTask t g = (g', ret, false) -> starving g' -> starving g.
Proof.
  intros [Hns Hb] Hl Hf Hst EA Hsv. rewrite Hst in Hb. destruct Hb as [Hrun Hcan].
  unfold AddTask in EA. destruct (t =? 0); [by simplify_eq|].
  destruct (negb _); [by simplify_eq|]. destruct (queue_full g); [by simplify_eq|].
  unfold IsNoSched in EA. simpl in EA. rewrite Hns, Hrun in EA. simpl in EA.
  destruct (_ <=? _) eqn:E; [|done]. simplify_eq. exfalso. destruct Hsv as [_ Hsv].
  destruct (counts g Hl) as (Hrc & Hmr & _); [by eapply fits_le; [|done]; lia|].
  unfold GetMaxRunning, GetRunningCount, running in *. simpl in *. zify_bools. lia.
Qed.

Lemma ParaAppendTask_idle t g g' ret :
  ParaAppendTask t g = (g', ret) -> ret <> 0 -> starving g' -> starving g.
Proof.
  unfold ParaAppendTask, SuperAppendTask. destruct (queue_full g); [by intros [= <- <-]|].
  destruct (t =? 0); [by intros [= <- <-]|]. destruct (negb _); [by intros [= <- <-]|].
  by intros [= <- <-].
Qed.

Lemma ParaRemoveTask_idle t g g' ret :
  ParaRemoveTask t g = (g', ret) -> (t ∉ m_setTasks g) -> starving g' -> starving g.
Proof.
  unfold ParaRemoveTask. intros HR Ht. rewrite bool_decide_false in HR by done.
  case_bool_decide; simplify_eq; [|done]. intros [Hq Hr]. split; [|exact Hr].
  simpl in Hq. by destruct (m_quePendingTasks g).
Qed.

Lemma ParaOnChildComplete_idle m t g g' ret :
  base_ok (base g) -> limits_ok g -> fits 0 g ->
  ParaOnChildComplete m t g = (g', ret, false) ->
  (ParaOnChildComplete (Rescheduled 0) t g).2 = false -> starving g' -> starving g.
Proof.
  intros [Hns _] Hl Hf HD Hb Hsv. pose proof (ParaOnChildComplete_mgr m (Rescheduled 0) t g) as E.
  rewrite HD in E. destruct (ParaOnChildComplete (Rescheduled 0) t g) as [[h r] b] eqn:E0.
  simpl in *. subst. assert (h = g) as -> by (by eapply ParaOnChildComplete_starving). done.
Qed.

Lemma SetLimit_frame m r p bNo g g' ret b :
  limits_ok g -> 0 <= r < 2 ^ 32 -> 0 <= p < 2 ^ 32 ->
  SetLimit m r p bNo g = (g', ret, b) -> limits_ok g' /\ base g' = base g.
Proof.
  intros Hl Hr Hp. unfold SetLimit.
  assert (limits_ok (set_limits (Z.min r RFC_MAX_REQS) (Z.min p RFC_MAX_PENDINGS) g)).
  { unfold limits_ok, RFC_MAX_REQS, RFC_MAX_PENDINGS in *. simpl. lia. }
  destruct (p =? 0); [by intros [= <- <- <-]|]. destruct (negb _); [by intros [= <- <- <-]|].
  destruct (IsNoSched _); [|destruct bNo; [|destruct (_ && _)%bool]]; by intros [= <- <- <-].
Qed.

Lemma SetLimit_idle m r p bNo g g' ret :
  base_ok (base g) -> limits_ok g -> fits 0 g -> 0 <= r < 2 ^ 32 -> 0 <= p < 2 ^ 32 ->
  SetLimit m r p bNo g = (g', ret, false) ->
  (SetLimit (Rescheduled 0) r p false g).2 = false -> starving g' -> starving g.
Proof.
  intros [Hns _] Hl Hf Hr Hp HS Hw Hsv.
  destruct (SetLimit_frame m r p bNo g g' ret false) as [F1 _]; [done..|].
  unfold SetLimit in *. destruct (p =? 0); [by simplify_eq|].
  destruct (negb _); [by simplify_eq|].
  set (h := set_limits _ _ g) in *. assert (IsNoSched h = false) as Hx by done. rewrite Hx in *.
  assert (g' = h) as -> by (destruct bNo; [|destruct (_ && _)%bool]; by simplify_eq).
  exfalso. destruct (counts h F1 Hf) as (Hrc & Hmr & Hpc & _). rewrite Hrc, Hmr, Hpc in Hw.
  destruct Hsv as [Hq Hlt]. destruct (_ && _)%bool eqn:E in Hw; [done|].
  apply andb_false_iff in E as [E|E]; zify_bools; [lia|].
  destruct (m_quePendingTasks h); [done|simpl in E; lia].
Qed.

Lemma after_resched_inv g' n o wanted b :
  base_ok (base g') -> limits_ok g' ->
  (m_iTaskState (base g') = stateStarted -> starving g' -> b = false -> wanted = false ->
   (0 < n)%nat \/ o = true) ->
  para_inv (after_resched g' n o wanted b).
Proof.
  intros Hb Hl Hw. unfold after_resched. destruct b; (split_and!; [done|done|]);
    intros Hst Hsv; simpl in *; [left; lia|].
  destruct wanted; [right; by rewrite orb_true_r|]. rewrite orb_false_r. by apply Hw.
Qed.

Lemma ParaOnCancel_inv ops g g' ret l n o :
  Forall para_op_ok ops -> para_inv (mkParaCfg g n o) -> ParaOnCancel ops g = Some (g', ret, l) ->
  para_inv (mkParaCfg g' n o).
Proof.
  intros Hok (Hb & Hl & Hw) HC. simpl in *.
  unfold ParaOnCancel in HC. destruct (IsStopped _); [by simplify_eq|].
  destruct (m_bCanceling _); [by simplify_eq|]. destruct (IsNoSched g) eqn:Hns; [done|].
  simpl in HC. destruct (m_quePendingTasks g ++ m_setTasks g).
  { injection HC as <- <- <-. split; [by split; [apply Hb|]|]. by split. }
  injection HC as <- <- <-.
  match goal with |- context [para_window ops ?h] =>
    destruct (para_window_frame ops h Hok) as (W1 & W2 & _); [done|];
    generalize dependent (para_window ops h) end.
  intros w W1 W2. by split_and!; try done; simpl; rewrite W2.
Qed.

(** A step that changes neither the base nor the limits and is not a run. *)
Lemma idle_inv g g' n o owed :
  para_inv (mkParaCfg g n o) -> base g' = base g -> limits_ok g' ->
  (m_iTaskState (base g) = stateStarted -> starving g' -> starving g /\ (o = true -> owed = true) \/ owed = true) ->
  para_inv (mkParaCfg g' n owed).
Proof.
  intros (Hb & Hl & Hw) HE Hl' H. simpl in *. split_and!; simpl; [by rewrite HE|done|].
  rewrite HE. intros Hst Hsv. destruct (H Hst Hsv) as [[Hg Ho]|Ho]; [|by right].
  destruct (Hw Hst Hg) as [?|?]; [by left|right; by apply Ho].
Qed.

Lemma para_step_inv c c' : para_step c c' -> para_inv c -> para_inv c'.
Proof.
  intros Hs Hinv. pose proof Hinv as (Hb & Hl & Hw). destruct Hs as
    [script t g g' ret l n o Hok Hf HA|t g g' ret n o Hf HA|t g g' ret n o Hf HA
    |t g g' ret n o Hf HA|m t g g' ret b n o Hf HD|m r p bNo g g' ret b n o Hf Hr Hp HS
    |script g g' ret l n o Hok Hf HR|script g g' ret l n o Hok Hf HR
    |ops g g' ret l n o Hok HC]; simpl in Hb, Hl, Hw.
  - unfold AddAndRun in HA.
    pose proof (para_apply_frame g (PAdd t) I Hl) as (F1 & F2 & F3 & _). simpl in F1, F2, F3.
    destruct (AddTask t g) as [[g1 r1] [|]] eqn:EA; simpl in F1, F2, F3 |- *.
    { eapply ParaRun_inv; [done|done| |by rewrite F2|done]. unfold fits in *. lia. }
    simplify_eq. eapply idle_inv; [done|done|done|]. intros Hst Hsv. left.
    split; [|intros ->; done]. eapply AddTask_idle; [done|done| |done|done|done].
    eapply fits_le; [|done]. lia.
  - pose proof (para_apply_frame g (PAppend t) I Hl) as (F1 & F2 & _). simpl in F1, F2.
    rewrite HA in F1, F2. eapply idle_inv; [done|done|done|]. intros _ Hsv.
    destruct (Z.eqb_spec ret 0); [right; by rewrite orb_true_r|left].
    split; [by eapply ParaAppendTask_idle|by intros ->].
  - pose proof (para_apply_frame g (PInsert t) I Hl) as (F1 & F2 & _). simpl in F1, F2.
    rewrite HA in F1, F2. eapply idle_inv; [done|done|done|]. intros _ Hsv.
    unfold ParaInsertTask in HA. destruct (negb _); simplify_eq; [left|right; by rewrite orb_true_r].
    split; [done|by intros ->].
  - pose proof (para_apply_frame g (PRemove t) I Hl) as (F1 & F2 & _). simpl in F1, F2.
    rewrite HA in F1, F2. eapply idle_inv; [done|done|done|]. intros _ Hsv.
    case_bool_decide; [right; by rewrite orb_true_r|left].
    split; [by eapply ParaRemoveTask_idle|by intros ->].
  - pose proof (para_apply_frame g (PDone t) I Hl) as (F1 & F2 & _). simpl in F1, F2.
    rewrite (ParaOnChildComplete_mgr _ m), HD in F1, F2. simpl in F1, F2.
    apply after_resched_inv; [by rewrite F2|done|]. rewrite F2. intros Hst Hsv -> Hn.
    apply Hw; [done|]. by eapply ParaOnChildComplete_idle.
  - destruct (SetLimit_frame m r p bNo g g' ret b) as [F1 F2]; [done..|].
    apply after_resched_inv; [by rewrite F2|done|]. rewrite F2. intros Hst Hsv -> Hn.
    apply Hw; [done|].
    exact (SetLimit_idle m r p bNo g g' ret Hb Hl Hf Hr Hp HS Hn Hsv).
  - by eapply ParaRun_inv.
  - by eapply ParaRun_inv.
  - by eapply ParaOnCancel_inv.
Qed.

Lemma para_steps_inv c c' : rtc para_step c c' -> para_inv c -> para_inv c'.
Proof. induction 1 as [|c1 c2 c3 Hs _ IH]; [done|]. intros H. by eapply IH, para_step_inv. Qed.

(** ** Lemmas: a run without interference *)

Lemma length_set_insert_new x s : (x ∉ s) -> length (set_insert x s) = S (length s).
Proof.
  induction s as [|y s IH]; intros Hx; simpl; [done|].
  apply not_elem_of_cons in Hx as [Hxy Hx].
  destruct (x <? y); [done|]. destruct (Z.eqb_spec x y); [done|]. simpl. by rewrite IH.
Qed.

Lemma length_insert_all_new l s :
  NoDup l -> (forall x, x ∈ l -> (x ∉ s)) -> length (insert_all l s) = (length l + length s)%nat.
Proof.
  unfold insert_all. revert s. induction l as [|x l IH]; intros s Hn Hd; simpl; [done|].
  apply NoDup_cons in Hn as [Hx Hn]. rewrite IH; [|done|].
  - rewrite length_set_insert_new; [lia|]. apply Hd. set_solver.
  - intros y Hy. rewrite elem_of_set_insert. intros [->|Hs]; [done|]. eapply Hd; [|done]. set_solver.
Qed.

Lemma after_start_full g :
  limits_ok g -> fits 0 g -> starving g -> NoDup (m_quePendingTasks g ++ m_setTasks g) ->
  ~ starving (after_start g).
Proof.
  intros Hl Hf [Hq Hr] Hn [Hq' Hr']. unfold running in *. simpl in *.
  apply NoDup_app in Hn as (Hn1 & Hn2 & Hn3).
  rewrite length_insert_all_new in Hr'.
  - assert (length (started_batch g) < length (m_quePendingTasks g))%nat as Hlt.
    { destruct (Nat.lt_ge_cases (length (started_batch g)) (length (m_quePendingTasks g))); [done|].
      by rewrite drop_ge in Hq'. }
    unfold started_batch in *. rewrite length_firstn in *. unfold running in *. lia.
  - by apply (sublist_NoDup _ (m_quePendingTasks g)), sublist_take.
  - intros x Hx. apply Hn2. eapply elem_of_sublist; [exact Hx|apply sublist_take].
Qed.

Lemma ParaRunLoop_quiet fuel g :
  limits_ok g -> fits 0 g -> starving g -> IsNoSched g = false ->
  NoDup (m_quePendingTasks g ++ m_setTasks g) ->
  ParaRunLoop (S fuel) [] (m_dwMaxRunning g - running g) g =
  Some (after_start g, STATUS_PENDING, [(started_batch g, after_start g)]).
Proof.
  intros Hl Hf Hs Hns Hn. cbn [ParaRunLoop].
  destruct (counts g Hl Hf) as (_ & _ & -> & _ & _). fold (started_batch g).
  set (n := Z.to_nat (Z.min (m_dwMaxRunning g - running g) (Z.of_nat (length (m_quePendingTasks g))))).
  assert (n = length (started_batch g)) as ->.
  { unfold started_batch. fold n. rewrite length_firstn. lia. }
  fold (after_start g). destruct (after_start_spec 0 g Hs Hl Hf) as ((Hne & _ & Hin) & Hl1 & Hf1 & _).
  assert (para_window (default [] (head [])) (after_start g) = after_start g) as ->.
  { unfold para_window, set_nosched, after_start, set_tasks, set_base. simpl.
    unfold IsNoSched in Hns. destruct g as [b ? ? ? ? ? ?], b. simpl in *. by subst. }
  destruct ((0 <? GetPendingCount (after_start g)) && _)%bool eqn:Et.
  { apply starving_test in Et; [|done|done]. by destruct (after_start_full g Hl Hf Hs Hn). }
  destruct (counts _ Hl1 Hf1) as (_ & _ & _ & -> & _).
  assert (0 < task_number (after_start g))%nat as Ht; [|by destruct (task_number (after_start g)); [lia|]].
  unfold task_number. cbn [fst snd] in Hne, Hin. destruct (started_batch g) as [|t b] eqn:Eb; [done|].
  apply Forall_cons in Hin as [Hin _]. destruct (m_setTasks (after_start g)); [set_solver|simpl; lia].
Qed.

Lemma ParaRun_quiet g :
  limits_ok g -> fits 0 g -> para_runnable g -> starving g ->
  NoDup (m_quePendingTasks g ++ m_setTasks g) ->
  ParaRunTaskInternal [] g =
  Some (after_start (para_started g), STATUS_PENDING,
        [(started_batch g, after_start (para_started g))]).
Proof.
  intros Hl Hf [Hc Hns] Hs Hn. unfold ParaRunTaskInternal. rewrite Hc, Hns. cbn [negb].
  fold (para_started g). assert (m_bNoSched (base (para_started g)) = false) as Hnb.
  { unfold para_started. by destruct (bool_decide _). }
  rewrite (para_started_frame g) in Hnb |- *.
  set (gs := set_base _ g) in *. change (started_batch g) with (started_batch gs).
  change (starving gs) in Hs. change (limits_ok gs) in Hl. change (fits 0 gs) in Hf.
  destruct (counts gs Hl Hf) as (_ & _ & Hpc & Htc & Hic). rewrite Hpc, Htc, Hic.
  pose proof (ParaRunLoop_quiet (length (m_quePendingTasks gs)) gs Hl Hf Hs Hnb Hn) as HE.
  assert (0 < length (m_quePendingTasks gs))%nat as Hq.
  { destruct Hs as [Hs _]. destruct (m_quePendingTasks gs); [done|simpl; lia]. }
  destruct (Z.eqb_spec (Z.of_nat (task_number gs)) 0) as [Ht|_]; [unfold task_number in Ht; lia|].
  destruct (Z.eqb_spec (Z.of_nat (length (m_quePendingTasks gs))) 0) as [Ht|_]; [lia|].
  destruct (Z.leb_spec (m_dwMaxRunning gs - running gs) 0) as [Hi|_].
  { destruct Hs as [_ Hs]. lia. }
  replace (para_fuel [] gs) with (S (length (m_quePendingTasks gs)))
    by (unfold para_fuel; simpl; lia). by rewrite HE.
Qed.

(** ** Lemmas: admission *)

Definition admitted (g : CIfParallelTaskGrpRfc) : Prop :=
  Z.of_nat (length (m_quePendingTasks g)) + running g <= m_dwMaxRunning g + m_dwMaxPending g.
Definition small_limits (g : CIfParallelTaskGrpRfc) : Prop :=
  0 <= m_dwMaxRunning g < 2 ^ 28 /\ 0 <= m_dwMaxPending g < 2 ^ 28.
(** Everything but a change of the limits and [InsertTask]. *)
Definition adm_op (o : para_op) : Prop :=
  match o with PDone _ | PAdd _ | PAppend _ | PRemove _ => True | _ => False end.

Lemma admitted_fits g : small_limits g -> admitted g -> limits_ok g /\ fits 0 g.
Proof. unfold small_limits, admitted, limits_ok, fits, task_number, running. lia. Qed.

Lemma queue_full_spec g :
  small_limits g -> admitted g ->
  queue_full g = (m_dwMaxPending g + m_dwMaxRunning g <=?
                   Z.of_nat (length (m_quePendingTasks g)) + running g).
Proof.
  intros Hs Ha. destruct (admitted_fits g Hs Ha) as [Hl Hf]. unfold queue_full.
  destruct (counts g Hl Hf) as (-> & -> & -> & _). unfold GetMaxPending.
  unfold small_limits, fits, task_number in *. by rewrite !s32_small by lia.
Qed.

Lemma para_apply_admitted g o :
  adm_op o -> small_limits g -> admitted g ->
  let g' := para_apply g o in
  small_limits g' /\ admitted g' /\
  m_dwMaxRunning g' = m_dwMaxRunning g /\ m_dwMaxPending g' = m_dwMaxPending g.
Proof.
  intros Ho Hs Ha. pose proof (queue_full_spec g Hs Ha) as Hfull.
  unfold admitted, running, small_limits in *. destruct o as [t|t|t|t|t|r p b]; simpl; try done.
  - destruct (ParaOnChildComplete_frame (Rescheduled 0) t g) as [-> | ->]; [done|].
    destruct (ParaRemoveTask_frame t g) as (-> & H1 & H2). simpl in *. split_and!; lia.
  - unfold AddTask. destruct (t =? 0); [done|]. destruct (negb _); [done|].
    rewrite Hfull. destruct (Z.leb_spec (m_dwMaxPending g + m_dwMaxRunning g)
      (Z.of_nat (length (m_quePendingTasks g)) + (Z.of_nat (length (m_setTasks g)) - 1))); [done|].
    destruct (IsNoSched _); [|destruct (_ || _)];
      simpl; rewrite length_app; simpl; split_and!; lia.
  - unfold ParaAppendTask, SuperAppendTask. rewrite Hfull.
    destruct (Z.leb_spec (m_dwMaxPending g + m_dwMaxRunning g)
      (Z.of_nat (length (m_quePendingTasks g)) + (Z.of_nat (length (m_setTasks g)) - 1))); [done|].
    destruct (t =? 0); [done|]. destruct (negb _); [done|].
    simpl; rewrite length_app; simpl; split_and!; lia.
  - destruct (ParaRemoveTask_frame t g) as (-> & H1 & H2). simpl in *. split_and!; lia.
Qed.

Lemma para_window_admitted ops g :
  Forall adm_op ops -> small_limits g -> admitted g ->
  small_limits (para_window ops g) /\ admitted (para_window ops g).
Proof.
  intros Hok Hs Ha. unfold para_window.
  enough (forall h, small_limits h -> admitted h ->
    small_limits (foldl para_apply h ops) /\ admitted (foldl para_apply h ops)) as H
    by exact (H (set_nosched true g) Hs Ha).
  clear g Hs Ha. induction Hok as [|o ops Ho _ IH]; intros h Hs Ha; [done|].
  destruct (para_apply_admitted h o Ho Hs Ha) as (H1 & H2 & _). by apply IH.
Qed.

Lemma ParaRunLoop_admitted fuel script n g g' ret l :
  Forall (Forall adm_op) script -> small_limits g -> admitted g ->
  ParaRunLoop fuel script n g = Some (g', ret, l) -> small_limits g' /\ admitted g'.
Proof.
  revert script n g g' ret l. induction fuel as [|fuel IH]; intros script n g g' ret l Hok Hs Ha; [done|].
  cbn [ParaRunLoop]. set (k := Z.to_nat _). set (g1 := set_tasks _ _ g).
  assert (small_limits g1 /\ admitted g1) as [Hs1 Ha1].
  { split; [done|]. unfold admitted, running in *. simpl.
    pose proof (length_insert_all (firstn k (m_quePendingTasks g)) (m_setTasks g)) as Hi.
    rewrite length_skipn, length_firstn in *. lia. }
  assert (Forall adm_op (default [] (head script)) /\ Forall (Forall adm_op) (tail script)) as [Hk1 Hk2]
    by (destruct Hok; simpl; done).
  destruct (para_window_admitted _ g1 Hk1 Hs1 Ha1) as [Hs2 Ha2].
  generalize dependent (para_window (default [] (head script)) g1). intros w Hs2 Ha2.
  destruct (_ && _)%bool; [|by intros [= <- <- <-]].
  destruct (ParaRunLoop fuel _ _ w) as [[[h r] l']|] eqn:E; [|done]. intros [= <- <- <-].
  by eapply IH in E.
Qed.

Lemma ParaRun_admitted script g g' ret l :
  Forall (Forall adm_op) script -> small_limits g -> admitted g ->
  ParaRunTaskInternal script g = Some (g', ret, l) -> admitted g'.
Proof.
  intros Hok Hs Ha. unfold ParaRunTaskInternal. destruct (negb _); [by intros [= <- <- <-]|].
  destruct (IsNoSched g); [by intros [= <- <- <-]|]. fold (para_started g).
  rewrite (para_started_frame g). set (gs := set_base _ g).
  destruct (_ =? 0); [by intros [= <- <- <-]|]. destruct (_ =? 0); [by intros [= <- <- <-]|].
  destruct (_ <=? 0); [by intros [= <- <- <-]|].
  destruct (ParaRunLoop _ script _ gs) as [[[h r] l']|] eqn:E; [|done]. intros [= <- <- <-].
  apply ParaRunLoop_admitted in E as [_ E]; [|done|done|done]. by destruct (negb _).
Qed.

(** ** Properties *)

(** C9: a run of a rate-limited group always ends.  It never has more tasks
    running than the limit allows when it starts a batch, whatever happens while
    its lock is released; when it ends, there is nothing left to start or no
    room for it, unless the group has run out of tasks and ends for good.
    Without interference it starts the oldest pending tasks, as many as fit, in
    one batch and in order. *)
Theorem rfc_run (g : CIfParallelTaskGrpRfc) (script : list (list para_op)) :
  Forall (Forall para_op_ok) script -> limits_ok g -> fits (length (concat script)) g ->
  para_runnable g ->
  exists g' ret l,
    ParaRunTaskInternal script g = Some (g', ret, l) /\
    Forall batch_ok l /\ ~ starving g' /\
    (ret = STATUS_PENDING \/
     ret = 0 /\ m_iTaskState (base g') = stateStopping /\ task_number g' = 0%nat) /\
    (script = [] -> starving g -> NoDup (m_quePendingTasks g ++ m_setTasks g) ->
     exists k, k = Z.to_nat (Z.min (m_dwMaxRunning g - running g)
                 (Z.of_nat (length (m_quePendingTasks g)))) /\
       map fst l = [firstn k (m_quePendingTasks g)] /\
       m_quePendingTasks g' = skipn k (m_quePendingTasks g) /\
       m_setTasks g' = insert_all (firstn k (m_quePendingTasks g)) (m_setTasks g)).
Proof.
  intros Hok Hl Hf Hrun.
  destruct (ParaRun_spec script g Hok Hl Hf Hrun) as (g' & ret & l & HE & H1 & _ & _ & H2 & _ & H3).
  exists g', ret, l. split_and!; [done|done|done| |].
  { destruct H3 as [(? & _)|?]; [by left|by right]. }
  intros -> Hs Hn. pose proof (ParaRun_quiet g Hl Hf Hrun Hs Hn) as HE'.
  rewrite HE in HE'. injection HE' as -> -> ->. eexists. split; [done|].
  assert (after_start (para_started g) = set_base (base (para_started g)) (after_start g)) as ->.
  { rewrite (para_started_frame g) at 1. done. }
  unfold after_start, started_batch. simpl. split_and!; [done| |done].
  f_equal. rewrite length_firstn. lia.
Qed.

(** C10: a rate-limited group sits on work it may do only when somebody owes
    it a run.  In every state reached from a new group, while it holds less than
    2^30 tasks, by adding, appending, inserting and removing tasks, tasks that
    report, changes of the limits, runs and cancellation, with any answers of
    the I/O manager and any of these also while the lock is released: a started
    group with a pending task and a free slot is rescheduled already, or since
    its last run or reschedule a task was queued with [AppendTask] or
    [InsertTask], a running task was removed that did not report, [SetLimit] was
    called with [bNoResched], or the I/O manager failed ([pc_owed]).  Any run
    then ends, and leaves no such work unless the group is stopped. *)
Theorem rfc_live (reqs pendings : option Z) (c : para_config) :
  limits_ok (NewParaGrp reqs pendings) ->
  rtc para_step (mkParaCfg (NewParaGrp reqs pendings) 0 false) c ->
  (m_iTaskState (base (pc_grp c)) = stateStarted -> starving (pc_grp c) ->
   (0 < pc_resched c)%nat \/ pc_owed c = true) /\
  (m_iTaskState (base (pc_grp c)) <> stateStopping ->
   forall script, Forall (Forall para_op_ok) script ->
     fits (length (concat script)) (pc_grp c) ->
     exists g' ret l, ParaRunTaskInternal script (pc_grp c) = Some (g', ret, l) /\
       ~ starving g').
Proof.
  intros Hl Hr. assert (para_inv c) as (Hb & Hl' & Hw) by (by apply (para_steps_inv _ _ Hr)).
  split; [exact Hw|]. intros Hst script Hok Hf.
  destruct (ParaRun_spec script (pc_grp c) Hok Hl' Hf (base_ok_runnable _ Hb Hst))
    as (g' & ret & l & HE & _ & _ & _ & Hs & _). by exists g', ret, l.
Qed.

(** C28: the group admits at most [m_dwMaxPending] tasks beyond the
    [m_dwMaxRunning] that may run.  The bound is kept by every way to add a task
    but [InsertTask], by tasks that report or are removed, and by runs with any
    of these inside them; a task is refused exactly when the bound is reached,
    which only counts the refusal, and is else queued behind the others;
    [IsQueueFull] tells the bound while the group takes part, and nothing once
    it does not. *)
Theorem rfc_admission (g : CIfParallelTaskGrpRfc) (o : para_op)
    (script : list (list para_op)) (t : Z) :
  small_limits g -> admitted g -> adm_op o -> Forall (Forall adm_op) script ->
  admitted (para_apply g o) /\
  (forall g' ret l, ParaRunTaskInternal script g = Some (g', ret, l) -> admitted g') /\
  (forall g' ret l, AddAndRun script t g = Some (g', ret, l) -> admitted g') /\
  (CHECK_GRP_STATE g = true -> t <> 0 ->
   let n := Z.of_nat (length (m_quePendingTasks g)) + running g in
   (n = m_dwMaxRunning g + m_dwMaxPending g ->
    AddAndRun script t g = Some (inc_rejected g, ERROR_QUEUE_FULL, [])) /\
   (n < m_dwMaxRunning g + m_dwMaxPending g ->
    exists b, AddTask t g =
      (inc_added (set_tasks (m_setTasks g) (m_quePendingTasks g ++ [t]) g), 0, b)) /\
   IsQueueFull g = (0, Some (m_dwMaxPending g + m_dwMaxRunning g <=? n))) /\
  (CHECK_GRP_STATE g = false -> IsQueueFull g = (ERROR_STATE, None)).
Proof.
  intros Hs Ha Ho Hok.
  destruct (para_apply_admitted g o Ho Hs Ha) as (_ & H1 & _).
  destruct (para_apply_admitted g (PAdd t) I Hs Ha) as (H2 & H3 & _). simpl in H2, H3.
  split_and!; [done| | | |].
  - intros g' ret l. by apply ParaRun_admitted.
  - intros g' ret l HA. unfold AddAndRun in HA. destruct (AddTask t g) as [[h r] [|]]; simpl in *.
    + by eapply ParaRun_admitted in HA.
    + by simplify_eq.
  - intros Hc Ht n. unfold AddAndRun, AddTask, IsQueueFull.
    destruct (Z.eqb_spec t 0); [done|]. rewrite Hc, queue_full_spec by done. fold n. simpl.
    split_and!; [| |done]; intros Hn;
      destruct (Z.leb_spec (m_dwMaxPending g + m_dwMaxRunning g) n); try lia; [done|].
    destruct (IsNoSched _); [by eexists|]. destruct (_ || _); by eexists.
  - intros Hc. unfold IsQueueFull. by rewrite Hc.
Qed.

(** ** Witnesses and examples *)

(** A started group with its placeholder, which may run two tasks. *)
Definition ex_grp (q : list Z) : CIfParallelTaskGrpRfc :=
  mkPara (SetRunning true (SetTaskState stateStarted (SetRelation logicNONE NewTaskGroup)))
    [1] q 2 3 0 0.

Example run_two : exists g' ret l,
  ParaRunTaskInternal [[PDone 10; PAdd 13]; []] (ex_grp [10; 11; 12]) = Some (g', ret, l) /\
  map fst l = [[10; 11]; [12]] /\ m_quePendingTasks g' = [13].
Proof. eexists _, _, _. split; [vm_compute; reflexivity|]. split; reflexivity. Qed.

Lemma rfc_run_witness :
  exists g' ret l, ParaRunTaskInternal [[PDone 10]] (ex_grp [10; 11; 12]) = Some (g', ret, l) /\
    Forall batch_ok l.
Proof.
  destruct (rfc_run (ex_grp [10; 11; 12]) [[PDone 10]]) as (g' & ret & l & H1 & H2 & _).
  - repeat constructor.
  - unfold limits_ok. simpl. lia.
  - unfold fits, task_number. simpl. lia.
  - split; reflexivity.
  - by exists g', ret, l.
Defined.

(** Placeholder, one task running, one waiting for it, and the report of the
    first. *)
Definition ex_live : para_config :=
  mkParaCfg
    (mkPara (SetRunning true (SetTaskState stateStarted (SetRelation logicNONE NewTaskGroup)))
       [1] [11] 1 3 3 0) 1 false.

Lemma ex_live_reached : rtc para_step (mkParaCfg (NewParaGrp (Some 1) (Some 3)) 0 false) ex_live.
Proof.
  eapply rtc_l; [eapply (ps_add [] 1); [constructor|vm_compute; reflexivity|vm_compute; reflexivity]|].
  eapply rtc_l; [eapply (ps_run []); [constructor|vm_compute; reflexivity|vm_compute; reflexivity]|].
  eapply rtc_l; [eapply (ps_add [] 10); [constructor|vm_compute; reflexivity|vm_compute; reflexivity]|].
  eapply rtc_l; [eapply (ps_add [] 11); [constructor|vm_compute; reflexivity|vm_compute; reflexivity]|].
  eapply rtc_l; [eapply (ps_done (Rescheduled 0) 10); vm_compute; reflexivity|]. apply rtc_refl.
Qed.

Lemma rfc_live_witness :
  (0 < pc_resched ex_live)%nat /\
  exists g' ret l, ParaRunTaskInternal [] (pc_grp ex_live) = Some (g', ret, l) /\ ~ starving g'.
Proof.
  destruct (rfc_live (Some 1) (Some 3) ex_live) as [H1 H2].
  - unfold limits_ok. simpl. lia.
  - exact ex_live_reached.
  - split.
    + destruct H1 as [H|H]; [reflexivity|split; [discriminate|reflexivity]|exact H|discriminate H].
    + apply H2; [discriminate|constructor|reflexivity].
Defined.

(** [AppendTask] on a group that has nothing to do leaves its task there, with
    nobody to run it. *)
Example append_owes :
  let g := (ParaAppendTask 10 (ex_grp [])).1 in
  starving g /\ para_step (mkParaCfg (ex_grp []) 0 false) (mkParaCfg g 0 true).
Proof.
  split; [split; [discriminate|reflexivity]|].
  by apply (ps_append 10 (ex_grp []) _ 0 0 false).
Qed.

Lemma rfc_admission_witness :
  AddAndRun [] 20 (ex_grp [10; 11; 12; 13; 14]) =
  Some (inc_rejected (ex_grp [10; 11; 12; 13; 14]), ERROR_QUEUE_FULL, []).
Proof.
  destruct (rfc_admission (ex_grp [10; 11; 12; 13; 14]) (PDone 1) [] 20) as (_ & _ & _ & H & _).
  - unfold small_limits. simpl. lia.
  - unfold admitted, running. simpl. lia.
  - exact I.
  - constructor.
  - apply H; [reflexivity|lia|reflexivity].
Defined.
