(* ===== verification/Sched.v ===== *)
(** * The round-robin task scheduler: [rpc/taskschd.cpp], [rpc/taskschd.h]

    [CRRTaskScheduler] shares the request slots of every connection (an
    interface) among the task groups of its clients.  A connection keeps its
    groups in two queues: the ready ones hold slots, in the form of their limit
    of running tasks, the waiting ones hold none.  Groups and interfaces are
    addresses in [Z]; groups live in a heap, since the queues hold references.
    The object ids that the code compares are the addresses here.  Calls that
    leave the scheduler are answers: the tasks to kill, and the groups that are
    rescheduled.  The statistics ([ReportCounters]) are left out. *)

From Stdlib Require Import ZArith Lia.
From S2P Require Import Prelude TaskGroup ParaGrp.
Local Open Scope rpcf_scope.

Abbreviation heap := (Z -> CIfParallelTaskGrpRfc).

Definition upd (H : heap) (a : Z) (g : CIfParallelTaskGrpRfc) : heap :=
  fun x => if x =? a then g else H x.

(** ** A connection *)

(** [m_plstReady] and [m_plstNextSched] always point to the two elements of
    [m_lstRunningGrps]; the second stays empty. *)
Record CONNQUE_ELEM := mkConn {
  m_lstWaitSlot : list Z;
  m_plstReady : list Z;
  m_plstNextSched : list Z;
  m_dwMaxSlots : Z;
}.

Definition NewConnQue : CONNQUE_ELEM :=
  mkConn [] [] [] (RFC_MAX_PENDINGS + RFC_MAX_REQS).

Definition set_queues (w r : list Z) (q : CONNQUE_ELEM) : CONNQUE_ELEM :=
  mkConn w r (m_plstNextSched q) (m_dwMaxSlots q).
Definition set_slots (n : Z) (q : CONNQUE_ELEM) : CONNQUE_ELEM :=
  mkConn (m_lstWaitSlot q) (m_plstReady q) (m_plstNextSched q) n.

Definition GetTaskGrpCount (q : CONNQUE_ELEM) : Z :=
  u32 (Z.of_nat (length (m_lstWaitSlot q)) + Z.of_nat (length (m_plstReady q)) +
       Z.of_nat (length (m_plstNextSched q))).

Definition EnumTaskGrps (q : CONNQUE_ELEM) : list Z :=
  m_lstWaitSlot q ++ m_plstReady q ++ m_plstNextSched q.

(** [pGrpRfc->SetLimit( n, pGrpRfc->GetMaxPending(), true )], which does not ask
    the I/O manager. *)
Definition set_limit (n : Z) (a : Z) (H : heap) : heap :=
  upd H a (SetLimit (Rescheduled 0) n (GetMaxPending (H a)) true (H a)).1.1.

Definition SetLimitRunningGrps (dwNewLimit : Z) (H : heap) (q : CONNQUE_ELEM)
    : heap * CONNQUE_ELEM :=
  let H := foldl (fun H a => if GetMaxRunning (H a) =? s32 dwNewLimit then H
                             else set_limit dwNewLimit a H) H (m_plstReady q) in
  if (dwNewLimit =? 0) && nonempty (m_plstReady q)
  then (H, set_queues (m_plstReady q ++ m_lstWaitSlot q) [] q)
  else (H, q).

Definition SetLimitGrps (dwNewLimit : Z) (H : heap) (q : CONNQUE_ELEM)
    : heap * CONNQUE_ELEM :=
  let '(H, q) := SetLimitRunningGrps dwNewLimit H q in
  if dwNewLimit =? 0 then (H, q)
  else
    let H := foldl (fun H a => set_limit dwNewLimit a H) H (m_lstWaitSlot q) in
    (H, set_queues [] (m_plstReady q ++ m_lstWaitSlot q) q).

(** The loop of [IncRunningGrps]. *)
Fixpoint IncLoop (dwCount : Z) (l : list Z) (H : heap) : heap :=
  match l with
  | [] => H
  | a :: l =>
      let H := set_limit (u32 (GetMaxRunning (H a) + 1)) a H in
      if dwCount - 1 =? 0 then H else IncLoop (dwCount - 1) l H
  end.

Definition IncRunningGrps (dwCount : Z) (H : heap) (q : CONNQUE_ELEM) : heap :=
  if dwCount =? 0 then H else IncLoop dwCount (m_plstReady q) H.

(** The first loop of [IncWaitingGrp]: the groups with pending tasks, at most
    [n] of them, and those that stay. *)
Fixpoint PickPending (H : heap) (n : nat) (l : list Z) : list Z * list Z :=
  match l with
  | [] => ([], [])
  | a :: l' =>
      match n with
      | O => ([], l)
      | S n =>
          if 0 <? HasPendingTasks (H a)
          then let '(p, r) := PickPending H n l' in (a :: p, r)
          else let '(p, r) := PickPending H (S n) l' in (p, a :: r)
      end
  end.

Definition IncWaitingGrp (dwCount : Z) (H : heap) (q : CONNQUE_ELEM) : heap * CONNQUE_ELEM :=
  if dwCount =? 0 then (H, q)
  else
    let owq := m_lstWaitSlot q in
    let '(lstReadyGrps, rest) := PickPending H (Z.to_nat (Z.min dwCount (Z.of_nat (length owq)))) owq in
    let n := Z.to_nat (dwCount - Z.of_nat (length lstReadyGrps)) in
    let more := firstn n rest in
    let H := foldl (fun H a => set_limit 1 a H) H (lstReadyGrps ++ more) in
    (H, set_queues (skipn n rest) (m_plstReady q ++ lstReadyGrps ++ more) q).

Definition IncSlotCount (dwCount : Z) (H : heap) (q : CONNQUE_ELEM) : heap * CONNQUE_ELEM :=
  let dwNumGrps := GetTaskGrpCount q in
  if (dwCount =? 0) || (dwNumGrps =? 0) then (H, q)
  else
    let dwNewCount := u32 (m_dwMaxSlots q + dwCount) in
    let dwAvg := dwNewCount / dwNumGrps in
    let dwModulo := dwNewCount - dwAvg * dwNumGrps in
    match m_lstWaitSlot q with
    | [] => let '(H, q) := SetLimitRunningGrps dwAvg H q in (IncRunningGrps dwModulo H q, q)
    | _ =>
        if dwAvg =? 0 then IncWaitingGrp dwCount H q
        else let '(H, q) := SetLimitGrps dwAvg H q in (IncRunningGrps dwModulo H q, q)
    end.

Definition ResetSlotCountRelease (dwDelta : Z) (H : heap) (q : CONNQUE_ELEM)
    : heap * CONNQUE_ELEM :=
  let dwNumGrps := GetTaskGrpCount q in
  if dwNumGrps =? 0 then (H, q)
  else
    let dwNewCount := u32 (m_dwMaxSlots q + dwDelta) in
    let dwAvg := dwNewCount / dwNumGrps in
    let dwModulo := dwNewCount - dwAvg * dwNumGrps in
    if dwAvg =? 0 then
      let n := Z.of_nat (length (m_plstReady q)) in
      if n <? dwModulo then IncWaitingGrp (dwModulo - n) H q else (H, q)
    else let '(H, q) := SetLimitGrps dwAvg H q in (IncRunningGrps dwModulo H q, q).

Section Scheduler.
(** Which tasks are [CIfInvokeMethodTask]s; the port id of a group and of an
    interface; the limits that the bridge of an interface answers, [None] being
    a failure. *)
Variable IsInvoke : Z -> bool.
Variable PrxyPortId : Z -> option Z.
Variable PortId : Z -> option Z.
Variable ProxyLimit : Z -> option (Z * Z).

Definition SchedSelTasksToKill (H : heap) (q : CONNQUE_ELEM) (bWaitQue : bool)
    (vecTasks : list Z) : list Z :=
  let sel := foldl (fun v a => SelTasksToKill IsInvoke v (H a)) in
  let vecTasks := sel vecTasks (m_plstReady q) in
  if negb bWaitQue then vecTasks else sel vecTasks (m_lstWaitSlot q).

Definition ResetSlotCountAlloc (dwDelta : Z) (H : heap) (q : CONNQUE_ELEM) (vecTasks : list Z)
    : heap * CONNQUE_ELEM * list Z :=
  let dwNumGrps := GetTaskGrpCount q in
  if dwNumGrps =? 0 then (H, q, vecTasks)
  else
    let dwNewCount := u32 (m_dwMaxSlots q - dwDelta) in
    let dwAvg := dwNewCount / dwNumGrps in
    let dwModulo := dwNewCount - dwAvg * dwNumGrps in
    if dwAvg =? 0 then
      let '(H, q) := SetLimitGrps 0 H q in
      let '(H, q) := IncWaitingGrp dwModulo H q in
      (H, q, SchedSelTasksToKill H q true vecTasks)
    else
      let '(H, q) := SetLimitGrps dwAvg H q in
      let H := IncRunningGrps dwModulo H q in
      (H, q, SchedSelTasksToKill H q false vecTasks).

Definition DecSlotCount (dwCount : Z) (H : heap) (q : CONNQUE_ELEM) (vecTasks : list Z)
    : heap * CONNQUE_ELEM * list Z :=
  if dwCount =? 0 then (H, q, vecTasks) else ResetSlotCountAlloc dwCount H q vecTasks.

(** ** The scheduler *)

Record CRRTaskScheduler := mkSched {
  m_heap : heap;
  m_mapConnQues : gmap Z CONNQUE_ELEM;
  m_lstConns : list Z;
  m_mapId2If : gmap Z Z;
  m_ocqSchdMgr : CONNQUE_ELEM;
  m_dwNumSched : Z;
  m_pSchedMgr : Z;
}.

Definition set_heap (H : heap) (s : CRRTaskScheduler) : CRRTaskScheduler :=
  mkSched H (m_mapConnQues s) (m_lstConns s) (m_mapId2If s) (m_ocqSchdMgr s)
    (m_dwNumSched s) (m_pSchedMgr s).
Definition set_ques (m : gmap Z CONNQUE_ELEM) (s : CRRTaskScheduler) : CRRTaskScheduler :=
  mkSched (m_heap s) m (m_lstConns s) (m_mapId2If s) (m_ocqSchdMgr s)
    (m_dwNumSched s) (m_pSchedMgr s).
Definition set_conns (l : list Z) (s : CRRTaskScheduler) : CRRTaskScheduler :=
  mkSched (m_heap s) (m_mapConnQues s) l (m_mapId2If s) (m_ocqSchdMgr s)
    (m_dwNumSched s) (m_pSchedMgr s).
Definition set_ids (m : gmap Z Z) (s : CRRTaskScheduler) : CRRTaskScheduler :=
  mkSched (m_heap s) (m_mapConnQues s) (m_lstConns s) m (m_ocqSchdMgr s)
    (m_dwNumSched s) (m_pSchedMgr s).
Definition set_num (n : Z) (s : CRRTaskScheduler) : CRRTaskScheduler :=
  mkSched (m_heap s) (m_mapConnQues s) (m_lstConns s) (m_mapId2If s) (m_ocqSchdMgr s)
    n (m_pSchedMgr s).
Definition set_mgr_que (q : CONNQUE_ELEM) (s : CRRTaskScheduler) : CRRTaskScheduler :=
  mkSched (m_heap s) (m_mapConnQues s) (m_lstConns s) (m_mapId2If s) q
    (m_dwNumSched s) (m_pSchedMgr s).
Definition set_conn (pIf : Z) (Hq : heap * CONNQUE_ELEM) (s : CRRTaskScheduler)
    : CRRTaskScheduler :=
  set_heap Hq.1 (set_ques (<[pIf := Hq.2]> (m_mapConnQues s)) s).

(** A smaller number of slots goes through [IncSlotCount], a larger one through
    [DecSlotCount]. *)
Definition SetSlotCount (pIf dwNumSlot : Z) (s : CRRTaskScheduler)
    : CRRTaskScheduler * Z * list Z :=
  if pIf =? 0 then (s, - EINVAL, [])
  else match m_mapConnQues s !! pIf with
  | None => (s, - ENOENT, [])
  | Some q =>
      let H := m_heap s in
      if m_dwMaxSlots q =? dwNumSlot then (s, 0, [])
      else if dwNumSlot <? m_dwMaxSlots q then
        let '(H, q) := IncSlotCount (m_dwMaxSlots q - dwNumSlot) H q in
        (set_conn pIf (H, set_slots dwNumSlot q) s, 0, [])
      else
        let '(H, q, vecTasks) := DecSlotCount (dwNumSlot - m_dwMaxSlots q) H q [] in
        (set_conn pIf (H, set_slots dwNumSlot q) s, 0, vecTasks)
  end.

(** *** Choosing the next group *)

(** [m_lstConns]: the front goes to the back. *)
Definition rotate_conns (l : list Z) : list Z :=
  match l with
  | a :: b :: l => (b :: l) ++ [a]
  | _ => l
  end.

Definition HasWork (g : CIfParallelTaskGrpRfc) : bool := HasFreeSlot g && HasTaskToRun g.

(** The inner loop of [GetNextTaskGrpAAR], [n] more turns. *)
Fixpoint ReadyLoop (H : heap) (n : nat) (orq : list Z) : list Z * option Z :=
  match n, orq with
  | S n, pHead :: orq =>
      let orq := orq ++ [pHead] in
      if negb (HasFreeSlot (H pHead)) then ReadyLoop H n orq
      else if negb (HasTaskToRun (H pHead)) then ReadyLoop H n orq
      else (orq, Some pHead)
  | _, _ => (orq, None)
  end.

(** The loop over the connections, [n] more turns. *)
Fixpoint AARLoop (n : nat) (s : CRRTaskScheduler) : CRRTaskScheduler * Z * option Z :=
  match n, m_lstConns s with
  | S n, pIf :: _ =>
      let s := set_conns (rotate_conns (m_lstConns s)) s in
      if pIf =? m_pSchedMgr s then AARLoop n s
      else match m_mapConnQues s !! pIf with
      | None => AARLoop n s
      | Some q =>
          let '(orq, pGrp) := ReadyLoop (m_heap s) (length (m_plstReady q)) (m_plstReady q) in
          let s := set_ques (<[pIf := set_queues (m_lstWaitSlot q) orq q]> (m_mapConnQues s)) s in
          match pGrp with
          | Some g => (s, 0, Some g)
          | None => AARLoop n s
          end
      end
  | _, _ => (s, - ENOENT, None)
  end.

Definition GetNextTaskGrpAAR (s : CRRTaskScheduler) : CRRTaskScheduler * Z * option Z :=
  AARLoop (length (m_lstConns s)) s.

(** The search for a waiting group with pending tasks, [n] more turns. *)
Fixpoint WaitLoop (H : heap) (n : nat) (owq : list Z) : list Z * option Z :=
  match n, owq with
  | S n, pwh :: owq =>
      if negb (HasPendingTasks (H pwh) =? 0) then (owq, Some pwh)
      else WaitLoop H n (owq ++ [pwh])
  | _, _ => (owq, None)
  end.

(** The inner loop of [GetNextTaskGrpOCC]: a ready group with a free slot gives
    its place to a waiting one with pending tasks. *)
Fixpoint OCCReady (n : nat) (H : heap) (orq owq : list Z)
    : heap * list Z * list Z * option Z :=
  match n, orq with
  | S n, pHead :: orq =>
      match owq with
      | [] =>
          let orq := orq ++ [pHead] in
          if negb (HasFreeSlot (H pHead)) then OCCReady n H orq owq
          else if negb (HasTaskToRun (H pHead)) then OCCReady n H orq owq
          else (H, orq, owq, Some pHead)
      | _ =>
          if negb (HasFreeSlot (H pHead)) then OCCReady n H (orq ++ [pHead]) owq
          else
            let '(owq, found) := WaitLoop H (length owq) owq in
            match found with
            | Some pwh =>
                let H := set_limit 1 pwh (set_limit 0 pHead H) in
                (H, orq ++ [pwh], owq ++ [pHead], Some pwh)
            | None =>
                let orq := orq ++ [pHead] in
                if negb (HasTaskToRun (H pHead)) then OCCReady n H orq owq
                else (H, orq, owq, Some pHead)
            end
      end
  | _, _ => (H, orq, owq, None)
  end.

Fixpoint OCCLoop (n : nat) (s : CRRTaskScheduler) : CRRTaskScheduler * Z * option Z :=
  match n, m_lstConns s with
  | S n, pIf :: _ =>
      let s := set_conns (rotate_conns (m_lstConns s)) s in
      if pIf =? m_pSchedMgr s then OCCLoop n s
      else match m_mapConnQues s !! pIf with
      | None => OCCLoop n s
      | Some q =>
          let '(H, orq, owq, pGrp) :=
            OCCReady (length (m_plstReady q)) (m_heap s) (m_plstReady q) (m_lstWaitSlot q) in
          let s := set_conn pIf (H, set_queues owq orq q) s in
          match pGrp with
          | Some g => (s, 0, Some g)
          | None => OCCLoop n s
          end
      end
  | _, _ => (s, - ENOENT, None)
  end.

(** The last component is the group of the scheduler's manager, when it is
    rescheduled, every 32nd time on a busy router. *)
Definition GetNextTaskGrpOCC (s : CRRTaskScheduler)
    : outcome (CRRTaskScheduler * Z * option Z * option Z) :=
  let! pMgrGrp :=
    (if (32 <=? Z.of_nat (length (m_lstConns s))) && (Z.land (m_dwNumSched s) 0x1f =? 0)
     then match m_plstReady (m_ocqSchdMgr s) with
       | [] => Undef
       | a :: _ => Ret (if 0 <? GetPendingCount (m_heap s a) then Some a else None)
       end
     else Ret None) in
  let '(s, ret, pGrp) :=
    OCCLoop (length (m_lstConns s)) (set_num (u32 (m_dwNumSched s + 1)) s) in
  Ret (s, ret, pGrp, pMgrGrp).

Definition GetNextTaskGrp (dwHint : Z) (s : CRRTaskScheduler)
    : outcome (CRRTaskScheduler * Z * option Z * option Z) :=
  if dwHint =? 0 then let '(s, ret, pGrp) := GetNextTaskGrpAAR s in Ret (s, ret, pGrp, None)
  else if dwHint =? 1 then GetNextTaskGrpOCC s
  else Ret (s, - ENOTSUP, None, None).

(** The loop of [GetNextTaskGrpsRMG]: every ready group goes round once. *)
Fixpoint RMGLoop (H : heap) (n : nat) (orq : list Z) : list Z * list Z :=
  match n, orq with
  | S n, pHead :: orq =>
      let '(orq', que) := RMGLoop H n (orq ++ [pHead]) in
      (orq', if negb (HasFreeSlot (H pHead)) then que
             else if HasTaskToRun (H pHead) then pHead :: que else que)
  | _, _ => (orq, [])
  end.

Definition GetNextTaskGrpsRMG (pIf : Z) (s : CRRTaskScheduler) : CRRTaskScheduler * list Z :=
  if pIf =? m_pSchedMgr s then (s, [])
  else match m_mapConnQues s !! pIf with
  | None => (s, [])
  | Some q =>
      let '(orq, que) := RMGLoop (m_heap s) (length (m_plstReady q)) (m_plstReady q) in
      (set_ques (<[pIf := set_queues (m_lstWaitSlot q) orq q]> (m_mapConnQues s)) s, que)
  end.

(** *** Groups and connections that come and go *)

(** The last component lists the groups that are rescheduled. *)
Definition RemoveTaskGrp (pGrp : Z) (s : CRRTaskScheduler) : CRRTaskScheduler * Z * list Z :=
  match PrxyPortId pGrp with
  | None => (s, 0, [])
  | Some dwPortId =>
      match m_mapId2If s !! dwPortId with
      | None => (s, 0, [])
      | Some pIf =>
          let q := default NewConnQue (m_mapConnQues s !! pIf) in
          let s := set_ques (<[pIf := q]> (m_mapConnQues s)) s in
          if bool_decide (pGrp ∈ m_lstWaitSlot q) then
            (set_conn pIf (m_heap s, set_queues (erase_first pGrp (m_lstWaitSlot q))
               (m_plstReady q) q) s, 0, [])
          else if negb (bool_decide (pGrp ∈ m_plstReady q)) then (s, 0, [])
          else
            let q := set_queues (m_lstWaitSlot q) (erase_first pGrp (m_plstReady q)) q in
            let s := set_conn pIf (m_heap s, q) s in
            let dwNumGrps := GetTaskGrpCount q in
            if dwNumGrps =? 0 then (s, 0, [])
            else
              let dwAvg := m_dwMaxSlots q / dwNumGrps in
              let dwModulo := m_dwMaxSlots q - dwAvg * dwNumGrps in
              if (dwAvg =? 0) && negb (nonempty (m_lstWaitSlot q)) then (s, 0, [])
              else
                let Hq :=
                  if dwAvg =? 0 then IncWaitingGrp 1 (m_heap s) q
                  else let '(H, q) := SetLimitRunningGrps dwAvg (m_heap s) q in
                       (IncRunningGrps dwModulo H q, q) in
                let '(s, queGrps) := GetNextTaskGrpsRMG pIf (set_conn pIf Hq s) in
                (s, 0, queGrps)
      end
  end.

(** [RemoveConn]: the errors are kept in a variable of the inner block, and the
    outer one is answered. *)
Definition RemoveConn (pIf : Z) (s : CRRTaskScheduler) : CRRTaskScheduler * Z :=
  if pIf =? 0 then (s, - EINVAL)
  else
    let dwPortId := default 0xffffffff (PortId pIf) in
    if negb (bool_decide (pIf ∈ m_lstConns s)) then (s, 0)
    else
      let s := set_conns (erase_first pIf (m_lstConns s)) s in
      match m_mapConnQues s !! pIf with
      | None => (s, 0)
      | Some _ =>
          (set_ids (delete dwPortId (m_mapId2If s))
             (set_ques (delete pIf (m_mapConnQues s)) s), 0)
      end.

(** [RemoveTaskGrps( dwPortId )] *)
Definition RemoveTaskGrpsPort (dwPortId : Z) (s : CRRTaskScheduler) : CRRTaskScheduler * Z :=
  match m_mapId2If s !! dwPortId with
  | None => (s, - ENOENT)
  | Some pIf => ((RemoveConn pIf s).1, 0)
  end.

(** The first loop of [RemoveTaskGrps( vecGrps )], and the interfaces that got
    slots back. *)
Fixpoint EraseGrps (vecGrps : list Z) (s : CRRTaskScheduler) (setIfs : list Z)
    : CRRTaskScheduler * list Z :=
  match vecGrps with
  | [] => (s, setIfs)
  | pGrp :: vecGrps =>
      match PrxyPortId pGrp with
      | None => EraseGrps vecGrps s setIfs
      | Some dwPortId =>
          match m_mapId2If s !! dwPortId with
          | None => EraseGrps vecGrps s setIfs
          | Some pIf =>
              let q := default NewConnQue (m_mapConnQues s !! pIf) in
              let s := set_ques (<[pIf := q]> (m_mapConnQues s)) s in
              if bool_decide (pGrp ∈ m_lstWaitSlot q) then
                EraseGrps vecGrps
                  (set_conn pIf (m_heap s, set_queues (erase_first pGrp (m_lstWaitSlot q))
                     (m_plstReady q) q) s) setIfs
              else if bool_decide (pGrp ∈ m_plstReady q) then
                EraseGrps vecGrps
                  (set_conn pIf (m_heap s, set_queues (m_lstWaitSlot q)
                     (erase_first pGrp (m_plstReady q)) q) s) (set_insert pIf setIfs)
              else EraseGrps vecGrps s setIfs
          end
      end
  end.

Fixpoint ReleaseIfs (setIfs : list Z) (s : CRRTaskScheduler) : CRRTaskScheduler * list Z :=
  match setIfs with
  | [] => (s, [])
  | pIf :: setIfs =>
      match m_mapConnQues s !! pIf with
      | None => ReleaseIfs setIfs s
      | Some q =>
          if m_dwMaxSlots q =? 0 then ReleaseIfs setIfs s
          else
            let s := set_conn pIf (ResetSlotCountRelease 0 (m_heap s) q) s in
            let '(s, que) := GetNextTaskGrpsRMG pIf s in
            let '(s, l) := ReleaseIfs setIfs s in (s, que ++ l)
      end
  end.

Definition RemoveTaskGrps (vecGrps : list Z) (s : CRRTaskScheduler)
    : CRRTaskScheduler * Z * list Z :=
  let '(s, setIfs) := EraseGrps vecGrps s [] in
  let '(s, l) := ReleaseIfs setIfs s in (s, 0, l).

Definition AddConn (pIf : Z) (s : CRRTaskScheduler) : CRRTaskScheduler * Z :=
  match PortId pIf with
  | None => (s, - ENOENT)
  | Some dwPortId =>
      match ProxyLimit pIf with
      | None => (s, ERROR_STATE)
      | Some (dwMaxRunning, dwMaxPending) =>
          if bool_decide (is_Some (m_mapId2If s !! dwPortId)) then (s, - EEXIST)
          else
            let s := set_conns (m_lstConns s ++ [pIf]) s in
            let q := default NewConnQue (m_mapConnQues s !! pIf) in
            let s := set_ques (<[pIf := q]> (m_mapConnQues s)) s in
            let s := set_ids (<[dwPortId := pIf]> (m_mapId2If s)) s in
            let '(s, ret, _) := SetSlotCount pIf (u32 (dwMaxRunning + dwMaxPending)) s in
            (s, ret)
      end
  end.

(** The body of the loop of [AddTaskGrp] for a known connection; the tasks to
    kill are the last component. *)
Definition AddToConn (pGrp : Z) (H : heap) (q : CONNQUE_ELEM)
    : heap * CONNQUE_ELEM * list Z :=
  if nonempty (m_lstWaitSlot q)
  then (H, set_queues (m_lstWaitSlot q ++ [pGrp]) (m_plstReady q) q, [])
  else
    let dwNumGrps := u32 (GetTaskGrpCount q + 1) in
    let dwAvg := m_dwMaxSlots q / dwNumGrps in
    let dwModulo := m_dwMaxSlots q - dwAvg * dwNumGrps in
    if dwAvg =? 0
    then (H, set_queues (m_lstWaitSlot q ++ [pGrp]) (m_plstReady q) q, [])
    else
      let q := set_queues (m_lstWaitSlot q) (m_plstReady q ++ [pGrp]) q in
      let '(H, q) := SetLimitRunningGrps dwAvg H q in
      let H := IncRunningGrps dwModulo H q in
      (H, q, SchedSelTasksToKill H q false []).

(** The loop of [AddTaskGrp]: an unknown connection is added and the loop goes
    round again. *)
Fixpoint AddTaskGrpLoop (fuel : nat) (pIf pGrp : Z) (s : CRRTaskScheduler)
    : option (CRRTaskScheduler * Z * list Z) :=
  match fuel with
  | O => None
  | S fuel =>
      if pIf =? m_pSchedMgr s then Some (s, 0, [])
      else match m_mapConnQues s !! pIf with
      | None =>
          let '(s, ret) := AddConn pIf s in
          if ERROR ret then Some (s, ret, []) else AddTaskGrpLoop fuel pIf pGrp s
      | Some q =>
          let '(H, q, vecTasks) := AddToConn pGrp (m_heap s) q in
          Some (set_conn pIf (H, q) s, 0, vecTasks)
      end
  end.

Definition AddTaskGrp (pIf pGrp : Z) (s : CRRTaskScheduler)
    : option (CRRTaskScheduler * Z * list Z) :=
  AddTaskGrpLoop 2 pIf pGrp s.

(** [pGrp] is the parallel group of the manager. *)
Definition Start (pGrp : Z) (s : CRRTaskScheduler) : CRRTaskScheduler * Z :=
  if m_pSchedMgr s =? 0 then (s, - EFAULT)
  else
    let q := m_ocqSchdMgr s in
    (set_conns (m_lstConns s ++ [m_pSchedMgr s])
       (set_mgr_que (mkConn (m_lstWaitSlot q) (m_plstReady q ++ [pGrp])
          (m_plstNextSched q) 1000) s), 0).

Definition Stop (s : CRRTaskScheduler) : CRRTaskScheduler * Z := RemoveConn (m_pSchedMgr s) s.

Definition NewScheduler (H : heap) (pSchedMgr : Z) : CRRTaskScheduler :=
  mkSched H ∅ [] ∅ NewConnQue 0 pSchedMgr.

End Scheduler.

(** ** Reference notions *)

Definition limit (H : heap) (a : Z) : Z := m_dwMaxRunning (H a).

(** A group that takes part, with limits as [SetLimit] leaves them. *)
Definition healthy (H : heap) (a : Z) : Prop :=
  CHECK_GRP_STATE (H a) = true /\ 0 <= limit H a <= RFC_MAX_REQS /\
  0 < m_dwMaxPending (H a) < 2 ^ 32.

(** The slots handed out to a list of groups. *)
Definition total (H : heap) (l : list Z) : Z := foldr (fun a n => limit H a + n) 0 l.

Definition groups (q : CONNQUE_ELEM) : list Z := m_plstReady q ++ m_lstWaitSlot q.

(** How far the slots may be overdrawn: not at all; by less than there are,
    each ready group holding one and all their further ones together being no
    more than there are; or anyhow. *)
Inductive policy := Strict | Twice | Free.

Definition within (pol : policy) (ready slots dwMaxSlots : Z) : Prop :=
  match pol with
  | Strict => slots <= dwMaxSlots
  | Twice => ready <= dwMaxSlots /\ slots - ready <= dwMaxSlots
  | Free => True
  end.

Section Slots.
Context {pol : policy}.

(** A connection: no group is queued twice, waiting groups hold no slot, ready
    groups at least one, and all of them no more than the policy has. *)
Record conn_ok (H : heap) (q : CONNQUE_ELEM) : Prop := mkConnOk {
  co_nodup : NoDup (groups q);
  co_next : m_plstNextSched q = [];
  co_healthy : forall a, a ∈ groups q -> healthy H a;
  co_wait : forall a, a ∈ m_lstWaitSlot q -> limit H a = 0;
  co_ready : forall a, a ∈ m_plstReady q -> 1 <= limit H a;
  co_total : within pol (Z.of_nat (length (m_plstReady q))) (total H (m_plstReady q))
               (m_dwMaxSlots q);
  co_slots : 0 <= m_dwMaxSlots q < 2 ^ 32;
}.

(** The slots are fewer than [2 ^ 32] by their type; so are the groups. *)
Definition few (q : CONNQUE_ELEM) : Prop := Z.of_nat (length (groups q)) < 2 ^ 32 - 1.

(** [H'] differs from [H] in the limits of the groups of [l] only. *)
Definition touches (l : list Z) (H H' : heap) : Prop :=
  (forall a, (a ∉ l) -> H' a = H a) /\
  (forall a, healthy H a -> healthy H' a) /\
  (forall a, base (H' a) = base (H a) /\ m_setTasks (H' a) = m_setTasks (H a) /\
     m_quePendingTasks (H' a) = m_quePendingTasks (H a)).

(** ** Lemmas: limits *)

Lemma within_even r t m : 0 <= r <= t -> t <= m -> within pol r t m.
Proof. destruct pol; simpl; lia. Qed.

Lemma within_drop l r t m : 1 <= l -> within pol (r + 1) (l + t) m -> within pol (r + 1) (t + 1) m.
Proof. destruct pol; simpl; lia. Qed.

Lemma within_less r t m k k' : k' <= k -> within pol (r + k) (t + k) m -> within pol (r + k') (t + k') m.
Proof. destruct pol; simpl; lia. Qed.


Lemma touches_refl l H : touches l H H.
Proof. by split_and!. Qed.

Lemma touches_trans l H1 H2 H3 : touches l H1 H2 -> touches l H2 H3 -> touches l H1 H3.
Proof.
  intros (A1 & A2 & A3) (B1 & B2 & B3). split_and!.
  - intros a Ha. by rewrite B1, A1.
  - eauto.
  - intros a. destruct (A3 a) as (? & ? & ?), (B3 a) as (? & ? & ?). split_and!; congruence.
Qed.

Lemma touches_mono l l' H H' : (forall a, a ∈ l -> a ∈ l') -> touches l H H' -> touches l' H H'.
Proof. intros Hl (A1 & A2 & A3). split_and!; [|done|done]. eauto. Qed.

Lemma upd_same H a g : upd H a g a = g.
Proof. unfold upd. by rewrite Z.eqb_refl. Qed.

Lemma upd_other H a b g : b <> a -> upd H a g b = H b.
Proof. intros Hb. unfold upd. by destruct (Z.eqb_spec b a). Qed.

Lemma set_limit_spec n a H :
  healthy H a -> 0 <= n ->
  limit (set_limit n a H) a = Z.min n RFC_MAX_REQS /\ touches [a] H (set_limit n a H).
Proof.
  intros (Hc & Hl & Hp) Hn. unfold set_limit, SetLimit, GetMaxPending.
  destruct (Z.eqb_spec (m_dwMaxPending (H a)) 0); [lia|]. rewrite Hc. cbn [negb].
  set (g := set_limits _ _ (H a)).
  assert ((if IsNoSched g then (g, 0, false) else (g, 0, false)) = (g, 0, false)) as -> by
    (by destruct (IsNoSched g)).
  cbn [fst]. unfold limit. rewrite upd_same. split; [done|]. split_and!.
  - intros b Hb. apply upd_other. set_solver.
  - intros b. destruct (Z.eq_dec b a) as [->|Hb]; unfold healthy, limit.
    + rewrite upd_same. intros _. split; [exact Hc|]. simpl.
      unfold RFC_MAX_REQS, RFC_MAX_PENDINGS. lia.
    + by rewrite upd_other.
  - intros b. destruct (Z.eq_dec b a) as [->|Hb]; [by rewrite upd_same|by rewrite upd_other].
Qed.

Lemma touches_limit l H H' a : touches l H H' -> (a ∉ l) -> limit H' a = limit H a.
Proof. intros (E & _) Ha. unfold limit. by rewrite E. Qed.

(** Setting every group of a list to [n]. *)
Lemma set_limits_spec n l H :
  (forall a, a ∈ l -> healthy H a) -> 0 <= n ->
  let H' := foldl (fun H a => set_limit n a H) H l in
  (forall a, a ∈ l -> limit H' a = Z.min n RFC_MAX_REQS) /\ touches l H H'.
Proof.
  intros Hh Hn. revert H Hh. induction l as [|a l IH] using rev_ind; intros H Hh; simpl.
  { split; [set_solver|apply touches_refl]. }
  rewrite foldl_app. simpl. destruct (IH H) as [H1 H2]; [set_solver|].
  set (H' := foldl _ H l) in *.
  destruct (set_limit_spec n a H') as [H3 H4]; [apply H2, Hh; set_solver|done|].
  split.
  - intros b Hb. destruct (Z.eq_dec b a) as [->|Hne]; [done|].
    rewrite (touches_limit [a] H') by (done || set_solver). apply H1. set_solver.
  - eapply touches_trans; [eapply touches_mono, H2|eapply touches_mono, H4]; set_solver.
Qed.

(** [SetLimitRunningGrps] leaves out the groups that have the limit already. *)
Lemma set_running_spec n l H :
  (forall a, a ∈ l -> healthy H a) -> 0 <= n < 2 ^ 32 ->
  let H' := foldl (fun H a => if GetMaxRunning (H a) =? s32 n then H else set_limit n a H) H l in
  (forall a, a ∈ l -> limit H' a = Z.min n RFC_MAX_REQS) /\ touches l H H'.
Proof.
  intros Hh Hn. revert H Hh. induction l as [|a l IH] using rev_ind; intros H Hh; simpl.
  { split; [set_solver|apply touches_refl]. }
  rewrite foldl_app. simpl. destruct (IH H) as [H1 H2]; [set_solver|].
  set (H' := foldl _ H l) in *.
  assert (healthy H' a) as Ha by (apply H2, Hh; set_solver).
  destruct (Z.eqb_spec (GetMaxRunning (H' a)) (s32 n)) as [E|_].
  - split; [|eapply touches_mono, H2; set_solver].
    intros b Hb. apply elem_of_app in Hb as [Hb|Hb]; [by apply H1|].
    apply list_elem_of_singleton in Hb as ->. destruct Ha as (_ & Ha & _). unfold limit in *.
    unfold GetMaxRunning, RFC_MAX_REQS in *. unfold s32, sN in E.
    rewrite (Z.mod_small (m_dwMaxRunning (H' a) + _)) in E by lia.
    assert (n < 2 ^ 31 \/ 2 ^ 31 <= n) as [Hlt|Hge] by lia.
    + rewrite Z.mod_small in E by lia. lia.
    + replace (n + 2 ^ (32 - 1)) with (n - 2 ^ 31 + 1 * 2 ^ 32) in E by lia.
      rewrite Z_mod_plus_full, Z.mod_small in E by lia. lia.
  - destruct (set_limit_spec n a H') as [H3 H4]; [done|lia|]. split.
    + intros b Hb. destruct (Z.eq_dec b a) as [->|Hne]; [done|].
      rewrite (touches_limit [a] H') by (done || set_solver). apply H1. set_solver.
    + eapply touches_trans; [eapply touches_mono, H2|eapply touches_mono, H4]; set_solver.
Qed.

Lemma total_ext H H' l : (forall a, a ∈ l -> limit H' a = limit H a) -> total H' l = total H l.
Proof.
  induction l as [|a l IH]; intros E; simpl; [done|].
  rewrite IH by set_solver. rewrite E by set_solver. done.
Qed.

Lemma total_app H l l' : total H (l ++ l') = total H l + total H l'.
Proof. induction l as [|a l IH]; simpl; [done|]. rewrite IH. lia. Qed.

Lemma total_const H l v : (forall a, a ∈ l -> limit H a = v) -> total H l = v * Z.of_nat (length l).
Proof.
  induction l as [|a l IH]; intros E; simpl; [lia|].
  rewrite IH by set_solver. rewrite E by set_solver. lia.
Qed.

Lemma total_perm H l l' : l ≡ₚ l' -> total H l = total H l'.
Proof. induction 1; simpl; lia. Qed.

Lemma total_ge H l : (forall a, a ∈ l -> 1 <= limit H a) -> Z.of_nat (length l) <= total H l.
Proof.
  induction l as [|a l IH]; intros E; simpl; [lia|].
  assert (1 <= limit H a) by (apply E; set_solver).
  assert (Z.of_nat (length l) <= total H l) by (apply IH; set_solver). lia.
Qed.

Lemma within_total H l m :
  (forall a, a ∈ l -> 1 <= limit H a) -> total H l <= m ->
  within pol (Z.of_nat (length l)) (total H l) m.
Proof. intros Hl Ht. apply within_even; [|done]. pose proof (total_ge H l Hl). lia. Qed.

(** [IncRunningGrps]: the first [m] groups of the list get one slot more. *)
Lemma IncLoop_spec m l H v :
  (forall a, a ∈ l -> healthy H a) -> (forall a, a ∈ l -> limit H a = v) -> NoDup l ->
  0 < m -> 0 <= v <= RFC_MAX_REQS ->
  let H' := IncLoop m l H in
  touches l H H' /\ (forall a, a ∈ l -> v <= limit H' a) /\
  total H' l = v * Z.of_nat (length l) +
    (if v =? RFC_MAX_REQS then 0 else Z.min m (Z.of_nat (length l))).
Proof.
  intros Hh Hv Hn Hm Hb. revert m H Hh Hv Hm. unfold RFC_MAX_REQS in *.
  induction l as [|a l IH]; intros m H Hh Hv Hm; simpl.
  { split_and!; [apply touches_refl|set_solver|destruct (v =? 16); lia]. }
  apply NoDup_cons in Hn as [Ha Hn].
  assert (healthy H a /\ limit H a = v) as [Hha Hva] by (split; [apply Hh|apply Hv]; set_solver).
  assert (GetMaxRunning (H a) = v) as ->.
  { unfold GetMaxRunning. unfold limit in Hva. rewrite Hva. apply s32_small. lia. }
  rewrite u32_small by lia.
  destruct (set_limit_spec (v + 1) a H) as [H1 H2]; [done|lia|]. unfold RFC_MAX_REQS in H1.
  set (H' := set_limit (v + 1) a H) in *.
  assert (forall b, b ∈ l -> limit H' b = v) as Hv'.
  { intros b Hbl. rewrite (touches_limit [a] H) by (done || set_solver). apply Hv. set_solver. }
  assert (limit H' a = if v =? 16 then 16 else v + 1) as Hla.
  { destruct (Z.eqb_spec v 16); lia. }
  destruct (Z.eqb_spec (m - 1) 0) as [Hm1|Hm1].
  - split_and!.
    + eapply touches_mono, H2. set_solver.
    + intros b Hbl. apply elem_of_cons in Hbl as [->|Hbl]; [|by rewrite Hv'].
      rewrite Hla. destruct (Z.eqb_spec v 16); lia.
    + rewrite (total_const H' l v Hv'), Hla. destruct (Z.eqb_spec v 16); nia.
  - destruct (IH Hn (m - 1) H') as (I1 & I2 & I3); [|done|lia|].
    { intros b Hbl. apply H2, Hh. set_solver. }
    assert (limit (IncLoop (m - 1) l H') a = limit H' a) as Hla'.
    { by apply (touches_limit l). }
    split_and!.
    + eapply touches_trans; [eapply touches_mono, H2|eapply touches_mono, I1]; set_solver.
    + intros b Hbl. apply elem_of_cons in Hbl as [->|Hbl]; [|by apply I2].
      rewrite Hla', Hla. destruct (Z.eqb_spec v 16); lia.
    + rewrite I3, Hla', Hla. destruct (Z.eqb_spec v 16); nia.
Qed.

(** An even distribution: everybody gets [avg] slots and [m] groups one more. *)
Lemma distribute_spec avg m l H :
  (forall a, a ∈ l -> limit H a = Z.min avg RFC_MAX_REQS) -> (forall a, a ∈ l -> healthy H a) ->
  NoDup l -> 1 <= avg -> 0 <= m ->
  let H' := if m =? 0 then H else IncLoop m l H in
  touches l H H' /\ (forall a, a ∈ l -> 1 <= limit H' a) /\
  total H' l <= avg * Z.of_nat (length l) + m /\
  (avg < RFC_MAX_REQS -> total H' l = avg * Z.of_nat (length l) + Z.min m (Z.of_nat (length l))).
Proof.
  intros Hv Hh Hn Hav Hm. unfold RFC_MAX_REQS in *. destruct (Z.eqb_spec m 0) as [->|Hm0].
  - rewrite (total_const H l _ Hv). split_and!; [apply touches_refl| |nia|].
    + intros a Ha. rewrite Hv by done. lia.
    + intros Hlt. rewrite Z.min_l by lia. lia.
  - destruct (IncLoop_spec m l H (Z.min avg 16)) as (H1 & H2 & H3); [done|done|done|lia|unfold RFC_MAX_REQS; lia|].
    rewrite H3. unfold RFC_MAX_REQS in *. split_and!; [done| | |].
    + intros a Ha. specialize (H2 a Ha). lia.
    + destruct (Z.eqb_spec (Z.min avg 16) 16); nia.
    + intros Hlt. rewrite Z.min_l by lia. destruct (Z.eqb_spec avg 16); lia.
Qed.

(** ** Lemmas: a connection *)

Lemma conn_ok_frame H H' q :
  (forall a, a ∈ groups q -> H' a = H a) -> conn_ok H q -> conn_ok H' q.
Proof.
  intros E [C1 C2 C3 C4 C5 C6 C7]. unfold groups in *.
  assert (forall a, a ∈ m_plstReady q ++ m_lstWaitSlot q -> limit H' a = limit H a) as El.
  { intros a Ha. unfold limit. by rewrite E. }
  split; [done|done| | | | |done].
  - intros a Ha. unfold healthy, limit. rewrite E by done. by apply C3.
  - intros a Ha. rewrite El by set_solver. by apply C4.
  - intros a Ha. rewrite El by set_solver. by apply C5.
  - rewrite (total_ext H); [done|]. intros a Ha. apply El. set_solver.
Qed.

(** The running groups share [avg] slots each, and [m] more. *)
Lemma running_redistributed avg m H q :
  1 <= avg < 2 ^ 32 -> 0 <= m -> NoDup (m_plstReady q) ->
  (forall a, a ∈ m_plstReady q -> healthy H a) ->
  exists H',
    (let '(H1, q1) := SetLimitRunningGrps avg H q in (IncRunningGrps m H1 q1, q1)) = (H', q) /\
    touches (m_plstReady q) H H' /\ (forall a, a ∈ m_plstReady q -> 1 <= limit H' a) /\
    total H' (m_plstReady q) <= avg * Z.of_nat (length (m_plstReady q)) + m /\
    (avg < RFC_MAX_REQS -> total H' (m_plstReady q) =
       avg * Z.of_nat (length (m_plstReady q)) + Z.min m (Z.of_nat (length (m_plstReady q)))).
Proof.
  intros Hav Hm Hn Hh. unfold SetLimitRunningGrps.
  destruct (Z.eqb_spec avg 0); [lia|]. cbn [andb].
  destruct (set_running_spec avg (m_plstReady q) H Hh) as [H1 H2]; [lia|].
  set (H1' := foldl _ H _) in *.
  destruct (distribute_spec avg m (m_plstReady q) H1') as (D1 & D2 & D3 & D4); [done| |done|lia|done|].
  { intros a Ha. by apply H2, Hh. }
  unfold IncRunningGrps. eexists. split_and!; [done| |exact D2|exact D3|exact D4].
  by eapply touches_trans.
Qed.

(** All groups share [avg] slots each, and [m] more; no one waits any longer. *)
Lemma all_redistributed avg m H q :
  1 <= avg < 2 ^ 32 -> 0 <= m -> NoDup (groups q) ->
  (forall a, a ∈ groups q -> healthy H a) ->
  exists H',
    (let '(H1, q1) := SetLimitGrps avg H q in (IncRunningGrps m H1 q1, q1)) =
      (H', set_queues [] (groups q) q) /\
    touches (groups q) H H' /\ (forall a, a ∈ groups q -> 1 <= limit H' a) /\
    total H' (groups q) <= avg * Z.of_nat (length (groups q)) + m /\
    (avg < RFC_MAX_REQS -> total H' (groups q) =
       avg * Z.of_nat (length (groups q)) + Z.min m (Z.of_nat (length (groups q)))).
Proof.
  intros Hav Hm Hn Hh. unfold SetLimitGrps, SetLimitRunningGrps.
  destruct (Z.eqb_spec avg 0); [lia|]. cbn [andb]. fold (groups q).
  destruct (set_running_spec avg (m_plstReady q) H) as [H1 H2]; [|lia|].
  { intros a Ha. apply Hh. unfold groups. set_solver. }
  set (H1' := foldl _ H (m_plstReady q)) in *.
  destruct (set_limits_spec avg (m_lstWaitSlot q) H1') as [H3 H4]; [|lia|].
  { intros a Ha. apply H2, Hh. unfold groups. set_solver. }
  set (H2' := foldl _ H1' _) in *.
  assert (touches (groups q) H H2') as Ht.
  { eapply touches_trans; [eapply touches_mono, H2|eapply touches_mono, H4]; unfold groups; set_solver. }
  destruct (distribute_spec avg m (groups q) H2') as (D1 & D2 & D3 & D4); [| |done|lia|done|].
  - intros a Ha. destruct (decide (a ∈ m_lstWaitSlot q)) as [Hw|Hw]; [by apply H3|].
    rewrite (touches_limit (m_lstWaitSlot q) H1') by done. apply H1. unfold groups in Ha. set_solver.
  - intros a Ha. by apply Ht, Hh.
  - unfold IncRunningGrps. eexists. split_and!; [done| |exact D2|exact D3|exact D4].
    by eapply touches_trans.
Qed.

(** A sum of slots that is split evenly. *)
Lemma even_split s N :
  0 <= s < 2 ^ 32 -> 0 < N -> s / N <> 0 ->
  1 <= s / N < 2 ^ 32 /\ 0 <= s - s / N * N < N /\ s / N * N + (s - s / N * N) = s.
Proof.
  intros Hs HN Hav. pose proof (Z.div_pos s N). pose proof (Z.mul_div_le s N HN).
  pose proof (Z.mul_succ_div_gt s N HN). split_and!; nia.
Qed.

Lemma GetTaskGrpCount_ok H q :
  conn_ok H q -> few q -> GetTaskGrpCount q = Z.of_nat (length (groups q)).
Proof.
  intros C Hf. unfold GetTaskGrpCount, few, groups in *. rewrite (co_next _ _ C), length_app in *.
  simpl. rewrite u32_small by lia. lia.
Qed.

(** ** Lemmas: groups that come *)

Lemma AddToConn_ok IsInvoke g H q :
  conn_ok H q -> few q -> healthy H g -> limit H g = 0 -> (g ∉ groups q) ->
  let '(H', q', _) := AddToConn IsInvoke g H q in
  conn_ok H' q' /\ touches (g :: groups q) H H' /\
  groups q' ≡ₚ g :: groups q /\ m_dwMaxSlots q' = m_dwMaxSlots q.
Proof.
  intros C Hf Hg Hl Hn. pose proof C as [C1 C2 C3 C4 C5 C6 C7]. unfold AddToConn.
  assert (Hwait : conn_ok H (set_queues (m_lstWaitSlot q ++ [g]) (m_plstReady q) q) /\
    touches (g :: groups q) H H /\
    groups (set_queues (m_lstWaitSlot q ++ [g]) (m_plstReady q) q) ≡ₚ g :: groups q /\
    m_dwMaxSlots (set_queues (m_lstWaitSlot q ++ [g]) (m_plstReady q) q) = m_dwMaxSlots q).
  { unfold groups in *. simpl.
    assert (m_plstReady q ++ m_lstWaitSlot q ++ [g] ≡ₚ g :: m_plstReady q ++ m_lstWaitSlot q) as Hp.
    { rewrite app_assoc. by rewrite Permutation_app_comm. }
    split_and!; [|apply touches_refl|done|done]. split; unfold groups; simpl; try done.
    - rewrite Hp. by constructor.
    - intros a. rewrite Hp. rewrite elem_of_cons. intros [->|Ha]; [done|by apply C3].
    - intros a Ha. apply elem_of_app in Ha as [Ha|Ha]; [by apply C4|].
      by apply list_elem_of_singleton in Ha as ->. }
  destruct (m_lstWaitSlot q) as [|w ws] eqn:Ew; [|exact Hwait]. cbn [nonempty].
  assert (m_plstReady q = groups q) as Hr by (unfold groups; by rewrite Ew, app_nil_r).
  rewrite (GetTaskGrpCount_ok H q C Hf). unfold few in Hf.
  rewrite u32_small by (rewrite <- Hr in Hf |- *; lia).
  set (N := Z.of_nat (length (groups q)) + 1).
  destruct (Z.eqb_spec (m_dwMaxSlots q / N) 0) as [|Hav]; [exact Hwait|]. clear Hwait.
  destruct (even_split (m_dwMaxSlots q) N C7) as (E1 & E2 & E3); [lia|done|].
  set (q1 := set_queues [] (m_plstReady q ++ [g]) q).
  assert (groups q ++ [g] ≡ₚ g :: groups q) as Hp by (by rewrite Permutation_app_comm).
  destruct (running_redistributed (m_dwMaxSlots q / N) (m_dwMaxSlots q - m_dwMaxSlots q / N * N) H q1)
    as (H' & HE & R1 & R2 & R3 & _); [done|lia| | |].
  { simpl. rewrite Hr, Hp. by constructor. }
  { simpl. rewrite Hr. intros a Ha. apply elem_of_app in Ha as [Ha|Ha]; [by apply C3|].
    by apply list_elem_of_singleton in Ha as ->. }
  destruct (SetLimitRunningGrps _ H q1) as [H1 q2] eqn:ES. injection HE as HE ->. rewrite HE.
  simpl in R1, R2, R3. rewrite Hr in R1, R2, R3. rewrite length_app in R3. simpl in R3.
  split_and!; [|eapply touches_mono, R1; intros a Ha; by rewrite <- Hp| |done].
  2: { unfold groups at 1. simpl. by rewrite app_nil_r, Hr. }
  split; unfold groups; simpl; rewrite ?app_nil_r, ?Hr; try done.
  - rewrite Hp. by constructor.
  - intros a Ha. apply R1. rewrite Hp in Ha. apply elem_of_cons in Ha as [->|Ha]; [done|by apply C3].
  - set_solver.
  - apply within_total; [done|]. unfold N in *. lia.
Qed.

(** ** Lemmas: groups that get a slot *)

Lemma PickPending_spec H n l p r :
  PickPending H n l = (p, r) ->
  p ++ r ≡ₚ l /\ (length p <= n)%nat /\ Forall (fun a => 0 < HasPendingTasks (H a)) p.
Proof.
  revert n p r. induction l as [|a l IH]; intros n p r; simpl.
  { intros [= <- <-]. split_and!; [done|simpl; lia|done]. }
  destruct n as [|n]; [intros [= <- <-]; split_and!; [done|simpl; lia|done]|].
  destruct (Z.ltb_spec 0 (HasPendingTasks (H a))) as [Hp|Hp].
  - destruct (PickPending H n l) as [p' r'] eqn:E. intros [= <- <-].
    destruct (IH _ _ _ E) as (I1 & I2 & I3). simpl. rewrite I1.
    split_and!; [done|lia|by constructor].
  - destruct (PickPending H (S n) l) as [p' r'] eqn:E. intros [= <- <-].
    destruct (IH _ _ _ E) as (I1 & I2 & I3). split_and!; [|done|done].
    rewrite <- I1. by rewrite Permutation_middle.
Qed.

Lemma IncWaitingGrp_ok n H q :
  conn_ok H q -> 0 <= n ->
  within pol (Z.of_nat (length (m_plstReady q)) + n) (total H (m_plstReady q) + n) (m_dwMaxSlots q) ->
  let '(H', q') := IncWaitingGrp n H q in
  conn_ok H' q' /\ touches (m_lstWaitSlot q) H H' /\ groups q' ≡ₚ groups q /\
  m_dwMaxSlots q' = m_dwMaxSlots q /\
  exists moved, m_plstReady q' = m_plstReady q ++ moved /\
    moved ++ m_lstWaitSlot q' ≡ₚ m_lstWaitSlot q /\
    Z.of_nat (length moved) = Z.min n (Z.of_nat (length (m_lstWaitSlot q))).
Proof.
  intros C Hn Ht. pose proof C as [C1 C2 C3 C4 C5 C6 C7]. unfold IncWaitingGrp.
  destruct (Z.eqb_spec n 0) as [->|Hn0].
  { split_and!; [done|apply touches_refl|done|done|].
    exists []. rewrite app_nil_r. split_and!; [done|done|simpl; lia]. }
  destruct (PickPending H _ _) as [p r] eqn:EP.
  destruct (PickPending_spec _ _ _ _ _ EP) as (P1 & P2 & _).
  set (k := Z.to_nat (n - Z.of_nat (length p))). set (moved := p ++ firstn k r).
  assert (moved ++ skipn k r ≡ₚ m_lstWaitSlot q) as Hp.
  { unfold moved. by rewrite <- app_assoc, firstn_skipn, P1. }
  assert (Z.of_nat (length moved) = Z.min n (Z.of_nat (length (m_lstWaitSlot q)))) as Hlen.
  { apply Permutation_length in P1. rewrite length_app in P1.
    unfold moved. rewrite length_app, length_firstn. lia. }
  unfold groups in C1, C3.
  assert (forall a, a ∈ moved -> a ∈ m_lstWaitSlot q) as Hin.
  { intros a Ha. rewrite <- Hp. set_solver. }
  destruct (set_limits_spec 1 moved H) as [S1 S2]; [|lia|].
  { intros a Ha. apply C3. specialize (Hin a Ha). set_solver. }
  set (H' := foldl _ H moved) in *. unfold RFC_MAX_REQS in S1.
  rewrite <- Hp in C1. apply NoDup_app in C1 as (N1 & N2 & N3).
  apply NoDup_app in N3 as (N3 & N4 & N5).
  assert (touches (m_lstWaitSlot q) H H') as Htw by (by eapply touches_mono, S2).
  assert (groups (set_queues (skipn k r) (m_plstReady q ++ moved) q) ≡ₚ groups q) as Hg.
  { unfold groups. simpl. by rewrite <- app_assoc, Hp. }
  split_and!; [|done|done|done|by exists moved].
  assert (forall a, a ∈ m_plstReady q -> limit H' a = limit H a) as Hready.
  { intros a Ha. apply (touches_limit moved); [done|]. intros Hm. apply (N2 a Ha). set_solver. }
  split; simpl; [|done| | | | |done].
  - rewrite Hg. unfold groups. rewrite <- Hp. apply NoDup_app. split_and!; [done|done|].
    by apply NoDup_app.
  - intros a Ha. apply S2, C3. by rewrite Hg in Ha.
  - intros a Ha. rewrite (touches_limit moved H); [|done|by intros Hm; apply (N4 a)].
    apply C4. rewrite <- Hp. set_solver.
  - intros a Ha. apply elem_of_app in Ha as [Ha|Ha].
    + rewrite Hready by done. by apply C5.
    + rewrite S1 by done. lia.
  - rewrite total_app, (total_ext H H' _ Hready), (total_const H' moved 1).
    + rewrite length_app, Nat2Z.inj_add, Z.mul_1_l. eapply within_less; [|exact Ht]. lia.
    + intros a Ha. by rewrite S1.
Qed.

(** ** Lemmas: groups that go *)

Lemma erase_first_perm x q : x ∈ q -> x :: erase_first x q ≡ₚ q.
Proof.
  induction q as [|y q IH]; [set_solver|]. intros H. simpl.
  destruct (Z.eqb_spec y x) as [->|Hne]; [done|].
  rewrite Permutation_swap. constructor. apply IH. set_solver.
Qed.

(** Taking a group out of a connection. *)
Lemma erase_ok g w r H q :
  conn_ok H q ->
  (g :: w ≡ₚ m_lstWaitSlot q /\ r = m_plstReady q \/
   g :: r ≡ₚ m_plstReady q /\ w = m_lstWaitSlot q) ->
  conn_ok H (set_queues w r q) /\ g :: groups (set_queues w r q) ≡ₚ groups q /\
  (g :: r ≡ₚ m_plstReady q ->
   within pol (Z.of_nat (length r) + 1) (total H r + 1) (m_dwMaxSlots q)).
Proof.
  intros C Hp. pose proof C as [C1 C2 C3 C4 C5 C6 C7].
  assert (g :: groups (set_queues w r q) ≡ₚ groups q) as Hg.
  { unfold groups. simpl. destruct Hp as [[<- ->]|[<- ->]]; [by rewrite Permutation_middle|done]. }
  assert (forall a, a ∈ groups (set_queues w r q) -> a ∈ groups q) as Hsub.
  { intros a Ha. rewrite <- Hg. set_solver. }
  assert (forall a, a ∈ w -> a ∈ m_lstWaitSlot q) as Hw.
  { intros a Ha. destruct Hp as [[E _]|[_ ->]]; [rewrite <- E; set_solver|done]. }
  assert (forall a, a ∈ r -> a ∈ m_plstReady q) as Hr.
  { intros a Ha. destruct Hp as [[_ ->]|[E _]]; [done|rewrite <- E; set_solver]. }
  assert (g :: r ≡ₚ m_plstReady q ->
    within pol (Z.of_nat (length r) + 1) (total H r + 1) (m_dwMaxSlots q)) as Ht.
  { intros E. rewrite <- (total_perm H _ _ E), <- E in C6. simpl in C6.
    rewrite Nat2Z.inj_succ in C6. apply (within_drop (limit H g)); [|done].
    apply C5. rewrite <- E. set_solver. }
  split_and!; [|done|done]. split; simpl; [|done|eauto|eauto|eauto| |done].
  - rewrite <- Hg in C1. by apply NoDup_cons in C1 as [_ C1].
  - destruct Hp as [[_ ->]|[E _]]; [done|].
    rewrite <- (Z.add_0_r (Z.of_nat _)), <- (Z.add_0_r (total _ _)).
    eapply within_less; [|exact (Ht E)]. lia.
Qed.

(** ** Lemmas: slots that are shared anew *)

Lemma wf_touched H H' q w r :
  conn_ok H q -> touches (groups q) H H' -> r ++ w ≡ₚ groups q ->
  (forall a, a ∈ w -> limit H' a = 0) -> (forall a, a ∈ r -> 1 <= limit H' a) ->
  within pol (Z.of_nat (length r)) (total H' r) (m_dwMaxSlots q) ->
  conn_ok H' (set_queues w r q).
Proof.
  intros [C1 C2 C3 C4 C5 C6 C7] Ht Hp Hw Hr Hin. split; try done; unfold groups in *; simpl.
  - by rewrite Hp.
  - intros a. rewrite Hp. intros Ha. by apply Ht, C3.
Qed.

(** All ready groups lose their slots and wait. *)
Lemma running_zero_ok H q :
  conn_ok H q ->
  let '(H', q') := SetLimitRunningGrps 0 H q in
  conn_ok H' q' /\ touches (groups q) H H' /\ groups q' = groups q /\
  m_plstReady q' = [] /\ m_dwMaxSlots q' = m_dwMaxSlots q.
Proof.
  intros C. pose proof C as [C1 C2 C3 C4 C5 C6 C7]. unfold SetLimitRunningGrps.
  destruct (set_running_spec 0 (m_plstReady q) H) as [H1 H2]; [|lia|].
  { intros a Ha. apply C3. unfold groups. set_solver. }
  set (H' := foldl _ H _) in *. rewrite Z.eqb_refl. cbn [andb].
  destruct (m_plstReady q) as [|a r] eqn:Er; cbn [nonempty].
  { split_and!; [done|apply touches_refl|done|done|done]. }
  rewrite <- Er in *. assert (touches (groups q) H H') as Ht.
  { eapply touches_mono, H2. unfold groups. set_solver. }
  split_and!; [|done|done|done|done]. apply (wf_touched H); [done|done|done| |set_solver|].
  - intros x Hx. destruct (decide (x ∈ m_plstReady q)) as [Hr|Hr]; [by rewrite H1|].
    rewrite (touches_limit (m_plstReady q) H) by done. apply C4. set_solver.
  - apply within_even; simpl; lia.
Qed.

(** [cnt] slots are shared among all groups. *)
Lemma share_ok cnt H q :
  conn_ok H q -> 0 <= cnt < 2 ^ 32 -> cnt <= m_dwMaxSlots q \/ pol = Free ->
  let N := Z.of_nat (length (groups q)) in
  N <> 0 -> cnt / N <> 0 ->
  let '(H1, q1) := SetLimitGrps (cnt / N) H q in
  let H' := IncRunningGrps (cnt - cnt / N * N) H1 q1 in
  conn_ok H' q1 /\ touches (groups q) H H' /\ groups q1 = groups q /\
  m_dwMaxSlots q1 = m_dwMaxSlots q.
Proof.
  intros C Hc Hmax N HN Hav. destruct (even_split cnt N) as (E1 & E2 & E3); [done|lia|done|].
  destruct (all_redistributed (cnt / N) (cnt - cnt / N * N) H q)
    as (H' & HE & R1 & R2 & R3 & _); [done|lia|apply C|apply C|].
  destruct (SetLimitGrps _ H q) as [H1 q1]. injection HE as <- ->.
  assert (groups (set_queues [] (groups q) q) = groups q) as Hg by apply app_nil_r.
  split_and!; [|done|done|done]. apply (wf_touched H); [done|done| |set_solver|done|].
  - by rewrite app_nil_r.
  - destruct Hmax as [Hmax| ->]; [|done]. apply within_total; [done|]. fold N in R3. lia.
Qed.

(** [ResetSlotCountRelease( ocq, 0 )], for [RemoveTaskGrps]. *)
Lemma ResetSlotCountRelease_ok H q :
  pol <> Strict -> conn_ok H q -> few q ->
  let '(H', q') := ResetSlotCountRelease 0 H q in
  conn_ok H' q' /\ touches (groups q) H H' /\ groups q' ≡ₚ groups q.
Proof.
  intros Hpol C Hf. unfold ResetSlotCountRelease. rewrite (GetTaskGrpCount_ok H q C Hf).
  set (N := Z.of_nat (length (groups q))). pose proof (co_slots _ _ C) as Hs.
  destruct (Z.eqb_spec N 0); [split_and!; [done|apply touches_refl|done]|].
  rewrite Z.add_0_r, u32_small by done. destruct (Z.eqb_spec (m_dwMaxSlots q / N) 0) as [Hav|Hav].
  - destruct (Z.ltb_spec (Z.of_nat (length (m_plstReady q)))
      (m_dwMaxSlots q - m_dwMaxSlots q / N * N)) as [Hlt|_];
      [|split_and!; [done|apply touches_refl|done]].
    rewrite Hav in *. set (k := m_dwMaxSlots q - 0 * N - _).
    pose proof (IncWaitingGrp_ok k H q C) as HI. destruct (IncWaitingGrp k H q) as [H' q'].
    destruct HI as (I1 & I2 & I3 & _); [unfold k; lia| |].
    + pose proof (co_total _ _ C) as Ht. unfold k. destruct pol; simpl in *; [done|lia|done].
    + split_and!; [done| |done]. eapply touches_mono, I2. unfold groups. set_solver.
  - pose proof (share_ok (m_dwMaxSlots q) H q C Hs (or_introl (Z.le_refl _)) n Hav) as HS. fold N in HS.
    destruct (SetLimitGrps _ H q) as [H1 q1]. destruct HS as (S1 & S2 & S3 & _).
    split_and!; [done|done|by rewrite S3].
Qed.

Lemma set_slots_ok H q n :
  pol = Free -> 0 <= n < 2 ^ 32 -> conn_ok H q -> conn_ok H (set_slots n q).
Proof. intros HF Hn [C1 C2 C3 C4 C5 C6 C7]. split; try done. by rewrite HF. Qed.

Lemma free_within r t m : pol = Free -> within pol r t m.
Proof. by intros ->. Qed.

(** The two halves of [SetSlotCount]. *)
Lemma IncSlotCount_ok cnt H q :
  pol = Free -> 0 <= cnt -> conn_ok H q -> few q ->
  let '(H', q') := IncSlotCount cnt H q in
  conn_ok H' q' /\ touches (groups q) H H' /\ groups q' ≡ₚ groups q.
Proof.
  intros HF Hcnt C Hf. unfold IncSlotCount. rewrite (GetTaskGrpCount_ok H q C Hf).
  set (N := Z.of_nat (length (groups q))).
  destruct (Z.eqb_spec cnt 0); [split_and!; [done|apply touches_refl|done]|].
  destruct (Z.eqb_spec N 0) as [|HN]; [split_and!; [done|apply touches_refl|done]|]. cbn [orb].
  set (c := u32 (m_dwMaxSlots q + cnt)). assert (0 <= c < 2 ^ 32) as Hc by apply u32_range.
  destruct (m_lstWaitSlot q) as [|w ws] eqn:Ew.
  - destruct (Z.eq_dec (c / N) 0) as [Hav|Hav].
    + rewrite Hav. pose proof (running_zero_ok H q C) as HZ.
      destruct (SetLimitRunningGrps 0 H q) as [H1 q1]. destruct HZ as (Z1 & Z2 & Z3 & Z4 & _).
      unfold IncRunningGrps. rewrite Z4. simpl. destruct (_ =? 0); by rewrite Z3.
    + destruct (even_split c N) as (E1 & E2 & E3); [done|lia|done|].
      assert (groups q = m_plstReady q) as Hg by (unfold groups; by rewrite Ew, app_nil_r).
      destruct (running_redistributed (c / N) (c - c / N * N) H q)
        as (H' & -> & R1 & R2 & _ & _); [done|lia| | |].
      { rewrite <- Hg. apply C. }
      { rewrite <- Hg. apply C. }
      rewrite <- Hg in R1. split_and!; [|done|done].
      replace q with (set_queues (m_lstWaitSlot q) (m_plstReady q) q) by (by destruct q).
      apply (wf_touched H); [done|done|done| |done|by apply free_within].
      rewrite Ew. set_solver.
  - destruct (Z.eqb_spec (c / N) 0) as [Hav|Hav].
    + pose proof (IncWaitingGrp_ok cnt H q C Hcnt (free_within _ _ _ HF)) as HI.
      destruct (IncWaitingGrp cnt H q) as [H' q']. destruct HI as (I1 & I2 & I3 & _).
      split_and!; [done| |done]. eapply touches_mono, I2. unfold groups. set_solver.
    + pose proof (share_ok c H q C Hc (or_intror HF) HN Hav) as HS. fold N in HS.
      destruct (SetLimitGrps _ H q) as [H1 q1]. destruct HS as (S1 & S2 & S3 & _).
      split_and!; [done|done|by rewrite S3].
Qed.

Lemma DecSlotCount_ok IsInvoke cnt H q v :
  pol = Free -> conn_ok H q -> few q ->
  let '(H', q', _) := DecSlotCount IsInvoke cnt H q v in
  conn_ok H' q' /\ touches (groups q) H H' /\ groups q' ≡ₚ groups q.
Proof.
  intros HF C Hf. unfold DecSlotCount, ResetSlotCountAlloc. rewrite (GetTaskGrpCount_ok H q C Hf).
  set (N := Z.of_nat (length (groups q))).
  destruct (cnt =? 0); [split_and!; [done|apply touches_refl|done]|].
  destruct (Z.eqb_spec N 0) as [|HN]; [split_and!; [done|apply touches_refl|done]|].
  set (c := u32 (m_dwMaxSlots q - cnt)). assert (0 <= c < 2 ^ 32) as Hc by apply u32_range.
  destruct (Z.eqb_spec (c / N) 0) as [Hav|Hav].
  - rewrite Hav, Z.sub_0_r. unfold SetLimitGrps. pose proof (running_zero_ok H q C) as HZ.
    destruct (SetLimitRunningGrps 0 H q) as [H1 q1]. destruct HZ as (Z1 & Z2 & Z3 & Z4 & _).
    rewrite Z.eqb_refl.
    pose proof (IncWaitingGrp_ok c H1 q1 Z1 (proj1 Hc) (free_within _ _ _ HF)) as HI.
    destruct (IncWaitingGrp c H1 q1) as [H' q']. destruct HI as (I1 & I2 & I3 & _).
    split_and!; [done| |by rewrite I3, Z3]. eapply touches_trans; [done|].
    eapply touches_mono, I2. rewrite <- Z3. unfold groups. set_solver.
  - pose proof (share_ok c H q C Hc (or_intror HF) HN Hav) as HS. fold N in HS.
    destruct (SetLimitGrps _ H q) as [H1 q1]. destruct HS as (S1 & S2 & S3 & _).
    split_and!; [done|done|by rewrite S3].
Qed.

(** ** The scheduler as a state machine *)

(** Every connection is in order and no group is queued at two of them. *)
Record sched_ok (s : CRRTaskScheduler) : Prop := mkSchedOk {
  so_conn : forall i q, m_mapConnQues s !! i = Some q -> conn_ok (m_heap s) q;
  so_disj : forall i j qi qj a, m_mapConnQues s !! i = Some qi ->
    m_mapConnQues s !! j = Some qj -> a ∈ groups qi -> a ∈ groups qj -> i = j;
}.

Definition sched_few (s : CRRTaskScheduler) : Prop :=
  forall i q, m_mapConnQues s !! i = Some q -> few q.

Definition queued (s : CRRTaskScheduler) (a : Z) : Prop :=
  exists i q, m_mapConnQues s !! i = Some q /\ a ∈ groups q.

(** A new group: its limit is 0 ([CreateGrpRfc] makes it so when there is a
    scheduler) and it is not queued yet. *)
Definition new_group (s : CRRTaskScheduler) (g : Z) : Prop :=
  healthy (m_heap s) g /\ limit (m_heap s) g = 0 /\ ~ queued s g.

(** What happens to the groups meanwhile: tasks come and go, and groups that
    are not queued may do anything. *)
Definition env_step (s : CRRTaskScheduler) (H' : heap) : Prop :=
  forall a, queued s a -> healthy H' a /\ limit H' a = limit (m_heap s) a.

(** The steps of the scheduler.  [RemoveTaskGrps] and [SetSlotCount] are steps
    under the policies that allow what they do to the slots. *)
Section SchedSteps.
Context (IsInvoke : Z -> bool) (PrxyPortId PortId : Z -> option Z)
        (ProxyLimit : Z -> option (Z * Z)).

Inductive sched_step : CRRTaskScheduler -> CRRTaskScheduler -> Prop :=
  | ss_env s H' : env_step s H' -> sched_step s (set_heap H' s)
  | ss_start g s : sched_step s (Start g s).1
  | ss_add_grp pIf g s s' ret v :
      sched_few s -> new_group s g ->
      AddTaskGrp IsInvoke PortId ProxyLimit pIf g s = Some (s', ret, v) -> sched_step s s'
  | ss_add_conn pIf s :
      m_mapConnQues s !! pIf = None ->
      sched_step s (AddConn IsInvoke PortId ProxyLimit pIf s).1
  | ss_remove_grp g s s' ret l :
      sched_few s -> RemoveTaskGrp PrxyPortId g s = (s', ret, l) -> sched_step s s'
  | ss_remove_grps vecGrps s s' ret l :
      pol <> Strict -> sched_few s ->
      RemoveTaskGrps PrxyPortId vecGrps s = (s', ret, l) -> sched_step s s'
  | ss_slot_count pIf dwNumSlot s s' ret v :
      pol = Free -> sched_few s -> 0 <= dwNumSlot < 2 ^ 32 ->
      SetSlotCount IsInvoke pIf dwNumSlot s = (s', ret, v) -> sched_step s s'
  | ss_remove_port dwPortId s : sched_step s (RemoveTaskGrpsPort PortId dwPortId s).1
  | ss_remove_conn pIf s : sched_step s (RemoveConn PortId pIf s).1
  | ss_next dwHint s s' ret g m :
      GetNextTaskGrp dwHint s = Ret (s', ret, g, m) -> sched_step s s'.

(** ** Lemmas: the scheduler *)

(** No connection but [i] has the group. *)
Definition foreign (s : CRRTaskScheduler) (i a : Z) : Prop :=
  forall j q, j <> i -> m_mapConnQues s !! j = Some q -> (a ∉ groups q).

Lemma foreign_own s i q a :
  sched_ok s -> m_mapConnQues s !! i = Some q -> a ∈ groups q -> foreign s i a.
Proof. intros [_ D] Hq Ha j q' Hj Hq' Ha'. apply Hj. by eapply D. Qed.

Lemma sched_update s i H' q' l :
  sched_ok s -> conn_ok H' q' -> touches l (m_heap s) H' ->
  (forall a, a ∈ l -> foreign s i a) -> (forall a, a ∈ groups q' -> foreign s i a) ->
  sched_ok (set_conn i (H', q') s).
Proof.
  intros [C D] Hc Ht Hl Hg. split; simpl.
  - intros j q. destruct (Z.eq_dec j i) as [->|Hj].
    + rewrite lookup_insert_eq. by intros [= <-].
    + rewrite lookup_insert_ne by done. intros Hq. eapply conn_ok_frame; [|by eapply C].
      intros a Ha. apply Ht. intros Hin. by eapply (Hl a Hin j q).
  - intros j k qj qk a. destruct (Z.eq_dec j i) as [->|Hj], (Z.eq_dec k i) as [->|Hk];
      rewrite ?lookup_insert_eq, ?lookup_insert_ne by done;
      [by intros| | |by eauto].
    + intros [= <-] Hqk Ha Hak. by destruct (Hg a Ha k qk).
    + intros Hqj [= <-] Haj Ha. by destruct (Hg a Ha j qj).
Qed.

(** An update that only moves the groups of one connection around. *)
Lemma sched_update_own s i q H' q' l :
  sched_ok s -> m_mapConnQues s !! i = Some q -> conn_ok H' q' -> touches l (m_heap s) H' ->
  (forall a, a ∈ l -> a ∈ groups q) -> (forall a, a ∈ groups q' -> a ∈ groups q) ->
  sched_ok (set_conn i (H', q') s).
Proof.
  intros Hs Hq Hc Ht Hl Hg. eapply sched_update; [done|done|done| |];
    intros a Ha; eapply foreign_own; eauto.
Qed.

Lemma set_conn_ques i q s : set_conn i (m_heap s, q) s = set_ques (<[i := q]> (m_mapConnQues s)) s.
Proof. by destruct s. Qed.

Lemma conn_ok_queues H q w r :
  conn_ok H q -> w ≡ₚ m_lstWaitSlot q -> r ≡ₚ m_plstReady q ->
  conn_ok H (set_queues w r q) /\ groups (set_queues w r q) ≡ₚ groups q.
Proof.
  intros [C1 C2 C3 C4 C5 C6 C7] Hw Hr.
  assert (groups (set_queues w r q) ≡ₚ groups q) as Hg by (unfold groups; simpl; by rewrite Hw, Hr).
  split; [|done]. split; simpl; [by rewrite Hg|done| | | | |done].
  - intros a Ha. apply C3. by rewrite <- Hg.
  - intros a Ha. apply C4. by rewrite <- Hw.
  - intros a Ha. apply C5. by rewrite <- Hr.
  - by rewrite (total_perm _ _ _ Hr), (Permutation_length Hr).
Qed.

Lemma NewConnQue_ok H n : 0 <= n < 2 ^ 32 -> conn_ok H (set_slots n NewConnQue).
Proof.
  intros Hn. split; unfold groups; simpl;
    [constructor|done|set_solver|set_solver|set_solver|apply within_even; lia|done].
Qed.

Lemma sched_update_same s i q w r :
  sched_ok s -> m_mapConnQues s !! i = Some q -> w ≡ₚ m_lstWaitSlot q -> r ≡ₚ m_plstReady q ->
  sched_ok (set_ques (<[i := set_queues w r q]> (m_mapConnQues s)) s).
Proof.
  intros Hs Hq Hw Hr. destruct (conn_ok_queues (m_heap s) q w r) as [Hc Hg]; [by eapply so_conn|done|done|].
  rewrite <- set_conn_ques. eapply (sched_update_own s i q); [done|done|done|apply (touches_refl [])|set_solver|].
  intros a Ha. by rewrite <- Hg.
Qed.

(** *** Rotation *)

Lemma rotate_conns_cons a l : rotate_conns (a :: l) = l ++ [a].
Proof. by destruct l. Qed.

Lemma RMGLoop_spec H a b :
  RMGLoop H (length a) (a ++ b) =
  (b ++ a, List.filter (fun x => HasWork (H x)) a).
Proof.
  revert b. induction a as [|x a IH]; intros b; simpl; [by rewrite app_nil_r; destruct b|].
  rewrite <- app_assoc, IH. unfold HasWork. rewrite <- app_assoc. simpl.
  destruct (HasFreeSlot (H x)), (HasTaskToRun (H x)); done.
Qed.

Lemma RMG_sched_ok pIf s : sched_ok s -> sched_ok (GetNextTaskGrpsRMG pIf s).1.
Proof.
  intros Hs. unfold GetNextTaskGrpsRMG. destruct (pIf =? m_pSchedMgr s); [done|].
  destruct (m_mapConnQues s !! pIf) as [q|] eqn:Eq; [|done].
  pose proof (RMGLoop_spec (m_heap s) (m_plstReady q) []) as E. rewrite app_nil_r in E.
  rewrite E. simpl. by apply sched_update_same.
Qed.

Lemma ReadyLoop_perm H n l : (ReadyLoop H n l).1 ≡ₚ l.
Proof.
  revert l. induction n as [|n IH]; intros l; simpl; [done|]. destruct l as [|x l]; [done|].
  assert (l ++ [x] ≡ₚ x :: l) as Hp by (by rewrite Permutation_app_comm).
  destruct (negb _); [by rewrite IH|]. destruct (negb _); [by rewrite IH|done].
Qed.

Lemma set_conns_ok l s : sched_ok s -> sched_ok (set_conns l s).
Proof. by intros [C D]. Qed.

Lemma AARLoop_ok n s : sched_ok s -> sched_ok (AARLoop n s).1.1.
Proof.
  revert s. induction n as [|n IH]; intros s Hs; simpl; [done|].
  destruct (m_lstConns s) as [|i l]; [done|].
  assert (sched_ok (set_conns (rotate_conns (i :: l)) s)) as Hs' by (by apply set_conns_ok).
  destruct (i =? m_pSchedMgr s); [by apply IH|].
  destruct (m_mapConnQues s !! i) as [q|] eqn:Eq; [|by apply IH].
  pose proof (ReadyLoop_perm (m_heap s) (length (m_plstReady q)) (m_plstReady q)) as Hp.
  destruct (ReadyLoop _ _ _) as [orq pGrp]. simpl in Hp.
  assert (sched_ok (set_ques (<[i:=set_queues (m_lstWaitSlot q) orq q]> (m_mapConnQues s))
    (set_conns (rotate_conns (i :: l)) s))) as Hs2.
  { by apply (sched_update_same (set_conns (rotate_conns (i :: l)) s)). }
  destruct pGrp; [exact Hs2|by apply IH].
Qed.

(** *** The exchange of slots *)

Lemma WaitLoop_spec H n owq owq' found :
  WaitLoop H n owq = (owq', found) ->
  match found with
  | Some p => p :: owq' ≡ₚ owq /\ HasPendingTasks (H p) <> 0
  | None => owq' ≡ₚ owq
  end.
Proof.
  revert owq. induction n as [|n IH]; intros owq; simpl.
  { by intros [= <- <-]. }
  destruct owq as [|p owq]; [by intros [= <- <-]|].
  destruct (Z.eqb_spec (HasPendingTasks (H p)) 0) as [E|E]; simpl; [|by intros [= <- <-]].
  intros Hw. apply IH in Hw. assert (owq ++ [p] ≡ₚ p :: owq) as Hp by (by rewrite Permutation_app_comm).
  destruct found; [split; [|apply Hw]; by rewrite <- Hp; apply Hw|by rewrite Hw].
Qed.

(** A ready group [a] gives its slot to a waiting group [b]. *)
Lemma exchange_ok H q a b r w :
  conn_ok H q -> a :: r ≡ₚ m_plstReady q -> b :: w ≡ₚ m_lstWaitSlot q ->
  let H' := set_limit 1 b (set_limit 0 a H) in
  let q' := set_queues (w ++ [a]) (r ++ [b]) q in
  conn_ok H' q' /\ touches (groups q) H H' /\ groups q' ≡ₚ groups q.
Proof.
  intros C Hr Hw H' q'. pose proof C as [C1 C2 C3 C4 C5 C6 C7]. unfold groups in C1, C3.
  assert (NoDup (a :: r ++ b :: w)) as Hn.
  { rewrite app_comm_cons, Hr, Hw. done. }
  apply NoDup_cons in Hn as [Ha Hn]. apply NoDup_app in Hn as (N1 & N2 & N3).
  apply NoDup_cons in N3 as [Hb N3]. apply not_elem_of_app in Ha as [Ha Ha'].
  apply not_elem_of_cons in Ha' as [Hab Ha'].
  assert (a ∈ m_plstReady q /\ b ∈ m_lstWaitSlot q) as [Hia Hib].
  { rewrite <- Hr, <- Hw. set_solver. }
  destruct (set_limit_spec 0 a H) as [S1 S2]; [apply C3; set_solver|lia|].
  destruct (set_limit_spec 1 b (set_limit 0 a H)) as [S3 S4]; [apply S2, C3; set_solver|lia|].
  unfold RFC_MAX_REQS in *.
  assert (Hla : limit H' a = 0).
  { unfold H'. rewrite (touches_limit [b] (set_limit 0 a H)) by (done || set_solver). lia. }
  assert (Hlb : limit H' b = 1) by (unfold H'; lia).
  assert (Hlo : forall x, x <> a -> x <> b -> limit H' x = limit H x).
  { intros x Hxa Hxb. unfold H'. rewrite (touches_limit [b] (set_limit 0 a H)) by (done || set_solver).
    by rewrite (touches_limit [a] H) by (done || set_solver). }
  assert (groups q' ≡ₚ groups q) as Hg.
  { unfold groups, q'. simpl. rewrite <- Hr, <- Hw. solve_Permutation. }
  assert (touches (groups q) H H') as Ht.
  { eapply touches_trans; [eapply touches_mono, S2|eapply touches_mono, S4]; unfold groups; set_solver. }
  split_and!; [|done|done]. split; simpl; [by rewrite Hg|done| | | | |done].
  - intros x Hx. apply Ht, C3. by rewrite Hg in Hx.
  - intros x Hx. apply elem_of_app in Hx as [Hx|Hx].
    + rewrite Hlo by set_solver. apply C4. rewrite <- Hw. set_solver.
    + apply list_elem_of_singleton in Hx as ->. done.
  - intros x Hx. apply elem_of_app in Hx as [Hx|Hx].
    + rewrite Hlo by set_solver. apply C5. rewrite <- Hr. set_solver.
    + apply list_elem_of_singleton in Hx as ->. lia.
  - rewrite total_app, length_app, Nat2Z.inj_add. simpl.
    rewrite Hlb, (total_ext H H' r) by (intros x Hx; apply Hlo; set_solver).
    rewrite <- (total_perm _ _ _ Hr), <- Hr in C6. simpl in C6. rewrite Nat2Z.inj_succ in C6.
    rewrite Z.add_0_r. apply (within_drop (limit H a)); [by apply C5|done].
Qed.

Lemma OCCReady_ok n H q orq owq H' orq' owq' found :
  conn_ok H (set_queues owq orq q) -> OCCReady n H orq owq = (H', orq', owq', found) ->
  conn_ok H' (set_queues owq' orq' q) /\ touches (orq ++ owq) H H' /\
  orq' ++ owq' ≡ₚ orq ++ owq.
Proof.
  revert H orq owq. induction n as [|n IH]; intros H orq owq C; simpl.
  { intros [= <- <- <- <-]. split_and!; [done|apply touches_refl|done]. }
  destruct orq as [|a r].
  { intros [= <- <- <- <-]. split_and!; [done|apply touches_refl|done]. }
  assert (r ++ [a] ≡ₚ a :: r) as Hp by (by rewrite Permutation_app_comm).
  assert (Hturn : forall w, w ≡ₚ owq -> conn_ok H (set_queues w (r ++ [a]) q)).
  { intros w Hw. by apply (conn_ok_queues H (set_queues owq (a :: r) q)). }
  assert (Hperm : forall w, w ≡ₚ owq -> (r ++ [a]) ++ w ≡ₚ a :: r ++ owq).
  { intros w ->. by rewrite Hp. }
  assert (Hnext : forall w, w ≡ₚ owq -> OCCReady n H (r ++ [a]) w = (H', orq', owq', found) ->
    conn_ok H' (set_queues owq' orq' q) /\ touches (a :: r ++ owq) H H' /\
    orq' ++ owq' ≡ₚ a :: r ++ owq).
  { intros w Hw HO. apply IH in HO as (I1 & I2 & I3); [|by apply Hturn].
    split_and!; [done| |by rewrite I3; apply Hperm].
    eapply touches_mono, I2. intros x. by rewrite Hperm. }
  assert (Hdone : forall w, w ≡ₚ owq -> (H, r ++ [a], w, Some a) = (H', orq', owq', found) ->
    conn_ok H' (set_queues owq' orq' q) /\ touches (a :: r ++ owq) H H' /\
    orq' ++ owq' ≡ₚ a :: r ++ owq).
  { intros w Hw [= <- <- <- <-]. split_and!; [by apply Hturn|apply touches_refl|by apply Hperm]. }
  destruct owq as [|b w]; [|destruct (negb (HasFreeSlot (H a))); [by apply Hnext|]].
  { destruct (negb (HasFreeSlot (H a))); [by apply Hnext|].
    destruct (negb (HasTaskToRun (H a))); [by apply Hnext|by apply Hdone]. }
  destruct (WaitLoop H _ (b :: w)) as [w' fnd] eqn:EW. apply WaitLoop_spec in EW.
  destruct fnd as [p|].
  - destruct EW as [EW _]. intros [= <- <- <- <-].
    destruct (exchange_ok H (set_queues (b :: w) (a :: r) q) a p r w') as (X1 & X2 & X3); [done..|].
    split_and!; [done|exact X2|exact X3].
  - destruct (negb (HasTaskToRun (H a))); [by apply Hnext|by apply Hdone].
Qed.

Lemma OCCLoop_ok n s : sched_ok s -> sched_ok (OCCLoop n s).1.1.
Proof.
  revert s. induction n as [|n IH]; intros s Hs; simpl; [done|].
  destruct (m_lstConns s) as [|i l]; [done|].
  set (s1 := set_conns (rotate_conns (i :: l)) s).
  assert (sched_ok s1) as Hs1 by (by apply set_conns_ok).
  destruct (i =? m_pSchedMgr s); [by apply IH|].
  destruct (m_mapConnQues s !! i) as [q|] eqn:Eq; [|by apply IH].
  destruct (OCCReady _ _ _ _) as [[[H' orq] owq] pGrp] eqn:EO.
  apply (OCCReady_ok _ _ q) in EO as (O1 & O2 & O3).
  2: { destruct q. apply (so_conn _ Hs1 i _ Eq). }
  assert (sched_ok (set_conn i (H', set_queues owq orq q) s1)) as Hs2.
  { eapply (sched_update_own s1 i q); [done|exact Eq|done|exact O2|done|].
    intros a Ha. unfold groups in Ha. simpl in Ha. by rewrite O3 in Ha. }
  destruct pGrp; [exact Hs2|by apply IH].
Qed.

(** *** The steps *)

Lemma foreign_sub s i q q' :
  sched_ok s -> m_mapConnQues s !! i = Some q -> (forall a, a ∈ groups q' -> a ∈ groups q) ->
  forall a, a ∈ groups q' -> foreign s i a.
Proof. intros Hs Hq Hsub a Ha. eapply foreign_own; eauto. Qed.

(** The entry that [m_mapConnQues[ pIf ]] makes when there is none. *)
Lemma default_ok s i :
  sched_ok s ->
  sched_ok (set_ques (<[i := default NewConnQue (m_mapConnQues s !! i)]> (m_mapConnQues s)) s).
Proof.
  intros Hs. rewrite <- set_conn_ques. destruct (m_mapConnQues s !! i) as [q|] eqn:Eq; simpl.
  - eapply sched_update_own; [done|done|by eapply so_conn|apply (touches_refl [])|set_solver|done].
  - eapply (sched_update s i _ _ []); [done| |apply touches_refl|set_solver|set_solver].
    apply (NewConnQue_ok _ 48). lia.
Qed.

(** What [RemoveTaskGrp] does with a slot that is free again. *)
Lemma rebalance_ok H q :
  conn_ok H q ->
  within pol (Z.of_nat (length (m_plstReady q)) + 1) (total H (m_plstReady q) + 1) (m_dwMaxSlots q) ->
  Z.of_nat (length (groups q)) <> 0 ->
  let N := Z.of_nat (length (groups q)) in
  let dwAvg := m_dwMaxSlots q / N in
  let '(H', q') :=
    if dwAvg =? 0 then IncWaitingGrp 1 H q
    else let '(H, q1) := SetLimitRunningGrps dwAvg H q in
         (IncRunningGrps (m_dwMaxSlots q - dwAvg * N) H q1, q1) in
  conn_ok H' q' /\ touches (groups q) H H' /\ groups q' ≡ₚ groups q.
Proof.
  intros C Ht HN N dwAvg. pose proof C as [C1 C2 C3 C4 C5 C6 C7].
  destruct (Z.eqb_spec dwAvg 0) as [_|Hav].
  { pose proof (IncWaitingGrp_ok 1 H q C) as HI. destruct (IncWaitingGrp 1 H q) as [H' q'].
    destruct HI as (I1 & I2 & I3 & _); [done|exact Ht|]. split_and!; [done| |done].
    eapply touches_mono, I2. intros a Ha. unfold groups. set_solver. }
  destruct (even_split (m_dwMaxSlots q) N) as (E1 & E2 & E3); [done|lia|done|]. fold dwAvg in E1, E2, E3.
  unfold groups in C1. apply NoDup_app in C1 as (N1 & N2 & N3).
  destruct (running_redistributed dwAvg (m_dwMaxSlots q - dwAvg * N) H q)
    as (H' & -> & R1 & R2 & R3 & _); [done|lia|done| |].
  { intros a Ha. apply C3. unfold groups. set_solver. }
  split_and!; [|eapply touches_mono, R1; unfold groups; set_solver|done].
  split; [by apply NoDup_app|done| | |done| |done].
  - intros a Ha. by apply R1, C3.
  - intros a Ha. rewrite (touches_limit (m_plstReady q) H); [by apply C4|done|].
    intros Hin. by apply (N2 a).
  - assert (Z.of_nat (length (m_plstReady q)) <= N) as Hle by (unfold N, groups; rewrite length_app; lia).
    apply within_total; [done|]. nia.
Qed.

Lemma RemoveTaskGrp_ok g s s' ret l :
  sched_ok s -> sched_few s -> RemoveTaskGrp PrxyPortId g s = (s', ret, l) -> sched_ok s'.
Proof.
  intros Hs Hf. unfold RemoveTaskGrp. destruct (PrxyPortId g) as [port|]; [|by intros [= <- _ _]].
  destruct (m_mapId2If s !! port) as [i|]; [|by intros [= <- _ _]].
  pose proof (default_ok s i Hs) as Hs1. set (q := default NewConnQue (m_mapConnQues s !! i)) in *.
  set (s1 := set_ques _ s) in *.
  assert (m_mapConnQues s1 !! i = Some q) as Hq by apply lookup_insert_eq.
  pose proof (so_conn _ Hs1 i q Hq) as C. change (m_heap s1) with (m_heap s) in C.
  assert (Hfq : few q).
  { unfold q. destruct (m_mapConnQues s !! i) as [q0|] eqn:E; simpl; [by eapply Hf|].
    unfold few. simpl. lia. }
  assert (Hkeep : forall w r, conn_ok (m_heap s) (set_queues w r q) ->
    g :: groups (set_queues w r q) ≡ₚ groups q -> sched_ok (set_conn i (m_heap s, set_queues w r q) s1)).
  { intros w r Hc Hp. eapply (sched_update_own s1 i q); [done|done|done|apply (touches_refl [])|set_solver|].
    intros a Ha. rewrite <- Hp. set_solver. }
  case_bool_decide as Hw.
  { intros [= <- _ _]. destruct (erase_ok g (erase_first g (m_lstWaitSlot q)) (m_plstReady q) (m_heap s) q C)
      as (E1 & E2 & _); [left; split; [by apply erase_first_perm|done]|]. by apply Hkeep. }
  case_bool_decide as Hr; cbn [negb]; [|by intros [= <- _ _]].
  pose proof (erase_first_perm g (m_plstReady q) Hr) as Hp.
  destruct (erase_ok g (m_lstWaitSlot q) (erase_first g (m_plstReady q)) (m_heap s) q C)
    as (C2 & Hg2 & Ht2); [by right|]. specialize (Ht2 Hp).
  set (q2 := set_queues (m_lstWaitSlot q) (erase_first g (m_plstReady q)) q) in *.
  set (s2 := set_conn i (m_heap s, q2) s1).
  assert (sched_ok s2) as Hs2 by (by apply Hkeep).
  assert (m_mapConnQues s2 !! i = Some q2) as Hq2 by apply lookup_insert_eq.
  assert (few q2) as Hfq2.
  { unfold few in *. apply Permutation_length in Hg2. simpl in Hg2. lia. }
  rewrite (GetTaskGrpCount_ok _ _ C2 Hfq2). set (N := Z.of_nat (length (groups q2))).
  destruct (Z.eqb_spec N 0) as [|HN]; [by intros [= <- _ _]|].
  destruct (_ && _)%bool; [by intros [= <- _ _]|].
  set (Hq' := if m_dwMaxSlots q2 / N =? 0 then _ else _).
  intros HR. enough (sched_ok (set_conn i Hq' s2)) as Hs3.
  { pose proof (RMG_sched_ok i _ Hs3) as H3. destruct (GetNextTaskGrpsRMG i _) as [s3 que].
    by simplify_eq/=. }
  pose proof (rebalance_ok (m_heap s) q2 C2 Ht2 HN) as HB. fold N in HB. cbn zeta in HB.
  clear HR. change Hq' with (if m_dwMaxSlots q2 / N =? 0 then IncWaitingGrp 1 (m_heap s) q2
    else let '(H, q1) := SetLimitRunningGrps (m_dwMaxSlots q2 / N) (m_heap s) q2 in
         (IncRunningGrps (m_dwMaxSlots q2 - m_dwMaxSlots q2 / N * N) H q1, q1)).
  destruct (if m_dwMaxSlots q2 / N =? 0 then _ else _) as [H' q'].
  destruct HB as (B1 & B2 & B3).
  eapply (sched_update_own s2 i q2); [done|done|done|exact B2|done|]. intros a. by rewrite B3.
Qed.

Lemma RemoveConn_ok pIf s : sched_ok s -> sched_ok (RemoveConn PortId pIf s).1.
Proof.
  intros Hs. unfold RemoveConn. destruct (pIf =? 0); [done|]. destruct (negb _); [done|].
  cbn [set_conns m_mapConnQues]. destruct (m_mapConnQues s !! pIf) eqn:Eq; [|by apply set_conns_ok].
  simpl. destruct Hs as [C D]. split; simpl.
  - intros i q Hq. apply lookup_delete_Some in Hq as [_ Hq]. by eapply C.
  - intros i j qi qj a Hi Hj. apply lookup_delete_Some in Hi as [_ Hi], Hj as [_ Hj]. by eapply D.
Qed.

Lemma set_conn_few i H' q q' s :
  sched_few s -> m_mapConnQues s !! i = Some q -> (length (groups q') <= length (groups q))%nat ->
  sched_few (set_conn i (H', q') s).
Proof.
  intros Hf Hq Hl j qj. simpl. destruct (Z.eq_dec j i) as [->|Hj].
  - rewrite lookup_insert_eq. intros [= <-]. specialize (Hf i q Hq). unfold few in *. lia.
  - rewrite lookup_insert_ne by done. apply Hf.
Qed.

Lemma default_few s i :
  sched_few s ->
  sched_few (set_ques (<[i := default NewConnQue (m_mapConnQues s !! i)]> (m_mapConnQues s)) s).
Proof.
  intros Hf j q. simpl. destruct (Z.eq_dec j i) as [->|Hj].
  - rewrite lookup_insert_eq. intros [= <-]. destruct (m_mapConnQues s !! i) eqn:E; simpl; [by eapply Hf|].
    unfold few. simpl. lia.
  - rewrite lookup_insert_ne by done. apply Hf.
Qed.

Lemma RMG_few pIf s : sched_few s -> sched_few (GetNextTaskGrpsRMG pIf s).1.
Proof.
  intros Hs. unfold GetNextTaskGrpsRMG. destruct (pIf =? m_pSchedMgr s); [done|].
  destruct (m_mapConnQues s !! pIf) as [q|] eqn:Eq; [|done].
  pose proof (RMGLoop_spec (m_heap s) (m_plstReady q) []) as E. rewrite app_nil_r in E.
  rewrite E. simpl. rewrite <- set_conn_ques. by eapply set_conn_few.
Qed.

(** The groups are taken out one by one. *)
Lemma EraseGrps_ok vec s l :
  sched_ok s -> sched_few s ->
  sched_ok (EraseGrps PrxyPortId vec s l).1 /\ sched_few (EraseGrps PrxyPortId vec s l).1.
Proof.
  revert s l. induction vec as [|g vec IH]; intros s l Hs Hf; simpl; [done|].
  destruct (PrxyPortId g) as [port|]; [|by apply IH].
  destruct (m_mapId2If s !! port) as [i|]; [|by apply IH].
  pose proof (default_ok s i Hs) as Hs1. pose proof (default_few s i Hf) as Hf1.
  set (q := default NewConnQue (m_mapConnQues s !! i)) in *. set (s1 := set_ques _ s) in *.
  assert (m_mapConnQues s1 !! i = Some q) as Hq by apply lookup_insert_eq.
  pose proof (so_conn _ Hs1 i q Hq) as C. change (m_heap s1) with (m_heap s) in C.
  assert (Hkeep : forall w r, conn_ok (m_heap s) (set_queues w r q) ->
    g :: groups (set_queues w r q) ≡ₚ groups q ->
    sched_ok (set_conn i (m_heap s, set_queues w r q) s1) /\
    sched_few (set_conn i (m_heap s, set_queues w r q) s1)).
  { intros w r Hc Hp. split.
    - eapply (sched_update_own s1 i q); [done|done|done|apply (touches_refl [])|set_solver|].
      intros a Ha. rewrite <- Hp. set_solver.
    - eapply set_conn_few; [done|done|]. apply Permutation_length in Hp. simpl in Hp. lia. }
  case_bool_decide as Hw; [|case_bool_decide as Hr; [|by apply IH]].
  - destruct (erase_ok g (erase_first g (m_lstWaitSlot q)) (m_plstReady q) (m_heap s) q C)
      as (E1 & E2 & _); [left; split; [by apply erase_first_perm|done]|]. by apply IH; apply Hkeep.
  - destruct (erase_ok g (m_lstWaitSlot q) (erase_first g (m_plstReady q)) (m_heap s) q C)
      as (E1 & E2 & _); [right; split; [by apply erase_first_perm|done]|]. by apply IH; apply Hkeep.
Qed.

Lemma ReleaseIfs_ok ifs s :
  pol <> Strict -> sched_ok s -> sched_few s -> sched_ok (ReleaseIfs ifs s).1.
Proof.
  intros Hpol. revert s. induction ifs as [|i ifs IH]; intros s Hs Hf; simpl; [done|].
  destruct (m_mapConnQues s !! i) as [q|] eqn:Eq; [|by apply IH].
  destruct (_ =? 0); [by apply IH|].
  pose proof (ResetSlotCountRelease_ok (m_heap s) q Hpol (so_conn _ Hs _ _ Eq) (Hf _ _ Eq)) as HR.
  destruct (ResetSlotCountRelease 0 (m_heap s) q) as [H' q']. destruct HR as (R1 & R2 & R3).
  set (s1 := set_conn i (H', q') s).
  assert (sched_ok s1) as Hs1.
  { eapply (sched_update_own s i q); [done|done|done|exact R2|done|]. intros a. by rewrite R3. }
  assert (sched_few s1) as Hf1 by (eapply set_conn_few; [done|done|by rewrite R3]).
  pose proof (RMG_sched_ok i s1 Hs1) as Hs2. pose proof (RMG_few i s1 Hf1) as Hf2.
  destruct (GetNextTaskGrpsRMG i s1) as [s2 que]. simpl in Hs2, Hf2.
  specialize (IH s2 Hs2 Hf2). by destruct (ReleaseIfs ifs s2).
Qed.

Lemma RemoveTaskGrps_ok vec s s' ret l :
  pol <> Strict -> sched_ok s -> sched_few s ->
  RemoveTaskGrps PrxyPortId vec s = (s', ret, l) -> sched_ok s'.
Proof.
  intros Hpol Hs Hf. unfold RemoveTaskGrps. pose proof (EraseGrps_ok vec s [] Hs Hf) as [H1 H2].
  destruct (EraseGrps _ vec s []) as [s1 ifs]. pose proof (ReleaseIfs_ok ifs s1 Hpol H1 H2) as H3.
  destruct (ReleaseIfs ifs s1) as [s2 v]. by intros [= <- _ _].
Qed.

Lemma SetSlotCount_ok pIf n s s' ret v :
  pol = Free -> sched_ok s -> sched_few s -> 0 <= n < 2 ^ 32 ->
  SetSlotCount IsInvoke pIf n s = (s', ret, v) -> sched_ok s'.
Proof.
  intros HF Hs Hf Hn. unfold SetSlotCount. destruct (pIf =? 0); [by intros [= <- _ _]|].
  destruct (m_mapConnQues s !! pIf) as [q|] eqn:Eq; [|by intros [= <- _ _]].
  pose proof (so_conn _ Hs _ _ Eq) as C. pose proof (Hf _ _ Eq) as Hfq.
  destruct (_ =? n); [by intros [= <- _ _]|].
  assert (Hput : forall H' q', conn_ok H' q' -> touches (groups q) (m_heap s) H' ->
    groups q' ≡ₚ groups q -> sched_ok (set_conn pIf (H', set_slots n q') s)).
  { intros H' q' K1 K2 K3. eapply (sched_update_own s pIf q);
      [done|done|by apply set_slots_ok|exact K2|done|].
    intros a Ha. rewrite <- K3. exact Ha. }
  destruct (Z.ltb_spec n (m_dwMaxSlots q)).
  - pose proof (IncSlotCount_ok (m_dwMaxSlots q - n) (m_heap s) q HF) as HI.
    destruct (IncSlotCount _ _ q) as [H' q']. destruct HI as (I1 & I2 & I3); [lia|done|done|].
    intros [= <- _ _]. by apply Hput.
  - pose proof (DecSlotCount_ok IsInvoke (n - m_dwMaxSlots q) (m_heap s) q [] HF C Hfq) as HI.
    destruct (DecSlotCount _ _ _ q []) as [[H' q'] vec]. destruct HI as (I1 & I2 & I3).
    intros [= <- _ _]. by apply Hput.
Qed.

(** A new connection has no groups, so that its slots change nothing else. *)
Lemma AddConn_ok pIf s :
  sched_ok s -> m_mapConnQues s !! pIf = None ->
  let '(s', ret) := AddConn IsInvoke PortId ProxyLimit pIf s in
  sched_ok s' /\ m_heap s' = m_heap s /\
  (ERROR ret = false -> exists n, m_mapConnQues s' = <[pIf := set_slots n NewConnQue]> (m_mapConnQues s)).
Proof.
  intros Hs Hq. unfold AddConn. destruct (PortId pIf) as [port|]; [|done].
  destruct (ProxyLimit pIf) as [[r p]|]; [|done].
  case_bool_decide; [done|].
  change (m_mapConnQues (set_conns (m_lstConns s ++ [pIf]) s)) with (m_mapConnQues s). rewrite Hq.
  cbn [default].
  set (s1 := set_ids _ _). set (n := u32 (r + p)).
  assert (m_mapConnQues s1 !! pIf = Some NewConnQue) as Hq1 by apply lookup_insert_eq.
  assert (Hn : 0 <= n < 2 ^ 32) by apply u32_range.
  assert (Hok : forall k, 0 <= k < 2 ^ 32 ->
    sched_ok (set_conn pIf (m_heap s, set_slots k NewConnQue) s1) /\
    m_heap (set_conn pIf (m_heap s, set_slots k NewConnQue) s1) = m_heap s /\
    m_mapConnQues (set_conn pIf (m_heap s, set_slots k NewConnQue) s1) =
      <[pIf := set_slots k NewConnQue]> (m_mapConnQues s)).
  { intros k Hk. split_and!; [|done|simpl; apply insert_insert_eq].
    assert (sched_ok (set_conn pIf (m_heap s, set_slots k NewConnQue) s)) as [C D].
    { eapply (sched_update s pIf _ _ []); [done|by apply NewConnQue_ok|apply touches_refl|set_solver|].
      unfold groups. simpl. set_solver. }
    split; simpl in *; rewrite insert_insert_eq; [exact C|exact D]. }
  assert (s1 = set_conn pIf (m_heap s, set_slots 48 NewConnQue) s1) as Hs48.
  { unfold s1, set_conn, set_heap, set_ques, set_ids. simpl. by rewrite insert_insert_eq. }
  unfold SetSlotCount. destruct (pIf =? 0).
  { rewrite Hs48. destruct (Hok 48) as (K1 & K2 & K3); [lia|]. split_and!; [done|done|by eexists]. }
  rewrite Hq1. destruct (_ =? n).
  { rewrite Hs48. destruct (Hok 48) as (K1 & K2 & K3); [lia|]. split_and!; [done|done|by eexists]. }
  destruct (Hok n Hn) as (K1 & K2 & K3).
  destruct (n <? m_dwMaxSlots NewConnQue).
  - unfold IncSlotCount. change (GetTaskGrpCount NewConnQue) with 0. rewrite orb_true_r.
    split_and!; [done|done|by eexists].
  - unfold DecSlotCount, ResetSlotCountAlloc. change (GetTaskGrpCount NewConnQue) with 0.
    destruct (_ =? 0); split_and!; try done; by eexists.
Qed.

Lemma AddTaskGrpLoop_ok fuel pIf g s s' ret v :
  sched_ok s -> sched_few s -> new_group s g ->
  AddTaskGrpLoop IsInvoke PortId ProxyLimit fuel pIf g s = Some (s', ret, v) -> sched_ok s'.
Proof.
  revert s. induction fuel as [|fuel IH]; intros s Hs Hf Hnew; simpl; [done|].
  destruct (pIf =? m_pSchedMgr s); [by intros [= <- _ _]|].
  destruct (m_mapConnQues s !! pIf) as [q|] eqn:Eq.
  - destruct Hnew as (Hh & Hl & Hq).
    pose proof (AddToConn_ok IsInvoke g (m_heap s) q (so_conn _ Hs _ _ Eq) (Hf _ _ Eq) Hh Hl) as HA.
    destruct (AddToConn _ g (m_heap s) q) as [[H' q'] vec]. intros [= <- _ _].
    destruct HA as (A1 & A2 & A3 & _); [intros Hin; apply Hq; by exists pIf, q|].
    assert (forall a, a ∈ g :: groups q -> foreign s pIf a) as Hfor.
    { intros a Ha. apply elem_of_cons in Ha as [->|Ha]; [|by eapply foreign_own].
      intros j qj _ Hj Hin. apply Hq. by exists j, qj. }
    eapply sched_update; [done|done|exact A2|exact Hfor|]. intros a Ha. apply Hfor. by rewrite <- A3.
  - pose proof (AddConn_ok pIf s Hs Eq) as HA.
    destruct (AddConn IsInvoke PortId ProxyLimit pIf s) as [s1 r1]. destruct HA as (A1 & A2 & A3).
    destruct (ERROR r1) eqn:Er; [by intros [= <- _ _]|]. destruct (A3 eq_refl) as [n A4].
    apply IH; [done| |].
    + intros i q. rewrite A4. destruct (Z.eq_dec i pIf) as [->|Hne].
      * rewrite lookup_insert_eq. intros [= <-]. unfold few. simpl. lia.
      * rewrite lookup_insert_ne by done. apply Hf.
    + destruct Hnew as (Hh & Hl & Hq). split_and!; [by rewrite A2|by rewrite A2|].
      intros (i & q & Hi & Hin). rewrite A4 in Hi. destruct (Z.eq_dec i pIf) as [->|Hne].
      * rewrite lookup_insert_eq in Hi. injection Hi as <-. set_solver.
      * rewrite lookup_insert_ne in Hi by done. apply Hq. by exists i, q.
Qed.

(** [AddTaskGrp] answers: its loop goes round twice at most. *)
Lemma AddTaskGrp_total pIf g s :
  sched_ok s -> exists r, AddTaskGrp IsInvoke PortId ProxyLimit pIf g s = Some r.
Proof.
  intros Hs. unfold AddTaskGrp. cbn [AddTaskGrpLoop].
  destruct (pIf =? m_pSchedMgr s); [by eexists|].
  destruct (m_mapConnQues s !! pIf) as [q|] eqn:Eq.
  { destruct (AddToConn _ _ _ _) as [[? ?] ?]. by eexists. }
  pose proof (AddConn_ok pIf s Hs Eq) as HA.
  destruct (AddConn IsInvoke PortId ProxyLimit pIf s) as [s1 r1]. destruct HA as (_ & _ & A3).
  destruct (ERROR r1); [by eexists|]. destruct (A3 eq_refl) as [n ->].
  destruct (pIf =? m_pSchedMgr s1); [by eexists|]. rewrite lookup_insert_eq.
  destruct (AddToConn _ _ _ _) as [[? ?] ?]. by eexists.
Qed.

Lemma sched_step_ok s s' : sched_step s s' -> sched_ok s -> sched_ok s'.
Proof.
  intros Hstep Hs. destruct Hstep as [s H' He|g s|pIf g s s' ret v Hf Hn HA|pIf s Hq
    |g s s' ret l Hf HR|vec s s' ret l Hpol Hf HR|pIf n s s' ret v HF Hf Hn HR|port s|pIf s
    |dwHint s s' ret g m HN].
  - destruct Hs as [C D]. split; simpl; [|done]. intros i q Hq.
    pose proof (C i q Hq) as [C1 C2 C3 C4 C5 C6 C7].
    assert (forall a, a ∈ groups q -> healthy H' a /\ limit H' a = limit (m_heap s) a) as Hl.
    { intros a Ha. apply He. by exists i, q. }
    unfold groups in *. split; [done|done| | | | |done].
    + intros a Ha. by apply Hl.
    + intros a Ha. destruct (Hl a) as [_ ->]; [set_solver|by apply C4].
    + intros a Ha. destruct (Hl a) as [_ ->]; [set_solver|by apply C5].
    + rewrite (total_ext (m_heap s)); [done|]. intros a Ha. apply Hl. set_solver.
  - unfold Start. destruct (_ =? 0); simpl; by destruct Hs.
  - by eapply AddTaskGrpLoop_ok.
  - pose proof (AddConn_ok pIf s Hs Hq) as HA. destruct (AddConn _ _ _ _ _). apply HA.
  - by eapply RemoveTaskGrp_ok.
  - by eapply RemoveTaskGrps_ok.
  - by eapply SetSlotCount_ok.
  - unfold RemoveTaskGrpsPort. destruct (_ !! port); [by apply RemoveConn_ok|done].
  - by apply RemoveConn_ok.
  - unfold GetNextTaskGrp in HN. destruct (dwHint =? 0).
    { pose proof (AARLoop_ok (length (m_lstConns s)) s Hs) as HA. unfold GetNextTaskGrpAAR in HN.
      destruct (AARLoop _ s) as [[? ?] ?]. by simplify_eq/=. }
    destruct (dwHint =? 1); [|by simplify_eq].
    unfold GetNextTaskGrpOCC in HN. destruct (if _ && _ then _ else _) as [x| |]; try done.
    cbn [obind] in HN.
    pose proof (OCCLoop_ok (length (m_lstConns s)) (set_num (u32 (m_dwNumSched s + 1)) s)) as HO.
    destruct (OCCLoop _ _) as [[? ?] ?]. simplify_eq/=. apply HO. by destruct Hs.
Qed.

Lemma sched_steps_ok s s' : rtc sched_step s s' -> sched_ok s -> sched_ok s'.
Proof. induction 1 as [|s1 s2 s3 H1 _ IH]; [done|]. intros Hs. by eapply IH, sched_step_ok. Qed.

Lemma NewScheduler_ok H m : sched_ok (NewScheduler H m).
Proof. split; simpl; [intros i q Hq; by rewrite lookup_empty in Hq|intros i j qi qj a Hq; by rewrite lookup_empty in Hq]. Qed.

End SchedSteps.

(** ** Lemmas: choosing a group for [AddAndRun] *)

(** A connection that has no group to run. *)
Definition idle (s : CRRTaskScheduler) (i : Z) : Prop :=
  i = m_pSchedMgr s \/
  match m_mapConnQues s !! i with
  | Some q => forall a, a ∈ m_plstReady q -> HasWork (m_heap s a) = false
  | None => True
  end.

Lemma ReadyLoop_idle H a b :
  (forall x, x ∈ a -> HasWork (H x) = false) -> ReadyLoop H (length a) (a ++ b) = (b ++ a, None).
Proof.
  revert b. induction a as [|x a IH]; intros b Hx; simpl; [by rewrite app_nil_r; destruct b|].
  assert (HasWork (H x) = false) as Hw by (apply Hx; set_solver). unfold HasWork in Hw.
  rewrite <- app_assoc, IH by (intros y Hy; apply Hx; set_solver). rewrite <- app_assoc. simpl.
  destruct (HasFreeSlot (H x)); simpl in *; [by rewrite Hw|done].
Qed.

Lemma ReadyLoop_found H a g b c n :
  (forall x, x ∈ a -> HasWork (H x) = false) -> HasWork (H g) = true -> (length a < n)%nat ->
  ReadyLoop H n (a ++ g :: b ++ c) = (b ++ c ++ a ++ [g], Some g).
Proof.
  revert c n. induction a as [|x a IH]; intros c n Hx Hg Hn; (destruct n as [|n]; [simpl in Hn; lia|]); simpl.
  - unfold HasWork in Hg. apply andb_true_iff in Hg as [-> ->]. simpl. by rewrite <- app_assoc.
  - assert (HasWork (H x) = false) as Hw by (apply Hx; set_solver). unfold HasWork in Hw.
    assert (ReadyLoop H n ((a ++ g :: b ++ c) ++ [x]) = (b ++ c ++ (x :: a) ++ [g], Some g)) as HE.
    { rewrite <- app_assoc. simpl. rewrite <- app_assoc. rewrite (IH (c ++ [x])).
      - by rewrite <- app_assoc.
      - intros y Hy. apply Hx. set_solver.
      - done.
      - simpl in Hn. lia. }
    rewrite HE. destruct (HasFreeSlot (H x)); simpl in *; [by rewrite Hw|done].
Qed.

Lemma queue_eta q : set_queues (m_lstWaitSlot q) (m_plstReady q) q = q.
Proof. by destruct q. Qed.

(** An idle connection goes to the back and nothing else changes. *)
Lemma AARLoop_idle n s i l :
  m_lstConns s = i :: l -> idle s i -> AARLoop (S n) s = AARLoop n (set_conns (l ++ [i]) s).
Proof.
  intros Hc Hi. cbn [AARLoop]. rewrite Hc, rotate_conns_cons.
  change (m_pSchedMgr (set_conns (l ++ [i]) s)) with (m_pSchedMgr s).
  destruct (Z.eqb_spec i (m_pSchedMgr s)) as [|Hne]; [done|].
  destruct Hi as [Hi|Hi]; [done|].
  change (m_mapConnQues (set_conns (l ++ [i]) s)) with (m_mapConnQues s).
  destruct (m_mapConnQues s !! i) as [q|] eqn:Eq; [|done].
  pose proof (ReadyLoop_idle (m_heap s) (m_plstReady q) [] Hi) as E. rewrite app_nil_r in E.
  change (m_heap (set_conns (l ++ [i]) s)) with (m_heap s).
  rewrite E. cbn [app]. rewrite queue_eta, insert_id by done. by destruct s.
Qed.

Lemma AARLoop_idles c1 c2 s n :
  m_lstConns s = c1 ++ c2 -> Forall (idle s) c1 ->
  AARLoop (length c1 + n) s = AARLoop n (set_conns (c2 ++ c1) s).
Proof.
  revert s c2. induction c1 as [|i c1 IH]; intros s c2 Hc Hi; cbn [length Nat.add].
  { rewrite app_nil_r. simpl in Hc. rewrite <- Hc. by destruct s. }
  apply Forall_cons in Hi as [Hi Hi']. rewrite (AARLoop_idle _ s i (c1 ++ c2)) by done.
  rewrite (IH _ (c2 ++ [i])); [by rewrite <- app_assoc|simpl; by rewrite app_assoc|exact Hi'].
Qed.

(** Where [GetNextTaskGrpAAR] finds its group: connections [c1] are idle, and
    so are the ready groups [r1] of the next one. *)
Definition picks (s : CRRTaskScheduler) (c1 : list Z) (i : Z) (c2 : list Z) (q : CONNQUE_ELEM)
    (r1 : list Z) (g : Z) (r2 : list Z) : Prop :=
  m_lstConns s = c1 ++ i :: c2 /\ Forall (idle s) c1 /\ i <> m_pSchedMgr s /\
  m_mapConnQues s !! i = Some q /\ m_plstReady q = r1 ++ g :: r2 /\
  (forall a, a ∈ r1 -> HasWork (m_heap s a) = false) /\ HasWork (m_heap s g) = true.

Definition after_pick (s : CRRTaskScheduler) (c1 : list Z) (i : Z) (c2 : list Z)
    (q : CONNQUE_ELEM) (r1 : list Z) (g : Z) (r2 : list Z) : CRRTaskScheduler :=
  set_ques (<[i := set_queues (m_lstWaitSlot q) (r2 ++ r1 ++ [g]) q]> (m_mapConnQues s))
    (set_conns (c2 ++ c1 ++ [i]) s).

Lemma AAR_picks s c1 i c2 q r1 g r2 :
  picks s c1 i c2 q r1 g r2 ->
  GetNextTaskGrpAAR s = (after_pick s c1 i c2 q r1 g r2, 0, Some g).
Proof.
  intros (Hc & Hid & Hm & Hq & Hr & Hw1 & Hw). unfold GetNextTaskGrpAAR.
  assert (length (m_lstConns s) = length c1 + S (length c2))%nat as ->
    by (rewrite Hc, length_app; done).
  rewrite (AARLoop_idles c1 (i :: c2)) by done. cbn [AARLoop app set_conns m_lstConns].
  rewrite rotate_conns_cons. set (l' := (c2 ++ c1) ++ [i]).
  change (m_pSchedMgr (set_conns l' (set_conns (i :: c2 ++ c1) s))) with (m_pSchedMgr s).
  change (m_mapConnQues (set_conns l' (set_conns (i :: c2 ++ c1) s))) with (m_mapConnQues s).
  change (m_heap (set_conns l' (set_conns (i :: c2 ++ c1) s))) with (m_heap s).
  destruct (Z.eqb_spec i (m_pSchedMgr s)); [done|].
  rewrite Hq. pose proof (ReadyLoop_found (m_heap s) r1 g r2 [] (length (m_plstReady q)) Hw1 Hw) as E.
  rewrite app_nil_r, <- Hr in E. rewrite E by (rewrite Hr, length_app; simpl; lia).
  unfold after_pick, l'. simpl. by rewrite <- app_assoc.
Qed.

Lemma AAR_idle s : Forall (idle s) (m_lstConns s) -> GetNextTaskGrpAAR s = (s, - ENOENT, None).
Proof.
  intros Hi. unfold GetNextTaskGrpAAR.
  pose proof (AARLoop_idles (m_lstConns s) [] s 0) as E. rewrite app_nil_r, Nat.add_0_r in E.
  rewrite E by done. cbn [AARLoop]. by destruct s.
Qed.

(** The first element of a list with a decidable property. *)
Lemma first_split {A} (f : A -> bool) l :
  (forall x, x ∈ l -> f x = false) \/
  exists l1 x l2, l = l1 ++ x :: l2 /\ (forall y, y ∈ l1 -> f y = false) /\ f x = true.
Proof.
  induction l as [|x l IH]; [left; set_solver|]. destruct (f x) eqn:E.
  - right. exists [], x, l. split_and!; [done|set_solver|done].
  - destruct IH as [IH|(l1 & y & l2 & -> & H1 & H2)]; [left|right].
    + intros y Hy. apply elem_of_cons in Hy as [->|Hy]; [done|by apply IH].
    + exists (x :: l1), y, l2. split_and!; [done| |done].
      intros z Hz. apply elem_of_cons in Hz as [->|Hz]; [done|by apply H1].
Qed.

Definition busyb (s : CRRTaskScheduler) (i : Z) : bool :=
  negb (i =? m_pSchedMgr s) &&
  match m_mapConnQues s !! i with
  | Some q => existsb (fun a => HasWork (m_heap s a)) (m_plstReady q)
  | None => false
  end.

Lemma busyb_idle s i : busyb s i = false -> idle s i.
Proof.
  unfold busyb, idle. destruct (Z.eqb_spec i (m_pSchedMgr s)); [by left|]. simpl. right.
  destruct (m_mapConnQues s !! i) as [q|]; [|done]. intros a Ha.
  destruct (HasWork (m_heap s a)) eqn:E; [|done].
  assert (existsb (fun a => HasWork (m_heap s a)) (m_plstReady q) = true); [|congruence].
  apply existsb_exists. exists a. split; [by apply list_elem_of_In|done].
Qed.

Lemma AAR_cases s :
  Forall (idle s) (m_lstConns s) \/ exists c1 i c2 q r1 g r2, picks s c1 i c2 q r1 g r2.
Proof.
  destruct (first_split (busyb s) (m_lstConns s)) as [Hl|(c1 & i & c2 & Hc & H1 & H2)]; [left|right].
  - apply Forall_forall. intros i Hi. by apply busyb_idle, Hl.
  - unfold busyb in H2. destruct (Z.eqb_spec i (m_pSchedMgr s)) as [|Hm]; [done|]. simpl in H2.
    destruct (m_mapConnQues s !! i) as [q|] eqn:Eq; [|done].
    destruct (first_split (fun a => HasWork (m_heap s a)) (m_plstReady q)) as [Hn|(r1 & g & r2 & Hr & Hw1 & Hw)].
    + apply existsb_exists in H2 as (a & Ha & Hw). apply list_elem_of_In in Ha.
      rewrite Hn in Hw by done. done.
    + exists c1, i, c2, q, r1, g, r2. split_and!; try done.
      apply Forall_forall. intros j Hj. by apply busyb_idle, H1.
Qed.

(** *** Round robin *)

Lemma split_before {A} (a b c d : list A) x y :
  a ++ x :: b = c ++ y :: d -> (x ∉ c) -> x <> y ->
  exists e, a = c ++ y :: e /\ d = e ++ x :: b.
Proof.
  revert c. induction a as [|z a IH]; intros [|w c] E Hc Hxy; simpl in E.
  - by injection E as ->.
  - injection E as -> _. set_solver.
  - injection E as -> <-. by exists a.
  - injection E as -> E. destruct (IH c E) as (e & -> & ->); [set_solver|done|]. by exists e.
Qed.

(** The answers to a number of calls, with any change of the groups before
    each of them. *)
Fixpoint aar_calls (Hs : list heap) (s : CRRTaskScheduler) : list (option Z) :=
  match Hs with
  | [] => []
  | H :: Hs => let '(s', _, r) := GetNextTaskGrpAAR (set_heap H s) in r :: aar_calls Hs s'
  end.

Lemma aar_calls_fair Hs s i q g a b r1 r2 :
  m_lstConns s = a ++ i :: b -> i <> m_pSchedMgr s -> m_mapConnQues s !! i = Some q ->
  m_plstReady q = r1 ++ g :: r2 -> (forall H, H ∈ Hs -> HasWork (H g) = true) ->
  (length r1 * length (m_lstConns s) + length a < length Hs)%nat ->
  Some g ∈ aar_calls Hs s.
Proof.
  revert s q a b r1 r2. induction Hs as [|H Hs IH]; intros s q a b r1 r2 Hc Hm Hq Hr Hw Hlen;
    [simpl in Hlen; lia|]. cbn [aar_calls]. set (s1 := set_heap H s).
  assert (HasWork (m_heap s1 g) = true) as Hg by (apply Hw; set_solver).
  destruct (AAR_cases s1) as [Hid|(c1 & j & c2 & qj & x & g' & y & Hp)].
  { rewrite Forall_forall in Hid. destruct (Hid i) as [Hx|Hx]; [simpl; rewrite Hc; set_solver|done|].
    change (m_mapConnQues s1) with (m_mapConnQues s) in Hx. rewrite Hq in Hx.
    rewrite Hx in Hg by (rewrite Hr; set_solver). done. }
  rewrite (AAR_picks _ _ _ _ _ _ _ _ Hp). destruct (decide (g' = g)) as [->|Hgg]; [set_solver|].
  apply elem_of_cons. right. destruct Hp as (P1 & P2 & P3 & P4 & P5 & P6 & P7).
  assert (i ∉ c1) as Hic1.
  { intros Hi. rewrite Forall_forall in P2. destruct (P2 i Hi) as [Hx|Hx]; [done|].
    change (m_mapConnQues s1) with (m_mapConnQues s) in Hx. rewrite Hq in Hx.
    rewrite Hx in Hg by (rewrite Hr; set_solver). done. }
  change (m_lstConns s1) with (m_lstConns s) in P1. change (m_mapConnQues s1) with (m_mapConnQues s) in P4.
  assert (length (c2 ++ c1 ++ [j]) = length (m_lstConns s)) as Hlc.
  { rewrite P1, !length_app. simpl. lia. }
  assert (Hw' : forall H0, H0 ∈ Hs -> HasWork (H0 g) = true) by (intros; apply Hw; set_solver).
  destruct (decide (j = i)) as [->|Hji].
  - assert (qj = q) as -> by congruence. rewrite Hr in P5.
    destruct (split_before r1 r2 x y g g' P5) as (e & -> & ->); [|done|].
    { intros Hx. rewrite P6 in Hg by done. done. }
    apply (IH _ (set_queues (m_lstWaitSlot q) ((e ++ g :: r2) ++ x ++ [g']) q) (c2 ++ c1) [] e
      (r2 ++ x ++ [g'])); simpl; [by rewrite app_assoc|done|by rewrite lookup_insert_eq|
      by rewrite <- app_assoc|done|].
    rewrite Hlc. rewrite !length_app in *. simpl in *. rewrite P1, length_app in *. simpl in *. nia.
  - rewrite Hc in P1. destruct (split_before a b c1 c2 i j P1 Hic1) as (e & -> & ->); [done|].
    apply (IH _ q e (b ++ c1 ++ [j]) r1 r2); simpl; [by rewrite <- app_assoc|done| |done|done|].
    + by rewrite lookup_insert_ne.
    + rewrite Hlc. simpl in Hlen. rewrite length_app in Hlen. simpl in Hlen. lia.
Qed.

(** *** Slots that do not reach the waiting groups *)

Lemma conn_split H q :
  conn_ok H q -> NoDup (m_plstReady q) /\ (forall a, a ∈ m_plstReady q -> a ∉ m_lstWaitSlot q).
Proof. intros [C _ _ _ _ _ _]. unfold groups in C. apply NoDup_app in C as (N1 & N2 & _). eauto. Qed.

(** A connection without ready groups: a new group waits behind the others, and
    neither way to choose a group finds one here. *)
Definition stuck (s : CRRTaskScheduler) (i : Z) : Prop :=
  exists q, m_mapConnQues s !! i = Some q /\ m_plstReady q = [] /\ m_lstWaitSlot q <> [].

Lemma stuck_add IsInvoke PortId ProxyLimit s s' i g ret v :
  stuck s i -> AddTaskGrp IsInvoke PortId ProxyLimit i g s = Some (s', ret, v) -> stuck s' i.
Proof.
  intros (q & Hq & Hr & Hw). unfold AddTaskGrp. cbn [AddTaskGrpLoop].
  destruct (Z.eqb_spec i (m_pSchedMgr s)); [intros [= <- _ _]; by exists q|]. rewrite Hq. unfold AddToConn.
  destruct (m_lstWaitSlot q) as [|w l] eqn:Ew; [done|]. cbn [nonempty].
  intros [= <- _ _]. eexists. split; [apply lookup_insert_eq|done].
Qed.

Lemma AARLoop_keeps n s s' ret r i :
  stuck s i -> AARLoop n s = (s', ret, r) -> stuck s' i.
Proof.
  revert s. induction n as [|n IH]; intros s Hs; simpl; [by intros [= <- _ _]|].
  destruct (m_lstConns s) as [|j l]; [by intros [= <- _ _]|].
  destruct (j =? m_pSchedMgr s).
  { intros HA. by apply IH in HA. }
  destruct (m_mapConnQues s !! j) as [q|] eqn:Eq; [|intros HA; by apply IH in HA].
  destruct (ReadyLoop _ _ _) as [orq fnd] eqn:ER.
  enough (stuck (set_ques (<[j := set_queues (m_lstWaitSlot q) orq q]> (m_mapConnQues s))
                   (set_conns (rotate_conns (j :: l)) s)) i) as Hs'.
  { destruct fnd; [by intros [= <- _ _]|]. intros HA. by apply IH in HA. }
  destruct Hs as (qi & Hqi & Hri & Hwi). destruct (Z.eq_dec j i) as [->|Hne].
  - assert (qi = q) as -> by congruence. rewrite Hri in ER. simpl in ER. injection ER as <- <-.
    eexists. split; [apply lookup_insert_eq|done].
  - exists qi. simpl. by rewrite lookup_insert_ne.
Qed.

Lemma OCCLoop_keeps n s s' ret r i :
  stuck s i -> OCCLoop n s = (s', ret, r) -> stuck s' i.
Proof.
  revert s. induction n as [|n IH]; intros s Hs; simpl; [by intros [= <- _ _]|].
  destruct (m_lstConns s) as [|j l]; [by intros [= <- _ _]|].
  destruct (j =? m_pSchedMgr s).
  { intros HA. by apply IH in HA. }
  destruct (m_mapConnQues s !! j) as [q|] eqn:Eq; [|intros HA; by apply IH in HA].
  destruct (OCCReady _ _ _ _) as [[[H' orq] owq] fnd] eqn:ER.
  enough (stuck (set_conn j (H', set_queues owq orq q) (set_conns (rotate_conns (j :: l)) s)) i) as Hs'.
  { destruct fnd; [by intros [= <- _ _]|]. intros HA. by apply IH in HA. }
  destruct Hs as (qi & Hqi & Hri & Hwi). destruct (Z.eq_dec j i) as [->|Hne].
  - assert (qi = q) as -> by congruence. rewrite Hri in ER. simpl in ER.
    injection ER as <- <- <- <-. eexists. split; [apply lookup_insert_eq|done].
  - exists qi. simpl. by rewrite lookup_insert_ne.
Qed.

(** New groups for the connection [i], calls for the next group of any
    connection, and anything the groups do. *)
Inductive served IsInvoke PortId ProxyLimit (i : Z) : CRRTaskScheduler -> CRRTaskScheduler -> Prop :=
  | sv_env s H : served IsInvoke PortId ProxyLimit i s (set_heap H s)
  | sv_add g s s' ret v :
      AddTaskGrp IsInvoke PortId ProxyLimit i g s = Some (s', ret, v) ->
      served IsInvoke PortId ProxyLimit i s s'
  | sv_next dwHint s s' ret g m :
      GetNextTaskGrp dwHint s = Ret (s', ret, g, m) -> served IsInvoke PortId ProxyLimit i s s'.

Lemma served_stuck IsInvoke PortId ProxyLimit i s s' :
  rtc (served IsInvoke PortId ProxyLimit i) s s' -> stuck s i -> stuck s' i.
Proof.
  induction 1 as [|s1 s2 s3 Hstep _ IH]; [done|]. intros Hs. apply IH. clear IH.
  destruct Hstep as [s H|g s s' ret v HA|dwHint s s' ret g m HN]; [done|by eapply stuck_add|].
  unfold GetNextTaskGrp in HN. destruct (dwHint =? 0).
  { unfold GetNextTaskGrpAAR in HN. destruct (AARLoop _ s) as [[? ?] ?] eqn:E. simplify_eq.
    by eapply AARLoop_keeps. }
  destruct (dwHint =? 1); [|by simplify_eq].
  unfold GetNextTaskGrpOCC in HN. destruct (if _ && _ then _ else _); try done. cbn [obind] in HN.
  destruct (OCCLoop _ _) as [[? ?] ?] eqn:E. simplify_eq.
  eapply OCCLoop_keeps; [|exact E]. exact Hs.
Qed.

Lemma RemoveTaskGrp_last PrxyPortId s g port i q :
  conn_ok (m_heap s) q -> few q -> PrxyPortId g = Some port -> m_mapId2If s !! port = Some i ->
  m_mapConnQues s !! i = Some q -> m_plstReady q = [g] -> (g ∉ m_lstWaitSlot q) ->
  m_lstWaitSlot q <> [] -> Z.of_nat (length (m_lstWaitSlot q)) <= m_dwMaxSlots q ->
  exists s', RemoveTaskGrp PrxyPortId g s = (s', 0, []) /\
    m_mapConnQues s' !! i = Some (set_queues (m_lstWaitSlot q) [] q) /\ m_heap s' = m_heap s.
Proof.
  intros C Hf Hp Hid Hq Hr Hgw Hw Hlen. unfold RemoveTaskGrp. rewrite Hp, Hid, Hq.
  change (default NewConnQue (Some q)) with q. cbv zeta.
  rewrite (bool_decide_false (g ∈ m_lstWaitSlot q)) by done. rewrite Hr.
  rewrite (bool_decide_true (g ∈ [g])) by set_solver. cbn [negb].
  assert (erase_first g [g] = []) as -> by (simpl; by rewrite Z.eqb_refl).
  set (q2 := set_queues (m_lstWaitSlot q) [] q).
  destruct (erase_ok g (m_lstWaitSlot q) [] (m_heap s) q C) as (C2 & Hg2 & _).
  { right. split; [by rewrite Hr|done]. }
  fold q2 in C2, Hg2. assert (few q2) as Hf2.
  { unfold few in *. apply Permutation_length in Hg2. simpl in *. lia. }
  rewrite (GetTaskGrpCount_ok _ _ C2 Hf2). change (groups q2) with (m_lstWaitSlot q).
  set (N := Z.of_nat (length (m_lstWaitSlot q))) in *.
  assert (0 < N) by (unfold N; destruct (m_lstWaitSlot q); [done|simpl; lia]).
  change (m_dwMaxSlots q2) with (m_dwMaxSlots q).
  pose proof (Z.div_str_pos (m_dwMaxSlots q) N).
  destruct (Z.eqb_spec N 0); [lia|]. destruct (Z.eqb_spec (m_dwMaxSlots q / N) 0); [lia|]. cbn [andb].
  unfold SetLimitRunningGrps. change (m_plstReady q2) with (@nil Z). cbn [foldl nonempty].
  rewrite andb_false_r. cbn beta iota zeta.
  assert (forall m H, IncRunningGrps m H q2 = H) as -> by (intros m h; unfold IncRunningGrps; by destruct (m =? 0)).
  unfold GetNextTaskGrpsRMG. destruct (_ =? _).
  - eexists. split; [done|]. split; [apply lookup_insert_eq|done].
  - set (s2 := set_conn _ _ _). assert (m_mapConnQues s2 !! i = Some q2) as -> by apply lookup_insert_eq.
    change (m_plstReady q2) with (@nil Z). cbn [length RMGLoop].
    eexists. split; [done|]. split; [apply lookup_insert_eq|done].
Qed.

End Slots.
Arguments conn_ok pol H q : clear implicits.
Arguments sched_ok pol s : clear implicits.
Arguments sched_step : clear implicits.

(** ** Properties *)


(** C27: the group that [GetNextTaskGrp] chooses for [AddAndRun]: the first
    ready group with a free slot and a pending task, of the first connection that
    has one.  The connections up to this one go to the back, as do the ready
    groups up to the chosen one; without such a group nothing changes. *)
Theorem next_group_spec (s : CRRTaskScheduler) :
  (Forall (idle s) (m_lstConns s) /\ GetNextTaskGrp 0 s = Ret (s, - ENOENT, None, None)) \/
  (exists c1 i c2 q r1 g r2, picks s c1 i c2 q r1 g r2 /\
     GetNextTaskGrp 0 s = Ret (after_pick s c1 i c2 q r1 g r2, 0, Some g, None)).
Proof.
  unfold GetNextTaskGrp. destruct (AAR_cases s) as [Hi|(c1 & i & c2 & q & r1 & g & r2 & Hp)].
  - left. split; [done|]. by rewrite AAR_idle.
  - right. exists c1, i, c2, q, r1, g, r2. split; [done|]. simpl. by rewrite (AAR_picks _ _ _ _ _ _ _ _ Hp).
Qed.

(** C26: the choice is fair.  A ready group that has work at each of as many
    calls as there are pairs of a connection and a ready group of its own
    connection is chosen by one of them, whatever happens to the limits and the
    tasks of all groups between the calls. *)
Theorem round_robin_fair (Hs : list heap) (s : CRRTaskScheduler) (i : Z) (q : CONNQUE_ELEM) (g : Z) :
  i ∈ m_lstConns s -> i <> m_pSchedMgr s -> m_mapConnQues s !! i = Some q ->
  g ∈ m_plstReady q -> (forall H, H ∈ Hs -> HasWork (H g) = true) ->
  (length (m_plstReady q) * length (m_lstConns s) <= length Hs)%nat ->
  Some g ∈ aar_calls Hs s.
Proof.
  intros Hi Hm Hq Hg Hw Hlen. apply list_elem_of_split in Hi as (a & b & Hc), Hg as (r1 & r2 & Hr).
  eapply aar_calls_fair; [done..|]. rewrite Hr, Hc, !length_app in *. simpl in *. nia.
Qed.

(** C34: [SetSlotCount] moves the limits the wrong way.  With nobody waiting,
    a change from [s] to [n] slots hands out [2s - n] of them, more than there
    were when there are to be fewer, and fewer when there are to be more. *)
Theorem SetSlotCount_inverted {pol : policy} (IsInvoke : Z -> bool) (s : CRRTaskScheduler) (i : Z)
    (q : CONNQUE_ELEM) (n : Z) :
  sched_ok pol s -> i <> 0 -> m_mapConnQues s !! i = Some q -> few q -> m_lstWaitSlot q = [] ->
  0 <= n -> n <> m_dwMaxSlots q ->
  let N := Z.of_nat (length (groups q)) in
  let given := 2 * m_dwMaxSlots q - n in
  1 <= N <= given -> given < RFC_MAX_REQS * N -> given < 2 ^ 32 ->
  exists s' v q', SetSlotCount IsInvoke i n s = (s', 0, v) /\
    m_mapConnQues s' !! i = Some q' /\ m_dwMaxSlots q' = n /\ groups q' = groups q /\
    total (m_heap s') (groups q') = given.
Proof.
  intros Hs Hi Hq Hf Hw Hn Hne N given HN Hg Hg32. pose proof (so_conn _ Hs i q Hq) as C.
  destruct (co_slots _ _ C) as [S1 S2]. pose proof (GetTaskGrpCount_ok _ _ C Hf) as HC. fold N in HC.
  assert (HA : 0 <= given < 2 ^ 32 /\ given / N <> 0 /\ given / N < RFC_MAX_REQS).
  { pose proof (Z.div_pos given N). pose proof (Z.div_str_pos given N).
    pose proof (Z.div_lt_upper_bound given N RFC_MAX_REQS). lia. }
  destruct HA as (A1 & A2 & A3). destruct (even_split given N) as (E1 & E2 & E3); [done|lia|done|].
  unfold SetSlotCount. destruct (Z.eqb_spec i 0); [done|]. rewrite Hq.
  destruct (Z.eqb_spec (m_dwMaxSlots q) n); [lia|].
  assert (groups q = m_plstReady q) as Hgr by (unfold groups; by rewrite Hw, app_nil_r).
  pose proof (co_nodup _ _ C) as Hnd. pose proof (co_healthy _ _ C) as Hh.
  destruct (n <? m_dwMaxSlots q) eqn:Hlt; (apply Z.ltb_lt in Hlt || apply Z.ltb_ge in Hlt).
  - unfold IncSlotCount. destruct (Z.eqb_spec (m_dwMaxSlots q - n) 0); [lia|]. rewrite HC.
    destruct (Z.eqb_spec N 0); [lia|]. cbn [orb]. rewrite Hw.
    replace (u32 (m_dwMaxSlots q + (m_dwMaxSlots q - n))) with given by (rewrite u32_small; lia).
    rewrite Hgr in Hnd, Hh.
    destruct (running_redistributed (given / N) (given - given / N * N) (m_heap s) q)
      as (H' & HE & R1 & R2 & _ & R3); [done|lia|done|done|]. rewrite HE.
    eexists _, _, _. split; [done|]. split; [apply lookup_insert_eq|]. split; [done|]. split; [done|].
    unfold groups at 1. simpl. rewrite Hw, app_nil_r, R3 by done. rewrite <- Hgr. fold N. lia.
  - unfold DecSlotCount. destruct (Z.eqb_spec (n - m_dwMaxSlots q) 0); [lia|].
    unfold ResetSlotCountAlloc. rewrite HC. destruct (Z.eqb_spec N 0); [lia|].
    replace (u32 (m_dwMaxSlots q - (n - m_dwMaxSlots q))) with given by (rewrite u32_small; lia).
    destruct (Z.eqb_spec (given / N) 0); [lia|].
    destruct (all_redistributed (given / N) (given - given / N * N) (m_heap s) q)
      as (H' & HE & R1 & R2 & _ & R3); [done|lia|done|done|].
    destruct (SetLimitGrps (given / N) (m_heap s) q) as [H1 q1]. injection HE as HE ->. rewrite HE.
    eexists _, _, _. split; [done|]. split; [apply lookup_insert_eq|]. split; [done|].
    assert (groups (set_queues [] (groups q) q) = groups q) as Hgq by apply app_nil_r.
    split; [exact Hgq|]. change (total H' (groups (set_queues [] (groups q) q)) = given).
    rewrite Hgq, R3 by done. fold N. lia.
Qed.

(** C36: [RemoveTaskGrp] can leave a connection without service.  When its only
    ready group goes while others wait, and the slots would do for all of these,
    no one gets a slot: the limits are spread over the ready groups, of which
    there are none.  From then on every new group of the connection waits too,
    and no call for the next group chooses one of them. *)
Theorem RemoveTaskGrp_starves {pol : policy} (IsInvoke : Z -> bool) (PrxyPortId PortId : Z -> option Z)
    (ProxyLimit : Z -> option (Z * Z)) (s : CRRTaskScheduler) (g port i : Z) (q : CONNQUE_ELEM) :
  sched_ok pol s -> few q -> PrxyPortId g = Some port -> m_mapId2If s !! port = Some i ->
  m_mapConnQues s !! i = Some q -> m_plstReady q = [g] -> m_lstWaitSlot q <> [] ->
  Z.of_nat (length (m_lstWaitSlot q)) <= m_dwMaxSlots q ->
  exists s' q', RemoveTaskGrp PrxyPortId g s = (s', 0, []) /\
    m_mapConnQues s' !! i = Some q' /\ m_lstWaitSlot q' = m_lstWaitSlot q /\
    m_plstReady q' = [] /\ m_heap s' = m_heap s /\
    (forall a, a ∈ m_lstWaitSlot q' -> limit (m_heap s') a = 0) /\
    (forall s2, rtc (served IsInvoke PortId ProxyLimit i) s' s2 -> stuck s2 i).
Proof.
  intros Hs Hf Hp Hid Hq Hr Hw Hlen. pose proof (so_conn _ Hs i q Hq) as C.
  destruct (conn_split _ _ C) as [_ Hgw]. specialize (Hgw g). rewrite Hr in Hgw.
  destruct (RemoveTaskGrp_last (pol := pol) PrxyPortId s g port i q) as (s' & HE & Hq' & HH); try done.
  { apply Hgw. set_solver. }
  exists s', (set_queues (m_lstWaitSlot q) [] q). split_and!; try done.
  - intros a Ha. rewrite HH. by apply (co_wait _ _ C).
  - intros s2 H2. eapply served_stuck; [done|]. by exists (set_queues (m_lstWaitSlot q) [] q).
Qed.

(** ** Witnesses and examples *)

Definition ex_invoke : Z -> bool := fun _ => true.
Definition ex_port : Z -> option Z := fun _ => Some 3.
Definition ex_limit : Z -> option (Z * Z) := fun _ => Some (1, 0).

(** Groups as [CreateGrpRfc] makes them, with a task each. *)
Definition ex_heap : heap :=
  fun _ => set_tasks [] [5] (set_base
    (SetRunning true (SetTaskState stateStarted (SetRelation logicNONE NewTaskGroup)))
    (NewParaGrp (Some 0) (Some 32))).

Definition ex_add (g : Z) (s : CRRTaskScheduler) : CRRTaskScheduler :=
  match AddTaskGrp ex_invoke ex_port ex_limit 7 g s with Some (s', _, _) => s' | None => s end.

(** The connection 7 with its one slot, its first group, and a second one. *)
Definition ex_s1 : CRRTaskScheduler := ex_add 100 (NewScheduler ex_heap 1).
Definition ex_s2 : CRRTaskScheduler := ex_add 101 ex_s1.
Definition ex_conn (s : CRRTaskScheduler) : CONNQUE_ELEM := default NewConnQue (m_mapConnQues s !! 7).

Example ex_queues : m_plstReady (ex_conn ex_s2) = [100] /\ m_lstWaitSlot (ex_conn ex_s2) = [101] /\
  m_dwMaxSlots (ex_conn ex_s2) = 1 /\ limit (m_heap ex_s2) 100 = 1.
Proof. by split_and!; vm_compute. Qed.

Lemma ex_few (s : CRRTaskScheduler) i q0 :
  m_mapConnQues s = {[ i := q0 ]} -> few q0 -> sched_few s.
Proof. intros E Hf j q. rewrite E, lookup_singleton_Some. by intros [_ <-]. Qed.

Lemma ex_new (s : CRRTaskScheduler) g :
  m_mapConnQues s = ∅ \/ m_mapConnQues s = {[ 7 := ex_conn s ]} /\ (g ∉ groups (ex_conn s)) ->
  healthy (m_heap s) g -> limit (m_heap s) g = 0 -> new_group s g.
Proof.
  intros Hq Hh Hl. split_and!; [done|done|]. intros (i & q & Hi & Hg).
  destruct Hq as [E|[E Hn]]; rewrite E in Hi; [by rewrite lookup_empty in Hi|].
  apply lookup_singleton_Some in Hi as [_ <-]. done.
Qed.

Lemma ex_reached1 :
  rtc (sched_step Strict ex_invoke ex_port ex_port ex_limit) (NewScheduler ex_heap 1) ex_s1.
Proof.
  apply rtc_once. eapply (ss_add_grp _ _ _ _ 7 100); [|apply ex_new|vm_compute; reflexivity].
  - intros i q Hq. simpl in Hq. by rewrite lookup_empty in Hq.
  - by left.
  - split; [reflexivity|]. vm_compute. by split_and!.
  - reflexivity.
Qed.

Lemma ex_reached2 :
  rtc (sched_step Strict ex_invoke ex_port ex_port ex_limit) (NewScheduler ex_heap 1) ex_s2.
Proof.
  eapply rtc_r; [exact ex_reached1|].
  eapply (ss_add_grp _ _ _ _ 7 101); [apply (ex_few _ 7 (ex_conn ex_s1))|apply ex_new|vm_compute; reflexivity].
  - vm_compute. reflexivity.
  - vm_compute. reflexivity.
  - right. split; [vm_compute; reflexivity|]. vm_compute. set_solver.
  - split; [reflexivity|]. vm_compute. by split_and!.
  - reflexivity.
Qed.

Lemma ex_ok1 : sched_ok Strict ex_s1.
Proof. eapply sched_steps_ok; [exact ex_reached1|apply NewScheduler_ok]. Qed.

Lemma ex_ok2 : sched_ok Strict ex_s2.
Proof. eapply sched_steps_ok; [exact ex_reached2|apply NewScheduler_ok]. Qed.


(** Two connections, the second with two ready groups; all have work. *)
Definition ex_rr : CRRTaskScheduler :=
  mkSched ex_heap
    (<[8 := mkConn [] [200; 201] [] 2]> {[ 7 := mkConn [] [100] [] 1 ]}) [7; 8] ∅ NewConnQue 0 1.
Definition ex_busy : heap := fun a => set_limits 2 32 (ex_heap a).

Example ex_calls : aar_calls (repeat ex_busy 6) ex_rr =
  [Some 100; Some 200; Some 100; Some 201; Some 100; Some 200].
Proof. vm_compute. reflexivity. Qed.

Lemma round_robin_fair_witness : Some 201 ∈ aar_calls (repeat ex_busy 4) ex_rr.
Proof.
  apply (round_robin_fair (repeat ex_busy 4) ex_rr 8 (mkConn [] [200; 201] [] 2) 201).
  - simpl. set_solver.
  - simpl. lia.
  - vm_compute. reflexivity.
  - simpl. set_solver.
  - intros H HH. apply list_elem_of_In, repeat_spec in HH as ->. vm_compute. reflexivity.
  - vm_compute. lia.
Defined.

Lemma SetSlotCount_inverted_witness :
  exists s' v q', SetSlotCount ex_invoke 7 0 ex_s1 = (s', 0, v) /\
    m_mapConnQues s' !! 7 = Some q' /\ m_dwMaxSlots q' = 0 /\
    groups q' = groups (ex_conn ex_s1) /\ total (m_heap s') (groups q') = 2.
Proof.
  apply (SetSlotCount_inverted (pol := Strict) ex_invoke ex_s1 7 (ex_conn ex_s1) 0).
  - exact ex_ok1.
  - lia.
  - vm_compute. reflexivity.
  - vm_compute. reflexivity.
  - vm_compute. reflexivity.
  - lia.
  - vm_compute. lia.
  - vm_compute. split; intros H; discriminate H.
  - vm_compute. reflexivity.
  - vm_compute. reflexivity.
Defined.

Lemma RemoveTaskGrp_starves_witness :
  exists s', (RemoveTaskGrp ex_port 100 ex_s2).1.1 = s' /\ stuck s' 7.
Proof.
  destruct (RemoveTaskGrp_starves (pol := Strict) ex_invoke ex_port ex_port ex_limit ex_s2 100 3 7 (ex_conn ex_s2))
    as (s' & q' & E & _ & _ & _ & _ & _ & H).
  - exact ex_ok2.
  - vm_compute. reflexivity.
  - reflexivity.
  - vm_compute. reflexivity.
  - vm_compute. reflexivity.
  - vm_compute. reflexivity.
  - vm_compute. discriminate.
  - vm_compute. discriminate.
  - exists s'. rewrite E. split; [reflexivity|]. apply H. apply rtc_refl.
Defined.

(** *** [RemoveTaskGrps] overdraws the slots *)

(** With four slots the groups 101 to 105 come, of which the last waits; 101 and
    102 go, after which 103 holds two slots and 104 one; 106 to 109 come and
    wait.  Then [RemoveTaskGrps] takes 104 away and finds fewer slots than
    groups.  It counts a slot for every ready group, that is one for 103, and
    gives one each to three waiting groups, although 103 keeps its two. *)
Definition ex_limit4 : Z -> option (Z * Z) := fun _ => Some (4, 0).
Definition ex_add4 (s : CRRTaskScheduler) (g : Z) : CRRTaskScheduler :=
  match AddTaskGrp ex_invoke ex_port ex_limit4 7 g s with Some (s', _, _) => s' | None => s end.
Definition ex_del (s : CRRTaskScheduler) (g : Z) : CRRTaskScheduler := (RemoveTaskGrp ex_port g s).1.1.

Definition ex_empty : CRRTaskScheduler := NewScheduler ex_heap 1.
Definition ex_full : CRRTaskScheduler := foldl ex_add4 ex_empty [101; 102; 103; 104; 105].
Definition ex_wide : CRRTaskScheduler := ex_del (ex_del ex_full 101) 102.
Definition ex_crowd : CRRTaskScheduler := foldl ex_add4 ex_wide [106; 107; 108; 109].
Definition ex_over : CRRTaskScheduler := (RemoveTaskGrps ex_port [104] ex_crowd).1.1.

#[local] Instance CONNQUE_ELEM_eq_dec : EqDecision CONNQUE_ELEM.
Proof. solve_decision. Defined.

(** No connection yet, or just this one, which is not full. *)
Definition ex_pre (s : CRRTaskScheduler) : bool :=
  bool_decide (m_mapConnQues s = ∅) ||
  bool_decide (m_mapConnQues s = {[ 7 := ex_conn s ]}) &&
    (Z.of_nat (length (groups (ex_conn s))) <? 2 ^ 32 - 1).

(** The group is new. *)
Definition ex_newb (s : CRRTaskScheduler) (g : Z) : bool :=
  bool_decide (g ∉ groups (ex_conn s)) && CHECK_GRP_STATE (m_heap s g) &&
  (limit (m_heap s) g =? 0) && (0 <? m_dwMaxPending (m_heap s g)) &&
  (m_dwMaxPending (m_heap s g) <? 2 ^ 32).

Lemma ex_pre_few s : ex_pre s = true -> sched_few s.
Proof.
  intros H. apply orb_true_iff in H as [H|H].
  - apply bool_decide_eq_true in H. intros i q Hq. by rewrite H, lookup_empty in Hq.
  - apply andb_true_iff in H as [H1 H2]. apply bool_decide_eq_true in H1.
    eapply ex_few; [exact H1|]. unfold few. lia.
Qed.

Lemma ex_pre_new s g : ex_pre s = true -> ex_newb s g = true -> new_group s g.
Proof.
  unfold ex_newb. intros Hp H. rewrite !andb_true_iff in H. destruct H as [[[[H1 H2] H3] H4] H5].
  apply bool_decide_eq_true in H1. apply ex_new.
  - apply orb_true_iff in Hp as [Hp|Hp]; [left; by apply bool_decide_eq_true in Hp|right].
    apply andb_true_iff in Hp as [Hp _]. by apply bool_decide_eq_true in Hp.
  - unfold healthy. rewrite H2. unfold RFC_MAX_REQS. unfold limit in *. split; [done|lia].
  - lia.
Qed.

(** Groups that are added one after the other, and removed, are steps. *)
Fixpoint ex_adds (s : CRRTaskScheduler) (l : list Z) : bool :=
  match l with
  | [] => true
  | g :: l => ex_pre s && ex_newb s g && ex_adds (ex_add4 s g) l
  end.

Lemma ex_adds_steps pol s l :
  sched_ok pol s -> ex_adds s l = true ->
  rtc (sched_step pol ex_invoke ex_port ex_port ex_limit4) s (foldl ex_add4 s l) /\
  sched_ok pol (foldl ex_add4 s l).
Proof.
  revert s. induction l as [|g l IH]; intros s Hs Hl; cbn [ex_adds foldl] in *.
  { split; [apply rtc_refl|done]. }
  rewrite !andb_true_iff in Hl. destruct Hl as [[Hp Hn] Hl].
  assert (sched_step pol ex_invoke ex_port ex_port ex_limit4 s (ex_add4 s g)) as Hst.
  { destruct (AddTaskGrp_total ex_invoke ex_port ex_limit4 7 g s Hs) as [[[s' ret] v] E].
    unfold ex_add4. rewrite E. eapply ss_add_grp; [by apply ex_pre_few|by apply ex_pre_new|exact E]. }
  destruct (IH (ex_add4 s g)) as [H1 H2]; [by eapply sched_step_ok|done|].
  split; [by eapply rtc_l|done].
Qed.

Lemma ex_del_step pol s g :
  ex_pre s = true -> sched_step pol ex_invoke ex_port ex_port ex_limit4 s (ex_del s g).
Proof.
  intros Hp. unfold ex_del. destruct (RemoveTaskGrp ex_port g s) as [[s' ret] l] eqn:E.
  eapply ss_remove_grp; [by apply ex_pre_few|exact E].
Qed.

Lemma ex_full_reached :
  rtc (sched_step Twice ex_invoke ex_port ex_port ex_limit4) ex_empty ex_full /\ sched_ok Twice ex_full.
Proof.
  unfold ex_full. apply ex_adds_steps; [apply NewScheduler_ok|vm_compute; reflexivity].
Qed.

Lemma ex_wide_reached :
  rtc (sched_step Twice ex_invoke ex_port ex_port ex_limit4) ex_full ex_wide /\ sched_ok Twice ex_wide.
Proof.
  assert (rtc (sched_step Twice ex_invoke ex_port ex_port ex_limit4) ex_full ex_wide) as H.
  { unfold ex_wide. eapply rtc_l; [|eapply rtc_once].
    - apply (ex_del_step Twice ex_full 101). vm_compute. reflexivity.
    - apply (ex_del_step Twice (ex_del ex_full 101) 102). vm_compute. reflexivity. }
  split; [exact H|]. exact (sched_steps_ok _ _ _ _ _ _ H (proj2 ex_full_reached)).
Qed.

Lemma ex_crowd_reached :
  rtc (sched_step Twice ex_invoke ex_port ex_port ex_limit4) ex_wide ex_crowd.
Proof.
  unfold ex_crowd. apply ex_adds_steps; [exact (proj2 ex_wide_reached)|vm_compute; reflexivity].
Qed.

Lemma ex_over_step :
  sched_step Twice ex_invoke ex_port ex_port ex_limit4 ex_crowd ex_over.
Proof.
  assert (ex_pre ex_crowd = true) as Hp by (vm_compute; reflexivity). unfold ex_over.
  generalize dependent ex_crowd. intros s Hp.
  destruct (RemoveTaskGrps ex_port [104] s) as [[s' ret] l] eqn:E.
  eapply ss_remove_grps; [done|by apply ex_pre_few|exact E].
Qed.

Theorem RemoveTaskGrps_overdraws :
  rtc (sched_step Twice ex_invoke ex_port ex_port ex_limit4) ex_empty ex_over /\
  m_dwMaxSlots (ex_conn ex_over) = 4 /\ m_plstReady (ex_conn ex_over) = [103; 105; 106; 107] /\
  total (m_heap ex_over) (groups (ex_conn ex_over)) = 5.
Proof.
  split; [|vm_compute; split_and!; reflexivity].
  etrans; [exact (proj1 ex_full_reached)|].
  etrans; [exact (proj1 ex_wide_reached)|].
  eapply rtc_r; [exact ex_crowd_reached|exact ex_over_step].
Qed.
