(* ===== verification/BlkBitmap.v ===== *)
(** * Bitmaps of the registry file system: [monitor/registry/blkalloc.cpp], [blkalloc.h]

    A registry file system is a file of at most 4096 groups of 65536 blocks.
    [CBlockBitmap] keeps a bit per block of a group, [CGroupBitmap] a bit per
    group; both end with a big-endian 16-bit count of what is free.  Bytes are
    [Z]s below 256, and the bitmap is the array [m_arrBytes].  Reads and writes
    of blocks go to the allocator: an operation answers the blocks it writes. *)

From Stdlib Require Import ZArith Lia.
From S2P Require Import Prelude TaskGroup.
Local Open Scope rpcf_scope.

(** ** Geometry *)

Definition BYTE_BITS : Z := 8.
Definition BLOCKS_PER_GROUP_FULL : Z := 64 * 1024.
Definition BLKGRP_GAP_BLKNUM : Z := 2 * BYTE_BITS.
Definition BLOCKS_PER_GROUP : Z := BLOCKS_PER_GROUP_FULL - BLKGRP_GAP_BLKNUM.
Definition BLOCK_IDX_MASK : Z := BLOCKS_PER_GROUP_FULL - 1.
Definition BLKBMP_SIZE : Z := BLOCKS_PER_GROUP_FULL / BYTE_BITS.
Definition UCHAR_MAX : Z := 255.
Definition ENODATA : Z := 61.

(** [ffs( x ) - 1]: the position of the lowest bit. *)
Definition find_shift (x : Z) : Z := Z.log2 (Z.land x (- x)).
Definition GROUP_INDEX_SHIFT : Z := find_shift BLOCKS_PER_GROUP_FULL.

(** [g_dwBlockSize], [g_dwRegFsPageSize] and [g_bSafeMode]. *)
Record geometry := mkGeom { BLOCK_SIZE : Z; REGFS_PAGE_SIZE : Z; IsSafeMode : bool }.

Definition BLOCK_SHIFT (G : geometry) : Z := find_shift (BLOCK_SIZE G).
Definition GROUP_SHIFT (G : geometry) : Z := find_shift (REGFS_PAGE_SIZE G).
Definition BLKBMP_BLKNUM (G : geometry) : Z := BLOCKS_PER_GROUP_FULL / (BLOCK_SIZE G * BYTE_BITS).
Definition BLKGRP_NUMBER_FULL (G : geometry) : Z := Z.shiftl 1 (GROUP_SHIFT G).
Definition BLKGRP_NUMBER (G : geometry) : Z := BLKGRP_NUMBER_FULL G - 2 * BYTE_BITS.
Definition GRPBMP_SIZE (G : geometry) : Z := BLKGRP_NUMBER_FULL G / BYTE_BITS.
Definition GRPBMP_BLKNUM (G : geometry) : Z := BLKGRP_NUMBER_FULL G / (BLOCK_SIZE G * BYTE_BITS).

Definition IsValidBlockSize (dwSize : Z) : Z :=
  if negb (dwSize =? 512) && negb (dwSize =? 1024) && negb (dwSize =? 2048) && negb (dwSize =? 4096)
  then - EINVAL else STATUS_SUCCESS.
Definition IsValidPageSize (G : geometry) (dwSize : Z) : Z :=
  let dwShift := find_shift dwSize in
  if (dwShift <=? BLOCK_SHIFT G) || (16 <? dwShift) then - EINVAL else STATUS_SUCCESS.

(** ** Searching a bitmap

    The bitmap is scanned in words of eight bytes, the last word without the
    two bytes of the count. *)

(** [LONGWORD], little-endian. *)
Definition word_at (arr : list Z) (j : nat) : Z :=
  foldr (fun b w => b + 256 * w) 0 (firstn 8 (skipn j arr)).

(** [for( ; j < dwEnd; j++ ) if( m_arrBytes[ j ] != UCHAR_MAX ) break;], [n]
    bytes to look at. *)
Fixpoint find_not_full (arr : list Z) (n j : nat) : nat :=
  match n with
  | O => j
  | S n => if arr !!! j =? UCHAR_MAX then find_not_full arr n (S j) else j
  end.

(** The loop over the bits of a byte, from bit [j] on: the free bits are taken
    until [dwWant] are. *)
Fixpoint take_bits (n : nat) (j bit a dwWant : Z) : Z * list Z :=
  match n with
  | O => (a, [])
  | S n =>
      if Z.land a bit =? 0 then
        let a := Z.lor a bit in
        if dwWant =? 1 then (a, [j])
        else let '(a, l) := take_bits n (j + 1) (u8 (Z.shiftl bit 1)) a (dwWant - 1) in (a, j :: l)
      else take_bits n (j + 1) (u8 (Z.shiftl bit 1)) a dwWant
  end.

(** The bits of the byte [j] that are taken, as indices into the bitmap. *)
Definition take_byte (arr : list Z) (j : nat) (dwWant : Z) : list Z * list Z :=
  let '(a, l) := take_bits 8 0 1 (arr !!! j) dwWant in
  (<[j := a]> arr, map (fun k => Z.of_nat j * BYTE_BITS + k) l).

(** The loop of [CBlockBitmap::AllocBlocks] over the words from [i] on, [n] of
    them: of each word the first byte that is not full is used. *)
Fixpoint AllocLoop (n i : nat) (dwWant : Z) (arr : list Z) : list Z * list Z :=
  match n with
  | O => (arr, [])
  | S n' =>
      if dwWant <=? 0 then (arr, [])
      else
        let dwByteIdx := (i * 8)%nat in
        match n' with
        | S _ =>
            if word_at arr dwByteIdx =? 2 ^ 64 - 1 then AllocLoop n' (S i) dwWant arr
            else
              let j := find_not_full arr 8 dwByteIdx in
              if (j =? dwByteIdx + 8)%nat then (arr, [])
              else
                let '(arr, l) := take_byte arr j dwWant in
                let dwWant := dwWant - Z.of_nat (length l) in
                if dwWant =? 0 then (arr, l)
                else let '(arr, l') := AllocLoop n' (S i) dwWant arr in (arr, l ++ l')
        | O =>
            let j := find_not_full arr 6 dwByteIdx in
            if (j =? dwByteIdx + 6)%nat then (arr, []) else take_byte arr j dwWant
        end
  end.

(** ** [CBlockBitmap] *)

Record CBlockBitmap := mkBlkBmp {
  m_arrBytes : list Z;
  m_wFreeCount : Z;
  m_dwGroupIdx : Z;
}.

Definition set_bytes (arr : list Z) (n : Z) (b : CBlockBitmap) : CBlockBitmap :=
  mkBlkBmp arr n (m_dwGroupIdx b).

(** [p[ -1 ] = htons( n )], [p] being the end of the array. *)
Definition put_count (n : Z) (arr : list Z) : list Z :=
  firstn (length arr - 2) arr ++ [n / 256; n mod 256].
Definition get_count (arr : list Z) : Z :=
  match skipn (length arr - 2) arr with [h; l] => 256 * h + l | _ => 0 end.

(** The whole bitmap is free but for its own blocks. *)
Definition AllFree (G : geometry) : Z := BLOCKS_PER_GROUP - BLKBMP_BLKNUM G.

(** [InitBitmap] sets the bits of the bitmap's own blocks. *)
Definition InitBitmap (G : geometry) (b : CBlockBitmap) : CBlockBitmap :=
  let dwBytes := Z.to_nat (BLKBMP_BLKNUM G / 8) in
  let dwCount := Z.land (BLKBMP_BLKNUM G) 0x07 in
  let tail := Z.ones dwCount in
  let arr := replicate dwBytes 0xff ++
    (if dwCount =? 0 then [] else [tail]) in
  let arr := arr ++ replicate (Z.to_nat BLKBMP_SIZE - 2 - length arr) 0 in
  set_bytes (arr ++ [AllFree G / 256; AllFree G mod 256]) (AllFree G) b.

(** The blocks of the bitmap that are written in safe mode: the dirty ones, and
    the last one for the count. *)
Definition block_no (b : CBlockBitmap) (dwBlkIdx : Z) : Z :=
  Z.lor (u32 (Z.shiftl (m_dwGroupIdx b) GROUP_INDEX_SHIFT)) dwBlkIdx.
Definition dirty_writes (G : geometry) (idxs : list Z) (b : CBlockBitmap) : list (Z * list Z) :=
  map (fun i => (block_no b i,
                 firstn (Z.to_nat (BLOCK_SIZE G))
                   (skipn (Z.to_nat (i * BLOCK_SIZE G)) (m_arrBytes b))))
    (filter (fun i => i = BLKBMP_BLKNUM G - 1 \/
                      Exists (fun k => k / (BLOCK_SIZE G * BYTE_BITS) = i) idxs)
       (seqZ 0 (BLKBMP_BLKNUM G))).

(** The answer: the bitmap, the status, the blocks, and the writes.  With
    [STATUS_MORE_PROCESS_NEEDED] the caller learns how many blocks it got. *)
Definition AllocBlocks (G : geometry) (dwNumBlocks : Z) (b : CBlockBitmap)
    : CBlockBitmap * Z * list Z * list (Z * list Z) :=
  if dwNumBlocks =? 0 then (b, - EINVAL, [], [])
  else if m_wFreeCount b =? 0 then (b, - ENOMEM, [], [])
  else
    let '(arr, idxs) := AllocLoop (Z.to_nat BLKBMP_SIZE / 8) 0 dwNumBlocks (m_arrBytes b) in
    let dwBlocks := Z.of_nat (length idxs) in
    if m_wFreeCount b <? dwBlocks
    then (set_bytes arr (m_wFreeCount b) b, ERROR_FAIL, map (block_no b) idxs, [])
    else
      let n := m_wFreeCount b - dwBlocks in
      let safe := (0 <? dwBlocks) && IsSafeMode G in
      let b := set_bytes (if safe then put_count n arr else arr) n b in
      (b, if dwBlocks =? dwNumBlocks then STATUS_SUCCESS else STATUS_MORE_PROCESS_NEEDED,
       map (block_no b) idxs, if safe then dirty_writes G idxs b else []).

(** The loop of [FreeBlocks]; the indices of the blocks that were freed come
    last. *)
Fixpoint FreeLoop (l : list Z) (arr : list Z) (wFree : Z) : list Z * Z * list Z :=
  match l with
  | [] => (arr, wFree, [])
  | x :: l =>
      let dwBlkIdx := Z.land x BLOCK_IDX_MASK in
      if dwBlkIdx =? 0 then FreeLoop l arr wFree
      else
        let dwByteIdx := Z.to_nat (Z.shiftr dwBlkIdx (find_shift BYTE_BITS)) in
        let offset := Z.land dwBlkIdx (BYTE_BITS - 1) in
        let a := arr !!! dwByteIdx in
        if a =? 0 then FreeLoop l arr wFree
        else
          let bit := u8 (Z.shiftl 1 offset) in
          let arr := <[dwByteIdx := Z.ldiff a bit]> arr in
          let '(arr, wFree, idxs) := FreeLoop l arr (u16 (wFree + 1)) in
          (arr, wFree, dwBlkIdx :: idxs)
  end.

Definition FreeBlocks (G : geometry) (pvecBlocks : list Z) (b : CBlockBitmap)
    : CBlockBitmap * Z * list (Z * list Z) :=
  match pvecBlocks with
  | [] => (b, - EINVAL, [])
  | _ =>
      if m_wFreeCount b =? AllFree G then (b, 0, [])
      else
        let '(arr, n, idxs) := FreeLoop pvecBlocks (m_arrBytes b) (m_wFreeCount b) in
        let safe := nonempty idxs && IsSafeMode G in
        let b := set_bytes (if safe then put_count n arr else arr) n b in
        (b, 0, if safe then dirty_writes G idxs b else [])
  end.

Definition FreeBlock (G : geometry) (dwBlkIdx : Z) (b : CBlockBitmap)
    : CBlockBitmap * Z * list (Z * list Z) :=
  if dwBlkIdx =? 0 then (b, - EINVAL, []) else FreeBlocks G [dwBlkIdx] b.

Definition bit_set (arr : list Z) (dwIdx : Z) : bool :=
  let a := arr !!! Z.to_nat (Z.shiftr dwIdx (find_shift BYTE_BITS)) in
  let bit := u8 (Z.shiftl 1 (Z.land dwIdx (BYTE_BITS - 1))) in
  negb (Z.land a bit =? 0).

(** [0] is free, [ERROR_FALSE] is not. *)
Definition IsBlockFree (G : geometry) (dwBlkIdx : Z) (b : CBlockBitmap) : Z :=
  if dwBlkIdx =? 0 then - EINVAL
  else if m_wFreeCount b =? AllFree G then 0
  else if bit_set (m_arrBytes b) dwBlkIdx then ERROR_FALSE else 0.

Definition IsEmpty (G : geometry) (b : CBlockBitmap) : bool := AllFree G =? m_wFreeCount b.

(** [Flush] writes the bitmap with its count to the first blocks of the group. *)
Definition FlushBitmap (b : CBlockBitmap) : CBlockBitmap * list (Z * list Z) :=
  let b := set_bytes (put_count (m_wFreeCount b) (m_arrBytes b)) (m_wFreeCount b) b in
  (b, [(block_no b 0, m_arrBytes b)]).
Definition ReloadBitmap (arr : list Z) (b : CBlockBitmap) : CBlockBitmap :=
  set_bytes arr (get_count arr) b.

(** ** [CGroupBitmap] *)

Record CGroupBitmap := mkGrpBmp { g_arrBytes : list Z; g_wFreeCount : Z }.

(** The loop over the bits of a byte, for one bit. *)
Fixpoint first_zero (n : nat) (j bit a : Z) : option (Z * Z) :=
  match n with
  | O => None
  | S n =>
      if Z.land a bit =? 0 then Some (j, Z.lor a bit)
      else first_zero n (j + 1) (u8 (Z.shiftl bit 1)) a
  end.

Fixpoint GroupLoop (n i : nat) (arr : list Z) : option (Z * list Z) :=
  match n with
  | O => None
  | S n' =>
      let dwByteIdx := (i * 8)%nat in
      let found j :=
        match first_zero 8 0 1 (arr !!! j) with
        | Some (k, a) => Some (Z.of_nat j * BYTE_BITS + k, <[j := a]> arr)
        | None => None
        end in
      match n' with
      | S _ =>
          if word_at arr dwByteIdx =? 2 ^ 64 - 1 then GroupLoop n' (S i) arr
          else
            let j := find_not_full arr 8 dwByteIdx in
            if (j =? dwByteIdx + 8)%nat then None else found j
      | O =>
          let j := find_not_full arr 6 dwByteIdx in
          if (j =? dwByteIdx + 6)%nat then None else found j
      end
  end.

(** [Flush]: the last component of the operations is the array to save. *)
Definition FlushGroups (g : CGroupBitmap) : CGroupBitmap * list Z :=
  let g := mkGrpBmp (put_count (g_wFreeCount g) (g_arrBytes g)) (g_wFreeCount g) in
  (g, g_arrBytes g).

Definition AllocGroup (G : geometry) (g : CGroupBitmap)
    : CGroupBitmap * Z * option Z * option (list Z) :=
  if g_wFreeCount g =? 0 then (g, - ENOMEM, None, None)
  else match GroupLoop (Z.to_nat (GRPBMP_SIZE G) / 8) 0 (g_arrBytes g) with
  | Some (dwGrpIdx, arr) =>
      let '(g, sv) := FlushGroups (mkGrpBmp arr (g_wFreeCount g - 1)) in
      (g, STATUS_SUCCESS, Some dwGrpIdx, Some sv)
  | None => (g, - ENOMEM, None, None)
  end.

Definition FreeGroup (G : geometry) (dwGrpIdx : Z) (g : CGroupBitmap)
    : CGroupBitmap * Z * option (list Z) :=
  if g_wFreeCount g =? BLKGRP_NUMBER G then (g, 0, None)
  else if BLKGRP_NUMBER G <=? dwGrpIdx then (g, - EINVAL, None)
  else
    let dwByteIdx := Z.to_nat (Z.shiftr dwGrpIdx (find_shift BYTE_BITS)) in
    let a := g_arrBytes g !!! dwByteIdx in
    if a =? 0 then (g, 0, None)
    else
      let bit := u8 (Z.shiftl 1 (Z.land dwGrpIdx (BYTE_BITS - 1))) in
      let '(g, sv) := FlushGroups
        (mkGrpBmp (<[dwByteIdx := Z.ldiff a bit]> (g_arrBytes g)) (u16 (g_wFreeCount g + 1))) in
      (g, 0, Some sv).

Definition IsBlockGroupFree (G : geometry) (dwGrpIdx : Z) (g : CGroupBitmap) : Z :=
  if g_wFreeCount g =? BLKGRP_NUMBER G then 0
  else if BLKGRP_NUMBER G <=? dwGrpIdx then - EINVAL
  else if bit_set (g_arrBytes g) dwGrpIdx then ERROR_FALSE else 0.

Definition FormatGroups (G : geometry) : CGroupBitmap * list Z :=
  FlushGroups (mkGrpBmp (replicate (Z.to_nat (GRPBMP_SIZE G)) 0) (BLKGRP_NUMBER G)).

Definition ReloadGroups (G : geometry) (arr : list Z) : CGroupBitmap * Z :=
  let n := get_count arr in
  (mkGrpBmp arr n, if BLKGRP_NUMBER G <? n then - ERANGE else 0).

(** ** Reference notions *)

Definition byte (a : Z) : Prop := 0 <= a < 256.

(** The bit of the block (or group) [k]. *)
Definition bitZ (arr : list Z) (k : Z) : bool :=
  Z.testbit (arr !!! Z.to_nat (k / 8)) (k mod 8).

(** The free bits of a byte, and of the bitmap without its count. *)
Definition zero_bits (a : Z) : list Z := filter (fun k => Z.testbit a k = false) (seqZ 0 8).
Definition zeros (a : Z) : Z := Z.of_nat (length (zero_bits a)).
Definition free_bits (arr : list Z) : Z :=
  foldr (fun a n => zeros a + n) 0 (firstn (length arr - 2) arr).

(** ** Lemmas: bits *)

Lemma land_bit a k : 0 <= k -> (Z.land a (2 ^ k) =? 0) = negb (Z.testbit a k).
Proof.
  intros Hk. destruct (Z.testbit a k) eqn:Ea; simpl.
  - apply Z.eqb_neq. intros E.
    assert (Z.testbit (Z.land a (2 ^ k)) k = true) as H; [|by rewrite E, Z.bits_0 in H].
    by rewrite Z.land_spec, Ea, Z.pow2_bits_true by done.
  - apply Z.eqb_eq. apply Z.bits_inj'. intros n Hn. rewrite Z.land_spec, Z.bits_0.
    destruct (Z.eq_dec n k) as [->|Hne]; [by rewrite Ea|].
    rewrite Z.pow2_bits_false by lia. apply andb_false_r.
Qed.

Lemma byte_bits a : byte a <-> 0 <= a /\ (forall k, 8 <= k -> Z.testbit a k = false).
Proof.
  unfold byte. split.
  - intros [H1 H2]. split; [done|]. intros k Hk. destruct (Z.eq_dec a 0) as [->|Hne]; [apply Z.bits_0|].
    apply Z.bits_above_log2; [done|]. apply Z.log2_lt_pow2; [lia|].
    apply Z.lt_le_trans with (2 ^ 8); [done|]. by apply Z.pow_le_mono_r.
  - intros [H1 H2]. split; [done|]. destruct (Z.lt_ge_cases a 256) as [|Hge]; [done|].
    exfalso. assert (8 <= Z.log2 a) as Hl by (apply Z.log2_le_pow2; lia).
    specialize (H2 _ Hl). rewrite Z.bit_log2 in H2 by lia. done.
Qed.

Lemma byte_full a : byte a -> (a = UCHAR_MAX <-> forall k, 0 <= k < 8 -> Z.testbit a k = true).
Proof.
  intros Ha. split.
  - intros -> k Hk. change UCHAR_MAX with (Z.ones 8). rewrite Z.testbit_ones_nonneg by lia. lia.
  - intros H. change UCHAR_MAX with (Z.ones 8). apply Z.bits_inj'. intros k Hk.
    rewrite Z.testbit_ones_nonneg by lia. destruct (Z.ltb_spec k 8); [apply H; lia|].
    by apply byte_bits.
Qed.

Lemma testbit_lor_bit a k n :
  0 <= k -> 0 <= n -> Z.testbit (Z.lor a (2 ^ k)) n = Z.testbit a n || (n =? k).
Proof.
  intros Hk Hn. rewrite Z.lor_spec. f_equal. destruct (Z.eqb_spec n k) as [->|Hne].
  - by apply Z.pow2_bits_true.
  - apply Z.pow2_bits_false. lia.
Qed.

Lemma testbit_ldiff_bit a k n :
  0 <= k -> 0 <= n -> Z.testbit (Z.ldiff a (2 ^ k)) n = Z.testbit a n && negb (n =? k).
Proof.
  intros Hk Hn. rewrite Z.ldiff_spec. f_equal. f_equal. destruct (Z.eqb_spec n k) as [->|Hne].
  - by apply Z.pow2_bits_true.
  - apply Z.pow2_bits_false. lia.
Qed.

Lemma byte_lor a k : byte a -> 0 <= k < 8 -> byte (Z.lor a (2 ^ k)).
Proof.
  rewrite !byte_bits. intros [H1 H2] Hk. split.
  - apply Z.lor_nonneg. split; [done|]. apply Z.pow_nonneg. lia.
  - intros n Hn. rewrite testbit_lor_bit, H2 by lia. by destruct (Z.eqb_spec n k); [lia|].
Qed.

Lemma byte_ldiff a b : byte a -> byte (Z.ldiff a b).
Proof.
  rewrite !byte_bits. intros [H1 H2]. split.
  - apply Z.ldiff_nonneg. by left.
  - intros n Hn. rewrite Z.ldiff_spec, H2 by done. done.
Qed.

Lemma elem_of_zero_bits a k : k ∈ zero_bits a <-> Z.testbit a k = false /\ 0 <= k < 8.
Proof. unfold zero_bits. rewrite list_elem_of_filter, elem_of_seqZ. split; (intros [H1 H2]; split; [done|lia]). Qed.

Lemma NoDup_zero_bits a : NoDup (zero_bits a).
Proof. apply NoDup_filter, NoDup_seqZ. Qed.

(** Setting some free bits takes as many from the free ones. *)
Lemma zeros_set a a' l :
  NoDup l -> (forall k, k ∈ l -> k ∈ zero_bits a) ->
  (forall k, 0 <= k < 8 -> Z.testbit a' k = Z.testbit a k || bool_decide (k ∈ l)) ->
  zeros a' = zeros a - Z.of_nat (length l).
Proof.
  intros Hn Hl Hb. enough (zero_bits a ≡ₚ l ++ zero_bits a') as E.
  { unfold zeros. rewrite E, length_app. lia. }
  apply NoDup_Permutation; [apply NoDup_zero_bits| |].
  - apply NoDup_app. split_and!; [done| |apply NoDup_zero_bits].
    intros k Hk Hk'. apply elem_of_zero_bits in Hk' as [Hk' Hr].
    rewrite Hb, bool_decide_true, orb_true_r in Hk' by done. done.
  - intros k. rewrite elem_of_app. split.
    + intros Hk. destruct (decide (k ∈ l)) as [|Hn']; [by left|right].
      apply elem_of_zero_bits in Hk as [Hk Hr]. apply elem_of_zero_bits.
      by rewrite Hb, Hk, bool_decide_false by done.
    + intros [Hk|Hk]; [by apply Hl|]. apply elem_of_zero_bits in Hk as [Hk Hr].
      rewrite Hb in Hk by done. apply orb_false_iff in Hk as [Hk _]. by apply elem_of_zero_bits.
Qed.

Lemma zeros_range a : 0 <= zeros a <= 8.
Proof.
  unfold zeros, zero_bits. pose proof (length_filter (fun k => Z.testbit a k = false) (seqZ 0 8)).
  rewrite length_seqZ in *. lia.
Qed.

(** *** Lists of bytes *)

Lemma bytes_lookup arr j : Forall byte arr -> byte (arr !!! j).
Proof.
  intros H. destruct (arr !! j) as [a|] eqn:E.
  - rewrite (list_lookup_total_correct _ _ _ E). by eapply Forall_lookup_1.
  - rewrite list_lookup_total_alt, E. unfold byte. simpl. lia.
Qed.

Lemma bytes_insert arr j a : Forall byte arr -> byte a -> Forall byte (<[j := a]> arr).
Proof. intros. by apply Forall_insert. Qed.

Lemma free_bits_insert arr j a :
  (S (S j) < length arr)%nat ->
  free_bits (<[j := a]> arr) = free_bits arr - zeros (arr !!! j) + zeros a.
Proof.
  intros Hj. unfold free_bits. rewrite length_insert.
  set (n := (length arr - 2)%nat). assert (j < n)%nat as Hjn by (unfold n; lia).
  assert (n <= length arr)%nat as Hn by (unfold n; lia). clearbody n. clear Hj.
  revert j n Hjn Hn. induction arr as [|b arr IH]; intros j n Hjn Hn; [simpl in Hn; lia|].
  destruct n as [|n]; [lia|]. destruct j as [|j]; simpl in *; [lia|].
  rewrite IH by lia. lia.
Qed.

Lemma bitZ_insert arr j a k :
  (j < length arr)%nat -> 0 <= k ->
  bitZ (<[j := a]> arr) k = if k / 8 =? Z.of_nat j then Z.testbit a (k mod 8) else bitZ arr k.
Proof.
  intros Hj Hk. unfold bitZ. destruct (Z.eqb_spec (k / 8) (Z.of_nat j)) as [E|E].
  - rewrite E, Nat2Z.id. by rewrite list_lookup_total_insert_eq.
  - rewrite list_lookup_total_insert_ne; [done|]. pose proof (Z.div_pos k 8). lia.
Qed.

Lemma bit_set_spec arr k : 0 <= k -> bit_set arr k = bitZ arr k.
Proof.
  intros Hk. unfold bit_set, bitZ, BYTE_BITS. change (find_shift 8) with 3.
  rewrite Z.shiftr_div_pow2 by lia. change (2 ^ 3) with 8.
  change (8 - 1) with (Z.ones 3). rewrite Z.land_ones by lia. change (2 ^ 3) with 8.
  pose proof (Z.mod_pos_bound k 8). rewrite Z.shiftl_1_l.
  assert (u8 (2 ^ (k mod 8)) = 2 ^ (k mod 8)) as ->.
  { apply uN_small. split; [apply Z.pow_nonneg; lia|]. apply Z.pow_lt_mono_r; lia. }
  rewrite land_bit by lia. by destruct (Z.testbit _ _).
Qed.

(** ** Lemmas: taking bits *)

Lemma next_bit j : 0 <= j < 8 -> u8 (Z.shiftl (u8 (2 ^ j)) 1) = u8 (2 ^ (j + 1)).
Proof.
  intros Hj. assert (u8 (2 ^ j) = 2 ^ j) as ->.
  { apply uN_small. split; [apply Z.pow_nonneg; lia|]. apply Z.pow_lt_mono_r; lia. }
  f_equal. by rewrite Z.shiftl_mul_pow2, Z.pow_add_r by lia.
Qed.

(** What [take_bits] leaves behind: [l] are the bits that are set now. *)
Definition taken (j : Z) (a dwWant a' : Z) (l : list Z) : Prop :=
  byte a' /\ NoDup l /\ (forall k, k ∈ l -> j <= k < 8 /\ Z.testbit a k = false) /\
  (forall k, 0 <= k -> Z.testbit a' k = Z.testbit a k || bool_decide (k ∈ l)) /\
  Z.of_nat (length l) <= dwWant /\
  (Z.of_nat (length l) < dwWant -> forall k, j <= k < 8 -> Z.testbit a' k = true).

Lemma take_bits_spec n j a dwWant :
  j + Z.of_nat n = 8 -> 0 <= j -> byte a -> 0 < dwWant ->
  let '(a', l) := take_bits n j (u8 (2 ^ j)) a dwWant in taken j a dwWant a' l.
Proof.
  revert j a dwWant. induction n as [|n IH]; intros j a w Hj H0 Ha Hw; cbn [take_bits].
  { split_and!; [done|constructor|set_solver| |simpl; lia|lia].
    intros k Hk. by rewrite bool_decide_false, orb_false_r by set_solver. }
  rewrite next_bit by lia.
  assert (u8 (2 ^ j) = 2 ^ j) as Hu.
  { apply uN_small. split; [apply Z.pow_nonneg; lia|]. apply Z.pow_lt_mono_r; lia. }
  rewrite Hu, land_bit by done. destruct (Z.testbit a j) eqn:Ej; cbn [negb].
  - specialize (IH (j + 1) a w). destruct (take_bits n _ _ _ _) as [a' l].
    destruct IH as (I1 & I2 & I3 & I4 & I5 & I6); [lia..|done|done|].
    split_and!; [done|done| |done|done|].
    + intros k Hk. destruct (I3 k Hk). split; [lia|done].
    + intros Hlt k Hk. destruct (Z.eq_dec k j) as [->|]; [|apply I6; lia].
      by rewrite I4, Ej by lia.
  - destruct (Z.eqb_spec w 1) as [->|Hw1].
    + split_and!; [by apply byte_lor; [|lia]|apply NoDup_singleton| | |simpl; lia|simpl; lia].
      * intros k Hk. apply list_elem_of_singleton in Hk as ->. split; [lia|done].
      * intros k Hk. rewrite testbit_lor_bit by lia. f_equal.
        destruct (Z.eqb_spec k j) as [->|]; case_bool_decide; set_solver.
    + specialize (IH (j + 1) (Z.lor a (2 ^ j)) (w - 1)).
      destruct (take_bits n _ _ _ _) as [a' l].
      destruct IH as (I1 & I2 & I3 & I4 & I5 & I6); [lia|lia|by apply byte_lor; [|lia]|lia|].
      split_and!; [done| | | |simpl; lia|].
      * constructor; [|done]. intros Hk. apply I3 in Hk. lia.
      * intros k Hk. apply elem_of_cons in Hk as [->|Hk]; [split; [lia|done]|].
        destruct (I3 k Hk) as [Hk1 Hk2]. split; [lia|].
        rewrite testbit_lor_bit in Hk2 by lia. by apply orb_false_iff in Hk2 as [? _].
      * intros k Hk. rewrite I4, testbit_lor_bit by lia. rewrite <- orb_assoc. f_equal.
        destruct (Z.eqb_spec k j) as [->|]; simpl; repeat case_bool_decide; set_solver.
      * intros Hlt k Hk. simpl in Hlt. destruct (Z.eq_dec k j) as [->|]; [|apply I6; lia].
        rewrite I4, testbit_lor_bit, Z.eqb_refl by lia. by rewrite orb_true_r.
Qed.

Lemma take_bits_some n j a dwWant k :
  j + Z.of_nat n = 8 -> 0 <= j -> byte a -> 0 < dwWant -> j <= k < 8 -> Z.testbit a k = false ->
  (take_bits n j (u8 (2 ^ j)) a dwWant).2 <> [].
Proof.
  intros Hj H0 Ha Hw Hk Hb E. pose proof (take_bits_spec n j a dwWant Hj H0 Ha Hw) as H.
  destruct (take_bits n _ _ _ _) as [a' l]. simpl in E. subst l.
  destruct H as (_ & _ & _ & H4 & _ & H6). specialize (H6 ltac:(simpl; lia) k Hk).
  by rewrite H4, Hb, bool_decide_false in H6 by (lia || set_solver).
Qed.

(** The same for the whole bitmap: [l] are the indices whose bits are set now,
    all of them in the bytes from [lo] on and before [hi]. *)
Record claimed (lo hi : nat) (arr : list Z) (dwWant : Z) (arr' : list Z) (l : list Z) : Prop :=
  mkClaimed {
    cl_len : length arr' = length arr;
    cl_bytes : Forall byte arr';
    cl_nodup : NoDup l;
    cl_in : forall k, k ∈ l -> 8 * Z.of_nat lo <= k < 8 * Z.of_nat hi /\ bitZ arr k = false;
    cl_bits : forall k, 0 <= k -> bitZ arr' k = bitZ arr k || bool_decide (k ∈ l);
    cl_count : Z.of_nat (length l) <= dwWant;
    cl_free : free_bits arr' = free_bits arr - Z.of_nat (length l);
  }.

Lemma claimed_nil lo hi arr w : Forall byte arr -> 0 <= w -> claimed lo hi arr w arr [].
Proof.
  intros Hb Hw. split; [done|done|constructor|set_solver| |done|simpl; lia].
  intros k _. by rewrite bool_decide_false, orb_false_r by set_solver.
Qed.

Lemma claimed_app lo mid hi arr w arr1 l1 arr2 l2 :
  (lo <= mid <= hi)%nat ->
  claimed lo mid arr w arr1 l1 -> claimed mid hi arr1 (w - Z.of_nat (length l1)) arr2 l2 ->
  claimed lo hi arr w arr2 (l1 ++ l2).
Proof.
  intros Hm [A1 A2 A3 A4 A5 A6 A7] [B1 B2 B3 B4 B5 B6 B7]. split.
  - congruence.
  - done.
  - apply NoDup_app. split_and!; [done| |done]. intros k Hk Hk'.
    apply A4 in Hk as [Hk _]. apply B4 in Hk' as [Hk' _]. lia.
  - intros k Hk. apply elem_of_app in Hk as [Hk|Hk].
    + destruct (A4 k Hk). split; [lia|done].
    + destruct (B4 k Hk) as [Hk1 Hk2]. split; [lia|].
      rewrite A5 in Hk2 by lia. by apply orb_false_iff in Hk2 as [? _].
  - intros k Hk. rewrite B5, A5 by done. rewrite <- orb_assoc. f_equal.
    repeat case_bool_decide; set_solver.
  - rewrite length_app. lia.
  - rewrite length_app, B7, A7. lia.
Qed.

Lemma claimed_mono lo lo' hi hi' arr w arr' l :
  (lo' <= lo)%nat -> (hi <= hi')%nat -> claimed lo hi arr w arr' l -> claimed lo' hi' arr w arr' l.
Proof.
  intros Hlo Hhi [A1 A2 A3 A4 A5 A6 A7]. split; [done|done|done| |done|done|done].
  intros k Hk. destruct (A4 k Hk). split; [lia|done].
Qed.

Lemma take_byte_spec arr j w :
  Forall byte arr -> (S (S j) < length arr)%nat -> 0 < w ->
  let '(arr', l) := take_byte arr j w in
  claimed j (S j) arr w arr' l /\ (arr !!! j <> UCHAR_MAX -> l <> []).
Proof.
  intros Hb Hj Hw. unfold take_byte. pose proof (bytes_lookup arr j Hb) as Ha.
  pose proof (take_bits_spec 8 0 (arr !!! j) w) as H.
  pose proof (take_bits_some 8 0 (arr !!! j) w) as Hs.
  change (u8 (2 ^ 0)) with 1 in *. destruct (take_bits 8 0 1 (arr !!! j) w) as [a' l].
  destruct H as (H1 & H2 & H3 & H4 & H5 & H6); [lia|lia|done|done|]. unfold BYTE_BITS.
  assert (Hdm : forall k, 0 <= k < 8 ->
    (Z.of_nat j * 8 + k) / 8 = Z.of_nat j /\ (Z.of_nat j * 8 + k) mod 8 = k).
  { intros k Hk. rewrite Z.div_add_l, Z.div_small by lia. split; [lia|].
    rewrite Z.add_comm, Z_mod_plus_full. by apply Z.mod_small. }
  split.
  - split; [apply length_insert|by apply bytes_insert| | | |by rewrite length_map|].
    + apply NoDup_fmap_2_strong; [|done]. intros x y _ _ E. lia.
    + intros k Hk. apply list_elem_of_fmap in Hk as (x & -> & Hx). destruct (H3 x Hx) as [Hx1 Hx2].
      split; [lia|]. unfold bitZ. destruct (Hdm x Hx1) as [-> ->]. by rewrite Nat2Z.id.
    + intros k Hk. rewrite bitZ_insert by lia. pose proof (Z.mod_pos_bound k 8).
      pose proof (Z.div_mod k 8). destruct (Z.eqb_spec (k / 8) (Z.of_nat j)) as [E|E].
      * rewrite H4 by lia. unfold bitZ. rewrite E, Nat2Z.id. f_equal.
        apply bool_decide_ext. rewrite list_elem_of_fmap. split.
        -- intros Hin. exists (k mod 8). split; [lia|done].
        -- intros (x & Hx & Hin). destruct (H3 x Hin). assert (k mod 8 = x) as -> by lia. done.
      * rewrite bool_decide_false, orb_false_r; [done|]. rewrite list_elem_of_fmap.
        intros (x & Hx & Hin). destruct (H3 x Hin). lia.
    + rewrite length_map, free_bits_insert by lia.
      rewrite (zeros_set (arr !!! j) a' l); [lia|done| |].
      * intros k Hk. apply elem_of_zero_bits. destruct (H3 k Hk). by split.
      * intros k Hk. apply H4. lia.
  - intros Hne. destruct (zero_bits (arr !!! j)) as [|k zl] eqn:E.
    + exfalso. apply Hne, byte_full; [done|]. intros k Hk.
      destruct (Z.testbit (arr !!! j) k) eqn:Eb; [done|].
      assert (k ∈ zero_bits (arr !!! j)) as Hin by (by apply elem_of_zero_bits).
      rewrite E in Hin. set_solver.
    + assert (k ∈ zero_bits (arr !!! j)) as Hin by (rewrite E; set_solver).
      apply elem_of_zero_bits in Hin as [Hb' Hr]. intros El. apply map_eq_nil in El.
      by eapply (Hs k); [lia|lia|done|done| | |].
Qed.

(** *** The scan *)

(** The bytes from [lo] on and before [hi] are full. *)
Definition full (arr : list Z) (lo hi : nat) : Prop :=
  forall j, (lo <= j < hi)%nat -> arr !!! j = UCHAR_MAX.

Lemma find_not_full_spec arr n j :
  let j' := find_not_full arr n j in
  (j <= j' <= j + n)%nat /\ full arr j j' /\ ((j' < j + n)%nat -> arr !!! j' <> UCHAR_MAX).
Proof.
  revert j. induction n as [|n IH]; intros j; simpl.
  { split_and!; [lia|lia| |lia]. intros k Hk. lia. }
  destruct (Z.eqb_spec (arr !!! j) UCHAR_MAX) as [E|E].
  - destruct (IH (S j)) as (I1 & I2 & I3). split_and!; [lia|lia| |intros; apply I3; lia].
    intros k Hk. destruct (decide (k = j)) as [->|]; [done|apply I2; lia].
  - split_and!; [lia|lia| |done]. intros k Hk. lia.
Qed.

Lemma word_range l :
  Forall byte l -> 0 <= foldr (fun b w => b + 256 * w) 0 l < 256 ^ Z.of_nat (length l).
Proof.
  induction 1 as [|b l Hb _ IH]; [simpl; lia|]. cbn [foldr length].
  rewrite Nat2Z.inj_succ, Z.pow_succ_r by lia. unfold byte in Hb. nia.
Qed.

Lemma word_full l :
  Forall byte l ->
  (foldr (fun b w => b + 256 * w) 0 l = 256 ^ Z.of_nat (length l) - 1 <->
   Forall (fun b => b = UCHAR_MAX) l).
Proof.
  induction 1 as [|b l Hb Hl IH]; [split; [constructor|done]|]. cbn [foldr length].
  rewrite Nat2Z.inj_succ, Z.pow_succ_r by lia. rewrite Forall_cons, <- IH.
  pose proof (word_range l Hl). unfold byte, UCHAR_MAX in *.
  set (w := foldr _ 0 l) in *. set (p := 256 ^ Z.of_nat (length l)) in *. nia.
Qed.

Lemma word_at_full arr j :
  Forall byte arr -> (j + 8 <= length arr)%nat ->
  (word_at arr j = 2 ^ 64 - 1 <-> full arr j (j + 8)).
Proof.
  intros Hb Hj. unfold word_at. set (l := firstn 8 (skipn j arr)).
  assert (length l = 8%nat) as Hl by (unfold l; rewrite length_take, length_drop; lia).
  assert (Forall byte l) as Hbl by (by apply Forall_take, Forall_drop).
  pose proof (word_full l Hbl) as H. rewrite Hl in H. change (256 ^ Z.of_nat 8) with (2 ^ 64) in H.
  rewrite H, Forall_lookup.
  assert (Hlk : forall k, (k < 8)%nat -> l !! k = arr !! (j + k)%nat).
  { intros k Hk. unfold l. by rewrite lookup_take_lt, lookup_drop. }
  split.
  - intros HF k Hk. destruct (lookup_lt_is_Some_2 l (k - j)) as [x Hx]; [lia|].
    rewrite Hlk in Hx by lia. replace (j + (k - j))%nat with k in Hx by lia.
    rewrite (list_lookup_total_correct _ _ _ Hx). apply (HF (k - j)%nat).
    rewrite Hlk by lia. by replace (j + (k - j))%nat with k by lia.
  - intros HF k x Hx. assert (k < 8)%nat as Hk by (rewrite <- Hl; by eapply lookup_lt_Some).
    rewrite Hlk in Hx by done. apply list_lookup_total_correct in Hx. rewrite <- Hx. apply HF. lia.
Qed.

Lemma full_bits arr lo hi k :
  Forall byte arr -> full arr lo hi -> 8 * Z.of_nat lo <= k < 8 * Z.of_nat hi -> bitZ arr k = true.
Proof.
  intros Hb Hf Hk. unfold bitZ. pose proof (Z.div_mod k 8). pose proof (Z.mod_pos_bound k 8).
  rewrite (Hf (Z.to_nat (k / 8))) by lia.
  apply byte_full; [unfold byte, UCHAR_MAX; lia|done|lia].
Qed.

Lemma full_app arr lo mid hi : full arr lo mid -> full arr mid hi -> full arr lo hi.
Proof.
  intros H1 H2 j Hj. destruct (decide (j < mid)%nat); [apply H1|apply H2]; lia.
Qed.

(** The bits below the count that the scan claims, from the word [i] on; it finds
    none only when there is none. *)
Lemma AllocLoop_spec n i w arr :
  ((i + n) * 8 = length arr)%nat -> Forall byte arr -> 0 <= w ->
  let '(arr', l) := AllocLoop n i w arr in
  claimed (i * 8) (length arr - 2) arr w arr' l /\
  (l = [] -> 0 < w -> full arr (i * 8) (length arr - 2)).
Proof.
  revert i w arr. induction n as [|n IH]; intros i w arr Hn Hb Hw; cbn [AllocLoop].
  { split; [by apply claimed_nil|]. intros _ _ j Hj. lia. }
  destruct (Z.leb_spec w 0).
  { split; [by apply claimed_nil|]. lia. }
  set (s := (i * 8)%nat).
  (* the byte where the scan of a word stops *)
  assert (Htake : forall len j, (j < length arr - 2)%nat -> (s <= j)%nat -> arr !!! j <> UCHAR_MAX ->
    let '(arr1, l1) := take_byte arr j w in
    (len <= length arr - 2)%nat -> (j < len)%nat -> claimed s len arr w arr1 l1 /\ l1 <> []).
  { intros len j Hj Hs Hne. pose proof (take_byte_spec arr j w Hb ltac:(lia) ltac:(lia)) as HT.
    destruct (take_byte arr j w) as [arr1 l1]. destruct HT as [T1 T2]. intros Hlen Hjl.
    split; [eapply claimed_mono, T1; lia|by apply T2]. }
  destruct n as [|n].
  - destruct (find_not_full_spec arr 6 s) as (F1 & F2 & F3). cbv zeta in *.
    set (j := find_not_full arr 6 s) in *. destruct (Nat.eqb_spec j (s + 6)) as [E|E].
    { split; [by apply claimed_nil|]. intros _ _ k Hk. apply F2. lia. }
    specialize (Htake (length arr - 2)%nat j ltac:(lia) ltac:(lia) ltac:(apply F3; lia)).
    destruct (take_byte arr j w) as [arr1 l1]. destruct Htake as [T1 T2]; [lia|lia|].
    split; [exact T1|done].
  - pose proof (word_at_full arr s Hb ltac:(lia)) as Hword.
    destruct (Z.eqb_spec (word_at arr s) (2 ^ 64 - 1)) as [E|E].
    { apply Hword in E. specialize (IH (S i) w arr ltac:(lia) Hb Hw).
      destruct (AllocLoop (S n) (S i) w arr) as [arr' l]. destruct IH as [I1 I2].
      split; [eapply claimed_mono, I1; lia|]. intros Hl Hw'. eapply full_app, I2; [|done|done].
      intros k Hk. apply E. lia. }
    destruct (find_not_full_spec arr 8 s) as (F1 & F2 & F3). cbv zeta in *.
    set (j := find_not_full arr 8 s) in *. destruct (Nat.eqb_spec j (s + 8)) as [E'|E'].
    { exfalso. apply E, Hword. intros k Hk. apply F2. lia. }
    specialize (Htake (S i * 8)%nat j ltac:(lia) ltac:(lia) ltac:(apply F3; lia)).
    destruct (take_byte arr j w) as [arr1 l1]. destruct Htake as [T1 T2]; [lia|lia|].
    pose proof (cl_count _ _ _ _ _ _ T1). destruct (Z.eqb_spec (w - Z.of_nat (length l1)) 0).
    { split; [eapply claimed_mono, T1; lia|done]. }
    specialize (IH (S i) (w - Z.of_nat (length l1)) arr1).
    rewrite (cl_len _ _ _ _ _ _ T1) in IH. specialize (IH ltac:(lia) (cl_bytes _ _ _ _ _ _ T1) ltac:(lia)).
    destruct (AllocLoop (S n) (S i) _ arr1) as [arr' l]. destruct IH as [I1 _].
    split; [eapply claimed_app; [|exact T1|exact I1]; lia|].
    intros HE. apply app_eq_nil in HE as [? _]. done.
Qed.

(** *** Counting the free bits *)

Definition positions (n : nat) : list Z := seqZ 0 (8 * Z.of_nat n).

Lemma filter_ext_in {A} (P Q : A -> Prop) `{forall x, Decision (P x), forall x, Decision (Q x)} (l : list A) :
  (forall x : A, x ∈ l -> P x <-> Q x) -> filter P l = filter Q l.
Proof.
  induction l as [|x l IH]; intros H'; [done|]. rewrite !filter_cons.
  rewrite IH by (intros y Hy; apply H'; set_solver).
  destruct (H' x ltac:(set_solver)). repeat case_decide; tauto.
Qed.

Lemma length_filter_fmap {A B} (f : A -> B) (P : B -> Prop) `{forall x, Decision (P x)} (l : list A) :
  length (filter P (f <$> l)) = length (filter (fun x => P (f x)) l).
Proof.
  induction l as [|x l IH]; [done|]. rewrite fmap_cons, !filter_cons.
  case_decide; simpl; by rewrite IH.
Qed.

Lemma free_bits_count arr :
  free_bits arr = Z.of_nat (length (filter (fun k => bitZ arr k = false) (positions (length arr - 2)))).
Proof.
  unfold free_bits, positions. set (n := (length arr - 2)%nat).
  assert (n <= length arr)%nat as Hn by (unfold n; lia). clearbody n.
  induction n as [|n IH]; [done|]. destruct (lookup_lt_is_Some_2 arr n) as [a Ha]; [lia|].
  rewrite (take_S_r _ _ _ Ha), foldr_app. simpl foldr.
  assert (forall l z, foldr (fun a n => zeros a + n) z l = foldr (fun a n => zeros a + n) 0 l + z) as Hf.
  { induction l as [|x l IHl]; intros z; simpl; [lia|]. rewrite IHl. lia. }
  rewrite Hf, IH by lia.
  replace (8 * Z.of_nat (S n)) with (8 * Z.of_nat n + 8) by lia.
  rewrite seqZ_app by lia. rewrite filter_app, length_app, Nat2Z.inj_add. f_equal.
  rewrite Z.add_0_r. replace (0 + 8 * Z.of_nat n) with (8 * Z.of_nat n + 0) by lia.
  rewrite <- (fmap_add_seqZ (8 * Z.of_nat n) 0). rewrite length_filter_fmap.
  unfold zeros, zero_bits. do 2 f_equal. apply filter_ext_in.
  intros k Hk. apply elem_of_seqZ in Hk. unfold bitZ.
  rewrite (Z.mul_comm 8), Z.div_add_l, Z.div_small by lia.
  rewrite Z.add_0_r, Nat2Z.id, Z.add_comm, Z_mod_plus_full, Z.mod_small by lia.
  by rewrite (list_lookup_total_correct _ _ _ Ha).
Qed.

(** Every bit of [l] is set, so they are not among the free ones. *)
Lemma free_bits_bound arr l :
  NoDup l -> (forall k, k ∈ l -> 0 <= k < 8 * Z.of_nat (length arr - 2) /\ bitZ arr k = true) ->
  free_bits arr + Z.of_nat (length l) <= 8 * Z.of_nat (length arr - 2).
Proof.
  intros Hn Hl. rewrite free_bits_count. set (ps := positions _).
  assert (length (filter (fun k => bitZ arr k = false) ps ++ l) <= length ps)%nat as H.
  { apply submseteq_length, NoDup_submseteq.
    - apply NoDup_app. split_and!; [apply NoDup_filter, NoDup_seqZ| |done].
      intros k Hk Hk'. apply list_elem_of_filter in Hk as [Hk _]. destruct (Hl k Hk'). congruence.
    - intros k Hk. apply elem_of_app in Hk as [Hk|Hk]; [by apply list_elem_of_filter in Hk as [_ Hk]|].
      apply elem_of_seqZ. destruct (Hl k Hk). lia. }
  assert (length ps = Z.to_nat (8 * Z.of_nat (length arr - 2))) as E by apply length_seqZ.
  rewrite length_app in H. lia.
Qed.

(** *** The count at the end *)

Lemma put_count_length n arr : (2 <= length arr)%nat -> length (put_count n arr) = length arr.
Proof. intros H. unfold put_count. rewrite length_app, length_take. simpl. lia. Qed.

Lemma put_count_lookup n arr j :
  (S (S j) < length arr)%nat -> put_count n arr !!! j = arr !!! j.
Proof.
  intros H. unfold put_count. rewrite !list_lookup_total_alt, lookup_app_l by (rewrite length_take; lia).
  by rewrite lookup_take_lt by lia.
Qed.

Lemma put_count_bitZ n arr k :
  0 <= k < 8 * Z.of_nat (length arr - 2) -> bitZ (put_count n arr) k = bitZ arr k.
Proof.
  intros Hk. unfold bitZ. pose proof (Z.div_mod k 8). pose proof (Z.mod_pos_bound k 8).
  by rewrite put_count_lookup by lia.
Qed.

Lemma put_count_bytes n arr : 0 <= n < 2 ^ 16 -> Forall byte arr -> Forall byte (put_count n arr).
Proof.
  intros Hn Hb. unfold put_count. apply Forall_app. split; [by apply Forall_take|].
  pose proof (Z.div_lt_upper_bound n 256 256). pose proof (Z.div_pos n 256).
  pose proof (Z.mod_pos_bound n 256). repeat constructor; unfold byte; lia.
Qed.

Lemma put_count_free n arr : (2 <= length arr)%nat -> free_bits (put_count n arr) = free_bits arr.
Proof.
  intros Hl. unfold free_bits. rewrite put_count_length by done. unfold put_count.
  rewrite take_app_le by (rewrite length_take; lia). by rewrite take_take, Nat.min_id.
Qed.

Lemma get_put_count n arr : (2 <= length arr)%nat -> get_count (put_count n arr) = n.
Proof.
  intros Hl. unfold get_count. rewrite put_count_length by done. unfold put_count.
  rewrite drop_app_length' by (rewrite length_take; lia). pose proof (Z.div_mod n 256). lia.
Qed.

(** ** Lemmas: a block bitmap *)

Definition geom_ok (G : geometry) : Prop :=
  IsValidBlockSize (BLOCK_SIZE G) = STATUS_SUCCESS /\
  IsValidPageSize G (REGFS_PAGE_SIZE G) = STATUS_SUCCESS.

Lemma geom_cases G :
  geom_ok G -> (BLOCK_SIZE G, BLKBMP_BLKNUM G) ∈ [(512, 16); (1024, 8); (2048, 4); (4096, 2)].
Proof.
  intros [H _]. unfold IsValidBlockSize, BLKBMP_BLKNUM in *.
  destruct (Z.eqb_spec (BLOCK_SIZE G) 512) as [->|]; [set_solver|].
  destruct (Z.eqb_spec (BLOCK_SIZE G) 1024) as [->|]; [set_solver|].
  destruct (Z.eqb_spec (BLOCK_SIZE G) 2048) as [->|]; [set_solver|].
  destruct (Z.eqb_spec (BLOCK_SIZE G) 4096) as [->|]; [set_solver|done].
Qed.

Lemma geom_bounds G :
  geom_ok G -> 512 <= BLOCK_SIZE G <= 4096 /\ 2 <= BLKBMP_BLKNUM G <= 16 /\
    BLKBMP_BLKNUM G * BLOCK_SIZE G = BLKBMP_SIZE.
Proof.
  intros H. apply geom_cases in H. unfold BLKBMP_SIZE, BLOCKS_PER_GROUP_FULL, BYTE_BITS.
  change (64 * 1024 / 8) with 8192. set_unfold. naive_solver lia.
Qed.

(** A bitmap is in order: the count is that of its free bits, and the blocks of
    the bitmap itself are taken. *)
Record bmp_ok (G : geometry) (b : CBlockBitmap) : Prop := mkBmpOk {
  bo_len : length (m_arrBytes b) = Z.to_nat BLKBMP_SIZE;
  bo_bytes : Forall byte (m_arrBytes b);
  bo_count : m_wFreeCount b = free_bits (m_arrBytes b);
  bo_own : forall k, 0 <= k < BLKBMP_BLKNUM G -> bitZ (m_arrBytes b) k = true;
  bo_group : 0 <= m_dwGroupIdx b < 2 ^ 16;
}.

(** The free blocks of the group, by their block numbers. *)
Definition free_block (b : CBlockBitmap) (x : Z) : Prop :=
  exists k, x = block_no b k /\ 0 <= k < BLOCKS_PER_GROUP /\ bitZ (m_arrBytes b) k = false.

Lemma block_no_val b k :
  0 <= m_dwGroupIdx b < 2 ^ 16 -> 0 <= k < 2 ^ 16 -> block_no b k = m_dwGroupIdx b * 2 ^ 16 + k.
Proof.
  intros Hg Hk. unfold block_no. change GROUP_INDEX_SHIFT with 16.
  rewrite Z.shiftl_mul_pow2 by lia. rewrite u32_small by lia.
  rewrite Z.lor_comm, <- Z.lxor_lor, <- Z.add_nocarry_lxor; [lia| |];
    (apply Z.bits_inj'; intros n Hn; rewrite Z.land_spec, Z.bits_0;
     destruct (Z.lt_ge_cases n 16);
     [by rewrite (Z.mul_pow2_bits_low _ 16 n), andb_false_r by lia|]).
  - assert (Z.testbit k n = false) as ->; [|done]. destruct (Z.eq_dec k 0) as [->|]; [apply Z.bits_0|].
    apply Z.bits_above_log2; [lia|]. apply Z.lt_le_trans with 16; [apply Z.log2_lt_pow2; lia|done].
  - assert (Z.testbit k n = false) as ->; [|done]. destruct (Z.eq_dec k 0) as [->|]; [apply Z.bits_0|].
    apply Z.bits_above_log2; [lia|]. apply Z.lt_le_trans with 16; [apply Z.log2_lt_pow2; lia|done].
Qed.

Lemma block_no_mask b k :
  0 <= m_dwGroupIdx b < 2 ^ 16 -> 0 <= k < 2 ^ 16 -> Z.land (block_no b k) BLOCK_IDX_MASK = k.
Proof.
  intros Hg Hk. rewrite block_no_val by done. change BLOCK_IDX_MASK with (Z.ones 16).
  rewrite Z.land_ones, Z.add_comm, Z_mod_plus_full by lia. by apply Z.mod_small.
Qed.

Lemma bmp_range G b : bmp_ok G b -> 8 * Z.of_nat (length (m_arrBytes b) - 2) = BLOCKS_PER_GROUP.
Proof. intros [Hl _ _ _ _]. by rewrite Hl. Qed.

Lemma bmp_count_range G b : bmp_ok G b -> 0 <= m_wFreeCount b <= BLOCKS_PER_GROUP.
Proof.
  intros H. rewrite (bo_count _ _ H), <- (bmp_range _ _ H).
  pose proof (free_bits_bound (m_arrBytes b) []) as Hb. rewrite free_bits_count in *.
  simpl length in Hb. specialize (Hb ltac:(constructor) ltac:(set_solver)). lia.
Qed.

(** Nothing can be taken when the count is that of an empty group. *)
Lemma bmp_all_free G b k :
  geom_ok G -> bmp_ok G b -> m_wFreeCount b = AllFree G ->
  BLKBMP_BLKNUM G <= k < BLOCKS_PER_GROUP -> bitZ (m_arrBytes b) k = false.
Proof.
  intros HG H Hc Hk. pose proof (geom_bounds G HG) as (_ & HB & _).
  destruct (bitZ (m_arrBytes b) k) eqn:E; [|done]. exfalso.
  pose proof (free_bits_bound (m_arrBytes b) (k :: seqZ 0 (BLKBMP_BLKNUM G))) as Hb.
  rewrite (bmp_range _ _ H), <- (bo_count _ _ H), Hc in Hb. simpl length in Hb.
  rewrite length_seqZ in Hb. unfold AllFree in Hb. enough (BLOCKS_PER_GROUP + 1 <= BLOCKS_PER_GROUP) by lia.
  etrans; [|apply Hb].
  - lia.
  - constructor; [rewrite elem_of_seqZ; lia|apply NoDup_seqZ].
  - intros j Hj. apply elem_of_cons in Hj as [->|Hj]; [split; [lia|done]|].
    apply elem_of_seqZ in Hj. split; [unfold BLOCKS_PER_GROUP, BLOCKS_PER_GROUP_FULL, BLKGRP_GAP_BLKNUM, BYTE_BITS; lia|].
    apply (bo_own _ _ H). lia.
Qed.

Lemma list_empty_nil {A} (l : list A) : (forall x, x ∉ l) -> l = [].
Proof. destruct l as [|x l]; [done|]. intros H. exfalso. apply (H x). set_solver. Qed.

(** What an allocation does to the bitmap: [blks] were free and are taken now. *)
Record allocated (b b' : CBlockBitmap) (blks : list Z) : Prop := mkAllocated {
  al_group : m_dwGroupIdx b' = m_dwGroupIdx b;
  al_nodup : NoDup blks;
  al_in : forall x, x ∈ blks -> free_block b x;
  al_free : forall x, free_block b' x <-> free_block b x /\ (x ∉ blks);
  al_count : m_wFreeCount b' = m_wFreeCount b - Z.of_nat (length blks);
}.

Lemma bmp_len G b : bmp_ok G b -> Z.of_nat (length (m_arrBytes b)) = 8192.
Proof. intros H. by rewrite (bo_len _ _ H). Qed.

Lemma put_count_set G b arr n :
  bmp_ok G b -> length arr = length (m_arrBytes b) -> Forall byte arr -> n = free_bits arr ->
  0 <= n < 2 ^ 16 -> (forall k, 0 <= k < BLKBMP_BLKNUM G -> bitZ arr k = true) ->
  geom_ok G ->
  bmp_ok G (set_bytes arr n b) /\ bmp_ok G (set_bytes (put_count n arr) n b).
Proof.
  intros H Hl Hb Hn Hr Hown HG. pose proof (bmp_len _ _ H) as Hlen.
  pose proof (geom_bounds G HG) as (_ & HB & _).
  split; split; simpl; try done; try (rewrite ?Hl; apply H).
  - rewrite put_count_length, Hl by lia. apply H.
  - by apply put_count_bytes.
  - rewrite put_count_free by lia. done.
  - intros k Hk. rewrite put_count_bitZ by lia. by apply Hown.
Qed.

Lemma AllocBlocks_ok G b n b' ret blks ws :
  geom_ok G -> bmp_ok G b -> 0 < n -> AllocBlocks G n b = (b', ret, blks, ws) ->
  bmp_ok G b' /\ allocated b b' blks /\ Z.of_nat (length blks) <= n /\
  (m_wFreeCount b = 0 /\ ret = - ENOMEM /\ blks = [] \/
   m_wFreeCount b <> 0 /\ ret = STATUS_SUCCESS /\ Z.of_nat (length blks) = n \/
   m_wFreeCount b <> 0 /\ ret = STATUS_MORE_PROCESS_NEEDED /\ 0 < Z.of_nat (length blks) < n).
Proof.
  intros HG H Hn. unfold AllocBlocks. destruct (Z.eqb_spec n 0); [lia|].
  destruct (Z.eqb_spec (m_wFreeCount b) 0) as [E0|E0].
  { intros [= <- <- <- <-]. split_and!; [done| |simpl; lia|by left].
    split; [done|constructor|set_solver|set_solver|simpl; lia]. }
  pose proof (bmp_len _ _ H) as Hlen.
  pose proof (AllocLoop_spec (Z.to_nat BLKBMP_SIZE / 8) 0 n (m_arrBytes b)) as HA.
  destruct (AllocLoop _ _ _ _) as [arr idxs].
  destruct HA as [[A1 A2 A3 A4 A5 A6 A7] A8]; [rewrite (bo_len _ _ H); reflexivity|apply H|lia|].
  pose proof (bo_count _ _ H) as Hc. pose proof (bmp_range _ _ H) as Hr.
  pose proof (bmp_count_range _ _ H) as Hcr.
  assert (BLOCKS_PER_GROUP = 65520) as EB by done.
  assert (0 <= free_bits arr) as Hfr by (rewrite free_bits_count; lia).
  destruct (Z.ltb_spec (m_wFreeCount b) (Z.of_nat (length idxs))); [lia|].
  set (c := m_wFreeCount b - _). set (safe := (_ && _)%bool).
  assert (Hk : forall k, k ∈ idxs -> 0 <= k < BLOCKS_PER_GROUP) by (intros k Hk; apply A4 in Hk; lia).
  destruct (put_count_set G b arr c) as [P1 P2]; [done|done|done|unfold c; lia|unfold c; lia| |done|].
  { intros k Hk'. rewrite A5, (bo_own _ _ H) by lia. done. }
  set (b1 := set_bytes (if safe then _ else _) c b).
  assert (bmp_ok G b1) as Hb1 by (unfold b1; by destruct safe).
  assert (Hbit : forall k, 0 <= k < BLOCKS_PER_GROUP ->
    bitZ (m_arrBytes b1) k = bitZ (m_arrBytes b) k || bool_decide (k ∈ idxs)).
  { intros k Hk'. rewrite <- A5 by lia. unfold b1. destruct safe; [|done]. simpl.
    apply put_count_bitZ. rewrite A1. lia. }
  assert (Hno : forall k, 0 <= k < BLOCKS_PER_GROUP -> block_no b1 k = block_no b k) by done.
  intros [= <- <- <- <-]. rewrite length_map. split_and!; [done| |lia|].
  - split.
    + done.
    + apply NoDup_fmap_2_strong; [|done]. intros x y Hx Hy E. apply Hk in Hx, Hy.
      rewrite !block_no_val in E by (apply H || lia). lia.
    + intros x Hx. apply list_elem_of_fmap in Hx as (k & -> & Hx). exists k.
      split_and!; [done|by apply Hk|by apply Hk|by apply A4].
    + intros x. split.
      * intros (k & -> & Hk' & Hf). rewrite Hbit in Hf by done.
        apply orb_false_iff in Hf as [Hf1 Hf2]. split; [by exists k|].
        intros Hx. apply list_elem_of_fmap in Hx as (k2 & E & Hx). change (block_no b1 k) with (block_no b k) in E.
        pose proof (Hk _ Hx). rewrite !block_no_val in E by (apply H || lia).
        assert (k = k2) as -> by lia. by rewrite bool_decide_true in Hf2.
      * intros [(k & -> & Hk' & Hf) Hx]. exists k. split_and!; [done|lia|lia|].
        rewrite Hbit, Hf by done. apply bool_decide_false. intros Hin. apply Hx.
        apply list_elem_of_fmap. by exists k.
    + rewrite length_map. done.
  - right. destruct (Z.eqb_spec (Z.of_nat (length idxs)) n); [by left|right].
    split_and!; [done|done| |lia]. destruct idxs as [|x idxs]; [|simpl; lia]. exfalso.
    specialize (A8 eq_refl ltac:(lia)). apply E0. rewrite Hc, free_bits_count.
    assert (filter (fun k => bitZ (m_arrBytes b) k = false) (positions (length (m_arrBytes b) - 2)) = []) as ->; [|done].
    apply list_empty_nil. intros k Hk'. apply list_elem_of_filter in Hk' as [Hf Hk'].
    apply elem_of_seqZ in Hk'. by rewrite (full_bits _ _ _ k (bo_bytes _ _ H) A8) in Hf by lia.
Qed.

(** *** Giving blocks back *)

(** Clearing the bit [k], which is set. *)
Lemma clear_bit arr k :
  Forall byte arr -> 0 <= k < 8 * Z.of_nat (length arr - 2) -> bitZ arr k = true ->
  let j := Z.to_nat (k / 8) in
  let arr' := <[j := Z.ldiff (arr !!! j) (2 ^ (k mod 8))]> arr in
  Forall byte arr' /\ length arr' = length arr /\ free_bits arr' = free_bits arr + 1 /\
  arr !!! j <> 0 /\
  (forall i, 0 <= i -> bitZ arr' i = bitZ arr i && negb (i =? k)).
Proof.
  intros Hb Hk Hs j arr'. pose proof (Z.div_mod k 8). pose proof (Z.mod_pos_bound k 8).
  assert (S (S j) < length arr)%nat as Hj by (unfold j; lia).
  pose proof (bytes_lookup arr j Hb) as Ha. unfold bitZ in Hs. fold j in Hs.
  split_and!; [by apply bytes_insert, byte_ldiff|apply length_insert| | |].
  - unfold arr'. rewrite free_bits_insert by done.
    rewrite (zeros_set (Z.ldiff (arr !!! j) (2 ^ (k mod 8))) (arr !!! j) [k mod 8]); [simpl; lia| | |].
    + apply NoDup_singleton.
    + intros i Hi. apply list_elem_of_singleton in Hi as ->. apply elem_of_zero_bits.
      rewrite testbit_ldiff_bit, Z.eqb_refl, andb_false_r by lia. split; [done|lia].
    + intros i Hi. rewrite testbit_ldiff_bit by lia.
      destruct (Z.eqb_spec i (k mod 8)) as [->|]; [by rewrite Hs, bool_decide_true by set_solver|].
      by rewrite andb_true_r, bool_decide_false, orb_false_r by set_solver.
  - intros E. by rewrite E, Z.bits_0 in Hs.
  - intros i Hi. unfold arr'. rewrite bitZ_insert by lia. pose proof (Z.div_mod i 8).
    pose proof (Z.mod_pos_bound i 8). destruct (Z.eqb_spec (i / 8) (Z.of_nat j)) as [E|E].
    + rewrite testbit_ldiff_bit by lia. unfold bitZ. rewrite E, Nat2Z.id. f_equal. f_equal.
      destruct (Z.eqb_spec (i mod 8) (k mod 8)), (Z.eqb_spec i k); unfold j in *; try done; lia.
    + destruct (Z.eqb_spec i k) as [->|]; [unfold j in *; lia|]. by rewrite andb_true_r.
Qed.

Definition blk_idx (x : Z) : Z := Z.land x BLOCK_IDX_MASK.

Lemma FreeLoop_step x l arr n :
  Forall byte arr -> Z.of_nat (length arr) = 8192 -> 0 < blk_idx x < BLOCKS_PER_GROUP ->
  bitZ arr (blk_idx x) = true ->
  let j := Z.to_nat (blk_idx x / 8) in
  let arr' := <[j := Z.ldiff (arr !!! j) (2 ^ (blk_idx x mod 8))]> arr in
  FreeLoop (x :: l) arr n =
    (let '(a, w, idxs) := FreeLoop l arr' (u16 (n + 1)) in (a, w, blk_idx x :: idxs)).
Proof.
  intros Hb Hl Hx Hs j arr'. assert (BLOCKS_PER_GROUP = 65520) as EB by done.
  cbn [FreeLoop]. fold (blk_idx x). destruct (Z.eqb_spec (blk_idx x) 0); [lia|].
  unfold BYTE_BITS. change (find_shift 8) with 3. rewrite Z.shiftr_div_pow2 by lia.
  change (2 ^ 3) with 8. change (8 - 1) with (Z.ones 3). rewrite Z.land_ones by lia.
  change (2 ^ 3) with 8. fold j. pose proof (Z.mod_pos_bound (blk_idx x) 8).
  rewrite Z.shiftl_1_l. assert (u8 (2 ^ (blk_idx x mod 8)) = 2 ^ (blk_idx x mod 8)) as ->.
  { apply uN_small. split; [apply Z.pow_nonneg; lia|]. apply Z.pow_lt_mono_r; lia. }
  destruct (Z.eqb_spec (arr !!! j) 0) as [E|]; [|done].
  unfold bitZ in Hs. fold j in Hs. by rewrite E, Z.bits_0 in Hs.
Qed.

Lemma FreeLoop_ok l arr n :
  Forall byte arr -> Z.of_nat (length arr) = 8192 -> n = free_bits arr ->
  NoDup (map blk_idx l) ->
  (forall x, x ∈ l -> 0 < blk_idx x < BLOCKS_PER_GROUP /\ bitZ arr (blk_idx x) = true) ->
  let '(arr', n', idxs) := FreeLoop l arr n in
  Forall byte arr' /\ length arr' = length arr /\ n' = free_bits arr' /\ idxs = map blk_idx l /\
  n' = n + Z.of_nat (length l) /\
  (forall k, 0 <= k -> bitZ arr' k = bitZ arr k && negb (bool_decide (k ∈ idxs))).
Proof.
  revert arr n. induction l as [|x l IH]; intros arr n Hb Hl Hn Hnd Hin.
  { simpl. split_and!; [done|done|done|done|lia|]. intros k _. by rewrite andb_true_r. }
  assert (BLOCKS_PER_GROUP = 65520) as EB by done.
  destruct (Hin x ltac:(set_solver)) as [Hx Hs]. rewrite FreeLoop_step by done.
  destruct (clear_bit arr (blk_idx x) Hb ltac:(lia) Hs) as (C1 & C2 & C3 & _ & C5).
  cbv zeta in C1, C2, C3, C5. set (arr1 := <[_ := _]> arr) in *.
  apply NoDup_cons in Hnd as [Hx' Hnd].
  assert (n + 1 < 2 ^ 16) as Hw.
  { pose proof (free_bits_bound arr [blk_idx x] ltac:(apply NoDup_singleton)) as Hf.
    simpl length in Hf. specialize (Hf ltac:(intros k Hk; apply list_elem_of_singleton in Hk as ->; split; [lia|done])).
    lia. }
  assert (0 <= n) by (rewrite Hn, free_bits_count; lia).
  unfold u16. rewrite (uN_small 16) by lia.
  specialize (IH arr1 (n + 1) C1 ltac:(congruence) ltac:(congruence) Hnd).
  destruct (FreeLoop l arr1 (n + 1)) as [[arr' n'] idxs].
  destruct IH as (I1 & I2 & I3 & I4 & I5 & I6).
  { intros y Hy. destruct (Hin y ltac:(set_solver)) as [Hy1 Hy2]. split; [done|].
    rewrite C5, Hy2 by lia. destruct (Z.eqb_spec (blk_idx y) (blk_idx x)) as [E|]; [|done].
    exfalso. apply Hx'. rewrite <- E. by apply list_elem_of_fmap_2. }
  split_and!; [done|congruence|done|by rewrite I4|simpl; lia|].
  intros k Hk. rewrite I6, C5 by done. rewrite <- andb_assoc. f_equal. rewrite <- negb_orb. f_equal.
  destruct (Z.eqb_spec k (blk_idx x)) as [->|]; simpl; repeat case_bool_decide; set_solver.
Qed.

(** Taken blocks of the group that are all different: they are free afterwards. *)
Definition taken_blocks (G : geometry) (b : CBlockBitmap) (blks : list Z) : Prop :=
  NoDup (map blk_idx blks) /\
  forall x, x ∈ blks -> BLKBMP_BLKNUM G <= blk_idx x < BLOCKS_PER_GROUP /\
    x = block_no b (blk_idx x) /\ bitZ (m_arrBytes b) (blk_idx x) = true.

Lemma FreeBlocks_ok G b blks b' ret ws :
  geom_ok G -> bmp_ok G b -> blks <> [] -> taken_blocks G b blks ->
  FreeBlocks G blks b = (b', ret, ws) ->
  bmp_ok G b' /\ ret = STATUS_SUCCESS /\ m_dwGroupIdx b' = m_dwGroupIdx b /\
  m_wFreeCount b' = m_wFreeCount b + Z.of_nat (length blks) /\
  (forall k, 0 <= k < BLOCKS_PER_GROUP ->
     bitZ (m_arrBytes b') k = bitZ (m_arrBytes b) k && negb (bool_decide (k ∈ map blk_idx blks))).
Proof.
  intros HG H Hne [Hnd Hin]. unfold FreeBlocks. destruct blks as [|x l] eqn:Ebl; [done|].
  rewrite <- Ebl in *. clear Hne. pose proof (geom_bounds G HG) as (_ & HB & _).
  assert (BLOCKS_PER_GROUP = 65520) as EB by done. pose proof (bmp_len _ _ H) as Hlen.
  destruct (Z.eqb_spec (m_wFreeCount b) (AllFree G)) as [E|_].
  { exfalso. destruct (Hin x) as (Hx & _ & Hs); [rewrite Ebl; set_solver|].
    by rewrite (bmp_all_free G b (blk_idx x)) in Hs. }
  pose proof (FreeLoop_ok blks (m_arrBytes b) (m_wFreeCount b) (bo_bytes _ _ H) Hlen (bo_count _ _ H) Hnd) as HF.
  destruct (FreeLoop _ _ _) as [[arr n] idxs]. destruct HF as (F1 & F2 & F3 & F4 & F5 & F6).
  { intros y Hy. destruct (Hin y Hy) as (Hy1 & _ & Hy2). split; [lia|done]. }
  assert (Hown : forall k, 0 <= k < BLKBMP_BLKNUM G -> bitZ arr k = true).
  { intros k Hk. rewrite F6, (bo_own _ _ H) by lia. rewrite F4, bool_decide_false; [done|].
    intros Hin'. apply list_elem_of_fmap in Hin' as (y & -> & Hy). destruct (Hin y Hy). lia. }
  assert (n <= BLOCKS_PER_GROUP) as Hn.
  { pose proof (free_bits_bound arr [] ltac:(constructor) ltac:(set_solver)) as Hf. simpl length in Hf.
    rewrite F2 in Hf. lia. }
  assert (0 <= n) by (rewrite F3, free_bits_count; lia).
  destruct (put_count_set G b arr n) as [P1 P2]; [done|done|done|done|lia|done|done|].
  set (safe := (_ && _)%bool). intros [= <- <- <-]. split_and!; [by destruct safe|done|done|done|].
  intros k Hk. rewrite <- F4, <- F6 by lia. destruct safe; [|done]. simpl. apply put_count_bitZ. lia.
Qed.

(** An allocation can be undone. *)
Lemma allocated_taken G b b' blks :
  geom_ok G -> bmp_ok G b -> bmp_ok G b' -> allocated b b' blks -> taken_blocks G b' blks.
Proof.
  intros HG H H' [A1 A2 A3 A4 A5]. pose proof (geom_bounds G HG) as (_ & HB & _).
  assert (BLOCKS_PER_GROUP = 65520) as EB by done.
  assert (Hx : forall x, x ∈ blks -> x = block_no b (blk_idx x) /\
    BLKBMP_BLKNUM G <= blk_idx x < BLOCKS_PER_GROUP).
  { intros x Hx. destruct (A3 x Hx) as (k & -> & Hk & Hf).
    unfold blk_idx. rewrite block_no_mask by (apply H || lia). split; [done|].
    split; [|lia]. destruct (Z.lt_ge_cases k (BLKBMP_BLKNUM G)); [|done].
    rewrite (bo_own _ _ H) in Hf by lia. done. }
  split.
  - apply NoDup_fmap_2_strong; [|done]. intros x y Hx1 Hy E.
    destruct (Hx x Hx1) as [-> _], (Hx y Hy) as [-> _]. by rewrite E.
  - intros x Hx1. destruct (Hx x Hx1) as [E Hr]. split_and!; [lia|lia| |].
    + rewrite E at 1. unfold block_no. by rewrite A1.
    + destruct (bitZ (m_arrBytes b') (blk_idx x)) eqn:Eb; [done|]. exfalso.
      enough (free_block b' x) as Hf by (apply A4 in Hf as [_ Hf]; done).
      exists (blk_idx x). split_and!; [|lia|lia|done]. rewrite E at 1. unfold block_no. by rewrite A1.
Qed.

(** *** A new bitmap *)

Definition NewBitmap (dwGrpIdx : Z) : CBlockBitmap := mkBlkBmp [] 0 dwGrpIdx.

Lemma InitBitmap_ok G dwGrpIdx :
  geom_ok G -> 0 <= dwGrpIdx < 2 ^ 16 ->
  let b := InitBitmap G (NewBitmap dwGrpIdx) in
  bmp_ok G b /\ m_wFreeCount b = AllFree G /\ get_count (m_arrBytes b) = AllFree G.
Proof.
  intros HG Hg b. pose proof (geom_cases G HG) as Hc.
  assert ((length (m_arrBytes b) =? Z.to_nat BLKBMP_SIZE)%nat &&
    forallb (fun a => (0 <=? a) && (a <? 256)) (m_arrBytes b) &&
    (m_wFreeCount b =? free_bits (m_arrBytes b)) &&
    forallb (bitZ (m_arrBytes b)) (seqZ 0 (BLKBMP_BLKNUM G)) &&
    (get_count (m_arrBytes b) =? AllFree G) = true)%bool as H.
  { unfold b, InitBitmap, AllFree, NewBitmap, set_bytes. cbn [m_arrBytes m_wFreeCount m_dwGroupIdx].
    rewrite !elem_of_cons in Hc. destruct Hc as [E|[E|[E|[E|Hc]]]]; [..|by apply not_elem_of_nil in Hc];
      injection E as _ ->; vm_compute; reflexivity. }
  zify_bools. split_and!; [|done|done]. split; [by apply Nat.eqb_eq| |done| |done].
  - apply Forall_forall. intros a Ha. match goal with H : forallb _ (m_arrBytes b) = true |- _ =>
      rewrite forallb_forall in H; specialize (H a); rewrite <- list_elem_of_In in H; specialize (H Ha) end.
    zify_bools. by split.
  - intros k Hk. match goal with H : forallb (bitZ _) _ = true |- _ =>
      rewrite forallb_forall in H; apply H end. apply list_elem_of_In, elem_of_seqZ. lia.
Qed.

(** *** What is on the disk *)

Definition sub_block (G : geometry) (arr : list Z) (i : Z) : list Z :=
  firstn (Z.to_nat (BLOCK_SIZE G)) (skipn (Z.to_nat (i * BLOCK_SIZE G)) arr).

(** The disk has the bitmap. *)
Definition shown (G : geometry) (disk : Z -> list Z) (b : CBlockBitmap) : Prop :=
  forall i, 0 <= i < BLKBMP_BLKNUM G -> disk (block_no b i) = sub_block G (m_arrBytes b) i.

Definition apply_writes (ws : list (Z * list Z)) (disk : Z -> list Z) : Z -> list Z :=
  foldl (fun d w => fun x => if x =? w.1 then w.2 else d x) disk ws.

Lemma apply_writes_spec ws disk x v :
  ((x, v) ∈ ws -> (forall w, (x, w) ∈ ws -> w = v) -> apply_writes ws disk x = v) /\
  ((forall w, (x, w) ∉ ws) -> apply_writes ws disk x = disk x).
Proof.
  induction ws as [|[y w] ws IH] using rev_ind; [split; [set_solver|done]|].
  unfold apply_writes in *. rewrite foldl_app. simpl. destruct IH as [I1 I2]. split.
  - intros Hin Hu. destruct (Z.eqb_spec x y) as [->|Hne].
    + apply Hu. set_solver.
    + apply I1; [set_solver|]. intros w' Hw'. apply Hu. set_solver.
  - intros Hn. destruct (Z.eqb_spec x y) as [->|Hne]; [exfalso; apply (Hn w); set_solver|].
    apply I2. intros w' Hw'. apply (Hn w'). set_solver.
Qed.

Lemma byte_ext a c : byte a -> byte c -> (forall k, 0 <= k < 8 -> Z.testbit a k = Z.testbit c k) -> a = c.
Proof.
  rewrite !byte_bits. intros [_ Ha] [_ Hc] H. apply Z.bits_inj'. intros k Hk.
  destruct (Z.lt_ge_cases k 8); [by apply H|by rewrite Ha, Hc].
Qed.

Lemma bytes_same arr arr' j :
  Forall byte arr -> Forall byte arr' ->
  (forall k, k / 8 = Z.of_nat j -> bitZ arr' k = bitZ arr k) -> arr' !!! j = arr !!! j.
Proof.
  intros Hb Hb' H. apply byte_ext; [by apply bytes_lookup|by apply bytes_lookup|]. intros k Hk.
  specialize (H (Z.of_nat j * 8 + k)). unfold bitZ in H.
  rewrite Z.div_add_l, Z.div_small in H by lia. rewrite (Z.add_comm _ k), Z_mod_plus_full in H.
  rewrite (Z.mod_small k) in H by lia. rewrite Z.add_0_r, Nat2Z.id in H. by apply H.
Qed.

(** Every block of the bitmap that has changed is written. *)
Lemma dirty_shown G b b' idxs disk :
  geom_ok G -> Z.of_nat (length (m_arrBytes b)) = 8192 -> Z.of_nat (length (m_arrBytes b')) = 8192 ->
  Forall byte (m_arrBytes b) -> Forall byte (m_arrBytes b') ->
  m_dwGroupIdx b' = m_dwGroupIdx b -> 0 <= m_dwGroupIdx b < 2 ^ 16 ->
  (forall k, 0 <= k < BLOCKS_PER_GROUP -> (k ∉ idxs) -> bitZ (m_arrBytes b') k = bitZ (m_arrBytes b) k) ->
  shown G disk b -> shown G (apply_writes (dirty_writes G idxs b') disk) b'.
Proof.
  intros HG Hl Hl' Hb Hb' Hg Hgr Hbit Hsh i Hi. pose proof (geom_bounds G HG) as (HS & HB & HM).
  unfold BLKBMP_SIZE in HM. change (BLOCKS_PER_GROUP_FULL / BYTE_BITS) with 8192 in HM.
  set (bs := BLOCK_SIZE G) in *.
  assert (Hinj : forall i', 0 <= i' < BLKBMP_BLKNUM G -> block_no b' i' = block_no b' i -> i' = i).
  { intros i' Hi' E. rewrite !block_no_val in E by lia. lia. }
  set (ws := dirty_writes G idxs b').
  assert (Hws : forall v, (block_no b' i, v) ∈ ws <->
    v = sub_block G (m_arrBytes b') i /\
    (i = BLKBMP_BLKNUM G - 1 \/ Exists (fun k => k / (bs * BYTE_BITS) = i) idxs)).
  { intros v. unfold ws, dirty_writes. rewrite list_elem_of_fmap. split.
    - intros (i' & E & Hi'). apply list_elem_of_filter in Hi' as [Hd Hi']. apply elem_of_seqZ in Hi'.
      injection E as E ->. symmetry in E. apply Hinj in E as ->; [done|lia].
    - intros [-> Hd]. exists i. split; [done|]. apply list_elem_of_filter. split; [done|].
      apply elem_of_seqZ. lia. }
  pose proof (apply_writes_spec ws disk (block_no b' i) (sub_block G (m_arrBytes b') i)) as [A1 A2].
  destruct (decide (i = BLKBMP_BLKNUM G - 1 \/ Exists (fun k => k / (bs * BYTE_BITS) = i) idxs)) as [Hd|Hd].
  { apply A1; [by apply Hws|]. intros w Hw. by apply Hws in Hw as [Hw _]. }
  rewrite A2 by (intros w Hw; apply Hws in Hw as [_ Hw]; done).
  assert (block_no b' i = block_no b i) as -> by (unfold block_no; by rewrite Hg).
  rewrite (Hsh i Hi). unfold sub_block. fold bs.
  apply list_eq. intros n. destruct (decide (n < Z.to_nat bs)%nat) as [Hn|Hn].
  2: { rewrite !lookup_take_ge by lia. done. }
  rewrite !lookup_take_lt, !lookup_drop by done. set (j := (Z.to_nat (i * bs) + n)%nat).
  assert (Z.of_nat j = i * bs + Z.of_nat n) as Hj by (unfold j; lia).
  assert (i <= BLKBMP_BLKNUM G - 2) as Hi2 by (destruct (Z.eq_dec i (BLKBMP_BLKNUM G - 1)); [tauto|lia]).
  assert (Z.of_nat j < 8190) as Hj2 by nia.
  assert (m_arrBytes b' !!! j = m_arrBytes b !!! j) as E.
  { apply bytes_same; [done|done|]. intros k Hk. pose proof (Z.div_mod k 8). pose proof (Z.mod_pos_bound k 8).
    apply Hbit; [unfold BLOCKS_PER_GROUP, BLOCKS_PER_GROUP_FULL, BLKGRP_GAP_BLKNUM, BYTE_BITS; lia|].
    intros Hin. apply Hd. right. apply Exists_exists. exists k. split; [done|].
    unfold BYTE_BITS. rewrite (Z.mul_comm bs), <- Z.div_div, Hk, Hj by lia.
    rewrite Z.div_add_l, Z.div_small by lia. lia. }
  destruct (lookup_lt_is_Some_2 (m_arrBytes b) j) as [a Ha]; [lia|].
  destruct (lookup_lt_is_Some_2 (m_arrBytes b') j) as [a' Ha']; [lia|].
  rewrite (list_lookup_total_correct _ _ _ Ha), (list_lookup_total_correct _ _ _ Ha') in E. congruence.
Qed.

(** [Reload] reads the blocks of the bitmap. *)
Definition disk_bytes (G : geometry) (disk : Z -> list Z) (b : CBlockBitmap) : list Z :=
  concat (map (fun i => disk (block_no b i)) (seqZ 0 (BLKBMP_BLKNUM G))).

Lemma shown_bytes G disk b :
  geom_ok G -> Z.of_nat (length (m_arrBytes b)) = 8192 -> shown G disk b ->
  disk_bytes G disk b = m_arrBytes b.
Proof.
  intros HG Hl Hsh. pose proof (geom_bounds G HG) as (HS & HB & HM). unfold BLKBMP_SIZE in HM.
  change (BLOCKS_PER_GROUP_FULL / BYTE_BITS) with 8192 in HM. unfold disk_bytes.
  assert (forall n, Z.of_nat n <= BLKBMP_BLKNUM G ->
    concat (map (fun i => disk (block_no b i)) (seqZ 0 (Z.of_nat n))) =
    firstn (Z.to_nat (Z.of_nat n * BLOCK_SIZE G)) (m_arrBytes b)) as H.
  { induction n as [|n IH]; intros Hn; [done|]. rewrite seqZ_S, map_app, concat_app, IH by lia. simpl.
    rewrite app_nil_r, Hsh by lia. unfold sub_block.
    replace (Z.to_nat (Z.of_nat (S n) * BLOCK_SIZE G))
      with (Z.to_nat (Z.of_nat n * BLOCK_SIZE G) + Z.to_nat (BLOCK_SIZE G))%nat by lia.
    by rewrite take_take_drop. }
  specialize (H (Z.to_nat (BLKBMP_BLKNUM G))). rewrite Z2Nat.id in H by lia. rewrite H by lia.
  apply take_ge. lia.
Qed.

(** What the disk and the memory agree on between the operations of safe mode. *)
Record saved (G : geometry) (disk : Z -> list Z) (b : CBlockBitmap) : Prop := mkSaved {
  sv_len : Z.of_nat (length (m_arrBytes b)) = 8192;
  sv_bytes : Forall byte (m_arrBytes b);
  sv_group : 0 <= m_dwGroupIdx b < 2 ^ 16;
  sv_range : 0 <= m_wFreeCount b < 2 ^ 16;
  sv_count : get_count (m_arrBytes b) = m_wFreeCount b;
  sv_shown : shown G disk b;
}.

Lemma saved_reload G disk b :
  geom_ok G -> saved G disk b -> ReloadBitmap (disk_bytes G disk b) b = b.
Proof.
  intros HG [S1 S2 S3 S4 S5 S6]. rewrite shown_bytes by done. unfold ReloadBitmap. rewrite S5. by destruct b.
Qed.

Lemma saved_writes G disk b arr n idxs :
  geom_ok G -> saved G disk b -> length arr = length (m_arrBytes b) -> Forall byte arr -> 0 <= n < 2 ^ 16 ->
  (forall k, 0 <= k < BLOCKS_PER_GROUP -> (k ∉ idxs) -> bitZ arr k = bitZ (m_arrBytes b) k) ->
  let b' := set_bytes (put_count n arr) n b in
  saved G (apply_writes (dirty_writes G idxs b') disk) b'.
Proof.
  intros HG [S1 S2 S3 S4 S5 S6] Hl Hb Hn Hbit b'.
  assert (Z.of_nat (length (m_arrBytes b')) = 8192) as Hl'.
  { unfold b'. simpl. rewrite put_count_length by lia. lia. }
  assert (Forall byte (m_arrBytes b')) as Hb' by (by apply put_count_bytes).
  split; [done|done|done|done|apply get_put_count; lia|].
  eapply (dirty_shown G b b'); [done..| |done].
  intros k Hk Hin. rewrite <- Hbit by done. apply put_count_bitZ.
  assert (BLOCKS_PER_GROUP = 65520) by done. lia.
Qed.

(** ** Lemmas: a group bitmap *)

Lemma first_zero_take n j bit a :
  take_bits n j bit a 1 =
  match first_zero n j bit a with Some (k, a') => (a', [k]) | None => (a, []) end.
Proof.
  revert j bit. induction n as [|n IH]; intros j bit; cbn [take_bits first_zero]; [done|].
  destruct (_ =? 0); [done|apply IH].
Qed.

Lemma take_byte_one arr j :
  take_byte arr j 1 =
  match first_zero 8 0 1 (arr !!! j) with
  | Some (k, a) => (<[j := a]> arr, [Z.of_nat j * BYTE_BITS + k])
  | None => (<[j := arr !!! j]> arr, [])
  end.
Proof. unfold take_byte. rewrite first_zero_take. by destruct (first_zero _ _ _ _) as [[k a]|]. Qed.

(** The search for a group is the search for one block. *)
Lemma GroupLoop_AllocLoop n i arr :
  ((i + n) * 8 = length arr)%nat -> Forall byte arr ->
  GroupLoop n i arr =
  match AllocLoop n i 1 arr with (arr', [k]) => Some (k, arr') | _ => None end.
Proof.
  revert i. induction n as [|n IH]; intros i Hn Hb; [done|].
  cbn [GroupLoop AllocLoop]. set (s := (i * 8)%nat). destruct (Z.leb_spec 1 0); [lia|].
  assert (Hone : forall j, (S (S j) < length arr)%nat -> arr !!! j <> UCHAR_MAX ->
    exists k a, first_zero 8 0 1 (arr !!! j) = Some (k, a)).
  { intros j Hj Hne. pose proof (take_byte_spec arr j 1 Hb Hj ltac:(lia)) as HT.
    rewrite take_byte_one in HT. destruct (first_zero _ _ _ _) as [[k a]|]; [by exists k, a|].
    destruct HT as [_ HT]. by apply HT in Hne. }
  destruct n as [|n].
  - destruct (find_not_full_spec arr 6 s) as (F1 & F2 & F3). cbv zeta in *.
    set (j := find_not_full arr 6 s) in *. destruct (Nat.eqb_spec j (s + 6)) as [E|E]; [done|].
    rewrite take_byte_one. destruct (Hone j) as (k & a & ->); [lia|apply F3; lia|done].
  - destruct (word_at arr s =? _); [apply IH; [lia|done]|].
    destruct (find_not_full_spec arr 8 s) as (F1 & F2 & F3). cbv zeta in *.
    set (j := find_not_full arr 8 s) in *. destruct (Nat.eqb_spec j (s + 8)) as [E|E]; [done|].
    rewrite take_byte_one. destruct (Hone j) as (k & a & ->); [lia|apply F3; lia|done].
Qed.

Record grp_ok (G : geometry) (g : CGroupBitmap) : Prop := mkGrpOk {
  go_len : Z.of_nat (length (g_arrBytes g)) = GRPBMP_SIZE G;
  go_bytes : Forall byte (g_arrBytes g);
  go_count : g_wFreeCount g = free_bits (g_arrBytes g);
}.

(** There are at most [2 ^ 16] groups, and at least [2 ^ 10]. *)
Lemma group_bounds G :
  geom_ok G -> exists m, 128 <= 8 * m /\ GRPBMP_SIZE G = 8 * m /\
    BLKGRP_NUMBER G = 8 * (8 * m - 2) /\ BLKGRP_NUMBER G <= BLOCKS_PER_GROUP.
Proof.
  intros HG. pose proof HG as [_ HP]. unfold IsValidPageSize in HP. fold (GROUP_SHIFT G) in HP.
  assert (9 <= BLOCK_SHIFT G) as HB.
  { apply geom_cases in HG. unfold BLOCK_SHIFT. rewrite !elem_of_cons in HG.
    destruct HG as [E|[E|[E|[E|HG]]]]; [..|by apply not_elem_of_nil in HG];
      injection E as -> _; vm_compute; discriminate. }
  destruct (Z.leb_spec (GROUP_SHIFT G) (BLOCK_SHIFT G)); [done|].
  destruct (Z.ltb_spec 16 (GROUP_SHIFT G)); [done|].
  unfold GRPBMP_SIZE, BLKGRP_NUMBER, BLKGRP_NUMBER_FULL, BYTE_BITS. rewrite Z.shiftl_1_l.
  exists (2 ^ (GROUP_SHIFT G - 6)).
  assert (2 ^ GROUP_SHIFT G = 64 * 2 ^ (GROUP_SHIFT G - 6)) as ->.
  { change 64 with (2 ^ 6). rewrite <- Z.pow_add_r by lia. f_equal. lia. }
  assert (2 ^ 4 <= 2 ^ (GROUP_SHIFT G - 6)) by (apply Z.pow_le_mono_r; lia).
  assert (2 ^ (GROUP_SHIFT G - 6) <= 2 ^ 10) by (apply Z.pow_le_mono_r; lia).
  set (m := 2 ^ (GROUP_SHIFT G - 6)) in *.
  assert (64 * m / 8 = 8 * m) as -> by (replace (64 * m) with (8 * m * 8) by lia; by rewrite Z.div_mul).
  change (2 ^ 4) with 16 in *. change (2 ^ 10) with 1024 in *.
  assert (BLOCKS_PER_GROUP = 65520) as -> by done. split_and!; lia.
Qed.

Lemma grp_range G g :
  geom_ok G -> grp_ok G g -> 8 * Z.of_nat (length (g_arrBytes g) - 2) = BLKGRP_NUMBER G.
Proof.
  intros HG [Hl _ _]. destruct (group_bounds G HG) as (m & H1 & H2 & H3 & _). lia.
Qed.

Lemma FlushGroups_ok G g :
  geom_ok G -> grp_ok G g ->
  grp_ok G (FlushGroups g).1 /\ g_wFreeCount (FlushGroups g).1 = g_wFreeCount g /\
  (forall k, 0 <= k < BLKGRP_NUMBER G ->
     bitZ (g_arrBytes (FlushGroups g).1) k = bitZ (g_arrBytes g) k).
Proof.
  intros HG H. pose proof H as [Hl Hb Hc]. destruct (group_bounds G HG) as (m & H1 & H2 & H3 & H4).
  assert (BLOCKS_PER_GROUP = 65520) by done.
  assert (0 <= g_wFreeCount g < 2 ^ 16) as Hr.
  { rewrite Hc. pose proof (free_bits_bound (g_arrBytes g) [] ltac:(constructor) ltac:(set_solver)) as Hf.
    simpl length in Hf. rewrite (grp_range _ _ HG H) in Hf. rewrite free_bits_count in *. lia. }
  split_and!; [|done|].
  - split; simpl.
    + rewrite put_count_length by lia. done.
    + by apply put_count_bytes.
    + rewrite put_count_free by lia. done.
  - intros k Hk. simpl. apply put_count_bitZ. rewrite (grp_range _ _ HG H). done.
Qed.

Lemma AllocGroup_ok G g g' ret r sv :
  geom_ok G -> grp_ok G g -> AllocGroup G g = (g', ret, r, sv) ->
  grp_ok G g' /\
  (g_wFreeCount g = 0 /\ g' = g /\ ret = - ENOMEM /\ r = None \/
   exists k, ret = STATUS_SUCCESS /\ r = Some k /\ 0 <= k < BLKGRP_NUMBER G /\
     bitZ (g_arrBytes g) k = false /\ g_wFreeCount g' = g_wFreeCount g - 1 /\
     (forall i, 0 <= i < BLKGRP_NUMBER G ->
        bitZ (g_arrBytes g') i = bitZ (g_arrBytes g) i || (i =? k))).
Proof.
  intros HG H. pose proof H as [Hl Hb Hc]. destruct (group_bounds G HG) as (m & H1 & H2 & H3 & H4).
  unfold AllocGroup. destruct (Z.eqb_spec (g_wFreeCount g) 0) as [E|E].
  { intros [= <- <- <- <-]. split; [done|by left]. }
  assert (Z.to_nat (GRPBMP_SIZE G) = Z.to_nat m * 8)%nat as Hm by lia.
  assert (Z.to_nat (GRPBMP_SIZE G) / 8 = Z.to_nat m)%nat as -> by (rewrite Hm; by apply Nat.div_mul).
  rewrite GroupLoop_AllocLoop by (done || lia).
  pose proof (AllocLoop_spec (Z.to_nat m) 0 1 (g_arrBytes g) ltac:(lia) Hb ltac:(lia)) as HA.
  destruct (AllocLoop _ _ _ _) as [arr l]. destruct HA as [[A1 A2 A3 A4 A5 A6 A7] A8].
  pose proof (grp_range _ _ HG H) as Hr. destruct l as [|k [|k2 l]]; [|clear A8|simpl in A6; lia].
  { exfalso. specialize (A8 eq_refl ltac:(lia)). apply E. rewrite Hc, free_bits_count.
    assert (filter (fun k => bitZ (g_arrBytes g) k = false) (positions (length (g_arrBytes g) - 2)) = []) as ->; [|done].
    apply list_empty_nil. intros k Hk. apply list_elem_of_filter in Hk as [Hf Hk].
    apply elem_of_seqZ in Hk. by rewrite (full_bits _ _ _ k Hb A8) in Hf by lia. }
  destruct (A4 k ltac:(set_solver)) as [Hk1 Hk2].
  assert (grp_ok G (mkGrpBmp arr (g_wFreeCount g - 1))) as Hg1.
  { split; simpl; [by rewrite A1|done|]. rewrite A7. simpl. lia. }
  destruct (FlushGroups_ok G _ HG Hg1) as (F1 & F2 & F3). cbn [FlushGroups fst] in F1, F2, F3.
  unfold FlushGroups. intros [= <- <- <- <-]. split; [exact F1|]. right. exists k.
  split_and!; [done|done|lia|lia|done|done|]. intros i Hi. rewrite F3 by done. simpl. rewrite A5 by lia.
  f_equal. destruct (Z.eqb_spec i k) as [->|]; case_bool_decide; set_solver.
Qed.

Lemma IsBlockGroupFree_spec G g k :
  geom_ok G -> grp_ok G g -> 0 <= k < BLKGRP_NUMBER G ->
  IsBlockGroupFree G k g = if bitZ (g_arrBytes g) k then ERROR_FALSE else 0.
Proof.
  intros HG H Hk. unfold IsBlockGroupFree. destruct (Z.eqb_spec (g_wFreeCount g) (BLKGRP_NUMBER G)) as [E|_].
  - destruct (bitZ (g_arrBytes g) k) eqn:Eb; [|done]. exfalso.
    pose proof (free_bits_bound (g_arrBytes g) [k] ltac:(apply NoDup_singleton)) as Hf.
    rewrite (grp_range _ _ HG H), <- (go_count _ _ H), E in Hf. simpl length in Hf.
    enough (BLKGRP_NUMBER G + 1 <= BLKGRP_NUMBER G) by lia. apply Hf.
    intros i Hi. by apply list_elem_of_singleton in Hi as ->.
  - destruct (Z.leb_spec (BLKGRP_NUMBER G) k); [lia|]. by rewrite bit_set_spec by lia.
Qed.

Lemma FormatGroups_ok G :
  geom_ok G -> grp_ok G (FormatGroups G).1 /\ g_wFreeCount (FormatGroups G).1 = BLKGRP_NUMBER G /\
  (forall k, 0 <= k < BLKGRP_NUMBER G -> bitZ (g_arrBytes (FormatGroups G).1) k = false).
Proof.
  intros HG. destruct (group_bounds G HG) as (m & H1 & H2 & H3 & H4).
  set (arr := replicate (Z.to_nat (GRPBMP_SIZE G)) 0).
  assert (length arr = Z.to_nat (GRPBMP_SIZE G)) as Hl by apply length_replicate.
  assert (Hbit : forall k, 0 <= k < 8 * GRPBMP_SIZE G -> bitZ arr k = false).
  { intros k Hk. unfold bitZ, arr. pose proof (Z.div_lt_upper_bound k 8 (GRPBMP_SIZE G)).
    pose proof (Z.div_pos k 8). rewrite lookup_total_replicate_2 by lia. apply Z.bits_0. }
  assert (free_bits arr = BLKGRP_NUMBER G) as Hf.
  { rewrite free_bits_count. assert (filter (fun k => bitZ arr k = false) (positions (length arr - 2)) =
      positions (length arr - 2)) as ->; [|unfold positions; rewrite length_seqZ; lia].
    assert (forall l : list Z, (forall k, k ∈ l -> bitZ arr k = false) -> filter (fun k => bitZ arr k = false) l = l) as Hall.
    { induction l as [|x l IH]; intros Hx; [done|]. rewrite filter_cons, decide_True by (apply Hx; set_solver).
      by rewrite IH by (intros; apply Hx; set_solver). }
    apply Hall. intros k Hk. apply elem_of_seqZ in Hk. apply Hbit. lia. }
  destruct (FlushGroups_ok G (mkGrpBmp arr (BLKGRP_NUMBER G)) HG) as (F1 & F2 & F3).
  { split; simpl; [lia| |done]. apply Forall_replicate. unfold byte. lia. }
  split_and!; [exact F1|exact F2|]. intros k Hk. unfold FormatGroups. rewrite F3 by done. apply Hbit. lia.
Qed.

(** A loop over any blocks changes no other bits. *)
Lemma FreeLoop_frame l arr n :
  Forall byte arr -> 0 <= n < 2 ^ 16 ->
  let '(arr', n', idxs) := FreeLoop l arr n in
  Forall byte arr' /\ length arr' = length arr /\ 0 <= n' < 2 ^ 16 /\
  (idxs = [] -> arr' = arr /\ n' = n) /\
  (forall k, 0 <= k < 8 * Z.of_nat (length arr) -> (k ∉ idxs) -> bitZ arr' k = bitZ arr k).
Proof.
  revert arr n. induction l as [|x l IH]; intros arr n Hb Hn; [simpl; split_and!; done || lia|].
  cbn [FreeLoop]. set (k := Z.land x BLOCK_IDX_MASK). destruct (k =? 0); [by apply IH|].
  set (j := Z.to_nat _). set (o := Z.land k (BYTE_BITS - 1)).
  destruct (arr !!! j =? 0); [by apply IH|].
  set (arr1 := <[j := _]> arr).
  assert (Forall byte arr1) as Hb1 by (by apply bytes_insert, byte_ldiff, bytes_lookup).
  specialize (IH arr1 (u16 (n + 1)) Hb1 (uN_range 16 _ ltac:(lia))).
  destruct (FreeLoop l arr1 _) as [[arr' n'] idxs]. destruct IH as (I1 & I2 & I3 & _ & I5).
  assert (length arr1 = length arr) as Hl by apply length_insert.
  split_and!; [done|congruence|lia|lia|done|]. intros i Hi Hin. rewrite I5 by (lia || set_solver).
  assert (i <> k) as Hik by set_solver.
  assert (0 <= k) as Hk0 by (unfold k; apply Z.land_nonneg; right; vm_compute; discriminate).
  assert (j = Z.to_nat (k / 8)) as Hj.
  { unfold j, BYTE_BITS. change (find_shift 8) with 3. by rewrite Z.shiftr_div_pow2 by lia. }
  assert (o = k mod 8) as Ho.
  { unfold o, BYTE_BITS. change (8 - 1) with (Z.ones 3). by rewrite Z.land_ones by lia. }
  unfold arr1. destruct (decide (j < length arr)%nat) as [Hjl|Hjl];
    [|by rewrite list_insert_ge by lia].
  rewrite bitZ_insert by lia. destruct (Z.eqb_spec (i / 8) (Z.of_nat j)) as [E|E]; [|done].
  pose proof (Z.div_mod i 8). pose proof (Z.mod_pos_bound i 8).
  pose proof (Z.div_mod k 8). pose proof (Z.mod_pos_bound k 8). pose proof (Z.div_pos k 8).
  rewrite Ho, Z.shiftl_1_l. assert (u8 (2 ^ (k mod 8)) = 2 ^ (k mod 8)) as ->.
  { apply uN_small. split; [apply Z.pow_nonneg; lia|]. apply Z.pow_lt_mono_r; lia. }
  rewrite testbit_ldiff_bit by lia. unfold bitZ. rewrite E, Nat2Z.id.
  destruct (Z.eqb_spec (i mod 8) (k mod 8)); [lia|by rewrite andb_true_r].
Qed.

(** *** The operations keep the disk up to date *)

Lemma dirty_writes_in G idxs b w :
  w ∈ dirty_writes G idxs b -> exists i, 0 <= i < BLKBMP_BLKNUM G /\ w = (block_no b i, sub_block G (m_arrBytes b) i).
Proof.
  intros Hw. apply list_elem_of_fmap in Hw as (i & -> & Hi). apply list_elem_of_filter in Hi as [_ Hi].
  apply elem_of_seqZ in Hi. exists i. split; [lia|done].
Qed.

(** What an operation writes: blocks of the bitmap that it leaves behind. *)
Definition own_writes (G : geometry) (b : CBlockBitmap) (ws : list (Z * list Z)) : Prop :=
  forall w, w ∈ ws -> exists i, 0 <= i < BLKBMP_BLKNUM G /\ w = (block_no b i, sub_block G (m_arrBytes b) i).

Lemma own_nil G b : own_writes G b [].
Proof. intros w Hw. set_solver. Qed.

Lemma AllocBlocks_saved G disk b n b' ret blks ws :
  geom_ok G -> IsSafeMode G = true -> saved G disk b -> 0 <= n -> AllocBlocks G n b = (b', ret, blks, ws) ->
  ret <> ERROR_FAIL -> saved G (apply_writes ws disk) b' /\ own_writes G b' ws.
Proof.
  intros HG HS Hs Hn.
  pose proof (sv_bytes _ _ _ Hs) as Hb. pose proof (sv_len _ _ _ Hs) as Hl.
  pose proof (sv_range _ _ _ Hs) as Hc. assert (BLOCKS_PER_GROUP = 65520) as EB by done.
  unfold AllocBlocks. destruct (n =? 0); [intros [= <- _ _ <-] _; split; [done|apply own_nil]|].
  destruct (m_wFreeCount b =? 0); [intros [= <- _ _ <-] _; split; [done|apply own_nil]|].
  pose proof (AllocLoop_spec (Z.to_nat BLKBMP_SIZE / 8) 0 n (m_arrBytes b)) as HA.
  destruct (AllocLoop _ _ _ _) as [arr idxs].
  destruct HA as [[A1 A2 A3 A4 A5 A6 A7] _]; [apply (inj Z.of_nat); rewrite Hl; vm_compute; reflexivity|done|lia|].
  destruct (Z.ltb_spec (m_wFreeCount b) (Z.of_nat (length idxs))); [by intros [= _ <- _ _]|].
  destruct (Z.ltb_spec 0 (Z.of_nat (length idxs))) as [Hne|Hne]; rewrite ?HS; cbn [andb].
  - intros [= <- _ _ <-] _. split; [apply saved_writes; [done|done|done|done|lia|]|intros w; apply dirty_writes_in].
    intros k Hk Hin. rewrite A5, bool_decide_false, orb_false_r by (done || lia). done.
  - destruct idxs; [|simpl in Hne; lia]. intros [= <- _ _ <-] _. split; [|apply own_nil].
    assert (arr = m_arrBytes b) as ->; [|rewrite Z.sub_0_r; by destruct b].
    apply list_eq_same_length with (length (m_arrBytes b)); [done|done|].
    intros i x y Hi Hx Hy. rewrite <- (list_lookup_total_correct _ _ _ Hx), <- (list_lookup_total_correct _ _ _ Hy).
    apply bytes_same; [done|done|]. intros k Hk. rewrite A5, bool_decide_false, orb_false_r; [done|set_solver|].
    pose proof (Z.div_mod k 8). pose proof (Z.mod_pos_bound k 8). lia.
Qed.

Lemma FreeBlocks_saved G disk b l b' ret ws :
  geom_ok G -> IsSafeMode G = true -> saved G disk b -> FreeBlocks G l b = (b', ret, ws) ->
  saved G (apply_writes ws disk) b' /\ own_writes G b' ws.
Proof.
  intros HG HS Hs.
  pose proof (sv_bytes _ _ _ Hs) as Hb. pose proof (sv_len _ _ _ Hs) as Hl.
  pose proof (sv_range _ _ _ Hs) as Hc. assert (BLOCKS_PER_GROUP = 65520) as EB by done.
  unfold FreeBlocks. destruct l as [|x l']; [intros [= <- _ <-]; split; [done|apply own_nil]|].
  destruct (_ =? _); [intros [= <- _ <-]; split; [done|apply own_nil]|].
  pose proof (FreeLoop_frame (x :: l') (m_arrBytes b) (m_wFreeCount b) Hb Hc) as HF.
  destruct (FreeLoop _ _ _) as [[arr n] idxs]. destruct HF as (F1 & F2 & F3 & F4 & F5).
  destruct idxs as [|i idxs]; cbn [nonempty]; rewrite ?HS; cbn [andb].
  - destruct (F4 eq_refl) as [-> ->]. intros [= <- _ <-]. split; [by destruct b|apply own_nil].
  - intros [= <- _ <-]. split; [apply saved_writes; [done|done|done|done|lia|]|intros w; apply dirty_writes_in].
    intros k Hk Hin. apply F5; [lia|done].
Qed.

(** ** Properties *)

(** C21: an allocation in a group and its inverse.  [AllocBlocks] answers
    distinct blocks that were free, as many as were asked for or, with
    [STATUS_MORE_PROCESS_NEEDED], at least one; afterwards exactly these are not
    free any more, and the count is right.  Giving them back restores every bit
    and the count. *)
Theorem bitmap_alloc_free (G : geometry) (b b1 : CBlockBitmap) (n ret : Z) (blks : list Z)
    (ws : list (Z * list Z)) :
  geom_ok G -> bmp_ok G b -> 0 < n -> m_wFreeCount b <> 0 ->
  AllocBlocks G n b = (b1, ret, blks, ws) ->
  bmp_ok G b1 /\ allocated b b1 blks /\
  (ret = STATUS_SUCCESS /\ Z.of_nat (length blks) = n \/
   ret = STATUS_MORE_PROCESS_NEEDED /\ 0 < Z.of_nat (length blks) < n) /\
  exists b2 ws2, FreeBlocks G blks b1 = (b2, STATUS_SUCCESS, ws2) /\ bmp_ok G b2 /\
    m_wFreeCount b2 = m_wFreeCount b /\
    (forall k, 0 <= k < BLOCKS_PER_GROUP -> bitZ (m_arrBytes b2) k = bitZ (m_arrBytes b) k).
Proof.
  intros HG H Hn H0 HA. destruct (AllocBlocks_ok G b n b1 ret blks ws) as (A1 & A2 & A3 & A4); [done..|].
  destruct A4 as [[? _]|A4]; [done|]. split; [done|]. split; [done|].
  split; [destruct A4 as [(_ & ? & ?)|(_ & ? & ?)]; [by left|by right]|].
  assert (blks <> []) as Hne by (intros ->; simpl in A4; lia).
  destruct (FreeBlocks G blks b1) as [[b2 r2] ws2] eqn:EF.
  pose proof (allocated_taken G b b1 blks HG H A1 A2) as HT.
  destruct (FreeBlocks_ok G b1 blks b2 r2 ws2) as (F1 & F2 & F3 & F4 & F5); [done..|].
  exists b2, ws2. rewrite F2. split_and!; [done|done| |].
  - rewrite F4, (al_count _ _ _ A2). lia.
  - intros k Hk. rewrite F5 by done. destruct HT as [_ HT].
    assert (BLOCKS_PER_GROUP = 65520) as EB by done.
    assert (Hfree : free_block b (block_no b k) <-> bitZ (m_arrBytes b) k = false).
    { split; [|by exists k]. intros (k' & E & Hk' & Hf).
      rewrite !block_no_val in E by (apply H || lia). by assert (k = k') as -> by lia. }
    case_bool_decide as Hin; cbn [negb].
    + apply list_elem_of_fmap in Hin as (x & -> & Hx). rewrite andb_false_r. symmetry.
      apply Hfree. destruct (HT x Hx) as (_ & E & _). apply (al_in _ _ _ A2) in Hx.
      rewrite E in Hx. unfold block_no in *. by rewrite (al_group _ _ _ A2) in Hx.
    + rewrite andb_true_r. pose proof (al_free _ _ _ A2 (block_no b k)) as HF. rewrite Hfree in HF.
      assert (block_no b k ∉ blks) as Hni.
      { intros Hx. apply Hin. apply list_elem_of_fmap. exists (block_no b k). split; [|done].
        unfold blk_idx. rewrite block_no_mask by (apply H || lia). done. }
      assert (free_block b1 (block_no b k) <-> bitZ (m_arrBytes b1) k = false) as Hfree1.
      { assert (block_no b k = block_no b1 k) as -> by (unfold block_no; by rewrite (al_group _ _ _ A2)).
        split; [|by exists k]. intros (k' & E & Hk' & Hf).
        rewrite !block_no_val in E by (apply A1 || lia). by assert (k = k') as -> by lia. }
      destruct (bitZ (m_arrBytes b1) k), (bitZ (m_arrBytes b) k); naive_solver.
Qed.

(** C22: in safe mode the disk follows.  Each operation on the bitmap of a group
    answers writes that bring the blocks of the bitmap up to date, its count
    included: reading them back gives the bitmap in memory.  Left out is the
    allocation that answers [ERROR_FAIL]: it takes more blocks than the count
    says are free, which [bmp_ok] rules out, and leaves without a write. *)
Theorem bitmap_persist (G : geometry) (disk : Z -> list Z) (b : CBlockBitmap) :
  geom_ok G -> IsSafeMode G = true -> saved G disk b ->
  (forall n b' ret blks ws, 0 <= n -> AllocBlocks G n b = (b', ret, blks, ws) -> ret <> ERROR_FAIL ->
     saved G (apply_writes ws disk) b' /\
     ReloadBitmap (disk_bytes G (apply_writes ws disk) b') b' = b') /\
  (forall l b' ret ws, FreeBlocks G l b = (b', ret, ws) ->
     saved G (apply_writes ws disk) b' /\
     ReloadBitmap (disk_bytes G (apply_writes ws disk) b') b' = b').
Proof.
  intros HG HS Hs. split.
  - intros n b' ret blks ws Hn HA Hr. destruct (AllocBlocks_saved G disk b n b' ret blks ws) as [H _]; [done..|].
    split; [done|by apply saved_reload].
  - intros l b' ret ws HF. destruct (FreeBlocks_saved G disk b l b' ret ws) as [H _]; [done..|].
    split; [done|by apply saved_reload].
Qed.

(** Freeing a free block is not noticed.  When another block of the same
    byte of the bitmap is taken, the count goes up all the same, and from then on
    says more than there is. *)
Theorem double_free_miscounts (G : geometry) (b : CBlockBitmap) (k : Z) :
  geom_ok G -> bmp_ok G b -> m_wFreeCount b <> AllFree G ->
  0 < k < BLOCKS_PER_GROUP -> bitZ (m_arrBytes b) k = false ->
  m_arrBytes b !!! Z.to_nat (k / 8) <> 0 ->
  exists b' ws, FreeBlocks G [block_no b k] b = (b', STATUS_SUCCESS, ws) /\
    m_wFreeCount b' = free_bits (m_arrBytes b') + 1 /\ free_bits (m_arrBytes b') = free_bits (m_arrBytes b).
Proof.
  intros HG H Hc Hk Hb Hne. assert (BLOCKS_PER_GROUP = 65520) as EB by done.
  pose proof (bmp_len _ _ H) as Hl. pose proof (bmp_count_range _ _ H) as Hr.
  unfold FreeBlocks. destruct (Z.eqb_spec (m_wFreeCount b) (AllFree G)); [done|].
  cbn [FreeLoop]. fold (blk_idx (block_no b k)). unfold blk_idx.
  rewrite block_no_mask by (apply H || lia). destruct (Z.eqb_spec k 0); [lia|].
  unfold BYTE_BITS. change (find_shift 8) with 3. rewrite Z.shiftr_div_pow2 by lia.
  change (2 ^ 3) with 8. change (8 - 1) with (Z.ones 3). rewrite Z.land_ones by lia. change (2 ^ 3) with 8.
  set (j := Z.to_nat (k / 8)) in *. pose proof (Z.mod_pos_bound k 8).
  destruct (Z.eqb_spec (m_arrBytes b !!! j) 0); [done|].
  rewrite Z.shiftl_1_l. assert (u8 (2 ^ (k mod 8)) = 2 ^ (k mod 8)) as ->.
  { apply uN_small. split; [apply Z.pow_nonneg; lia|]. apply Z.pow_lt_mono_r; lia. }
  assert (Z.ldiff (m_arrBytes b !!! j) (2 ^ (k mod 8)) = m_arrBytes b !!! j) as ->.
  { apply Z.bits_inj'. intros i Hi. rewrite testbit_ldiff_bit by lia.
    destruct (Z.eqb_spec i (k mod 8)) as [->|]; [|by rewrite andb_true_r].
    unfold bitZ in Hb. fold j in Hb. by rewrite Hb. }
  pose proof (Z.div_mod k 8) as Hdm.
  destruct (lookup_lt_is_Some_2 (m_arrBytes b) j) as [a Ha]; [unfold j; lia|].
  assert (<[j := m_arrBytes b !!! j]> (m_arrBytes b) = m_arrBytes b) as ->.
  { rewrite (list_lookup_total_correct _ _ _ Ha). by apply list_insert_id. }
  set (safe := (_ && _)%bool). eexists _, _. split; [done|].
  assert (m_wFreeCount b < BLOCKS_PER_GROUP).
  { pose proof (geom_bounds G HG) as (_ & HB & _).
    pose proof (free_bits_bound (m_arrBytes b) [0] ltac:(apply NoDup_singleton)) as Hf.
    rewrite (bmp_range _ _ H), <- (bo_count _ _ H) in Hf. simpl length in Hf.
    enough (m_wFreeCount b + 1 <= BLOCKS_PER_GROUP) by lia. apply Hf. intros i Hi.
    apply list_elem_of_singleton in Hi as ->. split; [lia|]. apply (bo_own _ _ H). lia. }
  unfold u16. rewrite uN_small by lia. cbn [set_bytes m_arrBytes m_wFreeCount].
  assert (free_bits (if safe then put_count (m_wFreeCount b + 1) (m_arrBytes b) else m_arrBytes b) =
    free_bits (m_arrBytes b)) as -> by (destruct safe; [apply put_count_free; lia|done]).
  rewrite (bo_count _ _ H). split; lia.
Qed.

(** ** Witnesses and examples *)

Definition ex_geom (safe : bool) : geometry := mkGeom 512 4096 safe.
Definition ex_bmp : CBlockBitmap := InitBitmap (ex_geom true) (NewBitmap 3).

Lemma ex_geom_ok safe : geom_ok (ex_geom safe).
Proof. split; vm_compute; reflexivity. Qed.

Lemma ex_bmp_ok : bmp_ok (ex_geom true) ex_bmp.
Proof. apply InitBitmap_ok; [apply ex_geom_ok|lia]. Qed.

(** The first byte of every word that is not full is used. *)
Example ex_alloc : (AllocBlocks (ex_geom true) 10 ex_bmp).1.2 =
  map (fun k => 3 * 65536 + k) [16; 17; 18; 19; 20; 21; 22; 23; 64; 65].
Proof. vm_compute. reflexivity. Qed.

Definition ex_alloc1 : CBlockBitmap := (AllocBlocks (ex_geom true) 1 ex_bmp).1.1.1.

Lemma ex_alloc1_ok : bmp_ok (ex_geom true) ex_alloc1.
Proof.
  unfold ex_alloc1. destruct (AllocBlocks (ex_geom true) 1 ex_bmp) as [[[b1 ret] blks] ws] eqn:E.
  destruct (AllocBlocks_ok (ex_geom true) ex_bmp 1 b1 ret blks ws (ex_geom_ok true) ex_bmp_ok ltac:(lia) E) as [H _].
  exact H.
Qed.

Lemma bitmap_alloc_free_witness :
  let '(b1, _, blks, _) := AllocBlocks (ex_geom true) 10 ex_bmp in
  exists b2 ws2, FreeBlocks (ex_geom true) blks b1 = (b2, STATUS_SUCCESS, ws2) /\
    m_wFreeCount b2 = m_wFreeCount ex_bmp.
Proof.
  destruct (AllocBlocks (ex_geom true) 10 ex_bmp) as [[[b1 ret] blks] ws] eqn:E.
  destruct (bitmap_alloc_free (ex_geom true) ex_bmp b1 10 ret blks ws) as (_ & _ & _ & b2 & ws2 & H1 & _ & H2 & _).
  - apply ex_geom_ok.
  - exact ex_bmp_ok.
  - lia.
  - vm_compute. discriminate.
  - exact E.
  - exists b2, ws2. split; [exact H1|exact H2].
Defined.

(** The disk right after [Format]. *)
Definition ex_disk : Z -> list Z := fun x => sub_block (ex_geom true) (m_arrBytes ex_bmp) (x - 3 * 65536).

Lemma ex_saved : saved (ex_geom true) ex_disk ex_bmp.
Proof.
  split.
  - vm_compute. reflexivity.
  - apply ex_bmp_ok.
  - simpl. lia.
  - split; vm_compute; [discriminate|reflexivity].
  - vm_compute. reflexivity.
  - intros i Hi. unfold ex_disk. f_equal. rewrite block_no_val; simpl m_dwGroupIdx; [lia|lia|].
    change (BLKBMP_BLKNUM (ex_geom true)) with 16 in Hi. lia.
Qed.

Lemma bitmap_persist_witness :
  let '(b', ret, _, ws) := AllocBlocks (ex_geom true) 10 ex_bmp in
  ret = STATUS_SUCCESS /\ saved (ex_geom true) (apply_writes ws ex_disk) b'.
Proof.
  destruct (AllocBlocks (ex_geom true) 10 ex_bmp) as [[[b' ret] blks] ws] eqn:E.
  assert (ret = STATUS_SUCCESS) as Hr.
  { change ret with (b', ret, blks, ws).1.1.2. rewrite <- E. vm_compute. reflexivity. }
  split; [exact Hr|].
  destruct (bitmap_persist (ex_geom true) ex_disk ex_bmp (ex_geom_ok true) eq_refl ex_saved) as [H _].
  apply (H 10 b' ret blks ws ltac:(lia) E). rewrite Hr. discriminate.
Defined.

Lemma double_free_miscounts_witness :
  exists b' ws, FreeBlocks (ex_geom true) [block_no ex_alloc1 17] ex_alloc1 = (b', STATUS_SUCCESS, ws) /\
    m_wFreeCount b' = free_bits (m_arrBytes b') + 1.
Proof.
  destruct (double_free_miscounts (ex_geom true) ex_alloc1 17) as (b' & ws & H1 & H2 & _).
  - apply ex_geom_ok.
  - exact ex_alloc1_ok.
  - vm_compute. discriminate.
  - split; vm_compute; reflexivity.
  - vm_compute. reflexivity.
  - vm_compute. discriminate.
  - exists b', ws. split; [exact H1|exact H2].
Defined.
