(* ===== verification/BlkCache.v ===== *)
(** * Block input and output: [monitor/registry/blkalloc.cpp], [CBlockAllocator]

    Blocks are read and written by their numbers.  In safe mode nothing goes to
    the file at once: written blocks are kept in [m_mapDirtyBlks], runs of
    consecutive blocks under the number of the first, until [CommitCache].  The
    superblock has the number [-2] and the group bitmap [-4].  Memory is a
    function from offsets to bytes, a file is its length with its bytes.  What
    [lseek], [read] and [write] answer when they fail is a parameter. *)

From Stdlib Require Import ZArith Lia Sorted.
From S2P Require Import Prelude TaskGroup BlkBitmap.
Local Open Scope rpcf_scope.

(** ** Addresses *)

Definition INVALID_BLOCK_IDX : Z := 65535.
Definition MAX_BUFFER : Z := 16 * 1024 * 1024.
Definition SB_IDX : Z := u32 (- 2).
Definition GB_IDX : Z := u32 (- 4).

Definition GROUP_IDX_MASK (G : geometry) : Z := Z.shiftl 1 (GROUP_SHIFT G) - 1.
Definition GROUP_INDEX (G : geometry) (x : Z) : Z :=
  Z.land (Z.shiftr x GROUP_INDEX_SHIFT) (GROUP_IDX_MASK G).
Definition GROUP_SIZE (G : geometry) : Z := u32 (BLOCKS_PER_GROUP_FULL * BLOCK_SIZE G).
Definition GROUP_START (G : geometry) (x : Z) : Z := u32 (GROUP_INDEX G x * GROUP_SIZE G).
Definition ABS_ADDR (G : geometry) (la : Z) : Z := u32 (la + BLOCK_SIZE G + GRPBMP_SIZE G).
Definition BLOCK_LA (G : geometry) (x : Z) : Z :=
  u32 (GROUP_START G x + u32 (Z.land x BLOCK_IDX_MASK * BLOCK_SIZE G)).

(** All of it in 32 bits. *)
Definition BLOCK_ABS (G : geometry) (x : Z) : Z := ABS_ADDR G (BLOCK_LA G x).

(** In 32 bits too: with pages of 64 kB no block is in the range, and with blocks
    of 4 kB the largest file has 4 MB. *)
Definition BLKIDX_BEYOND_MAX (G : geometry) (x : Z) : bool :=
  u32 (BLKGRP_NUMBER_FULL G * BLOCKS_PER_GROUP_FULL) <=? x.
Definition MAX_FILE_SIZE (G : geometry) : Z :=
  u32 ((13 + BLOCK_SIZE G / 4 + BLOCK_SIZE G / 4 * (BLOCK_SIZE G / 4)) * BLOCK_SIZE G).

(** ** Memory and the file *)

Abbreviation mem := (Z -> Z).

(** [memcpy( dst + off, src, n )] *)
Definition blit (dst : mem) (off : Z) (src : mem) (n : Z) : mem :=
  fun p => if (off <=? p) && (p <? off + n) then src (p - off) else dst p.
Definition shift (src : mem) (off : Z) : mem := fun p => src (off + p).

Record file := mkFile { f_len : Z; f_data : mem }.

(** What is behind the end of the file is left alone in the target. *)
Definition file_read (off n : Z) (f : file) (dst : mem) : mem :=
  fun p => if (0 <=? p) && (p <? n) && (off + p <? f_len f) then f_data f (off + p) else dst p.
Definition file_write (off n : Z) (src : mem) (f : file) : file :=
  mkFile (Z.max (f_len f) (off + n))
    (fun q => if (off <=? q) && (q <? off + n) then src (q - off)
              else if q <? f_len f then f_data f q else 0).

(** ** Intervals of blocks *)

(** [dwOff] is the place in the caller's memory, in blocks; [dwKey] the entry of
    the cache. *)
Record CONTBLKS := mkBlks { first : Z; second : Z; dwOff : Z; dwKey : Z }.
Record dbuf := mkBuf { d_size : Z; d_data : mem }.
Abbreviation DirtyBlks := (list (Z * dbuf)).

(** [FindContigousBlocks]: runs of consecutive blocks of a group, and runs of
    holes; [second] is the number of blocks. *)
Fixpoint FindLoop (l : list Z) (dwBase dwPrev dwCount : Z) : list CONTBLKS :=
  match l with
  | [] => [mkBlks dwBase dwCount 0 0]
  | dwBlkIdx :: l =>
      if (dwBlkIdx =? u32 (dwPrev + 1)) && negb (Z.land dwBlkIdx BLOCK_IDX_MASK =? 0)
      then FindLoop l dwBase (u32 (dwPrev + 1)) (dwCount + 1)
      else if (dwBlkIdx =? INVALID_BLOCK_IDX) && (dwBase =? INVALID_BLOCK_IDX)
      then FindLoop l dwBase dwBlkIdx (dwCount + 1)
      else mkBlks dwBase dwCount 0 0 :: FindLoop l dwBlkIdx dwBlkIdx 1
  end.

Definition FindContigousBlocks (pBlocks : list Z) : list CONTBLKS * Z :=
  match pBlocks with
  | [] => ([], - EINVAL)
  | x :: l => (FindLoop l x x 1, STATUS_SUCCESS)
  end.

(** [second] becomes the end of the interval, [dwOff] its place. *)
Fixpoint to_intervals (v : list CONTBLKS) (off : Z) : list CONTBLKS :=
  match v with
  | [] => []
  | a :: v => mkBlks (first a) (u32 (second a + first a)) off (dwKey a) ::
              to_intervals v (u32 (off + second a))
  end.

(** [std::sort] *)
Section Sort.
Variable le : CONTBLKS -> CONTBLKS -> bool.
Fixpoint insert_blks (a : CONTBLKS) (v : list CONTBLKS) : list CONTBLKS :=
  match v with
  | [] => [a]
  | b :: v => if le a b then a :: b :: v else b :: insert_blks a v
  end.
Definition sort_blks (v : list CONTBLKS) : list CONTBLKS := foldr insert_blks [] v.
End Sort.

Definition le_first (a b : CONTBLKS) : bool := first a <=? first b.
Definition le_all (a b : CONTBLKS) : bool :=
  if first a <? first b then true
  else if first a =? first b then
    if second a <? second b then true
    else if second a =? second b then dwOff a <=? dwOff b else false
  else false.

(** [lower_bound( x )], and one step back unless it is the first entry. *)
Fixpoint start_at (x : Z) (d : DirtyBlks) : DirtyBlks :=
  match d with
  | _ :: ((k, _) :: _) as d' => if k <? x then start_at x d' else d
  | _ => d
  end.

Definition end_of (G : geometry) (e : Z * dbuf) : Z := u32 (e.1 + d_size e.2 / BLOCK_SIZE G).

(** The loop of [IntersectIntervals]. *)
Fixpoint IntersectLoop (G : geometry) (v : list CONTBLKS) : DirtyBlks -> list CONTBLKS :=
  match v with
  | [] => fun _ => []
  | a :: v' => fix go (d : DirtyBlks) : list CONTBLKS :=
      match d with
      | [] => []
      | e :: d' =>
          let start := Z.max (first a) e.1 in
          let end2 := end_of G e in
          let fin := Z.min (second a) end2 in
          let res := if start <? fin
                     then [mkBlks start fin (u32 (dwOff a + (start - first a))) e.1] else [] in
          res ++ (if second a <? end2 then IntersectLoop G v' d else go d')
      end
  end.

Definition IntersectIntervals (G : geometry) (v : list CONTBLKS) (d : DirtyBlks) : list CONTBLKS :=
  match v with
  | [] => []
  | a :: _ => IntersectLoop G v (start_at (first a) d)
  end.

(** The loops of [SubtractIntervals] for the interval [a]: the others that end
    before it are skipped, and the gaps between those that start in it are kept. *)
Fixpoint skip_before (start1 : Z) (c : list CONTBLKS) : list CONTBLKS :=
  match c with
  | x :: c' => if second x <=? start1 then skip_before start1 c' else c
  | [] => []
  end.
Definition part (a : CONTBLKS) (currentStart fin : Z) : CONTBLKS :=
  mkBlks currentStart fin (u32 (dwOff a + currentStart - first a)) 0.
Fixpoint GapLoop (a : CONTBLKS) (currentStart : Z) (c : list CONTBLKS)
    : list CONTBLKS * Z * list CONTBLKS :=
  match c with
  | x :: c' =>
      if first x <? second a then
        let gap := if currentStart <? first x then [part a currentStart (first x)] else [] in
        let '(r, cs, c'') := GapLoop a (Z.max currentStart (second x)) c' in (gap ++ r, cs, c'')
      else ([], currentStart, c)
  | [] => ([], currentStart, [])
  end.
Fixpoint SubtractLoop (v c : list CONTBLKS) : list CONTBLKS :=
  match v with
  | [] => []
  | a :: v =>
      let '(r, cs, c) := GapLoop a (first a) (skip_before (first a) c) in
      r ++ (if cs <? second a then [part a cs (second a)] else []) ++ SubtractLoop v c
  end.
Definition SubtractIntervals (v c : list CONTBLKS) : list CONTBLKS :=
  match c with [] => v | _ => SubtractLoop v c end.

(** ** The cache *)

Record cache := mkCache {
  m_mapDirtyBlks : DirtyBlks;
  m_dwDirtyBlkCount : Z;
  m_oStartTime : Z;
  m_dwTransCount : Z;
  m_bStopped : bool;
  m_file : file;
}.

Definition set_dirty (d : DirtyBlks) (s : cache) : cache :=
  mkCache d (m_dwDirtyBlkCount s) (m_oStartTime s) (m_dwTransCount s) (m_bStopped s) (m_file s).
Definition set_count (n : Z) (s : cache) : cache :=
  mkCache (m_mapDirtyBlks s) n (m_oStartTime s) (m_dwTransCount s) (m_bStopped s) (m_file s).
Definition set_start (t : Z) (s : cache) : cache :=
  mkCache (m_mapDirtyBlks s) (m_dwDirtyBlkCount s) t (m_dwTransCount s) (m_bStopped s) (m_file s).
Definition set_trans (n : Z) (s : cache) : cache :=
  mkCache (m_mapDirtyBlks s) (m_dwDirtyBlkCount s) (m_oStartTime s) n (m_bStopped s) (m_file s).
Definition set_file (f : file) (s : cache) : cache :=
  mkCache (m_mapDirtyBlks s) (m_dwDirtyBlkCount s) (m_oStartTime s) (m_dwTransCount s) (m_bStopped s) f.
Definition SetStopped (s : cache) : cache :=
  mkCache (m_mapDirtyBlks s) (m_dwDirtyBlkCount s) (m_oStartTime s) (m_dwTransCount s) true (m_file s).

(** [m_mapDirtyBlks] as a [std::map]: sorted by the keys. *)
Fixpoint find_blk (k : Z) (d : DirtyBlks) : option dbuf :=
  match d with
  | [] => None
  | (k', b) :: d => if k' =? k then Some b else find_blk k d
  end.
Fixpoint emplace (k : Z) (b : dbuf) (d : DirtyBlks) : DirtyBlks :=
  match d with
  | [] => [(k, b)]
  | (k', b') :: d' =>
      if k' =? k then d else if k <? k' then (k, b) :: d else (k', b') :: emplace k b d'
  end.
Fixpoint assign_blk (k : Z) (b : dbuf) (d : DirtyBlks) : DirtyBlks :=
  match d with
  | [] => [(k, b)]
  | (k', b') :: d' =>
      if k' =? k then (k, b) :: d'
      else if k <? k' then (k, b) :: d else (k', b') :: assign_blk k b d'
  end.

Section IO.
Variable G : geometry.
(** The error of a system call at an offset and with a size, [0] if none. *)
Variable io : Z -> Z -> Z.

(** [dwSize] as it is computed, in 32 bits. *)
Definition bytes_of (n : Z) : Z := u32 (BLOCK_SIZE G * n).

(** The loop of [CacheBlocks] over the blocks that are cached already. *)
Fixpoint CacheCommon (c : list CONTBLKS) (pBuf : mem) (d : DirtyBlks) (dwBytes : Z)
    : outcome (DirtyBlks * Z) :=
  match c with
  | [] => Ret (d, dwBytes)
  | a :: c =>
      if first a =? INVALID_BLOCK_IDX then Throw
      else
        let dwSize := bytes_of (second a - first a) in
        let pSrc := shift pBuf (u32 (dwOff a * BLOCK_SIZE G)) in
        if (first a =? SB_IDX) || (first a =? GB_IDX) then
          match find_blk (first a) d with
          | None => CacheCommon c pBuf d dwBytes
          | Some b => CacheCommon c pBuf
              (assign_blk (first a) (mkBuf (d_size b) (blit (d_data b) 0 pSrc dwSize)) d)
              (u32 (dwBytes + dwSize))
          end
        else
          match find_blk (dwKey a) d with
          | None => CacheCommon c pBuf d dwBytes
          | Some b =>
              let off := bytes_of (first a - dwKey a) in
              if d_size b <? off then CacheCommon c pBuf d dwBytes
              else CacheCommon c pBuf
                (assign_blk (dwKey a) (mkBuf (d_size b) (blit (d_data b) off pSrc dwSize)) d)
                (u32 (dwBytes + dwSize))
          end
  end.

(** The loop over the other ones. *)
Fixpoint CacheNew (c : list CONTBLKS) (pBuf : mem) (d : DirtyBlks) (n dwBytes : Z)
    : DirtyBlks * Z * Z * Z :=
  match c with
  | [] => (d, n, 0, dwBytes)
  | a :: c =>
      let dwSize := bytes_of (second a - first a) in
      if MAX_BUFFER <? dwSize then (d, n, - E2BIG, dwBytes)
      else
        let b := mkBuf dwSize (shift pBuf (u32 (dwOff a * BLOCK_SIZE G))) in
        CacheNew c pBuf (emplace (first a) b d) (u32 (n + Z.shiftr dwSize (BLOCK_SHIFT G)))
          (u32 (dwBytes + dwSize))
  end.

Definition intervals (le : CONTBLKS -> CONTBLKS -> bool) (pBlocks : list Z) (dwNumBlocks : Z)
    (bContigous : bool) : list CONTBLKS :=
  if bContigous
  then let x := default 0 (head pBlocks) in [mkBlks x (u32 (x + dwNumBlocks)) 0 0]
  else sort_blks le
         (to_intervals (FindContigousBlocks (firstn (Z.to_nat dwNumBlocks) pBlocks)).1 0).

(** [now] is the clock.  [Throw] is the call of [abort]. *)
Definition CacheBlocks (now : Z) (pBlocks : list Z) (dwNumBlocks : Z) (pBuf : mem)
    (bContigous : bool) (s : cache) : outcome (cache * Z) :=
  let s := match m_mapDirtyBlks s with [] => set_start now s | _ => s end in
  let x := default 0 (head pBlocks) in
  if x =? SB_IDX then
    Ret (set_dirty (assign_blk x (mkBuf (BLOCK_SIZE G) pBuf) (m_mapDirtyBlks s)) s, 512)
  else if x =? GB_IDX then
    Ret (set_dirty (assign_blk x (mkBuf (GRPBMP_SIZE G) pBuf) (m_mapDirtyBlks s)) s, 512)
  else
    let vecBlks := intervals le_first pBlocks dwNumBlocks bContigous in
    let oCommonBlks := IntersectIntervals G vecBlks (m_mapDirtyBlks s) in
    let oNewBlks := SubtractIntervals vecBlks oCommonBlks in
    let! (d, n) := CacheCommon oCommonBlks pBuf (m_mapDirtyBlks s) 0 in
    let '(d, cnt, ret, n) := CacheNew oNewBlks pBuf d (m_dwDirtyBlkCount s) n in
    Ret (set_count cnt (set_dirty d s), if SUCCEEDED ret then s32 n else ret).

(** The holes of the vector are filled with zeros and taken out. *)
Fixpoint DropHoles (v : list CONTBLKS) (pBuf : mem) : list CONTBLKS * mem :=
  match v with
  | [] => ([], pBuf)
  | a :: v' =>
      if first a <? INVALID_BLOCK_IDX then
        let '(v', pBuf) := DropHoles v' pBuf in (a :: v', pBuf)
      else if first a =? INVALID_BLOCK_IDX then
        DropHoles v' (blit pBuf (dwOff a * BLOCK_SIZE G) (fun _ => 0)
                        ((second a - first a) * BLOCK_SIZE G))
      else (v, pBuf)
  end.

Fixpoint ReadHits (c : list CONTBLKS) (d : DirtyBlks) (pBuf : mem) (dwBytes : Z) : mem * Z :=
  match c with
  | [] => (pBuf, dwBytes)
  | a :: c =>
      match find_blk (dwKey a) d with
      | None => ReadHits c d pBuf dwBytes
      | Some b =>
          let off := bytes_of (first a - dwKey a) in
          if d_size b <? off then ReadHits c d pBuf dwBytes
          else
            let dwSize := bytes_of (second a - first a) in
            ReadHits c d (blit pBuf (u32 (dwOff a * BLOCK_SIZE G)) (shift (d_data b) off) dwSize)
              (u32 (dwBytes + dwSize))
      end
  end.

(** [ReadWriteFile]: the number of bytes or an error. *)
Definition ReadFile (off n : Z) (f : file) (pBuf : mem) : mem * Z :=
  if ERROR (io off n) then (pBuf, io off n)
  else (file_read off n f pBuf, Z.max 0 (Z.min n (f_len f - off))).
Definition WriteFile (off n : Z) (pBuf : mem) (f : file) : file * Z :=
  if ERROR (io off n) then (f, io off n) else (file_write off n pBuf f, n).

Fixpoint ReadMisses (c : list CONTBLKS) (f : file) (pBuf : mem) (ret dwBytes : Z) : mem * Z * Z :=
  match c with
  | [] => (pBuf, ret, dwBytes)
  | a :: c =>
      let dwSize := bytes_of (second a - first a) in
      let off := u32 (dwOff a * BLOCK_SIZE G) in
      let '(p, ret) := ReadFile (BLOCK_ABS G (first a)) dwSize f (shift pBuf off) in
      let pBuf := blit pBuf off p dwSize in
      if ERROR ret then (pBuf, ret, dwBytes)
      else ReadMisses c f pBuf ret (u32 (dwBytes + dwSize))
  end.

Definition ReadCache (pBlocks : list Z) (dwNumBlocks : Z) (pBuf : mem) (bContigous : bool)
    (s : cache) : mem * Z :=
  let x := default 0 (head pBlocks) in
  if (x =? SB_IDX) || (x =? GB_IDX) then
    match find_blk x (m_mapDirtyBlks s) with
    | Some b => (blit pBuf 0 (d_data b) (Z.min (bytes_of dwNumBlocks) (d_size b)), 0)
    | None => ReadFile (if x =? GB_IDX then BLOCK_SIZE G else 0) (bytes_of dwNumBlocks) (m_file s) pBuf
    end
  else
    let vecBlks := intervals le_all pBlocks dwNumBlocks bContigous in
    let '(vecBlks, pBuf) := if bContigous then (vecBlks, pBuf) else DropHoles vecBlks pBuf in
    let oCommonBlks := IntersectIntervals G vecBlks (m_mapDirtyBlks s) in
    let oNewBlks := SubtractIntervals vecBlks oCommonBlks in
    let '(pBuf, n) := ReadHits oCommonBlks (m_mapDirtyBlks s) pBuf 0 in
    let '(pBuf, ret, n) := ReadMisses oNewBlks (m_file s) pBuf 0 n in
    (pBuf, if SUCCEEDED ret then s32 n else ret).

(** [MergeBlocks]: [(k, b)] is the current run. *)
Fixpoint MergeLoop (k : Z) (b : dbuf) (d : DirtyBlks) : DirtyBlks :=
  match d with
  | [] => [(k, b)]
  | (k', b') :: d =>
      if k' =? u32 (k + d_size b / BLOCK_SIZE G) then
        if d_size b + d_size b' <=? MAX_BUFFER
        then MergeLoop k (mkBuf (d_size b + d_size b') (blit (d_data b) (d_size b) (d_data b') (d_size b'))) d
        else (k, b) :: MergeLoop k' b' d
      else (k, b) :: MergeLoop k' b' d
  end.
Definition MergeBlocks (s : cache) : cache :=
  match m_mapDirtyBlks s with
  | [] => s
  | (k, b) :: d => set_dirty (MergeLoop k b d) s
  end.

(** [CommitCache]: a failure ends the process. *)
Fixpoint CommitLoop (d : DirtyBlks) (f : file) : outcome file :=
  match d with
  | [] => Ret f
  | (k, b) :: d =>
      let qwOff := if k =? SB_IDX then 0 else if k =? GB_IDX then BLOCK_SIZE G else BLOCK_ABS G k in
      let '(f, ret) := WriteFile qwOff (d_size b) (d_data b) f in
      if ERROR ret then Throw else CommitLoop d f
  end.
Definition CommitCache (s : cache) : outcome (cache * Z) :=
  let! f := CommitLoop (m_mapDirtyBlks s) (m_file s) in
  Ret (set_count 0 (set_dirty [] (set_file f s)), 0).

Definition CACHE_MAX_BLOCKS : Z := BLOCKS_PER_GROUP_FULL.

Definition CheckAndCommit (dwCacheLife now : Z) (bEntering : bool) (s : cache) : outcome (cache * Z) :=
  if negb (m_dwTransCount s =? 0) then Ret (s, - EAGAIN)
  else match m_mapDirtyBlks s with
  | [] => Ret (s, 0)
  | _ =>
      if m_bStopped s || (CACHE_MAX_BLOCKS <=? m_dwDirtyBlkCount s) ||
         ((dwCacheLife <=? now - m_oStartTime s) && bEntering)
      then CommitCache s
      else Ret (s, - EAGAIN)
  end.

(** [BATransact]: the constructor and the destructor, in safe mode. *)
Definition BATransact_enter (dwCacheLife now : Z) (s : cache) : outcome cache :=
  if negb (IsSafeMode G) then Ret s
  else
    let! (s, _) := CheckAndCommit dwCacheLife now true s in
    Ret (set_trans (u32 (m_dwTransCount s + 1)) s).
Definition BATransact_leave (dwCacheLife now : Z) (s : cache) : outcome cache :=
  if negb (IsSafeMode G) then Ret s
  else
    let s := set_trans (u32 (m_dwTransCount s - 1)) s in
    let! (s, _) := CheckAndCommit dwCacheLife now false s in Ret s.

(** *** Without the cache *)

(** The loop of [ReadWriteBlocks2]; [off] counts the bytes of the memory. *)
Fixpoint RWLoop (bRead : bool) (v : list CONTBLKS) (off : Z) (pBuf : mem) (f : file)
    : mem * file * Z * Z :=
  match v with
  | [] => (pBuf, f, 0, off)
  | a :: v =>
      let qs := BLOCK_SIZE G * second a in
      if BLKIDX_BEYOND_MAX G (first a) then (pBuf, f, - ERANGE, off)
      else if MAX_FILE_SIZE G <? qs then (pBuf, f, - ERANGE, off)
      else if first a =? INVALID_BLOCK_IDX then
        if bRead then RWLoop bRead v (u32 (off + qs)) (blit pBuf off (fun _ => 0) qs) f
        else (pBuf, f, - ENODATA, off)
      else
        let '(pBuf, f, ret) :=
          (if bRead then
             let '(p, ret) := ReadFile (BLOCK_ABS G (first a)) qs f (shift pBuf off) in
             (blit pBuf off p qs, f, ret)
           else
             let '(f, ret) := WriteFile (BLOCK_ABS G (first a)) qs (shift pBuf off) f in
             (pBuf, f, ret)) in
        if ERROR ret then (pBuf, f, ret, off) else RWLoop bRead v (u32 (off + qs)) pBuf f
  end.

Definition ReadWriteBlocks2 (bRead : bool) (v : list CONTBLKS) (pBuf : mem) (f : file)
    : mem * file * Z :=
  let '(pBuf, f, ret, off) := RWLoop bRead v 0 pBuf f in
  (pBuf, f, if ERROR ret then ret else s32 off).

Definition ReadWriteBlocks (now : Z) (bRead : bool) (pBlocks : list Z) (dwNumBlocks : Z) (pBuf : mem)
    (bContigous : bool) (s : cache) : outcome (mem * cache * Z) :=
  if dwNumBlocks =? 0 then Ret (pBuf, s, - EINVAL)
  else if IsSafeMode G then
    if bRead then let '(pBuf, ret) := ReadCache pBlocks dwNumBlocks pBuf bContigous s in
                  Ret (pBuf, s, ret)
    else let! (s, ret) := CacheBlocks now pBlocks dwNumBlocks pBuf bContigous s in Ret (pBuf, s, ret)
  else
    let x := default 0 (head pBlocks) in
    let y := default 0 (pBlocks !! Z.to_nat (dwNumBlocks - 1)) in
    let direct :=
      let n := u32 (BLOCK_SIZE G * dwNumBlocks) in
      if bRead then let '(pBuf, ret) := ReadFile (BLOCK_ABS G x) n (m_file s) pBuf in
                    Ret (pBuf, s, ret)
      else let '(f, ret) := WriteFile (BLOCK_ABS G x) n pBuf (m_file s) in
           Ret (pBuf, set_file f s, ret) in
    let runs :=
      let '(v, _) := FindContigousBlocks (firstn (Z.to_nat dwNumBlocks) pBlocks) in
      let '(pBuf, f, ret) := ReadWriteBlocks2 bRead v pBuf (m_file s) in
      Ret (pBuf, set_file f s, ret) in
    if bContigous then
      if negb (u32 (u32 (y - x) + 1) =? dwNumBlocks) then Ret (pBuf, s, - EINVAL)
      else if GROUP_INDEX G x =? GROUP_INDEX G y then direct else runs
    else runs.

(** [ReadBlock] and [WriteBlock] *)
Definition ReadBlock (now dwBlockIdx : Z) (pBuf : mem) (s : cache) : outcome (mem * cache * Z) :=
  if dwBlockIdx =? INVALID_BLOCK_IDX then Ret (pBuf, s, - EINVAL)
  else ReadWriteBlocks now true [dwBlockIdx] 1 pBuf false s.
Definition WriteBlock (now dwBlockIdx : Z) (pBuf : mem) (s : cache) : outcome (mem * cache * Z) :=
  if dwBlockIdx =? INVALID_BLOCK_IDX then Ret (pBuf, s, - EINVAL)
  else ReadWriteBlocks now false [dwBlockIdx] 1 pBuf false s.

(** *** The superblock and the group bitmap *)

Definition or_nodata (ret : Z) : Z := if ret =? 0 then - ENODATA else ret.

Definition SaveSuperBlock (now : Z) (pSb : mem) (dwSize : Z) (s : cache) : outcome (cache * Z) :=
  if dwSize <? BLOCK_SIZE G then Ret (s, - EINVAL)
  else if IsSafeMode G then
    let! (s, ret) := CacheBlocks now [SB_IDX] 1 pSb false s in Ret (s, or_nodata ret)
  else let '(f, ret) := WriteFile 0 (BLOCK_SIZE G) pSb (m_file s) in Ret (set_file f s, or_nodata ret).

Definition LoadSuperBlock (pSb : mem) (dwSize : Z) (s : cache) : mem * Z :=
  if dwSize <? BLOCK_SIZE G then (pSb, - EINVAL)
  else if IsSafeMode G then ReadCache [SB_IDX] 1 pSb false s
  else let '(p, ret) := ReadFile 0 (BLOCK_SIZE G) (m_file s) pSb in (p, or_nodata ret).

Definition SaveGroupBitmap (now : Z) (pbmp : mem) (dwSize : Z) (s : cache) : outcome (cache * Z) :=
  if dwSize <? GRPBMP_SIZE G then Ret (s, - EINVAL)
  else if IsSafeMode G then
    let! (s, ret) := CacheBlocks now [GB_IDX] (GRPBMP_BLKNUM G) pbmp false s in Ret (s, or_nodata ret)
  else let '(f, ret) := WriteFile (BLOCK_SIZE G) (GRPBMP_SIZE G) pbmp (m_file s) in
       Ret (set_file f s, or_nodata ret).

Definition LoadGroupBitmap (pbmp : mem) (dwSize : Z) (s : cache) : mem * Z :=
  if dwSize <? GRPBMP_SIZE G then (pbmp, - EINVAL)
  else if IsSafeMode G then ReadCache [GB_IDX] 1 pbmp false s
  else let '(p, ret) := ReadFile (BLOCK_SIZE G) (GRPBMP_SIZE G) (m_file s) pbmp in (p, or_nodata ret).

End IO.

(** ** Reference notions *)

(** Where the data of the groups start. *)
Definition base_addr (G : geometry) : Z := BLOCK_SIZE G + GRPBMP_SIZE G.

(** The number of a block that can be allocated, and whose address has 32 bits. *)
Definition valid_blk (G : geometry) (x : Z) : Prop :=
  0 <= x < BLKGRP_NUMBER_FULL G * BLOCKS_PER_GROUP_FULL /\ x mod 2 ^ 16 < BLOCKS_PER_GROUP /\
  (x + 1) * BLOCK_SIZE G + base_addr G <= 2 ^ 32.

(** The block [x] belongs in place [p] of the caller's memory. *)
Definition covers (v : list CONTBLKS) (x p : Z) : Prop :=
  exists a, a ∈ v /\ first a <= x < second a /\ p = dwOff a + (x - first a).

(** Intervals that follow each other from [lo] on. *)
Fixpoint isorted (lo : Z) (v : list CONTBLKS) : Prop :=
  match v with
  | [] => True
  | a :: v => lo <= first a < second a /\ isorted (second a) v
  end.

Definition dend (G : geometry) (e : Z * dbuf) : Z := e.1 + d_size e.2 / BLOCK_SIZE G.

(** Block numbers are below this bound: the addresses have 32 bits, and a block
    at least 512 bytes. *)
Definition BLK_MAX : Z := 2 ^ 23.

(** The cache in order, from the number [lo] on: runs of whole blocks that do
    not meet, then the group bitmap, then the superblock. *)
Inductive entries (G : geometry) : Z -> DirtyBlks -> Prop :=
  | en_nil lo : entries G lo []
  | en_blk lo k b n d :
      lo <= k -> 0 < n -> d_size b = BLOCK_SIZE G * n -> (forall x, k <= x < k + n -> valid_blk G x) ->
      entries G (k + n) d -> entries G lo ((k, b) :: d)
  | en_gb lo b d :
      lo <= GB_IDX -> d_size b = GRPBMP_SIZE G -> entries G (GB_IDX + 1) d ->
      entries G lo ((GB_IDX, b) :: d)
  | en_sb lo b : lo <= SB_IDX -> d_size b = BLOCK_SIZE G -> entries G lo [(SB_IDX, b)].

(** ** Lemmas: addresses *)

Lemma group_index G x :
  geom_ok G -> 0 <= x < BLKGRP_NUMBER_FULL G * BLOCKS_PER_GROUP_FULL -> GROUP_INDEX G x = x / 2 ^ 16.
Proof.
  intros HG Hx. unfold BLKGRP_NUMBER_FULL, BLOCKS_PER_GROUP_FULL in Hx. change (64 * 1024) with (2 ^ 16) in Hx.
  unfold GROUP_INDEX, GROUP_IDX_MASK. change GROUP_INDEX_SHIFT with 16.
  rewrite Z.shiftr_div_pow2 by lia. rewrite Z.shiftl_1_l in *.
  destruct (Z.lt_ge_cases (GROUP_SHIFT G) 0) as [Hn|Hn].
  { rewrite (Z.pow_neg_r 2) in Hx by done. lia. }
  replace (2 ^ GROUP_SHIFT G - 1) with (Z.ones (GROUP_SHIFT G)) by (rewrite Z.ones_equiv; lia).
  rewrite Z.land_ones by done. apply Z.mod_small.
  split; [apply Z.div_pos; lia|]. apply Z.div_lt_upper_bound; lia.
Qed.

Lemma BLOCK_ABS_val G x :
  geom_ok G -> 0 <= x < BLKGRP_NUMBER_FULL G * BLOCKS_PER_GROUP_FULL ->
  (x + 1) * BLOCK_SIZE G + base_addr G <= 2 ^ 32 ->
  BLOCK_ABS G x = x * BLOCK_SIZE G + base_addr G.
Proof.
  intros HG Hx Ha. pose proof (geom_bounds G HG) as (HB & _ & _).
  destruct (group_bounds G HG) as (m & M1 & M2 & M3 & M4). pose proof (group_index G x HG Hx) as HI.
  unfold BLOCK_ABS, ABS_ADDR, BLOCK_LA, GROUP_START, GROUP_SIZE. rewrite HI.
  change BLOCKS_PER_GROUP_FULL with (2 ^ 16). rewrite (u32_small (2 ^ 16 * _)) by lia.
  change BLOCK_IDX_MASK with (Z.ones 16). rewrite Z.land_ones by lia.
  pose proof (Z.div_mod x (2 ^ 16)). pose proof (Z.mod_pos_bound x (2 ^ 16)).
  pose proof (Z.div_pos x (2 ^ 16)). unfold base_addr in *.
  set (g := x / 2 ^ 16) in *. set (i := x mod 2 ^ 16) in *.
  assert (0 <= GRPBMP_SIZE G) by lia.
  rewrite (u32_small (g * _)) by nia. rewrite (u32_small (i * _)) by nia.
  rewrite (u32_small (g * _ + _)) by nia. rewrite u32_small by nia. nia.
Qed.

Lemma valid_small G x : geom_ok G -> valid_blk G x -> 0 <= x < 2 ^ 23 /\ x <> INVALID_BLOCK_IDX.
Proof.
  intros HG (H1 & H2 & H3). pose proof (geom_bounds G HG) as (HB & _ & _).
  destruct (group_bounds G HG) as (m & M1 & M2 & M3 & M4). unfold base_addr in H3.
  split; [nia|]. intros ->. unfold INVALID_BLOCK_IDX in H2.
  change (65535 mod 2 ^ 16) with 65535 in H2. assert (BLOCKS_PER_GROUP = 65520) by done. lia.
Qed.

(** ** Lemmas: intervals *)

Lemma isorted_mono lo lo' v : lo' <= lo -> isorted lo v -> isorted lo' v.
Proof. destruct v; simpl; [done|]. intros Hl [H1 H2]. split; [lia|done]. Qed.

Lemma isorted_app lo v a w :
  isorted lo (v ++ a :: w) <-> isorted lo (v ++ [a]) /\ isorted (second a) w.
Proof.
  revert lo. induction v as [|b v IH]; intros lo; simpl; [tauto|]. rewrite IH. tauto.
Qed.

Lemma isorted_in lo v a : isorted lo v -> a ∈ v -> lo <= first a < second a.
Proof.
  revert lo. induction v as [|b v IH]; intros lo; simpl; [set_solver|]. intros [H1 H2] Ha.
  apply elem_of_cons in Ha as [->|Ha]; [done|]. specialize (IH _ H2 Ha). lia.
Qed.

(** In sorted intervals a block has one place. *)
Lemma isorted_unique lo v a b x :
  isorted lo v -> a ∈ v -> b ∈ v -> first a <= x < second a -> first b <= x < second b -> a = b.
Proof.
  revert lo. induction v as [|c v IH]; intros lo; simpl; [set_solver|]. intros [H1 H2] Ha Hb Hxa Hxb.
  apply elem_of_cons in Ha as [->|Ha], Hb as [->|Hb]; [done| | |by eapply IH].
  - pose proof (isorted_in _ _ _ H2 Hb). lia.
  - pose proof (isorted_in _ _ _ H2 Ha). lia.
Qed.

Lemma covers_cons a v x p :
  covers (a :: v) x p <-> (first a <= x < second a /\ p = dwOff a + (x - first a)) \/ covers v x p.
Proof. unfold covers. set_unfold. naive_solver. Qed.

Lemma covers_app v w x p : covers (v ++ w) x p <-> covers v x p \/ covers w x p.
Proof. unfold covers. set_unfold. naive_solver. Qed.

(** *** The entries of the cache *)

Section Entries.
Context (G : geometry) (HG : geom_ok G).

Lemma valid_max x : valid_blk G x -> 0 <= x < BLK_MAX /\ x <> INVALID_BLOCK_IDX.
Proof. apply valid_small, HG. Qed.

Lemma blk_dend k b n : d_size b = BLOCK_SIZE G * n -> dend G (k, b) = k + n.
Proof.
  intros E. pose proof (geom_bounds G HG) as (HB & _ & _). unfold dend. simpl.
  rewrite E, Z.mul_comm, Z.div_mul by lia. done.
Qed.

Lemma entries_mono lo lo' d : lo' <= lo -> entries G lo d -> entries G lo' d.
Proof. intros Hl H. destruct H; econstructor; eauto; lia. Qed.

(** What an entry is. *)
Definition blk_entry (e : Z * dbuf) : Prop :=
  exists n, 0 < n /\ d_size e.2 = BLOCK_SIZE G * n /\ dend G e = e.1 + n /\
    (forall x, e.1 <= x < e.1 + n -> valid_blk G x).
Definition entry_ok (e : Z * dbuf) : Prop :=
  blk_entry e \/ (e.1 = GB_IDX /\ d_size e.2 = GRPBMP_SIZE G) \/ (e.1 = SB_IDX /\ d_size e.2 = BLOCK_SIZE G).

Lemma entries_in lo d e : entries G lo d -> e ∈ d -> lo <= e.1 /\ entry_ok e.
Proof.
  induction 1 as [lo|lo k b n d Hk Hn Hsz Hv _ IH|lo b d Hlo Hsz _ IH|lo b Hlo Hsz]; intros He; [set_solver| | |];
    apply elem_of_cons in He as [->|He].
  - simpl. split; [done|]. left. exists n. split_and!; [done|done|by apply blk_dend|done].
  - destruct (IH He). split; [lia|done].
  - split; [done|]. by right; left.
  - destruct (IH He). split; [lia|done].
  - split; [done|]. by right; right.
  - set_solver.
Qed.

Lemma blk_entry_bound e : blk_entry e -> 0 <= e.1 /\ e.1 < dend G e <= BLK_MAX.
Proof.
  intros (n & Hn & _ & -> & Hv). pose proof (valid_max e.1 (Hv e.1 ltac:(lia))).
  pose proof (valid_max (e.1 + n - 1) (Hv (e.1 + n - 1) ltac:(lia))). lia.
Qed.

Lemma blk_entry_end e : blk_entry e -> end_of G e = dend G e.
Proof.
  intros H. pose proof (blk_entry_bound e H). unfold end_of. apply u32_small.
  unfold BLK_MAX in *. unfold dend in *. lia.
Qed.

Lemma entry_low e : entry_ok e -> e.1 < BLK_MAX -> blk_entry e.
Proof. intros [H|[[H _]|[H _]]] Hlt; [done| |]; rewrite H in Hlt; done. Qed.

Lemma entries_high lo d : BLK_MAX <= lo -> entries G lo d -> Forall (fun e => BLK_MAX <= e.1) d.
Proof.
  intros Hlo H. apply Forall_forall. intros e He. destruct (entries_in lo d e H He). lia.
Qed.

(** The head is a run of blocks, or there are none. *)
Lemma entries_cons lo e d :
  entries G lo (e :: d) ->
  (lo <= e.1 /\ blk_entry e /\ entries G (dend G e) d) \/ Forall (fun e => BLK_MAX <= e.1) (e :: d).
Proof.
  intros H. inversion H as [|? k b n d' Hk Hn Hsz Hv Hd|? b d' Hlo Hsz Hd|? b Hlo Hsz]; subst.
  - left. rewrite (blk_dend k b n) by done. split_and!; [done| |done].
    exists n. split_and!; [done|done|by apply blk_dend|done].
  - right. constructor; [done|]. by eapply entries_high, Hd.
  - right. by repeat constructor.
Qed.

Lemma entries_tail lo e d : entries G lo (e :: d) -> exists lo', lo <= e.1 < lo' /\ entries G lo' d.
Proof.
  inversion 1 as [|? k b n d' Hk Hn Hsz Hv Hd|? b d' Hlo Hsz Hd|? b Hlo Hsz]; subst; simpl.
  - exists (k + n). split; [lia|done].
  - exists (GB_IDX + 1). split; [lia|done].
  - exists (SB_IDX + 1). split; [lia|constructor].
Qed.

(** Entries do not meet. *)
Lemma entries_disjoint lo d e e' x :
  entries G lo d -> e ∈ d -> e' ∈ d -> blk_entry e -> blk_entry e' ->
  e.1 <= x < dend G e -> e'.1 <= x < dend G e' -> e = e'.
Proof.
  revert lo. induction d as [|e0 d IH]; intros lo Hd He He' Hb Hb' Hx Hx'; [set_solver|].
  pose proof (blk_entry_bound e Hb). pose proof (blk_entry_bound e' Hb').
  destruct (entries_cons lo e0 d Hd) as [(H1 & H2 & H3)|Hall].
  2: { rewrite Forall_forall in Hall. specialize (Hall e He). lia. }
  apply elem_of_cons in He as [->|He], He' as [->|He']; [done| | |by eapply IH].
  - destruct (entries_in _ _ _ H3 He'). lia.
  - destruct (entries_in _ _ _ H3 He). lia.
Qed.

(** *** The intersection with the cache *)

Lemma inter_high v d :
  (forall a, a ∈ v -> second a <= BLK_MAX) -> Forall (fun e => BLK_MAX <= e.1) d -> IntersectLoop G v d = [].
Proof.
  revert d. induction v as [|a v IHv]; intros d Hv Hd; [done|].
  assert (forall d, Forall (fun e => BLK_MAX <= e.1) d -> IntersectLoop G v d = []) as IH
    by (intros; apply IHv; set_solver).
  pose proof (Hv a ltac:(set_solver)) as Ha. clear IHv Hv.
  induction Hd as [|e d He Hd IHd]; [done|]. cbn [IntersectLoop].
  destruct (Z.ltb_spec (Z.max (first a) e.1) (Z.min (second a) (end_of G e))); [lia|].
  cbn [app]. destruct (second a <? end_of G e); [|exact IHd].
  apply IH. by constructor.
Qed.

(** [r] is a part of [a]. *)
Definition part_of (a r : CONTBLKS) : Prop :=
  first a <= first r /\ second r <= second a /\ dwOff r = dwOff a + (first r - first a).
(** [r] lies in the entry [e]. *)
Definition inside (e : Z * dbuf) (r : CONTBLKS) : Prop :=
  blk_entry e /\ e.1 <= first r /\ second r <= dend G e /\ dwKey r = e.1.

(** What the intersection is: parts of the intervals that lie in an entry each,
    in order, and all of them. *)
Record inter_of (lo : Z) (v : list CONTBLKS) (d : DirtyBlks) (out : list CONTBLKS) : Prop := mkInter {
  it_sorted : isorted lo out;
  it_in : forall r, r ∈ out -> exists a e, a ∈ v /\ e ∈ d /\ part_of a r /\ inside e r;
  it_all : forall a e x, a ∈ v -> e ∈ d -> blk_entry e -> first a <= x < second a -> e.1 <= x < dend G e ->
    exists r, r ∈ out /\ first r <= x < second r;
}.

Lemma inter_of_nil lo v d :
  (forall a e x, a ∈ v -> e ∈ d -> blk_entry e -> first a <= x < second a -> e.1 <= x < dend G e -> False) ->
  inter_of lo v d [].
Proof.
  intros H. split; [done|set_solver|]. intros a e x ? ? ? ? ?. exfalso. by eapply H.
Qed.

(** One step of the loop: what the interval [a] and the entry [e] share, then
    what comes later. *)
Lemma inter_step lo a e res out :
  let start := Z.max (first a) e.1 in
  let fin := Z.min (second a) (dend G e) in
  res = (if start <? fin then [mkBlks start fin (u32 (dwOff a + (start - first a))) e.1] else []) ->
  blk_entry e -> lo <= start -> 0 <= dwOff a -> dwOff a + (second a - first a) <= 2 ^ 32 ->
  isorted (Z.max lo fin) out ->
  isorted lo (res ++ out) /\
  (forall r, r ∈ res -> part_of a r /\ inside e r) /\
  (forall x, first a <= x < second a -> e.1 <= x < dend G e -> exists r, r ∈ res /\ first r <= x < second r).
Proof.
  intros start fin -> He Hlo Ho1 Ho2 Hout. pose proof (blk_entry_bound e He).
  destruct (Z.ltb_spec start fin) as [Hlt|Hge].
  - split_and!.
    + simpl. split; [unfold start, fin in *; lia|]. eapply isorted_mono, Hout. lia.
    + intros r Hr. apply list_elem_of_singleton in Hr as ->. unfold part_of, inside. simpl.
      rewrite u32_small by (unfold start, fin in *; lia). unfold start, fin in *. split_and!; try done; lia.
    + intros x Hx1 Hx2. eexists. split; [by apply list_elem_of_singleton|]. simpl. unfold start, fin. lia.
  - split_and!.
    + simpl. eapply isorted_mono, Hout. lia.
    + set_solver.
    + intros x Hx1 Hx2. unfold start, fin in *. lia.
Qed.

(** Where the intervals are in the caller's memory. *)
Definition off_ok (v : list CONTBLKS) : Prop :=
  forall a, a ∈ v -> 0 <= dwOff a /\ dwOff a + (second a - first a) <= 2 ^ 32.
Definition below_max (v : list CONTBLKS) : Prop := forall a, a ∈ v -> second a <= BLK_MAX.

Lemma inter_app lo v d a e res out :
  a ∈ v -> e ∈ d -> isorted lo (res ++ out) ->
  (forall r, r ∈ res -> part_of a r /\ inside e r) ->
  (forall r, r ∈ out -> exists a e, a ∈ v /\ e ∈ d /\ part_of a r /\ inside e r) ->
  (forall a' e' x, a' ∈ v -> e' ∈ d -> blk_entry e' -> first a' <= x < second a' -> e'.1 <= x < dend G e' ->
     exists r, (r ∈ res \/ r ∈ out) /\ first r <= x < second r) ->
  inter_of lo v d (res ++ out).
Proof.
  intros Ha He Hs H1 H2 H3. split; [done| |].
  - intros r Hr. apply elem_of_app in Hr as [Hr|Hr]; [|by apply H2]. exists a, e. destruct (H1 r Hr). done.
  - intros a' e' x Ha' He' Hb Hx Hx'. destruct (H3 a' e' x Ha' He' Hb Hx Hx') as (r & Hr & Hrx).
    exists r. rewrite elem_of_app. done.
Qed.

Lemma entries_self lo e d : entries G lo (e :: d) -> entries G e.1 (e :: d).
Proof. inversion 1; subst; econstructor; eauto; done. Qed.

Lemma inter_spec v d lo lod :
  isorted lo v -> entries G lod d -> below_max v -> off_ok v ->
  inter_of (Z.max lo lod) v d (IntersectLoop G v d).
Proof.
  revert d lo lod. induction v as [|a v IHv]; intros d lo lod Hs Hd Hv Ho.
  { apply inter_of_nil. set_solver. }
  revert lod Hd. induction d as [|e d IHd]; intros lod Hd.
  { apply inter_of_nil. set_solver. }
  destruct (entries_cons lod e d Hd) as [(Hd1 & Hd2 & Hd3)|Hhigh].
  2: { rewrite inter_high by done. apply inter_of_nil. intros b e' x Hb He' Hbe Hx Hx'.
       rewrite Forall_forall in Hhigh. specialize (Hhigh e' He'). pose proof (blk_entry_bound e' Hbe). lia. }
  cbn [IntersectLoop]. rewrite (blk_entry_end e Hd2). pose proof Hs as [Hs1 Hs2].
  destruct (Ho a ltac:(set_solver)) as [Ho1 Ho2]. pose proof (blk_entry_bound e Hd2).
  set (start := Z.max (first a) e.1). set (fin := Z.min (second a) (dend G e)).
  set (res := if start <? fin then _ else _).
  destruct (Z.ltb_spec (second a) (dend G e)) as [Hlt|Hge].
  - destruct (IHv (e :: d) (second a) e.1) as [I1 I2 I3];
      [done|by eapply entries_self|set_solver|set_solver|].
    destruct (inter_step (Z.max lo lod) a e res (IntersectLoop G v (e :: d)) eq_refl) as (R1 & R2 & R3);
      [done|lia|lia|lia|eapply isorted_mono, I1; lia|].
    eapply (inter_app _ _ _ a e); [set_solver|set_solver|done|done|set_solver|].
    intros a' e' x Ha' He' Hb Hx Hx'. apply elem_of_cons in Ha' as [->|Ha'].
    + enough (e' = e) as -> by (destruct (R3 x) as (r & ? & ?); [done..|]; exists r; auto).
      apply elem_of_cons in He' as [|He']; [done|]. destruct (entries_in _ _ _ Hd3 He'). lia.
    + destruct (I3 a' e' x Ha' He' Hb Hx Hx') as (r & ? & ?). exists r; auto.
  - destruct (IHd (dend G e) Hd3) as [I1 I2 I3].
    destruct (inter_step (Z.max lo lod) a e res (IntersectLoop G (a :: v) d) eq_refl) as (R1 & R2 & R3);
      [done|lia|lia|lia|eapply isorted_mono, I1; lia|].
    eapply (inter_app _ _ _ a e); [set_solver|set_solver|done|done|set_solver|].
    intros a' e' x Ha' He' Hb Hx Hx'. apply elem_of_cons in He' as [->|He'].
    + enough (a' = a) as -> by (destruct (R3 x) as (r & ? & ?); [done..|]; exists r; auto).
      apply elem_of_cons in Ha' as [|Ha']; [done|]. pose proof (isorted_in _ _ _ Hs2 Ha'). lia.
    + destruct (I3 a' e' x Ha' He' Hb Hx Hx') as (r & ? & ?). exists r; auto.
Qed.

(** What [start_at] drops ends before [x]. *)
Lemma start_at_spec x lo d :
  entries G lo d -> exists lo', lo <= lo' /\ entries G lo' (start_at x d) /\
    (forall e, e ∈ start_at x d -> e ∈ d) /\
    (forall e, e ∈ d -> blk_entry e -> x < dend G e -> e ∈ start_at x d).
Proof.
  revert lo. induction d as [|e d IH]; intros lo Hd.
  { exists lo. split_and!; set_solver. }
  destruct d as [|e1 d1]; [exists lo; split_and!; try done; lia|]. destruct e as [k b], e1 as [k1 b1].
  cbn [start_at]. destruct (Z.ltb_spec k1 x) as [Hlt|Hge]; [|exists lo; split_and!; try done; lia].
  destruct (entries_tail _ _ _ Hd) as (lo1 & Hlo1 & Hd1). destruct (IH lo1 Hd1) as (lo2 & I1 & I2 & I3 & I4).
  exists lo2. split_and!; [simpl in *; lia|done|set_solver|].
  intros e He Hb Hx. apply elem_of_cons in He as [->|He]; [|by apply I4].
  exfalso. destruct (entries_cons _ _ _ Hd) as [(_ & _ & H3)|Hall].
  - destruct (entries_in _ _ (k1, b1) H3 ltac:(set_solver)). simpl in *. lia.
  - rewrite Forall_forall in Hall. pose proof (Hall (k, b) ltac:(set_solver)).
    pose proof (blk_entry_bound _ Hb). lia.
Qed.

Lemma IntersectIntervals_spec v d lo lod :
  isorted lo v -> entries G lod d -> below_max v -> off_ok v ->
  inter_of (Z.max lo lod) v d (IntersectIntervals G v d).
Proof.
  intros Hs Hd Hv Ho. destruct v as [|a v]; [apply inter_of_nil; set_solver|].
  unfold IntersectIntervals. destruct (start_at_spec (first a) lod d Hd) as (lo' & Hlo & Hd' & Hin & Hall).
  destruct (inter_spec (a :: v) _ lo lo' Hs Hd' Hv Ho) as [I1 I2 I3]. split.
  - eapply isorted_mono, I1. lia.
  - intros r Hr. destruct (I2 r Hr) as (a' & e & ? & ? & ?). exists a', e. auto.
  - intros a' e x Ha' He Hb Hx Hx'. eapply I3; [done| |done|done|done]. apply Hall; [done|done|].
    enough (first a <= first a') by lia. destruct Hs as [Hs1 Hs2].
    apply elem_of_cons in Ha' as [->|Ha']; [lia|]. pose proof (isorted_in _ _ _ Hs2 Ha'). lia.
Qed.
End Entries.

(** *** The difference *)

Definition in_blks (v : list CONTBLKS) (x : Z) : Prop := exists a, a ∈ v /\ first a <= x < second a.

Lemma in_blks_cons a v x : in_blks (a :: v) x <-> first a <= x < second a \/ in_blks v x.
Proof. unfold in_blks. set_unfold. naive_solver. Qed.

Lemma in_blks_app v w x : in_blks (v ++ w) x <-> in_blks v x \/ in_blks w x.
Proof. unfold in_blks. set_unfold. naive_solver. Qed.

Lemma in_blks_lo lo v x : isorted lo v -> in_blks v x -> lo <= x.
Proof. intros H (a & Ha & Hx). pose proof (isorted_in _ _ _ H Ha). lia. Qed.

Lemma skip_before_none lo v : isorted lo v -> skip_before lo v = v.
Proof. destruct v as [|a v]; [done|]. intros [H _]. simpl. destruct (Z.leb_spec (second a) lo); [lia|done]. Qed.

(** The gaps that one interval leaves: the loop and the last piece. *)
Definition gaps (a : CONTBLKS) (cs : Z) (c : list CONTBLKS) : list CONTBLKS * list CONTBLKS :=
  let '(r, cs, c) := GapLoop a cs c in (r ++ (if cs <? second a then [part a cs (second a)] else []), c).

Lemma gaps_cons a cs x c :
  gaps a cs (x :: c) =
  if first x <? second a then
    ((if cs <? first x then [part a cs (first x)] else []) ++ (gaps a (Z.max cs (second x)) c).1,
     (gaps a (Z.max cs (second x)) c).2)
  else (if cs <? second a then [part a cs (second a)] else [], x :: c).
Proof.
  unfold gaps. cbn [GapLoop]. destruct (first x <? second a); [|done].
  destruct (GapLoop a _ c) as [[r cs'] c']. simpl. by rewrite app_assoc.
Qed.

Lemma SubtractLoop_cons a v c :
  SubtractLoop (a :: v) c =
  let '(g, c') := gaps a (first a) (skip_before (first a) c) in g ++ SubtractLoop v c'.
Proof.
  unfold gaps. cbn [SubtractLoop]. destruct (GapLoop a _ _) as [[r cs'] c']. by rewrite <- app_assoc.
Qed.

Lemma isorted_app_lo lo v mid w :
  isorted lo v -> (forall a, a ∈ v -> second a <= mid) -> lo <= mid -> isorted mid w -> isorted lo (v ++ w).
Proof.
  revert lo. induction v as [|a v IH]; intros lo Hv Hm Hl Hw; simpl.
  - by eapply isorted_mono.
  - destruct Hv as [H1 H2]. split; [done|]. apply IH; [done|set_solver|apply Hm; set_solver|done].
Qed.

(** One gap. *)
Lemma gap_spec a cs fin :
  first a <= cs <= fin -> fin <= second a -> 0 <= dwOff a -> dwOff a + (second a - first a) <= 2 ^ 32 ->
  let p := if cs <? fin then [part a cs fin] else [] in
  isorted cs p /\ (forall r, r ∈ p -> part_of a r /\ second r = fin) /\ (forall y, in_blks p y <-> cs <= y < fin).
Proof.
  intros H1 H2 Ho1 Ho2. simpl. destruct (Z.ltb_spec cs fin) as [Hlt|Hge]; split_and!.
  - simpl. lia.
  - intros r Hr. apply list_elem_of_singleton in Hr as ->. unfold part_of, part. simpl.
    rewrite u32_small by lia. lia.
  - intros y. rewrite in_blks_cons. unfold in_blks. simpl. set_solver.
  - done.
  - set_solver.
  - intros y. unfold in_blks. split; [set_solver|lia].
Qed.

(** What is left of [a] from [cs] on, [c] following [cs]. *)
Lemma gaps_spec a cs c :
  first a <= cs <= second a -> 0 <= dwOff a -> dwOff a + (second a - first a) <= 2 ^ 32 ->
  isorted cs c -> (forall x, x ∈ c -> second x <= second a \/ second a <= first x) ->
  let '(g, c') := gaps a cs c in
  isorted cs g /\ (forall r, r ∈ g -> part_of a r) /\ isorted (second a) c' /\
  (exists c1, c = c1 ++ c' /\ (forall y, in_blks c1 y -> y < second a)) /\
  (forall y, in_blks g y <-> cs <= y < second a /\ ~ in_blks c y).
Proof.
  intros Hcs Ho1 Ho2. revert cs Hcs. induction c as [|x c IH]; intros cs Hcs Hs Hin.
  - unfold gaps. cbn [GapLoop app]. destruct (gap_spec a cs (second a)) as (P1 & P2 & P3); [lia..|].
    split_and!; [done|by intros r Hr; apply P2|done| |].
    + exists []. split; [done|]. intros y (b & Hb & _). set_solver.
    + intros y. rewrite P3. unfold in_blks. set_solver.
  - rewrite gaps_cons. pose proof Hs as [Hx Hs']. destruct (Z.ltb_spec (first x) (second a)) as [Hlt|Hge].
    + assert (second x <= second a) as Hxa by (destruct (Hin x ltac:(set_solver)); lia).
      rewrite Z.max_r by lia. specialize (IH (second x) ltac:(lia) Hs' ltac:(set_solver)).
      destruct (gap_spec a cs (first x)) as (P1 & P2 & P3); [lia..|].
      destruct (gaps a (second x) c) as [g c']. destruct IH as (I1 & I2 & I3 & (c1 & -> & I4) & I5).
      cbn [fst snd]. split_and!.
      * eapply (isorted_app_lo _ _ (first x)); [done|intros r Hr; destruct (P2 r Hr); lia|lia|].
        eapply isorted_mono, I1. lia.
      * intros r Hr. apply elem_of_app in Hr as [Hr|Hr]; [by apply P2|by apply I2].
      * done.
      * exists (x :: c1). split; [done|]. intros y Hy. apply in_blks_cons in Hy as [Hy|Hy]; [lia|by apply I4].
      * intros y. rewrite in_blks_app, in_blks_cons, I5, P3. pose proof (in_blks_lo _ _ y Hs') as Hlo.
        split.
        -- intros [Hy|[Hy Hn]]; (split; [lia|]); intros [?|Hc]; [lia|specialize (Hlo Hc); lia|lia|done].
        -- intros [Hy Hn]. destruct (Z.lt_ge_cases y (first x)); [left; lia|right].
           split; [|tauto]. destruct (Z.lt_ge_cases y (second x)); [|lia]. exfalso. apply Hn. left. lia.
    + destruct (gap_spec a cs (second a)) as (P1 & P2 & P3); [lia..|].
      assert (isorted (second a) (x :: c)) as Hs2 by (split; [lia|done]).
      split_and!; [done|by intros r Hr; apply P2|done| |].
      * exists []. split; [done|]. intros y (b & Hb & _). set_solver.
      * intros y. rewrite P3. split; [|tauto]. intros Hy. split; [done|]. intros Hc.
        pose proof (in_blks_lo _ _ y Hs2 Hc). lia.
Qed.

Record sub_of (lo : Z) (v c out : list CONTBLKS) : Prop := mkSub {
  sb_sorted : isorted lo out;
  sb_in : forall r, r ∈ out -> exists a, a ∈ v /\ part_of a r;
  sb_all : forall x, in_blks out x <-> in_blks v x /\ ~ in_blks c x;
}.

Lemma SubtractLoop_spec lo v c :
  isorted lo v -> isorted lo c -> off_ok v ->
  (forall r, r ∈ c -> exists a, a ∈ v /\ part_of a r) -> sub_of lo v c (SubtractLoop v c).
Proof.
  revert lo c. induction v as [|a v IH]; intros lo c Hv Hc Ho Hin.
  { split; [done|set_solver|]. intros x. unfold in_blks. set_solver. }
  destruct Hv as [Hv1 Hv2]. destruct (Ho a ltac:(set_solver)) as [Ho1 Ho2].
  assert (isorted (first a) c) as Hc'.
  { destruct c as [|r c]; [done|]. destruct Hc as [Hc1 Hc2]. split; [|done].
    destruct (Hin r ltac:(set_solver)) as (b & Hb & Hp & _). apply elem_of_cons in Hb as [->|Hb]; [lia|].
    pose proof (isorted_in _ _ _ Hv2 Hb). lia. }
  rewrite SubtractLoop_cons, (skip_before_none _ _ Hc').
  pose proof (gaps_spec a (first a) c ltac:(lia) Ho1 Ho2 Hc') as Hg.
  destruct (gaps a (first a) c) as [g c']. destruct Hg as (G1 & G2 & G3 & (c1 & -> & G4) & G5).
  { intros r Hr. destruct (Hin r Hr) as (b & Hb & Hp1 & Hp2 & _). apply elem_of_cons in Hb as [->|Hb]; [lia|].
    right. pose proof (isorted_in _ _ _ Hv2 Hb). lia. }
  destruct (IH (second a) c' Hv2 G3) as [I1 I2 I3].
  { set_solver. }
  { intros r Hr. destruct (Hin r ltac:(set_solver)) as (b & Hb & Hp). exists b. split; [|done].
    apply elem_of_cons in Hb as [->|Hb]; [|done]. destruct Hp as (_ & Hp & _).
    pose proof (isorted_in _ _ _ G3 Hr). lia. }
  split.
  - eapply (isorted_app_lo _ _ (second a)).
    + eapply isorted_mono, G1. lia.
    + intros r Hr. by destruct (G2 r Hr) as (_ & ? & _).
    + lia.
    + done.
  - intros r Hr. apply elem_of_app in Hr as [Hr|Hr].
    + exists a. split; [set_solver|by apply G2].
    + destruct (I2 r Hr) as (b & ? & ?). exists b. set_solver.
  - intros x. rewrite in_blks_app, in_blks_cons, G5, I3, !in_blks_app.
    pose proof (in_blks_lo _ _ x Hv2). pose proof (in_blks_lo _ _ x G3). pose proof (G4 x).
    split.
    + intros [[? ?]|[? ?]]; [tauto|]. split; [tauto|]. intros [?|?]; [|done].
      specialize (H H2). specialize (H1 H4). lia.
    + intros [[?|?] ?]; [left; tauto|right; tauto].
Qed.

Lemma SubtractIntervals_spec lo v c :
  isorted lo v -> isorted lo c -> off_ok v ->
  (forall r, r ∈ c -> exists a, a ∈ v /\ part_of a r) -> sub_of lo v c (SubtractIntervals v c).
Proof.
  destruct c as [|r c]; [|by apply SubtractLoop_spec]. intros Hv _ _ _. split; [done| |].
  - intros r Hr. exists r. unfold part_of. split_and!; [done|lia..].
  - intros x. unfold in_blks at 3. set_solver.
Qed.

(** *** The intervals of a request *)

(** The blocks that a call is about, in the order of the caller's memory. *)
Definition request (pBlocks : list Z) (dwNumBlocks : Z) (bContigous : bool) : list Z :=
  if bContigous then seqZ (default 0 (head pBlocks)) dwNumBlocks
  else firstn (Z.to_nat dwNumBlocks) pBlocks.

(** Its blocks with their places. *)
Definition placed (off : Z) (l : list Z) : list (Z * Z) := imap (fun i x => (x, off + Z.of_nat i)) l.

Definition hole (a : CONTBLKS) : Prop := first a = INVALID_BLOCK_IDX.
#[export] Instance hole_dec a : Decision (hole a) := decide (first a = INVALID_BLOCK_IDX).

Definition cells1 (a : CONTBLKS) : list (Z * Z) :=
  (fun i => (if decide (hole a) then INVALID_BLOCK_IDX else first a + i, dwOff a + i)) <$>
    seqZ 0 (second a - first a).
Definition cells (v : list CONTBLKS) : list (Z * Z) := v ≫= cells1.

Lemma seqZ_one m : seqZ m 1 = [m].
Proof. rewrite seqZ_cons, seqZ_nil by lia. done. Qed.

Lemma placed_cons off x l : placed off (x :: l) = (x, off) :: placed (off + 1) l.
Proof.
  unfold placed. simpl. f_equal; [f_equal; lia|]. apply imap_ext. intros i y _. simpl. f_equal. lia.
Qed.

Lemma placed_app off l k : placed off (l ++ k) = placed off l ++ placed (off + Z.of_nat (length l)) k.
Proof.
  revert off. induction l as [|x l IH]; intros off.
  - simpl. by rewrite Z.add_0_r.
  - rewrite <- app_comm_cons, !placed_cons, IH. cbn [length].
    replace (off + 1 + Z.of_nat (length l)) with (off + Z.of_nat (S (length l))) by lia. done.
Qed.

Lemma placed_fst off l : (placed off l).*1 = l.
Proof. revert off. induction l as [|x l IH]; intros off; [done|]. rewrite placed_cons. simpl. by rewrite IH. Qed.

Lemma elem_of_placed off l x p : (x, p) ∈ placed off l <-> off <= p /\ l !! Z.to_nat (p - off) = Some x.
Proof.
  revert off. induction l as [|y l IH]; intros off; [set_solver|].
  rewrite placed_cons, elem_of_cons, IH. destruct (Z.lt_trichotomy p off) as [?|[->|?]].
  - split; [intros [[= ]|[? _]]; lia|lia].
  - rewrite Z.sub_diag. simpl. split; [intros [[= ->]|[? _]]; [done|lia]|intros [_ [= ->]]; by left].
  - replace (Z.to_nat (p - off)) with (S (Z.to_nat (p - (off + 1)))) by lia. simpl.
    split; [intros [[= ]|[? ?]]; [lia|split; [lia|done]]|intros [? ?]; right; split; [lia|done]].
Qed.

Lemma list_filter_all {A} (P : A -> Prop) `{forall x, Decision (P x)} (l : list A) :
  (forall x, x ∈ l -> P x) -> filter P l = l.
Proof.
  induction l as [|x l IH]; intros H'; [done|]. rewrite filter_cons, decide_True by set_solver.
  f_equal. apply IH. set_solver.
Qed.

(** A run of [FindContigousBlocks], [second] being the number of blocks. *)
Definition run_list (a : CONTBLKS) : list Z :=
  if decide (hole a) then replicate (Z.to_nat (second a)) INVALID_BLOCK_IDX else seqZ (first a) (second a).

Lemma run_list_one x : run_list (mkBlks x 1 0 0) = [x].
Proof. unfold run_list, hole. simpl. destruct (decide _) as [->|]; [done|]. apply seqZ_one. Qed.

Lemma run_list_snoc base n :
  0 <= n -> run_list (mkBlks base (n + 1) 0 0) =
  run_list (mkBlks base n 0 0) ++ [if decide (base = INVALID_BLOCK_IDX) then base else base + n].
Proof.
  intros Hn. unfold run_list, hole. simpl. destruct (decide _) as [->|].
  - replace (Z.to_nat (n + 1)) with (Z.to_nat n + 1)%nat by lia. by rewrite replicate_add.
  - rewrite seqZ_app by lia. by rewrite seqZ_one.
Qed.

Section Runs.
(** The blocks that may be asked for, and what tells them from holes. *)
Variable P : Z -> Prop.
Hypothesis HP : forall x, P x -> 0 <= x < 2 ^ 32 - 1 /\ x mod 2 ^ 16 < BLOCKS_PER_GROUP.

Definition run_of (a : CONTBLKS) : Prop :=
  1 <= second a /\ (hole a \/ forall x, first a <= x < first a + second a -> P x).

Lemma FindLoop_runs l base prev n :
  run_of (mkBlks base n 0 0) -> Forall (fun x => P x \/ x = INVALID_BLOCK_IDX) l ->
  prev = (if decide (base = INVALID_BLOCK_IDX) then base else base + n - 1) ->
  Forall run_of (FindLoop l base prev n) /\
  FindLoop l base prev n ≫= run_list = run_list (mkBlks base n 0 0) ++ l.
Proof.
  revert base prev n. induction l as [|x l IH]; intros base prev n Hr Hl Hp.
  { cbn [FindLoop]. split; [constructor; [done|constructor]|done]. }
  apply Forall_cons_1 in Hl as [Hx Hl]. cbn [FindLoop].
  assert (forall y, P y -> 0 <= y < 2 ^ 32 - 1 /\ y <> INVALID_BLOCK_IDX) as Hval.
  { intros y Hy. destruct (HP y Hy) as [? Hm]. split; [done|]. by intros ->. }
  assert (Hnew : Forall run_of (mkBlks base n 0 0 :: FindLoop l x x 1) /\
    (mkBlks base n 0 0 :: FindLoop l x x 1) ≫= run_list = run_list (mkBlks base n 0 0) ++ x :: l).
  { destruct (IH x x 1) as [I1 I2]; [|done|destruct (decide (x = INVALID_BLOCK_IDX)); lia|].
    - split; simpl; [lia|]. destruct Hx as [Hx| ->]; [right|by left]. intros y Hy.
      by replace y with x by lia.
    - split; [by constructor|]. rewrite bind_cons, I2, run_list_one. done. }
  destruct Hr as [Hn Hr]. unfold hole in Hr. simpl in Hn, Hr.
  destruct ((x =? u32 (prev + 1)) && negb (Z.land x BLOCK_IDX_MASK =? 0)) eqn:E1.
  - apply andb_true_iff in E1 as [E1 E2]. apply Z.eqb_eq in E1.
    destruct (decide (base = INVALID_BLOCK_IDX)) as [Hb|Hb].
    + exfalso. subst. change (u32 (INVALID_BLOCK_IDX + 1)) with 65536 in E2. done.
    + destruct Hr as [Hr|Hr]; [done|]. pose proof (Hval prev (Hr prev ltac:(lia))) as Hv.
      rewrite u32_small in E1 by lia.
      assert (P x) as Hvx.
      { destruct Hx as [|Hx]; [done|]. exfalso. destruct (HP _ (Hr prev ltac:(lia))) as [_ Hm].
        replace prev with 65534 in Hm by (unfold INVALID_BLOCK_IDX in Hx; lia).
        change (65534 mod 2 ^ 16) with 65534 in Hm. assert (BLOCKS_PER_GROUP = 65520) by done. lia. }
      rewrite u32_small by lia.
      destruct (IH base (prev + 1) (n + 1)) as [I1 I2]; [|done|rewrite decide_False by done; lia|].
      * split; simpl; [lia|]. right. intros y Hy. destruct (Z.eq_dec y x) as [->|]; [done|apply Hr; lia].
      * split; [done|]. rewrite I2, run_list_snoc, decide_False by (lia || done).
        rewrite <- app_assoc. simpl. do 2 f_equal. lia.
  - destruct ((x =? INVALID_BLOCK_IDX) && (base =? INVALID_BLOCK_IDX)) eqn:E2; [|exact Hnew].
    apply andb_true_iff in E2 as [E2 E3]. apply Z.eqb_eq in E2 as ->, E3 as ->.
    destruct (IH INVALID_BLOCK_IDX INVALID_BLOCK_IDX (n + 1)) as [I1 I2];
      [split; simpl; [lia|by left]|done|done|].
    split; [done|]. rewrite I2, run_list_snoc by lia. rewrite decide_True by done.
    by rewrite <- app_assoc.
Qed.

Lemma FindContigousBlocks_runs l :
  Forall (fun x => P x \/ x = INVALID_BLOCK_IDX) l ->
  Forall run_of (FindContigousBlocks l).1 /\ (FindContigousBlocks l).1 ≫= run_list = l.
Proof.
  destruct l as [|x l]; [done|]. intros Hl. apply Forall_cons_1 in Hl as [Hx Hl].
  unfold FindContigousBlocks. cbn [fst].
  destruct (FindLoop_runs l x x 1) as [H1 H2]; [|done|destruct (decide (x = INVALID_BLOCK_IDX)); lia|].
  - split; simpl; [lia|]. destruct Hx as [Hx| ->]; [right|by left]. intros y Hy.
    by replace y with x by lia.
  - split; [done|]. rewrite H2, run_list_one. done.
Qed.

End Runs.

Section Intervals.
Context (G : geometry) (HG : geom_ok G).

Definition blk_or_hole (x : Z) : Prop := valid_blk G x \/ x = INVALID_BLOCK_IDX.
Definition run_ok : CONTBLKS -> Prop := run_of (valid_blk G).

Lemma valid_number x : valid_blk G x -> 0 <= x < 2 ^ 32 - 1 /\ x mod 2 ^ 16 < BLOCKS_PER_GROUP.
Proof. intros Hx. destruct (valid_max G HG x Hx) as [? _]. unfold BLK_MAX in *. split; [lia|apply Hx]. Qed.

(** An interval of a request. *)
Definition ival_ok (a : CONTBLKS) : Prop :=
  first a < second a /\ (hole a \/ forall x, first a <= x < second a -> valid_blk G x).

Lemma cells1_run a off n :
  run_ok (mkBlks (first a) n 0 0) -> second a = first a + n -> dwOff a = off ->
  cells1 a = placed off (run_list (mkBlks (first a) n 0 0)).
Proof.
  intros [Hn _] Hs Ho. unfold cells1. rewrite Hs, Ho. replace (first a + n - first a) with n by lia.
  simpl in Hn. clear Hs Ho. unfold run_list. change (hole (mkBlks (first a) n 0 0)) with (hole a). simpl.
  rewrite <- (Z2Nat.id n) by lia. generalize (Z.to_nat n). clear n Hn. intros n. rewrite Nat2Z.id.
  induction n as [|n IH]; [by destruct (decide (hole a))|].
  replace (Z.of_nat (S n)) with (Z.of_nat n + 1) by lia.
  rewrite seqZ_app, fmap_app, IH, seqZ_one by lia.
  destruct (decide (hole a)).
  - rewrite (replicate_S_end n), placed_app, length_replicate, placed_cons. done.
  - rewrite (seqZ_app (first a) (Z.of_nat n) 1), seqZ_one, placed_app, length_seqZ, placed_cons, Nat2Z.id by lia.
    done.
Qed.

Lemma to_intervals_cells v off :
  Forall run_ok v -> 0 <= off -> off + Z.of_nat (length (v ≫= run_list)) <= 2 ^ 31 ->
  Forall ival_ok (to_intervals v off) /\ cells (to_intervals v off) = placed off (v ≫= run_list).
Proof.
  revert off. induction v as [|a v IH]; intros off Hv Hoff Hlen; [done|].
  apply Forall_cons_1 in Hv as [Ha Hv]. rewrite bind_cons, length_app in Hlen. rewrite bind_cons. cbn [to_intervals].
  assert (Z.of_nat (length (run_list a)) = second a) as Ela.
  { destruct Ha as [Ha _]. unfold run_list. destruct (decide (hole a)); rewrite ?length_replicate, ?length_seqZ; lia. }
  destruct Ha as [Ha1 Ha2].
  assert (u32 (second a + first a) = first a + second a) as Es.
  { rewrite u32_small; [lia|]. destruct Ha2 as [Hh|Hval].
    - rewrite Hh. unfold INVALID_BLOCK_IDX. lia.
    - destruct (valid_max G HG _ (Hval (first a) ltac:(lia))).
      destruct (valid_max G HG _ (Hval (first a + second a - 1) ltac:(lia))). unfold BLK_MAX in *. lia. }
  rewrite Es, (u32_small (off + second a)) by lia.
  destruct (IH (off + second a)) as [I1 I2]; [done|lia|lia|]. split.
  - constructor; [|done]. split; simpl; [lia|]. done.
  - rewrite placed_app, Ela. unfold cells in *. rewrite bind_cons, I2. f_equal.
    rewrite (cells1_run _ off (second a)); [|by split|done|done]. simpl. by destruct a.
Qed.

(** Sorting. *)
Definition le_ok (le : CONTBLKS -> CONTBLKS -> bool) : Prop :=
  forall a b, if le a b then first a <= first b else first b <= first a.

Lemma le_first_ok : le_ok le_first.
Proof. intros a b. unfold le_first. destruct (Z.leb_spec (first a) (first b)); lia. Qed.

Lemma le_all_ok : le_ok le_all.
Proof.
  intros a b. unfold le_all. destruct (Z.ltb_spec (first a) (first b)); [lia|].
  destruct (Z.eqb_spec (first a) (first b)); [|lia].
  destruct (second a <? second b), (second a =? second b), (dwOff a <=? dwOff b); lia.
Qed.

Abbreviation by_first := (fun a b => first a <= first b).

Lemma insert_perm le a v : insert_blks le a v ≡ₚ a :: v.
Proof. induction v as [|b v IH]; simpl; [done|]. destruct (le a b); [done|]. rewrite IH. constructor. Qed.

Lemma sort_perm le v : sort_blks le v ≡ₚ v.
Proof. induction v as [|a v IH]; simpl; [done|]. unfold sort_blks in *. simpl. by rewrite insert_perm, IH. Qed.

Lemma insert_sorted le a v :
  le_ok le -> StronglySorted by_first v -> StronglySorted by_first (insert_blks le a v).
Proof.
  intros Hle Hs. induction Hs as [|b v Hs IH Hb]; simpl; [by repeat constructor|].
  pose proof (Hle a b) as H. destruct (le a b).
  - constructor; [by constructor|]. constructor; [done|]. eapply Forall_impl; [exact Hb|]. simpl. lia.
  - constructor; [done|]. rewrite insert_perm. by constructor.
Qed.

Lemma sort_sorted le v : le_ok le -> StronglySorted by_first (sort_blks le v).
Proof. intros Hle. induction v as [|a v IH]; [constructor|]. by apply insert_sorted. Qed.

(** What the intervals of a request are. *)
Record intervals_of (l : list Z) (v : list CONTBLKS) : Prop := mkIv {
  iv_cells : cells v ≡ₚ placed 0 l;
  iv_ok : Forall ival_ok v;
  iv_sorted : StronglySorted by_first v;
}.

Lemma intervals_spec le pBlocks n bContigous :
  le_ok le -> 0 < n <= 2 ^ 31 ->
  Forall blk_or_hole (request pBlocks n bContigous) ->
  (bContigous = true -> Forall (valid_blk G) (request pBlocks n bContigous)) ->
  intervals_of (request pBlocks n bContigous) (intervals le pBlocks n bContigous).
Proof.
  intros Hle Hn Hl Hc. unfold request, intervals in *. destruct bContigous.
  - specialize (Hc eq_refl). set (x := default 0 (head pBlocks)) in *. rewrite Forall_forall in Hc.
    assert (Hv : forall y, x <= y < x + n -> valid_blk G y) by (intros y Hy; apply Hc, elem_of_seqZ; lia).
    destruct (valid_max G HG _ (Hv x ltac:(lia))). destruct (valid_max G HG _ (Hv (x + n - 1) ltac:(lia))).
    unfold BLK_MAX in *. rewrite u32_small by lia.
    assert (~ hole (mkBlks x (x + n) 0 0)) as Hh by done.
    split.
    + unfold cells. simpl. rewrite app_nil_r, (cells1_run _ 0 n); [|split; simpl; [lia|by right]|done|done].
      unfold run_list. by rewrite decide_False.
    + constructor; [|constructor]. split; simpl; [lia|by right].
    + repeat constructor.
  - set (l := firstn _ _) in *. destruct (FindContigousBlocks_runs (valid_blk G) valid_number l Hl) as [H1 H2].
    destruct (to_intervals_cells (FindContigousBlocks l).1 0) as [H3 H4]; [done|done| |].
    { rewrite H2. unfold l. rewrite length_firstn. lia. }
    split.
    + unfold cells in *. rewrite (sort_perm le). by rewrite H4, H2.
    + by rewrite (sort_perm le).
    + by apply sort_sorted.
Qed.

(** The intervals without the holes. *)
Definition solid (v : list CONTBLKS) : list CONTBLKS := filter (fun a => ~ hole a) v.
Definition not_hole (x : Z) : Prop := x <> INVALID_BLOCK_IDX.
#[export] Instance not_hole_dec x : Decision (not_hole x) := decide (x <> INVALID_BLOCK_IDX).
Definition total (v : list CONTBLKS) : Z := foldr (fun a n => second a - first a + n) 0 v.

Lemma elem_of_cells1 a x p :
  (x, p) ∈ cells1 a <->
  dwOff a <= p < dwOff a + (second a - first a) /\
  x = if decide (hole a) then INVALID_BLOCK_IDX else first a + (p - dwOff a).
Proof.
  unfold cells1. rewrite list_elem_of_fmap. setoid_rewrite elem_of_seqZ. split.
  - intros (i & [= -> ->] & Hi). split; [lia|]. destruct (decide (hole a)); [done|lia].
  - intros [Hp ->]. exists (p - dwOff a). split; [|lia]. f_equal; lia.
Qed.

Lemma elem_of_cells v x p : (x, p) ∈ cells v <-> exists a, a ∈ v /\ (x, p) ∈ cells1 a.
Proof. unfold cells. rewrite list_elem_of_bind. naive_solver. Qed.

Lemma covers_cells v x p : Forall (fun a => ~ hole a) v -> covers v x p <-> (x, p) ∈ cells v.
Proof.
  intros Hv. rewrite elem_of_cells. rewrite Forall_forall in Hv.
  split; intros (a & Ha & H); exists a; (split; [done|]); specialize (Hv a Ha).
  - rewrite elem_of_cells1, decide_False by done. lia.
  - rewrite elem_of_cells1, decide_False in H by done. lia.
Qed.

Lemma cells_solid v :
  Forall ival_ok v -> cells (solid v) = filter (fun c => not_hole c.1) (cells v).
Proof.
  induction 1 as [|a v [Ha1 Ha2] Hv IH]; [done|]. unfold solid, cells in *. rewrite filter_cons, bind_cons, filter_app.
  rewrite <- IH. destruct (decide (~ hole a)) as [Hh|Hh].
  - rewrite bind_cons. f_equal. symmetry. apply list_filter_all. intros [x p]. rewrite elem_of_cells1. simpl.
    rewrite decide_False by done. intros [Hp ->]. destruct Ha2 as [Ha2|Ha2]; [done|].
    apply (valid_max G HG), Ha2. lia.
  - apply dec_stable in Hh. rewrite (list_empty_nil (filter _ (cells1 a))); [done|]. intros [x p].
    rewrite list_elem_of_filter, elem_of_cells1, decide_True by done. simpl. intros [H1 [_ H2]]. done.
Qed.

Lemma length_cells v : Forall (fun a => first a < second a) v -> Z.of_nat (length (cells v)) = total v.
Proof.
  induction 1 as [|a v Ha Hv IH]; [done|]. unfold cells in *. rewrite bind_cons, length_app. cbn [total foldr].
  unfold cells1 at 1. rewrite length_fmap, length_seqZ. unfold total in IH. lia.
Qed.

(** Sorted intervals with different blocks follow each other. *)
Lemma sorted_isorted lo v :
  StronglySorted by_first v -> Forall (fun a => first a < second a /\ ~ hole a) v ->
  NoDup (cells v).*1 -> (forall a, a ∈ v -> lo <= first a) -> isorted lo v.
Proof.
  intros Hs. revert lo. induction Hs as [|a v Hs IH Ha]; intros lo Hok Hnd Hlo; [done|].
  apply Forall_cons_1 in Hok as [[Ha1 Ha2] Hok]. unfold cells in Hnd. rewrite bind_cons, fmap_app in Hnd.
  apply NoDup_app in Hnd as (_ & Hd & Hnd). split; [split; [apply Hlo; set_solver|done]|].
  apply IH; [done|done|]. intros b Hb. rewrite Forall_forall in Ha, Hok. pose proof (Ha b Hb).
  destruct (Hok b Hb) as [Hb1 Hb2]. destruct (Z.lt_ge_cases (first b) (second a)) as [Hlt|]; [|done].
  exfalso. apply (Hd (first b)).
  - apply list_elem_of_fmap. exists (first b, dwOff a + (first b - first a)). split; [done|].
    rewrite elem_of_cells1, decide_False by done. lia.
  - apply list_elem_of_fmap. exists (first b, dwOff b). split; [done|].
    apply elem_of_cells. exists b. split; [done|]. rewrite elem_of_cells1, decide_False by done. lia.
Qed.

Record solid_of (l : list Z) (v : list CONTBLKS) : Prop := mkSolid {
  so_sorted : isorted 0 v;
  so_covers : forall x p, covers v x p <-> 0 <= p /\ l !! Z.to_nat p = Some x /\ not_hole x;
  so_max : below_max v;
  so_off : off_ok v;
  so_valid : forall x, in_blks v x -> valid_blk G x;
  so_size : total v = Z.of_nat (length (filter not_hole l));
}.

Lemma solid_spec l v :
  intervals_of l v -> NoDup (filter not_hole l) -> Z.of_nat (length l) <= 2 ^ 31 -> solid_of l (solid v).
Proof.
  intros [Hc Hok Hs] Hnd Hlen. pose proof (cells_solid v Hok) as Hcs.
  assert (cells (solid v) ≡ₚ filter (fun c => not_hole c.1) (placed 0 l)) as Hp by by rewrite Hcs, Hc.
  assert ((cells (solid v)).*1 ≡ₚ filter not_hole l) as Hp1.
  { rewrite Hp. rewrite <- (placed_fst 0 l) at 2. generalize (placed 0 l). intros c.
    induction c as [|[x p] c IH]; [done|]. rewrite fmap_cons, !filter_cons. simpl.
    destruct (decide (not_hole x)); [rewrite fmap_cons; simpl; by rewrite IH|done]. }
  assert (Forall (fun a => ~ hole a) (solid v)) as Hh.
  { apply Forall_forall. intros a Ha. by apply list_elem_of_filter in Ha as [? _]. }
  assert (forall a, a ∈ solid v -> first a < second a /\ ~ hole a /\ forall x, first a <= x < second a -> valid_blk G x) as Hsol.
  { intros a Ha. apply list_elem_of_filter in Ha as [Hha Ha]. rewrite Forall_forall in Hok.
    destruct (Hok a Ha) as [? [?|?]]; done. }
  assert (forall x p, covers (solid v) x p <-> 0 <= p /\ l !! Z.to_nat p = Some x /\ not_hole x) as Hcov.
  { intros x p. rewrite covers_cells by done. rewrite Hp, list_elem_of_filter, elem_of_placed, Z.sub_0_r. simpl. tauto. }
  assert (Forall (fun a => first a < second a /\ ~ hole a) (solid v)) as Hall.
  { apply Forall_forall. intros a Ha. destruct (Hsol a Ha) as (? & ? & _). done. }
  assert (forall x, in_blks (solid v) x -> valid_blk G x) as Hval.
  { intros x (a & Ha & Hx). destruct (Hsol a Ha) as (_ & _ & Hv). by apply Hv. }
  split; [|done| | |done|].
  - apply sorted_isorted; [|done|by rewrite Hp1|].
    + unfold solid. clear -Hs. induction Hs as [|a v Hs IH Ha]; [constructor|]. rewrite filter_cons.
      destruct (decide _); [|done]. constructor; [done|]. apply Forall_forall. intros b Hb.
      rewrite Forall_forall in Ha. apply Ha. by apply list_elem_of_filter in Hb as [_ ?].
    + intros a Ha. destruct (Hsol a Ha) as (? & _ & Hv). destruct (valid_max G HG (first a)); [apply Hv; lia|lia].
  - intros a Ha. destruct (Hsol a Ha) as (? & _ & Hv). destruct (valid_max G HG (second a - 1)); [apply Hv; lia|lia].
  - intros a Ha. destruct (Hsol a Ha) as (? & _ & Hv).
    destruct (proj1 (Hcov (first a) (dwOff a))) as (H1 & _); [exists a; split_and!; [done|lia|lia|lia]|].
    destruct (proj1 (Hcov (second a - 1) (dwOff a + (second a - 1 - first a)))) as (H2 & H3 & _);
      [exists a; split_and!; [done|lia|lia|lia]|].
    apply lookup_lt_Some in H3. lia.
  - rewrite <- length_cells by (eapply Forall_impl; [exact Hall|]; simpl; tauto).
    rewrite <- (length_fmap fst (cells (solid v))). by rewrite Hp1.
Qed.
End Intervals.
