(* ===== verification/BlkStore.v ===== *)
(** * Bytes of blocks in the cache and in the file

    What the calls of [BlkCache] do to the bytes of the blocks.  A byte has an
    address in the file, whether it is in the cache or not.  The lemmas say for
    each call which addresses it changes, and to what. *)

From Stdlib Require Import ZArith Lia Sorted.
From S2P Require Import Prelude TaskGroup BlkBitmap BlkCache.
Local Open Scope rpcf_scope.

(** ** Bytes by address *)

Definition addr (G : geometry) (k : Z) : Z :=
  if k =? SB_IDX then 0 else if k =? GB_IDX then BLOCK_SIZE G else k * BLOCK_SIZE G + base_addr G.

(** The byte of an entry at an address. *)
Definition in_entry (G : geometry) (e : Z * dbuf) (a : Z) : Prop :=
  addr G e.1 <= a < addr G e.1 + d_size e.2.
#[local] Instance in_entry_dec G e a : Decision (in_entry G e a).
Proof. unfold in_entry. apply _. Defined.

(** What the cache has at an address, and what the cache or the file has. *)
Fixpoint cached (G : geometry) (d : DirtyBlks) (a : Z) : option Z :=
  match d with
  | [] => None
  | e :: d => if decide (in_entry G e a) then Some (d_data e.2 (a - addr G e.1)) else cached G d a
  end.
Definition on_disk (f : file) (a : Z) : option Z := if a <? f_len f then Some (f_data f a) else None.
Definition visible (G : geometry) (d : DirtyBlks) (f : file) (a : Z) : option Z :=
  match cached G d a with Some v => Some v | None => on_disk f a end.

(** ** Blocks and requests *)

Definition key_ok (G : geometry) (k : Z) : Prop := valid_blk G k \/ k = GB_IDX \/ k = SB_IDX.
Definition key_size (G : geometry) (k : Z) : Z := if k =? GB_IDX then GRPBMP_SIZE G else BLOCK_SIZE G.

(** A request that stays within its arguments; a call takes 16 MB. *)
Record request_ok (G : geometry) (l : list Z) (n : Z) : Prop := mkReq {
  rq_num : 0 < n;
  rq_size : n * BLOCK_SIZE G <= MAX_BUFFER;
  rq_len : Z.of_nat (length l) = n;
}.
Definition write_ok (G : geometry) (l : list Z) (n : Z) : Prop :=
  request_ok G l n /\ Forall (valid_blk G) l /\ NoDup l.
(** A read may ask for holes too. *)
Definition read_ok (G : geometry) (l : list Z) (n : Z) (bContigous : bool) : Prop :=
  request_ok G l n /\ Forall (blk_or_hole G) l /\ NoDup (filter not_hole l) /\
  (bContigous = true -> Forall (valid_blk G) l).
(** System calls succeed. *)
Definition io_ok (io : Z -> Z -> Z) : Prop := forall off n, io off n = 0.

(** ** Lemmas: addresses *)

Section Store.
Context (G : geometry) (HG : geom_ok G).

Lemma base_bounds : 0 < BLOCK_SIZE G <= 4096 /\ 0 <= GRPBMP_SIZE G <= 2 ^ 13 /\
  base_addr G = BLOCK_SIZE G + GRPBMP_SIZE G.
Proof.
  pose proof (geom_bounds G HG) as (HB & _ & _). destruct (group_bounds G HG) as (m & M1 & M2 & M3 & M4).
  assert (BLOCKS_PER_GROUP = 65520) by done. unfold base_addr. lia.
Qed.

Lemma addr_blk k : 0 <= k < BLK_MAX -> addr G k = k * BLOCK_SIZE G + base_addr G.
Proof.
  intros Hk. unfold addr, BLK_MAX in *. assert (SB_IDX = 2 ^ 32 - 2 /\ GB_IDX = 2 ^ 32 - 4) as [E1 E2] by done.
  destruct (Z.eqb_spec k SB_IDX); [lia|]. destruct (Z.eqb_spec k GB_IDX); [lia|done].
Qed.

Lemma addr_abs k : valid_blk G k -> BLOCK_ABS G k = addr G k.
Proof.
  intros Hk. pose proof (valid_max G HG k Hk) as [? _]. rewrite addr_blk by done.
  destruct Hk as (H1 & H2 & H3). by apply BLOCK_ABS_val.
Qed.

(** An address above the base is a byte of one block. *)
Lemma split_addr a : base_addr G <= a -> exists x o,
  a = x * BLOCK_SIZE G + base_addr G + o /\ 0 <= o < BLOCK_SIZE G /\ 0 <= x.
Proof.
  pose proof base_bounds as (HB & _). intros Ha.
  exists ((a - base_addr G) / BLOCK_SIZE G), ((a - base_addr G) mod BLOCK_SIZE G).
  pose proof (Z.div_mod (a - base_addr G) (BLOCK_SIZE G)).
  pose proof (Z.mod_pos_bound (a - base_addr G) (BLOCK_SIZE G)).
  split_and!; [lia|lia|lia|]. apply Z.div_pos; lia.
Qed.

Lemma in_blk_entry e a :
  blk_entry G e -> in_entry G e a ->
  base_addr G <= a /\ forall x o, a = x * BLOCK_SIZE G + base_addr G + o -> 0 <= o < BLOCK_SIZE G -> e.1 <= x < dend G e.
Proof.
  pose proof base_bounds as (HB & _). intros He. pose proof (blk_entry_bound G HG e He).
  destruct He as (n & Hn & Hs & Hd & _). unfold in_entry. rewrite addr_blk, Hs, Hd by lia.
  intros Ha. split; [nia|]. intros x o -> Ho. nia.
Qed.

Lemma in_special_entry e a :
  entry_ok G e -> in_entry G e a -> a < base_addr G ->
  (e.1 = GB_IDX /\ BLOCK_SIZE G <= a) \/ (e.1 = SB_IDX /\ a < BLOCK_SIZE G).
Proof.
  pose proof base_bounds as (HB & HC & HD). intros [He|[[E1 E2]|[E1 E2]]] Ha Hb.
  - destruct (in_blk_entry e a He Ha). lia.
  - left. unfold in_entry in Ha. rewrite E1 in *. change (addr G GB_IDX) with (BLOCK_SIZE G) in Ha. lia.
  - right. unfold in_entry in Ha. rewrite E1 in *. change (addr G SB_IDX) with 0 in Ha. lia.
Qed.

Lemma in_entry_high e a :
  entry_ok G e -> in_entry G e a -> base_addr G <= a -> blk_entry G e.
Proof.
  pose proof base_bounds as (HB & HC & HD). intros [He|[[E1 E2]|[E1 E2]]] Ha Hb; [done| |];
    exfalso; unfold in_entry in Ha; rewrite E1, E2 in Ha.
  - change (addr G GB_IDX) with (BLOCK_SIZE G) in Ha. lia.
  - change (addr G SB_IDX) with 0 in Ha. lia.
Qed.

Lemma entries_key_inj lo d e e' : entries G lo d -> e ∈ d -> e' ∈ d -> e.1 = e'.1 -> e = e'.
Proof.
  revert lo. induction d as [|e0 d IH]; intros lo Hd He He' Hk; [set_solver|].
  destruct (entries_tail G _ _ _ Hd) as (lo' & Hlo & Hd').
  apply elem_of_cons in He as [->|He], He' as [->|He']; [done| | |by eapply IH].
  - destruct (entries_in G HG _ _ _ Hd' He'). lia.
  - destruct (entries_in G HG _ _ _ Hd' He). lia.
Qed.

(** Entries do not overlap in the file. *)
Lemma entries_inj lo d e e' a :
  entries G lo d -> e ∈ d -> e' ∈ d -> in_entry G e a -> in_entry G e' a -> e = e'.
Proof.
  intros Hd He He' Ha Ha'. destruct (entries_in G HG _ _ _ Hd He) as [_ Hok].
  destruct (entries_in G HG _ _ _ Hd He') as [_ Hok'].
  destruct (Z.lt_ge_cases a (base_addr G)) as [Hlt|Hge].
  - apply (entries_key_inj lo d); try done.
    destruct (in_special_entry e a Hok Ha Hlt) as [[-> ?]|[-> ?]], (in_special_entry e' a Hok' Ha' Hlt) as [[-> ?]|[-> ?]];
      done || lia.
  - pose proof (in_entry_high e a Hok Ha Hge) as Hb. pose proof (in_entry_high e' a Hok' Ha' Hge) as Hb'.
    destruct (split_addr a Hge) as (x & o & Hx & Ho & _).
    apply (entries_disjoint G HG lo d e e' x); try done.
    + by apply (in_blk_entry e a Hb Ha) with o.
    + by apply (in_blk_entry e' a Hb' Ha') with o.
Qed.

(** *** What is cached *)

Lemma cached_in lo d e a :
  entries G lo d -> e ∈ d -> in_entry G e a -> cached G d a = Some (d_data e.2 (a - addr G e.1)).
Proof.
  intros Hd He Ha. assert (forall e', e' ∈ d -> in_entry G e' a -> e' = e) as Hu.
  { intros e' He' Ha'. by eapply entries_inj. }
  clear Hd. induction d as [|e0 d IH]; [set_solver|]. simpl. destruct (decide (in_entry G e0 a)) as [H0|H0].
  - rewrite (Hu e0); [done|set_solver|done].
  - apply elem_of_cons in He as [->|He]; [done|]. apply IH; [done|set_solver].
Qed.

Lemma cached_none d a : cached G d a = None <-> forall e, e ∈ d -> ~ in_entry G e a.
Proof.
  induction d as [|e d IH]; simpl; [set_solver|]. destruct (decide (in_entry G e a)) as [H|H]; [set_solver|].
  rewrite IH. set_solver.
Qed.

Lemma cached_some d a v : cached G d a = Some v -> exists e, e ∈ d /\ in_entry G e a /\ v = d_data e.2 (a - addr G e.1).
Proof.
  induction d as [|e d IH]; simpl; [done|]. destruct (decide (in_entry G e a)) as [H|H].
  - intros [= <-]. exists e. set_solver.
  - intros Hv. destruct (IH Hv) as (e' & ? & ?). exists e'. set_solver.
Qed.

(** The cache by its entries. *)
Lemma cached_iff lo d a v :
  entries G lo d -> (cached G d a = Some v <-> exists e, e ∈ d /\ in_entry G e a /\ v = d_data e.2 (a - addr G e.1)).
Proof.
  intros Hd. split; [apply cached_some|]. intros (e & He & Ha & ->). by eapply cached_in.
Qed.

(** ** Lemmas: changing the cache *)

Lemma find_in lo k b d : entries G lo d -> (k, b) ∈ d -> find_blk k d = Some b.
Proof.
  revert lo. induction d as [|[k' b'] d IH]; intros lo Hd Hin; [set_solver|]. simpl.
  destruct (entries_tail G _ _ _ Hd) as (lo' & Hlo & Hd').
  apply elem_of_cons in Hin as [[= -> ->]|Hin]; [by rewrite Z.eqb_refl|].
  destruct (entries_in G HG _ _ _ Hd' Hin). simpl in *. destruct (Z.eqb_spec k' k); [lia|]. by eapply IH.
Qed.

Lemma find_some k b d : find_blk k d = Some b -> (k, b) ∈ d.
Proof.
  induction d as [|[k' b'] d IH]; simpl; [done|]. destruct (Z.eqb_spec k' k) as [->|].
  - intros [= ->]. set_solver.
  - intros H. apply elem_of_cons. right. by apply IH.
Qed.

Lemma elem_of_assign lo k b d e :
  entries G lo d -> e ∈ assign_blk k b d <-> e = (k, b) \/ (e ∈ d /\ e.1 <> k).
Proof.
  revert lo. induction d as [|[k' b'] d IH]; intros lo Hd; simpl; [set_solver|].
  destruct (entries_tail G _ _ _ Hd) as (lo' & Hlo & Hd'). simpl in Hlo.
  assert (forall e, e ∈ d -> k' < e.1) as Hgt by (intros e' He'; destruct (entries_in G HG _ _ _ Hd' He'); lia).
  destruct (Z.eqb_spec k' k) as [->|Hne].
  - rewrite elem_of_cons, elem_of_cons. split.
    + intros [->|He]; [by left|right]. specialize (Hgt e He). split; [by right|lia].
    + intros [->|[[->|He] Hk]]; [by left|done|by right].
  - destruct (Z.ltb_spec k k').
    + rewrite !elem_of_cons. split.
      * intros [->|[->|He]]; [by left|right; simpl; split; [by left|lia]|].
        specialize (Hgt e He). right. split; [by right|lia].
      * tauto.
    + rewrite !elem_of_cons, (IH lo') by done. split.
      * intros [->|[->|[He Hk]]]; [right; split; [by left|done]|by left|right; split; [by right|done]].
      * tauto.
Qed.

(** The cache after an entry was replaced or added. *)
Lemma cached_update lo lo' k b d d' a :
  entries G lo d -> entries G lo' d' ->
  (forall e, e ∈ d' <-> e = (k, b) \/ (e ∈ d /\ e.1 <> k)) ->
  (forall e, e ∈ d -> e.1 = k -> d_size e.2 = d_size b) ->
  cached G d' a = if decide (in_entry G (k, b) a) then Some (d_data b (a - addr G k)) else cached G d a.
Proof.
  intros Hd Hd' Hin Hsz. destruct (decide (in_entry G (k, b) a)) as [Ha|Ha].
  - apply (cached_in lo' d' (k, b)); [done| |done]. rewrite Hin. by left.
  - destruct (cached G d a) as [v|] eqn:E.
    + apply cached_some in E as (e & He & Hea & ->). apply (cached_in lo' d' e); [done| |done].
      rewrite Hin. right. split; [done|]. intros Hk. apply Ha. unfold in_entry in *. simpl.
      rewrite <- Hk, <- (Hsz e He Hk). done.
    + rewrite cached_none in E |- *. intros e He Hea. apply Hin in He as [->|[He _]]; [done|by apply (E e)].
Qed.

Lemma assign_entries lo k b0 b d :
  entries G lo d -> (k, b0) ∈ d -> d_size b = d_size b0 -> entries G lo (assign_blk k b d).
Proof.
  intros Hd. revert b0. induction Hd as [lo|lo k' b' n d Hk Hn Hs Hv Hd IH|lo b' d Hlo Hs Hd IH|lo b' Hlo Hs];
    intros b0 Hin Hsz; [set_solver| | |]; cbn [assign_blk].
  - apply elem_of_cons in Hin as [[= -> ->]|Hin].
    + rewrite Z.eqb_refl. econstructor; eauto. congruence.
    + destruct (entries_in G HG _ _ _ Hd Hin) as [Hlt _]. simpl in Hlt.
      destruct (Z.eqb_spec k' k); [lia|]. destruct (Z.ltb_spec k k'); [lia|]. econstructor; eauto.
  - apply elem_of_cons in Hin as [[= -> ->]|Hin].
    + rewrite Z.eqb_refl. apply en_gb; [done|congruence|done].
    + destruct (entries_in G HG _ _ _ Hd Hin) as [Hlt _]. simpl in Hlt.
      destruct (Z.eqb_spec GB_IDX k); [lia|]. destruct (Z.ltb_spec k GB_IDX); [lia|]. apply en_gb; eauto.
  - apply elem_of_cons in Hin as [[= -> ->]|Hin]; [|set_solver].
    rewrite Z.eqb_refl. apply en_sb; [done|congruence].
Qed.

Lemma idx_vals : SB_IDX = 2 ^ 32 - 2 /\ GB_IDX = 2 ^ 32 - 4 /\ BLK_MAX = 2 ^ 23.
Proof. done. Qed.

Lemma assign_special lo k b d :
  (k = SB_IDX /\ d_size b = BLOCK_SIZE G) \/ (k = GB_IDX /\ d_size b = GRPBMP_SIZE G) ->
  lo <= BLK_MAX -> entries G lo d -> entries G lo (assign_blk k b d).
Proof.
  destruct idx_vals as (E1 & E2 & E3). intros Hkb Hlo Hd.
  assert (forall lo, lo <= k -> entries G lo [(k, b)]) as Hone.
  { intros l Hl. destruct Hkb as [[-> ?]|[-> ?]]; [by apply en_sb|apply en_gb; [done|done|constructor]]. }
  assert (lo <= k) as Hlo' by (destruct Hkb as [[-> _]|[-> _]]; lia). clear Hlo.
  induction Hd as [lo|lo k' b' n d Hk Hn Hs Hv Hd IH|lo b' d Hlo Hs Hd IH|lo b' Hlo Hs]; cbn [assign_blk].
  - by apply Hone.
  - pose proof (valid_max G HG (k' + n - 1) (Hv (k' + n - 1) ltac:(lia))).
    assert (k' + n <= k) by (destruct Hkb as [[-> _]|[-> _]]; lia).
    destruct (Z.eqb_spec k' k); [lia|]. destruct (Z.ltb_spec k k'); [lia|]. econstructor; eauto.
  - destruct Hkb as [[-> Hb]|[-> Hb]].
    + destruct (Z.eqb_spec GB_IDX SB_IDX); [lia|]. destruct (Z.ltb_spec SB_IDX GB_IDX); [lia|].
      apply en_gb; [done|done|]. apply IH. lia.
    + rewrite Z.eqb_refl. by apply en_gb.
  - destruct Hkb as [[-> Hb]|[-> Hb]].
    + rewrite Z.eqb_refl. by apply en_sb.
    + destruct (Z.eqb_spec SB_IDX GB_IDX); [lia|]. destruct (Z.ltb_spec GB_IDX SB_IDX); [|lia].
      apply en_gb; [done|done|]. apply en_sb; [lia|done].
Qed.

(** The sizes of the special entries. *)
Lemma special_size lo d e :
  entries G lo d -> e ∈ d -> BLK_MAX <= e.1 -> d_size e.2 = key_size G e.1.
Proof.
  destruct idx_vals as (E1 & E2 & E3). intros Hd He Hk. unfold key_size.
  destruct (entries_in G HG _ _ _ Hd He) as [_ [Hb|[[-> ->]|[-> ->]]]]; [|done|done].
  pose proof (blk_entry_bound G HG e Hb). lia.
Qed.

Definition apart (k n : Z) (d : DirtyBlks) : Prop :=
  forall e, e ∈ d -> blk_entry G e -> dend G e <= k \/ k + n <= e.1.

Lemma apart_key lo k n d e :
  entries G lo d -> apart k n d -> 0 < n -> k < BLK_MAX -> e ∈ d -> e.1 <> k.
Proof.
  destruct idx_vals as (E1 & E2 & E3). intros Hd Hap Hn Hk He E.
  destruct (entries_in G HG _ _ _ Hd He) as [_ Hok]. pose proof (entry_low G e Hok ltac:(lia)) as Hb.
  pose proof (blk_entry_bound G HG e Hb). destruct (Hap e He Hb); lia.
Qed.

Lemma emplace_assign lo k n b d :
  entries G lo d -> apart k n d -> 0 < n -> k < BLK_MAX -> emplace k b d = assign_blk k b d.
Proof.
  intros Hd Hap Hn Hk. assert (forall e, e ∈ d -> e.1 <> k) as Hne by (intros e; by eapply apart_key).
  clear -Hne. induction d as [|[k' b'] d IH]; [done|]. simpl.
  pose proof (Hne (k', b') ltac:(set_solver)) as H. simpl in H.
  destruct (Z.eqb_spec k' k); [done|]. destruct (k <? k'); [done|]. f_equal. apply IH. set_solver.
Qed.

Lemma emplace_entries lo k n b d :
  entries G lo d -> apart k n d -> lo <= k -> 0 < n -> d_size b = BLOCK_SIZE G * n ->
  (forall x, k <= x < k + n -> valid_blk G x) -> entries G lo (emplace k b d).
Proof.
  destruct idx_vals as (E1 & E2 & E3). intros Hd Hap Hlo Hn Hs Hv.
  pose proof (valid_max G HG k (Hv k ltac:(lia))). pose proof (valid_max G HG (k + n - 1) (Hv (k + n - 1) ltac:(lia))).
  rewrite (emplace_assign lo k n) by (done || lia).
  induction Hd as [lo|lo k' b' n' d Hk' Hn' Hs' Hv' Hd IH|lo b' d Hlo' Hs' Hd IH|lo b' Hlo' Hs']; cbn [assign_blk].
  - apply (en_blk G lo k b n); [done..|constructor].
  - assert (Hb : blk_entry G (k', b')).
    { exists n'. split_and!; [done|done|by apply (blk_dend G HG)|done]. }
    pose proof (Hap (k', b') ltac:(set_solver) Hb) as Hapk. rewrite (blk_dend G HG k' b' n' Hs') in Hapk. simpl in Hapk.
    destruct (Z.eqb_spec k' k); [lia|]. destruct (Z.ltb_spec k k').
    + apply (en_blk G lo k b n); [done..|]. apply (en_blk G _ k' b' n'); [lia|done..].
    + apply (en_blk G lo k' b' n'); [done..|]. apply IH; [|lia]. intros e He. apply Hap. set_solver.
  - destruct (Z.eqb_spec GB_IDX k); [lia|]. destruct (Z.ltb_spec k GB_IDX); [|lia].
    apply (en_blk G lo k b n); [done..|]. apply en_gb; [lia|done|done].
  - destruct (Z.eqb_spec SB_IDX k); [lia|]. destruct (Z.ltb_spec k SB_IDX); [|lia].
    apply (en_blk G lo k b n); [done..|]. apply en_sb; [lia|done].
Qed.

(** *** Writing intervals *)

(** An interval of a request: its blocks are valid, and its place is within the
    caller's memory. *)
Definition piece (r : CONTBLKS) : Prop :=
  first r < second r /\ (forall x, first r <= x < second r -> valid_blk G x) /\
  0 <= dwOff r /\ dwOff r * BLOCK_SIZE G < 2 ^ 32.

Definition in_piece (r : CONTBLKS) (a : Z) : Prop :=
  first r * BLOCK_SIZE G + base_addr G <= a < second r * BLOCK_SIZE G + base_addr G.
#[local] Instance in_piece_dec r a : Decision (in_piece r a).
Proof. unfold in_piece. apply _. Defined.

(** The bytes after the intervals were written, the later ones last. *)
Fixpoint patched (c : list CONTBLKS) (pBuf : mem) (old : Z -> option Z) : Z -> option Z :=
  match c with
  | [] => old
  | r :: c => patched c pBuf (fun a =>
      if decide (in_piece r a)
      then Some (pBuf (dwOff r * BLOCK_SIZE G + (a - (first r * BLOCK_SIZE G + base_addr G))))
      else old a)
  end.

Lemma patched_ext c pBuf f g a : (forall a, f a = g a) -> patched c pBuf f a = patched c pBuf g a.
Proof.
  revert f g. induction c as [|r c IH]; intros f g H; [apply H|]. simpl. apply IH. intros b.
  by destruct (decide _).
Qed.

Lemma in_piece_blk r x o : 0 <= o < BLOCK_SIZE G -> in_piece r (x * BLOCK_SIZE G + base_addr G + o) <-> first r <= x < second r.
Proof. intros Ho. unfold in_piece. nia. Qed.

Lemma patched_out c pBuf old a :
  (forall r, r ∈ c -> ~ in_piece r a) -> patched c pBuf old a = old a.
Proof.
  revert old. induction c as [|r c IH]; intros old H; [done|]. simpl. rewrite IH by set_solver.
  rewrite decide_False; [done|]. apply H. set_solver.
Qed.

Lemma patched_in lo c pBuf old r x o :
  isorted lo c -> r ∈ c -> first r <= x < second r -> 0 <= o < BLOCK_SIZE G ->
  patched c pBuf old (x * BLOCK_SIZE G + base_addr G + o) =
  Some (pBuf ((dwOff r + (x - first r)) * BLOCK_SIZE G + o)).
Proof.
  revert lo old. induction c as [|r0 c IH]; intros lo old Hs Hr Hx Ho; [set_solver|].
  pose proof Hs as [Hs1 Hs2]. simpl. apply elem_of_cons in Hr as [->|Hr]; [|by eapply IH].
  rewrite patched_out.
  - rewrite decide_True by by apply in_piece_blk. do 2 f_equal. lia.
  - intros r Hr. rewrite in_piece_blk by done. pose proof (isorted_in _ _ _ Hs2 Hr). lia.
Qed.

Lemma bytes_of_small n : 0 <= n -> n * BLOCK_SIZE G < 2 ^ 32 -> bytes_of G n = BLOCK_SIZE G * n.
Proof. intros. pose proof base_bounds. unfold bytes_of. apply u32_small. nia. Qed.

Lemma piece_bound r : piece r -> 0 <= first r /\ second r <= BLK_MAX /\ second r * BLOCK_SIZE G + base_addr G <= 2 ^ 32.
Proof.
  intros (H1 & H2 & _). pose proof (valid_max G HG (first r) (H2 (first r) ltac:(lia))).
  pose proof (valid_max G HG (second r - 1) (H2 (second r - 1) ltac:(lia))).
  destruct (H2 (second r - 1) ltac:(lia)) as (_ & _ & H3). split_and!; lia.
Qed.

Lemma piece_size r : piece r -> bytes_of G (second r - first r) = BLOCK_SIZE G * (second r - first r).
Proof.
  intros H. pose proof (piece_bound r H). destruct H as (H1 & _). pose proof base_bounds.
  apply bytes_of_small; [lia|nia].
Qed.

(** The keys and sizes of the entries. *)
Definition shape (d : DirtyBlks) (k n : Z) : Prop := exists b, (k, b) ∈ d /\ d_size b = n.
Definition same_shape (d d' : DirtyBlks) : Prop := forall k n, shape d k n <-> shape d' k n.

(** The interval lies in an entry. *)
Definition hit (d : DirtyBlks) (r : CONTBLKS) : Prop :=
  exists n, shape d (dwKey r) (BLOCK_SIZE G * n) /\ dwKey r <= first r /\ second r <= dwKey r + n /\ 0 <= dwKey r.

Lemma hit_shape d d' r : same_shape d d' -> hit d r -> hit d' r.
Proof. intros Hs (n & H & H'). exists n. split; [by apply Hs|done]. Qed.

Lemma assign_shape lo k b0 b d :
  entries G lo d -> (k, b0) ∈ d -> d_size b = d_size b0 -> same_shape d (assign_blk k b d).
Proof.
  intros Hd Hin Hs k' n. unfold shape. split.
  - intros (b' & Hb & Hn). destruct (Z.eq_dec k' k) as [->|Hne].
    + assert ((k, b') = (k, b0)) as [= ->] by by eapply entries_key_inj.
      exists b. rewrite (elem_of_assign lo) by done. split; [by left|congruence].
    + exists b'. rewrite (elem_of_assign lo) by done. split; [right; done|done].
  - intros (b' & Hb & Hn). rewrite (elem_of_assign lo) in Hb by done. destruct Hb as [[= -> ->]|[Hb _]].
    + exists b0. split; [done|congruence].
    + by exists b'.
Qed.

(** One interval is written over an entry. *)
Lemma write_hit d r pBuf b :
  entries G 0 d -> piece r -> (dwKey r, b) ∈ d -> hit d r ->
  let off := bytes_of G (first r - dwKey r) in
  let b' := mkBuf (d_size b) (blit (d_data b) off (shift pBuf (u32 (dwOff r * BLOCK_SIZE G)))
                                (bytes_of G (second r - first r))) in
  (d_size b <? off) = false /\
  forall a, cached G (assign_blk (dwKey r) b' d) a = patched [r] pBuf (cached G d) a.
Proof.
  intros Hd Hr Hin (n & (b1 & Hb1 & Hn) & H1 & H2 & H3) off b'. pose proof (piece_bound r Hr) as Hb.
  pose proof base_bounds as (B1 & B2 & B3). destruct idx_vals as (E1 & E2 & E3).
  assert ((dwKey r, b1) = (dwKey r, b)) as [= ->] by by eapply entries_key_inj.
  assert (off = BLOCK_SIZE G * (first r - dwKey r)) as Eoff.
  { apply bytes_of_small; [lia|]. destruct Hr as (? & _). nia. }
  assert (addr G (dwKey r) = dwKey r * BLOCK_SIZE G + base_addr G) as Ea.
  { apply addr_blk. destruct Hr as (? & _). lia. }
  pose proof (piece_size r Hr) as Es. destruct Hr as (Hr1 & _ & Hr3 & Hr4).
  split; [apply Z.ltb_ge; rewrite Hn, Eoff; apply Z.mul_le_mono_nonneg_l; lia|]. intros a.
  rewrite (cached_update 0 0 (dwKey r) b' d); [|done| |by intros e; eapply elem_of_assign|].
  2: { by eapply assign_entries. }
  2: { intros e He Hk. enough (e = (dwKey r, b)) as -> by done. by eapply entries_key_inj. }
  cbn [patched]. rewrite Ea. unfold b'. cbn [d_data]. unfold blit, shift.
  rewrite Eoff, Es, (u32_small (dwOff r * _)) by nia.
  destruct (decide (in_piece r a)) as [Ha|Ha].
  - unfold in_piece in Ha. rewrite decide_True by (unfold in_entry; cbn [fst snd d_size]; rewrite Ea, Hn; nia).
    destruct (Z.leb_spec (BLOCK_SIZE G * (first r - dwKey r)) (a - (dwKey r * BLOCK_SIZE G + base_addr G))); [|nia].
    destruct (Z.ltb_spec (a - (dwKey r * BLOCK_SIZE G + base_addr G))
      (BLOCK_SIZE G * (first r - dwKey r) + BLOCK_SIZE G * (second r - first r))); [|nia].
    cbn [andb]. do 2 f_equal. lia.
  - destruct (decide (in_entry _ _ _)) as [Hi|Hi]; [|done].
    rewrite (cached_in 0 d (dwKey r, b)) by done. cbn [snd fst]. rewrite Ea. f_equal.
    destruct (Z.leb_spec (BLOCK_SIZE G * (first r - dwKey r)) (a - (dwKey r * BLOCK_SIZE G + base_addr G))); [|done].
    destruct (Z.ltb_spec (a - (dwKey r * BLOCK_SIZE G + base_addr G))
      (BLOCK_SIZE G * (first r - dwKey r) + BLOCK_SIZE G * (second r - first r))); [|done].
    exfalso. apply Ha. unfold in_piece. nia.
Qed.

Lemma piece_not_special r : piece r ->
  (first r =? INVALID_BLOCK_IDX) = false /\ (first r =? SB_IDX) || (first r =? GB_IDX) = false.
Proof.
  destruct idx_vals as (E1 & E2 & E3). intros Hr. pose proof (piece_bound r Hr). destruct Hr as (H1 & H2 & _).
  destruct (valid_max G HG (first r) (H2 (first r) ltac:(lia))). split.
  - by apply Z.eqb_neq.
  - apply orb_false_iff. split; apply Z.eqb_neq; lia.
Qed.

Lemma total_cons r c : total (r :: c) = second r - first r + total c.
Proof. done. Qed.

Lemma total_nonneg c : Forall piece c -> 0 <= total c.
Proof. induction 1 as [|r c (Hr & _) _ IH]; [done|]. rewrite total_cons. lia. Qed.

Lemma total_elem c r : Forall piece c -> r ∈ c -> second r - first r <= total c.
Proof.
  induction 1 as [|r0 c (Hr0 & _) Hp IH]; intros Hr; [set_solver|]. rewrite total_cons.
  apply elem_of_cons in Hr as [->|Hr]; [pose proof (total_nonneg c Hp); lia|specialize (IH Hr); lia].
Qed.

Lemma CacheCommon_spec c pBuf d n :
  entries G 0 d -> Forall piece c -> Forall (hit d) c -> 0 <= n -> n + BLOCK_SIZE G * total c < 2 ^ 32 ->
  exists d', CacheCommon G c pBuf d n = Ret (d', n + BLOCK_SIZE G * total c) /\
    entries G 0 d' /\ same_shape d d' /\ forall a, cached G d' a = patched c pBuf (cached G d) a.
Proof.
  intros Hd Hp Hh. revert d n Hd Hh. pose proof base_bounds as (B1 & _).
  induction Hp as [|r c Hr Hp IH]; intros d n Hd Hh Hn Hs.
  { exists d. simpl. split_and!; try done. do 2 f_equal. lia. }
  apply Forall_cons_1 in Hh as [Hhr Hh]. pose proof (total_nonneg c Hp) as Htot.
  rewrite total_cons, Z.mul_add_distr_l in Hs |- *.
  assert (0 <= BLOCK_SIZE G * total c) as T1 by nia.
  assert (0 < BLOCK_SIZE G * (second r - first r)) as T2 by (destruct Hr; nia).
  cbn [CacheCommon]. destruct (piece_not_special r Hr) as [-> ->]. pose proof (piece_size r Hr) as Es.
  destruct (hit_shape d d r) as (m & (b & Hb & Hbn) & _); [done|done|].
  rewrite (find_in 0 (dwKey r) b d) by done.
  destruct (write_hit d r pBuf b Hd Hr Hb Hhr) as [W1 W2]. rewrite W1.
  set (d1 := assign_blk _ _ d) in *.
  assert (same_shape d d1) as Hsh by by eapply assign_shape.
  rewrite Es, u32_small by lia.
  destruct (IH d1 (n + BLOCK_SIZE G * (second r - first r))) as (d' & I1 & I2 & I3 & I4).
  - by eapply assign_entries.
  - eapply Forall_impl; [exact Hh|]. intros r'. by apply hit_shape.
  - lia.
  - lia.
  - exists d'. split_and!; [|done| |].
    + rewrite I1. do 2 f_equal. lia.
    + intros k' n'. rewrite (Hsh k' n'). apply I3.
    + intros a. rewrite I4. cbn [patched]. apply patched_ext. intros a'. apply W2.
Qed.

Lemma CacheNew_spec lo c pBuf d cnt n :
  entries G 0 d -> isorted lo c -> Forall piece c ->
  Forall (fun r => apart (first r) (second r - first r) d /\ BLOCK_SIZE G * (second r - first r) <= MAX_BUFFER) c ->
  0 <= n -> n + BLOCK_SIZE G * total c < 2 ^ 32 ->
  exists d' cnt', CacheNew G c pBuf d cnt n = (d', cnt', 0, n + BLOCK_SIZE G * total c) /\
    entries G 0 d' /\ forall a, cached G d' a = patched c pBuf (cached G d) a.
Proof.
  intros Hd Hs Hp. revert lo d cnt n Hd Hs. pose proof base_bounds as (B1 & _).
  induction Hp as [|r c Hr Hp IH]; intros lo d cnt n Hd Hs Hap Hn Hsz.
  { exists d, cnt. simpl. split_and!; try done. f_equal. lia. }
  apply Forall_cons_1 in Hap as [[Hapr Hmax] Hap]. destruct Hs as [Hs1 Hs2].
  pose proof (total_nonneg c Hp) as Htot. rewrite total_cons, Z.mul_add_distr_l in Hsz |- *.
  assert (0 <= BLOCK_SIZE G * total c) as T1 by nia.
  assert (0 < BLOCK_SIZE G * (second r - first r)) as T2 by (destruct Hr; nia).
  cbn [CacheNew]. pose proof (piece_size r Hr) as Es. pose proof (piece_bound r Hr) as Hb. rewrite Es.
  destruct (Z.ltb_spec MAX_BUFFER (BLOCK_SIZE G * (second r - first r))); [lia|].
  set (b := mkBuf _ _). set (d1 := emplace _ _ _). destruct Hr as (Hr1 & Hr2 & Hr3 & Hr4).
  assert (entries G 0 d1) as Hd1.
  { apply (emplace_entries 0 _ (second r - first r)); try done; [lia|lia|]. intros x Hx. apply Hr2. lia. }
  rewrite (u32_small (n + _)) by lia.
  destruct (IH (second r) d1 (u32 (cnt + Z.shiftr (BLOCK_SIZE G * (second r - first r)) (BLOCK_SHIFT G)))
     (n + BLOCK_SIZE G * (second r - first r))) as (d' & cnt' & I1 & I2 & I3).
  - done.
  - done.
  - apply Forall_forall. intros r' Hr'. rewrite Forall_forall in Hap. destruct (Hap r' Hr') as [Ha' Hm']. split; [|done].
    intros e He Hbe. unfold d1 in He. rewrite (emplace_assign 0 _ (second r - first r)) in He by (done || lia).
    rewrite (elem_of_assign 0) in He by done. destruct He as [->|[He _]]; [|by apply Ha'].
    left. rewrite (blk_dend G HG _ _ (second r - first r)) by done. pose proof (isorted_in _ _ _ Hs2 Hr'). lia.
  - lia.
  - lia.
  - exists d', cnt'. split_and!; [|done|].
    + rewrite I1. f_equal. lia.
    + intros a. rewrite I3. cbn [patched]. apply patched_ext. intros a'.
      unfold d1. rewrite (emplace_assign 0 _ (second r - first r)) by (done || lia).
      rewrite (cached_update 0 0 (first r) b d); [|done| |by intros e; eapply elem_of_assign|].
      2: { rewrite <- (emplace_assign 0 _ (second r - first r)) by (done || lia). done. }
      2: { intros e He Hk. exfalso. by apply (apart_key 0 (first r) (second r - first r) d e); try lia. }
      assert (in_entry G (first r, b) a' <-> in_piece r a') as Hiff.
      { unfold in_entry, in_piece. cbn [fst snd]. rewrite addr_blk by lia. unfold b. cbn [d_size]. nia. }
      rewrite addr_blk by lia. destruct (decide (in_piece r a')) as [Hi|Hi].
      * rewrite decide_True by by apply Hiff. unfold b, shift. cbn [d_data]. by rewrite u32_small by nia.
      * rewrite decide_False; [done|]. by rewrite Hiff.
Qed.

(** *** Splitting a request *)

(** A request [l] by its intervals [v], those that are cached and the others. *)
Record split_of (d : DirtyBlks) (v c w : list CONTBLKS) : Prop := mkSplit {
  sp_c : isorted 0 c;
  sp_w : isorted 0 w;
  sp_cp : Forall piece c;
  sp_wp : Forall piece w;
  sp_hit : Forall (hit d) c;
  sp_apart : Forall (fun r => apart (first r) (second r - first r) d) w;
  sp_covers : forall x p, covers v x p <-> covers c x p \/ covers w x p;
  sp_disj : forall x, in_blks c x -> in_blks w x -> False;
  sp_total : total c + total w = total v;
}.

#[local] Instance in_blks_dec v x : Decision (in_blks v x).
Proof.
  destruct (decide (Exists (fun a => first a <= x < second a) v)) as [H|H]; [left|right];
    rewrite Exists_exists in H; exact H.
Defined.

Lemma covers_in v x p : covers v x p -> in_blks v x.
Proof. intros (a & Ha & Hx & _). by exists a. Qed.

Lemma covers_part lo v r x a p :
  isorted lo v -> a ∈ v -> part_of a r -> first r <= x < second r -> covers v x p -> p = dwOff r + (x - first r).
Proof.
  intros Hs Ha (P1 & P2 & P3) Hx (b & Hb & Hxb & ->).
  assert (b = a) as -> by (eapply isorted_unique; [done..|lia]). lia.
Qed.

(** The numbers of the blocks. *)
Definition numbers (v : list CONTBLKS) : list Z := v ≫= (fun a => seqZ (first a) (second a - first a)).

Lemma elem_of_numbers v x : x ∈ numbers v <-> in_blks v x.
Proof.
  unfold numbers, in_blks. rewrite list_elem_of_bind. setoid_rewrite elem_of_seqZ.
  split; intros (a & H1 & H2); exists a; [split; [done|lia]|split; [lia|done]].
Qed.

Lemma length_numbers lo v : isorted lo v -> Z.of_nat (length (numbers v)) = total v.
Proof.
  revert lo. induction v as [|a v IH]; intros lo H; [done|]. destruct H as [H1 H2]. unfold numbers in *.
  rewrite bind_cons, length_app, length_seqZ, total_cons, <- (IH _ H2). lia.
Qed.

Lemma NoDup_numbers lo v : isorted lo v -> NoDup (numbers v).
Proof.
  revert lo. induction v as [|a v IH]; intros lo H; [constructor|]. destruct H as [H1 H2].
  unfold numbers in *. rewrite bind_cons. apply NoDup_app. split_and!; [apply NoDup_seqZ| |by eapply IH].
  intros x Hx Hv. apply elem_of_seqZ in Hx. apply elem_of_numbers in Hv.
  pose proof (in_blks_lo _ _ _ H2 Hv). lia.
Qed.

Lemma split_spec l v n d lo :
  solid_of G l v -> Z.of_nat (length l) = n -> n * BLOCK_SIZE G <= MAX_BUFFER -> entries G lo d -> 0 <= lo ->
  let c := IntersectIntervals G v d in split_of d v c (SubtractIntervals v c).
Proof.
  intros [V1 V2 V3 V4 V5 V6] Hl Hn Hd Hlo c. pose proof base_bounds as (B1 & _).
  destruct (IntersectIntervals_spec G HG v d 0 lo V1 Hd V3 V4) as [I1 I2 I3]. fold c in I1, I2, I3.
  assert (isorted 0 c) as Hc by (eapply isorted_mono, I1; lia).
  assert (forall r, r ∈ c -> exists a, a ∈ v /\ part_of a r) as Hcv.
  { intros r Hr. destruct (I2 r Hr) as (a & e & Ha & _ & Hp & _). by exists a. }
  destruct (SubtractIntervals_spec 0 v c V1 Hc V4 Hcv) as [S1 S2 S3]. set (w := SubtractIntervals v c) in *.
  assert (forall lo u, isorted lo u -> (forall r, r ∈ u -> exists a, a ∈ v /\ part_of a r) -> Forall piece u) as Hpiece.
  { intros lo' u Hu Hin. apply Forall_forall. intros r Hr. pose proof (isorted_in _ _ _ Hu Hr).
    destruct (Hin r Hr) as (a & Ha & P1 & P2 & P3). split; [lia|]. split.
    { intros x Hx. apply V5. exists a. split; [done|lia]. }
    destruct (proj1 (V2 (first r) (dwOff r))) as (Hp1 & Hp2 & _).
    { exists a. split_and!; [done|lia|lia|lia]. }
    apply lookup_lt_Some in Hp2. unfold MAX_BUFFER in *. split; [done|]. nia. }
  assert (forall e x, e ∈ d -> blk_entry G e -> e.1 <= x < dend G e -> in_blks v x -> in_blks c x) as Hcov.
  { intros e x He Hb Hx (a & Ha & Hxa). destruct (I3 a e x Ha He Hb Hxa Hx) as (r & ? & ?). by exists r. }
  assert (Hblks : forall x, in_blks c x \/ in_blks w x <-> in_blks v x).
  { intros x. rewrite S3. split.
    - intros [(r & Hr & Hx)|[? _]]; [|done]. destruct (Hcv r Hr) as (a & Ha & P1 & P2 & _).
      exists a. split; [done|lia].
    - intros Hv. destruct (decide (in_blks c x)); [by left|by right]. }
  assert (forall x, in_blks c x -> in_blks w x -> False) as Hdisj by (intros x Hx Hw; by apply S3 in Hw as [_ ?]).
  split; try done.
  - by eapply Hpiece.
  - by eapply Hpiece.
  - apply Forall_forall. intros r Hr. destruct (I2 r Hr) as (a & [k b] & _ & He & _ & Hb & P1 & P2 & P3).
    destruct Hb as (m & Hm & Hs & Hde & Hval). simpl in *. exists m. rewrite P3. split_and!; [by exists b|lia|lia|].
    pose proof (valid_max G HG k (Hval k ltac:(lia))). lia.
  - apply Forall_forall. intros r Hr e He Hb. pose proof (isorted_in _ _ _ S1 Hr) as Hrr.
    pose proof (blk_entry_bound G HG e Hb).
    destruct (Z.le_gt_cases (dend G e) (first r)); [by left|right].
    destruct (Z.le_gt_cases (first r + (second r - first r)) e.1); [done|exfalso].
    set (x := Z.max (first r) e.1). assert (in_blks w x) as Hw by (exists r; split; [done|lia]).
    apply (Hdisj x); [|done]. eapply Hcov; [done|done|lia|]. apply Hblks. by right.
  - intros x p. split.
    + intros Hv. destruct (proj2 (Hblks x)) as [(r & Hr & Hx)|(r & Hr & Hx)]; [by eapply covers_in| |].
      * left. exists r. split_and!; [done|lia|lia|]. destruct (Hcv r Hr) as (a & Ha & Hp). eapply (covers_part 0 v r x a p V1 Ha Hp Hx Hv).
      * right. exists r. split_and!; [done|lia|lia|]. destruct (S2 r Hr) as (a & Ha & Hp). eapply (covers_part 0 v r x a p V1 Ha Hp Hx Hv).
    + intros [(r & Hr & Hx & ->)|(r & Hr & Hx & ->)].
      * destruct (Hcv r Hr) as (a & Ha & P1 & P2 & P3). exists a. split_and!; [done|lia|lia|lia].
      * destruct (S2 r Hr) as (a & Ha & P1 & P2 & P3). exists a. split_and!; [done|lia|lia|lia].
  - rewrite <- (length_numbers 0 c), <- (length_numbers 0 w), <- (length_numbers 0 v) by done.
    rewrite <- Nat2Z.inj_add, <- length_app. f_equal. apply Permutation_length, NoDup_Permutation.
    + apply NoDup_app. split_and!; [by eapply NoDup_numbers| |by eapply NoDup_numbers].
      intros x. rewrite !elem_of_numbers. intros Hx1 Hx2. by apply (Hdisj x).
    + by eapply NoDup_numbers.
    + intros x. rewrite elem_of_app, !elem_of_numbers. apply Hblks.
Qed.

(** *** Writing blocks *)

Lemma write_intervals le pBlocks n bContigous :
  le_ok le -> write_ok G (request pBlocks n bContigous) n ->
  let l := request pBlocks n bContigous in
  solid_of G l (intervals le pBlocks n bContigous) /\ total (intervals le pBlocks n bContigous) = n /\
  valid_blk G (default 0 (head pBlocks)).
Proof.
  intros Hle ([R1 R2 R3] & Hv & Hnd) l. pose proof (geom_bounds G HG) as (HB & _). fold l in R3, Hv, Hnd.
  unfold MAX_BUFFER in R2.
  assert (forall x, x ∈ l -> not_hole x) as Hnh.
  { intros x Hx. rewrite Forall_forall in Hv. by apply (valid_max G HG), Hv. }
  assert (filter not_hole l = l) as Hf by (by apply list_filter_all).
  assert (intervals_of G l (intervals le pBlocks n bContigous)) as Hiv.
  { apply intervals_spec; [done|done|nia| |done]. eapply Forall_impl; [exact Hv|]. intros x; by left. }
  pose proof (solid_spec G HG l _ Hiv) as Hs. rewrite Hf in Hs. specialize (Hs Hnd ltac:(nia)).
  assert (solid (intervals le pBlocks n bContigous) = intervals le pBlocks n bContigous) as Es.
  { apply list_filter_all. intros a Ha Hh. destruct Hiv as [Hc Hok _]. rewrite Forall_forall in Hok.
    destruct (Hok a Ha) as [Hlt _]. apply (Hnh INVALID_BLOCK_IDX); [|done].
    enough ((INVALID_BLOCK_IDX, dwOff a) ∈ placed 0 l) as Hin.
    { apply elem_of_placed in Hin as [_ Hin]. by eapply list_elem_of_lookup_2. }
    rewrite <- Hc. apply elem_of_cells. exists a. split; [done|]. apply elem_of_cells1.
    rewrite decide_True by done. lia. }
  rewrite Es in Hs. split_and!; [done| |].
  - rewrite (so_size _ _ _ Hs), Hf. done.
  - unfold l, request in *. rewrite Forall_forall in Hv. apply Hv. destruct bContigous.
    + apply elem_of_seqZ. lia.
    + destruct pBlocks as [|x pBlocks]; [rewrite firstn_nil in R3; simpl in R3; lia|].
      destruct (Z.to_nat n) eqn:E; [lia|]. simpl. set_solver.
Qed.

Lemma key_addr_inj k k' o o' :
  key_ok G k -> key_ok G k' -> 0 <= o < key_size G k -> 0 <= o' < key_size G k' ->
  addr G k + o = addr G k' + o' -> k = k' /\ o = o'.
Proof.
  pose proof base_bounds as (B1 & B2 & B3). destruct idx_vals as (E1 & E2 & E3).
  assert (forall k o, key_ok G k -> 0 <= o < key_size G k ->
    (0 <= k < BLK_MAX /\ addr G k = k * BLOCK_SIZE G + base_addr G /\ 0 <= o < BLOCK_SIZE G) \/
    (k = GB_IDX /\ addr G k = BLOCK_SIZE G /\ 0 <= o < GRPBMP_SIZE G) \/
    (k = SB_IDX /\ addr G k = 0 /\ 0 <= o < BLOCK_SIZE G)) as H.
  { intros x p Hk Hp. unfold key_size in Hp. destruct Hk as [Hk|[->| ->]].
    - destruct (valid_max G HG x Hk) as [Hx _]. left. split; [done|]. split; [by apply addr_blk|].
      destruct (Z.eqb_spec x GB_IDX); [lia|done].
    - by right; left.
    - by right; right. }
  intros Hk Hk' Ho Ho' He. destruct (H k o Hk Ho) as [(? & Ea & ?)|[(-> & Ea & ?)|(-> & Ea & ?)]],
    (H k' o' Hk' Ho') as [(? & Ea' & ?)|[(-> & Ea' & ?)|(-> & Ea' & ?)]]; rewrite ?Ea, ?Ea' in He.
  { assert (k = k') by nia. subst. lia. }
  all: try (assert (0 <= k * BLOCK_SIZE G) by nia). all: try (assert (0 <= k' * BLOCK_SIZE G) by nia). all: lia.
Qed.

Lemma CacheBlocks_write now pBlocks n pBuf bContigous s :
  entries G 0 (m_mapDirtyBlks s) -> write_ok G (request pBlocks n bContigous) n ->
  exists s', CacheBlocks G now pBlocks n pBuf bContigous s = Ret (s', n * BLOCK_SIZE G) /\
    entries G 0 (m_mapDirtyBlks s') /\ m_file s' = m_file s /\
    (forall k o p, request pBlocks n bContigous !! Z.to_nat p = Some k -> 0 <= p -> 0 <= o < BLOCK_SIZE G ->
       cached G (m_mapDirtyBlks s') (addr G k + o) = Some (pBuf (p * BLOCK_SIZE G + o))) /\
    (forall a, (forall k o, k ∈ request pBlocks n bContigous -> 0 <= o < BLOCK_SIZE G -> a <> addr G k + o) ->
       cached G (m_mapDirtyBlks s') a = cached G (m_mapDirtyBlks s) a).
Proof.
  intros Hd Hw. pose proof base_bounds as (B1 & B2 & B3). destruct idx_vals as (E1 & E2 & E3).
  destruct (write_intervals le_first pBlocks n bContigous le_first_ok Hw) as (Hsol & Htot & Hx).
  destruct Hw as ([R1 R2 R3] & Hv & _). set (l := request pBlocks n bContigous) in *.
  set (v := intervals le_first pBlocks n bContigous) in *. unfold CacheBlocks. fold v.
  set (s1 := match m_mapDirtyBlks s with [] => set_start now s | _ => s end).
  assert (m_mapDirtyBlks s1 = m_mapDirtyBlks s /\ m_file s1 = m_file s) as [Es1 Ef1].
  { unfold s1. destruct (m_mapDirtyBlks s) eqn:E; (split; [exact E|done]). }
  destruct (valid_max G HG _ Hx) as [Hx1 _]. set (x := default 0 (head pBlocks)) in *.
  destruct (Z.eqb_spec x SB_IDX); [lia|]. destruct (Z.eqb_spec x GB_IDX); [lia|].
  rewrite Es1. set (d := m_mapDirtyBlks s) in *.
  destruct (split_spec l v n d 0 Hsol R3 R2 Hd ltac:(lia)) as [P1 P2 P3 P4 P5 P6 P7 P8 P9].
  set (c := IntersectIntervals G v d) in *. set (w := SubtractIntervals v c) in *.
  pose proof (total_nonneg c P3) as T1. pose proof (total_nonneg w P4) as T2. unfold MAX_BUFFER in R2.
  destruct (CacheCommon_spec c pBuf d 0) as (d1 & C1 & C2 & C3 & C4); [done|done|done|lia|nia|].
  rewrite C1. cbn [obind].
  destruct (CacheNew_spec 0 w pBuf d1 (m_dwDirtyBlkCount s1) (0 + BLOCK_SIZE G * total c))
    as (d2 & cnt & N1 & N2 & N3); [done|done|done| |nia|nia|].
  { pose proof P4 as P4'. apply Forall_forall. intros r Hr. rewrite Forall_forall in P6. split.
    - intros [k b] He Hb. destruct Hb as (m & Hm & Hs & Hde & Hval). simpl in Hm, Hs, Hde, Hval.
      destruct (proj2 (C3 k (BLOCK_SIZE G * m))) as (b' & Hb' & Hs'); [by exists b|].
      assert (dend G (k, b') = k + m) as Hde' by (by apply (blk_dend G HG)).
      pose proof (P6 r Hr (k, b') Hb') as Hap. rewrite Hde' in Hap. rewrite Hde. apply Hap.
      exists m. done.
    - pose proof (total_elem w r P4' Hr). unfold MAX_BUFFER. nia. }
  rewrite N1. assert (SUCCEEDED 0 = true) as -> by done.
  exists (set_count cnt (set_dirty d2 s1)). split.
  { do 2 f_equal. rewrite <- Htot, <- P9. unfold s32. rewrite sN_small; [lia|lia|].
    change (2 ^ (32 - 1)) with 2147483648. nia. }
  change (m_mapDirtyBlks (set_count cnt (set_dirty d2 s1))) with d2.
  change (m_file (set_count cnt (set_dirty d2 s1))) with (m_file s1).
  assert (forall a, cached G d2 a = patched w pBuf (patched c pBuf (cached G d)) a) as Hc.
  { intros a. rewrite N3. apply patched_ext. intros b. apply C4. }
  split_and!; [done|done| |].
  - intros k o p Hl Hp Ho. rewrite Hc. assert (valid_blk G k) as Hk.
    { rewrite Forall_forall in Hv. apply Hv. by eapply list_elem_of_lookup_2. }
    destruct (valid_max G HG k Hk) as [Hk1 Hk2]. rewrite addr_blk by done.
    destruct (proj1 (P7 k p)) as [Hcov|Hcov].
    { apply (so_covers _ _ _ Hsol). done. }
    + destruct Hcov as (r & Hr & Hxr & ->). rewrite patched_out.
      * erewrite patched_in by eauto. done.
      * intros r' Hr'. rewrite in_piece_blk by done. intros Hx'. apply (P8 k); [exists r|exists r']; done.
    + destruct Hcov as (r & Hr & Hxr & ->). erewrite patched_in by eauto. done.
  - intros a Ha. rewrite Hc.
    assert (forall r, r ∈ c \/ r ∈ w -> ~ in_piece r a) as Hout.
    { intros r Hr Hin.
      assert (Hpr : piece r) by (rewrite Forall_forall in P3, P4; destruct Hr; auto).
      pose proof (piece_bound r Hpr) as Hb. assert (base_addr G <= a) as Hba by (unfold in_piece in Hin; nia).
      destruct (split_addr a Hba) as (k & o & -> & Ho & Hk). apply in_piece_blk in Hin; [|done].
      assert (covers v k (dwOff r + (k - first r))) as Hcov.
      { apply P7. destruct Hr as [Hr|Hr]; [left|right]; by exists r. }
      apply (so_covers _ _ _ Hsol) in Hcov as (_ & Hl & _). apply list_elem_of_lookup_2 in Hl.
      apply (Ha k o Hl Ho). rewrite addr_blk by lia. done. }
    rewrite !patched_out; [done|intros; apply Hout; by left|intros; apply Hout; by right].
Qed.

(** *** Merging and committing *)

Lemma MergeLoop_spec lo k b d :
  GRPBMP_BLKNUM G <> 2 -> entries G lo ((k, b) :: d) ->
  entries G lo (MergeLoop G k b d) /\ forall a, cached G (MergeLoop G k b d) a = cached G ((k, b) :: d) a.
Proof.
  intros HN. pose proof base_bounds as (B1 & B2 & B3). destruct idx_vals as (E1 & E2 & E3).
  revert lo k b. induction d as [|[k' b'] d IH]; intros lo k b Hd; [done|]. cbn [MergeLoop].
  (* the runs stay apart *)
  assert (Hkeep : entries G lo ((k, b) :: MergeLoop G k' b' d) /\
    forall a, cached G ((k, b) :: MergeLoop G k' b' d) a = cached G ((k, b) :: (k', b') :: d) a).
  { split.
    - inversion Hd as [|? ? ? n ? Hk Hn Hs Hv Hd'|? ? ? Hlo Hs Hd'|]; subst.
      + apply (en_blk G lo k b n); try done. by apply IH.
      + apply en_gb; try done. by apply IH.
    - intros a. cbn [cached]. destruct (decide _); [done|].
      destruct (entries_tail G _ _ _ Hd) as (lo' & _ & Hd'). by apply (IH lo'). }
  destruct (Z.eqb_spec k' (u32 (k + d_size b / BLOCK_SIZE G))) as [Ek|]; [|exact Hkeep].
  destruct (Z.leb_spec (d_size b + d_size b') MAX_BUFFER); [|exact Hkeep].
  inversion Hd as [|? ? ? n ? Hk Hn Hs Hv Hd'|? ? ? Hlo Hs Hd'|]; subst.
  - assert (d_size b / BLOCK_SIZE G = n) as En by (rewrite Hs, Z.mul_comm, Z.div_mul by lia; done).
    pose proof (valid_max G HG (k + n - 1) (Hv (k + n - 1) ltac:(lia))).
    pose proof (valid_max G HG k (Hv k ltac:(lia))). rewrite En in *. clear En.
    rewrite (u32_small (k + n)) in * by lia.
    inversion Hd' as [|? ? ? n' ? Hk' Hn' Hs' Hv' Hd2|? ? ? Hlo' Hs' Hd2|? ? Hlo' Hs']; subst; [|lia|lia].
    set (b2 := mkBuf _ _). destruct (IH lo k b2) as [I1 I2].
    { apply (en_blk G lo k b2 (n + n')); [done|lia|unfold b2; cbn [d_size]; lia| |].
      - intros x Hx. destruct (Z.lt_ge_cases x (k + n)); [apply Hv; lia|apply Hv'; lia].
      - by replace (k + (n + n')) with (k + n + n') by lia. }
    split; [done|]. intros a. rewrite I2. cbn [cached].
    assert (addr G k = k * BLOCK_SIZE G + base_addr G) as A1 by (apply addr_blk; lia).
    pose proof (valid_max G HG (k + n + n' - 1) (Hv' (k + n + n' - 1) ltac:(lia))).
    assert (addr G (k + n) = addr G k + d_size b) as A2 by (rewrite addr_blk, A1, Hs by lia; lia).
    assert (in_entry G (k, b2) a <-> addr G k <= a < addr G k + (d_size b + d_size b')) as J by done.
    assert (in_entry G (k, b) a <-> addr G k <= a < addr G k + d_size b) as J1 by done.
    assert (in_entry G (k + n, b') a <-> addr G k + d_size b <= a < addr G k + d_size b + d_size b') as J2.
    { unfold in_entry. cbn [fst snd]. by rewrite A2. }
    assert (0 < d_size b /\ 0 < d_size b') as [Z1 Z2] by (rewrite Hs, Hs'; nia).
    assert (forall p, d_data b2 p = if (d_size b <=? p) && (p <? d_size b + d_size b')
      then d_data b' (p - d_size b) else d_data b p) as Jd by done.
    cbn [fst snd]. rewrite A2, Jd. clearbody b2.
    destruct (decide (in_entry G (k, b) a)) as [Ha|Ha].
    + apply (proj1 J1) in Ha. rewrite decide_True by (apply (proj2 J); lia). f_equal.
      destruct (Z.leb_spec (d_size b) (a - addr G k)); [lia|]. done.
    + rewrite J1 in Ha. destruct (decide (in_entry G (k + n, b') a)) as [Ha'|Ha']; rewrite J2 in Ha'.
      * rewrite decide_True by (apply (proj2 J); lia). f_equal. destruct (Z.leb_spec (d_size b) (a - addr G k)); [|lia].
        destruct (Z.ltb_spec (a - addr G k) (d_size b + d_size b')); [|lia]. cbn [andb]. f_equal. lia.
      * rewrite decide_False by (intros Hj; apply (proj1 J) in Hj; lia). done.
  - exfalso. inversion Hd' as [|? ? ? n' ? Hk' Hn' Hs' Hv' Hd2|? ? ? Hlo' Hs' Hd2|? ? Hlo' Hs']; subst.
    + pose proof (valid_max G HG _ (Hv' _ ltac:(split; [reflexivity|lia]))). lia.
    + lia.
    + apply HN. unfold GRPBMP_BLKNUM. rewrite <- (Z.mul_comm BYTE_BITS), <- Z.div_div by (unfold BYTE_BITS; lia).
      fold (GRPBMP_SIZE G). match goal with H : SB_IDX = u32 _ |- _ => rename H into Ek end. rewrite Hs in Ek.
      assert (0 <= GRPBMP_SIZE G / BLOCK_SIZE G <= 16) as Hq.
      { split; [apply Z.div_pos; lia|]. apply Z.div_le_upper_bound; [lia|].
        pose proof (geom_bounds G HG) as (HB & _). nia. }
      unfold u32, uN in Ek. rewrite E1, E2 in Ek.
      destruct (Z.lt_ge_cases (GRPBMP_SIZE G / BLOCK_SIZE G) 4).
      * rewrite Z.mod_small in Ek by lia. lia.
      * rewrite <- (Z.mod_add _ (-1)), Z.mod_small in Ek by lia. lia.
Qed.

Lemma CommitLoop_spec io lo d f :
  io_ok io -> entries G lo d -> 0 <= f_len f ->
  exists f', CommitLoop G io d f = Ret f' /\ f_len f <= f_len f' /\
    forall a v, 0 <= a -> visible G d f a = Some v -> on_disk f' a = Some v.
Proof.
  intros Hio. revert lo f. induction d as [|[k b] d IH]; intros lo f Hd Hf.
  { exists f. split_and!; [done|lia|]. intros a v _ H. exact H. }
  destruct idx_vals as (E1 & E2 & E3). pose proof base_bounds as (B1 & B2 & B3).
  cbn [CommitLoop]. set (off := if k =? SB_IDX then _ else _).
  destruct (entries_in G HG lo ((k, b) :: d) (k, b) Hd ltac:(set_solver)) as [_ Hok].
  assert (off = addr G k /\ 0 <= addr G k /\ 0 <= d_size b) as (Eo & Ha0 & Hs0).
  { unfold off. destruct Hok as [Hb|[[E ES]|[E ES]]]; simpl in *.
    - pose proof (blk_entry_bound G HG _ Hb) as Hbb. simpl in Hbb. destruct Hb as (n & Hn & Hs & Hde & Hv). simpl in *.
      rewrite Hs. rewrite <- (addr_abs k) by (apply Hv; lia).
      destruct (Z.eqb_spec k SB_IDX); [lia|]. destruct (Z.eqb_spec k GB_IDX); [lia|].
      rewrite (addr_abs k), addr_blk by (lia || (apply Hv; lia)). split_and!; [done|nia|nia].
    - rewrite E, ES. change (addr G GB_IDX) with (BLOCK_SIZE G). change (GB_IDX =? SB_IDX) with false.
      rewrite Z.eqb_refl. cbn iota. lia.
    - rewrite E, ES. change (addr G SB_IDX) with 0. rewrite Z.eqb_refl. cbn iota. lia. }
  unfold WriteFile. rewrite (Hio off). assert (ERROR 0 = false) as -> by done.
  assert (ERROR (d_size b) = false) as -> by (apply Z.ltb_ge; lia). rewrite Eo.
  destruct (entries_tail G _ _ _ Hd) as (lo' & _ & Hd').
  destruct (IH lo' (file_write (addr G k) (d_size b) (d_data b) f) Hd') as (f' & I1 & I2 & I3).
  { cbn [f_len file_write]. lia. }
  exists f'. split; [done|]. cbn [f_len file_write] in I2. split; [lia|].
  intros a v Ha Hv. apply (I3 a v Ha). unfold visible in *. cbn [cached] in Hv.
  destruct (decide (in_entry G (k, b) a)) as [Hin|Hin].
  - assert (cached G d a = None) as ->.
    { apply cached_none. intros e He Hea.
      assert (e = (k, b)) as -> by (eapply (entries_inj lo ((k, b) :: d)); [done|set_solver|set_solver|done|done]).
      destruct (entries_tail G _ _ _ Hd) as (lo2 & Hlo2 & Hd2). destruct (entries_in G HG _ _ _ Hd2 He). simpl in *. lia. }
    unfold on_disk, in_entry in *. cbn [f_len f_data file_write fst snd] in *.
    destruct (Z.ltb_spec a (Z.max (f_len f) (addr G k + d_size b))); [|lia].
    destruct (Z.leb_spec (addr G k) a); [|lia]. destruct (Z.ltb_spec a (addr G k + d_size b)); [|lia]. done.
  - destruct (cached G d a); [done|]. unfold on_disk, in_entry in *. cbn [f_len f_data file_write fst snd] in *.
    destruct (Z.ltb_spec a (f_len f)) as [Hl|]; [|done].
    destruct (Z.ltb_spec a (Z.max (f_len f) (addr G k + d_size b))); [|lia].
    destruct (Z.leb_spec (addr G k) a), (Z.ltb_spec a (addr G k + d_size b)); done || lia.
Qed.

(** *** Reading blocks *)

(** The place of an interval in the caller's memory, and the address in the
    file that belongs to a byte of it. *)
Definition in_mem (r : CONTBLKS) (q : Z) : Prop :=
  dwOff r * BLOCK_SIZE G <= q < (dwOff r + (second r - first r)) * BLOCK_SIZE G.
Definition file_addr (r : CONTBLKS) (q : Z) : Z :=
  first r * BLOCK_SIZE G + base_addr G + (q - dwOff r * BLOCK_SIZE G).
#[local] Instance in_mem_dec r q : Decision (in_mem r q).
Proof. unfold in_mem. apply _. Defined.

(** The intervals [c] were filled with [W]; the rest is as before. *)
Definition filled (c : list CONTBLKS) (W buf buf' : mem) : Prop :=
  forall q, (Exists (fun r => in_mem r q) c /\ buf' q = W q) \/
            (Forall (fun r => ~ in_mem r q) c /\ buf' q = buf q).

Lemma filled_nil W buf : filled [] W buf buf.
Proof. intros q. right. done. Qed.

Lemma filled_cons r c W buf buf1 buf' :
  (forall q, buf1 q = if decide (in_mem r q) then W q else buf q) -> filled c W buf1 buf' -> filled (r :: c) W buf buf'.
Proof.
  intros H1 H2 q. specialize (H1 q). destruct (H2 q) as [[Hc ->]|[Hc ->]].
  - left. split; [by constructor 2|done].
  - rewrite H1. destruct (decide (in_mem r q)); [left|right]; (split; [by constructor|done]).
Qed.

Lemma blit_mem r src buf q :
  piece r -> blit buf (u32 (dwOff r * BLOCK_SIZE G)) src (bytes_of G (second r - first r)) q =
  if decide (in_mem r q) then src (q - dwOff r * BLOCK_SIZE G) else buf q.
Proof.
  intros Hr. rewrite (piece_size r Hr). destruct Hr as (H1 & _ & H3 & H4). pose proof base_bounds as (B1 & _).
  rewrite u32_small by nia. unfold blit. destruct (decide (in_mem r q)) as [H|H]; unfold in_mem in H.
  - destruct (Z.leb_spec (dwOff r * BLOCK_SIZE G) q); [|lia].
    destruct (Z.ltb_spec q (dwOff r * BLOCK_SIZE G + BLOCK_SIZE G * (second r - first r))); [done|lia].
  - destruct (Z.leb_spec (dwOff r * BLOCK_SIZE G) q); [|done].
    destruct (Z.ltb_spec q (dwOff r * BLOCK_SIZE G + BLOCK_SIZE G * (second r - first r))); [lia|done].
Qed.

Lemma ReadHits_spec d c W buf n :
  entries G 0 d -> Forall piece c -> Forall (hit d) c -> 0 <= n -> n + BLOCK_SIZE G * total c < 2 ^ 32 ->
  (forall r q, r ∈ c -> in_mem r q -> cached G d (file_addr r q) = Some (W q)) ->
  exists buf', ReadHits G c d buf n = (buf', n + BLOCK_SIZE G * total c) /\ filled c W buf buf'.
Proof.
  intros Hd Hp. revert buf n. pose proof base_bounds as (B1 & B2 & B3). destruct idx_vals as (E1 & E2 & E3).
  induction Hp as [|r c Hr Hp IH]; intros buf n Hh Hn Hs HW.
  { exists buf. split; [|apply filled_nil]. simpl. f_equal. lia. }
  apply Forall_cons_1 in Hh as [(m & (b & Hb & Hbm) & H1 & H2 & H3) Hh].
  pose proof (total_nonneg c Hp). rewrite total_cons, Z.mul_add_distr_l in Hs |- *.
  assert (0 <= BLOCK_SIZE G * total c) as T1 by nia.
  assert (0 < BLOCK_SIZE G * (second r - first r)) as T2 by (destruct Hr; nia).
  pose proof (piece_bound r Hr) as Hbd. pose proof (piece_size r Hr) as Es.
  cbn [ReadHits]. rewrite (find_in 0 (dwKey r) b d) by done.
  assert (bytes_of G (first r - dwKey r) = BLOCK_SIZE G * (first r - dwKey r)) as Eoff.
  { apply bytes_of_small; [lia|]. destruct Hr. nia. }
  destruct (Z.ltb_spec (d_size b) (bytes_of G (first r - dwKey r))) as [Hlt|_].
  { exfalso. rewrite Eoff, Hbm in Hlt. destruct Hr as (Hr1 & _).
    assert (BLOCK_SIZE G * (first r - dwKey r) <= BLOCK_SIZE G * m) by (apply Z.mul_le_mono_nonneg_l; lia). lia. }
  set (buf1 := blit _ _ _ _). rewrite Es, (u32_small (n + _)) by lia.
  destruct (IH buf1 (n + BLOCK_SIZE G * (second r - first r))) as (buf' & I1 & I2); [done|lia|lia| |].
  { intros r' q Hr'. apply HW. set_solver. }
  exists buf'. split; [rewrite I1; f_equal; lia|]. eapply filled_cons; [|exact I2].
  intros q. unfold buf1. rewrite blit_mem by done. destruct (decide (in_mem r q)) as [Hq|]; [|done].
  pose proof (HW r q ltac:(set_solver) Hq) as Hc. unfold shift. rewrite Eoff.
  assert (addr G (dwKey r) = dwKey r * BLOCK_SIZE G + base_addr G) as Ea.
  { apply addr_blk. destruct Hr as (? & _). lia. }
  rewrite (cached_in 0 d (dwKey r, b)) in Hc; [|done|done|].
  - injection Hc as <-. f_equal. cbn [fst]. rewrite Ea. unfold file_addr. lia.
  - unfold in_entry, file_addr, in_mem in *. cbn [fst snd]. rewrite Ea, Hbm. nia.
Qed.

Lemma ReadMisses_spec io f c W buf ret n :
  io_ok io -> 0 <= ret -> Forall piece c -> 0 <= n -> n + BLOCK_SIZE G * total c < 2 ^ 32 ->
  (forall r q, r ∈ c -> in_mem r q -> W q = default (buf q) (on_disk f (file_addr r q))) ->
  exists buf' ret', ReadMisses G io c f buf ret n = (buf', ret', n + BLOCK_SIZE G * total c) /\
    0 <= ret' /\ filled c W buf buf'.
Proof.
  intros Hio Hret Hp. revert buf ret n Hret. pose proof base_bounds as (B1 & B2 & B3).
  induction Hp as [|r c Hr Hp IH]; intros buf ret n Hret Hn Hs HW.
  { exists buf, ret. split_and!; [simpl; f_equal; lia|done|apply filled_nil]. }
  pose proof (total_nonneg c Hp). rewrite total_cons, Z.mul_add_distr_l in Hs |- *.
  assert (0 <= BLOCK_SIZE G * total c) as T1 by nia.
  assert (0 < BLOCK_SIZE G * (second r - first r)) as T2 by (destruct Hr; nia).
  pose proof (piece_bound r Hr) as Hbd. pose proof (piece_size r Hr) as Es. destruct idx_vals as (E1 & E2 & E3).
  cbn [ReadMisses]. unfold ReadFile. rewrite Hio. change (ERROR 0) with false. cbn iota.
  set (got := Z.max 0 _). assert (ERROR got = false) as -> by (apply Z.ltb_ge; lia).
  set (buf1 := blit _ _ _ _).
  assert (H1 : forall q, buf1 q = if decide (in_mem r q) then W q else buf q).
  { intros q. unfold buf1. rewrite blit_mem by done. destruct (decide (in_mem r q)) as [Hq|]; [|done].
    rewrite (HW r q) by (set_solver || done). destruct Hr as (Hr1 & Hr2 & Hr3 & Hr4).
    unfold file_read, shift. rewrite (addr_abs (first r)), addr_blk by (lia || (apply Hr2; lia)).
    rewrite Es, (u32_small (dwOff r * _)) by nia. unfold on_disk, file_addr, in_mem in *.
    destruct (Z.leb_spec 0 (q - dwOff r * BLOCK_SIZE G)); [|lia].
    destruct (Z.ltb_spec (q - dwOff r * BLOCK_SIZE G) (BLOCK_SIZE G * (second r - first r))); [|lia].
    cbn [andb]. destruct (Z.ltb_spec (first r * BLOCK_SIZE G + base_addr G + (q - dwOff r * BLOCK_SIZE G)) (f_len f)).
    - done.
    - cbn [default from_option]. f_equal. lia. }
  rewrite Es, (u32_small (n + _)) by lia.
  destruct (IH buf1 got (n + BLOCK_SIZE G * (second r - first r))) as (buf' & ret' & I1 & I2 & I3); [lia|lia|lia| |].
  { intros r' q Hr' Hq. rewrite H1. pose proof (HW r' q ltac:(set_solver) Hq) as HWq.
    destruct (decide (in_mem r q)); [|done]. destruct (on_disk f (file_addr r' q)); [done|done]. }
  exists buf', ret'. split_and!; [rewrite I1; f_equal; lia|done|]. by eapply filled_cons.
Qed.

(** The holes of a request are filled with zeros. *)
Lemma DropHoles_spec v buf :
  StronglySorted (fun a b => first a <= first b) v -> Forall (ival_ok G) v ->
  exists buf', DropHoles G v buf = (solid v, buf') /\
    forall q, (Exists (fun r => hole r /\ in_mem r q) v /\ buf' q = 0) \/
              (Forall (fun r => ~ (hole r /\ in_mem r q)) v /\ buf' q = buf q).
Proof.
  intros Hs. revert buf. pose proof base_bounds as (B1 & _).
  induction Hs as [|a v Hs IH Ha]; intros buf Hok.
  { exists buf. split; [done|]. intros q. by right. }
  apply Forall_cons_1 in Hok as [[Hlt Hok1] Hok]. unfold solid in *. rewrite filter_cons. cbn [DropHoles].
  destruct (Z.ltb_spec (first a) INVALID_BLOCK_IDX) as [H1|H1].
  { rewrite decide_True by (unfold hole; lia). destruct (IH buf Hok) as (buf' & I1 & I2).
    rewrite I1. exists buf'. split; [done|]. intros q. destruct (I2 q) as [[? ?]|[? ?]]; [left|right].
    - split; [by constructor 2|done].
    - split; [constructor; [unfold hole; lia|done]|done]. }
  destruct (Z.eqb_spec (first a) INVALID_BLOCK_IDX) as [H2|H2].
  - rewrite decide_False by (unfold hole; tauto).
    destruct (IH (blit buf (dwOff a * BLOCK_SIZE G) (fun _ => 0) ((second a - first a) * BLOCK_SIZE G)) Hok)
      as (buf' & I1 & I2).
    rewrite I1. exists buf'. split; [done|]. intros q. destruct (I2 q) as [[? ?]|[I3 ->]].
    + left. split; [by constructor 2|done].
    + unfold blit. destruct (decide (in_mem a q)) as [Hq|Hq]; [left|right]; unfold in_mem in Hq.
      * split; [by constructor|]. destruct (Z.leb_spec (dwOff a * BLOCK_SIZE G) q); [|lia].
        destruct (Z.ltb_spec q (dwOff a * BLOCK_SIZE G + (second a - first a) * BLOCK_SIZE G)); [done|lia].
      * split; [constructor; [unfold in_mem; tauto|done]|].
        destruct (Z.leb_spec (dwOff a * BLOCK_SIZE G) q); [|done].
        destruct (Z.ltb_spec q (dwOff a * BLOCK_SIZE G + (second a - first a) * BLOCK_SIZE G)); [lia|done].
  - assert (forall b, b ∈ a :: v -> ~ hole b) as Hnh.
    { intros b Hb. rewrite Forall_forall in Ha. unfold hole. apply elem_of_cons in Hb as [->|Hb]; [lia|].
      specialize (Ha b Hb). simpl in Ha. lia. }
    exists buf. rewrite decide_True by (apply Hnh; set_solver). rewrite list_filter_all by (intros; apply Hnh; set_solver).
    split; [done|]. intros q. right. split; [|done]. apply Forall_forall. intros b Hb [Hh _]. by apply (Hnh b).
Qed.
End Store.
