(* ===== verification/BlkRefine.v ===== *)
(** * The block cache implements a store of blocks

    A store gives for a block and an offset the byte that was written last.
    Every call of the allocator in safe mode does to the cache and the file what
    it should do to the store, and reading shows the store. *)

From Stdlib Require Import ZArith Lia Sorted.
From S2P Require Import Prelude TaskGroup BlkBitmap BlkCache BlkStore.
Local Open Scope rpcf_scope.

(** ** The store *)

(** By block and offset; [None] where nothing is known. *)
Abbreviation store := (Z -> Z -> option Z).

Definition refines (G : geometry) (A : store) (s : cache) : Prop :=
  entries G 0 (m_mapDirtyBlks s) /\ 0 <= f_len (m_file s) /\
  forall k o v, key_ok G k -> 0 <= o < key_size G k -> A k o = Some v ->
    visible G (m_mapDirtyBlks s) (m_file s) (addr G k + o) = Some v.

(** The calls, and what they should do. *)
Inductive op :=
  | OpWrite (now : Z) (pBlocks : list Z) (dwNumBlocks : Z) (pBuf : mem) (bContigous : bool)
  | OpSaveSuperBlock (now : Z) (pSb : mem) (dwSize : Z)
  | OpSaveGroupBitmap (now : Z) (pbmp : mem) (dwSize : Z)
  | OpEnter (dwCacheLife now : Z)
  | OpLeave (dwCacheLife now : Z)
  | OpMerge
  | OpCommit
  | OpStop.

Definition exec (G : geometry) (io : Z -> Z -> Z) (o : op) (s : cache) : outcome cache :=
  match o with
  | OpWrite now bl n p c => let! (_, s, _) := ReadWriteBlocks G io now false bl n p c s in Ret s
  | OpSaveSuperBlock now p n => let! (s, _) := SaveSuperBlock G io now p n s in Ret s
  | OpSaveGroupBitmap now p n => let! (s, _) := SaveGroupBitmap G io now p n s in Ret s
  | OpEnter life now => BATransact_enter G io life now s
  | OpLeave life now => BATransact_leave G io life now s
  | OpMerge => Ret (MergeBlocks G s)
  | OpCommit => let! (s, _) := CommitCache G io s in Ret s
  | OpStop => Ret (SetStopped s)
  end.

Fixpoint run (G : geometry) (io : Z -> Z -> Z) (ops : list op) (s : cache) : outcome cache :=
  match ops with
  | [] => Ret s
  | o :: ops => let! s := exec G io o s in run G io ops s
  end.

(** The place of a block in a list. *)
Fixpoint place (x p : Z) (l : list Z) : option Z :=
  match l with
  | [] => None
  | y :: l => if y =? x then Some p else place x (p + 1) l
  end.

Definition put_blocks (G : geometry) (l : list Z) (pBuf : mem) (A : store) : store :=
  fun k o => match place k 0 l with Some p => Some (pBuf (p * BLOCK_SIZE G + o)) | None => A k o end.
Definition put_key (k0 : Z) (pBuf : mem) (A : store) : store :=
  fun k o => if k =? k0 then Some (pBuf o) else A k o.

Definition spec (G : geometry) (o : op) (A : store) : store :=
  match o with
  | OpWrite _ bl n p c => put_blocks G (request bl n c) p A
  | OpSaveSuperBlock _ p n => if n <? BLOCK_SIZE G then A else put_key SB_IDX p A
  | OpSaveGroupBitmap _ p n => if n <? GRPBMP_SIZE G then A else put_key GB_IDX p A
  | _ => A
  end.

Definition op_ok (G : geometry) (o : op) : Prop :=
  match o with OpWrite _ bl n _ c => write_ok G (request bl n c) n | _ => True end.

(** ** Lemmas *)

Lemma place_spec x p l :
  match place x p l with
  | Some q => p <= q /\ l !! Z.to_nat (q - p) = Some x
  | None => x ∉ l
  end.
Proof.
  revert p. induction l as [|y l IH]; intros p; simpl; [set_solver|].
  destruct (Z.eqb_spec y x) as [->|Hne]; [split; [lia|by rewrite Z.sub_diag]|].
  specialize (IH (p + 1)). destruct (place x (p + 1) l) as [q|]; [|set_solver].
  destruct IH as [H1 H2]. split; [lia|].
  replace (Z.to_nat (q - p)) with (S (Z.to_nat (q - (p + 1)))) by lia. done.
Qed.

Section Refine.
Context (G : geometry) (HG : geom_ok G) (io : Z -> Z -> Z) (Hio : io_ok io).

(** ** Reading *)

(** What a read leaves in the caller's memory. *)
Definition read_byte (s : cache) (l : list Z) (pBuf : mem) (p o : Z) (v : Z) : Prop :=
  exists k, l !! Z.to_nat p = Some k /\
    v = if decide (not_hole k)
        then default (pBuf (p * BLOCK_SIZE G + o)) (visible G (m_mapDirtyBlks s) (m_file s) (addr G k + o))
        else 0.

Lemma mem_place r q p o :
  q = p * BLOCK_SIZE G + o -> 0 <= o < BLOCK_SIZE G -> in_mem G r q ->
  dwOff r <= p < dwOff r + (second r - first r) /\
  file_addr G r q = (first r + (p - dwOff r)) * BLOCK_SIZE G + base_addr G + o.
Proof.
  pose proof (base_bounds G HG) as (B1 & _). unfold in_mem, file_addr. intros -> Ho Hq. split; [nia|lia].
Qed.

Lemma place_split q : exists p o, q = p * BLOCK_SIZE G + o /\ 0 <= o < BLOCK_SIZE G.
Proof.
  pose proof (base_bounds G HG) as (B1 & _).
  exists (q / BLOCK_SIZE G), (q mod BLOCK_SIZE G).
  pose proof (Z.div_mod q (BLOCK_SIZE G)). pose proof (Z.mod_pos_bound q (BLOCK_SIZE G)). lia.
Qed.

(** A function on the bytes of a request, by place and offset. *)
Definition by_place (W : Z -> Z -> Z) : mem := fun q => W (q / BLOCK_SIZE G) (q mod BLOCK_SIZE G).

Lemma by_place_val W p o : 0 <= o < BLOCK_SIZE G -> by_place W (p * BLOCK_SIZE G + o) = W p o.
Proof.
  intros Ho. unfold by_place. f_equal.
  - rewrite Z.div_add_l, (Z.div_small o) by lia. lia.
  - rewrite Z.add_comm, Z.mod_add, Z.mod_small by lia. done.
Qed.

(** The intervals of a read: the holes are filled already. *)
Lemma read_intervals pBlocks n bContigous pBuf :
  let l := request pBlocks n bContigous in
  let v := intervals le_all pBlocks n bContigous in
  read_ok G l n bContigous ->
  exists buf, (if bContigous then (v, pBuf) else DropHoles G v pBuf) = (solid v, buf) /\ solid_of G l (solid v) /\
    forall p o k, l !! Z.to_nat p = Some k -> 0 <= p -> 0 <= o < BLOCK_SIZE G ->
      buf (p * BLOCK_SIZE G + o) = if decide (not_hole k) then pBuf (p * BLOCK_SIZE G + o) else 0.
Proof.
  intros l v ([R1 R2 R3] & Hb & Hnd & Hc). pose proof (geom_bounds G HG) as (HB & _). unfold MAX_BUFFER in R2.
  assert (intervals_of G l v) as Hiv by (apply intervals_spec; [done|apply le_all_ok|nia|done|done]).
  pose proof (solid_spec G HG l v Hiv Hnd ltac:(nia)) as Hsol.
  destruct bContigous.
  - specialize (Hc eq_refl). exists pBuf. split_and!; [|done|].
    + f_equal. symmetry. apply list_filter_all. unfold v, intervals. intros a Ha. apply list_elem_of_singleton in Ha as ->.
      unfold hole. simpl. rewrite Forall_forall in Hc. apply (valid_max G HG). apply Hc. unfold l, request.
      apply elem_of_seqZ. lia.
    + intros p o k Hl _ _. rewrite decide_True; [done|]. rewrite Forall_forall in Hc.
      apply (valid_max G HG), Hc. by eapply list_elem_of_lookup_2.
  - destruct (DropHoles_spec G HG v pBuf (iv_sorted _ _ _ Hiv) (iv_ok _ _ _ Hiv)) as (buf & D1 & D2).
    exists buf. split_and!; [done|done|]. intros p o k Hl Hp Ho.
    assert (Hcell : forall a, a ∈ v -> in_mem G a (p * BLOCK_SIZE G + o) -> (k, p) ∈ cells1 a).
    { intros a Ha Hq. destruct (mem_place a _ p o eq_refl Ho Hq) as [Hpl _].
      enough (exists k', (k', p) ∈ cells1 a) as (k' & Hk').
      { enough (k' = k) as -> by done. enough ((k', p) ∈ placed 0 l) as Hpl'.
        { apply elem_of_placed in Hpl' as [_ Hpl']. rewrite Z.sub_0_r, Hl in Hpl'. by injection Hpl'. }
        rewrite <- (iv_cells _ _ _ Hiv). apply elem_of_cells. by exists a. }
      eexists. apply elem_of_cells1. split; [lia|reflexivity]. }
    destruct (D2 (p * BLOCK_SIZE G + o)) as [[He ->]|[He ->]].
    + apply Exists_exists in He as (a & Ha & Hh & Hq). specialize (Hcell a Ha Hq).
      apply elem_of_cells1 in Hcell as [_ ->]. rewrite (decide_True (P := hole a)) by done.
      rewrite decide_False; [done|]. unfold not_hole. tauto.
    + destruct (decide (not_hole k)) as [|Hk]; [done|exfalso].
      assert ((k, p) ∈ placed 0 l) as Hpl by (apply elem_of_placed; rewrite Z.sub_0_r; done).
      rewrite <- (iv_cells _ _ _ Hiv) in Hpl. apply elem_of_cells in Hpl as (a & Ha & Hca).
      rewrite Forall_forall in He. apply (He a Ha). pose proof Hca as Hca'.
      apply elem_of_cells1 in Hca as [Hpa Hka].
      split; [|unfold in_mem; nia]. destruct (decide (hole a)) as [|Hh]; [done|exfalso].
      pose proof (iv_ok _ _ _ Hiv) as Hok. rewrite Forall_forall in Hok. destruct (Hok a Ha) as [_ [?|Hval]]; [done|].
      apply Hk. rewrite Hka. apply (valid_max G HG), Hval. lia.
Qed.

Lemma head_request pBlocks n bContigous :
  0 < n -> Z.of_nat (length (request pBlocks n bContigous)) = n ->
  default 0 (head pBlocks) ∈ request pBlocks n bContigous.
Proof.
  intros Hn Hl. unfold request in *. destruct bContigous.
  - apply elem_of_seqZ. lia.
  - destruct pBlocks as [|x pBlocks]; [rewrite firstn_nil in Hl; simpl in Hl; lia|].
    destruct (Z.to_nat n) eqn:E; [lia|]. simpl. set_solver.
Qed.

Lemma ReadCache_spec pBlocks n pBuf bContigous s :
  entries G 0 (m_mapDirtyBlks s) ->
  read_ok G (request pBlocks n bContigous) n bContigous ->
  exists buf ret, ReadCache G io pBlocks n pBuf bContigous s = (buf, ret) /\ 0 <= ret /\
    forall p o, 0 <= p < n -> 0 <= o < BLOCK_SIZE G ->
      read_byte s (request pBlocks n bContigous) pBuf p o (buf (p * BLOCK_SIZE G + o)).
Proof.
  intros Hd Hr. pose proof (base_bounds G HG) as (B1 & B2 & B3). destruct idx_vals as (X1 & X2 & X3).
  destruct (read_intervals pBlocks n bContigous pBuf Hr) as (buf0 & I1 & I2 & I3).
  destruct Hr as ([R1 R2 R3] & Hbh & _). set (l := request pBlocks n bContigous) in *.
  set (v := solid (intervals le_all pBlocks n bContigous)) in *. unfold ReadCache. rewrite I1.
  set (x := default 0 (head pBlocks)).
  assert ((x =? SB_IDX) || (x =? GB_IDX) = false) as ->.
  { rewrite Forall_forall in Hbh. assert (x < BLK_MAX) as Hx.
    { destruct (Hbh x) as [Hx| ->]; [by apply head_request|by apply (valid_max G HG)|done]. }
    apply orb_false_iff. split; apply Z.eqb_neq; lia. }
  set (d := m_mapDirtyBlks s) in *. set (f := m_file s) in *.
  destruct (split_spec G HG l v n d 0 I2 R3 R2 Hd ltac:(lia)) as [P1 P2 P3 P4 P5 P6 P7 P8 P9].
  set (c := IntersectIntervals G v d) in *. set (w := SubtractIntervals v c) in *.
  assert (Hplace : forall r q p o, r ∈ c \/ r ∈ w -> q = p * BLOCK_SIZE G + o -> 0 <= o < BLOCK_SIZE G ->
    in_mem G r q -> exists k, l !! Z.to_nat p = Some k /\ 0 <= p /\ valid_blk G k /\ first r <= k < second r /\
      file_addr G r q = addr G k + o).
  { intros r q p o Hr -> Ho Hq. destruct (mem_place r _ p o eq_refl Ho Hq) as [Hp ->].
    set (k := first r + (p - dwOff r)).
    assert (covers v k p) as Hcov.
    { apply P7. destruct Hr as [Hr|Hr]; [left|right]; exists r; split_and!; try done; lia. }
    pose proof (so_valid _ _ _ I2 k (covers_in _ _ _ Hcov)) as Hval.
    apply (so_covers _ _ _ I2) in Hcov as (H1 & H2 & H3). exists k.
    split_and!; [done|done|done|lia|lia|]. rewrite addr_blk by apply (valid_max G HG k Hval). done. }
  assert (Hhit : forall r k o, r ∈ c -> first r <= k < second r -> valid_blk G k -> 0 <= o < BLOCK_SIZE G ->
    exists b, cached G d (addr G k + o) = Some b).
  { intros r k o Hr Hrk Hval Ho. rewrite Forall_forall in P5.
    destruct (P5 r Hr) as (m & (b & Hb & Hbm) & K1 & K2 & K3). destruct (valid_max G HG k Hval) as [Hk _].
    eexists. apply (cached_in G HG 0 d (dwKey r, b)); [done|done|].
    unfold in_entry. cbn [fst snd]. rewrite !addr_blk, Hbm by (done || lia). nia. }
  (* the hits *)
  set (W1 := by_place (fun p o => match l !! Z.to_nat p with
      Some k => default 0 (cached G d (addr G k + o)) | None => 0 end)).
  pose proof (total_nonneg G c P3) as T1. pose proof (total_nonneg G w P4) as T2.
  assert (total v <= n) as T3.
  { rewrite (so_size _ _ _ I2), <- R3. apply Nat2Z.inj_le, length_filter. }
  unfold MAX_BUFFER in R2.
  destruct (ReadHits_spec G HG d c W1 buf0 0 Hd P3 P5 ltac:(lia) ltac:(nia)) as (buf1 & H1 & F1).
  { intros r q Hr Hq. destruct (place_split q) as (p & o & Eq & Ho).
    destruct (Hplace r q p o (or_introl Hr) Eq Ho Hq) as (k & Hl & Hp & Hval & Hrk & ->).
    unfold W1. rewrite Eq, by_place_val, Hl by done.
    destruct (Hhit r k o Hr Hrk Hval Ho) as (b & ->). done. }
  rewrite H1.
  (* the misses *)
  set (W2 := by_place (fun p o => match l !! Z.to_nat p with
      Some k => default (buf1 (p * BLOCK_SIZE G + o)) (on_disk f (addr G k + o)) | None => 0 end)).
  destruct (ReadMisses_spec G HG io f w W2 buf1 0 (0 + BLOCK_SIZE G * total c) Hio ltac:(lia) P4
    ltac:(nia) ltac:(nia)) as (buf2 & ret & H2 & Hret & F2).
  { intros r q Hr Hq. destruct (place_split q) as (p & o & Eq & Ho).
    destruct (Hplace r q p o (or_intror Hr) Eq Ho Hq) as (k & Hl & Hp & Hval & Hrk & ->).
    unfold W2. rewrite Eq, by_place_val, Hl by done. done. }
  rewrite H2. eexists buf2, _. split; [reflexivity|]. split.
  { unfold SUCCEEDED. destruct (Z.eqb_spec ret 0); [|done]. unfold s32.
    rewrite sN_small; [nia|lia|]. change (2 ^ (32 - 1)) with 2147483648. nia. }
  intros p o Hp Ho. destruct (lookup_lt_is_Some_2 l (Z.to_nat p)) as [k Hl]; [lia|]. exists k. split; [done|].
  fold d f. set (q := p * BLOCK_SIZE G + o).
  specialize (I3 p o k Hl ltac:(lia) Ho). fold q in I3.
  assert (forall r, r ∈ c \/ r ∈ w -> in_mem G r q -> not_hole k /\ first r <= k < second r /\ valid_blk G k) as Hin.
  { intros r Hr Hq. destruct (Hplace r q p o Hr eq_refl Ho Hq) as (k' & Hl' & _ & Hval & Hrk & _).
    assert (k' = k) as -> by congruence. split; [by apply (valid_max G HG)|done]. }
  destruct (F2 q) as [[E2 ->]|[E2 ->]].
  - (* from the file *)
    apply Exists_exists in E2 as (r & Hr & Hq). destruct (Hin r (or_intror Hr) Hq) as (Hnh & Hrk & Hval).
    unfold W2, q. rewrite by_place_val, Hl by done. fold q. rewrite decide_True by done.
    assert (cached G d (addr G k + o) = None) as Hnone.
    { apply (cached_none G HG). intros e He Hea. destruct (entries_in G HG _ _ _ Hd He) as [_ Hok].
      destruct (valid_max G HG k Hval) as [Hk _].
      rewrite addr_blk in Hea by done.
      pose proof (in_entry_high G HG e _ Hok Hea ltac:(nia)) as Hb.
      destruct (in_blk_entry G HG e _ Hb Hea) as [_ Hx]. specialize (Hx k o eq_refl Ho).
      rewrite Forall_forall in P6. destruct (P6 r Hr e He Hb); lia. }
    unfold visible. rewrite Hnone.
    assert (buf1 q = pBuf q) as ->; [|done].
    destruct (F1 q) as [[E1' _]|[_ ->]]; [|rewrite I3; by rewrite decide_True].
    exfalso. apply Exists_exists in E1' as (r' & Hr' & Hq'). destruct (Hin r' (or_introl Hr') Hq') as (_ & Hrk' & _).
    apply (P8 k); [by exists r'|by exists r].
  - destruct (F1 q) as [[E1' ->]|[E1' ->]].
    + (* from the cache *)
      apply Exists_exists in E1' as (r & Hr & Hq). destruct (Hin r (or_introl Hr) Hq) as (Hnh & Hrk & Hval).
      destruct (Hhit r k o Hr Hrk Hval Ho) as (b & Hb).
      unfold W1, q. rewrite by_place_val, Hl by done. rewrite decide_True by done. unfold visible.
      by rewrite Hb.
    + (* a hole *)
      rewrite I3. destruct (decide (not_hole k)) as [Hnh|]; [exfalso|done].
      assert (covers v k p) as Hcov by (apply (so_covers _ _ _ I2); split_and!; [lia|done|done]).
      apply P7 in Hcov as [(r & Hr & Hrk & Hpr)|(r & Hr & Hrk & Hpr)].
      * rewrite Forall_forall in E1'. apply (E1' r Hr). unfold in_mem, q. nia.
      * rewrite Forall_forall in E2. apply (E2 r Hr). unfold in_mem, q. nia.
Qed.

(** ** The calls keep the store *)

Lemma refines_same A s s' :
  m_mapDirtyBlks s' = m_mapDirtyBlks s -> m_file s' = m_file s -> refines G A s -> refines G A s'.
Proof. unfold refines. by intros -> ->. Qed.

Lemma key_size_blk k : valid_blk G k -> key_size G k = BLOCK_SIZE G.
Proof.
  destruct idx_vals as (X1 & X2 & X3). intros Hk. destruct (valid_max G HG k Hk). unfold key_size.
  destruct (Z.eqb_spec k GB_IDX); [lia|done].
Qed.

Lemma write_refines now pBlocks n pBuf bContigous A s :
  refines G A s -> write_ok G (request pBlocks n bContigous) n ->
  exists s', CacheBlocks G now pBlocks n pBuf bContigous s = Ret (s', n * BLOCK_SIZE G) /\
    refines G (put_blocks G (request pBlocks n bContigous) pBuf A) s'.
Proof.
  intros (R1 & R2 & R3) Hw. destruct (CacheBlocks_write G HG now pBlocks n pBuf bContigous s R1 Hw)
    as (s' & C1 & C2 & C3 & C4 & C5). exists s'. split; [done|]. destruct Hw as (_ & Hv & _).
  rewrite Forall_forall in Hv. split_and!; [done|by rewrite C3|]. intros k o v Hk Ho HA.
  set (l := request pBlocks n bContigous) in *. unfold put_blocks in HA. pose proof (place_spec k 0 l) as Hp.
  destruct (place k 0 l) as [p|].
  - destruct Hp as [Hp1 Hp2]. rewrite Z.sub_0_r in Hp2. injection HA as <-.
    pose proof (Hv k (list_elem_of_lookup_2 _ _ _ Hp2)) as Hkv. rewrite key_size_blk in Ho by done.
    unfold visible. by rewrite (C4 k o p).
  - unfold visible. rewrite C5; [rewrite C3; by apply R3|].
    intros k' o' Hk' Ho' He. pose proof (Hv k' Hk') as Hkv.
    destruct (key_addr_inj G HG k k' o o') as [-> _]; [done|by left|done|by rewrite key_size_blk|done|done].
Qed.

(** The superblock and the group bitmap. *)
Lemma special_refines now k0 n pBuf A s :
  k0 = SB_IDX \/ k0 = GB_IDX -> refines G A s ->
  exists s', CacheBlocks G now [k0] n pBuf false s = Ret (s', 512) /\ refines G (put_key k0 pBuf A) s'.
Proof.
  destruct idx_vals as (X1 & X2 & X3). intros Hk0 (R1 & R2 & R3). unfold CacheBlocks. cbn [head default].
  set (s1 := match m_mapDirtyBlks s with [] => set_start now s | _ => s end).
  assert (m_mapDirtyBlks s1 = m_mapDirtyBlks s /\ m_file s1 = m_file s) as [Es1 Ef1].
  { unfold s1. destruct (m_mapDirtyBlks s) eqn:E; (split; [exact E|done]). }
  set (b := mkBuf (key_size G k0) pBuf).
  enough (refines G (put_key k0 pBuf A) (set_dirty (assign_blk k0 b (m_mapDirtyBlks s1)) s1)) as Href.
  { destruct Hk0 as [-> | ->]; eexists; (split; [reflexivity|exact Href]). }
  rewrite Es1. set (d := m_mapDirtyBlks s) in *.
  assert (entries G 0 (assign_blk k0 b d)) as Hd'.
  { apply (assign_special G HG); [|lia|done]. destruct Hk0 as [-> | ->]; [left|right]; done. }
  split_and!; [done|cbn [m_file set_dirty]; by rewrite Ef1|]. intros k o v Hk Ho HA.
  cbn [m_mapDirtyBlks m_file set_dirty]. rewrite Ef1. unfold visible.
  rewrite (cached_update G HG 0 0 k0 b d); [|done|done|by intros e; eapply elem_of_assign|].
  2: { intros e He Hke. rewrite (special_size G HG 0 d e) by (done || destruct Hk0; lia). by rewrite Hke. }
  assert (key_ok G k0) as Hkk by (destruct Hk0; [right; right|right; left]; done).
  unfold put_key in HA. destruct (Z.eqb_spec k k0) as [->|Hne].
  - injection HA as <-. rewrite decide_True by (unfold in_entry, b; cbn [fst snd d_size]; lia).
    unfold b. cbn [d_data]. do 2 f_equal. lia.
  - rewrite decide_False; [by apply R3|]. unfold in_entry, b. cbn [fst snd d_size]. intros Hin. apply Hne.
    apply (key_addr_inj G HG k k0 o (addr G k + o - addr G k0)); try done; lia.
Qed.

Lemma merge_refines A s : GRPBMP_BLKNUM G <> 2 -> refines G A s -> refines G A (MergeBlocks G s).
Proof.
  intros HN (R1 & R2 & R3). unfold MergeBlocks. destruct (m_mapDirtyBlks s) as [|[k b] d] eqn:E.
  { split; [by rewrite E|]. split; [done|]. rewrite E. done. }
  destruct (MergeLoop_spec G HG 0 k b d HN R1) as [M1 M2]. split; [done|]. split; [done|].
  intros k' o v Hk Ho HA. cbn [m_mapDirtyBlks m_file set_dirty]. unfold visible. rewrite M2. by apply R3.
Qed.

Lemma addr_nonneg k : key_ok G k -> 0 <= addr G k.
Proof.
  pose proof (base_bounds G HG) as (B1 & B2 & B3). intros [Hk|[->| ->]].
  - destruct (valid_max G HG k Hk) as [Hk' _]. rewrite addr_blk by done. nia.
  - change (addr G GB_IDX) with (BLOCK_SIZE G). lia.
  - done.
Qed.

(** Committing moves all of it to the file. *)
Lemma commit_refines A s :
  refines G A s -> exists s', CommitCache G io s = Ret (s', 0) /\ m_mapDirtyBlks s' = [] /\ refines G A s' /\
    forall k o v, key_ok G k -> 0 <= o < key_size G k -> A k o = Some v -> on_disk (m_file s') (addr G k + o) = Some v.
Proof.
  intros (R1 & R2 & R3). unfold CommitCache.
  destruct (CommitLoop_spec G HG io 0 (m_mapDirtyBlks s) (m_file s) Hio R1 R2) as (f & C1 & C2 & C3).
  rewrite C1. cbn [obind]. eexists. split; [reflexivity|]. cbn [m_mapDirtyBlks m_file set_count set_dirty set_file].
  assert (forall k o v, key_ok G k -> 0 <= o < key_size G k -> A k o = Some v -> on_disk f (addr G k + o) = Some v) as Hf.
  { intros k o v Hk Ho HA. apply C3; [pose proof (addr_nonneg k Hk); lia|by apply R3]. }
  split_and!; [done| |done]. split; [constructor|]. split; [cbn; lia|]. exact Hf.
Qed.

Lemma check_refines A s life now bEntering :
  refines G A s -> exists s' ret, CheckAndCommit G io life now bEntering s = Ret (s', ret) /\ refines G A s'.
Proof.
  intros HR. unfold CheckAndCommit. destruct (negb _); [by eexists _, _|].
  destruct (m_mapDirtyBlks s) eqn:E; [by eexists _, _|].
  destruct (_ || _); [|by eexists _, _]. destruct (commit_refines A s HR) as (s' & C1 & _ & C2 & _).
  by exists s', 0.
Qed.

Lemma exec_refines o A s :
  IsSafeMode G = true -> GRPBMP_BLKNUM G <> 2 -> refines G A s -> op_ok G o ->
  exists s', exec G io o s = Ret s' /\ refines G (spec G o A) s'.
Proof.
  intros Hsafe HN HR Ho. destruct o as [now bl n p c|now p n|now p n|life now|life now| | |]; cbn [exec spec op_ok] in *.
  - unfold ReadWriteBlocks. rewrite Hsafe. pose proof Ho as ([Hn _ _] & _). destruct (Z.eqb_spec n 0); [lia|].
    destruct (write_refines now bl n p c A s HR) as (s' & -> & ?); [done|]. by exists s'.
  - unfold SaveSuperBlock. destruct (n <? BLOCK_SIZE G); [by exists s|]. rewrite Hsafe.
    destruct (special_refines now SB_IDX 1 p A s) as (s' & -> & ?); [by left|done|]. by exists s'.
  - unfold SaveGroupBitmap. destruct (n <? GRPBMP_SIZE G); [by exists s|]. rewrite Hsafe.
    destruct (special_refines now GB_IDX (GRPBMP_BLKNUM G) p A s) as (s' & -> & ?); [by right|done|]. by exists s'.
  - unfold BATransact_enter. rewrite Hsafe. cbn [negb].
    destruct (check_refines A s life now true HR) as (s' & ret & -> & HR'). cbn [obind].
    eexists. split; [reflexivity|]. by apply (refines_same A s').
  - unfold BATransact_leave. rewrite Hsafe. cbn [negb].
    destruct (check_refines A (set_trans (u32 (m_dwTransCount s - 1)) s) life now false) as (s' & ret & -> & HR').
    { by apply (refines_same A s). }
    by exists s'.
  - eexists. split; [reflexivity|]. by apply merge_refines.
  - destruct (commit_refines A s HR) as (s' & -> & _ & HR' & _). by exists s'.
  - eexists. split; [reflexivity|]. by apply (refines_same A s).
Qed.

Lemma run_refines ops A s :
  IsSafeMode G = true -> GRPBMP_BLKNUM G <> 2 -> refines G A s -> Forall (op_ok G) ops ->
  exists s', run G io ops s = Ret s' /\ refines G (foldl (fun A o => spec G o A) A ops) s'.
Proof.
  intros Hsafe HN. revert A s. induction ops as [|o ops IH]; intros A s HR Hops; [by exists s|].
  apply Forall_cons_1 in Hops as [Ho Hops]. cbn [run foldl].
  destruct (exec_refines o A s Hsafe HN HR Ho) as (s1 & -> & HR1). cbn [obind]. by apply IH.
Qed.
End Refine.

(** ** Properties *)

(** What a store becomes by a sequence of calls. *)
Definition specs (G : geometry) (ops : list op) (A : store) : store := foldl (fun A o => spec G o A) A ops.

(** C12: The cache is a store of blocks.  After any sequence of writes, saves of the superblock
    and of the group bitmap, merges, commits and transactions, with any answer
    of the clock, no call has ended the process, and every read gives for a block the bytes
    that were last written to it, and zeros for a hole. *)
Theorem cache_refines_store (G : geometry) (io : Z -> Z -> Z) (ops : list op) (A : store) (s : cache) :
  geom_ok G -> IsSafeMode G = true -> GRPBMP_BLKNUM G <> 2 -> io_ok io ->
  refines G A s -> Forall (op_ok G) ops ->
  exists s', run G io ops s = Ret s' /\ refines G (specs G ops A) s' /\
  forall now pBlocks n pBuf bContigous, let l := request pBlocks n bContigous in read_ok G l n bContigous ->
  exists buf ret, ReadWriteBlocks G io now true pBlocks n pBuf bContigous s' = Ret (buf, s', ret) /\
    ERROR ret = false /\
    forall p o k, l !! p = Some k -> 0 <= o < BLOCK_SIZE G ->
      (k = INVALID_BLOCK_IDX -> buf (Z.of_nat p * BLOCK_SIZE G + o) = 0) /\
      (forall v, k <> INVALID_BLOCK_IDX -> specs G ops A k o = Some v -> buf (Z.of_nat p * BLOCK_SIZE G + o) = v).
Proof.
  intros HG Hsafe HN Hio HR Hops. destruct (run_refines G HG io Hio ops A s Hsafe HN HR Hops) as (s' & H1 & H2).
  exists s'. split; [done|]. split; [done|]. intros now pBlocks n pBuf c l Hr.
  destruct H2 as (R1 & R2 & R3).
  destruct (ReadCache_spec G HG io Hio pBlocks n pBuf c s' R1 Hr) as (buf & ret & E & Hret & Hbuf).
  exists buf, ret. destruct Hr as ([Q1 Q2 Q3] & Hbh & _). split.
  { unfold ReadWriteBlocks. destruct (Z.eqb_spec n 0); [lia|]. by rewrite Hsafe, E. }
  split; [by apply Z.ltb_ge|]. intros p o k Hl Ho. pose proof (lookup_lt_Some _ _ _ Hl) as Hp.
  destruct (Hbuf (Z.of_nat p) o ltac:(lia) Ho) as (k' & Hl' & ->). rewrite Nat2Z.id in Hl'. fold l in Hl'.
  assert (k' = k) as -> by congruence. split.
  - intros ->. rewrite decide_False; [done|]. by intros H; apply H.
  - intros v Hk HA. rewrite decide_True by done. rewrite Forall_forall in Hbh.
    destruct (Hbh k (list_elem_of_lookup_2 _ _ _ Hl)) as [Hv|?]; [|done].
    rewrite (R3 k o v); [done|by left|by rewrite (key_size_blk G HG)|done].
Qed.

(** C18: A commit makes it durable.  After any such sequence, a commit leaves nothing in the cache, and
    the file alone has at the address of every block, of the superblock and of the group bitmap
    the bytes that were last written to it. *)
Theorem commit_durable (G : geometry) (io : Z -> Z -> Z) (ops : list op) (A : store) (s : cache) :
  geom_ok G -> IsSafeMode G = true -> GRPBMP_BLKNUM G <> 2 -> io_ok io ->
  refines G A s -> Forall (op_ok G) ops ->
  exists s', run G io (ops ++ [OpCommit]) s = Ret s' /\ m_mapDirtyBlks s' = [] /\
  forall k o v, key_ok G k -> 0 <= o < key_size G k -> specs G ops A k o = Some v ->
    on_disk (m_file s') (addr G k + o) = Some v.
Proof.
  intros HG Hsafe HN Hio HR Hops. destruct (run_refines G HG io Hio ops A s Hsafe HN HR Hops) as (s1 & H1 & H2).
  destruct (commit_refines G HG io Hio _ s1 H2) as (s' & C1 & C2 & _ & C3). exists s'. split_and!; [|done|done].
  clear -H1 C1. revert s H1. induction ops as [|o ops IH]; intros s H1.
  - injection H1 as ->. cbn [app run exec]. rewrite C1. done.
  - cbn [app run] in *. destruct (exec G io o s) as [s0| |]; cbn [obind] in *; [|done|done].
    by apply IH.
Qed.

Lemma grpbmp_blknum G : geom_ok G -> GRPBMP_SIZE G / BLOCK_SIZE G = GRPBMP_BLKNUM G.
Proof.
  intros HG. pose proof (base_bounds G HG) as (B1 & _). unfold GRPBMP_SIZE, GRPBMP_BLKNUM.
  rewrite Z.div_div, (Z.mul_comm BYTE_BITS) by (unfold BYTE_BITS; lia). done.
Qed.

(** C40: Where the group bitmap has two blocks (pages of 16 blocks) [MergeBlocks] takes the superblock,
    number [-2], for the block behind the bitmap, number [-4]: the commit leaves
    the old superblock in the file, and writes the new one over the first
    block of group 0, which is the bitmap of its blocks. *)
Theorem merge_misplaces_superblock (G : geometry) (io : Z -> Z -> Z) (s : cache) (now : Z) (gb sb : mem) :
  geom_ok G -> IsSafeMode G = true -> GRPBMP_BLKNUM G = 2 -> io_ok io ->
  m_mapDirtyBlks s = [] -> 0 <= f_len (m_file s) ->
  exists s', run G io [OpSaveGroupBitmap now gb (GRPBMP_SIZE G); OpSaveSuperBlock now sb (BLOCK_SIZE G);
                       OpMerge; OpCommit] s = Ret s' /\ m_mapDirtyBlks s' = [] /\
  forall o, 0 <= o < BLOCK_SIZE G ->
    (o < f_len (m_file s) -> on_disk (m_file s') o = on_disk (m_file s) o) /\
    on_disk (m_file s') (addr G 0 + o) = Some (sb o).
Proof.
  intros HG Hsafe HN Hio He Hf. pose proof (base_bounds G HG) as (B1 & B2 & B3).
  assert (Hb : forall n, 0 <= n -> ERROR n = false) by (intros; by apply Z.ltb_ge).
  set (bg := mkBuf (GRPBMP_SIZE G) gb). set (bs := mkBuf (BLOCK_SIZE G) sb).
  assert (exists s1, run G io [OpSaveGroupBitmap now gb (GRPBMP_SIZE G); OpSaveSuperBlock now sb (BLOCK_SIZE G)] s
    = Ret s1 /\ m_mapDirtyBlks s1 = [(GB_IDX, bg); (SB_IDX, bs)] /\ m_file s1 = m_file s) as (s1 & H1 & H2 & H3).
  { cbn [run exec]. unfold SaveGroupBitmap, SaveSuperBlock. rewrite !Z.ltb_irrefl, Hsafe.
    destruct s as [d n t tr st f]. cbn in He. subst d. eexists. split; [reflexivity|done]. }
  set (b := mkBuf (GRPBMP_SIZE G + BLOCK_SIZE G) (blit gb (GRPBMP_SIZE G) sb (BLOCK_SIZE G))).
  assert (m_mapDirtyBlks (MergeBlocks G s1) = [(GB_IDX, b)] /\ m_file (MergeBlocks G s1) = m_file s) as [H4 H5].
  { unfold MergeBlocks. rewrite H2. cbn [set_dirty m_mapDirtyBlks m_file]. split; [|done].
    cbn [MergeLoop d_size bg]. rewrite grpbmp_blknum, HN by done. change (SB_IDX =? u32 (GB_IDX + 2)) with true.
    cbn iota. cbn [d_size bs]. destruct (Z.leb_spec (GRPBMP_SIZE G + BLOCK_SIZE G) MAX_BUFFER); [done|].
    unfold MAX_BUFFER in *. lia. }
  assert (run G io [OpSaveGroupBitmap now gb (GRPBMP_SIZE G); OpSaveSuperBlock now sb (BLOCK_SIZE G);
                       OpMerge; OpCommit] s = run G io [OpCommit] (MergeBlocks G s1)) as ->.
  { cbn [run exec] in *. destruct (let! (s0, _) := SaveGroupBitmap _ _ _ _ _ _ in Ret s0) as [s2| |]; try done.
    cbn [obind] in *. destruct (let! (s0, _) := SaveSuperBlock _ _ _ _ _ _ in Ret s0) as [s3| |]; try done.
    cbn [obind] in *. by injection H1 as ->. }
  cbn [run exec]. unfold CommitCache. rewrite H4. cbn [CommitLoop]. change (GB_IDX =? SB_IDX) with false.
  rewrite Z.eqb_refl. cbn iota. unfold WriteFile. rewrite Hio. change (ERROR 0) with false. cbn iota.
  rewrite Hb by (cbn; lia). cbn [obind]. eexists. split; [reflexivity|]. split; [done|].
  cbn [m_file set_count set_dirty set_file]. rewrite H5. intros o Ho. unfold on_disk. cbn [f_len f_data file_write d_size b d_data].
  rewrite addr_blk by (done || (destruct idx_vals as (_ & _ & ->); lia)). split.
  - intros Hl. destruct (Z.ltb_spec o (Z.max (f_len (m_file s)) (BLOCK_SIZE G + (GRPBMP_SIZE G + BLOCK_SIZE G)))); [|lia].
    destruct (Z.leb_spec (BLOCK_SIZE G) o); [lia|]. cbn [andb].
    destruct (Z.ltb_spec o (f_len (m_file s))); [done|lia].
  - destruct (Z.ltb_spec (0 * BLOCK_SIZE G + base_addr G + o)
      (Z.max (f_len (m_file s)) (BLOCK_SIZE G + (GRPBMP_SIZE G + BLOCK_SIZE G)))); [|lia].
    destruct (Z.leb_spec (BLOCK_SIZE G) (0 * BLOCK_SIZE G + base_addr G + o)); [|lia].
    destruct (Z.ltb_spec (0 * BLOCK_SIZE G + base_addr G + o) (BLOCK_SIZE G + (GRPBMP_SIZE G + BLOCK_SIZE G))); [|lia].
    cbn [andb]. unfold blit.
    destruct (Z.leb_spec (GRPBMP_SIZE G) (0 * BLOCK_SIZE G + base_addr G + o - BLOCK_SIZE G)); [|lia].
    destruct (Z.ltb_spec (0 * BLOCK_SIZE G + base_addr G + o - BLOCK_SIZE G) (GRPBMP_SIZE G + BLOCK_SIZE G)); [|lia].
    cbn [andb]. do 2 f_equal. lia.
Qed.

(** Block addresses are computed in 32 bits: a block and the one that is
    4 GB further, both within the number of blocks of a file system, have
    the same address, so that writing the one destroys the other. *)
Theorem block_address_wraps (G : geometry) (x : Z) :
  geom_ok G -> 0 <= x ->
  let y := x + 2 ^ 32 / BLOCK_SIZE G in
  y < BLKGRP_NUMBER_FULL G * BLOCKS_PER_GROUP_FULL ->
  BLOCK_ABS G y = BLOCK_ABS G x.
Proof.
  intros HG Hx y Hy. unfold BLOCK_ABS, ABS_ADDR. do 3 f_equal.
  pose proof (geom_cases G HG) as Hc. set (q := 2 ^ 32 / (BLOCK_SIZE G * 2 ^ 16)).
  assert (y = x + q * 2 ^ 16 /\ u32 (q * (2 ^ 16 * BLOCK_SIZE G)) = 0 /\ 0 < BLOCK_SIZE G * 2 ^ 16 < 2 ^ 32) as (Ey & Eq & HB).
  { unfold y, q. rewrite !elem_of_cons in Hc.
    destruct Hc as [E|[E|[E|[E|Hc]]]]; [..|by apply not_elem_of_nil in Hc]; injection E as -> _;
      (split; [f_equal; vm_compute; reflexivity|split; [vm_compute; reflexivity|lia]]). }
  assert (Z.land y BLOCK_IDX_MASK = Z.land x BLOCK_IDX_MASK) as El.
  { change BLOCK_IDX_MASK with (Z.ones 16). rewrite !Z.land_ones, Ey by lia. apply Z.mod_add. lia. }
  assert (GROUP_INDEX G y = y / 2 ^ 16 /\ GROUP_INDEX G x = x / 2 ^ 16) as [Iy Ix].
  { assert (0 <= 2 ^ 32 / BLOCK_SIZE G) by (apply Z.div_pos; lia). unfold y in *. split; apply group_index; done || lia. }
  unfold BLOCK_LA, GROUP_START. rewrite El, Iy, Ix, Ey. rewrite Z.div_add by lia.
  unfold GROUP_SIZE. change BLOCKS_PER_GROUP_FULL with (2 ^ 16). rewrite (u32_small (2 ^ 16 * _)) by lia.
  f_equal. f_equal. unfold u32, uN in *. rewrite Z.mul_add_distr_r, <- Zplus_mod_idemp_r, Eq. f_equal. lia.
Qed.

(** @CR5@: [ReadCache] answers the bytes of the last interval it read from the file instead of
    all: two blocks that are not neighbours and not cached are both read, and
    the answer is the size of one. *)
Theorem read_count_last_interval (G : geometry) (io : Z -> Z -> Z) (s : cache) (x y : Z) (pBuf : mem) :
  geom_ok G -> io_ok io -> valid_blk G x -> valid_blk G y -> x + 1 < y ->
  m_mapDirtyBlks s = [] -> addr G y + BLOCK_SIZE G <= f_len (m_file s) ->
  exists buf, ReadCache G io [x; y] 2 pBuf false s = (buf, BLOCK_SIZE G) /\
    forall o, 0 <= o < BLOCK_SIZE G ->
      buf o = f_data (m_file s) (addr G x + o) /\ buf (BLOCK_SIZE G + o) = f_data (m_file s) (addr G y + o).
Proof.
  intros HG Hio Hx Hy Hxy Hs Hlen. pose proof (base_bounds G HG) as (B1 & B2 & B3).
  destruct (valid_max G HG x Hx) as [Hx1 Hx2], (valid_max G HG y Hy) as [Hy1 Hy2].
  pose proof idx_vals as (X1 & X2 & X3). assert (INVALID_BLOCK_IDX = 65535) as X4 by done.
  assert (read_ok G (request [x; y] 2 false) 2 false) as Hr.
  { unfold request. change (firstn (Z.to_nat 2) [x; y]) with [x; y]. split_and!; [split|..].
    - lia.
    - unfold MAX_BUFFER. lia.
    - done.
    - constructor; [by left|constructor; [by left|constructor]].
    - rewrite list_filter_all; [|intros z Hz; unfold not_hole; rewrite !elem_of_cons in Hz;
        destruct Hz as [->|[->|Hz]]; [done|done|by apply not_elem_of_nil in Hz]].
      constructor; [rewrite list_elem_of_singleton; lia|constructor; [apply not_elem_of_nil|constructor]].
    - done. }
  destruct (ReadCache_spec G HG io Hio [x; y] 2 pBuf false s) as (buf & ret & E & _ & Hbuf);
    [rewrite Hs; constructor|done|].
  exists buf. split.
  - rewrite E. f_equal.
    assert (ret = (ReadCache G io [x; y] 2 pBuf false s).2) as -> by by rewrite E.
    (* the two intervals *)
    assert (intervals le_all [x; y] 2 false = [mkBlks x (x + 1) 0 0; mkBlks y (y + 1) 1 0]) as Ev.
    { unfold intervals. change (firstn (Z.to_nat 2) [x; y]) with [x; y]. cbn [FindContigousBlocks FindLoop fst].
      rewrite (u32_small (x + 1)) by lia. destruct (Z.eqb_spec y (x + 1)); [lia|]. cbn [andb].
      destruct (Z.eqb_spec y INVALID_BLOCK_IDX); [done|]. cbn [andb to_intervals first second dwKey].
      rewrite !u32_small by lia. unfold sort_blks. cbn [foldr insert_blks]. unfold le_all. cbn [first second dwOff].
      destruct (Z.ltb_spec x y); [|lia]. rewrite (Z.add_comm 1 x), (Z.add_comm 1 y). done. }
    unfold ReadCache. change (default 0 (head [x; y])) with x. destruct (Z.eqb_spec x SB_IDX); [lia|]. destruct (Z.eqb_spec x GB_IDX); [lia|].
    cbn [orb]. rewrite Ev.
    assert (DropHoles G [mkBlks x (x + 1) 0 0; mkBlks y (y + 1) 1 0] pBuf
      = ([mkBlks x (x + 1) 0 0; mkBlks y (y + 1) 1 0], pBuf)) as ->.
    { cbn [DropHoles first]. destruct (x <? INVALID_BLOCK_IDX), (y <? INVALID_BLOCK_IDX),
        (Z.eqb_spec x INVALID_BLOCK_IDX), (Z.eqb_spec y INVALID_BLOCK_IDX); done. }
    rewrite Hs. cbn [IntersectIntervals start_at IntersectLoop SubtractIntervals ReadHits ReadMisses first second dwOff].
    replace (x + 1 - x) with 1 by lia. replace (y + 1 - y) with 1 by lia.
    rewrite (bytes_of_small G HG 1) by lia. unfold ReadFile. rewrite !Hio. change (ERROR 0) with false. cbn iota.
    rewrite (addr_abs G HG y) by done.
    assert (forall n, ERROR (Z.max 0 n) = false) as Hm by (intros; apply Z.ltb_ge; lia). rewrite !Hm. cbn [snd].
    rewrite (Z.min_l _ (f_len (m_file s) - addr G y)), (Z.max_r 0 (BLOCK_SIZE G * 1)) by lia. unfold SUCCEEDED. destruct (Z.eqb_spec (BLOCK_SIZE G * 1) 0); cbn [snd]; lia.
  - intros o Ho. destruct (Hbuf 0 o ltac:(lia) Ho) as (k & Hk & Hv).
    destruct (Hbuf 1 o ltac:(lia) Ho) as (k' & Hk' & Hv').
    injection Hk as <-. injection Hk' as <-. unfold visible in *. rewrite Hs in *. cbn [cached] in *.
    rewrite decide_True in Hv by done. rewrite decide_True in Hv' by done. unfold on_disk in *. rewrite addr_blk in Hlen by done.
    rewrite Z.mul_0_l, Z.add_0_l in Hv. rewrite Z.mul_1_l in Hv'.
    destruct (Z.ltb_spec (addr G x + o) (f_len (m_file s))) as [_|Hx3]; [|rewrite addr_blk in Hx3 by done; nia].
    destruct (Z.ltb_spec (addr G y + o) (f_len (m_file s))) as [_|Hy3]; [|rewrite addr_blk in Hy3 by done; nia].
    done.
Qed.

(** ** Witnesses *)

Definition ex_io : Z -> Z -> Z := fun _ _ => 0.
Definition ex_cache : cache := mkCache [] 0 0 0 false (mkFile 0 (fun _ => 0)).
Definition ex_ops : list op :=
  [OpEnter 5 0; OpWrite 0 [20; 21; 30] 3 (fun q => q mod 7) false; OpWrite 1 [21] 2 (fun q => q mod 11) true;
   OpMerge; OpLeave 5 0; OpSaveSuperBlock 2 (fun q => q mod 13) 512].
Definition ex_none : store := fun _ _ => None.

Lemma ex_valid G x : BLOCK_SIZE G = 512 -> 1024 <= BLKGRP_NUMBER_FULL G -> GRPBMP_SIZE G <= 8192 ->
  0 <= x < 65520 -> valid_blk G x.
Proof.
  intros HB HN HS Hx. unfold valid_blk, base_addr, BLOCKS_PER_GROUP_FULL. rewrite HB.
  assert (BLOCKS_PER_GROUP = 65520) as -> by done. rewrite Z.mod_small by lia. lia.
Qed.

Lemma ex_valid1 x : 0 <= x < 65520 -> valid_blk (ex_geom true) x.
Proof. intros Hx. by apply ex_valid. Qed.

Lemma ex_refines G : refines G ex_none ex_cache.
Proof. split; [constructor|]. split; [cbn; lia|]. done. Qed.

Lemma ex_write l n :
  0 < n -> n <= 1000 -> Z.of_nat (length l) = n -> Forall (fun x => 0 <= x < 65520) l -> NoDup l ->
  write_ok (ex_geom true) l n.
Proof.
  intros Hn Hn' Hl Hf Hnd. split_and!; [split; [done|cbn [BLOCK_SIZE ex_geom]; unfold MAX_BUFFER; lia|done]| |done].
  eapply Forall_impl; [exact Hf|]. apply ex_valid1.
Qed.

Lemma ex_ops_ok : Forall (op_ok (ex_geom true)) ex_ops.
Proof.
  unfold ex_ops. rewrite !Forall_cons. split_and!; try done; try apply Forall_nil_2; cbn [op_ok].
  - apply ex_write; [lia|lia|reflexivity| |].
    + change (request [20; 21; 30] 3 false) with [20; 21; 30]. rewrite !Forall_cons. split_and!; lia || constructor.
    + apply (bool_decide_eq_true_1 _). vm_compute. reflexivity.
  - apply ex_write; [lia|lia|reflexivity| |apply NoDup_seqZ].
    apply Forall_forall. intros x Hx. apply elem_of_seqZ in Hx. simpl in Hx. lia.
Qed.

Lemma cache_refines_store_witness :
  exists s', run (ex_geom true) ex_io ex_ops ex_cache = Ret s' /\
  exists buf ret, ReadWriteBlocks (ex_geom true) ex_io 3 true [20; 65535; 22] 3 (fun _ => 9) false s' = Ret (buf, s', ret) /\
    buf 511 = 511 mod 7 /\ buf 600 = 0 /\ buf 1030 = 518 mod 11.
Proof.
  destruct (cache_refines_store (ex_geom true) ex_io ex_ops ex_none ex_cache) as (s' & H1 & _ & H2).
  - apply ex_geom_ok.
  - reflexivity.
  - vm_compute. discriminate.
  - intros off n. reflexivity.
  - apply ex_refines.
  - apply ex_ops_ok.
  - exists s'. split; [exact H1|].
    destruct (H2 3 [20; 65535; 22] 3 (fun _ => 9) false) as (buf & ret & E & _ & Hb).
    + split_and!; [split; [lia|vm_compute; discriminate|reflexivity]| | |done].
      * constructor; [left; apply ex_valid1; lia|]. constructor; [by right|].
        constructor; [left; apply ex_valid1; lia|constructor].
      * apply (bool_decide_eq_true_1 _). vm_compute. reflexivity.
    + exists buf, ret. split; [exact E|]. split_and!.
      * destruct (Hb 0%nat 511 20 eq_refl) as [_ Hv]; [vm_compute; split; [discriminate|reflexivity]|].
        apply (Hv (511 mod 7)); [discriminate|reflexivity].
      * destruct (Hb 1%nat 88 65535 eq_refl) as [Hv _]; [vm_compute; split; [discriminate|reflexivity]|].
        apply Hv. reflexivity.
      * destruct (Hb 2%nat 6 22 eq_refl) as [_ Hv]; [vm_compute; split; [discriminate|reflexivity]|].
        apply (Hv (518 mod 11)); [discriminate|reflexivity].
Defined.

Lemma commit_durable_witness :
  exists s', run (ex_geom true) ex_io (ex_ops ++ [OpCommit]) ex_cache = Ret s' /\ m_mapDirtyBlks s' = [] /\
    on_disk (m_file s') 13 = Some 0 /\ on_disk (m_file s') (addr (ex_geom true) 22 + 5) = Some 0.
Proof.
  destruct (commit_durable (ex_geom true) ex_io ex_ops ex_none ex_cache) as (s' & H1 & H2 & H3).
  - apply ex_geom_ok.
  - reflexivity.
  - vm_compute. discriminate.
  - intros off n. reflexivity.
  - apply ex_refines.
  - apply ex_ops_ok.
  - exists s'. split; [exact H1|]. split; [exact H2|]. split.
    + apply (H3 SB_IDX 13 0); [right; right; reflexivity|vm_compute; split; [discriminate|reflexivity]|reflexivity].
    + apply (H3 22 5 0); [left; apply ex_valid1; lia|vm_compute; split; [discriminate|reflexivity]|reflexivity].
Defined.

Lemma merge_misplaces_superblock_witness :
  let G := mkGeom 512 8192 true in
  exists s', run G ex_io [OpSaveGroupBitmap 0 (fun _ => 3) (GRPBMP_SIZE G); OpSaveSuperBlock 0 (fun _ => 7) 512;
    OpMerge; OpCommit] (set_file (mkFile 1000 (fun _ => 1)) ex_cache) = Ret s' /\
  on_disk (m_file s') 0 = Some 1 /\ on_disk (m_file s') (addr G 0) = Some 7.
Proof.
  intros G.
  destruct (merge_misplaces_superblock G ex_io (set_file (mkFile 1000 (fun _ => 1)) ex_cache) 0 (fun _ => 3) (fun _ => 7))
    as (s' & H1 & _ & H2).
  - split; reflexivity.
  - reflexivity.
  - reflexivity.
  - intros off n. reflexivity.
  - reflexivity.
  - vm_compute. discriminate.
  - exists s'. split; [exact H1|].
    destruct (H2 0) as [Ha Hb]; [vm_compute; split; [discriminate|reflexivity]|]. split.
    + rewrite Ha by reflexivity. reflexivity.
    + rewrite <- Hb, Z.add_0_r. reflexivity.
Defined.

Lemma block_address_wraps_witness :
  BLOCK_ABS (ex_geom true) (20 + 2 ^ 23) = BLOCK_ABS (ex_geom true) 20.
Proof.
  apply (block_address_wraps (ex_geom true) 20); [apply ex_geom_ok|lia|vm_compute; reflexivity].
Defined.

Lemma read_count_last_interval_witness :
  exists buf, ReadCache (ex_geom true) ex_io [20; 30] 2 (fun _ => 0) false
    (set_file (mkFile 100000 (fun a => a mod 5)) ex_cache) = (buf, 512).
Proof.
  destruct (read_count_last_interval (ex_geom true) ex_io (set_file (mkFile 100000 (fun a => a mod 5)) ex_cache)
    20 30 (fun _ => 0)) as (buf & H & _).
  - apply ex_geom_ok.
  - intros off n. reflexivity.
  - apply ex_valid1. lia.
  - apply ex_valid1. lia.
  - lia.
  - reflexivity.
  - vm_compute. discriminate.
  - exists buf. exact H.
Defined.
