(* ===== verification/BlkSuper.v ===== *)
(** * The superblock: [CSuperBlock], [monitor/registry/blkalloc.cpp]

    The first block of the file names the sizes that everything else is computed
    from.  The sizes in use are the globals [g_dwBlockSize] and
    [g_dwRegFsPageSize], here the [geometry]; [Flush] makes the block,
    [Reload] takes the sizes of a block over. *)

From Stdlib Require Import ZArith Lia.
From S2P Require Import Prelude Buffer TaskGroup BlkBitmap.
Local Open Scope rpcf_scope.

(** [ntohl] on a little-endian host. *)
Definition ntohl (v : Z) : Z := be_val (le_bytes 4 v).

Lemma byte_high b i : 0 <= b < 256 -> 8 <= i -> Z.testbit b i = false.
Proof.
  intros Hb Hi. assert (b = Z.land b (Z.ones 8)) as ->.
  { rewrite Z.land_ones by lia. change (2 ^ 8) with 256. by rewrite Z.mod_small. }
  by rewrite Z.land_spec, Z.ones_spec_high, andb_false_r by lia.
Qed.

Lemma byte_split b q :
  0 <= b < 256 ->
  Z.land (Z.lor b (Z.shiftl q 8)) 0xFF = b /\ Z.shiftr (Z.lor b (Z.shiftl q 8)) 8 = q.
Proof.
  intros Hb. change 0xFF with (Z.ones 8). split; apply Z.bits_inj'; intros i Hi.
  - rewrite Z.land_spec, Z.lor_spec. destruct (Z.ltb_spec i 8).
    + rewrite Z.ones_spec_low, andb_true_r, Z.shiftl_spec_low by lia. apply orb_false_r.
    + by rewrite Z.ones_spec_high, andb_false_r, byte_high by lia.
  - rewrite Z.shiftr_spec, Z.lor_spec, byte_high, Z.shiftl_spec by lia. simpl. f_equal. lia.
Qed.

Lemma le_bytes_val l : Forall (fun b => 0 <= b < 256) l -> le_bytes (length l) (le_val l) = l.
Proof.
  induction 1 as [|b l Hb _ IH]; [done|]. cbn [length le_bytes le_val].
  destruct (byte_split b (le_val l) Hb) as [E1 E2].
  by rewrite E1, E2, IH.
Qed.

Lemma le_bytes_range n z : Forall (fun b => 0 <= b < 256) (le_bytes n z) /\ length (le_bytes n z) = n.
Proof.
  revert z. induction n as [|n IH]; intros z; cbn [le_bytes]; [by split|]. destruct (IH (Z.shiftr z 8)) as [H1 H2].
  split; [|simpl; by rewrite H2]. constructor; [|done]. change 0xFF with (Z.ones 8). rewrite Z.land_ones by lia.
  change (2 ^ 8) with 256. apply Z.mod_pos_bound. lia.
Qed.

Lemma ntohl_invol v : 0 <= v < 2 ^ 32 -> ntohl (ntohl v) = v.
Proof.
  intros Hv. unfold ntohl, be_val. destruct (le_bytes_range 4 v) as [H1 H2].
  assert (le_bytes 4 (le_val (rev (le_bytes 4 v))) = rev (le_bytes 4 v)) as ->.
  { rewrite <- H2 at 1. rewrite <- length_rev. apply le_bytes_val. by apply Forall_rev. }
  rewrite rev_involutive. apply le_val_bytes. lia.
Qed.

Module Super.
Definition DEFAULT_BLOCK_SIZE : Z := 512.
Definition DEFAULT_PAGE_SIZE : Z := 4096.

Record CSuperBlock := mkSuper {
  m_dwMagic : list Z;
  m_dwVersion : Z;
  m_dwBlkSize : Z;
  m_dwPageSize : Z;
}.

(** ["regi"] *)
Definition magic : list Z := [0x72; 0x65; 0x67; 0x69].
Definition NewSuperBlock : CSuperBlock := mkSuper magic 1 DEFAULT_BLOCK_SIZE DEFAULT_PAGE_SIZE.

Definition set_version (v : Z) (sb : CSuperBlock) : CSuperBlock :=
  mkSuper (m_dwMagic sb) v (m_dwBlkSize sb) (m_dwPageSize sb).
Definition set_blk (v : Z) (sb : CSuperBlock) : CSuperBlock :=
  mkSuper (m_dwMagic sb) (m_dwVersion sb) v (m_dwPageSize sb).
Definition set_page (v : Z) (sb : CSuperBlock) : CSuperBlock :=
  mkSuper (m_dwMagic sb) (m_dwVersion sb) (m_dwBlkSize sb) v.

Definition SetBlockSize (dwSize : Z) (G : geometry) : geometry * Z :=
  let ret := IsValidBlockSize dwSize in
  if ERROR ret then (G, ret) else (mkGeom dwSize (REGFS_PAGE_SIZE G) (IsSafeMode G), STATUS_SUCCESS).
Definition SetPageSize (dwSize : Z) (G : geometry) : geometry * Z :=
  let ret := IsValidPageSize G dwSize in
  if ERROR ret then (G, ret) else (mkGeom (BLOCK_SIZE G) dwSize (IsSafeMode G), STATUS_SUCCESS).

(** The block that is saved. *)
Definition Flush (G : geometry) (sb : CSuperBlock) : list Z :=
  m_dwMagic sb ++ be_bytes 4 (m_dwVersion sb) ++ be_bytes 4 (m_dwBlkSize sb) ++
  be_bytes 4 (m_dwPageSize sb) ++ replicate (Z.to_nat (BLOCK_SIZE G) - 16) 0.

(** [Format] does not look at what the setters answer. *)
Definition Format (sb : CSuperBlock) (G : geometry) : geometry * Z :=
  let '(G, _) := SetBlockSize (m_dwBlkSize sb) G in
  let '(G, _) := SetPageSize (m_dwPageSize sb) G in (G, 0).

(** [ntohl( p[ i ] )] *)
Definition sb_word (arr : list Z) (i : Z) : Z := be_val (ztake 4 (zdrop (4 * i) arr)).

(** [arr] and [ret] are what [LoadSuperBlock] answers. *)
Definition Reload (arr : list Z) (ret : Z) (sb : CSuperBlock) (G : geometry) : CSuperBlock * geometry * Z :=
  if ERROR ret then (sb, G, ret)
  else if negb (bool_decide (ztake 4 arr = magic)) then (sb, G, - EINVAL)
  else
    let sb := set_version (sb_word arr 1) sb in
    if negb (m_dwVersion sb =? 1) then (sb, G, - ENOTSUP)
    else
      let dwBlkSize := sb_word arr 2 in
      let '(G, ret) := SetBlockSize dwBlkSize G in
      if ERROR ret then (sb, G, ret)
      else
        let sb := set_blk dwBlkSize sb in
        let dwPageSize := sb_word arr 3 in
        let '(G, ret) := SetPageSize dwPageSize G in
        if ERROR ret then (sb, G, ret) else (set_page dwPageSize sb, G, ret).

(** ** Lemmas *)

Lemma valid_or_error dwSize : IsValidBlockSize dwSize = STATUS_SUCCESS \/ IsValidBlockSize dwSize = - EINVAL.
Proof. unfold IsValidBlockSize. destruct (_ && _)%bool; auto. Qed.

Lemma page_or_error G dwSize : IsValidPageSize G dwSize = STATUS_SUCCESS \/ IsValidPageSize G dwSize = - EINVAL.
Proof. unfold IsValidPageSize. destruct (_ || _)%bool; auto. Qed.

Lemma page_needs_block G G' dwSize : BLOCK_SIZE G' = BLOCK_SIZE G -> IsValidPageSize G' dwSize = IsValidPageSize G dwSize.
Proof. intros E. unfold IsValidPageSize, BLOCK_SHIFT. by rewrite E. Qed.

Lemma word_at_pos (l1 l2 : list Z) i v :
  length l1 = Z.to_nat (4 * i) -> 0 <= v < 2 ^ 32 -> sb_word (l1 ++ be_bytes 4 v ++ l2) i = v.
Proof.
  intros Hl Hv. unfold sb_word, zdrop, ztake. rewrite <- Hl, drop_app_length.
  assert (take (Z.to_nat 4) (be_bytes 4 v ++ l2) = be_bytes 4 v) as ->.
  { change (Z.to_nat 4) with (length (be_bytes 4 v)). apply take_app_length. }
  by apply be_val_bytes.
Qed.

(** Only the first sixteen bytes are looked at, and whether the block could be
    read. *)
Lemma take_drop_short (arr : list Z) (i n m : Z) :
  0 <= i -> 0 <= n -> i + n <= m -> ztake n (zdrop i (ztake m arr)) = ztake n (zdrop i arr).
Proof.
  intros Hi Hn Hm. unfold ztake, zdrop. rewrite skipn_firstn_comm, take_take. f_equal. lia.
Qed.

Lemma Reload_prefix arr arr' ret ret' sb G :
  ztake 16 arr = ztake 16 arr' -> ERROR ret = false -> ERROR ret' = false ->
  Reload arr ret sb G = Reload arr' ret' sb G.
Proof.
  intros E H1 H2.
  assert (forall i, 0 <= i -> i + 4 <= 16 -> ztake 4 (zdrop i arr) = ztake 4 (zdrop i arr')) as Hw.
  { intros i Hi Hi'. rewrite <- (take_drop_short arr i 4 16), <- (take_drop_short arr' i 4 16) by lia. by rewrite E. }
  assert (ztake 4 arr = ztake 4 arr') as E0 by exact (Hw 0 ltac:(lia) ltac:(lia)).
  unfold Reload, sb_word. rewrite H1, H2, E0, !Hw by lia. done.
Qed.

(** A superblock that names the sizes in use. *)
Record names (G : geometry) (sb : CSuperBlock) : Prop := mkNames {
  nm_magic : m_dwMagic sb = magic;
  nm_version : m_dwVersion sb = 1;
  nm_blk : m_dwBlkSize sb = BLOCK_SIZE G;
  nm_page : m_dwPageSize sb = REGFS_PAGE_SIZE G;
  nm_range : 0 <= REGFS_PAGE_SIZE G < 2 ^ 32;
}.

Lemma Flush_length G sb : geom_ok G -> m_dwMagic sb = magic -> Z.of_nat (length (Flush G sb)) = BLOCK_SIZE G.
Proof.
  intros HG Hm. destruct (geom_bounds G HG) as (HB & _). unfold Flush.
  rewrite !length_app, Hm, length_replicate. simpl length. lia.
Qed.

Lemma names_unique G sb sb' : names G sb -> names G sb' -> sb' = sb.
Proof. intros [H1 H2 H3 H4 _] [K1 K2 K3 K4 _]. destruct sb, sb'. cbn in *. congruence. Qed.

Lemma Flush_bytes G sb : names G sb -> Forall byte (Flush G sb).
Proof.
  intros [Hm _ _ _ _]. assert (forall v, Forall byte (be_bytes 4 v)) as Hw.
  { intros v. apply Forall_rev, le_bytes_range. }
  unfold Flush. rewrite Hm. apply Forall_app_2; [repeat constructor; unfold byte; lia|].
  repeat (apply Forall_app_2; [apply Hw|]). apply Forall_replicate. unfold byte. lia.
Qed.

Lemma Format_names G G0 sb :
  geom_ok G -> names G sb -> IsSafeMode G0 = IsSafeMode G -> Format sb G0 = (G, 0).
Proof.
  intros [V1 V2] [_ _ Hb Hp _] Hs. assert (ERROR STATUS_SUCCESS = false) as E by done.
  unfold Format, SetBlockSize, SetPageSize. rewrite Hb, Hp, V1, E. cbn [REGFS_PAGE_SIZE IsSafeMode BLOCK_SIZE].
  rewrite (page_needs_block G) by done. rewrite V2, E, Hs. by destruct G.
Qed.

Lemma Reload_Flush G G0 sb sb0 :
  geom_ok G -> names G sb -> m_dwMagic sb0 = magic -> IsSafeMode G0 = IsSafeMode G ->
  Reload (Flush G sb) 0 sb0 G0 = (sb, G, STATUS_SUCCESS).
Proof.
  intros HG [Hm Hv Hb Hp Hp1] Hm0 Hs. destruct (geom_bounds G HG) as (HB & _). pose proof HG as [V1 V2].
  unfold Reload. assert (ERROR 0 = false) as -> by done.
  assert (ztake 4 (Flush G sb) = magic) as -> by (unfold Flush; rewrite Hm; done).
  rewrite bool_decide_true by done. cbn [negb].
  assert (sb_word (Flush G sb) 1 = 1) as ->.
  { unfold Flush. rewrite Hv. apply word_at_pos; [by rewrite Hm|lia]. }
  assert (sb_word (Flush G sb) 2 = BLOCK_SIZE G) as ->.
  { unfold Flush. rewrite app_assoc, <- Hb. apply word_at_pos; [by rewrite length_app, Hm|lia]. }
  assert (sb_word (Flush G sb) 3 = REGFS_PAGE_SIZE G) as ->.
  { unfold Flush. rewrite 2!app_assoc, <- Hp. apply word_at_pos; [by rewrite !length_app, Hm|lia]. }
  cbn [set_version m_dwVersion]. change (negb (1 =? 1)) with false. cbn match. unfold SetBlockSize. rewrite V1.
  assert (ERROR STATUS_SUCCESS = false) as -> by done. assert (ERROR STATUS_SUCCESS = false) as E by done. rewrite E.
  unfold SetPageSize. rewrite (page_needs_block G) by done. rewrite V2, E, E. cbn [BLOCK_SIZE IsSafeMode].
  rewrite Hs. f_equal. f_equal.
  - destruct sb as [a b c d]. cbn in *. unfold set_page, set_blk, set_version. cbn. congruence.
  - by destruct G.
Qed.

(** ** Properties *)

(** C39: the superblock is read back.  What [Flush] writes with valid sizes, [Reload] accepts,
    whatever the sizes in use were; it takes these sizes over, and they make a valid
    geometry. *)
Theorem super_roundtrip (G G0 : geometry) (sb sb0 : CSuperBlock) :
  geom_ok G -> m_dwMagic sb = magic -> m_dwVersion sb = 1 ->
  m_dwBlkSize sb = BLOCK_SIZE G -> m_dwPageSize sb = REGFS_PAGE_SIZE G -> REGFS_PAGE_SIZE G < 2 ^ 32 ->
  0 <= REGFS_PAGE_SIZE G -> m_dwMagic sb0 = magic -> IsSafeMode G0 = IsSafeMode G ->
  Z.of_nat (length (Flush G sb)) = BLOCK_SIZE G /\
  Reload (Flush G sb) 0 sb0 G0 = (sb, G, STATUS_SUCCESS).
Proof.
  intros HG Hm Hv Hb Hp Hp1 Hp2 Hm0 Hs. split; [by apply Flush_length|]. by apply Reload_Flush.
Qed.

(** C24: only a valid geometry gets in.  From any block, a [Reload] that succeeds
    leaves sizes that make a valid geometry, the same as in the superblock; one that
    is refused keeps the page size, but the block size of the refused block may
    stay. *)
Theorem super_reload_type (arr : list Z) (ret0 ret : Z) (sb sb' : CSuperBlock) (G G' : geometry) :
  Reload arr ret0 sb G = (sb', G', ret) ->
  (ret = STATUS_SUCCESS -> geom_ok G' /\ m_dwBlkSize sb' = BLOCK_SIZE G' /\ m_dwPageSize sb' = REGFS_PAGE_SIZE G') /\
  (ret <> STATUS_SUCCESS -> REGFS_PAGE_SIZE G' = REGFS_PAGE_SIZE G /\
     (G' = G \/ BLOCK_SIZE G' = sb_word arr 2 /\ IsValidBlockSize (BLOCK_SIZE G') = STATUS_SUCCESS)) /\
  IsSafeMode G' = IsSafeMode G.
Proof.
  unfold Reload. destruct (ERROR ret0) eqn:E0.
  { intros [= <- <- <-]. split; [intros ->; done|]. split; [by split; [|left]|done]. }
  destruct (negb (bool_decide _)).
  { intros [= <- <- <-]. split; [done|]. split; [by split; [|left]|done]. }
  destruct (negb _). { intros [= <- <- <-]. split; [done|]. split; [by split; [|left]|done]. }
  unfold SetBlockSize. destruct (valid_or_error (sb_word arr 2)) as [V| ->].
  2: { intros [= <- <- <-]. split; [done|]. split; [by split; [|left]|done]. }
  rewrite V. assert (ERROR STATUS_SUCCESS = false) as E by done. rewrite E, E. unfold SetPageSize.
  set (G1 := mkGeom (sb_word arr 2) (REGFS_PAGE_SIZE G) (IsSafeMode G)).
  destruct (page_or_error G1 (sb_word arr 3)) as [W| ->].
  - rewrite W, E, E. intros [= <- <- <-]. split; [|done]. intros _. split; [split|done].
    + exact V.
    + rewrite <- W. by apply page_needs_block.
  - intros [= <- <- <-]. split; [done|]. split; [|done]. intros _. split; [done|right; by split].
Qed.

(** ** Witnesses *)

Lemma super_roundtrip_witness :
  Reload (Flush (ex_geom true) NewSuperBlock) 0 NewSuperBlock (mkGeom 1024 8192 true) =
    (NewSuperBlock, ex_geom true, STATUS_SUCCESS).
Proof.
  apply (super_roundtrip (ex_geom true) (mkGeom 1024 8192 true) NewSuperBlock NewSuperBlock).
  - apply ex_geom_ok.
  - reflexivity.
  - reflexivity.
  - reflexivity.
  - reflexivity.
  - reflexivity.
  - vm_compute. discriminate.
  - reflexivity.
  - reflexivity.
Defined.

(** Pages of the size of the blocks are refused, and the block size stays. *)
Definition ex_block : list Z := Flush (ex_geom true) (mkSuper magic 1 4096 4096).

Lemma super_reload_type_witness :
  let '(sb', G', ret) := Reload ex_block 0 NewSuperBlock (ex_geom true) in
  ret = - EINVAL /\ BLOCK_SIZE G' = 4096 /\ REGFS_PAGE_SIZE G' = REGFS_PAGE_SIZE (ex_geom true).
Proof.
  destruct (Reload ex_block 0 NewSuperBlock (ex_geom true)) as [[sb' G'] ret] eqn:E.
  destruct (super_reload_type _ _ _ _ _ _ _ E) as (_ & H & _).
  vm_compute in E. injection E as <- <- <-. split; [reflexivity|]. split; [reflexivity|]. apply H. discriminate.
Defined.
End Super.
