(* ===== verification/BlkAlloc.v ===== *)
(** * Allocation of blocks over the groups: [CBlockAllocator], [monitor/registry/blkalloc.cpp]

    The allocator keeps the bitmap of the groups and, in [m_mapBlkGrps], the
    bitmaps of the groups it has loaded.  What it needs of the disk is the class
    [BlockDev], and [BlockDevOk] says what it relies on; the theorems are
    proved against these, and [BlkDisk] shows that the block cache is an
    instance.  [Format], [Flush] and [Reload] begin with the superblock of
    [BlkSuper], and [Format] and [Reload] go on with the sizes that it sets; what
    follows is [FormatBitmaps], [FlushBitmaps] and [ReloadBitmaps].  The file is
    truncated before [Format]; what [fsync] answers is an argument. *)

From Stdlib Require Import ZArith Lia Sorted.
From stdpp Require Import sorting.
From S2P Require Import Prelude TaskGroup BlkBitmap BlkCache BlkSuper.
Import Super (CSuperBlock).
Local Open Scope rpcf_scope.

(** ** The interface to the disk *)

(** [dev_write] writes an array over the blocks from a number on, [dev_read]
    reads that many blocks; the group bitmap and the superblock have places of
    their own. *)
Class BlockDev (D : Type) := {
  dev_write : Z -> list Z -> D -> D * Z;
  dev_read : Z -> Z -> D -> list Z * Z;
  dev_save : list Z -> D -> D * Z;
  dev_load : D -> list Z * Z;
  dev_save_super : list Z -> D -> D * Z;
  dev_load_super : D -> list Z * Z;
}.

(** [dev_reach]: the blocks the device can hold.  For these it keeps what was
    written last, and nothing else changes. *)
Class BlockDevOk (G : geometry) (D : Type) {HBD : BlockDev D} := {
  dev_inv : D -> Prop;
  dev_reach : Z -> Prop;
  dev_bytes : D -> Z -> list Z;
  dev_groups : D -> list Z;
  dev_write_ok : forall s x n arr,
    dev_inv s -> 0 < n <= BLKBMP_BLKNUM G -> (forall y, x <= y < x + n -> dev_reach y) ->
    Z.of_nat (length arr) = n * BLOCK_SIZE G ->
    dev_inv (dev_write x arr s).1 /\ ERROR (dev_write x arr s).2 = false /\
    dev_groups (dev_write x arr s).1 = dev_groups s /\
    (forall y, dev_reach y -> dev_bytes (dev_write x arr s).1 y =
       (if (x <=? y) && (y <? x + n) then sub_block G arr (y - x) else dev_bytes s y));
  dev_read_ok : forall s x n,
    dev_inv s -> 0 < n <= BLKBMP_BLKNUM G -> (forall y, x <= y < x + n -> dev_reach y) ->
    (dev_read x n s).1 = concat (map (dev_bytes s) (seqZ x n)) /\ ERROR (dev_read x n s).2 = false;
  dev_save_ok : forall s arr,
    dev_inv s -> Z.of_nat (length arr) = GRPBMP_SIZE G ->
    dev_inv (dev_save arr s).1 /\ ERROR (dev_save arr s).2 = false /\ dev_groups (dev_save arr s).1 = arr /\
    (forall y, dev_reach y -> dev_bytes (dev_save arr s).1 y = dev_bytes s y);
  dev_load_ok : forall s,
    dev_inv s -> Z.of_nat (length (dev_groups s)) = GRPBMP_SIZE G ->
    (dev_load s).1 = dev_groups s /\ ERROR (dev_load s).2 = false;
}.

(** ** The allocator *)

Section Allocator.
Context (G : geometry) {D : Type} `{BlockDev D}.

Abbreviation BlkGrps := (list (Z * CBlockBitmap)).

Record CBlockAllocator := mkAlloc {
  m_pGroupBitmap : CGroupBitmap;
  m_mapBlkGrps : BlkGrps;
  m_dev : D;
}.

(** [std::map]: sorted by the index of the group. *)
Fixpoint find_grp (g : Z) (l : BlkGrps) : option CBlockBitmap :=
  match l with
  | [] => None
  | (g', b) :: l => if g' =? g then Some b else find_grp g l
  end.
Fixpoint insert_grp (g : Z) (b : CBlockBitmap) (l : BlkGrps) : BlkGrps :=
  match l with
  | [] => [(g, b)]
  | (g', b') :: l' =>
      if g' =? g then l else if g <? g' then (g, b) :: l else (g', b') :: insert_grp g b l'
  end.
Fixpoint update_grp (g : Z) (b : CBlockBitmap) (l : BlkGrps) : BlkGrps :=
  match l with
  | [] => []
  | (g', b') :: l => if g' =? g then (g, b) :: l else (g', b') :: update_grp g b l
  end.

(** The writes of a bitmap; what they answer is not looked at. *)
Definition write_all (ws : list (Z * list Z)) (s : D) : D :=
  foldl (fun s w => (dev_write w.1 w.2 s).1) s ws.

(** [CBlockGroup] *)
Definition GrpFormat (g : Z) (s : D) : CBlockBitmap * D * Z :=
  let '(b, ws) := FlushBitmap (InitBitmap G (NewBitmap g)) in
  match ws with
  | (k, arr) :: _ => let '(s, ret) := dev_write k arr s in (b, s, if ERROR ret then ret else 0)
  | [] => (b, s, 0)
  end.
Definition GrpReload (g : Z) (s : D) : CBlockBitmap * Z :=
  let b := NewBitmap g in
  let '(arr, ret) := dev_read (block_no b 0) (BLKBMP_BLKNUM G) s in
  if ERROR ret then (b, ret) else (ReloadBitmap arr b, 0).

Definition GetAllocCount (a : CBlockAllocator) : Z := BLKGRP_NUMBER G - g_wFreeCount (m_pGroupBitmap a).

(** *** [AllocBlocks] *)

(** The loop over the loaded groups: the blocks that were got, what is left of
    [dwRest], and the last status. *)
Fixpoint AllocMap (l : BlkGrps) (dwRest ret : Z) (s : D) : BlkGrps * list Z * Z * Z * D :=
  match l with
  | [] => ([], [], dwRest, ret, s)
  | (g, b) :: l =>
      let dwFree := m_wFreeCount b in
      if dwFree =? 0 then
        let '(l, blks, dwRest, ret, s) := AllocMap l dwRest ret s in ((g, b) :: l, blks, dwRest, ret, s)
      else
        let '(b, ret, blks, ws) := AllocBlocks G (Z.min dwFree dwRest) b in
        let s := write_all ws s in
        if ERROR ret then ((g, b) :: l, [], dwRest, ret, s)
        else
          let dwRest := dwRest - Z.of_nat (length blks) in
          if dwRest =? 0 then ((g, b) :: l, blks, dwRest, ret, s)
          else
            let '(l, blks', dwRest, ret, s) := AllocMap l dwRest ret s in
            ((g, b) :: l, blks ++ blks', dwRest, ret, s)
  end.

(** Groups that are allocated and not loaded yet, [idx] being the indices to try. *)
Fixpoint LoadGroups (idx : list Z) (dwNeed ret : Z) (a : CBlockAllocator) : CBlockAllocator * Z * Z :=
  match idx with
  | [] => (a, dwNeed, ret)
  | i :: idx =>
      if SUCCEEDED (IsBlockGroupFree G i (m_pGroupBitmap a)) then LoadGroups idx dwNeed ret a
      else match find_grp i (m_mapBlkGrps a) with
      | Some _ => LoadGroups idx dwNeed ret a
      | None =>
          let '(b, ret) := GrpReload i (m_dev a) in
          if ERROR ret then (a, dwNeed, ret)
          else
            let dwNeed := if m_wFreeCount b <? dwNeed then dwNeed - m_wFreeCount b else 0 in
            let a := mkAlloc (m_pGroupBitmap a) (insert_grp i b (m_mapBlkGrps a)) (m_dev a) in
            if dwNeed =? 0 then (a, dwNeed, ret)
            else if Z.of_nat (length (m_mapBlkGrps a)) <? GetAllocCount a
            then LoadGroups idx dwNeed ret a
            else (a, dwNeed, ret)
      end
  end.

(** New groups, until there are [dwNeed] blocks. *)
Fixpoint NewGroups (fuel : nat) (dwNeed ret : Z) (a : CBlockAllocator) : option (CBlockAllocator * Z) :=
  match fuel with
  | O => None
  | S fuel =>
      if dwNeed <=? 0 then Some (a, ret)
      else
        let '(pg, ret, r, sv) := AllocGroup G (m_pGroupBitmap a) in
        let s := match sv with Some arr => (dev_save arr (m_dev a)).1 | None => m_dev a end in
        let a := mkAlloc pg (m_mapBlkGrps a) s in
        match r with
        | None => Some (a, ret)
        | Some dwGrpIdx =>
            let '(b, s, ret) := GrpFormat dwGrpIdx s in
            if ERROR ret then Some (mkAlloc pg (m_mapBlkGrps a) s, ret)
            else
              let a := mkAlloc pg (insert_grp dwGrpIdx b (m_mapBlkGrps a)) s in
              if dwNeed <=? m_wFreeCount b then Some (a, ret)
              else NewGroups fuel (dwNeed - m_wFreeCount b) ret a
        end
  end.

Fixpoint AllocWhile (fuel : nat) (dwRest ret : Z) (a : CBlockAllocator)
    : option (CBlockAllocator * list Z * Z) :=
  match fuel with
  | O => None
  | S fuel' =>
      if dwRest <=? 0 then Some (a, [], ret)
      else
        let '(l, blks, dwRest, ret, s) := AllocMap (m_mapBlkGrps a) dwRest ret (m_dev a) in
        let a := mkAlloc (m_pGroupBitmap a) l s in
        if dwRest =? 0 then Some (a, blks, ret)
        else
          let '(a, dwNeed, ret) :=
            (if Z.of_nat (length l) <? GetAllocCount a
             then LoadGroups (seqZ 0 (BLKGRP_NUMBER G)) dwRest ret a else (a, dwRest, ret)) in
          match NewGroups (S (Z.to_nat dwNeed)) dwNeed ret a with
          | None => None
          | Some (a, ret) =>
              if ERROR ret then Some (a, blks, ret)
              else match AllocWhile fuel' dwRest ret a with
                   | Some (a, blks', ret) => Some (a, blks ++ blks', ret)
                   | None => None
                   end
          end
  end.

(** The blocks that were written to [pvecBlocks], and the answer. *)
Definition AllocatorAllocBlocks (dwNumBlocks : Z) (a : CBlockAllocator)
    : option (CBlockAllocator * list Z * Z) :=
  if dwNumBlocks =? 0 then Some (a, [], - EINVAL)
  else AllocWhile (2 * Z.to_nat dwNumBlocks + 2) dwNumBlocks 0 a.

(** *** [FreeBlocks] *)

Fixpoint FreeRuns (v : list CONTBLKS) (ret : Z) (a : CBlockAllocator) : CBlockAllocator * Z :=
  match v with
  | [] => (a, ret)
  | elem :: v =>
      let dwBlkIdx := first elem in
      if dwBlkIdx =? 0 then FreeRuns v ret a
      else
        let arrIdxs := map (fun i => u32 (dwBlkIdx + i)) (seqZ 0 (second elem)) in
        let dwGrpIdx := GROUP_INDEX G dwBlkIdx in
        if SUCCEEDED (IsBlockGroupFree G dwGrpIdx (m_pGroupBitmap a)) then FreeRuns v ret a
        else match find_grp dwGrpIdx (m_mapBlkGrps a) with
        | None =>
            let '(b, ret) := GrpReload dwGrpIdx (m_dev a) in
            if ERROR ret then (a, ret)
            else
              let '(b, ret, ws) := FreeBlocks G arrIdxs b in
              let s := write_all ws (m_dev a) in
              if ERROR ret then (mkAlloc (m_pGroupBitmap a) (m_mapBlkGrps a) s, ret)
              else FreeRuns v ret (mkAlloc (m_pGroupBitmap a) (insert_grp dwGrpIdx b (m_mapBlkGrps a)) s)
        | Some b =>
            let '(b, ret, ws) := FreeBlocks G arrIdxs b in
            FreeRuns v ret (mkAlloc (m_pGroupBitmap a) (update_grp dwGrpIdx b (m_mapBlkGrps a))
                              (write_all ws (m_dev a)))
        end
  end.

(** With [bByteOrder] the block numbers are in network order. *)
Definition AllocatorFreeBlocks (bByteOrder : bool) (pvecBlocks : list Z) (a : CBlockAllocator)
    : CBlockAllocator * Z :=
  match pvecBlocks with
  | [] => (a, - EINVAL)
  | _ => FreeRuns (FindContigousBlocks (if bByteOrder then map ntohl pvecBlocks else pvecBlocks)).1 0 a
  end.

(** The numbers as they are stored with [bByteOrder]. *)
Definition net_order (bByteOrder : bool) (blks : list Z) : list Z :=
  if bByteOrder then map ntohl blks else blks.

(** *** The other operations *)

Definition AllocatorIsBlockFree (dwBlkIdx : Z) (a : CBlockAllocator) : CBlockAllocator * Z :=
  let dwGrpIdx := GROUP_INDEX G dwBlkIdx in
  let iRet := IsBlockGroupFree G dwGrpIdx (m_pGroupBitmap a) in
  if SUCCEEDED iRet then (a, 0)
  else if negb (iRet =? ERROR_FALSE) then (a, - ERANGE)
  else
    let dwIdx := Z.land dwBlkIdx BLOCK_IDX_MASK in
    match find_grp dwGrpIdx (m_mapBlkGrps a) with
    | Some b => (a, IsBlockFree G dwIdx b)
    | None =>
        let '(b, ret) := GrpReload dwGrpIdx (m_dev a) in
        if ERROR ret then (a, ret)
        else (mkAlloc (m_pGroupBitmap a) (insert_grp dwGrpIdx b (m_mapBlkGrps a)) (m_dev a),
              IsBlockFree G dwIdx b)
    end.

(** [Format] behind the superblock, the file being truncated already.  The map
    keeps a bitmap that it has for the group. *)
Definition FormatBitmaps (a : CBlockAllocator) : CBlockAllocator * Z :=
  let '(pg, sv) := FormatGroups G in
  let '(s, ret) := dev_save sv (m_dev a) in
  if ERROR ret then (mkAlloc pg (m_mapBlkGrps a) s, ret)
  else
    let '(pg, ret, r, sv) := AllocGroup G pg in
    let s := match sv with Some arr => (dev_save arr s).1 | None => s end in
    match r with
    | None => (mkAlloc pg (m_mapBlkGrps a) s, ret)
    | Some dwGrpIdx =>
        let '(b, s, ret) := GrpFormat dwGrpIdx s in
        (mkAlloc pg (if ERROR ret then m_mapBlkGrps a else insert_grp 0 b (m_mapBlkGrps a)) s, ret)
    end.

Fixpoint FlushAll (l : BlkGrps) (s : D) : BlkGrps * D * Z :=
  match l with
  | [] => ([], s, 0)
  | (g, b) :: l =>
      let '(b, ws) := FlushBitmap b in
      let '(s, ret) := match ws with (k, arr) :: _ => dev_write k arr s | [] => (s, 0) end in
      if ERROR ret then ((g, b) :: l, s, ret)
      else let '(l, s, ret) := FlushAll l s in ((g, b) :: l, s, ret)
  end.
(** [Flush] behind the superblock, up to [fsync]. *)
Definition FlushBitmaps (a : CBlockAllocator) : CBlockAllocator * Z :=
  let '(pg, sv) := FlushGroups (m_pGroupBitmap a) in
  let '(s, ret) := dev_save sv (m_dev a) in
  if ERROR ret then (mkAlloc pg (m_mapBlkGrps a) s, ret)
  else let '(l, s, ret) := FlushAll (m_mapBlkGrps a) s in (mkAlloc pg l s, ret).

Fixpoint ReloadAll (idx : list Z) (pg : CGroupBitmap) (s : D) (l : BlkGrps) (ret : Z) : BlkGrps * Z :=
  match idx with
  | [] => (l, ret)
  | i :: idx =>
      if SUCCEEDED (IsBlockGroupFree G i pg) then ReloadAll idx pg s l ret
      else
        let '(b, ret) := GrpReload i s in
        if ERROR ret then (l, ret) else ReloadAll idx pg s (insert_grp i b l) ret
  end.
(** [Reload] behind the superblock. *)
Definition ReloadBitmaps (a : CBlockAllocator) : CBlockAllocator * Z :=
  let '(arr, ret) := dev_load (m_dev a) in
  if ERROR ret then (mkAlloc (mkGrpBmp arr 0) (m_mapBlkGrps a) (m_dev a), ret)
  else
    let '(pg, ret) := ReloadGroups G arr in
    if ERROR ret then (mkAlloc pg (m_mapBlkGrps a) (m_dev a), ret)
    else
      let '(l, ret) := ReloadAll (seqZ 0 (BLKGRP_NUMBER G)) pg (m_dev a) (m_mapBlkGrps a) ret in
      (mkAlloc pg l (m_dev a), ret).
End Allocator.
Arguments CBlockAllocator : clear implicits.

(** *** With the superblock *)

(** An allocator that was just made. *)
Definition NewAlloc {D : Type} (s : D) : CBlockAllocator D := mkAlloc (mkGrpBmp [] 0) [] s.

(** The sizes are globals: the superblock sets those that the rest of [Format] and
    [Reload] works with. *)
Section WithSuper.
Context {D : Type} (dev : geometry -> BlockDev D).

Definition AllocatorFormat (sb : CSuperBlock) (G : geometry) (a : CBlockAllocator D)
    : geometry * CBlockAllocator D * Z :=
  let '(G, _) := Super.Format sb G in
  let '(a, ret) := FormatBitmaps (H := dev G) G a in (G, a, ret).

(** [ret_fsync] is [0], or what [errno] makes of a failed [fsync]. *)
Definition AllocatorFlush (G : geometry) (sb : CSuperBlock) (ret_fsync : Z) (a : CBlockAllocator D)
    : CBlockAllocator D * Z :=
  let '(s, ret) := dev_save_super (BlockDev := dev G) (Super.Flush G sb) (m_dev a) in
  let a := mkAlloc (m_pGroupBitmap a) (m_mapBlkGrps a) s in
  if ERROR ret then (a, ret)
  else
    let '(a, ret) := FlushBitmaps (H := dev G) a in
    if ERROR ret then (a, ret) else (a, ret_fsync).

Definition AllocatorReload (sb : CSuperBlock) (G : geometry) (a : CBlockAllocator D)
    : CSuperBlock * geometry * CBlockAllocator D * Z :=
  let '(arr, ret) := dev_load_super (BlockDev := dev G) (m_dev a) in
  let '(sb, G, ret) := Super.Reload arr ret sb G in
  if ERROR ret then (sb, G, a, ret)
  else let '(a, ret) := ReloadBitmaps (H := dev G) G a in (sb, G, a, ret).
End WithSuper.

Abbreviation BlkGrps := (list (Z * CBlockBitmap)).
(** ** Lemmas: the map of the groups *)

Definition by_key (x y : Z * CBlockBitmap) : Prop := x.1 < y.1.

Lemma sorted_keys l : StronglySorted by_key l -> NoDup l.*1.
Proof.
  induction 1 as [|[g b] l Hs IH Hg]; [constructor|]. rewrite fmap_cons. constructor; [|done].
  intros Hin. apply list_elem_of_fmap in Hin as ([g' b'] & E & Hin). rewrite Forall_forall in Hg.
  specialize (Hg _ Hin). unfold by_key in Hg. simpl in *. lia.
Qed.

Lemma key_unique l g b b' : StronglySorted by_key l -> (g, b) ∈ l -> (g, b') ∈ l -> b = b'.
Proof.
  induction 1 as [|[g0 b0] l Hs IH Hg]; [set_solver|]. rewrite Forall_forall in Hg. unfold by_key in Hg.
  rewrite !elem_of_cons. intros [E|H1] [E'|H2].
  - congruence.
  - injection E as -> ->. specialize (Hg _ H2). simpl in Hg. lia.
  - injection E' as -> ->. specialize (Hg _ H1). simpl in Hg. lia.
  - by apply IH.
Qed.

Lemma find_grp_some g b l : find_grp g l = Some b -> (g, b) ∈ l.
Proof.
  induction l as [|[g' b'] l IH]; simpl; [done|]. destruct (Z.eqb_spec g' g) as [->|]; [intros [= ->]; set_solver|].
  intros H. apply elem_of_cons. right. by apply IH.
Qed.

Lemma find_grp_in g b l : StronglySorted by_key l -> (g, b) ∈ l -> find_grp g l = Some b.
Proof.
  intros Hs Hin. destruct (find_grp g l) as [b'|] eqn:E.
  - f_equal. by eapply key_unique; [done|apply find_grp_some|].
  - exfalso. clear Hs. induction l as [|[g' b'] l IH]; [set_solver|]. simpl in E.
    destruct (Z.eqb_spec g' g); [done|]. apply elem_of_cons in Hin as [[= -> ->]|Hin]; [done|by apply IH].
Qed.

Lemma insert_grp_spec g b l :
  StronglySorted by_key l -> g ∉ l.*1 ->
  StronglySorted by_key (insert_grp g b l) /\ (forall e, e ∈ insert_grp g b l <-> e = (g, b) \/ e ∈ l).
Proof.
  induction 1 as [|[g' b'] l Hs IH Hg]; intros Hn; simpl.
  - split; [by repeat constructor|set_solver].
  - rewrite fmap_cons in Hn. simpl in Hn. destruct (Z.eqb_spec g' g); [set_solver|].
    destruct (Z.ltb_spec g g') as [Hlt|Hge].
    + split; [|set_solver]. constructor; [by constructor|]. constructor; [done|].
      eapply Forall_impl; [exact Hg|]. unfold by_key. simpl. intros; lia.
    + destruct IH as [I1 I2]; [set_solver|]. split; [|intros e; rewrite !elem_of_cons, I2; tauto].
      constructor; [done|]. apply Forall_forall. intros e He. apply I2 in He as [->|He].
      * unfold by_key. simpl. lia.
      * rewrite Forall_forall in Hg. by apply Hg.
Qed.

Lemma insert_grp_keys g b l g' : g' ∈ l.*1 -> g' ∈ (insert_grp g b l).*1.
Proof.
  induction l as [|[g0 b0] l IH]; [set_solver|]. simpl. destruct (g0 =? g); [done|].
  destruct (g <? g0); [set_solver|]. rewrite !fmap_cons, !elem_of_cons. tauto.
Qed.

Lemma update_grp_spec g b0 b l :
  StronglySorted by_key l -> (g, b0) ∈ l ->
  StronglySorted by_key (update_grp g b l) /\ (update_grp g b l).*1 = l.*1 /\
  (forall e, e ∈ update_grp g b l <-> e = (g, b) \/ (e ∈ l /\ e.1 <> g)).
Proof.
  intros Hs Hin. assert (update_grp g b l = map (fun e => if e.1 =? g then (g, b) else e) l) as ->.
  { clear Hin. induction Hs as [|[g' b'] l Hs IH Hg]; [done|]. simpl. destruct (Z.eqb_spec g' g) as [->|]; [|by f_equal].
    f_equal. clear -Hg. induction l as [|[g1 b1] l IH]; [done|]. apply Forall_cons_1 in Hg as [H1 H2].
    simpl. unfold by_key in H1. simpl in H1. destruct (Z.eqb_spec g1 g); [lia|]. f_equal. by apply IH. }
  split_and!.
  - clear Hin. induction Hs as [|[g' b'] l Hs IH Hg]; simpl; constructor; [done|]. apply Forall_fmap.
    eapply Forall_impl; [exact Hg|]. unfold by_key, compose. intros [g2 b2]. simpl.
    destruct (Z.eqb_spec g' g) as [->|], (Z.eqb_spec g2 g) as [->|]; simpl; lia.
  - rewrite <- list_fmap_compose. apply list_fmap_ext. intros i [g' b'] _. simpl. by destruct (Z.eqb_spec g' g) as [->|].
  - intros e. rewrite list_elem_of_fmap. split.
    + intros ([g' b'] & -> & He). simpl. destruct (Z.eqb_spec g' g); [by left|by right].
    + intros [->|[He Hk]]; [exists (g, b0); simpl; by rewrite Z.eqb_refl|].
      exists e. destruct (Z.eqb_spec e.1 g); [done|by split].
Qed.

(** The order depends on the keys only. *)
Lemma sorted_by_keys l l' : l'.*1 = l.*1 -> StronglySorted by_key l -> StronglySorted by_key l'.
Proof.
  intros Hk Hs. revert l' Hk. induction Hs as [|[g b] l Hs IH Hg]; intros [|[g' b'] l'] Hk; try done; [constructor|].
  injection Hk as -> Hk. change (l'.*1 = l.*1) in Hk. constructor; [by apply IH|]. apply Forall_forall. intros e He.
  assert (e.1 ∈ l'.*1) as Hin by (apply list_elem_of_fmap; eauto). rewrite Hk in Hin.
  apply list_elem_of_fmap in Hin as (e0 & E & He0). rewrite Forall_forall in Hg. specialize (Hg e0 He0).
  unfold by_key in *. simpl in *. lia.
Qed.

Lemma key_in (l : BlkGrps) g : g ∈ l.*1 <-> exists b, (g, b) ∈ l.
Proof.
  rewrite list_elem_of_fmap. split; [intros ([g' b] & -> & ?); by exists b|intros [b ?]; by exists (g, b)].
Qed.

(** ** The state in order *)

(** The bitmap [b] of the group [g], as it is kept in memory. *)
Definition entry_ok (G : geometry) (e : Z * CBlockBitmap) : Prop :=
  m_dwGroupIdx e.2 = e.1 /\ 0 <= e.1 < BLKGRP_NUMBER G /\ bmp_ok G e.2.

(** The blocks that are free in the bitmaps of a map. *)
Definition map_free (l : BlkGrps) (x : Z) : Prop := exists e, e ∈ l /\ free_block e.2 x.

(** *** Taking from a set of free blocks *)

Record got (F F' : Z -> Prop) (blks : list Z) : Prop := mkGot {
  gt_nodup : NoDup blks;
  gt_in : forall x, x ∈ blks -> F x;
  gt_after : forall x, F' x <-> F x /\ (x ∉ blks);
}.

Lemma got_nil (F F' : Z -> Prop) : (forall x, F' x <-> F x) -> got F F' [].
Proof. intros H. split; [constructor|set_solver|set_solver]. Qed.

Lemma got_app F F1 F2 l1 l2 : got F F1 l1 -> got F1 F2 l2 -> got F F2 (l1 ++ l2).
Proof.
  intros [N1 I1 A1] [N2 I2 A2]. split.
  - apply NoDup_app. split_and!; [done| |done]. intros x H1 H2. apply I2, A1 in H2 as [_ H2]. done.
  - intros x Hx. apply elem_of_app in Hx as [Hx|Hx]; [by apply I1|]. by apply I2, A1 in Hx as [Hx _].
  - intros x. rewrite A2, A1, elem_of_app. tauto.
Qed.

Lemma got_same (F F1 F2 F3 : Z -> Prop) l :
  (forall x, F x <-> F1 x) -> (forall x, F3 x <-> F2 x) -> got F1 F2 l -> got F F3 l.
Proof. intros H H' [N I A]. split; [done|intros x Hx; by apply H, I|intros x; by rewrite H', A, H]. Qed.

Lemma allocated_got b b' blks : allocated b b' blks -> got (free_block b) (free_block b') blks.
Proof. intros [A1 A2 A3 A4 A5]. by split. Qed.

(** With a set that is apart from what is taken. *)
Lemma got_or (F F' P : Z -> Prop) blks : got F F' blks -> (forall x, P x -> F x -> False) ->
  got (fun x => F x \/ P x) (fun x => F' x \/ P x) blks.
Proof.
  intros [N I A] HP. split; [done|intros x Hx; left; by apply I|]. intros x. rewrite A. split.
  - intros [[H1 H2]|H]; [tauto|]. split; [tauto|]. intros Hx. by apply (HP x), I.
  - tauto.
Qed.

Lemma map_free_cons e l x : map_free (e :: l) x <-> free_block e.2 x \/ map_free l x.
Proof.
  unfold map_free. split.
  - intros (e' & He & Hx). apply elem_of_cons in He as [->|He]; [by left|right]. by exists e'.
  - intros [Hx|(e' & He & Hx)]; [exists e|exists e']; (split; [|done]); set_solver.
Qed.

(** ** Lemmas: groups *)

Section Groups.
Context (G : geometry) (HG : geom_ok G).

Lemma alloc_bounds :
  2 <= BLKBMP_BLKNUM G <= 16 /\ BLOCKS_PER_GROUP = 65520 /\ 0 < BLKGRP_NUMBER G <= 65520.
Proof.
  pose proof (geom_bounds G HG) as (_ & HB & _). destruct (group_bounds G HG) as (m & H1 & H2 & H3 & H4).
  assert (BLOCKS_PER_GROUP = 65520) as E by done. lia.
Qed.

Lemma entry_block_no e k : entry_ok G e -> 0 <= k < 2 ^ 16 -> block_no e.2 k = e.1 * 2 ^ 16 + k.
Proof. intros (E & H1 & H2) Hk. rewrite block_no_val; [by rewrite E|apply H2|done]. Qed.

Lemma pair_block_no g b k : entry_ok G (g, b) -> 0 <= k < 2 ^ 16 -> block_no b k = g * 2 ^ 16 + k.
Proof. apply (entry_block_no (g, b)). Qed.

Lemma entry_free e x :
  entry_ok G e -> free_block e.2 x <->
  exists k, x = e.1 * 2 ^ 16 + k /\ BLKBMP_BLKNUM G <= k < BLOCKS_PER_GROUP /\ bitZ (m_arrBytes e.2) k = false.
Proof.
  destruct alloc_bounds as (B1 & B2 & B3). intros He. split.
  - intros (k & -> & Hk & Hf). exists k. rewrite (entry_block_no e k He) by lia. split_and!; [done| |lia|done].
    destruct (Z.lt_ge_cases k (BLKBMP_BLKNUM G)); [|done]. destruct He as (_ & _ & He).
    rewrite (bo_own _ _ He) in Hf by lia. done.
  - intros (k & -> & Hk & Hf). exists k. rewrite (entry_block_no e k He) by lia. split_and!; [done|lia|lia|done].
Qed.

Lemma free_in_group e x : entry_ok G e -> free_block e.2 x -> x / 2 ^ 16 = e.1.
Proof.
  destruct alloc_bounds as (B1 & B2 & B3). intros He Hx. apply entry_free in Hx as (k & -> & Hk & _); [|done].
  rewrite Z.div_add_l, Z.div_small by lia. lia.
Qed.

Lemma map_free_group l x : Forall (entry_ok G) l -> map_free l x -> x / 2 ^ 16 ∈ l.*1.
Proof.
  intros Hl (e & He & Hx). rewrite Forall_forall in Hl. rewrite (free_in_group e x) by auto.
  apply list_elem_of_fmap. eauto.
Qed.

(** The count tells whether there is one. *)
Lemma has_free b : bmp_ok G b -> m_wFreeCount b <> 0 <-> exists x, free_block b x.
Proof.
  intros Hb. rewrite (bo_count _ _ Hb), free_bits_count. pose proof (bmp_range _ _ Hb) as Hr.
  set (l := filter _ _).
  assert (Hl : forall k, k ∈ l <-> 0 <= k < BLOCKS_PER_GROUP /\ bitZ (m_arrBytes b) k = false).
  { intros k. unfold l. rewrite list_elem_of_filter. unfold positions. rewrite elem_of_seqZ, <- Hr.
    split; (intros [? ?]; split; [lia || done|lia || done]). }
  split.
  - intros Hc. destruct l as [|k l']; [done|]. exists (block_no b k), k. split; [done|].
    apply Hl. set_solver.
  - intros (x & k & -> & Hk). apply Hl in Hk. destruct l; [set_solver|simpl; lia].
Qed.

(** The loop over the loaded groups, in memory. *)
Lemma AllocMap_mem {D} `{BlockDev D} l dwRest ret (s : D) :
  Forall (entry_ok G) l -> NoDup l.*1 -> 0 < dwRest ->
  let '(l', blks, dwRest', ret', _) := AllocMap G l dwRest ret s in
  l'.*1 = l.*1 /\ Forall (entry_ok G) l' /\ got (map_free l) (map_free l') blks /\
  dwRest' = dwRest - Z.of_nat (length blks) /\ 0 <= dwRest' /\
  (ERROR ret = false -> ERROR ret' = false) /\ (dwRest' = 0 -> ret' = 0) /\
  ((exists x, map_free l x) -> blks <> []).
Proof.
  revert dwRest ret s. induction l as [|[g b] l IH]; intros dwRest ret s Hok Hnd Hr.
  { cbn [AllocMap]. split_and!; try done; try (simpl; lia); [by apply got_nil|].
    intros (x & e & He & _). set_solver. }
  apply Forall_cons_1 in Hok as [Hb Hok]. rewrite fmap_cons in Hnd. apply NoDup_cons in Hnd as [Hg Hnd].
  pose proof Hb as (Hgi & Hgr & Hbm). cbn [fst snd] in *.
  assert (Hapart : forall x, map_free l x -> free_block b x -> False).
  { intros x H1 H2. apply Hg. replace g with (x / 2 ^ 16) by (by apply (free_in_group (g, b))). by apply map_free_group. }
  assert (Hor : forall l0 b0 x, map_free ((g, b0) :: l0) x <-> free_block b0 x \/ map_free l0 x)
    by (intros; apply (map_free_cons (g, b0))).
  cbn [AllocMap]. destruct (Z.eqb_spec (m_wFreeCount b) 0) as [E0|E0].
  - specialize (IH dwRest ret s Hok Hnd Hr). destruct (AllocMap G l dwRest ret s) as [[[[l' blks] r'] ret'] s'].
    destruct IH as (I1 & I2 & I3 & I4 & I5 & I6 & I7 & I8).
    assert (Hno : forall x, ~ free_block b x).
    { intros x Hx. apply (proj2 (has_free b Hbm)); [by exists x|done]. }
    split_and!; [rewrite !fmap_cons; by rewrite I1|by constructor| |done|done|done|done|].
    + eapply got_same; [| |exact I3]; intros x; rewrite Hor; split; try tauto; intros [Hx|]; try done; by destruct (Hno x).
    + intros (x & Hx). apply I8. exists x. apply Hor in Hx as [Hx|]; [by destruct (Hno x)|done].
  - set (n := Z.min (m_wFreeCount b) dwRest).
    pose proof (bmp_count_range _ _ Hbm) as Hcr.
    destruct (AllocBlocks G n b) as [[[b' ret1] blks1] ws] eqn:EA.
    destruct (AllocBlocks_ok G b n b' ret1 blks1 ws HG Hbm ltac:(lia) EA) as (A1 & A2 & A3 & A4).
    assert (ERROR ret1 = false /\ 0 < Z.of_nat (length blks1)) as [HE Hpos].
    { destruct A4 as [[? _]|[(_ & -> & ?)|(_ & -> & ?)]]; [done|split; [done|lia]..]. }
    rewrite HE. assert (entry_ok G (g, b')) as Hb'.
    { split; [|by split]. cbn [fst snd]. by rewrite (al_group _ _ _ A2). }
    pose proof (allocated_got _ _ _ A2) as Hgot.
    assert (got (map_free ((g, b) :: l)) (map_free ((g, b') :: l)) blks1) as Hgot1.
    { eapply got_same; [by intros; apply Hor|by intros; apply Hor|]. apply got_or; [done|]. intros x. apply Hapart. }
    cbv zeta. destruct (Z.eqb_spec (dwRest - Z.of_nat (length blks1)) 0) as [Ez|Ez].
    + split_and!; [done|by constructor|done|done|lia|done| |by intros _ ->].
      intros _. destruct A4 as [[? _]|[(_ & -> & ?)|(_ & -> & ?)]]; [done|done|lia].
    + specialize (IH (dwRest - Z.of_nat (length blks1)) ret1 (write_all ws s) Hok Hnd ltac:(lia)).
      destruct (AllocMap G l _ ret1 _) as [[[[l' blks] r'] ret'] s'].
      destruct IH as (I1 & I2 & I3 & I4 & I5 & I6 & I7 & I8).
      split_and!; [rewrite !fmap_cons; by rewrite I1|by constructor| |rewrite length_app; lia|done| |done|].
      * eapply got_app; [exact Hgot1|].
        eapply (got_same _ (fun x => map_free l x \/ free_block b' x) (fun x => map_free l' x \/ free_block b' x));
          [intros x; rewrite Hor; tauto|intros x; rewrite Hor; tauto|]. apply got_or; [done|].
        intros x H1 H2. apply Hg. replace g with (x / 2 ^ 16) by (by apply (free_in_group (g, b'))). by apply map_free_group.
      * intros _. by apply I6.
      * intros _ E. apply app_eq_nil in E as [E _]. subst. simpl in Hpos. lia.
Qed.
End Groups.

(** ** Lemmas: the disk *)

Section Disk.
Context (G : geometry) (HG : geom_ok G).
Context {D : Type} {HBD : BlockDev D} {HDev : BlockDevOk G D}.

(** The blocks of the bitmap of a group can be held by the device. *)
Definition grp_reach (g : Z) : Prop := forall i, 0 <= i < BLKBMP_BLKNUM G -> dev_reach (g * 2 ^ 16 + i).

(** Nothing changes but the bitmaps of the groups [ks]. *)
Definition frame (ks : list Z) (s s' : D) : Prop :=
  forall y, dev_reach y -> (forall g i, g ∈ ks -> 0 <= i < BLKBMP_BLKNUM G -> y <> g * 2 ^ 16 + i) ->
    dev_bytes s' y = dev_bytes s y.

Lemma frame_refl ks s : frame ks s s.
Proof. done. Qed.

Lemma frame_trans ks1 ks2 s s1 s2 : frame ks1 s s1 -> frame ks2 s1 s2 -> frame (ks1 ++ ks2) s s2.
Proof.
  intros H1 H2 y Hy Hn. rewrite H2, H1; [done|done| |done|]; intros g i Hg; apply Hn; apply elem_of_app; auto.
Qed.

Lemma frame_sub ks ks' s s' : frame ks s s' -> ks ⊆ ks' -> frame ks' s s'.
Proof. intros H Hs y Hy Hn. apply H; [done|]. intros g i Hg. apply Hn. by apply Hs. Qed.

Lemma saved_ext disk disk' b :
  (forall i, 0 <= i < BLKBMP_BLKNUM G -> disk' (block_no b i) = disk (block_no b i)) ->
  saved G disk b -> saved G disk' b.
Proof. intros H [S1 S2 S3 S4 S5 S6]. split; try done. intros i Hi. by rewrite H, S6. Qed.

Lemma saved_frame ks s s' e :
  entry_ok G e -> grp_reach e.1 -> e.1 ∉ ks -> frame ks s s' ->
  saved G (dev_bytes s) e.2 -> saved G (dev_bytes s') e.2.
Proof.
  destruct (alloc_bounds G HG) as (B1 & B2 & B3). intros He Hr Hn Hf. apply saved_ext. intros i Hi.
  rewrite (entry_block_no G e i He) by lia. apply Hf; [by apply Hr|]. intros g i' Hg Hi' E.
  assert (e.1 = g) as <- by lia. done.
Qed.

(** Writing the blocks that an operation answers. *)
Lemma write_all_ok g b ws s :
  entry_ok G (g, b) -> grp_reach g -> dev_inv s -> own_writes G b ws ->
  let s' := write_all ws s in
  dev_inv s' /\ dev_groups s' = dev_groups s /\
  forall y, dev_reach y -> dev_bytes s' y = apply_writes ws (dev_bytes s) y.
Proof.
  destruct (alloc_bounds G HG) as (B1 & B2 & B3). destruct (geom_bounds G HG) as (C1 & C2 & C3).
  intros He Hr Hi. induction ws as [|w ws IH] using rev_ind; intros Hw; [done|]. cbv zeta.
  destruct IH as (I1 & I2 & I3); [intros w' Hw'; apply Hw; set_solver|].
  unfold write_all, apply_writes in *. rewrite !foldl_app. cbn [foldl]. set (s1 := foldl _ s ws) in *.
  destruct (Hw w) as (i & Hii & ->); [set_solver|]. cbn [fst snd]. rewrite (pair_block_no G g b i He) by lia.
  pose proof He as (_ & _ & Hbm). cbn [snd] in Hbm.
  assert (Z.of_nat (length (sub_block G (m_arrBytes b) i)) = 1 * BLOCK_SIZE G) as Hlen.
  { unfold sub_block. rewrite length_take, length_drop. pose proof (bmp_len _ _ Hbm) as Hl.
    unfold BLKBMP_SIZE in C3. change (BLOCKS_PER_GROUP_FULL / BYTE_BITS) with 8192 in C3. nia. }
  destruct (dev_write_ok s1 (g * 2 ^ 16 + i) 1 (sub_block G (m_arrBytes b) i)) as (W1 & W2 & W3 & W4);
    [done|lia| |done|].
  { intros y Hy. replace y with (g * 2 ^ 16 + i) by lia. by apply Hr. }
  split_and!; [done|by rewrite W3|]. intros y Hy. rewrite W4 by done. destruct (Z.eqb_spec y (g * 2 ^ 16 + i)) as [->|Hne].
  - destruct (Z.leb_spec (g * 2 ^ 16 + i) (g * 2 ^ 16 + i)); [|lia].
    destruct (Z.ltb_spec (g * 2 ^ 16 + i) (g * 2 ^ 16 + i + 1)); [|lia]. cbn [andb]. rewrite Z.sub_diag.
    unfold sub_block at 1. rewrite Z.mul_0_l. cbn [Z.to_nat skipn]. apply take_ge. lia.
  - destruct (Z.leb_spec (g * 2 ^ 16 + i) y), (Z.ltb_spec y (g * 2 ^ 16 + i + 1)); try lia; cbn [andb]; by apply I3.
Qed.

(** An operation on the bitmap of one group, with its writes. *)
Lemma step_saved g b ws s :
  entry_ok G (g, b) -> grp_reach g -> dev_inv s -> own_writes G b ws ->
  saved G (apply_writes ws (dev_bytes s)) b ->
  let s' := write_all ws s in
  dev_inv s' /\ dev_groups s' = dev_groups s /\ saved G (dev_bytes s') b /\ frame [g] s s'.
Proof.
  destruct (alloc_bounds G HG) as (B1 & B2 & B3).
  intros He Hr Hi Hw Hs s'. destruct (write_all_ok g b ws s He Hr Hi Hw) as (W1 & W2 & W3). fold s' in W1, W2, W3.
  split_and!; [done|done| |].
  - eapply saved_ext; [|exact Hs]. intros i Hii. rewrite (pair_block_no G g b i He) by lia.
    apply W3. by apply Hr.
  - intros y Hy Hn. rewrite W3 by done. apply (apply_writes_spec ws (dev_bytes s) y []).
    intros v Hv. destruct (Hw _ Hv) as (i & Hii & E). injection E as E _. rewrite (pair_block_no G g b i He) in E by lia.
    by apply (Hn g i); [set_solver|..].
Qed.

(** The loaded groups of a state of the disk. *)
Record on_dev (s : D) (l : BlkGrps) : Prop := mkOnDev {
  od_inv : dev_inv s;
  od_saved : forall e, e ∈ l -> grp_reach e.1 /\ saved G (dev_bytes s) e.2;
}.

Lemma on_dev_frame ks s s' l :
  Forall (entry_ok G) l -> (forall e, e ∈ l -> e.1 ∉ ks) -> frame ks s s' -> dev_inv s' ->
  on_dev s l -> on_dev s' l.
Proof.
  intros Hok Hn Hf Hi [O1 O2]. split; [done|]. intros e He. destruct (O2 e He) as [O3 O4]. split; [done|].
  rewrite Forall_forall in Hok. apply (saved_frame ks s s' e); auto.
Qed.

Lemma on_dev_cons e s l : on_dev s (e :: l) <-> grp_reach e.1 /\ saved G (dev_bytes s) e.2 /\ on_dev s l.
Proof.
  split.
  - intros [O1 O2]. destruct (O2 e) as [? ?]; [set_solver|]. split_and!; [done|done|]. split; [done|].
    intros e' He'. apply O2. set_solver.
  - intros (R & Sv & [O1 O2]). split; [done|]. intros e' He'. apply elem_of_cons in He' as [->|He']; [done|auto].
Qed.

Context (HS : IsSafeMode G = true).

Lemma AllocMap_dev l dwRest ret s :
  Forall (entry_ok G) l -> NoDup l.*1 -> 0 < dwRest -> on_dev s l ->
  let '(l', _, _, _, s') := AllocMap G l dwRest ret s in
  on_dev s' l' /\ dev_groups s' = dev_groups s /\ frame l.*1 s s'.
Proof.
  revert dwRest ret s. induction l as [|[g b] l IH]; intros dwRest ret s Hok Hnd Hr Hd.
  { cbn [AllocMap]. split_and!; [done|done|apply frame_refl]. }
  apply Forall_cons_1 in Hok as [Hb Hok]. rewrite fmap_cons in *. apply NoDup_cons in Hnd as [Hg Hnd].
  apply on_dev_cons in Hd as (Hre & Hsv & Hd). cbn [fst snd] in *. pose proof Hb as (Hgi & Hgr & Hbm). cbn [fst snd] in *.
  cbn [AllocMap]. destruct (Z.eqb_spec (m_wFreeCount b) 0) as [E0|E0].
  - pose proof (AllocMap_mem G HG l dwRest ret s Hok Hnd Hr) as HM.
    specialize (IH dwRest ret s Hok Hnd Hr Hd). destruct (AllocMap G l dwRest ret s) as [[[[l' blks] r'] ret'] s'].
    destruct IH as (I1 & I2 & I3). destruct HM as (_ & M2 & _). split_and!; [|done|].
    + apply on_dev_cons. cbn [fst snd]. split_and!; [done|by apply (saved_frame l.*1 s s' (g, b))|done].
    + eapply frame_sub; [exact I3|set_solver].
  - set (n := Z.min (m_wFreeCount b) dwRest).
    pose proof (bmp_count_range _ _ Hbm) as Hcr.
    destruct (AllocBlocks G n b) as [[[b' ret1] blks1] ws] eqn:EA.
    destruct (AllocBlocks_ok G b n b' ret1 blks1 ws HG Hbm ltac:(lia) EA) as (A1 & A2 & A3 & A4).
    assert (ERROR ret1 = false /\ ret1 <> ERROR_FAIL) as [HE HF].
    { destruct A4 as [[? _]|[(_ & -> & ?)|(_ & -> & ?)]]; done. }
    destruct (AllocBlocks_saved G (dev_bytes s) b n b' ret1 blks1 ws) as [S1 S2]; [done|done|done|lia|done|done|].
    assert (entry_ok G (g, b')) as Hb' by (split; [cbn [fst snd]; by rewrite (al_group _ _ _ A2)|by split]).
    destruct (step_saved g b' ws s Hb' Hre (od_inv _ _ Hd) S2 S1) as (T1 & T2 & T3 & T4).
    rewrite HE. cbv zeta. set (s1 := write_all ws s) in *.
    assert (on_dev s1 l) as Hd1.
    { apply (on_dev_frame [g] s); [done| |done|done|done]. intros e He E. apply list_elem_of_singleton in E.
      apply Hg. rewrite <- E. apply list_elem_of_fmap. eauto. }
    destruct (Z.eqb_spec (dwRest - Z.of_nat (length blks1)) 0) as [Ez|Ez].
    + split_and!; [by apply on_dev_cons|done|]. eapply frame_sub; [exact T4|set_solver].
    + specialize (IH (dwRest - Z.of_nat (length blks1)) ret1 s1 Hok Hnd ltac:(lia) Hd1).
      destruct (AllocMap G l _ ret1 s1) as [[[[l' blks] r'] ret'] s'].
      destruct IH as (I1 & I2 & I3). split_and!; [|congruence|].
      * apply on_dev_cons. cbn [fst snd]. split_and!; [done|by apply (saved_frame l.*1 s1 s' (g, b'))|done].
      * eapply frame_sub; [eapply frame_trans; [exact T4|exact I3]|set_solver].
Qed.
End Disk.

(** ** The allocator in order *)

Section State.
Context (G : geometry).
Context {D : Type} {HBD : BlockDev D} {HDev : BlockDevOk G D}.

Definition used (a : CBlockAllocator D) (g : Z) : Prop := bitZ (g_arrBytes (m_pGroupBitmap a)) g = true.

(** In memory: the bitmaps are in order, and those of all used groups are loaded. *)
Record mem_ok (a : CBlockAllocator D) : Prop := mkMemOk {
  mo_grp : grp_ok G (m_pGroupBitmap a);
  mo_sorted : StronglySorted by_key (m_mapBlkGrps a);
  mo_entries : Forall (entry_ok G) (m_mapBlkGrps a);
  mo_loaded : forall g, 0 <= g < BLKGRP_NUMBER G -> (used a g <-> g ∈ (m_mapBlkGrps a).*1);
}.

(** The disk has what is in memory. *)
Record disk_ok (a : CBlockAllocator D) : Prop := mkDiskOk {
  ko_dev : on_dev G (m_dev a) (m_mapBlkGrps a);
  ko_groups : dev_groups (m_dev a) = g_arrBytes (m_pGroupBitmap a);
  ko_count : get_count (g_arrBytes (m_pGroupBitmap a)) = g_wFreeCount (m_pGroupBitmap a);
}.

Definition in_reach (a : CBlockAllocator D) : Prop :=
  forall g, 0 <= g < BLKGRP_NUMBER G -> used a g -> grp_reach G g.

(** The block [k] of the group [g], and a block of a group that is not used. *)
Definition data_block (g k x : Z) : Prop :=
  x = g * 2 ^ 16 + k /\ 0 <= g < BLKGRP_NUMBER G /\ BLKBMP_BLKNUM G <= k < BLOCKS_PER_GROUP.
Definition new_free (pg : CGroupBitmap) (x : Z) : Prop :=
  exists g k, data_block g k x /\ bitZ (g_arrBytes pg) g = false.

(** The blocks that can be allocated. *)
Definition is_free (a : CBlockAllocator D) (x : Z) : Prop :=
  map_free (m_mapBlkGrps a) x \/ new_free (m_pGroupBitmap a) x.

Definition all_grps : list Z := seqZ 0 (BLKGRP_NUMBER G).

(** The blocks that are not of a bitmap are left alone. *)
Definition data_kept (s s' : D) : Prop := frame G all_grps s s'.

Definition grows (a a' : CBlockAllocator D) : Prop :=
  forall g, 0 <= g < BLKGRP_NUMBER G -> used a g -> used a' g.

Lemma grows_trans a a1 a2 : grows a a1 -> grows a1 a2 -> grows a a2.
Proof. intros H1 H2 g Hg Hu. by apply H2, H1. Qed.

Lemma grows_reach a a' : grows a a' -> in_reach a' -> in_reach a.
Proof. intros H HR g Hg Hu. by apply HR, H. Qed.
End State.

Section Alloc.
Context (G : geometry) (HG : geom_ok G).
Context {D : Type} {HBD : BlockDev D} {HDev : BlockDevOk G D}.
Implicit Types (a : CBlockAllocator D).

Lemma mo_nodup a : mem_ok G a -> NoDup (m_mapBlkGrps a).*1.
Proof. intros H. apply sorted_keys, H. Qed.

Lemma keys_sub l : Forall (entry_ok G) l -> l.*1 ⊆ all_grps G.
Proof.
  intros Hl g Hg. apply key_in in Hg as [b Hb]. rewrite Forall_forall in Hl. apply Hl in Hb as (_ & Hb & _).
  apply elem_of_seqZ. simpl in Hb. lia.
Qed.

Lemma data_kept_trans s s1 s2 : data_kept G s s1 -> data_kept G s1 s2 -> data_kept G s s2.
Proof. intros H1 H2. eapply frame_sub; [by eapply frame_trans|set_solver]. Qed.

(** Nothing is left to be loaded. *)
Lemma all_loaded a : mem_ok G a -> (Z.of_nat (length (m_mapBlkGrps a)) <? GetAllocCount G a) = false.
Proof.
  intros H. pose proof H as [Hg Hs He Hl]. apply Z.ltb_ge. unfold GetAllocCount.
  rewrite (go_count _ _ Hg), free_bits_count. pose proof (grp_range G _ HG Hg) as Hr.
  set (P := fun k => bitZ (g_arrBytes (m_pGroupBitmap a)) k = false).
  set (ks := positions (length (g_arrBytes (m_pGroupBitmap a)) - 2)).
  assert (Z.of_nat (length ks) = BLKGRP_NUMBER G) as Hn by (unfold ks, positions; rewrite length_seqZ; lia).
  pose proof (filter_app_complement P ks) as Hp. apply Permutation_length in Hp. rewrite length_app in Hp.
  assert (filter (fun k => ~ P k) ks ⊆+ (m_mapBlkGrps a).*1) as Hsub.
  { apply NoDup_submseteq; [apply NoDup_filter, NoDup_seqZ|]. intros k Hk.
    apply list_elem_of_filter in Hk as [Hk1 Hk2]. apply elem_of_seqZ in Hk2. apply Hl; [lia|].
    unfold P in Hk1. unfold used. by destruct (bitZ _ k). }
  apply submseteq_length in Hsub. rewrite length_fmap in Hsub. lia.
Qed.

(** *** Making groups *)

Lemma AllocGroup_flushed g g' ret r sv :
  grp_ok G g -> AllocGroup G g = (g', ret, r, sv) ->
  match r with
  | Some _ => sv = Some (g_arrBytes g') /\ get_count (g_arrBytes g') = g_wFreeCount g'
  | None => sv = None
  end.
Proof.
  intros Hg HA. destruct (group_bounds G HG) as (m & H1 & H2 & _).
  pose proof (AllocGroup_ok G g g' ret r sv HG Hg HA) as [Hg' _]. revert HA.
  unfold AllocGroup. destruct (_ =? 0); [by intros [= <- <- <- <-]|].
  destruct (GroupLoop _ _ _) as [[k arr]|]; [|by intros [= <- <- <- <-]].
  cbn [FlushGroups]. intros [= <- <- <- <-]. split; [done|]. cbn [g_arrBytes g_wFreeCount]. apply get_put_count.
  pose proof (go_len _ _ Hg') as Hl. cbn [g_arrBytes] in Hl. unfold put_count in Hl. rewrite length_app, length_take in Hl.
  simpl in Hl. lia.
Qed.

Lemma GrpFormat_mem g (s : D) :
  0 <= g < BLKGRP_NUMBER G ->
  let '(b, s', ret) := GrpFormat G g s in
  entry_ok G (g, b) /\ m_wFreeCount b = AllFree G /\ (ERROR ret = false -> ret = 0) /\
  (forall k, BLKBMP_BLKNUM G <= k < BLOCKS_PER_GROUP -> bitZ (m_arrBytes b) k = false).
Proof.
  destruct (alloc_bounds G HG) as (B1 & B2 & B3). intros Hg.
  destruct (InitBitmap_ok G g HG ltac:(lia)) as (I1 & I2 & _). unfold GrpFormat. cbn [FlushBitmap].
  set (b0 := InitBitmap G (NewBitmap g)) in *. set (b := set_bytes _ _ b0).
  assert (bmp_ok G b) as Hb.
  { pose proof (bmp_count_range _ _ I1). apply (put_count_set G b0 (m_arrBytes b0) (m_wFreeCount b0));
      try done; try apply I1. lia. }
  destruct (dev_write _ _ s) as [s' ret]. split; [split; [done|by split]|]. split; [done|]. split; [by destruct (ERROR ret) eqn:E; [rewrite E|]|].
  intros k Hk. by apply (bmp_all_free G b).
Qed.

Lemma GrpFormat_dev g (s : D) :
  0 <= g < BLKGRP_NUMBER G -> dev_inv s -> grp_reach G g ->
  let '(b, s', ret) := GrpFormat G g s in
  dev_inv s' /\ dev_groups s' = dev_groups s /\ saved G (dev_bytes s') b /\ frame G [g] s s' /\ ERROR ret = false.
Proof.
  destruct (alloc_bounds G HG) as (B1 & B2 & B3). destruct (geom_bounds G HG) as (C1 & C2 & C3). intros Hg Hi Hr.
  pose proof (GrpFormat_mem g s Hg) as HM. unfold GrpFormat in *. cbn [FlushBitmap] in *.
  set (b0 := InitBitmap G (NewBitmap g)) in *. set (b := set_bytes _ _ b0) in *.
  assert (entry_ok G (g, b)) as Hb by (destruct (dev_write _ _ s); apply HM). clear HM.
  assert (get_count (m_arrBytes b) = m_wFreeCount b) as Hgc.
  { unfold b. cbn [set_bytes m_arrBytes m_wFreeCount]. apply get_put_count.
    destruct (InitBitmap_ok G g HG ltac:(lia)) as (I1 & _). fold b0 in I1. pose proof (bmp_len _ _ I1). lia. }
  clearbody b. clear b0.
  rewrite (pair_block_no G g b 0 Hb), Z.add_0_r by lia. pose proof Hb as (_ & _ & Hbm). cbn [snd] in Hbm.
  pose proof (bmp_len _ _ Hbm) as Hl. pose proof (bmp_count_range _ _ Hbm) as Hc.
  unfold BLKBMP_SIZE in C3. change (BLOCKS_PER_GROUP_FULL / BYTE_BITS) with 8192 in C3.
  destruct (dev_write_ok s (g * 2 ^ 16) (BLKBMP_BLKNUM G) (m_arrBytes b)) as (W1 & W2 & W3 & W4); [done|lia| |lia|].
  { intros y Hy. replace y with (g * 2 ^ 16 + (y - g * 2 ^ 16)) by lia. apply Hr. lia. }
  destruct (dev_write _ _ s) as [s' ret]. cbn [fst snd] in *. split_and!; [done|done| | |by rewrite W2].
  - split; [done|by apply Hbm|apply Hbm|lia|done|]. intros i Hii. rewrite (pair_block_no G g b i Hb) by lia. rewrite W4 by (by apply Hr).
    destruct (Z.leb_spec (g * 2 ^ 16) (g * 2 ^ 16 + i)); [|lia].
    destruct (Z.ltb_spec (g * 2 ^ 16 + i) (g * 2 ^ 16 + BLKBMP_BLKNUM G)); [|lia]. cbn [andb]. f_equal. lia.
  - intros y Hy Hn. rewrite W4 by done.
    destruct (Z.leb_spec (g * 2 ^ 16) y), (Z.ltb_spec y (g * 2 ^ 16 + BLKBMP_BLKNUM G)); try done.
    exfalso. apply (Hn g (y - g * 2 ^ 16)); [set_solver|lia|lia].
Qed.

(** A new group in the map. *)
Lemma insert_new a pg' s' g b :
  mem_ok G a -> grp_ok G pg' -> 0 <= g < BLKGRP_NUMBER G ->
  bitZ (g_arrBytes (m_pGroupBitmap a)) g = false ->
  (forall i, 0 <= i < BLKGRP_NUMBER G -> bitZ (g_arrBytes pg') i = bitZ (g_arrBytes (m_pGroupBitmap a)) i || (i =? g)) ->
  entry_ok G (g, b) -> (forall k, BLKBMP_BLKNUM G <= k < BLOCKS_PER_GROUP -> bitZ (m_arrBytes b) k = false) ->
  let a' := mkAlloc pg' (insert_grp g b (m_mapBlkGrps a)) s' in
  mem_ok G a' /\ grows G a a' /\ (forall x, is_free G a' x <-> is_free G a x) /\
  (g ∉ (m_mapBlkGrps a).*1) /\ (forall e, e ∈ m_mapBlkGrps a' <-> e = (g, b) \/ e ∈ m_mapBlkGrps a).
Proof.
  intros [M1 M2 M3 M4] Hpg Hg Hbit Hbits Hb Hfree a'.
  assert (g ∉ (m_mapBlkGrps a).*1) as Hn by (intros Hin; apply M4 in Hin; [|done]; unfold used in Hin; congruence).
  destruct (insert_grp_spec g b (m_mapBlkGrps a) M2 Hn) as [I1 I2]. split_and!; [| | |done|done].
  - split; [done|done| |].
    + apply Forall_forall. intros e He. apply I2 in He as [->|He]; [done|]. rewrite Forall_forall in M3. auto.
    + intros i Hi. unfold used in *. cbn [m_pGroupBitmap m_mapBlkGrps a']. rewrite Hbits, orb_true_iff, Z.eqb_eq by done.
      rewrite (M4 i Hi), !key_in. split.
      * intros [[b' Hb']| ->]; [exists b'|exists b]; apply I2; auto.
      * intros [b' Hb']. apply I2 in Hb' as [E|Hb']; [right; congruence|left; by exists b'].
  - intros i Hi Hu. unfold used in *. cbn [m_pGroupBitmap a']. by rewrite Hbits, Hu.
  - intros x. unfold is_free, new_free. cbn [m_pGroupBitmap m_mapBlkGrps a']. split.
    + intros [(e & He & Hx)|(i & k & Hd & Hi)].
      * apply I2 in He as [->|He]; [right|left; by exists e]. apply (entry_free G HG (g, b)) in Hx as (k & -> & Hk & _); [|done].
        by exists g, k.
      * right. exists i, k. split; [done|]. destruct Hd as (_ & Hd & _). rewrite Hbits in Hi by done.
        by apply orb_false_iff in Hi as [Hi _].
    + intros [(e & He & Hx)|(i & k & Hd & Hi)]; [left; exists e; split; [apply I2; auto|done]|].
      destruct (Z.eqb_spec i g) as [->|Hne].
      * left. exists (g, b). split; [apply I2; auto|]. destruct Hd as (-> & _ & Hk). apply (entry_free G HG (g, b)); [done|].
        exists k. split_and!; [done|lia|lia|by apply Hfree].
      * right. exists i, k. split; [done|]. destruct Hd as (_ & Hd & _). rewrite Hbits, Hi by done.
        by apply Z.eqb_neq.
Qed.

(** A group is made on the disk too. *)
Lemma disk_new a pg' sv g :
  mem_ok G a -> disk_ok G a -> grp_ok G pg' -> 0 <= g < BLKGRP_NUMBER G -> (g ∉ (m_mapBlkGrps a).*1) -> grp_reach G g ->
  sv = g_arrBytes pg' -> get_count sv = g_wFreeCount pg' ->
  let '(b, s', ret) := GrpFormat G g (dev_save sv (m_dev a)).1 in
  let a' := mkAlloc pg' (insert_grp g b (m_mapBlkGrps a)) s' in
  ERROR ret = false /\ disk_ok G a' /\ data_kept G (m_dev a) s'.
Proof.
  intros M [K1 K2 K3] Hpg Hg Hn Hr -> Hc. pose proof (od_inv _ _ _ K1) as Hi.
  destruct (dev_save_ok (m_dev a) (g_arrBytes pg') Hi (go_len _ _ Hpg)) as (S1 & S2 & S3 & S4).
  set (s1 := (dev_save _ _).1) in *. pose proof (GrpFormat_mem g s1 Hg) as HM.
  pose proof (GrpFormat_dev g s1 Hg S1 Hr) as HF. destruct (GrpFormat G g s1) as [[b s'] ret].
  destruct HM as (Hb & _). destruct HF as (F1 & F2 & F3 & F4 & F5). split; [done|].
  assert (frame G [g] (m_dev a) s') as Hfr by (intros y Hy Hny; rewrite F4, S4; done).
  pose proof M as [M1 M2 M3 M4].
  assert (on_dev G s' (m_mapBlkGrps a)) as Hod.
  { apply (on_dev_frame G HG [g] (m_dev a)); [done| |done|done|done]. intros e He E.
    apply list_elem_of_singleton in E. apply Hn. rewrite <- E. apply list_elem_of_fmap. eauto. }
  split; [split|].
  - split; [done|]. cbn [m_mapBlkGrps m_dev]. intros e He. apply insert_grp_spec in He as [->|He]; [done| |done|done].
    by apply Hod.
  - cbn. by rewrite F2, S3.
  - done.
  - eapply frame_sub; [exact Hfr|]. intros x Hx. apply list_elem_of_singleton in Hx as ->. apply elem_of_seqZ. lia.
Qed.

Definition not_more (ret' ret : Z) : Prop := ret' = ret \/ ret' = 0 \/ ret' = - ENOMEM.

Lemma NewGroups_spec fuel dwNeed ret a :
  (Z.to_nat dwNeed < fuel)%nat -> mem_ok G a ->
  exists a' ret', NewGroups G fuel dwNeed ret a = Some (a', ret') /\ grows G a a' /\
    (ERROR ret' = false -> mem_ok G a' /\ (forall x, is_free G a' x <-> is_free G a x) /\
       (0 < dwNeed -> exists x, map_free (m_mapBlkGrps a') x)) /\
    (disk_ok G a -> in_reach G a' -> mem_ok G a' /\ disk_ok G a' /\
       (forall x, is_free G a' x <-> is_free G a x) /\ data_kept G (m_dev a) (m_dev a') /\ not_more ret' ret).
Proof.
  destruct (alloc_bounds G HG) as (B1 & B2 & B3).
  revert dwNeed ret a. induction fuel as [|fuel IH]; intros dwNeed ret a Hf M; [lia|]. cbn [NewGroups].
  destruct (Z.leb_spec dwNeed 0) as [Hz|Hz].
  { exists a, ret. split; [done|]. split; [by intros ??|]. split; [intros _; split_and!; [done|done|lia]|].
    intros K _. split_and!; [done|done|done|done|by left]. }
  destruct (AllocGroup G (m_pGroupBitmap a)) as [[[pg ret1] r] sv] eqn:EA. pose proof M as [M1 M2 M3 M4].
  pose proof (AllocGroup_flushed _ _ _ _ _ M1 EA) as Hsv.
  destruct (AllocGroup_ok G _ _ _ _ _ HG M1 EA) as (Hpg & [(E0 & -> & -> & ->)|(g & -> & -> & Hg & Hbit & _ & Hbits)]).
  { rewrite Hsv. assert (mkAlloc (m_pGroupBitmap a) (m_mapBlkGrps a) (m_dev a) = a) as -> by (by destruct a).
    exists a, (- ENOMEM). split; [done|]. split; [by intros ??|]. split; [done|]. intros K _.
    split_and!; [done|done|done|done|by right; right]. }
  destruct Hsv as [-> Hgc]. set (s1 := (dev_save _ _).1). pose proof (GrpFormat_mem g s1 Hg) as HM.
  destruct (GrpFormat G g s1) as [[b s'] ret'] eqn:EF. destruct HM as (Hb & Hbc & Hr0 & Hbf).
  destruct (insert_new a pg s' g b M Hpg Hg Hbit Hbits Hb Hbf) as (N1 & N2 & N3 & N4 & N5).
  set (a1 := mkAlloc pg (insert_grp g b (m_mapBlkGrps a)) s') in *.
  assert (Hgrow : forall l, grows G a (mkAlloc pg l s') /\ used (mkAlloc pg l s') g).
  { intros l. split; [exact N2|]. unfold used. cbn. rewrite Hbits, Z.eqb_refl by done. apply orb_true_r. }
  assert (HD : disk_ok G a -> grp_reach G g -> ERROR ret' = false /\ disk_ok G a1 /\ data_kept G (m_dev a) s').
  { intros K Hre. pose proof (disk_new a pg (g_arrBytes pg) g M K Hpg Hg N4 Hre eq_refl Hgc) as HN. fold s1 in HN.
    by rewrite EF in HN. }
  destruct (ERROR ret') eqn:EE.
  { eexists _, ret'. split; [reflexivity|]. split; [by apply Hgrow|]. split; [congruence|]. intros K HR.
    exfalso. destruct HD as [? _]; [done| |done]. apply (HR g Hg). apply Hgrow. }
  rewrite (Hr0 eq_refl) in *. clear Hr0 EE.
  assert (exists x, map_free (m_mapBlkGrps a1) x) as Hfree.
  { destruct (proj1 (has_free G HG b ltac:(apply Hb))) as [x Hx]; [rewrite Hbc; unfold AllFree; lia|].
    exists x, (g, b). split; [apply N5; by left|done]. }
  destruct (Z.leb_spec dwNeed (m_wFreeCount b)) as [Hle|Hgt].
  { exists a1, 0. split; [done|]. split; [done|]. split; [done|]. intros K HR.
    destruct HD as (_ & K1 & K2); [done|apply (HR g Hg); apply Hgrow|]. split_and!; [done|done|done|done|by right; left]. }
  destruct (IH (dwNeed - m_wFreeCount b) 0 a1) as (a' & ret2 & E & I1 & I2 & I3); [unfold AllFree in Hbc; lia|done|].
  exists a', ret2. split; [done|]. split; [by eapply grows_trans|]. split.
  - intros Hr. destruct (I2 Hr) as (J1 & J2 & J3). split; [done|]. split; [intros x; by rewrite J2, N3|].
    intros _. apply J3. lia.
  - intros K HR. pose proof (grows_reach G _ _ I1 HR) as HR1.
    destruct HD as (_ & K1 & K2); [done|apply (HR1 g Hg); apply Hgrow|].
    destruct (I3 K1 HR) as (J1 & J2 & J3 & J4 & J5). split_and!; [done|done|intros x; by rewrite J3, N3| |].
    + eapply data_kept_trans; [exact K2|exact J4].
    + right. by destruct J5 as [->|J5]; [left|].
Qed.

(** *** The whole operation *)

Lemma mem_ok_map a l (s : D) :
  l.*1 = (m_mapBlkGrps a).*1 -> mem_ok G a -> Forall (entry_ok G) l ->
  mem_ok G (mkAlloc (m_pGroupBitmap a) l s).
Proof.
  intros Hk [M1 M2 M3 M4] Hl. split; [done|by eapply sorted_by_keys|done|]. cbn [m_mapBlkGrps]. by rewrite Hk.
Qed.

Lemma new_free_apart a x : mem_ok G a -> new_free G (m_pGroupBitmap a) x -> map_free (m_mapBlkGrps a) x -> False.
Proof.
  destruct (alloc_bounds G HG) as (B1 & B2 & B3).
  intros [M1 M2 M3 M4] (g & k & (-> & Hg & Hk) & Hb) Hx. apply (map_free_group G HG) in Hx; [|done].
  rewrite Z.div_add_l, Z.div_small, Z.add_0_r in Hx by lia. apply M4 in Hx; [|done]. unfold used in Hx. congruence.
Qed.

Section Safe.
Context (HS : IsSafeMode G = true).

(** A run of the loop over the loaded groups, as a step of the allocator. *)
Lemma AllocMap_step a dwRest ret :
  mem_ok G a -> 0 < dwRest ->
  let '(l, blks, dwRest', ret', s) := AllocMap G (m_mapBlkGrps a) dwRest ret (m_dev a) in
  let a1 := mkAlloc (m_pGroupBitmap a) l s in
  mem_ok G a1 /\ got (is_free G a) (is_free G a1) blks /\
  dwRest' = dwRest - Z.of_nat (length blks) /\ 0 <= dwRest' /\
  (ERROR ret = false -> ERROR ret' = false) /\ (dwRest' = 0 -> ret' = 0) /\
  ((exists x, map_free (m_mapBlkGrps a) x) -> blks <> []) /\
  (disk_ok G a -> disk_ok G a1 /\ data_kept G (m_dev a) s).
Proof.
  intros M Hr. pose proof M as [M1 M2 M3 M4].
  pose proof (AllocMap_mem G HG _ dwRest ret (m_dev a) M3 (mo_nodup a M) Hr) as HM.
  pose proof (AllocMap_dev G HG HS _ dwRest ret (m_dev a) M3 (mo_nodup a M) Hr) as HD.
  destruct (AllocMap G _ dwRest ret _) as [[[[l blks] r'] ret'] s].
  destruct HM as (I1 & I2 & I3 & I4 & I5 & I6 & I7 & I8). cbv zeta. split_and!; try done.
  - by apply mem_ok_map.
  - unfold is_free. cbn [m_mapBlkGrps m_pGroupBitmap]. apply got_or; [done|]. intros x. by apply new_free_apart.
  - intros [K1 K2 K3]. destruct (HD K1) as (D1 & D2 & D3). split; [split|]; [done|cbn; congruence|done|].
    eapply frame_sub; [exact D3|]. by apply keys_sub.
Qed.

Lemma got_free_same a a1 a2 blks :
  (forall x, is_free G a2 x <-> is_free G a1 x) -> got (is_free G a) (is_free G a1) blks ->
  got (is_free G a) (is_free G a2) blks.
Proof. intros H. by apply got_same. Qed.

Lemma AllocWhile_spec fuel dwRest ret a :
  mem_ok G a -> 0 <= dwRest -> ERROR ret = false ->
  (Z.to_nat dwRest + 2 <= fuel)%nat \/ (exists x, map_free (m_mapBlkGrps a) x) /\ (Z.to_nat dwRest + 1 <= fuel)%nat ->
  exists a' blks ret', AllocWhile G fuel dwRest ret a = Some (a', blks, ret') /\ grows G a a' /\
    (ERROR ret' = false -> mem_ok G a' /\ got (is_free G a) (is_free G a') blks /\
       Z.of_nat (length blks) = dwRest /\ (0 < dwRest -> ret' = 0)) /\
    (disk_ok G a -> in_reach G a' -> mem_ok G a' /\ disk_ok G a' /\ got (is_free G a) (is_free G a') blks /\
       data_kept G (m_dev a) (m_dev a') /\
       (ERROR ret' = true -> ret' = - ENOMEM /\ Z.of_nat (length blks) < dwRest)).
Proof.
  revert dwRest ret a. induction fuel as [|fuel IH]; intros dwRest ret a M Hr Hret Hf; [lia|]. cbn [AllocWhile].
  destruct (Z.leb_spec dwRest 0) as [Hz|Hz].
  { exists a, [], ret. split; [done|]. split; [by intros ??|]. assert (dwRest = 0) as -> by lia.
    split; [intros _; split_and!; [done|by apply got_nil|done|lia]|]. intros K _.
    split_and!; [done|done|by apply got_nil|done|congruence]. }
  pose proof (AllocMap_step a dwRest ret M Hz) as HM.
  destruct (AllocMap G _ dwRest ret _) as [[[[l blks] r'] ret'] s].
  destruct HM as (M1 & I3 & I4 & I5 & I6 & I7 & I8 & I9). set (a1 := mkAlloc (m_pGroupBitmap a) l s) in *.
  assert (grows G a a1) as Hgr by (by intros ??).
  destruct (Z.eqb_spec r' 0) as [Ez|Ez].
  { exists a1, blks, ret'. split; [done|]. split; [done|]. rewrite (I7 Ez). split.
    - intros _. split_and!; [done|done|lia|done].
    - intros K _. destruct (I9 K). split_and!; done. }
  pose proof (all_loaded a1 M1) as Hal. cbn [m_mapBlkGrps a1] in Hal. fold a1. rewrite Hal.
  destruct (NewGroups_spec (S (Z.to_nat r')) r' ret' a1) as (a2 & ret2 & -> & N1 & N2 & N3); [lia|done|].
  destruct (ERROR ret2) eqn:EE.
  { exists a2, blks, ret2. split; [done|]. split; [by apply (grows_trans G a a1)|]. split; [congruence|].
    intros K HR. destruct (I9 K) as [K1 K2]. destruct (N3 K1 HR) as (J1 & J2 & J3 & J4 & J5).
    split_and!; [done|done|by apply (got_free_same a a1 a2)|by apply (data_kept_trans _ (m_dev a1))|]. intros _. split; [|lia].
    destruct J5 as [E|[E|E]]; [|by rewrite E in EE|done]. rewrite E, I6 in EE; done. }
  destruct (N2 eq_refl) as (J1 & J2 & J3).
  destruct (IH r' ret2 a2) as (a3 & blks2 & ret3 & -> & L1 & L2 & L3); [done|lia|done| |].
  { right. split; [apply J3; lia|]. destruct Hf as [Hf|[Hx Hf]]; [lia|]. specialize (I8 Hx).
    destruct blks; [done|]. simpl length in I4. lia. }
  exists a3, (blks ++ blks2), ret3. split; [done|]. split; [apply (grows_trans G a a1 a3); [exact Hgr|by apply (grows_trans G a1 a2)]|].
  rewrite length_app. split.
  - intros HE. destruct (L2 HE) as (P1 & P2 & P3 & P4). split_and!; [done| |lia|intros _; apply P4; lia].
    eapply got_app; [by apply (got_free_same a a1 a2)|done].
  - intros K HR. pose proof (grows_reach G _ _ L1 HR) as HR2. destruct (I9 K) as [K1 K2].
    destruct (N3 K1 HR2) as (_ & Q2 & _ & Q4 & _). destruct (L3 Q2 HR) as (P1 & P2 & P3 & P4 & P5).
    split_and!; [done|done| | |].
    + eapply got_app; [by apply (got_free_same a a1 a2)|done].
    + apply (data_kept_trans _ (m_dev a2)); [|done]. by apply (data_kept_trans _ (m_dev a1)).
    + intros HE. destruct (P5 HE). split; [done|lia].
Qed.
End Safe.

(** *** Giving blocks back *)

Definition data (x : Z) : Prop := exists g k, data_block G g k x.

Lemma data_number x : data x -> 0 <= x < 2 ^ 32 - 1 /\ x mod 2 ^ 16 < BLOCKS_PER_GROUP.
Proof.
  destruct (alloc_bounds G HG) as (B1 & B2 & B3). intros (g & k & -> & Hg & Hk). split; [lia|].
  rewrite Z.add_comm, Z.mod_add, Z.mod_small by lia. lia.
Qed.

Lemma data_unique g k g' k' x : data_block G g k x -> data_block G g' k' x -> g = g' /\ k = k'.
Proof. destruct (alloc_bounds G HG) as (B1 & B2 & B3). intros (-> & Hg & Hk) (E & Hg' & Hk'). lia. Qed.

Lemma data_idx g k x : data_block G g k x -> blk_idx x = k /\ GROUP_INDEX G x = g.
Proof.
  destruct (alloc_bounds G HG) as (B1 & B2 & B3). intros (-> & Hg & Hk). split.
  - unfold blk_idx. change BLOCK_IDX_MASK with (Z.ones 16).
    rewrite Z.land_ones, Z.add_comm, Z.mod_add, Z.mod_small by lia. done.
  - rewrite group_index; [rewrite Z.div_add_l, Z.div_small by lia; lia|done|].
    unfold BLKGRP_NUMBER, BYTE_BITS, BLOCKS_PER_GROUP_FULL in *. lia.
Qed.

(** A run does not leave its group. *)
Lemma run_group f n g k :
  data_block G g k f -> (forall x, f <= x < f + n -> data x) ->
  forall x, f <= x < f + n -> data_block G g (k + (x - f)) x.
Proof.
  destruct (alloc_bounds G HG) as (B1 & B2 & B3). intros Hf Hd.
  enough (forall m : nat, Z.of_nat m < n -> data_block G g (k + Z.of_nat m) (f + Z.of_nat m)) as H.
  { intros x Hx. specialize (H (Z.to_nat (x - f)) ltac:(lia)). rewrite Z2Nat.id in H by lia.
    by replace (f + (x - f)) with x in H by lia. }
  induction m as [|m IH]; intros Hm; [by rewrite !Z.add_0_r|]. destruct IH as (E & Hg & Hk); [lia|].
  destruct (Hd (f + Z.of_nat (S m)) ltac:(lia)) as (g' & k' & E' & Hg' & Hk'). split; [lia|]. split; [done|].
  assert (g' = g) as -> by lia. lia.
Qed.

(** The blocks in use: of a loaded group, and not of its bitmap. *)
Definition taken (a : CBlockAllocator D) (x : Z) : Prop :=
  exists e k, e ∈ m_mapBlkGrps a /\ data_block G e.1 k x /\ bitZ (m_arrBytes e.2) k = true.

Lemma taken_not_free a x : mem_ok G a -> taken a x -> ~ is_free G a x.
Proof.
  intros M (e & k & He & Hd & Hb) [(e' & He' & Hx)|(g & k' & Hd' & Hb')]; pose proof M as [M1 M2 M3 M4].
  - rewrite Forall_forall in M3. pose proof (M3 e' He') as Hok. apply (entry_free G HG e') in Hx as (k' & -> & Hk' & Hf); [|done].
    assert (data_block G e'.1 k' (e'.1 * 2 ^ 16 + k')) as Hd' by (split; [done|split; [apply Hok|done]]).
    destruct (data_unique _ _ _ _ _ Hd Hd') as [E ->]. destruct e as [g b], e' as [g' b']. cbn [fst snd] in *. subst.
    rewrite (key_unique _ _ _ _ M2 He He') in Hb. congruence.
  - destruct (data_unique _ _ _ _ _ Hd Hd') as [<- ->]. destruct Hd as (_ & Hg & _).
    assert (used a e.1) as Hu by (apply M4; [done|apply list_elem_of_fmap; eauto]). unfold used in Hu. congruence.
Qed.

(** Blocks of one group are given back: its bitmap, and what the disk has. *)
Lemma free_bitmap e blks b' ret ws :
  entry_ok G e -> blks <> [] -> NoDup blks ->
  (forall x, x ∈ blks -> exists k, data_block G e.1 k x /\ bitZ (m_arrBytes e.2) k = true) ->
  FreeBlocks G blks e.2 = (b', ret, ws) ->
  ret = 0 /\ entry_ok G (e.1, b') /\
  (forall x k, data_block G e.1 k x -> bitZ (m_arrBytes b') k = bitZ (m_arrBytes e.2) k && negb (bool_decide (x ∈ blks))).
Proof.
  destruct (alloc_bounds G HG) as (B1 & B2 & B3). intros He Hne Hnd Hin HF. pose proof He as (E1 & E2 & E3).
  assert (taken_blocks G e.2 blks) as HT.
  { split.
    - apply NoDup_fmap_2_strong; [|done]. intros x y Hx Hy E. destruct (Hin x Hx) as (k & Hk & _), (Hin y Hy) as (k' & Hk' & _).
      destruct (data_idx _ _ _ Hk) as [I1 _], (data_idx _ _ _ Hk') as [I2 _]. destruct Hk as [-> _], Hk' as [-> _]. congruence.
    - intros x Hx. destruct (Hin x Hx) as (k & Hk & Hb). destruct (data_idx _ _ _ Hk) as [-> _].
      destruct Hk as (-> & _ & Hk). split; [lia|]. split; [|done]. rewrite (entry_block_no G e k He) by lia. done. }
  destruct (FreeBlocks_ok G e.2 blks b' ret ws HG E3 Hne HT HF) as (F1 & F2 & F3 & F4 & F5).
  split; [done|]. split; [split; [cbn [fst snd]; congruence|by split]|]. intros x k Hd.
  destruct (data_idx _ _ _ Hd) as [Hx _]. pose proof Hd as (_ & _ & Hk). rewrite F5 by lia. f_equal. f_equal.
  apply bool_decide_ext. split.
  - intros Hk'. apply list_elem_of_fmap in Hk' as (y & Ey & Hy). destruct (Hin y Hy) as (k' & Hd' & _).
    destruct (data_idx _ _ _ Hd') as [Hy' _]. destruct Hd as [-> _], Hd' as [-> _]. by replace k with k' by congruence.
  - intros Hxb. apply list_elem_of_fmap. by exists x.
Qed.

Section Free.
Context (HS : IsSafeMode G = true).

Lemma free_step a e blks b' ret ws :
  mem_ok G a -> e ∈ m_mapBlkGrps a -> blks <> [] -> NoDup blks ->
  (forall x, x ∈ blks -> exists k, data_block G e.1 k x /\ bitZ (m_arrBytes e.2) k = true) ->
  FreeBlocks G blks e.2 = (b', ret, ws) ->
  let a1 := mkAlloc (m_pGroupBitmap a) (update_grp e.1 b' (m_mapBlkGrps a)) (write_all ws (m_dev a)) in
  ret = 0 /\ mem_ok G a1 /\ (forall x, is_free G a1 x <-> is_free G a x \/ x ∈ blks) /\
  (forall x, taken a x -> x ∉ blks -> taken a1 x) /\
  (disk_ok G a -> disk_ok G a1 /\ data_kept G (m_dev a) (m_dev a1)).
Proof.
  intros M He Hne Hnd Hin HF a1. pose proof M as [M1 M2 M3 M4]. pose proof M3 as M3'. rewrite Forall_forall in M3'.
  pose proof (M3' e He) as Hok. destruct (free_bitmap e blks b' ret ws Hok Hne Hnd Hin HF) as (F1 & F2 & F3).
  assert ((e.1, e.2) ∈ m_mapBlkGrps a) as He' by (by destruct e).
  destruct (update_grp_spec e.1 e.2 b' _ M2 He') as (U1 & U2 & U3).
  assert (Hent : forall x, free_block b' x <-> free_block e.2 x \/ x ∈ blks).
  { intros x. rewrite (entry_free G HG e x Hok). rewrite (entry_free G HG (e.1, b') x F2). cbn [fst snd]. split.
    - intros (k & -> & Hk & Hf). rewrite (F3 (e.1 * 2 ^ 16 + k) k) in Hf by (split; [done|split; [apply Hok|done]]).
      apply andb_false_iff in Hf as [Hf|Hf]; [left; by exists k|right]. apply negb_false_iff, bool_decide_eq_true in Hf. done.
    - intros [(k & -> & Hk & Hf)|Hx].
      + exists k. split_and!; [done|lia|lia|]. by rewrite (F3 (e.1 * 2 ^ 16 + k) k), Hf by (split; [done|split; [apply Hok|done]]).
      + destruct (Hin x Hx) as (k & Hd & _). pose proof Hd as (-> & _ & Hk). exists k. split_and!; [done|lia|lia|].
        rewrite (F3 _ k Hd). rewrite bool_decide_true by done. apply andb_false_r. }
  split; [done|]. split; [|split; [|split]].
  - apply mem_ok_map; [done|done|]. apply Forall_forall. intros e' He''. apply U3 in He'' as [->|[He'' _]]; auto.
  - intros x. unfold is_free. cbn [m_mapBlkGrps m_pGroupBitmap a1]. split.
    + intros [(e' & H1 & H2)|H1]; [|by left; right]. apply U3 in H1 as [->|[H1 _]].
      * cbn [snd] in H2. apply Hent in H2 as [H2|H2]; [left; left; by exists e|by right].
      * left; left. by exists e'.
    + intros [[(e' & H1 & H2)|H1]|Hx]; [left|by right|left].
      * destruct (decide (e'.1 = e.1)) as [E|E].
        -- exists (e.1, b'). split; [apply U3; by left|]. apply Hent. left. destruct e as [g b], e' as [g' b2]. cbn [fst snd] in *.
           subst. by rewrite (key_unique _ _ _ _ M2 He H1).
        -- exists e'. split; [apply U3; by right|done].
      * exists (e.1, b'). split; [apply U3; by left|]. apply Hent. by right.
  - intros x (e' & k & H1 & H2 & H3) Hx. destruct (decide (e'.1 = e.1)) as [E|E].
    + exists (e.1, b'), k. cbn [fst snd]. split_and!; [apply U3; by left|by rewrite <- E|].
      rewrite (F3 x k) by (by rewrite <- E). rewrite bool_decide_false by done. rewrite andb_true_r.
      destruct e as [g b], e' as [g' b2]. cbn [fst snd] in *. subst. by rewrite (key_unique _ _ _ _ M2 He H1).
    + exists e', k. split_and!; [apply U3; by right|done|done].
  - intros [K1 K2 K3]. pose proof (od_inv _ _ _ K1) as Ki. destruct (od_saved _ _ _ K1 e He) as [Kr Ks].
    destruct (FreeBlocks_saved G (dev_bytes (m_dev a)) e.2 blks b' ret ws HG HS Ks HF) as [S1 S2].
    destruct (step_saved G HG e.1 b' ws (m_dev a) F2 Kr Ki S2 S1) as (T1 & T2 & T3 & T4).
    split; [split|].
    + split; [done|]. cbn [m_mapBlkGrps m_dev a1]. intros e' He''. apply U3 in He'' as [->|[He'' Hne']]; [done|].
      destruct (od_saved _ _ _ K1 e' He'') as [Kr' Ks']. split; [done|].
      eapply (saved_frame G HG [e.1]); [by apply M3'|done|set_solver|exact T4|done].
    + cbn. by rewrite T2.
    + done.
    + eapply frame_sub; [exact T4|]. intros x Hx. apply list_elem_of_singleton in Hx as ->. apply elem_of_seqZ.
      destruct Hok as (_ & ? & _). lia.
Qed.

(** A state with more free blocks. *)
Definition freed (a a' : CBlockAllocator D) (blks : list Z) : Prop :=
  mem_ok G a' /\ (forall x, is_free G a' x <-> is_free G a x \/ x ∈ blks) /\
  (disk_ok G a -> disk_ok G a' /\ data_kept G (m_dev a) (m_dev a')).

Lemma FreeRuns_spec v ret a :
  mem_ok G a -> Forall (run_of data) v -> NoDup (v ≫= run_list) ->
  (forall x, x ∈ v ≫= run_list -> taken a x) ->
  exists a' ret', FreeRuns G v ret a = (a', ret') /\ (ret' = ret \/ ret' = 0) /\ freed a a' (v ≫= run_list).
Proof.
  destruct (alloc_bounds G HG) as (B1 & B2 & B3).
  revert ret a. induction v as [|[f n off ky] v IH]; intros ret a M Hv Hnd Ht.
  { exists a, ret. split; [done|]. split; [by left|]. split; [done|]. split; [|done]. intros x. split; [by left|].
    intros [Hx|Hx]; [done|by apply not_elem_of_nil in Hx]. }
  apply Forall_cons_1 in Hv as [[Hn Hrun] Hv]. cbn [second first] in Hn, Hrun. rewrite bind_cons in *.
  apply NoDup_app in Hnd as (Hnd1 & Hapart & Hnd2). set (rest := v ≫= run_list) in *.
  assert (Hrl : run_list (mkBlks f n off ky) = seqZ f n).
  { unfold run_list. rewrite decide_False; [done|]. intros Hh. unfold hole in Hh. cbn [first] in Hh. subst.
    destruct (Ht INVALID_BLOCK_IDX) as (e & k & He & (E & Hg & Hk) & _).
    - apply elem_of_app. left. unfold run_list. rewrite decide_True by done. cbn [second].
      apply elem_of_replicate. split; [done|lia].
    - unfold INVALID_BLOCK_IDX in E. lia. }
  rewrite Hrl in *. destruct (Ht f) as (e & k & He & Hd & Hb); [apply elem_of_app; left; apply elem_of_seqZ; lia|].
  assert (Hdat : forall x, f <= x < f + n -> data x).
  { intros x Hx. destruct (Ht x) as (e' & k' & _ & Hd' & _); [apply elem_of_app; left; apply elem_of_seqZ; lia|].
    by exists e'.1, k'. }
  pose proof (run_group f n e.1 k Hd Hdat) as Hgrp. pose proof M as [M1 M2 M3 M4].
  assert (Hin : forall x, x ∈ seqZ f n -> exists k, data_block G e.1 k x /\ bitZ (m_arrBytes e.2) k = true).
  { intros x Hx. apply elem_of_seqZ in Hx as Hx'. pose proof (Hgrp x Hx') as Hdx.
    destruct (Ht x) as (e' & k' & He' & Hd' & Hb'); [apply elem_of_app; by left|].
    destruct (data_unique _ _ _ _ _ Hdx Hd') as [E <-]. eexists. split; [exact Hdx|].
    destruct e as [g b], e' as [g' b']. cbn [fst snd] in *. subst. by rewrite (key_unique _ _ _ _ M2 He He'). }
  cbn [FreeRuns first second]. destruct (data_idx _ _ _ Hd) as [_ HGI]. pose proof Hd as (Ef & Hg & Hk).
  destruct (Z.eqb_spec f 0); [lia|]. rewrite HGI.
  rewrite (IsBlockGroupFree_spec G _ e.1 HG M1 Hg).
  assert (used a e.1) as -> by (apply M4; [done|apply list_elem_of_fmap; eauto]).
  assert (SUCCEEDED ERROR_FALSE = false) as -> by done.
  assert ((e.1, e.2) ∈ m_mapBlkGrps a) as He' by (by destruct e). rewrite (find_grp_in _ _ _ M2 He').
  assert (map (fun i => u32 (f + i)) (seqZ 0 n) = seqZ f n) as ->.
  { transitivity (Z.add f <$> seqZ 0 n); [|by rewrite fmap_add_seqZ, Z.add_0_r]. apply list_fmap_ext. intros i x Hx.
    apply list_elem_of_lookup_2, elem_of_seqZ in Hx. destruct (data_number (f + x)) as [? _]; [apply Hdat; lia|].
    rewrite u32_small by lia. done. }
  destruct (FreeBlocks G (seqZ f n) e.2) as [[b' ret1] ws] eqn:EF.
  destruct (free_step a e (seqZ f n) b' ret1 ws) as (F1 & F2 & F3 & F4 & F5); [done|done| |apply NoDup_seqZ|done|done|].
  { intros E. assert (f ∈ seqZ f n) as Hf by (apply elem_of_seqZ; lia). rewrite E in Hf. set_solver. }
  set (a1 := mkAlloc _ _ _) in *. subst ret1.
  destruct (IH 0 a1) as (a' & ret' & E & Hr & I1 & I2 & I3); [done|done|done| |].
  { intros x Hx. apply F4; [apply Ht; apply elem_of_app; by right|]. intros Hx'. by apply (Hapart x). }
  exists a', ret'. split; [exact E|]. split; [right; by destruct Hr|]. split; [done|]. split.
  - intros x. rewrite I2, F3, elem_of_app. tauto.
  - intros K. destruct (F5 K) as [K1 K2]. destruct (I3 K1) as [K3 K4]. split; [done|]. by eapply data_kept_trans.
Qed.

Lemma taken_number a x : taken a x -> 0 <= x < 2 ^ 32.
Proof. intros (e & k & _ & Hd & _). destruct (data_number x); [by exists e.1, k|lia]. Qed.

(** The order that [bByteOrder] tells of. *)
Lemma net_order_back (bo : bool) a blks :
  (forall x, x ∈ blks -> taken a x) ->
  (if bo then map ntohl (net_order bo blks) else net_order bo blks) = blks.
Proof.
  intros Ht. unfold net_order. destruct bo; [|done]. rewrite map_map.
  transitivity (map id blks); [|apply map_id]. apply map_ext_in. intros x Hx.
  apply ntohl_invol, (taken_number a), Ht. by apply list_elem_of_In.
Qed.

Lemma AllocatorFreeBlocks_spec bo blks a :
  mem_ok G a -> blks <> [] -> NoDup blks -> (forall x, x ∈ blks -> taken a x) ->
  exists a', AllocatorFreeBlocks G bo (net_order bo blks) a = (a', 0) /\ freed a a' blks.
Proof.
  intros M Hne Hnd Ht. pose proof (net_order_back bo a blks Ht) as Hno.
  assert (AllocatorFreeBlocks G bo (net_order bo blks) a = FreeRuns G (FindContigousBlocks blks).1 0 a) as ->.
  { rewrite <- Hno at 2. unfold AllocatorFreeBlocks, net_order.
    destruct bo, blks as [|x l]; try done. }
  destruct (FindContigousBlocks_runs data data_number blks) as [R1 R2].
  { apply Forall_forall. intros y Hy. left. destruct (Ht y Hy) as (e & k & _ & Hd & _). by exists e.1, k. }
  destruct (FreeRuns_spec (FindContigousBlocks blks).1 0 a M R1) as (a' & ret' & E & Hr & Hf); [by rewrite R2|by rewrite R2|].
  exists a'. rewrite R2 in Hf. split; [|done]. rewrite E. by destruct Hr as [-> | ->].
Qed.

End Free.

(** What was taken is in use. *)
Lemma is_free_data a x : mem_ok G a -> is_free G a x -> data x.
Proof.
  intros M [(e & He & Hf)|(g & k & Hd & _)]; [|by exists g, k]. pose proof (mo_entries _ _ M) as M3.
  rewrite Forall_forall in M3. pose proof (M3 e He) as Hok.
  apply (entry_free G HG e) in Hf as (k & -> & Hk & _); [|done]. exists e.1, k. split; [done|split; [apply Hok|done]].
Qed.

Lemma taken_or_free a x : mem_ok G a -> data x -> taken a x \/ is_free G a x.
Proof.
  intros M (g & k & Hd). pose proof M as [M1 M2 M3 M4]. pose proof Hd as (E & Hg & Hk).
  destruct (bitZ (g_arrBytes (m_pGroupBitmap a)) g) eqn:Eg; [|right; right; by exists g, k].
  apply (M4 g Hg), key_in in Eg as [b Hb]. rewrite Forall_forall in M3. pose proof (M3 _ Hb) as Hok.
  destruct (bitZ (m_arrBytes b) k) eqn:Eb; [left; by exists (g, b), k|right; left].
  exists (g, b). split; [done|]. apply (entry_free G HG (g, b)); [done|]. by exists k.
Qed.

Lemma got_taken a a' blks :
  mem_ok G a -> mem_ok G a' -> got (is_free G a) (is_free G a') blks -> forall x, x ∈ blks -> taken a' x.
Proof.
  intros M M' [N I A] x Hx. destruct (taken_or_free a' x M') as [|Hf]; [by apply (is_free_data a), I|done|].
  by apply A in Hf as [_ Hf].
Qed.

(** *** Asking *)

Lemma AllocatorIsBlockFree_spec a x :
  mem_ok G a -> data x ->
  exists ret, AllocatorIsBlockFree G x a = (a, ret) /\
    (is_free G a x /\ ret = 0 \/ taken a x /\ ret = ERROR_FALSE).
Proof.
  destruct (alloc_bounds G HG) as (B1 & B2 & B3).
  intros M (g & k & Hd). destruct (data_idx _ _ _ Hd) as [Hi HGI]. pose proof Hd as (E & Hg & Hk). pose proof M as [M1 M2 M3 M4].
  unfold AllocatorIsBlockFree. rewrite HGI, (IsBlockGroupFree_spec G _ g HG M1 Hg). fold (blk_idx x). rewrite Hi.
  destruct (bitZ (g_arrBytes (m_pGroupBitmap a)) g) eqn:Eg.
  2: { exists 0. split; [done|]. left. split; [|done]. right. by exists g, k. }
  apply (M4 g Hg), key_in in Eg as [b Hb]. assert (SUCCEEDED ERROR_FALSE = false) as -> by done.
  assert (negb (ERROR_FALSE =? ERROR_FALSE) = false) as -> by done. rewrite (find_grp_in g b _ M2 Hb).
  rewrite Forall_forall in M3. pose proof (M3 _ Hb) as Hok. pose proof Hok as (_ & _ & Hbm). cbn [snd] in Hbm.
  unfold IsBlockFree. destruct (Z.eqb_spec k 0); [lia|].
  assert (bitZ (m_arrBytes b) k = false -> is_free G a x) as Hfree.
  { intros Hf. left. exists (g, b). split; [done|]. apply (entry_free G HG (g, b)); [done|]. by exists k. }
  assert (bitZ (m_arrBytes b) k = true -> taken a x) as Htak by (intros Hf; by exists (g, b), k).
  destruct (Z.eqb_spec (m_wFreeCount b) (AllFree G)) as [Ec|_].
  { eexists. split; [reflexivity|]. left. split; [|done]. apply Hfree. by apply (bmp_all_free G b). }
  rewrite bit_set_spec by lia. eexists. split; [reflexivity|]. destruct (bitZ (m_arrBytes b) k); [right|left]; auto.
Qed.

(** *** Making a file system *)

Lemma format_first g ret r sv :
  AllocGroup G (FormatGroups G).1 = (g, ret, r, sv) -> r = Some 0.
Proof.
  destruct (group_bounds G HG) as (m & H1 & H2 & H3 & H4). destruct (alloc_bounds G HG) as (B1 & B2 & B3).
  unfold AllocGroup, FormatGroups. cbn [FlushGroups fst g_wFreeCount g_arrBytes].
  destruct (Z.eqb_spec (BLKGRP_NUMBER G) 0); [lia|].
  set (arr := put_count _ _). assert (exists arr', arr = replicate 8 0 ++ arr') as [arr' ->].
  { unfold arr, put_count. rewrite length_replicate. exists (replicate (Z.to_nat (GRPBMP_SIZE G) - 10) 0 ++
      [BLKGRP_NUMBER G / 256; BLKGRP_NUMBER G mod 256]). rewrite app_assoc, <- replicate_add, take_replicate.
    do 2 f_equal. lia. }
  assert (exists q, (Z.to_nat (GRPBMP_SIZE G) / 8 = S (S q))%nat) as [q ->].
  { exists (Z.to_nat m - 2)%nat. rewrite H2, Z2Nat.inj_mul by lia. change (Z.to_nat 8) with 8%nat.
    rewrite Nat.mul_comm, Nat.div_mul by done. lia. }
  intros E. cbn [GroupLoop Nat.mul] in E. change (word_at (replicate 8 0 ++ arr') 0) with 0 in E.
  change (0 =? 2 ^ 64 - 1) with false in E. cbn in E. by injection E.
Qed.

Lemma FormatBitmaps_spec (s : D) :
  dev_inv s -> grp_reach G 0 ->
  exists a, FormatBitmaps G (NewAlloc s) = (a, 0) /\ mem_ok G a /\ disk_ok G a /\ data_kept G s (m_dev a) /\
    forall x, is_free G a x <-> data x.
Proof.
  intros Hi Hr. destruct (alloc_bounds G HG) as (B1 & B2 & B3). destruct (FormatGroups_ok G HG) as (F1 & F2 & F3).
  unfold FormatBitmaps. cbn [m_dev m_mapBlkGrps NewAlloc]. assert (FormatGroups G = ((FormatGroups G).1, g_arrBytes (FormatGroups G).1)) as -> by done.
  set (pg := (FormatGroups G).1) in *. destruct (dev_save_ok s (g_arrBytes pg) Hi (go_len _ _ F1)) as (S1 & S2 & S3 & S4).
  destruct (dev_save (g_arrBytes pg) s) as [s0 ret0]. cbn [fst snd] in *. rewrite S2.
  set (a0 := mkAlloc pg [] s0).
  assert (mem_ok G a0) as M0.
  { split; [done|constructor|constructor|]. intros g Hg. unfold used. cbn [m_pGroupBitmap m_mapBlkGrps a0].
    rewrite F3 by done. split; [done|]. intros Hin. by apply not_elem_of_nil in Hin. }
  assert (disk_ok G a0) as K0.
  { split; [split; [done|]|done|].
    - intros e He. by apply not_elem_of_nil in He.
    - cbn [m_pGroupBitmap a0]. unfold pg at 1. unfold FormatGroups. cbn [FlushGroups fst g_arrBytes]. rewrite F2.
      apply get_put_count. rewrite length_replicate. destruct (group_bounds G HG) as (m & ? & ? & _). lia. }
  assert (Hfree : forall x, is_free G a0 x <-> data x).
  { intros x. split; [by apply is_free_data|]. intros (g & k & Hd). right. exists g, k. split; [done|].
    apply F3. apply Hd. }
  destruct (AllocGroup G pg) as [[[pg1 ret1] r] sv] eqn:EA. pose proof (format_first _ _ _ _ EA) as ->.
  pose proof (AllocGroup_flushed _ _ _ _ _ F1 EA) as [-> Hc].
  destruct (AllocGroup_ok G _ _ _ _ _ HG F1 EA) as (P1 & [(_ & _ & _ & P2)|(g & -> & P2 & Hg & Hb & _ & Hbits)]); [done|].
  injection P2 as <-.
  pose proof (GrpFormat_mem 0 (dev_save (g_arrBytes pg1) s0).1 Hg) as HM.
  pose proof (disk_new a0 pg1 (g_arrBytes pg1) 0 M0 K0 P1 Hg (not_elem_of_nil _) Hr eq_refl Hc) as HN.
  cbn [m_dev a0] in HN. destruct (GrpFormat G 0 _) as [[b s'] ret] eqn:EF. destruct HM as (Q1 & Q2 & Q3 & Q4).
  destruct HN as (N1 & N2 & N3). rewrite N1, (Q3 N1).
  destruct (insert_new a0 pg1 s' 0 b M0 P1 Hg Hb Hbits Q1 Q4) as (I1 & I2 & I3 & _). exists (mkAlloc pg1 [(0, b)] s').
  split; [done|]. split; [exact I1|]. split; [exact N2|]. split.
  - eapply data_kept_trans; [|exact N3]. intros y Hy _. by apply S4.
  - intros x. rewrite <- Hfree. apply I3.
Qed.

(** *** Reading it back *)

Lemma GrpReload_same s e :
  entry_ok G e -> grp_reach G e.1 -> dev_inv s -> saved G (dev_bytes s) e.2 -> GrpReload G e.1 s = (e.2, 0).
Proof.
  destruct (alloc_bounds G HG) as (B1 & B2 & B3). intros He Hr Hi Hs. unfold GrpReload.
  destruct e as [g b]. cbn [fst snd] in *. pose proof He as (E & Hg & Hbm). cbn [fst snd] in *.
  assert (block_no (NewBitmap g) 0 = g * 2 ^ 16) as -> by (rewrite block_no_val; cbn [m_dwGroupIdx NewBitmap]; lia).
  destruct (dev_read_ok s (g * 2 ^ 16) (BLKBMP_BLKNUM G) Hi ltac:(lia)) as [R1 R2].
  { intros y Hy. replace y with (g * 2 ^ 16 + (y - g * 2 ^ 16)) by lia. apply Hr. lia. }
  destruct (dev_read _ _ s) as [arr ret]. cbn [fst snd] in *. rewrite R2. f_equal.
  assert (arr = disk_bytes G (dev_bytes s) b) as ->.
  { rewrite R1. unfold disk_bytes. f_equal. transitivity (dev_bytes s <$> (Z.add (g * 2 ^ 16) <$> seqZ 0 (BLKBMP_BLKNUM G)));
      [by rewrite fmap_add_seqZ, Z.add_0_r|]. rewrite <- list_fmap_compose.
    apply list_fmap_ext. intros i x Hx. apply list_elem_of_lookup_2, elem_of_seqZ in Hx.
    unfold compose. f_equal. rewrite (pair_block_no G g b x He) by lia. done. }
  pose proof (saved_reload G _ b HG Hs) as HR. revert HR. unfold ReloadBitmap, set_bytes. cbn [m_dwGroupIdx NewBitmap].
  by rewrite E.
Qed.

Lemma ReloadAll_spec a idx l ret :
  mem_ok G a -> disk_ok G a -> NoDup idx -> (forall g, g ∈ idx -> 0 <= g < BLKGRP_NUMBER G /\ (g ∉ l.*1)) ->
  StronglySorted by_key l ->
  let '(l', ret') := ReloadAll G idx (m_pGroupBitmap a) (m_dev a) l ret in
  StronglySorted by_key l' /\ (ret' = ret \/ ret' = 0) /\
  forall e, e ∈ l' <-> e ∈ l \/ (e ∈ m_mapBlkGrps a /\ e.1 ∈ idx).
Proof.
  intros M K. revert l ret. induction idx as [|g idx IH]; intros l ret Hnd Hin Hs.
  { cbn. split; [done|]. split; [by left|]. intros e. split; [by left|intros [?|[_ Hn]]; [done|by apply not_elem_of_nil in Hn]]. }
  apply NoDup_cons in Hnd as [Hg Hnd]. destruct (Hin g) as [Hgr Hgl]; [set_solver|]. pose proof M as [M1 M2 M3 M4].
  cbn [ReloadAll]. rewrite (IsBlockGroupFree_spec G _ g HG M1 Hgr).
  destruct (bitZ (g_arrBytes (m_pGroupBitmap a)) g) eqn:Eg.
  - apply (M4 g Hgr), key_in in Eg as [b Hb]. assert (SUCCEEDED ERROR_FALSE = false) as -> by done.
    rewrite Forall_forall in M3. pose proof K as [K1 K2 K3]. destruct (od_saved _ _ _ K1 _ Hb) as [Kr Ks].
    pose proof (GrpReload_same (m_dev a) (g, b) (M3 _ Hb) Kr (od_inv _ _ _ K1) Ks) as HR. cbn [fst snd] in HR. rewrite HR.
    assert (ERROR 0 = false) as -> by done. destruct (insert_grp_spec g b l Hs Hgl) as [I1 I2].
    specialize (IH (insert_grp g b l) 0 Hnd). destruct (ReloadAll G idx _ _ _ 0) as [l' ret'].
    destruct IH as (J1 & J2 & J3); [|done|].
    { intros g' Hg'. destruct (Hin g') as [H1 H2]; [set_solver|]. split; [done|]. intros H3. apply key_in in H3 as [b' H3].
      apply I2 in H3 as [[= -> _]|H3]; [done|]. apply H2, key_in. by exists b'. }
    split; [done|]. split; [right; by destruct J2|]. intros e. rewrite J3, I2, elem_of_cons. split.
    + intros [[->|He]|[He Hi]]; [right; split; [done|by left]|by left|right; split; [done|by right]].
    + intros [He|[He [Hi|Hi]]]; [by left; right|left; left|by right]. destruct e as [g' b']. cbn [fst] in Hi. subst.
      by rewrite (key_unique _ _ _ _ M2 He Hb).
  - assert (SUCCEEDED 0 = true) as -> by done. specialize (IH l ret Hnd).
    destruct (ReloadAll G idx _ _ l ret) as [l' ret']. destruct IH as (J1 & J2 & J3); [|done|].
    { intros g' Hg'. apply Hin. set_solver. }
    split; [done|]. split; [done|]. intros e. rewrite J3, elem_of_cons. split; [tauto|].
    intros [He|[He [Hi|Hi]]]; [by left| |by right]. exfalso.
    assert (used a g) as Hu by (apply M4; [done|rewrite <- Hi; apply list_elem_of_fmap; eauto]). unfold used in Hu. congruence.
Qed.

#[local] Instance by_key_antisymm : AntiSymm (=) by_key.
Proof. intros [g b] [g' b'] H1 H2. unfold by_key in *. simpl in *. lia. Qed.

Lemma ReloadBitmaps_spec a : mem_ok G a -> disk_ok G a -> ReloadBitmaps G (NewAlloc (m_dev a)) = (a, 0).
Proof.
  intros M K. pose proof M as [M1 M2 M3 M4]. pose proof K as [K1 K2 K3]. unfold ReloadBitmaps. cbn [m_dev m_mapBlkGrps NewAlloc].
  destruct (dev_load_ok (m_dev a) (od_inv _ _ _ K1)) as [L1 L2]; [rewrite K2; apply M1|].
  destruct (dev_load (m_dev a)) as [arr ret]. cbn [fst snd] in *. subst arr. rewrite L2, K2. unfold ReloadGroups.
  rewrite K3. assert (mkGrpBmp (g_arrBytes (m_pGroupBitmap a)) (g_wFreeCount (m_pGroupBitmap a)) = m_pGroupBitmap a) as ->
    by (by destruct (m_pGroupBitmap a)).
  assert (g_wFreeCount (m_pGroupBitmap a) <= BLKGRP_NUMBER G) as Hn.
  { pose proof (free_bits_bound (g_arrBytes (m_pGroupBitmap a)) [] ltac:(constructor)) as Hf.
    rewrite (grp_range _ _ HG M1), <- (go_count _ _ M1) in Hf. simpl length in Hf. specialize (Hf ltac:(set_solver)). lia. }
  destruct (Z.ltb_spec (BLKGRP_NUMBER G) (g_wFreeCount (m_pGroupBitmap a))); [lia|].
  assert (ERROR 0 = false) as -> by done.
  pose proof (ReloadAll_spec a (all_grps G) [] 0 M K (NoDup_seqZ _ _)) as HR. unfold all_grps in HR.
  destruct (ReloadAll G _ _ _ [] 0) as [l' ret']. destruct HR as (R1 & R2 & R3).
  { intros g Hg. apply elem_of_seqZ in Hg. split; [lia|apply not_elem_of_nil]. }
  { constructor. }
  assert (l' = m_mapBlkGrps a) as ->; [|destruct R2 as [-> | ->]; by destruct a].
  apply (StronglySorted_unique by_key); [done|done|]. apply NoDup_Permutation.
  - eapply NoDup_fmap_1. by apply sorted_keys.
  - eapply NoDup_fmap_1. by apply sorted_keys.
  - intros e. rewrite R3. split; [intros [He|[He _]]; [by apply not_elem_of_nil in He|done]|].
    intros He. right. split; [done|]. rewrite Forall_forall in M3. destruct (M3 e He) as (_ & ? & _). apply elem_of_seqZ. lia.
Qed.
(** *** Saving it again *)

Lemma put_get_count arr : (2 <= length arr)%nat -> Forall byte arr -> put_count (get_count arr) arr = arr.
Proof.
  intros Hl Hb. unfold put_count, get_count. pose proof (take_drop (length arr - 2) arr) as Ea.
  assert (length (drop (length arr - 2) arr) = 2%nat) as Hd by (rewrite length_drop; lia).
  assert (Forall byte (drop (length arr - 2) arr)) as Hbd by (by apply Forall_drop).
  destruct (drop (length arr - 2) arr) as [|h [|l [|? ?]]]; try done. rewrite <- Ea at 3.
  apply Forall_cons_1 in Hbd as [H1 Hbd]. apply Forall_cons_1 in Hbd as [H2 _]. unfold byte in *.
  rewrite Z.add_comm, (Z.mul_comm 256), Z.div_add, Z.div_small, Z.mod_add, Z.mod_small by lia. done.
Qed.

Lemma FlushBitmap_same disk b :
  saved G disk b -> FlushBitmap b = (b, [(block_no b 0, m_arrBytes b)]).
Proof.
  intros [S1 S2 S3 S4 S5 S6]. unfold FlushBitmap. rewrite <- S5, put_get_count by (done || lia). rewrite S5.
  by destruct b.
Qed.

(** Writing a bitmap that the disk has changes nothing there. *)
Lemma FlushAll_spec l (s : D) :
  Forall (entry_ok G) l -> on_dev G s l ->
  exists s', FlushAll l s = (l, s', 0) /\ dev_inv s' /\ dev_groups s' = dev_groups s /\ frame G [] s s'.
Proof.
  destruct (alloc_bounds G HG) as (B1 & B2 & B3). destruct (geom_bounds G HG) as (C1 & C2 & C3).
  unfold BLKBMP_SIZE in C3. change (BLOCKS_PER_GROUP_FULL / BYTE_BITS) with 8192 in C3.
  revert s. induction l as [|[g b] l IH]; intros s Hok Hd.
  { exists s. split_and!; [done|apply Hd|done|apply frame_refl]. }
  pose proof Hok as Hok'. apply Forall_cons_1 in Hok as [Hb Hok].
  destruct Hd as [O1 O2]. destruct (O2 (g, b)) as [Hr Hs]; [set_solver|]. cbn [fst snd] in *.
  cbn [FlushAll]. rewrite (FlushBitmap_same _ _ Hs). pose proof Hs as [S1 S2 S3 S4 S5 S6].
  rewrite (pair_block_no G g b 0 Hb), Z.add_0_r by lia.
  destruct (dev_write_ok s (g * 2 ^ 16) (BLKBMP_BLKNUM G) (m_arrBytes b)) as (W1 & W2 & W3 & W4); [done|lia| |lia|].
  { intros y Hy. replace y with (g * 2 ^ 16 + (y - g * 2 ^ 16)) by lia. apply Hr. lia. }
  destruct (dev_write _ _ s) as [s1 ret]. cbn [fst snd] in *. rewrite W2.
  assert (frame G [] s s1) as Hf.
  { intros y Hy _. rewrite W4 by done.
    destruct (Z.leb_spec (g * 2 ^ 16) y), (Z.ltb_spec y (g * 2 ^ 16 + BLKBMP_BLKNUM G)); try done. cbn [andb].
    rewrite <- S6 by lia. f_equal. rewrite (pair_block_no G g b _ Hb) by lia. lia. }
  destruct (IH s1) as (s' & E & I1 & I2 & I3); [done| |].
  { apply (on_dev_frame G HG [] s); [done|intros; apply not_elem_of_nil|done|done|]. split; [done|].
    intros e He. apply O2. set_solver. }
  rewrite E. exists s'. split_and!; [done|done|congruence|]. exact (frame_trans _ [] [] s s1 s' Hf I3).
Qed.

Lemma FlushBitmaps_spec a :
  mem_ok G a -> disk_ok G a ->
  exists s', let a' := mkAlloc (m_pGroupBitmap a) (m_mapBlkGrps a) s' in
    FlushBitmaps a = (a', 0) /\ mem_ok G a' /\ disk_ok G a'.
Proof.
  intros M K. pose proof M as [M1 M2 M3 M4]. pose proof K as [K1 K2 K3]. unfold FlushBitmaps, FlushGroups.
  destruct (group_bounds G HG) as (m & H1 & H2 & _). pose proof (go_len _ _ M1) as Hl.
  rewrite <- K3, put_get_count by (done || lia || apply M1). rewrite K3.
  assert (mkGrpBmp (g_arrBytes (m_pGroupBitmap a)) (g_wFreeCount (m_pGroupBitmap a)) = m_pGroupBitmap a) as ->
    by (by destruct (m_pGroupBitmap a)).
  destruct (dev_save_ok (m_dev a) (g_arrBytes (m_pGroupBitmap a)) (od_inv _ _ _ K1) Hl) as (S1 & S2 & S3 & S4).
  destruct (dev_save _ (m_dev a)) as [s1 ret]. cbn [fst snd] in *. rewrite S2.
  assert (frame G [] (m_dev a) s1) as Hf by (intros y Hy _; by apply S4).
  assert (on_dev G s1 (m_mapBlkGrps a)) as Hd1.
  { by apply (on_dev_frame G HG [] (m_dev a)); [done|intros; apply not_elem_of_nil|done..]. }
  destruct (FlushAll_spec (m_mapBlkGrps a) s1 M3 Hd1) as (s' & -> & I1 & I2 & I3). exists s'.
  split; [done|]. split; [by split|]. split; [|cbn; congruence|done].
  by apply (on_dev_frame G HG [] s1); [done|intros; apply not_elem_of_nil|done..].
Qed.
End Alloc.

(** ** Properties *)

(** C16: allocation.  The loops end.  As long as the groups are within reach of the
    disk, the call answers the number of blocks that was asked for, or
    [-ENOMEM] with fewer; these blocks are distinct and were free, exactly they are
    in use afterwards, the disk has the bitmaps of the new state, and no other block of
    the disk was touched. *)
Theorem alloc_spec (G : geometry) {D : Type} {HBD : BlockDev D} {HDev : BlockDevOk G D}
    (a : CBlockAllocator D) (n : Z) :
  geom_ok G -> IsSafeMode G = true -> mem_ok G a -> disk_ok G a -> 0 < n ->
  exists a' blks ret, AllocatorAllocBlocks G n a = Some (a', blks, ret) /\
    (in_reach G a' ->
       mem_ok G a' /\ disk_ok G a' /\ data_kept G (m_dev a) (m_dev a') /\
       NoDup blks /\ (forall x, x ∈ blks -> is_free G a x) /\
       (forall x, is_free G a' x <-> is_free G a x /\ (x ∉ blks)) /\
       (ret = STATUS_SUCCESS /\ Z.of_nat (length blks) = n \/
        ret = - ENOMEM /\ Z.of_nat (length blks) < n)).
Proof.
  intros HG HS M K Hn. unfold AllocatorAllocBlocks. destruct (Z.eqb_spec n 0); [lia|].
  destruct (AllocWhile_spec G HG HS (2 * Z.to_nat n + 2) n 0 a M) as (a' & blks & ret & E & _ & H1 & H2);
    [lia|done|left; lia|].
  exists a', blks, ret. split; [done|]. intros HR. destruct (H2 K HR) as (P1 & P2 & [N I A] & P4 & P5).
  split_and!; try done. destruct (ERROR ret) eqn:EE; [right; by apply P5|left].
  destruct (H1 eq_refl) as (_ & _ & Q1 & Q2). split; [by apply Q2|done].
Qed.

(** C17: giving blocks back undoes an allocation.  All blocks that were
    answered, also those of a call that failed with [-ENOMEM], can be given back in one call,
    in host or, with [bByteOrder], in network order, which succeeds; after it the free
    blocks are what they were before, and the disk has the bitmaps. *)
Theorem alloc_free_inverse (G : geometry) {D : Type} {HBD : BlockDev D} {HDev : BlockDevOk G D}
    (a a1 : CBlockAllocator D) (n ret : Z) (blks : list Z) (bo : bool) :
  geom_ok G -> IsSafeMode G = true -> mem_ok G a -> disk_ok G a -> 0 < n ->
  AllocatorAllocBlocks G n a = Some (a1, blks, ret) -> in_reach G a1 -> blks <> [] ->
  (forall x, x ∈ blks -> taken G a1 x) /\
  exists a2, AllocatorFreeBlocks G bo (net_order bo blks) a1 = (a2, STATUS_SUCCESS) /\
    mem_ok G a2 /\ disk_ok G a2 /\ (forall x, is_free G a2 x <-> is_free G a x) /\
    data_kept G (m_dev a1) (m_dev a2).
Proof.
  intros HG HS M K Hn. unfold AllocatorAllocBlocks. destruct (Z.eqb_spec n 0); [lia|]. intros E HR Hne.
  destruct (AllocWhile_spec G HG HS (2 * Z.to_nat n + 2) n 0 a M) as (a1' & blks' & ret' & E' & _ & _ & H2);
    [lia|done|left; lia|]. rewrite E in E'. injection E' as <- <- <-.
  destruct (H2 K HR) as (P1 & P2 & P3 & _ & _). pose proof (got_taken G HG a a1 blks M P1 P3) as Ht.
  split; [done|]. destruct P3 as [N I A].
  destruct (AllocatorFreeBlocks_spec G HG HS bo blks a1 P1 Hne N Ht) as (a2 & E2 & F1 & F2 & F3).
  destruct (F3 P2) as [F4 F5]. exists a2. split_and!; [done..| |done]. intros x. rewrite F2, A. split.
  - intros [[? _]|Hx]; [done|by apply I].
  - intros Hx. destruct (decide (x ∈ blks)); [by right|by left].
Qed.

(** C23: a new file system.  With a superblock that names the sizes [G], [Format] of a new
    allocator on an empty file succeeds and puts these sizes in use, every block that is
    not of a bitmap is free, and [IsBlockFree] answers this after any change: [0] for a free block
    and [ERROR_FALSE] for one in use. *)
Theorem format_all_free (G G0 : geometry) (sb : CSuperBlock) {D : Type} (dev : geometry -> BlockDev D)
    {HDev : @BlockDevOk G D (dev G)} (s : D) :
  geom_ok G -> (Super.Format sb G0).1 = G -> dev_inv (BlockDevOk := HDev) s -> grp_reach (HDev := HDev) G 0 ->
  (exists a, AllocatorFormat dev sb G0 (NewAlloc s) = (G, a, STATUS_SUCCESS) /\ mem_ok G a /\
     disk_ok (HDev := HDev) G a /\ data_kept (HDev := HDev) G s (m_dev a) /\ (forall x, is_free G a x <-> data G x)) /\
  (forall (a : CBlockAllocator D) x, mem_ok G a -> data G x ->
     exists ret, AllocatorIsBlockFree (H := dev G) G x a = (a, ret) /\
       (is_free G a x /\ ret = 0 \/ taken G a x /\ ret = ERROR_FALSE)).
Proof.
  intros HG HF Hi Hr. split.
  - destruct (FormatBitmaps_spec (HDev := HDev) G HG s Hi Hr) as (a & E & H). exists a. split; [|exact H].
    unfold AllocatorFormat. destruct (Super.Format sb G0) as [G' r]. cbn [fst] in HF. subst G'. by rewrite E.
  - intros a x. by apply (AllocatorIsBlockFree_spec G HG).
Qed.

(** Reading it back.  Whenever the disk has what is in memory, which all operations keep,
    [Reload] behind the superblock gives exactly the state in memory: the bitmap of the
    groups, the bitmaps of the groups in use, and their counts. *)
Theorem reload_same (G : geometry) {D : Type} {HBD : BlockDev D} {HDev : BlockDevOk G D}
    (a : CBlockAllocator D) :
  geom_ok G -> mem_ok G a -> disk_ok G a -> ReloadBitmaps G (NewAlloc (m_dev a)) = (a, STATUS_SUCCESS).
Proof. intros HG M K. exact (ReloadBitmaps_spec G HG a M K). Qed.

(** ** Witnesses *)

(** A device in memory, with a block for every number. *)
Record ram := mkRam { r_blocks : Z -> list Z; r_groups : list Z; r_super : list Z }.
Definition ram_write (G : geometry) (x : Z) (arr : list Z) (r : ram) : ram * Z :=
  (mkRam (fun y => if (x <=? y) && (y <? x + Z.of_nat (length arr) / BLOCK_SIZE G)
                   then sub_block G arr (y - x) else r_blocks r y) (r_groups r) (r_super r), 0).

Definition ram_dev (G : geometry) : BlockDev ram := {|
  dev_write := ram_write G;
  dev_read := fun x n r => (concat (map (r_blocks r) (seqZ x n)), 0);
  dev_save := fun arr r => (mkRam (r_blocks r) arr (r_super r), 0);
  dev_load := fun r => (r_groups r, 0);
  dev_save_super := fun arr r => (mkRam (r_blocks r) (r_groups r) arr, 0);
  dev_load_super := fun r => (r_super r, 0);
|}.
#[local] Instance ex_dev : BlockDev ram := ram_dev (ex_geom true).

#[local] Instance ram_ok : BlockDevOk (ex_geom true) ram.
Proof.
  refine (Build_BlockDevOk (ex_geom true) ram _ (fun _ => True) (fun _ => True) r_blocks r_groups _ _ _ _).
  - intros s x n arr _ Hn _ Hl. cbn [dev_write ex_dev ram_dev ram_write fst snd r_groups r_blocks].
    split_and!; [done|done|done|]. intros y _. rewrite Hl, Z.div_mul by (vm_compute; discriminate). done.
  - intros s x n _ _ _. by split.
  - intros s arr _ _. by split_and!.
  - intros s _ _. by split.
Defined.

Definition ex_ram : ram := mkRam (fun _ => []) [] [].
Definition ex_fs : CBlockAllocator ram := (FormatBitmaps (ex_geom true) (NewAlloc ex_ram)).1.

Lemma ex_inv (s : ram) : dev_inv s.
Proof. exact I. Qed.

Lemma ex_reach g : grp_reach (ex_geom true) (D := ram) g.
Proof. intros i _. exact I. Qed.

Lemma ex_fs_ok : mem_ok (ex_geom true) ex_fs /\ disk_ok (ex_geom true) ex_fs.
Proof.
  destruct (FormatBitmaps_spec (ex_geom true) (ex_geom_ok true) ex_ram (ex_inv ex_ram) (ex_reach 0)) as (a & E & H1 & H2 & _).
  unfold ex_fs. rewrite E. by split.
Qed.

Lemma ex_in_reach a : in_reach (ex_geom true) (D := ram) a.
Proof. intros g _ _. apply ex_reach. Qed.

(** Ten blocks: eight from the first free byte, and two from the next word. *)
Definition ex_alloc10 := AllocatorAllocBlocks (ex_geom true) 10 ex_fs.

Example ex_blocks : match ex_alloc10 with Some (_, blks, ret) => (blks, ret) | None => ([], 1) end =
  ([16; 17; 18; 19; 20; 21; 22; 23; 64; 65], 0).
Proof. vm_compute. reflexivity. Qed.

Lemma alloc_spec_witness :
  exists a' blks ret, ex_alloc10 = Some (a', blks, ret) /\ mem_ok (ex_geom true) a' /\ NoDup blks.
Proof.
  destruct ex_fs_ok as [M K].
  destruct (alloc_spec (ex_geom true) ex_fs 10 (ex_geom_ok true) eq_refl M K ltac:(lia)) as (a' & blks & ret & E & H).
  destruct (H (ex_in_reach a')) as (H1 & _ & _ & H4 & _). exists a', blks, ret. split; [exact E|]. split; [exact H1|exact H4].
Defined.

Lemma alloc_free_inverse_witness :
  exists a1 blks a2, AllocatorFreeBlocks (ex_geom true) true (net_order true blks) a1 = (a2, STATUS_SUCCESS) /\
    (forall x, is_free (ex_geom true) a2 x <-> is_free (ex_geom true) ex_fs x).
Proof.
  destruct ex_fs_ok as [M K]. pose proof ex_blocks as HB.
  destruct ex_alloc10 as [[[a1 blks] ret]|] eqn:E; [|discriminate HB]. injection HB as Hb Hr.
  destruct (alloc_free_inverse (ex_geom true) ex_fs a1 10 ret blks true (ex_geom_ok true) eq_refl M K ltac:(lia) E
    (ex_in_reach a1)) as (_ & a2 & H1 & _ & _ & H2 & _).
  - rewrite Hb. discriminate.
  - exists a1, blks, a2. split; [exact H1|exact H2].
Defined.

Lemma format_all_free_witness :
  exists a : CBlockAllocator ram,
    AllocatorFormat ram_dev Super.NewSuperBlock (mkGeom 1024 8192 true) (NewAlloc ex_ram) =
      (ex_geom true, a, STATUS_SUCCESS) /\ mem_ok (ex_geom true) a.
Proof.
  destruct (format_all_free (ex_geom true) (mkGeom 1024 8192 true) Super.NewSuperBlock ram_dev ex_ram
    (ex_geom_ok true) eq_refl (ex_inv ex_ram) (ex_reach 0)) as [(a & E & H & _) _].
  exists a. split; [exact E|exact H].
Defined.

Lemma reload_same_witness : ReloadBitmaps (ex_geom true) (NewAlloc (m_dev ex_fs)) = (ex_fs, STATUS_SUCCESS).
Proof.
  destruct ex_fs_ok as [M K]. exact (reload_same (ex_geom true) ex_fs (ex_geom_ok true) M K).
Defined.
