(* ===== verification/BlkDisk.v ===== *)
(** * The allocator on the block cache

    [BlkAlloc] asks for a device that keeps blocks.  The calls of [BlkCache] on the
    cache and the file are one, in safe mode, when the bitmap of the groups has the
    size of a block; the theorems about the allocator then hold for the file.  The
    superblock has a place of its own: it stays what the last [Flush] made it, and
    a start that reads the file takes the sizes from it. *)

From Stdlib Require Import ZArith Lia Sorted.
From S2P Require Import Prelude Buffer TaskGroup BlkBitmap BlkCache BlkStore BlkRefine BlkSuper BlkAlloc.
Import Super (CSuperBlock, m_dwMagic, names).
Local Open Scope rpcf_scope.

(** ** The calls on arrays *)

(** An array as memory, and bytes of memory as an array. *)
Definition mem_of (arr : list Z) : mem := fun p => default 0 (arr !! Z.to_nat p).
Definition list_of (buf : mem) (n : Z) : list Z := map buf (seqZ 0 n).

(** What is in memory that was not written to. *)
Definition fresh : mem := fun _ => - 1.

Section Calls.
Context (G : geometry) (io : Z -> Z -> Z) (now : Z).

(** [WriteBlock] for one block, [WriteBlocks] with [bContigous] for more. *)
Definition disk_write (x : Z) (arr : list Z) (s : cache) : cache * Z :=
  let n := Z.of_nat (length arr) / BLOCK_SIZE G in
  match (if n =? 1 then WriteBlock G io now x (mem_of arr) s
         else ReadWriteBlocks G io now false (seqZ x n) n (mem_of arr) true s) with
  | Ret (_, s, ret) => (s, ret)
  | _ => (s, ERROR_FAIL)
  end.

Definition disk_read (x n : Z) (s : cache) : list Z * Z :=
  match ReadWriteBlocks G io now true (seqZ x n) n fresh true s with
  | Ret (buf, _, ret) => (list_of buf (n * BLOCK_SIZE G), ret)
  | _ => ([], ERROR_FAIL)
  end.

Definition disk_save (arr : list Z) (s : cache) : cache * Z :=
  match SaveGroupBitmap G io now (mem_of arr) (GRPBMP_SIZE G) s with
  | Ret (s, ret) => (s, ret)
  | _ => (s, ERROR_FAIL)
  end.

Definition disk_load (s : cache) : list Z * Z :=
  let '(buf, ret) := LoadGroupBitmap G io fresh (GRPBMP_SIZE G) s in (list_of buf (GRPBMP_SIZE G), ret).

Definition disk_save_super (arr : list Z) (s : cache) : cache * Z :=
  match SaveSuperBlock G io now (mem_of arr) (BLOCK_SIZE G) s with
  | Ret (s, ret) => (s, ret)
  | _ => (s, ERROR_FAIL)
  end.

Definition disk_load_super (s : cache) : list Z * Z :=
  let '(buf, ret) := LoadSuperBlock G io fresh (BLOCK_SIZE G) s in (list_of buf (BLOCK_SIZE G), ret).

Definition cache_dev : BlockDev cache :=
  {| dev_write := disk_write; dev_read := disk_read; dev_save := disk_save; dev_load := disk_load;
     dev_save_super := disk_save_super; dev_load_super := disk_load_super |}.
End Calls.

(** ** What the cache and the file have *)

Definition byte_at (G : geometry) (s : cache) (a : Z) : Z :=
  default (- 1) (visible G (m_mapDirtyBlks s) (m_file s) a).
Definition key_bytes (G : geometry) (s : cache) (k : Z) : list Z :=
  map (fun o => byte_at G s (addr G k + o)) (seqZ 0 (key_size G k)).
Definition cache_inv (G : geometry) (s : cache) : Prop := entries G 0 (m_mapDirtyBlks s) /\ 0 <= f_len (m_file s).

(** The superblock that was flushed, if one was. *)
Definition has_super (G : geometry) (sup : option CSuperBlock) (s : cache) : Prop :=
  match sup with Some sb => names G sb /\ key_bytes G s SB_IDX = Super.Flush G sb | None => True end.

Section Dev.
Context (G : geometry) (HG : geom_ok G) (HS : IsSafeMode G = true) (HN : GRPBMP_SIZE G = BLOCK_SIZE G).
Context (io : Z -> Z -> Z) (Hio : io_ok io) (now : Z).

Lemma key_bytes_ext s s' k :
  (forall o, 0 <= o < key_size G k -> byte_at G s' (addr G k + o) = byte_at G s (addr G k + o)) ->
  key_bytes G s' k = key_bytes G s k.
Proof.
  intros H. unfold key_bytes. apply list_fmap_ext. intros i o Ho. apply list_elem_of_lookup_2, elem_of_seqZ in Ho.
  apply H. lia.
Qed.

Lemma sub_block_bytes arr p n :
  Z.of_nat (length arr) = n * BLOCK_SIZE G -> 0 <= p < n ->
  map (fun o => mem_of arr (p * BLOCK_SIZE G + o)) (seqZ 0 (BLOCK_SIZE G)) = sub_block G arr p.
Proof.
  intros Hl Hp. destruct (geom_bounds G HG) as (HB & _). unfold sub_block. apply list_eq. intros i.
  change (map ?f ?l) with (f <$> l). rewrite list_lookup_fmap. destruct (decide (i < Z.to_nat (BLOCK_SIZE G))%nat) as [Hi|Hi].
  - rewrite lookup_seqZ_lt by lia. rewrite lookup_take_lt, lookup_drop by lia. cbn [fmap option_fmap option_map].
    unfold mem_of. replace (Z.to_nat (p * BLOCK_SIZE G + (0 + Z.of_nat i))) with (Z.to_nat (p * BLOCK_SIZE G) + i)%nat by nia.
    destruct (lookup_lt_is_Some_2 arr (Z.to_nat (p * BLOCK_SIZE G) + i)) as [v ->]; [nia|done].
  - rewrite lookup_seqZ_ge by lia. rewrite lookup_take_ge by lia. done.
Qed.

Lemma mem_of_all arr n : Z.of_nat (length arr) = n -> map (mem_of arr) (seqZ 0 n) = arr.
Proof.
  intros Hl. apply list_eq. intros i. change (map ?f ?l) with (f <$> l). rewrite list_lookup_fmap.
  destruct (decide (i < length arr)%nat) as [Hi|Hi].
  - rewrite lookup_seqZ_lt by lia. cbn [fmap option_fmap option_map]. unfold mem_of.
    rewrite Z.add_0_l, Nat2Z.id. by destruct (lookup_lt_is_Some_2 arr i Hi) as [v ->].
  - rewrite lookup_seqZ_ge, lookup_ge_None_2 by lia. done.
Qed.

(** Both ways of writing are a write of the run. *)
Lemma disk_write_call x arr n s :
  cache_inv G s -> 0 < n <= BLKBMP_BLKNUM G -> (forall y, x <= y < x + n -> valid_blk G y) ->
  Z.of_nat (length arr) = n * BLOCK_SIZE G ->
  exists s' ret, disk_write G io now x arr s = (s', ret) /\ ERROR ret = false /\ cache_inv G s' /\
    m_file s' = m_file s /\
    (forall y o, x <= y < x + n -> 0 <= o < BLOCK_SIZE G ->
       cached G (m_mapDirtyBlks s') (addr G y + o) = Some (mem_of arr ((y - x) * BLOCK_SIZE G + o))) /\
    (forall a, (forall y o, x <= y < x + n -> 0 <= o < BLOCK_SIZE G -> a <> addr G y + o) ->
       cached G (m_mapDirtyBlks s') a = cached G (m_mapDirtyBlks s) a).
Proof.
  intros [H1 H2] Hn Hv Hl. destruct (geom_bounds G HG) as (HB & HC & HM). unfold BLKBMP_SIZE in HM.
  change (BLOCKS_PER_GROUP_FULL / BYTE_BITS) with 8192 in HM. unfold disk_write. rewrite Hl, Z.div_mul by lia.
  assert (exists l c, request l n c = seqZ x n /\ (if n =? 1 then WriteBlock G io now x (mem_of arr) s
      else ReadWriteBlocks G io now false (seqZ x n) n (mem_of arr) true s) =
      (let! (s', ret) := CacheBlocks G now l n (mem_of arr) c s in Ret (mem_of arr, s', ret))) as (l & c & Hreq & ->).
  { destruct (Z.eqb_spec n 1) as [->|Hne].
    - exists [x], false. split; [by rewrite seqZ_one|]. unfold WriteBlock.
      destruct (valid_max G HG x) as [_ Hh]; [apply Hv; lia|]. unfold not_hole in Hh.
      destruct (Z.eqb_spec x INVALID_BLOCK_IDX); [done|]. unfold ReadWriteBlocks. by rewrite HS.
    - exists (seqZ x n), true. split.
      + unfold request. assert (head (seqZ x n) = Some x) as -> by (by rewrite seqZ_cons by lia). done.
      + unfold ReadWriteBlocks. destruct (Z.eqb_spec n 0); [lia|]. by rewrite HS. }
  assert (write_ok G (request l n c) n) as Hw.
  { rewrite Hreq. split; [|split; [|apply NoDup_seqZ]].
    - split; [lia|unfold MAX_BUFFER; nia|rewrite length_seqZ; lia].
    - apply Forall_forall. intros y Hy. apply elem_of_seqZ in Hy. apply Hv. lia. }
  destruct (CacheBlocks_write G HG now l n (mem_of arr) c s H1 Hw) as (s' & -> & C1 & C2 & C3 & C4).
  cbn [obind]. exists s', (n * BLOCK_SIZE G). rewrite Hreq in *.
  split; [done|]. split; [apply Z.ltb_ge; nia|]. split; [split; [done|by rewrite C2]|]. split; [done|]. split.
  - intros y o Hy Ho. apply C3; [|lia|done]. rewrite lookup_seqZ_lt by lia. f_equal. lia.
  - intros a Ha. apply C4. intros k o Hk. apply elem_of_seqZ in Hk. apply Ha. lia.
Qed.

Lemma byte_at_cached s s' a :
  m_file s' = m_file s -> cached G (m_mapDirtyBlks s') a = cached G (m_mapDirtyBlks s) a ->
  byte_at G s' a = byte_at G s a.
Proof. intros E1 E2. unfold byte_at, visible. by rewrite E1, E2. Qed.

Lemma cache_write_ok s x n arr :
  cache_inv G s -> 0 < n <= BLKBMP_BLKNUM G -> (forall y, x <= y < x + n -> valid_blk G y) ->
  Z.of_nat (length arr) = n * BLOCK_SIZE G ->
  cache_inv G (disk_write G io now x arr s).1 /\ ERROR (disk_write G io now x arr s).2 = false /\
  key_bytes G (disk_write G io now x arr s).1 GB_IDX = key_bytes G s GB_IDX /\
  key_bytes G (disk_write G io now x arr s).1 SB_IDX = key_bytes G s SB_IDX /\
  (forall y, valid_blk G y -> key_bytes G (disk_write G io now x arr s).1 y =
     (if (x <=? y) && (y <? x + n) then sub_block G arr (y - x) else key_bytes G s y)).
Proof.
  intros Hi Hn Hv Hl. destruct (disk_write_call x arr n s Hi Hn Hv Hl) as (s' & ret & E & H1 & H2 & H3 & H4 & H5).
  rewrite E. cbn [fst snd].
  assert (Hother : forall k, key_ok G k -> ~ (x <= k < x + n) -> key_bytes G s' k = key_bytes G s k).
  { intros k Hk Hne. apply key_bytes_ext. intros o Ho. apply byte_at_cached; [done|]. apply H5. intros y o' Hy Ho' Ea.
    destruct (key_addr_inj G HG k y o o') as [-> _]; [done|left; by apply Hv|done| |done|done].
    rewrite (key_size_blk G HG); [done|by apply Hv]. }
  destruct idx_vals as (X1 & X2 & X3). split; [done|]. split; [done|]. split_and!.
  - apply Hother; [by right; left|]. intros Hb. destruct (valid_max G HG GB_IDX (Hv _ Hb)) as [Hm _]. lia.
  - apply Hother; [by right; right|]. intros Hb. destruct (valid_max G HG SB_IDX (Hv _ Hb)) as [Hm _]. lia.
  - intros y Hy. destruct (Z.leb_spec x y), (Z.ltb_spec y (x + n)); cbn [andb];
      try (apply Hother; [by left|lia]).
    rewrite <- (sub_block_bytes arr (y - x) n Hl) by lia. unfold key_bytes. rewrite (key_size_blk G HG) by done.
    apply list_fmap_ext. intros i o Ho. apply list_elem_of_lookup_2, elem_of_seqZ in Ho.
    unfold byte_at, visible. rewrite H4 by lia. done.
Qed.

Lemma cache_read_ok s x n :
  cache_inv G s -> 0 < n <= BLKBMP_BLKNUM G -> (forall y, x <= y < x + n -> valid_blk G y) ->
  (disk_read G io now x n s).1 = concat (map (key_bytes G s) (seqZ x n)) /\ ERROR (disk_read G io now x n s).2 = false.
Proof.
  intros [H1 H2] Hn Hv. destruct (geom_bounds G HG) as (HB & HC & HM). unfold BLKBMP_SIZE in HM.
  change (BLOCKS_PER_GROUP_FULL / BYTE_BITS) with 8192 in HM.
  assert (request (seqZ x n) n true = seqZ x n) as Hreq.
  { unfold request. assert (head (seqZ x n) = Some x) as -> by (by rewrite seqZ_cons by lia). done. }
  assert (read_ok G (request (seqZ x n) n true) n true) as Hr.
  { rewrite Hreq. assert (Forall (valid_blk G) (seqZ x n)) as Hall.
    { apply Forall_forall. intros y Hy. apply elem_of_seqZ in Hy. apply Hv. lia. }
    split; [|split; [|split; [apply NoDup_filter, NoDup_seqZ|done]]].
    - split; [lia|unfold MAX_BUFFER; nia|rewrite length_seqZ; lia].
    - eapply Forall_impl; [exact Hall|]. intros y Hy. by left. }
  destruct (ReadCache_spec G HG io Hio (seqZ x n) n fresh true s H1 Hr) as (buf & ret & E & Hret & Hbuf).
  unfold disk_read, ReadWriteBlocks. destruct (Z.eqb_spec n 0); [lia|]. rewrite HS, E. cbn [fst snd].
  split; [|by apply Z.ltb_ge]. rewrite Hreq in Hbuf. unfold list_of.
  assert (forall m : nat, Z.of_nat m <= n -> map buf (seqZ 0 (Z.of_nat m * BLOCK_SIZE G)) =
    concat (map (key_bytes G s) (seqZ x (Z.of_nat m)))) as Hm; [|specialize (Hm (Z.to_nat n) ltac:(lia)); by rewrite Z2Nat.id in Hm by lia].
  induction m as [|m IH]; intros Hm; [done|]. rewrite seqZ_S, map_app, concat_app, <- IH by lia.
  replace (Z.of_nat (S m) * BLOCK_SIZE G) with (Z.of_nat m * BLOCK_SIZE G + BLOCK_SIZE G) by lia.
  rewrite seqZ_app, map_app by lia. f_equal. cbn [map concat]. rewrite app_nil_r. unfold key_bytes.
  pose proof (Hv (x + Z.of_nat m) ltac:(lia)) as Hval. rewrite (key_size_blk G HG) by done. rewrite Z.add_0_l.
  rewrite <- (Z.add_0_r (Z.of_nat m * BLOCK_SIZE G)) at 1. rewrite <- fmap_add_seqZ.
  change (map ?f ?l) with (f <$> l). rewrite <- list_fmap_compose. apply list_fmap_ext. intros i o Ho.
  apply list_elem_of_lookup_2, elem_of_seqZ in Ho. unfold compose.
  destruct (Hbuf (Z.of_nat m) o ltac:(lia) ltac:(lia)) as (k & Hk & ->).
  rewrite lookup_seqZ_lt in Hk by lia. injection Hk as <-. rewrite Z2Nat.id by lia.
  rewrite decide_True by (by apply (valid_max G HG)). done.
Qed.

Lemma cache_save_ok s arr :
  cache_inv G s -> Z.of_nat (length arr) = GRPBMP_SIZE G ->
  cache_inv G (disk_save G io now arr s).1 /\ ERROR (disk_save G io now arr s).2 = false /\
  key_bytes G (disk_save G io now arr s).1 GB_IDX = arr /\
  (forall y, valid_blk G y \/ y = SB_IDX -> key_bytes G (disk_save G io now arr s).1 y = key_bytes G s y).
Proof.
  intros [H1 H2] Hl. destruct idx_vals as (X1 & X2 & X3). destruct (geom_bounds G HG) as (HB & HC & HM).
  unfold disk_save, SaveGroupBitmap. rewrite Z.ltb_irrefl, HS. unfold CacheBlocks.
  assert (default 0 (head [GB_IDX]) = GB_IDX) as -> by done.
  set (s1 := match m_mapDirtyBlks s with [] => set_start now s | _ => s end).
  assert (m_mapDirtyBlks s1 = m_mapDirtyBlks s /\ m_file s1 = m_file s) as [Es1 Ef1].
  { unfold s1. destruct (m_mapDirtyBlks s) eqn:E; (split; [exact E|done]). }
  change (GB_IDX =? SB_IDX) with false. change (GB_IDX =? GB_IDX) with true. cbn match. cbn [obind fst snd].
  rewrite Es1. set (d := m_mapDirtyBlks s) in *. set (b := mkBuf (GRPBMP_SIZE G) (mem_of arr)).
  assert (entries G 0 (assign_blk GB_IDX b d)) as Hd' by (apply (assign_special G HG); [by right|lia|done]).
  set (s' := set_dirty _ s1). assert (m_file s' = m_file s) as Ef by exact Ef1.
  assert (Hc : forall a, cached G (m_mapDirtyBlks s') a =
    if decide (in_entry G (GB_IDX, b) a) then Some (mem_of arr (a - addr G GB_IDX)) else cached G d a).
  { intros a. apply (cached_update G HG 0 0 GB_IDX b d); [exact H1|exact Hd'|intros e; exact (elem_of_assign G HG 0 GB_IDX b d e H1)|].
    intros e He Hke. rewrite (special_size G HG 0 d e) by (done || (rewrite Hke; lia)). by rewrite Hke. }
  split; [split; [done|by rewrite Ef]|]. split; [done|]. split.
  - unfold key_bytes, key_size. change (GB_IDX =? GB_IDX) with true. cbn match.
    transitivity (map (mem_of arr) (seqZ 0 (GRPBMP_SIZE G))); [|by apply mem_of_all]. apply list_fmap_ext. intros i o Ho.
    apply list_elem_of_lookup_2, elem_of_seqZ in Ho. unfold byte_at, visible.
    rewrite Hc, decide_True by (unfold in_entry; cbn [fst snd b d_size]; lia). cbn [default from_option]. unfold id. f_equal. lia.
  - intros y Hy. apply key_bytes_ext. intros o Ho. apply byte_at_cached; [done|]. rewrite Hc, decide_False; [done|].
    unfold in_entry. cbn [fst snd b d_size]. intros Hin.
    destruct (key_addr_inj G HG y GB_IDX o (addr G y + o - addr G GB_IDX)) as [-> _].
    + destruct Hy; [by left|by right; right].
    + by right; left.
    + done.
    + unfold key_size. change (GB_IDX =? GB_IDX) with true. cbn match. lia.
    + lia.
    + destruct Hy as [Hy|Hy]; [destruct (valid_max G HG _ Hy)|]; lia.
Qed.

Lemma cache_load_ok s :
  cache_inv G s -> (disk_load G io s).1 = key_bytes G s GB_IDX /\ ERROR (disk_load G io s).2 = false.
Proof.
  intros [H1 H2]. destruct idx_vals as (X1 & X2 & X3). destruct (base_bounds G HG) as (B1 & B2 & B3).
  unfold disk_load, LoadGroupBitmap. rewrite Z.ltb_irrefl, HS. unfold ReadCache.
  assert (default 0 (head [GB_IDX]) = GB_IDX) as -> by done.
  change (GB_IDX =? SB_IDX) with false. change (GB_IDX =? GB_IDX) with true. cbn [orb].
  assert (bytes_of G 1 = GRPBMP_SIZE G) as Hn by (rewrite (bytes_of_small G HG); lia). rewrite Hn.
  set (d := m_mapDirtyBlks s) in *. set (f := m_file s) in *.
  assert (key_size G GB_IDX = GRPBMP_SIZE G /\ addr G GB_IDX = BLOCK_SIZE G) as [K1 K2] by done.
  destruct (find_blk GB_IDX d) as [b|] eqn:Ef; unfold ReadFile; rewrite ?Hio; cbn [fst snd].
  - assert (ERROR 0 = false) by done. split; [|done]. apply (find_some G HG) in Ef.
    assert (d_size b = GRPBMP_SIZE G) as Hb.
    { rewrite <- K1. apply (special_size G HG 0 d (GB_IDX, b) H1 Ef). cbn [fst]. lia. }
    unfold list_of, key_bytes. rewrite K1. apply list_fmap_ext. intros i o Ho.
    apply list_elem_of_lookup_2, elem_of_seqZ in Ho. unfold byte_at, visible. fold d.
    rewrite (cached_in G HG 0 d (GB_IDX, b)) by (done || (unfold in_entry; cbn [fst snd]; lia)).
    cbn [default from_option fst snd]. unfold id, blit. rewrite Hb.
    destruct (Z.leb_spec 0 o), (Z.ltb_spec o (0 + Z.min (GRPBMP_SIZE G) (GRPBMP_SIZE G))); try lia.
    cbn [andb]. f_equal. lia.
  - change (ERROR 0) with false. cbn match. cbn [fst snd]. split; [|apply Z.ltb_ge; lia].
    unfold list_of, key_bytes. rewrite K1. apply list_fmap_ext. intros i o Ho.
    apply list_elem_of_lookup_2, elem_of_seqZ in Ho. unfold byte_at, visible. fold d. rewrite K2.
    assert (cached G d (BLOCK_SIZE G + o) = None) as ->.
    { apply (cached_none G HG). intros [k b] He Hin. destruct (entries_in G HG _ _ _ H1 He) as [_ Hok].
      destruct (in_special_entry G HG _ _ Hok Hin) as [[Ek _]|[_ ?]]; [lia| |lia]. cbn [fst] in Ek. subst k.
      rewrite (find_in G HG 0 _ _ _ H1 He) in Ef. done. }
    unfold file_read, on_disk, fresh. fold f.
    destruct (Z.leb_spec 0 o), (Z.ltb_spec o (GRPBMP_SIZE G)); try lia. cbn [andb].
    by destruct (BLOCK_SIZE G + o <? f_len f).
Qed.

(** The cache and the file are a device; within reach are the blocks whose
    addresses have 32 bits.  The superblock stays what it is. *)
Definition dev_inv_of (sup : option CSuperBlock) (s : cache) : Prop := cache_inv G s /\ has_super G sup s.

Lemma has_super_same sup s s' :
  key_bytes G s' SB_IDX = key_bytes G s SB_IDX -> has_super G sup s -> has_super G sup s'.
Proof. intros E. unfold has_super. destruct sup; [by rewrite E|done]. Qed.

Definition cache_dev_ok (sup : option CSuperBlock) : @BlockDevOk G cache (cache_dev G io now).
Proof.
  refine (Build_BlockDevOk G cache (cache_dev G io now) (dev_inv_of sup) (valid_blk G) (key_bytes G)
    (fun s => key_bytes G s GB_IDX) _ _ _ (fun s Hs _ => cache_load_ok s (proj1 Hs))).
  - intros s x n arr [Hs Hp] Hn Hv Hl. destruct (cache_write_ok s x n arr Hs Hn Hv Hl) as (H1 & H2 & H3 & H4 & H5).
    split; [|done]. split; [done|]. by apply (has_super_same sup s).
  - intros s x n [Hs _]. by apply cache_read_ok.
  - intros s arr [Hs Hp] Hl. destruct (cache_save_ok s arr Hs Hl) as (H1 & H2 & H3 & H4).
    split; [split; [done|]|].
    + apply (has_super_same sup s); [by apply H4; right|done].
    + split_and!; [done..|]. intros y Hy. apply H4. by left.
Defined.
End Dev.

(** ** A file system in use *)

Abbreviation alloc := (CBlockAllocator cache).

(** The calls that are not the allocator's: they leave the bitmaps and the superblock
    alone, which only [Flush] saves. *)
Definition spares (G : geometry) (o : op) : Prop :=
  op_ok G o /\
  match o with
  | OpWrite _ bl n _ c => forall x, x ∈ request bl n c -> data G x
  | OpSaveSuperBlock _ _ _ | OpSaveGroupBitmap _ _ _ => False
  | _ => True
  end.

Definition with_dev (a : alloc) (s : cache) : alloc := mkAlloc (m_pGroupBitmap a) (m_mapBlkGrps a) s.

(** The groups in use have addresses of 32 bits. *)
Definition addressable (G : geometry) (a : alloc) : Prop :=
  forall g i, 0 <= g < BLKGRP_NUMBER G -> used a g -> 0 <= i < BLKBMP_BLKNUM G -> valid_blk G (g * 2 ^ 16 + i).

(** A step: an allocation, giving blocks back, a [Flush] with a superblock that names the
    sizes in use, or a call of the cache; every step has a clock of its own. *)
Inductive fs_step (G : geometry) (io : Z -> Z -> Z) : alloc -> alloc -> Prop :=
  | fs_alloc now n a a' blks ret :
      0 < n -> AllocatorAllocBlocks (H := cache_dev G io now) G n a = Some (a', blks, ret) -> addressable G a' ->
      fs_step G io a a'
  | fs_free now bo blks a a' ret :
      blks <> [] -> NoDup blks -> (forall x, x ∈ blks -> taken G a x) ->
      AllocatorFreeBlocks (H := cache_dev G io now) G bo (net_order bo blks) a = (a', ret) -> fs_step G io a a'
  | fs_flush now sb ret_fsync a a' ret :
      names G sb -> AllocatorFlush (fun G => cache_dev G io now) G sb ret_fsync a = (a', ret) -> fs_step G io a a'
  | fs_call o a s : spares G o -> exec G io o (m_dev a) = Ret s -> fs_step G io a (with_dev a s).

Lemma group0_valid G i : geom_ok G -> 0 <= i < BLKBMP_BLKNUM G -> valid_blk G (0 * 2 ^ 16 + i).
Proof.
  intros HG Hi. destruct (alloc_bounds G HG) as (B1 & B2 & B3). destruct (base_bounds G HG) as (C1 & C2 & C3).
  unfold BLKGRP_NUMBER, BYTE_BITS in B3. split; [unfold BLOCKS_PER_GROUP_FULL; nia|]. split; [|nia].
  rewrite Z.mod_small; lia.
Qed.

Section Use.
Context (G : geometry) (HG : geom_ok G) (HS : IsSafeMode G = true) (HN : GRPBMP_SIZE G = BLOCK_SIZE G).
Context (io : Z -> Z -> Z) (Hio : io_ok io).
Abbreviation dok sup now := (cache_dev_ok G HG HS HN io Hio now sup).

(** What an order of the disk says, whatever the clock. *)
Record fs_ok (sup : option CSuperBlock) (a : alloc) : Prop := mkFsOk {
  fo_mem : mem_ok G a;
  fo_disk : forall now, disk_ok (HDev := dok sup now) G a;
}.

Lemma disk_ok_now sup now now' a : disk_ok (HDev := dok sup now) G a -> disk_ok (HDev := dok sup now') G a.
Proof. intros [[K1 K2] K3 K4]. split; [split; [exact K1|exact K2]|exact K3|exact K4]. Qed.

(** What is seen of the cache, as a store. *)
Definition seen (s : cache) : store := fun k o => visible G (m_mapDirtyBlks s) (m_file s) (addr G k + o).

Lemma seen_refines s : cache_inv G s -> refines G (seen s) s.
Proof. intros [H1 H2]. split; [done|]. split; [done|]. intros k o v _ _ H. exact H. Qed.

(** Bytes that are known stay what they are. *)
Lemma disk_kept_bytes A s s' k :
  key_ok G k -> (forall o v, 0 <= o < key_size G k -> seen s k o = Some v -> A k o = Some v) -> refines G A s' ->
  Forall byte (key_bytes G s k) -> key_bytes G s' k = key_bytes G s k.
Proof.
  intros Hk HA (R1 & R2 & R3) Hb. apply (key_bytes_ext G s s' k). intros o Ho. unfold byte_at.
  rewrite Forall_forall in Hb. specialize (Hb (byte_at G s (addr G k + o))). unfold byte_at in Hb.
  destruct (visible G (m_mapDirtyBlks s) (m_file s) (addr G k + o)) as [v|] eqn:Ev.
  - rewrite (R3 k o v Hk Ho); [done|by apply HA].
  - exfalso. cbn [default from_option] in Hb. unfold byte in Hb. enough (0 <= -1 < 256) by lia. apply Hb.
    unfold key_bytes. apply list_elem_of_fmap. exists o. split; [unfold byte_at; by rewrite Ev|apply elem_of_seqZ; lia].
Qed.

(** Where the bitmaps are. *)
Definition bitmap_key (k : Z) : Prop :=
  k = GB_IDX \/ (exists g i, 0 <= i < BLKBMP_BLKNUM G /\ k = g * 2 ^ 16 + i).

(** A change of the cache that spares the bitmaps. *)
Lemma fs_ok_dev sup sup' A a s' :
  fs_ok sup a -> refines G A s' ->
  (forall k o v, bitmap_key k -> 0 <= o < key_size G k -> seen (m_dev a) k o = Some v -> A k o = Some v) ->
  has_super G sup' s' -> fs_ok sup' (with_dev a s').
Proof.
  intros [M K] HR HA Hsup. pose proof M as [M1 M2 M3 M4]. split; [by split|]. intros now. destruct (K now) as [[K1 K2] K3 K4].
  assert (cache_inv G s') as Hi' by (destruct HR as (R1 & R2 & _); by split).
  split; [split; [by split|]| |exact K4].
  - intros e He. cbn [m_mapBlkGrps m_dev with_dev] in *. destruct (K2 e He) as [Kr Ks]. split; [exact Kr|].
    rewrite Forall_forall in M3. pose proof (M3 e He) as Hok. destruct (alloc_bounds G HG) as (B1 & B2 & B3).
    eapply saved_ext; [|exact Ks]. intros i Hi. rewrite (entry_block_no G e i Hok) by lia.
    change (dev_bytes (BlockDevOk := dok ?p now) ?s ?y) with (key_bytes G s y).
    assert (valid_blk G (e.1 * 2 ^ 16 + i)) as Hv by (apply Kr; lia).
    apply (disk_kept_bytes A); [by left| |done|].
    + intros o v Ho Hv'. apply HA; [right; exists e.1, i; by split|done|done].
    + pose proof (sv_shown _ _ _ Ks i Hi) as Hsh. rewrite (entry_block_no G e i Hok) in Hsh by lia.
      change (dev_bytes (BlockDevOk := dok ?p now) ?s ?y) with (key_bytes G s y) in Hsh. rewrite Hsh.
      unfold sub_block. apply Forall_take, Forall_drop, (sv_bytes _ _ _ Ks).
  - cbn [m_dev m_pGroupBitmap with_dev]. change (dev_groups (BlockDevOk := dok ?p now) ?s) with (key_bytes G s GB_IDX) in *.
    rewrite <- K3. apply (disk_kept_bytes A); [by right; left| |done|rewrite K3; apply M1].
    intros o v Ho Hv'. apply HA; [by left|done|done].
Qed.

(** A superblock that was flushed stays known. *)
Lemma super_kept sup A s s' :
  has_super G sup s -> refines G A s' -> (forall o v, seen s SB_IDX o = Some v -> A SB_IDX o = Some v) ->
  has_super G sup s'.
Proof.
  destruct sup as [sb|]; [|done]. intros [Hn Hb] HR HA. split; [done|]. rewrite <- Hb.
  apply (disk_kept_bytes A); [by right; right|intros o v _; apply HA|done|]. rewrite Hb. by apply Super.Flush_bytes.
Qed.

Lemma spares_spec o s k x v :
  spares G o -> bitmap_key k \/ k = SB_IDX -> seen s k x = Some v -> spec G o (seen s) k x = Some v.
Proof.
  destruct (alloc_bounds G HG) as (B1 & B2 & B3). destruct idx_vals as (X1 & X2 & X3).
  intros [Ho Hsp] Hk Hv. destruct o as [now bl n p c|now p n|now p n| | | | |]; cbn [spec]; try done.
  unfold put_blocks. pose proof (place_spec k 0 (request bl n c)) as Hp.
  destruct (place k 0 (request bl n c)) as [q|]; [|done]. exfalso. destruct Hp as [_ Hp].
  apply list_elem_of_lookup_2, Hsp in Hp as (g & j & E & Hg & Hj).
  destruct Hk as [[->|(g' & i & Hi & ->)]| ->]; lia.
Qed.

Lemma not_two : GRPBMP_BLKNUM G <> 2.
Proof. rewrite <- (grpbmp_blknum G HG), HN, Z.div_same; [done|]. destruct (geom_bounds G HG). lia. Qed.

(** Saving the superblock. *)
Lemma super_saved sup a sb now :
  fs_ok sup a -> names G sb ->
  exists s, disk_save_super G io now (Super.Flush G sb) (m_dev a) = (s, 512) /\ fs_ok (Some sb) (with_dev a s).
Proof.
  intros Hf Hn. pose proof (od_inv _ _ _ (ko_dev _ _ (fo_disk _ _ Hf 0))) as [Hi _]. destruct idx_vals as (X1 & X2 & X3).
  pose proof (Super.Flush_length G sb HG (Super.nm_magic _ _ Hn)) as Hl. destruct (alloc_bounds G HG) as (B1 & B2 & B3).
  destruct (special_refines G HG now SB_IDX 1 (mem_of (Super.Flush G sb)) (seen (m_dev a)) (m_dev a)) as (s & E & HR);
    [by left|by apply seen_refines|].
  exists s. unfold disk_save_super, SaveSuperBlock. rewrite Z.ltb_irrefl, HS, E. split; [done|].
  apply (fs_ok_dev sup (Some sb) _ a s Hf HR).
  - intros k o v Hk Ho Hv. unfold put_key. destruct (Z.eqb_spec k SB_IDX) as [->|]; [|done].
    exfalso. destruct Hk as [Hk|(g & i & Hi' & Hk)]; lia.
  - split; [done|]. destruct HR as (_ & _ & R3). transitivity (map (mem_of (Super.Flush G sb)) (seqZ 0 (BLOCK_SIZE G)));
      [|by apply mem_of_all]. unfold key_bytes. change (key_size G SB_IDX) with (BLOCK_SIZE G). apply list_fmap_ext.
    intros i o Ho. apply list_elem_of_lookup_2, elem_of_seqZ in Ho. unfold byte_at.
    rewrite (R3 SB_IDX o (mem_of (Super.Flush G sb) o)); [done|by right; right|exact Ho|].
    unfold put_key. by rewrite Z.eqb_refl.
Qed.

Lemma flush_ok sup a sb ret_fsync now :
  fs_ok sup a -> names G sb ->
  exists s, AllocatorFlush (fun G => cache_dev G io now) G sb ret_fsync a = (with_dev a s, ret_fsync) /\
    fs_ok (Some sb) (with_dev a s).
Proof.
  intros Hf Hn. destruct (super_saved sup a sb now Hf Hn) as (s1 & E1 & [M K]).
  destruct (FlushBitmaps_spec (HDev := dok (Some sb) now) G HG (with_dev a s1) M (K now)) as (s2 & E2 & M2 & K2).
  exists s2. split.
  - unfold AllocatorFlush. change (dev_save_super ?x ?y) with (disk_save_super G io now x y). rewrite E1.
    change (ERROR 512) with false. cbn match. change (mkAlloc _ _ s1) with (with_dev a s1). by rewrite E2.
  - split; [done|]. intros now'. by apply (disk_ok_now _ now).
Qed.

(** A history without a [Flush], and one after it. *)
Lemma fs_step_ok sup a a' : fs_ok sup a -> fs_step G io a a' -> exists sup', fs_ok sup' a' /\ (sup <> None -> sup' = sup).
Proof.
  intros Hf Hs. pose proof Hf as [M K].
  destruct Hs as [now n a a' blks ret Hn E HR|now bo blks a a' ret Hne Hnd Ht E|now sb rf a a' ret Hn E|o a s Hsp E].
  - exists sup. split; [|done]. unfold AllocatorAllocBlocks in E. destruct (Z.eqb_spec n 0); [lia|].
    destruct (AllocWhile_spec (HDev := dok sup now) G HG HS (2 * Z.to_nat n + 2) n 0 a M) as (a1 & bl & r & E' & _ & _ & H2);
      [lia|done|left; lia|]. rewrite E in E'. injection E' as <- <- <-.
    destruct (H2 (K now)) as (P1 & P2 & _).
    + intros g Hg Hu i Hi. by apply HR.
    + split; [done|]. intros now'. by apply (disk_ok_now _ now).
  - exists sup. split; [|done].
    destruct (AllocatorFreeBlocks_spec (HDev := dok sup now) G HG HS bo blks a M Hne Hnd Ht) as (a1 & E' & F1 & _ & F3).
    rewrite E in E'. injection E' as <- ->. split; [done|]. intros now'. apply (disk_ok_now _ now). by apply F3.
  - exists (Some sb). destruct (flush_ok sup a sb rf now Hf Hn) as (s & E' & Hf'). rewrite E in E'. injection E' as -> ->.
    split; [exact Hf'|]. destruct sup as [sb'|]; [intros _|done].
    destruct (od_inv _ _ _ (ko_dev _ _ (K 0))) as [_ [Hn' _]]. f_equal. exact (Super.names_unique G sb' sb Hn' Hn).
  - exists sup. split; [|done]. pose proof (od_inv _ _ _ (ko_dev _ _ (K 0))) as [Hi Hsup].
    destruct (exec_refines G HG io Hio o (seen (m_dev a)) (m_dev a) HS not_two (seen_refines _ Hi)) as (s' & E' & HR); [apply Hsp|].
    rewrite E in E'. injection E' as <-. apply (fs_ok_dev sup sup (spec G o (seen (m_dev a)))); [done|done| |].
    + intros k x v Hk Hx Hv. apply spares_spec; [done|by left|done].
    + apply (super_kept sup _ (m_dev a) s Hsup HR). intros x v Hv. apply spares_spec; [done|by right|done].
Qed.

Lemma fs_steps_ok sup a a' : fs_ok sup a -> rtc (fs_step G io) a a' -> exists sup', fs_ok sup' a' /\ (sup <> None -> sup' = sup).
Proof.
  intros Hf Hr. revert sup Hf. induction Hr as [a|a b c Hs _ IH]; intros sup Hf; [by exists sup|].
  destruct (fs_step_ok sup a b Hf Hs) as (sup1 & Hf1 & E1). destruct (IH sup1 Hf1) as (sup2 & Hf2 & E2).
  exists sup2. split; [done|]. intros Hs'. specialize (E1 Hs'). subst sup1. by apply E2.
Qed.

Lemma fs_ok_commit sup a :
  fs_ok sup a -> exists s, CommitCache G io (m_dev a) = Ret (s, 0) /\
    forall t n, fs_ok sup (with_dev a (mkCache [] n t 0 false (m_file s))).
Proof.
  intros Hf. pose proof (od_inv _ _ _ (ko_dev _ _ (fo_disk _ _ Hf 0))) as [Hi Hsup].
  destruct (commit_refines G HG io Hio (seen (m_dev a)) (m_dev a) (seen_refines _ Hi)) as (s & E & Hd & HR & Hon).
  exists s. split; [done|]. intros t n.
  assert (refines G (seen (m_dev a)) (mkCache [] n t 0 false (m_file s))) as HR'.
  { destruct HR as (R1 & R2 & R3). rewrite Hd in *. by split_and!. }
  apply (fs_ok_dev sup sup (seen (m_dev a))); [done|done|done|]. by apply (super_kept sup (seen (m_dev a)) (m_dev a)).
Qed.

Lemma ztake_map (f : Z -> Z) m n : 0 <= m <= n -> ztake m (map f (seqZ 0 n)) = map f (seqZ 0 m).
Proof.
  intros Hm. unfold ztake. replace n with (m + (n - m)) by lia. rewrite seqZ_app, map_app by lia.
  apply take_app_length'. rewrite length_map, length_seqZ. lia.
Qed.

(** Loading the superblock, with any block size in use. *)
Lemma super_loaded G0 sb sb0 s n t :
  geom_ok G0 -> IsSafeMode G0 = true -> m_dwMagic sb0 = Super.magic ->
  let s' := mkCache [] n t 0 false (m_file s) in has_super G (Some sb) s' ->
  let '(arr, ret) := disk_load_super G0 io s' in Super.Reload arr ret sb0 G0 = (sb, G, STATUS_SUCCESS).
Proof.
  intros HG0 HS0 Hm s' [Hn Hb]. unfold disk_load_super, LoadSuperBlock. rewrite Z.ltb_irrefl, HS0. unfold ReadCache.
  assert (default 0 (head [SB_IDX]) = SB_IDX) as -> by done.
  change (SB_IDX =? SB_IDX) with true. change (SB_IDX =? GB_IDX) with false. cbn [orb]. cbn match.
  change (find_blk SB_IDX (m_mapDirtyBlks s')) with (@None dbuf). unfold ReadFile. rewrite !Hio. change (ERROR 0) with false. cbn match.
  destruct (geom_bounds G0 HG0) as (B1 & B2 & _). destruct (geom_bounds G HG) as (C1 & C2 & _).
  rewrite (bytes_of_small G0 HG0), Z.mul_1_r by lia.
  rewrite (Super.Reload_prefix _ (Super.Flush G sb) _ 0); [by apply Super.Reload_Flush; congruence| |apply Z.ltb_ge; lia|done].
  rewrite <- Hb. unfold list_of, key_bytes. change (key_size G SB_IDX) with (BLOCK_SIZE G).
  rewrite !ztake_map by lia. apply list_fmap_ext. intros i o Ho. apply list_elem_of_lookup_2, elem_of_seqZ in Ho.
  unfold file_read, byte_at, visible, on_disk, fresh. cbn [cached m_mapDirtyBlks m_file s'].
  change (addr G SB_IDX) with 0. destruct (Z.leb_spec 0 o), (Z.ltb_spec o (BLOCK_SIZE G0)); try lia. cbn [andb].
  by destruct (0 + o <? f_len (m_file s)).
Qed.

(** What a crash leaves, read back. *)
Lemma reload_ok G0 sb sb0 a s n t now :
  geom_ok G0 -> IsSafeMode G0 = true -> m_dwMagic sb0 = Super.magic ->
  let s' := mkCache [] n t 0 false (m_file s) in fs_ok (Some sb) (with_dev a s') ->
  AllocatorReload (fun G => cache_dev G io now) sb0 G0 (NewAlloc s') = (sb, G, with_dev a s', STATUS_SUCCESS).
Proof.
  intros HG0 HS0 Hm s' [M K]. pose proof (od_inv _ _ _ (ko_dev _ _ (K now))) as [_ Hsup].
  pose proof (super_loaded G0 sb sb0 s n t HG0 HS0 Hm Hsup) as Hl. unfold AllocatorReload.
  change (dev_load_super (m_dev (NewAlloc s'))) with (disk_load_super G0 io s').
  fold s' in Hl. destruct (disk_load_super G0 io s') as [arr ret]. rewrite Hl. change (ERROR STATUS_SUCCESS) with false. cbn match.
  pose proof (ReloadBitmaps_spec (HDev := dok (Some sb) now) G HG (with_dev a s') M (K now)) as E.
  cbn [m_dev with_dev] in E. by rewrite E.
Qed.
End Use.

(** ** Properties *)

(** C11: the file is the allocator.  In safe mode, with a bitmap of the groups that has the
    size of a block, and when no read or write of the file fails: with a superblock that
    names the sizes in use, [Format] on an empty file frees all blocks but those of the bitmaps.  After any sequence
    of allocations, blocks given back, writes of data, flushes, transactions, merges and
    commits, with any answers of the clock, a [Flush] succeeds and keeps the allocator.
    After that [Flush], which saves the superblock that [Format] does not, and any such sequence
    more, a commit succeeds; and when the memory is lost then, [Reload] from the file alone
    succeeds, whatever valid sizes were in use, and gives exactly the superblock, the
    sizes, the bitmaps and the counts that were in memory. *)
Theorem file_system_recovers (G G0 : geometry) (sb : CSuperBlock) (io : Z -> Z -> Z) (now t : Z) :
  geom_ok G -> IsSafeMode G = true -> GRPBMP_SIZE G = BLOCK_SIZE G -> io_ok io ->
  names G sb -> IsSafeMode G0 = true ->
  exists a0, AllocatorFormat (fun G => cache_dev G io now) sb G0
      (NewAlloc (mkCache [] 0 t 0 false (mkFile 0 (fun _ => 0)))) = (G, a0, STATUS_SUCCESS) /\
  (forall x, is_free G a0 x <-> data G x) /\
  forall a now1, rtc (fs_step G io) a0 a ->
  exists s1, AllocatorFlush (fun G => cache_dev G io now1) G sb 0 a = (with_dev a s1, STATUS_SUCCESS) /\
  forall b, rtc (fs_step G io) (with_dev a s1) b ->
  exists s, CommitCache G io (m_dev b) = Ret (s, 0) /\
  forall now' t' sb1 G1, geom_ok G1 -> IsSafeMode G1 = true -> m_dwMagic sb1 = Super.magic ->
    let s' := mkCache [] 0 t' 0 false (m_file s) in
    AllocatorReload (fun G => cache_dev G io now') sb1 G1 (NewAlloc s') = (sb, G, with_dev b s', STATUS_SUCCESS).
Proof.
  intros HG HS HN Hio Hn HS0. set (s0 := mkCache [] 0 t 0 false (mkFile 0 (fun _ => 0))).
  destruct (FormatBitmaps_spec (HDev := cache_dev_ok G HG HS HN io Hio now None) G HG s0) as (a0 & E & M & K & _ & Hfree).
  { split; [split; [constructor|done]|done]. }
  { intros i Hi. apply group0_valid; done. }
  exists a0. split; [unfold AllocatorFormat; by rewrite (Super.Format_names G G0 sb HG Hn), E by congruence|].
  split; [done|]. intros a now1 Ha.
  assert (fs_ok G HG HS HN io Hio None a0) as H0 by (split; [done|intros now'; by apply (disk_ok_now _ _ _ _ _ _ _ now)]).
  destruct (fs_steps_ok G HG HS HN io Hio None a0 a H0 Ha) as (sup & Hf & _).
  destruct (flush_ok G HG HS HN io Hio sup a sb 0 now1 Hf Hn) as (s1 & E1 & Hf1). exists s1. split; [exact E1|].
  intros b Hb. destruct (fs_steps_ok G HG HS HN io Hio (Some sb) _ b Hf1 Hb) as (sup' & Hf2 & Es).
  rewrite Es in Hf2 by done. destruct (fs_ok_commit G HG HS HN io Hio (Some sb) b Hf2) as (s & Ec & Hs).
  exists s. split; [exact Ec|]. intros now' t' sb1 G1 HG1 HS1 Hm s'.
  apply (reload_ok G HG HS HN io Hio); [done..|]. apply Hs.
Qed.

(** ** Witness *)

Definition ex_empty : cache := mkCache [] 0 0 0 false (mkFile 0 (fun _ => 0)).
Definition ex_cache_dev (now : Z) (G : geometry) : BlockDev cache := cache_dev G ex_io now.
Definition ex_fs0 : alloc := (AllocatorFormat (ex_cache_dev 0) Super.NewSuperBlock (ex_geom true) (NewAlloc ex_empty)).1.2.

(** Before the first [Flush] there is no superblock, and [Reload] refuses the file. *)
Example format_not_flushed :
  match CommitCache (ex_geom true) ex_io (m_dev ex_fs0) with
  | Ret (s, _) => (AllocatorReload (ex_cache_dev 5) Super.NewSuperBlock (ex_geom true)
                     (NewAlloc (mkCache [] 0 5 0 false (m_file s)))).2
  | _ => 0
  end = - EINVAL.
Proof. vm_compute. reflexivity. Qed.

(** The state after a [Flush], and after ten blocks are taken. *)
Definition ex_flushed : alloc := (AllocatorFlush (ex_cache_dev 1) (ex_geom true) Super.NewSuperBlock 0 ex_fs0).1.
Definition ex_fs1 : option (alloc * list Z * Z) :=
  AllocatorAllocBlocks (H := ex_cache_dev 1 (ex_geom true)) (ex_geom true) 10 ex_flushed.

Example ex_fs1_blocks :
  match ex_fs1 with
  | Some (a, blks, ret) => (blks, ret, forallb (fun g => negb (bitZ (g_arrBytes (m_pGroupBitmap a)) g)) (seqZ 1 4079))
  | None => ([], 1, false)
  end = ([16; 17; 18; 19; 20; 21; 22; 23; 64; 65], 0, true).
Proof. vm_compute. reflexivity. Qed.

Lemma ex_addressable a :
  forallb (fun g => negb (bitZ (g_arrBytes (m_pGroupBitmap a)) g)) (seqZ 1 4079) = true -> addressable (ex_geom true) a.
Proof.
  intros Hb g i Hg Hu Hi. change (BLKGRP_NUMBER (ex_geom true)) with 4080 in Hg.
  destruct (Z.eq_dec g 0) as [->|Hne]; [apply group0_valid; [apply ex_geom_ok|done]|]. exfalso.
  rewrite forallb_forall in Hb. specialize (Hb g). unfold used in Hu. rewrite Hu in Hb.
  enough (negb true = true) by done. apply Hb. apply list_elem_of_In, elem_of_seqZ. lia.
Qed.

Lemma ex_names : names (ex_geom true) Super.NewSuperBlock.
Proof. by split. Qed.

Lemma file_system_recovers_witness :
  exists a1 blks s, ex_fs1 = Some (a1, blks, 0) /\ CommitCache (ex_geom true) ex_io (m_dev a1) = Ret (s, 0) /\
    let s' := mkCache [] 0 5 0 false (m_file s) in
    AllocatorReload (ex_cache_dev 5) Super.NewSuperBlock (mkGeom 1024 8192 true) (NewAlloc s') =
      (Super.NewSuperBlock, ex_geom true, with_dev a1 s', STATUS_SUCCESS).
Proof.
  pose proof ex_fs1_blocks as HB. destruct ex_fs1 as [[[a1 blks] ret]|] eqn:E1; [|pose proof (f_equal (fun p => p.2) HB) as Hu; discriminate Hu].
  pose proof (f_equal (fun p => p.2) HB) as Hu. pose proof (f_equal (fun p => p.1.2) HB) as Hr. cbn [fst snd] in Hu, Hr.
  clear HB. subst ret.
  destruct (file_system_recovers (ex_geom true) (ex_geom true) Super.NewSuperBlock ex_io 0 0 (ex_geom_ok true) eq_refl eq_refl
    (fun _ _ => eq_refl) ex_names eq_refl) as (a0 & E0 & _ & H).
  assert (ex_fs0 = a0) as E by (unfold ex_fs0, ex_empty, ex_cache_dev; rewrite E0; reflexivity).
  destruct (H a0 1 (rtc_refl _ _)) as (s1 & Ef & Hb).
  assert (ex_flushed = with_dev a0 s1) as Efl by (unfold ex_flushed, ex_cache_dev; rewrite E, Ef; reflexivity).
  destruct (Hb a1) as (s & Hs & Hl).
  - apply rtc_once. rewrite <- Efl. exact (fs_alloc (ex_geom true) ex_io 1 10 ex_flushed a1 blks 0 eq_refl E1 (ex_addressable a1 Hu)).
  - exists a1, blks, s. split; [reflexivity|]. split; [exact Hs|].
    apply (Hl 5 5 Super.NewSuperBlock (mkGeom 1024 8192 true)); [split; reflexivity|reflexivity|reflexivity].
Defined.
