(* ===== verification/DirTree.v ===== *)
(** * Directories of the registry file system: [monitor/registry/dir.cpp]

    A directory is a file that holds a B+ tree, one node per page.
    [CBPlusNode] is a node in memory, [CDirImage] the directory: its root, the
    map from page numbers to nodes, the pool of free pages and the set of nodes
    that the next commit writes.  This file has the data and every operation
    that looks a name up, lists the directory, adds a name or commits.

    A node object is known by its page number, and a pointer to a node is that
    number: at any time one object at most has a number.  A node that is not in
    the map is a value.  The methods of nodes are actions on the directory,
    because they follow the parent pointers and the map of children. *)

From Stdlib Require Import ZArith Lia.
From stdpp Require Import strings sorting.
From S2P Require Import TaskGroup BlkCache Prelude Buffer BlkBitmap.
Local Open Scope Z_scope.

(** ** Constants *)

Definition REGFS_NAME_LENGTH : Z := 96.
Definition USHRT_MAX : Z := 65535.
Definition UINT_MAX : Z := 2 ^ 32 - 1.
Definition INVALID_BNODE_IDX : Z := USHRT_MAX.
Definition EFBIG : Z := 27.

(** [sizeof( KEYPTR_SLOT )]: the name and the eight bytes of the union. *)
Definition sizeof_KEYPTR_SLOT : Z := REGFS_NAME_LENGTH + 8.
Definition BNODE_SIZE (G : geometry) : Z := REGFS_PAGE_SIZE G.
Definition MAX_PTRS_PER_NODE (G : geometry) : Z := BNODE_SIZE G / sizeof_KEYPTR_SLOT - 2.
Definition MAX_KEYS_PER_NODE (G : geometry) : Z := MAX_PTRS_PER_NODE G - 1.
Definition MIN_KEYS (G : geometry) (root : bool) : Z :=
  if root then 1 else (MAX_PTRS_PER_NODE G + 1) / 2 - 1.
Definition SPLIT_POS (G : geometry) (leaf : bool) : Z :=
  if leaf then MAX_PTRS_PER_NODE G / 2 else (MAX_PTRS_PER_NODE G + 1) / 2 - 1.
Definition BNODE_IDX_TO_POS (G : geometry) (idx : Z) : Z := Z.shiftl idx (find_shift (BNODE_SIZE G)).

(** ** Names

    A name is a C string in an array of 96 characters, the last one 0;
    [strncmp] compares bytes as unsigned. *)

Abbreviation key := String.string.
Definition trunc_key (k : key) : key := String.substring 0 (Z.to_nat (REGFS_NAME_LENGTH - 1)) k.
Definition COMPARE_KEY (k1 k2 : key) : comparison := String.compare (trunc_key k1) (trunc_key k2).
Definition CLEAR_KEY : key := ""%string.

(** ** Nodes *)

(** The union: [dwBNodeIdx] is also [oLeaf.dwInodeIdx]. *)
Record KEYPTR_SLOT := mkSlot { szKey : key; dwBNodeIdx : Z; byFileType : Z }.
Definition dwInodeIdx (s : KEYPTR_SLOT) : Z := dwBNodeIdx s.
Definition NewSlot : KEYPTR_SLOT := mkSlot "" INVALID_BNODE_IDX 0.
(** [COPY_KEY( s.szKey, k )] *)
Definition COPY_KEY (k : key) (s : KEYPTR_SLOT) : KEYPTR_SLOT :=
  mkSlot (trunc_key k) (dwBNodeIdx s) (byFileType s).
Definition set_idx (i : Z) (s : KEYPTR_SLOT) : KEYPTR_SLOT := mkSlot (szKey s) i (byFileType s).

(** [RegFSBNode] and [CBPlusNode].  [m_pParent] is the number of the parent. *)
Record CBPlusNode := mkNode {
  m_vecSlots : list KEYPTR_SLOT;
  m_wNumKeys : Z;
  m_wNumPtrs : Z;
  m_wThisBNodeIdx : Z;
  m_wNextLeaf : Z;
  m_bLeaf : bool;
  m_wFreeBNodeIdx : Z;
  m_pParent : option Z;
}.

Definition NewBPlusNode (G : geometry) (dwBNodeIdx : Z) : CBPlusNode :=
  mkNode (replicate (Z.to_nat (MAX_PTRS_PER_NODE G + 1)) (mkSlot "" 0 0)) 0 0
    (u16 dwBNodeIdx) INVALID_BNODE_IDX false INVALID_BNODE_IDX None.

Definition set_slots v n := mkNode v (m_wNumKeys n) (m_wNumPtrs n) (m_wThisBNodeIdx n)
  (m_wNextLeaf n) (m_bLeaf n) (m_wFreeBNodeIdx n) (m_pParent n).
Definition SetKeyCount k n := mkNode (m_vecSlots n) (u16 k) (m_wNumPtrs n) (m_wThisBNodeIdx n)
  (m_wNextLeaf n) (m_bLeaf n) (m_wFreeBNodeIdx n) (m_pParent n).
Definition SetChildCount k n := mkNode (m_vecSlots n) (m_wNumKeys n) (u16 k) (m_wThisBNodeIdx n)
  (m_wNextLeaf n) (m_bLeaf n) (m_wFreeBNodeIdx n) (m_pParent n).
Definition SetNextLeaf i n := mkNode (m_vecSlots n) (m_wNumKeys n) (m_wNumPtrs n) (m_wThisBNodeIdx n)
  (u16 i) (m_bLeaf n) (m_wFreeBNodeIdx n) (m_pParent n).
Definition SetLeaf b n := mkNode (m_vecSlots n) (m_wNumKeys n) (m_wNumPtrs n) (m_wThisBNodeIdx n)
  (m_wNextLeaf n) b (m_wFreeBNodeIdx n) (m_pParent n).
Definition SetFreeBNodeIdx i n := mkNode (m_vecSlots n) (m_wNumKeys n) (m_wNumPtrs n) (m_wThisBNodeIdx n)
  (m_wNextLeaf n) (m_bLeaf n) (u16 i) (m_pParent n).
Definition SetParent p n := mkNode (m_vecSlots n) (m_wNumKeys n) (m_wNumPtrs n) (m_wThisBNodeIdx n)
  (m_wNextLeaf n) (m_bLeaf n) (m_wFreeBNodeIdx n) p.
Definition IncKeyCount n := SetKeyCount (m_wNumKeys n + 1) n.
Definition DecKeyCount n := SetKeyCount (m_wNumKeys n - 1) n.
Definition IncChildCount n := SetChildCount (m_wNumPtrs n + 1) n.
Definition DecChildCount n := SetChildCount (m_wNumPtrs n - 1) n.
Definition IsRoot (n : CBPlusNode) : bool := match m_pParent n with None => true | _ => false end.

(** Access to the array of slots: out of its range is undefined. *)
Definition rd (v : list KEYPTR_SLOT) (i : Z) : outcome KEYPTR_SLOT :=
  if i <? 0 then Undef else match v !! Z.to_nat i with Some s => Ret s | None => Undef end.
Definition wr (i : Z) (s : KEYPTR_SLOT) (v : list KEYPTR_SLOT) : outcome (list KEYPTR_SLOT) :=
  if (i <? 0) || (Z.of_nat (length v) <=? i) then Undef else Ret (<[Z.to_nat i := s]> v).

(** [GetKey]: [None] is the null pointer. *)
Definition GetKey (n : CBPlusNode) (idx : Z) : outcome (option key) :=
  if m_wNumKeys n <=? idx then Ret None
  else match rd (m_vecSlots n) idx with Ret s => Ret (Some (szKey s)) | _ => Undef end.

(** Whether [GetSlot( idx )] is a null pointer. *)
Definition SlotNull (G : geometry) (n : CBPlusNode) (idx : Z) : bool :=
  if IsRoot n then
    if m_bLeaf n then MAX_KEYS_PER_NODE G <? idx else MAX_PTRS_PER_NODE G <? idx
  else if m_bLeaf n then m_wNumKeys n <? idx else m_wNumPtrs n <? idx.
Definition GetSlot (G : geometry) (n : CBPlusNode) (idx : Z) : outcome KEYPTR_SLOT :=
  if SlotNull G n idx then Undef else rd (m_vecSlots n) idx.
(** A write through the pointer that [GetSlot] answers. *)
Definition UpdSlot (G : geometry) (idx : Z) (f : KEYPTR_SLOT -> KEYPTR_SLOT) (n : CBPlusNode)
    : outcome CBPlusNode :=
  match GetSlot G n idx with
  | Ret s => match wr idx (f s) (m_vecSlots n) with Ret v => Ret (set_slots v n) | _ => Undef end
  | _ => Undef
  end.

(** ** [BinSearch]

    The answer is the position of the key, or the negated position where it
    belongs, plus [0x10000] when it belongs before a key that was read. *)
Definition CompareAt (n : CBPlusNode) (k : key) (i : Z) : outcome comparison :=
  match GetKey n i with Ret (Some k') => Ret (COMPARE_KEY k k') | _ => Undef end.

Fixpoint BinLoop (fuel : nat) (n : CBPlusNode) (k : key) (iLower iUpper : Z) : outcome Z :=
  match fuel with
  | O => Undef
  | S fuel =>
      if iUpper =? iLower then
        match CompareAt n k iLower with
        | Ret Lt => Ret (- (iLower + 0x10000))
        | Ret Gt => Ret (- (iLower + 1))
        | Ret Eq => Ret iLower
        | _ => Undef
        end
      else if iUpper =? iLower + 1 then
        match CompareAt n k iLower with
        | Ret Lt => Ret (- (iLower + 0x10000))
        | Ret Eq => Ret iLower
        | Ret Gt =>
            match CompareAt n k iUpper with
            | Ret Lt => Ret (- (iUpper + 0x10000))
            | Ret Eq => Ret iUpper
            | Ret Gt => Ret (- (iUpper + 1))
            | _ => Undef
            end
        | _ => Undef
        end
      else
        let iCur := Z.shiftr (iLower + iUpper) 1 in
        match CompareAt n k iCur with
        | Ret Eq => Ret iCur
        | Ret Lt => BinLoop fuel n k iLower (iCur - 1)
        | Ret Gt => BinLoop fuel n k (iCur + 1) iUpper
        | _ => Undef
        end
  end.
Definition BinSearch (n : CBPlusNode) (k : key) (iOrigLower iOrigUpper : Z) : outcome Z :=
  BinLoop (S (Z.to_nat (iOrigUpper - iOrigLower))) n k iOrigLower iOrigUpper.

(** [ret = -ret; if( ret >= 0x10000 ) ret -= 0x10000;] *)
Definition not_found_pos (ret : Z) : Z :=
  let ret := - ret in if 0x10000 <=? ret then ret - 0x10000 else ret.

(** ** The directory *)

(** [FREE_BNODES]: the array up to [m_wBNCount]. *)
Record FREE_BNODES := mkFree { m_bNextBNode : bool; m_arrFreeBNIdx : list Z }.
Definition GetMaxCount (G : geometry) : Z := Z.shiftr (BNODE_SIZE G - 4) 1.
Definition m_wBNCount (f : FREE_BNODES) : Z := Z.of_nat (length (m_arrFreeBNIdx f)).
Definition IsFull (G : geometry) (f : FREE_BNODES) : bool := m_wBNCount f =? GetMaxCount G.
Definition IsEmpty (f : FREE_BNODES) : bool := m_wBNCount f =? 0.
Definition GetLastBNodeIdx (f : FREE_BNODES) : Z := default INVALID_BNODE_IDX (last (m_arrFreeBNIdx f)).
Definition set_next (b : bool) (f : FREE_BNODES) : FREE_BNODES := mkFree b (m_arrFreeBNIdx f).
Definition PushFreeBNode (G : geometry) (i : Z) (f : FREE_BNODES) : FREE_BNODES * Z :=
  if IsFull G f then (f, - ENOMEM)
  else (mkFree (m_bNextBNode f) (m_arrFreeBNIdx f ++ [u16 i]), 0).
Definition PopFreeBNode (f : FREE_BNODES) : FREE_BNODES * Z * Z :=
  if IsEmpty f then (f, 0, - ENOENT)
  else (mkFree (m_bNextBNode f) (pop_back (m_arrFreeBNIdx f)), GetLastBNodeIdx f, 0).

(** [CFileImage] as far as directories look at it: [f_keys] is the number of
    keys in the root of a directory, [None] for a file or a link. *)
Record FileImg := mkFile { f_keys : option Z; m_dwOpenCount : Z; m_dwState : EnumIfState }.

(** What a directory needs of the file it is stored in: its size, reads, writes
    and truncation, and the root of the tree in its inode; and of the files it
    names: a new image, with its inode, and an image that is loaded. *)
Class DirFile (F : Type) := {
  df_size : F -> Z;
  df_write : Z -> list Z -> F -> F * Z;
  df_read : Z -> Z -> F -> list Z * Z;
  df_truncate : Z -> F -> F * Z;
  df_root : F -> Z;
  df_flush_inode : Z -> F -> F * Z;
  df_create : Z -> F -> F * Z * Z;
  df_load : Z -> Z -> F -> FileImg * Z;
}.

Record CDirImage (F : Type) := mkDir {
  m_pRootNode : Z;
  m_mapChilds : gmap Z CBPlusNode;
  m_dwRootBNode : Z;
  m_vecFreeBNodes : list (Z * FREE_BNODES);
  m_setDirtyNodes : gset Z;
  m_mapFiles : gmap Z FileImg;
  m_dwDirState : EnumIfState;
  m_oFile : F;
}.
Arguments mkDir {F}. Arguments m_pRootNode {F}. Arguments m_mapChilds {F}.
Arguments m_dwRootBNode {F}. Arguments m_vecFreeBNodes {F}. Arguments m_setDirtyNodes {F}.
Arguments m_mapFiles {F}. Arguments m_dwDirState {F}. Arguments m_oFile {F}.

Section Directory.
Context (G : geometry) {F : Type} `{DirFile F}.
Abbreviation Dir := (CDirImage F).

Definition set_root (r : Z) (d : Dir) : Dir := mkDir r (m_mapChilds d) (m_dwRootBNode d)
  (m_vecFreeBNodes d) (m_setDirtyNodes d) (m_mapFiles d) (m_dwDirState d) (m_oFile d).
Definition set_childs c (d : Dir) : Dir := mkDir (m_pRootNode d) c (m_dwRootBNode d)
  (m_vecFreeBNodes d) (m_setDirtyNodes d) (m_mapFiles d) (m_dwDirState d) (m_oFile d).
Definition set_rootidx r (d : Dir) : Dir := mkDir (m_pRootNode d) (m_mapChilds d) r
  (m_vecFreeBNodes d) (m_setDirtyNodes d) (m_mapFiles d) (m_dwDirState d) (m_oFile d).
Definition set_pool p (d : Dir) : Dir := mkDir (m_pRootNode d) (m_mapChilds d) (m_dwRootBNode d)
  p (m_setDirtyNodes d) (m_mapFiles d) (m_dwDirState d) (m_oFile d).
Definition set_dirty s (d : Dir) : Dir := mkDir (m_pRootNode d) (m_mapChilds d) (m_dwRootBNode d)
  (m_vecFreeBNodes d) s (m_mapFiles d) (m_dwDirState d) (m_oFile d).
Definition set_files s (d : Dir) : Dir := mkDir (m_pRootNode d) (m_mapChilds d) (m_dwRootBNode d)
  (m_vecFreeBNodes d) (m_setDirtyNodes d) s (m_dwDirState d) (m_oFile d).
Definition set_file f (d : Dir) : Dir := mkDir (m_pRootNode d) (m_mapChilds d) (m_dwRootBNode d)
  (m_vecFreeBNodes d) (m_setDirtyNodes d) (m_mapFiles d) (m_dwDirState d) f.

(** *** Actions: a method that changes the directory *)
Definition act (A : Type) : Type := Dir -> outcome (Dir * A).
#[local] Instance act_ret : MRet act := fun A a d => Ret (d, a).
#[local] Instance act_bind : MBind act := fun A B f m d =>
  match m d with Ret (d, a) => f a d | Throw => Throw | Undef => Undef end.
Definition ask : act Dir := fun d => Ret (d, d).
Definition run (f : Dir -> Dir) : act unit := fun d => Ret (f d, tt).
Definition lift {A} (o : outcome A) : act A := fun d =>
  match o with Ret a => Ret (d, a) | Throw => Throw | Undef => Undef end.
Definition undef {A} : act A := fun _ => Undef.
(** [if( ERROR( ret ) ) break;] *)
Definition or_fail (ret : Z) (k : act Z) : act Z := if ERROR ret then mret ret else k.

(** The node that a pointer leads to. *)
Definition node (i : Z) : act CBPlusNode := fun d =>
  match m_mapChilds d !! i with Some n => Ret (d, n) | None => Undef end.
Definition put (i : Z) (n : CBPlusNode) : act unit := run (fun d => set_childs (<[i := n]> (m_mapChilds d)) d).
Definition upd (i : Z) (f : CBPlusNode -> CBPlusNode) : act unit := n ← node i; put i (f n).
Definition updM (i : Z) (f : CBPlusNode -> outcome CBPlusNode) : act unit :=
  n ← node i; n ← lift (f n); put i n.

Definition SetDirty (i : Z) : act unit := run (fun d => set_dirty ({[ u32 i ]} ∪ m_setDirtyNodes d) d).
Definition SafeDirty (i : Z) : act unit := if IsSafeMode G then SetDirty i else mret tt.

(** [GetChildDirect], [GetChild]: [None] is the null pointer. *)
Definition GetChildDirect (d : Dir) (i : Z) : option Z :=
  match m_mapChilds d !! i with Some _ => Some i | None => None end.
Definition GetChild (d : Dir) (n : CBPlusNode) (idx : Z) : outcome (option Z) :=
  if (m_wNumPtrs n <=? idx) || (idx <? 0) then Ret None
  else match rd (m_vecSlots n) idx with
       | Ret s => Ret (GetChildDirect d (dwBNodeIdx s))
       | _ => Undef
       end.
Definition Child (this idx : Z) : act (option Z) :=
  n ← node this; d ← ask; lift (GetChild d n idx).

(** [RemoveChildDirect]: the node, no longer in the map. *)
Definition RemoveChildDirect (i : Z) : act (option CBPlusNode) :=
  d ← ask;
  match m_mapChilds d !! i with
  | None => mret None
  | Some n => run (fun d => set_childs (delete i (m_mapChilds d)) d);; mret (Some (SetParent None n))
  end.
Definition RemoveChild (n : CBPlusNode) (idx : Z) : act (Z * option CBPlusNode) :=
  if m_wNumPtrs n <=? u32 idx then mret (- EINVAL, None)
  else if m_bLeaf n then mret (- ENOTSUP, None)
  else
    s ← lift (rd (m_vecSlots n) (u32 idx));
    c ← RemoveChildDirect (dwBNodeIdx s);
    mret (match c with Some _ => 0 | None => - ENOENT end, c).

(** [this->AddChildDirect( i, pChild )]; [this] is a number.  A node that is
    added to itself, as the root is, keeps its parent. *)
Definition AddChildDirect (this i : Z) (c : CBPlusNode) : act Z :=
  d ← ask;
  match m_mapChilds d !! i with
  | Some _ => mret (- EEXIST)
  | None => put i (if this =? m_wThisBNodeIdx c then c else SetParent (Some this) c);; mret 0
  end.

(** *** The pool of free pages *)

Definition RootNode : act CBPlusNode := d ← ask; node (m_pRootNode d).
Definition GetHeadFreeBNode : act Z := r ← RootNode; mret (m_wFreeBNodeIdx r).
Definition SetHeadFreeBNode (i : Z) : act unit :=
  d ← ask;
  upd (m_pRootNode d) (SetFreeBNodeIdx i);;
  r ← RootNode;
  SafeDirty (m_wThisBNodeIdx r).

Fixpoint PoolLoop (fuel : nat) (dwFirstFree : Z) : act (Z * Z) :=
  match fuel with
  | O => undef
  | S fuel =>
      d ← ask;
      match last (m_vecFreeBNodes d) with
      | None =>
          SetHeadFreeBNode INVALID_BNODE_IDX;;
          r ← RootNode; SafeDirty (m_wThisBNodeIdx r);; mret (0, dwFirstFree)
      | Some (i, pfb) =>
          if IsEmpty pfb then
            let v := pop_back (m_vecFreeBNodes d) in
            let v := match last v with
                     | Some (j, f) => pop_back v ++ [(j, set_next false f)]
                     | None => v
                     end in
            run (set_pool v);; PoolLoop fuel dwFirstFree
          else
            let '(pfb, wBNodeIdx, ret) := PopFreeBNode pfb in
            run (set_pool (pop_back (m_vecFreeBNodes d) ++ [(i, pfb)]));;
            if ERROR ret then mret (ret, INVALID_BNODE_IDX)
            else SafeDirty i;; mret (ret, wBNodeIdx)
      end
  end.
(** [CFreeBNodePool::GetFreeBNode]: the status and the page. *)
Definition PoolGetFreeBNode : act (Z * Z) :=
  dwFirstFree ← GetHeadFreeBNode;
  if dwFirstFree =? INVALID_BNODE_IDX then mret (- ENOENT, INVALID_BNODE_IDX)
  else d ← ask; PoolLoop (S (length (m_vecFreeBNodes d))) dwFirstFree.

(** *** Reading and writing a node: [hton], [ntoh]

    The bytes of a name behind its NUL are taken to be zero: no reader looks at
    them. *)
Definition name_bytes (k : key) : list Z :=
  let b := map (fun c => Z.of_N (Ascii.N_of_ascii c)) (String.list_ascii_of_string k) in
  firstn (Z.to_nat REGFS_NAME_LENGTH) (b ++ replicate (Z.to_nat REGFS_NAME_LENGTH) 0).
Fixpoint name_of_bytes (l : list Z) : key :=
  match l with
  | [] => ""%string
  | b :: l => if b =? 0 then ""%string
              else String.String (Ascii.ascii_of_N (Z.to_N b)) (name_of_bytes l)
  end.
Definition slot_bytes (s : KEYPTR_SLOT) : list Z :=
  name_bytes (szKey s) ++ be_bytes 4 (dwBNodeIdx s) ++ [byFileType s; 0; 0; 0].
Definition slot_of_bytes (l : list Z) : KEYPTR_SLOT :=
  mkSlot (name_of_bytes (ztake REGFS_NAME_LENGTH l)) (be_val (ztake 4 (zdrop REGFS_NAME_LENGTH l)))
    (nth 0 (zdrop (REGFS_NAME_LENGTH + 4) l) 0).

Definition slots_used (n : CBPlusNode) : Z := if m_bLeaf n then m_wNumKeys n else m_wNumPtrs n.
Definition pad_to (len : Z) (l : list Z) : list Z := l ++ replicate (Z.to_nat len - length l) 0.

(** The page of a node; [m_wParentBNode] is never set. *)
Definition hton (n : CBPlusNode) : list Z :=
  pad_to (BNODE_SIZE G)
    (pad_to (MAX_PTRS_PER_NODE G * sizeof_KEYPTR_SLOT)
       (concat (map slot_bytes (take (Z.to_nat (slots_used n)) (m_vecSlots n)))) ++
     be_bytes 2 (m_wNumKeys n) ++ be_bytes 2 (m_wNumPtrs n) ++ be_bytes 2 (m_wThisBNodeIdx n) ++
     be_bytes 2 INVALID_BNODE_IDX ++ be_bytes 2 (m_wNextLeaf n) ++
     [if m_bLeaf n then 1 else 0; 0] ++ be_bytes 2 (m_wFreeBNodeIdx n)).

Definition MAX_BNODE_NUMBER : Z := MAX_FILE_SIZE G / BNODE_SIZE G.
Definition bad_bnode (i : Z) : bool := (MAX_BNODE_NUMBER <? i) && negb (i =? INVALID_BNODE_IDX).

(** The slots of a page, and the others as they were. *)
Definition load_slots (count : Z) (l : list Z) (v : list KEYPTR_SLOT) : list KEYPTR_SLOT :=
  map (fun i => slot_of_bytes (ztake sizeof_KEYPTR_SLOT (zdrop (i * sizeof_KEYPTR_SLOT) l))) (seqZ 0 count)
  ++ drop (Z.to_nat count) v.

(** [l]: what the file had of the page. *)
Definition ntoh (l : list Z) (n : CBPlusNode) : CBPlusNode * Z :=
  let p i := be_val (ztake 2 (zdrop (MAX_PTRS_PER_NODE G * sizeof_KEYPTR_SLOT + 2 * i) l)) in
  let bLeaf := negb (nth 0 (zdrop (MAX_PTRS_PER_NODE G * sizeof_KEYPTR_SLOT + 10) l) 0 =? 0) in
  let n' := mkNode (m_vecSlots n) (p 0) (p 1) (p 2) (p 4) bLeaf (m_wFreeBNodeIdx n) (m_pParent n) in
  if Z.of_nat (length l) <? BNODE_SIZE G then (n, - EINVAL)
  else if (MAX_PTRS_PER_NODE G <? m_wNumPtrs n') || (MAX_KEYS_PER_NODE G <? m_wNumKeys n') then (n', - ERANGE)
  else if bad_bnode (p 3) then (n', - ERANGE)
  else if bad_bnode (m_wNextLeaf n') then (n', - ERANGE)
  else (set_slots (load_slots (slots_used n') l (m_vecSlots n')) (SetFreeBNodeIdx (p 6) n'), 0).

(** [Format] writes the page of a node, so that the file has it. *)
Definition WriteNode (n : CBPlusNode) : act Z :=
  d ← ask;
  let '(f, ret) := df_write (BNODE_IDX_TO_POS G (m_wThisBNodeIdx n)) (hton n) (m_oFile d) in
  run (set_file f);; mret ret.
Definition FormatNode (n : CBPlusNode) : act Z :=
  ret ← WriteNode n; or_fail ret (mret 0).

(** [CDirImage::GetFreeBNode]: a new node that is not in the map. *)
Definition GetFreeBNode (bLeaf : bool) : act (Z * CBPlusNode) :=
  '(ret, i) ← PoolGetFreeBNode;
  d ← ask;
  let dwOff := df_size (m_oFile d) in
  let '(ret, i) :=
    if ERROR ret then
      if MAX_FILE_SIZE G <? u32 (dwOff + BNODE_SIZE G) then (- EFBIG, i)
      else (0, u32 (dwOff + BNODE_SIZE G - 1) / BNODE_SIZE G)
    else (ret, i) in
  let n := SetLeaf bLeaf (NewBPlusNode G i) in
  if ERROR ret then mret (ret, n)
  else ret ← FormatNode n; mret (ret, n).

(** [ReplaceRootBNode]: the old root is no longer in the map. *)
Definition ReplaceRootBNode (pNew : CBPlusNode) : act CBPlusNode :=
  pOld ← RootNode;
  let i := m_wThisBNodeIdx pNew in
  run (set_root i);; run (set_rootidx i);;
  AddChildDirect i i (SetFreeBNodeIdx (m_wFreeBNodeIdx pOld) pNew);;
  RemoveChildDirect (m_wThisBNodeIdx pOld);;
  (if IsSafeMode G then SetDirty (-2) else mret tt);;
  mret (SetParent None pOld).

(** *** Slots *)

(** [memcpy( vec[ i ], vec[ i - 1 ] )] for [i] from [dwCount] down to [idx + 1]. *)
Fixpoint ShiftUp (k : nat) (i : Z) (v : list KEYPTR_SLOT) : outcome (list KEYPTR_SLOT) :=
  match k with
  | O => Ret v
  | S k => match rd v (i - 1) with
           | Ret s => match wr i s v with Ret v => ShiftUp k (i - 1) v | _ => Undef end
           | _ => Undef
           end
  end.

Definition InsertSlotAt (this idx : Z) (s : KEYPTR_SLOT) : act Z :=
  n ← node this;
  let bKey := negb (bool_decide (szKey s = ""%string)) in
  let dwCount := if m_bLeaf n then m_wNumKeys n else m_wNumPtrs n in
  if idx <? 0 then mret (- EINVAL)
  else if dwCount <? idx then mret (- EINVAL)
  else if (if m_bLeaf n then MAX_KEYS_PER_NODE G + 1 <=? dwCount else MAX_PTRS_PER_NODE G + 1 <=? dwCount)
  then mret (- ENOMEM)
  else
    v ← lift (ShiftUp (Z.to_nat (dwCount - idx)) dwCount (m_vecSlots n));
    v ← lift (wr idx s v);
    let n := set_slots v n in
    let n := if bKey then IncKeyCount n else n in
    put this n;;
    if negb (m_bLeaf n) && negb (dwBNodeIdx s =? INVALID_BNODE_IDX) then
      d ← ask;
      match m_mapChilds d !! dwBNodeIdx s with
      | None => undef
      | Some _ => put this (IncChildCount n);; mret 0
      end
    else mret 0.

(** [MoveBNodeStore] into [dst], which has the number [m_wThisBNodeIdx dst] and
    need not be in the map.  The loop answers the slots of [dst]. *)
Fixpoint MoveLoop (k : nat) (dst : CBPlusNode) (srcnode : CBPlusNode) (src dsti i : Z) : act CBPlusNode :=
  match k with
  | O => mret dst
  | S k =>
      s ← lift (rd (m_vecSlots srcnode) (src + i));
      v ← lift (wr (dsti + i) s (m_vecSlots dst));
      let dst := set_slots v dst in
      (if m_bLeaf dst then mret tt
       else
         '(iRet, c) ← RemoveChild srcnode (src + i);
         match c with
         | Some c => if ERROR iRet then mret tt
                     else AddChildDirect (m_wThisBNodeIdx dst) (dwBNodeIdx s) c;; mret tt
         | None => mret tt
         end);;
      MoveLoop k dst srcnode src dsti (i + 1)
  end.
Definition MoveBNodeStore (dst : CBPlusNode) (src dwSrcOff dwCount dwDstOff : Z) : act (Z * CBPlusNode) :=
  let dwLimit := if m_bLeaf dst then MAX_KEYS_PER_NODE G else MAX_PTRS_PER_NODE G in
  if (dwLimit + 1 <? dwSrcOff + dwCount) || (dwLimit + 1 <? dwDstOff + dwCount) then mret (- EINVAL, dst)
  else
    s ← node src;
    let dwActCount := m_wNumKeys s in
    dst ← MoveLoop (Z.to_nat dwCount) dst s dwSrcOff dwDstOff 0;
    if m_bLeaf dst then
      upd src (SetKeyCount (dwActCount - dwCount));;
      mret (0, SetKeyCount (m_wNumKeys dst + dwCount) dst)
    else
      upd src (fun s => SetChildCount (m_wNumPtrs s - dwCount) (SetKeyCount (dwActCount - dwCount + 1) s));;
      mret (0, SetChildCount (m_wNumPtrs dst + dwCount) (SetKeyCount (m_wNumKeys dst + dwCount - 1) dst)).

(** *** [Split] and [Insert] *)

Fixpoint ReplaceLoop (fuel : nat) (p : option Z) (k k' : key) : act unit :=
  match fuel, p with
  | O, _ => undef
  | S fuel, None => mret tt
  | S fuel, Some i =>
      n ← node i;
      if m_wNumKeys n =? 0 then mret tt
      else
        iRet ← lift (BinSearch n k 0 (m_wNumKeys n - 1));
        if iRet <? 0 then ReplaceLoop fuel (m_pParent n) k k'
        else updM i (UpdSlot G iRet (COPY_KEY k'));; SafeDirty i
  end.
(** More turns than any walk up or down the tree takes. *)
Definition tree_fuel (d : Dir) : nat := S (base.size (m_mapChilds d)).

Definition ReplaceNonLeafKey (this : Z) (k k' : key) : act Z :=
  n ← node this;
  if negb (m_bLeaf n) || IsRoot n then mret 0
  else d ← ask; ReplaceLoop (tree_fuel d) (m_pParent n) k k';; mret 0.

Definition InsertOnly (this : Z) (s : KEYPTR_SLOT) : act Z :=
  n ← node this;
  ret ← (if m_wNumKeys n =? 0 then InsertSlotAt this 0 s
         else
           iRet ← lift (BinSearch n (szKey s) 0 (m_wNumKeys n - 1));
           if 0 <=? iRet then mret (- EEXIST)
           else
             let dwIdx := not_found_pos iRet in
             if MAX_KEYS_PER_NODE G <? dwIdx then mret ERROR_FAIL
             else
               strOldKey ← (if (dwIdx =? 0) && m_bLeaf n
                            then s ← lift (GetSlot G n 0); mret (szKey s) else mret ""%string);
               ret ← InsertSlotAt this dwIdx s;
               if ERROR ret then mret ret
               else if negb (dwIdx =? 0) then mret ret
               else ReplaceNonLeafKey this strOldKey (szKey s);; mret ret);
  (if SUCCEEDED ret then SetDirty this else mret tt);;
  mret ret.

(** [GetParentSlotIdx]; [UINT_MAX] when there is none. *)
Fixpoint SlotLoop (k : nat) (v : list KEYPTR_SLOT) (this i : Z) : outcome Z :=
  match k with
  | O => Ret UINT_MAX
  | S k => match rd v i with
           | Ret s => if dwBNodeIdx s =? this then Ret i else SlotLoop k v this (i + 1)
           | _ => Undef
           end
  end.
Definition GetParentSlotIdx (n : CBPlusNode) : act Z :=
  match m_pParent n with
  | None => mret UINT_MAX
  | Some p => m ← node p; lift (SlotLoop (Z.to_nat (m_wNumPtrs m)) (m_vecSlots m) (m_wThisBNodeIdx n) 0)
  end.

(** The parent of the node that is split.  The root gets a new root above it
    and is out of the map until [SplitParent] puts it back. *)
Definition SplitRoot (n : CBPlusNode) : act (Z * option Z * option CBPlusNode) :=
  match m_pParent n with
  | Some p => mret (0, Some p, None)
  | None =>
      '(ret, pNewRoot) ← GetFreeBNode false;
      if ERROR ret then mret (ret, None, None)
      else pOldRoot ← ReplaceRootBNode pNewRoot; mret (0, Some (m_wThisBNodeIdx pNewRoot), Some pOldRoot)
  end.

(** The slot of the parent gets the key at the split position; the answer is the
    key of the new slot, if the position is one of the parent's. *)
Definition SplitParent (n : CBPlusNode) (pParent dwSlotIdx : Z) (k : key) (pOldRoot : option CBPlusNode)
    : act (option (Z * key)) :=
  p ← node pParent;
  let dwChilds := m_wNumPtrs p in
  if dwChilds =? 0 then
    p ← lift (UpdSlot G 0 (fun s => set_idx (m_wThisBNodeIdx n) (COPY_KEY k s)) p);
    put pParent (IncChildCount (IncKeyCount p));;
    (match pOldRoot with
     | Some c => AddChildDirect pParent (m_wThisBNodeIdx n) c;; mret tt
     | None => mret tt
     end);;
    mret (Some (0, ""%string))
  else if dwSlotIdx <? dwChilds - 1 then
    s ← lift (GetSlot G p dwSlotIdx);
    p ← lift (UpdSlot G dwSlotIdx (COPY_KEY k) p);
    put pParent p;; mret (Some (dwSlotIdx, trunc_key (szKey s)))
  else if u32 (dwSlotIdx + 1) =? dwChilds then
    p ← lift (UpdSlot G dwSlotIdx (COPY_KEY k) p);
    put pParent (IncKeyCount p);; mret (Some (dwSlotIdx, ""%string))
  else mret None.

(** The upper half of [this] goes to [pNew]. *)
Definition SplitMove (this dwSplitPos : Z) (pNew : CBPlusNode) : act (Z * CBPlusNode) :=
  n ← node this;
  let dwMoveStart := if m_bLeaf n then dwSplitPos else dwSplitPos + 1 in
  let dwCount := (if m_bLeaf n then m_wNumKeys n else m_wNumPtrs n) - dwMoveStart in
  '(ret, pNew) ← MoveBNodeStore pNew this dwMoveStart (u32 dwCount) 0;
  if ERROR ret then mret (ret, pNew)
  else if m_bLeaf n then
    upd this (SetNextLeaf (m_wThisBNodeIdx pNew));;
    mret (0, SetNextLeaf (m_wNextLeaf n) pNew)
  else
    updM this (UpdSlot G dwSplitPos (fun s => mkSlot CLEAR_KEY (dwBNodeIdx s) (byFileType s)));;
    upd this DecKeyCount;; mret (0, pNew).

(** The new sibling: it gets the upper half and the next slot of the parent. *)
Definition SplitNew (bLeaf : bool) (this pParent dwSplitPos dwSlotIdx : Z) (k : key) : act (Z * Z) :=
  '(ret, pNew) ← GetFreeBNode bLeaf;
  if ERROR ret then mret (ret, INVALID_BNODE_IDX)
  else
    '(ret, pNew) ← SplitMove this dwSplitPos pNew;
    if ERROR ret then mret (ret, INVALID_BNODE_IDX)
    else
      let dwNew := m_wThisBNodeIdx pNew in
      ret ← AddChildDirect pParent dwNew pNew;
      if ERROR ret then mret (ret, INVALID_BNODE_IDX)
      else
        ret ← InsertSlotAt pParent (dwSlotIdx + 1) (mkSlot k dwNew 0);
        mret (ret, dwNew).

(** One level: the status and the new sibling. *)
Definition SplitOnce (n : CBPlusNode) (this pParent dwSlotIdx : Z) (pOldRoot : option CBPlusNode)
    : act (Z * Z) :=
  let dwSplitPos := SPLIT_POS G (m_bLeaf n) in
  pSplitKs ← lift (GetSlot G n dwSplitPos);
  r ← SplitParent n pParent dwSlotIdx (szKey pSplitKs) pOldRoot;
  match r with
  | None => mret (ERROR_FAIL, INVALID_BNODE_IDX)
  | Some (dwSlotIdx, k) => SplitNew (m_bLeaf n) this pParent dwSplitPos dwSlotIdx k
  end.

Fixpoint Split (fuel : nat) (this dwSlotIdx : Z) : act Z :=
  match fuel with
  | O => undef
  | S fuel =>
      n ← node this;
      if IsRoot n && m_bLeaf n then mret ERROR_FAIL
      else
        '(ret, pParent, pOldRoot) ← SplitRoot n;
        if ERROR ret then mret ret
        else match pParent with None => undef | Some pParent =>
        '(ret, dwNew) ← SplitOnce n this pParent (if IsRoot n then 0 else dwSlotIdx) pOldRoot;
        if ERROR ret then mret ret
        else
          p ← node pParent;
          ret ← (if m_wNumKeys p =? MAX_PTRS_PER_NODE G then
                   dwParentSlot ← (if IsRoot p then mret 0 else GetParentSlotIdx p);
                   if dwParentSlot =? UINT_MAX then mret (- ENOENT)
                   else Split fuel pParent dwParentSlot
                 else mret ret);
          if ERROR ret then mret ret
          else (if IsSafeMode G then SetDirty pParent;; SetDirty dwNew else mret tt);; mret ret
        end
  end.
Definition SplitNode (this dwSlotIdx : Z) : act Z := d ← ask; Split (S (tree_fuel d)) this dwSlotIdx.

(** Below the root the status of the call is dropped: [Insert] of a node that is
    not a leaf answers the slot it went down. *)
Fixpoint InsertLoop (fuel : nat) (this : Z) (s : KEYPTR_SLOT) : act Z :=
  match fuel with
  | O => undef
  | S fuel =>
      n ← node this;
      let dwCount := m_wNumKeys n in
      if negb (m_bLeaf n) then
        ret ← lift (BinSearch n (szKey s) 0 dwCount);
        let ret := if ret <? 0 then not_found_pos ret else ret in
        c ← Child this ret;
        match c with
        | None => mret (- EFAULT)
        | Some c => InsertLoop fuel c s;; mret ret
        end
      else if negb (dwCount =? MAX_KEYS_PER_NODE G) then InsertOnly this s
      else if IsRoot n then
        ret ← InsertOnly this s;
        if ERROR ret then mret ret
        else
          '(ret, pNewRoot) ← GetFreeBNode false;
          if ERROR ret then mret ret
          else
            pOld ← ReplaceRootBNode pNewRoot;
            d ← ask;
            ret ← AddChildDirect (m_pRootNode d) (m_wThisBNodeIdx pOld) pOld;
            if ERROR ret then mret ret else SplitNode this 0
      else
        ret ← InsertOnly this s;
        if ERROR ret then mret ret
        else
          n ← node this;
          i ← GetParentSlotIdx n;
          if i =? UINT_MAX then mret (- ENOENT) else SplitNode this i
  end.
Definition Insert (this : Z) (s : KEYPTR_SLOT) : act Z := d ← ask; InsertLoop (tree_fuel d) this s.

(** *** Looking up *)

Definition AddFileDirect (i : Z) (f : FileImg) : act Z :=
  d ← ask;
  match m_mapFiles d !! i with
  | Some _ => mret (- EEXIST)
  | None => run (set_files (<[i := f]> (m_mapFiles d)));; mret 0
  end.
Definition RemoveFileDirect (i : Z) : act Z :=
  d ← ask;
  match m_mapFiles d !! i with
  | None => mret (- ENOENT)
  | Some _ => run (set_files (delete i (m_mapFiles d)));; mret 0
  end.

(** Down to the leaf; with a null pointer in between, [-EFAULT]. *)
Fixpoint SearchLoop (fuel : nat) (this : Z) (k : key) : act (Z * Z) :=
  match fuel with
  | O => undef
  | S fuel =>
      n ← node this;
      if m_bLeaf n then mret (0, this)
      else if m_wNumKeys n =? 0 then mret (0, this)
      else
        i ← lift (BinSearch n k 0 (m_wNumKeys n - 1));
        if 0 <=? i then
          c ← Child this (i + 1);
          match c with None => undef | Some c => SearchLoop fuel c k end
        else
          c ← Child this (not_found_pos i);
          match c with None => mret (- EFAULT, this) | Some c => SearchLoop fuel c k end
  end.

(** The status, the leaf, and the inode of the file that was found. *)
Definition SearchNoLock (k : key) : act (Z * option Z * option Z) :=
  d ← ask;
  '(ret, c) ← SearchLoop (tree_fuel d) (m_pRootNode d) k;
  if ERROR ret then mret (ret, None, None)
  else
    n ← node c;
    if m_wNumKeys n =? 0 then mret (ERROR_FALSE, Some c, None)
    else
      i ← lift (BinSearch n k 0 (m_wNumKeys n - 1));
      if i <? 0 then mret (ERROR_FALSE, Some c, None)
      else
        s ← lift (GetSlot G n i);
        d ← ask;
        match m_mapFiles d !! dwInodeIdx s with
        | Some _ => mret (STATUS_SUCCESS, Some c, Some (dwInodeIdx s))
        | None =>
            let '(f, ret) := df_load (dwInodeIdx s) (byFileType s) (m_oFile d) in
            if ERROR ret then mret (ret, Some c, None)
            else
              ret ← AddFileDirect (dwInodeIdx s) f;
              mret (if ERROR ret then ret else STATUS_SUCCESS, Some c, Some (dwInodeIdx s))
        end.

Definition Search (k : key) : act (Z * option Z) :=
  d ← ask;
  match m_dwDirState d with
  | stateStopped => mret (ERROR_STATE, None)
  | _ => '(ret, _, f) ← SearchNoLock k; mret (if ret =? ERROR_FALSE then - ENOENT else ret, f)
  end.

(** The first key of a subtree, or of the leaves to its right.  [None] is the
    null pointer. *)
Fixpoint FirstLeaf (fuel : nat) (this : Z) : act (option Z) :=
  match fuel with
  | O => undef
  | S fuel =>
      n ← node this;
      if m_bLeaf n then mret (Some this)
      else c ← Child this 0;
           match c with None => mret None | Some c => FirstLeaf fuel c end
  end.
Fixpoint SuccLoop (fuel : nat) (this dwIdx : Z) : act (option key) :=
  match fuel with
  | O => undef
  | S fuel =>
      n ← node this;
      if m_wNumKeys n <=? dwIdx then
        d ← ask;
        if m_wNextLeaf n =? INVALID_BNODE_IDX then mret None
        else match m_mapChilds d !! m_wNextLeaf n with
             | None => mret None
             | Some _ => SuccLoop fuel (m_wNextLeaf n) (dwIdx - m_wNumKeys n)
             end
      else lift (GetKey n dwIdx)
  end.
Definition GetSuccKey (this dwIdx : Z) : act (option key) :=
  d ← ask;
  c ← FirstLeaf (tree_fuel d) this;
  match c with None => mret None | Some c => SuccLoop (tree_fuel d) c dwIdx end.

(** [ListDir] follows the leaves from the first one. *)
Fixpoint SlotsOf (k : nat) (v : list KEYPTR_SLOT) (i : Z) : outcome (list KEYPTR_SLOT) :=
  match k with
  | O => Ret []
  | S k => match rd v i, SlotsOf k v (i + 1) with Ret s, Ret l => Ret (s :: l) | _, _ => Undef end
  end.
Fixpoint ListLoop (fuel : nat) (this : Z) : act (list KEYPTR_SLOT) :=
  match fuel with
  | O => undef
  | S fuel =>
      n ← node this;
      l ← lift (SlotsOf (Z.to_nat (m_wNumKeys n)) (m_vecSlots n) 0);
      d ← ask;
      if m_wNextLeaf n =? INVALID_BNODE_IDX then mret l
      else match GetChildDirect d (m_wNextLeaf n) with
           | None => mret l
           | Some c => r ← ListLoop fuel c; mret (l ++ r)
           end
  end.
Definition ListDir : act (Z * list KEYPTR_SLOT) :=
  d ← ask;
  match m_dwDirState d with
  | stateStopped => mret (ERROR_STATE, [])
  | _ =>
      c ← FirstLeaf (tree_fuel d) (m_pRootNode d);
      match c with
      | None => mret (0, [])
      | Some c => l ← ListLoop (tree_fuel d) c; mret (0, l)
      end
  end.

(** *** What goes to the disk *)

(** [FREE_BNODES::hton]: the rest of the array is [0xff]. *)
Definition hton_free (f : FREE_BNODES) : list Z :=
  be_bytes 2 (m_wBNCount f) ++ [if m_bNextBNode f then 1 else 0; 0] ++
  concat (map (be_bytes 2) (m_arrFreeBNIdx f)) ++
  replicate (Z.to_nat (2 * (GetMaxCount G - m_wBNCount f))) 0xff.
Definition ntoh_free (l : list Z) : FREE_BNODES * Z :=
  let count := be_val (ztake 2 l) in
  if GetMaxCount G <? count then (mkFree false [], - ERANGE)
  else (mkFree (negb (nth 0 (zdrop 2 l) 0 =? 0))
          (map (fun i => be_val (ztake 2 (zdrop (4 + 2 * i) l))) (seqZ 0 count)), 0).

Definition WriteFree (i : Z) (f : FREE_BNODES) : act Z :=
  if GetMaxCount G <? m_wBNCount f then mret (- EOVERFLOW)
  else
    d ← ask;
    let '(o, ret) := df_write (BNODE_IDX_TO_POS G i) (hton_free f) (m_oFile d) in
    run (set_file o);; mret ret.

(** [FlushSingleBNode]: the first page of the pool with the number. *)
Fixpoint FlushSingle (v : list (Z * FREE_BNODES)) (i : Z) : act Z :=
  match v with
  | [] => mret (- ENOENT)
  | (j, f) :: v => if j =? i then WriteFree i f else FlushSingle v i
  end.

(** [CFreeBNodePool::Flush] of safe mode: the pages of the pool are marked. *)
Fixpoint FlushPages (v : list (Z * FREE_BNODES)) : act unit :=
  match v with
  | [] => mret tt
  | (i, f) :: v => if GetMaxCount G <? m_wBNCount f then mret tt else SetDirty i;; FlushPages v
  end.
Definition PoolFlush : act Z :=
  i ← GetHeadFreeBNode;
  if i =? INVALID_BNODE_IDX then mret 0
  else d ← ask; FlushPages (m_vecFreeBNodes d);; mret 0.

(** [CDirImage::Flush( FLAG_FLUSH_INODE )] of safe mode: the inode and the pool. *)
Definition FlushInode : act Z :=
  d ← ask;
  let '(f, ret) := df_flush_inode (m_dwRootBNode d) (m_oFile d) in
  run (set_file f);;
  if ERROR ret then mret ret else PoolFlush.

Definition CommitOne (i ret : Z) : act Z :=
  if i =? u32 (-2) then FlushInode;; mret ret
  else
    d ← ask;
    match m_mapChilds d !! i with
    | Some n => WriteNode n
    | None => FlushSingle (m_vecFreeBNodes d) i
    end.
Fixpoint CommitLoop (l : list Z) (ret : Z) : act Z :=
  match l with
  | [] => mret ret
  | i :: l => ret ← CommitOne i ret; CommitLoop l ret
  end.
(** In ascending order; [u32( -2 )] is the last one. *)
Definition CommitDirtyNodes : act Z :=
  if negb (IsSafeMode G) then mret ERROR_STATE
  else
    d ← ask;
    ret ← CommitLoop (merge_sort Z.le (elements (m_setDirtyNodes d))) 0;
    run (set_dirty ∅);; mret ret.

(** [DIR_WRITE_LOCK]: nothing happens in a stopped directory, and the end of the
    scope commits. *)
Definition dir_write_lock (k : act Z) : act Z :=
  d ← ask;
  ret ← (match m_dwDirState d with stateStopped => mret ERROR_STATE | _ => k end);
  CommitDirtyNodes;; mret ret.

(** *** [CreateFile] *)

Definition ftRegular : Z := 1.
Definition ftDirectory : Z := 2.
Definition ftLink : Z := 3.
Definition NewImg (iType : Z) : FileImg :=
  mkFile (if iType =? ftDirectory then Some 0 else None) 0 stateStarted.

Definition AddName (pNode : option Z) (szName : key) (dwInode iType : Z) (img : FileImg) : act Z :=
  match pNode with
  | None => undef
  | Some pNode =>
      ret ← Insert pNode (mkSlot (trunc_key szName) dwInode iType);
      if ERROR ret then mret ret else AddFileDirect dwInode img
  end.

Definition CreateFile (szName : key) (iType : Z) : act Z :=
  dir_write_lock
    ('(iRet, pNode, _) ← SearchNoLock szName;
     if SUCCEEDED iRet then mret (- EEXIST)
     else
       d ← ask;
       let '(f, dwInode, ret) := df_create iType (m_oFile d) in
       run (set_file f);;
       if ERROR ret then mret ret
       else AddName pNode szName dwInode iType (NewImg iType)).

(** [InsertFile] of an image that has the inode already. *)
Definition InsertFile (szName : key) (dwInode iType : Z) (img : FileImg) : act Z :=
  dir_write_lock
    ('(iRet, pNode, _) ← SearchNoLock szName;
     if SUCCEEDED iRet then mret (- EEXIST)
     else AddName pNode szName dwInode iType img).

(** *** [Format] and [Reload] *)

(** [f] is the file after [CFileImage::Format]. *)
Definition FormatDir (f : F) : outcome (Dir * Z) :=
  let root := NewBPlusNode G 0 in
  (ret ← FormatNode root;
   if ERROR ret then mret ret
   else
     put 0 (SetLeaf true root);;
     (if IsSafeMode G then SetDirty (-2);; SetDirty 0 else mret tt);; mret 0)
  (mkDir 0 ∅ 0 [] ∅ ∅ stateStarted f).

(** [CBPlusNode::Reload]: the node, its children already in the map.  An error
    of [AddChild] does not end the loop. *)
Fixpoint ReloadChilds (load : Z -> act (Z * CBPlusNode)) (n : CBPlusNode) (k : nat) (j ret : Z) : act Z :=
  match k with
  | O => mret ret
  | S k =>
      s ← lift (rd (m_vecSlots n) j);
      '(ret, c) ← load (dwBNodeIdx s);
      if ERROR ret then mret ret
      else
        ret ← (if negb (m_wThisBNodeIdx c =? dwBNodeIdx s) then mret (- EINVAL)
               else AddChildDirect (m_wThisBNodeIdx n) (dwBNodeIdx s) c);
        ReloadChilds load n k (j + 1) ret
  end.
Fixpoint ReloadNode (fuel : nat) (i : Z) : act (Z * CBPlusNode) :=
  match fuel with
  | O => undef
  | S fuel =>
      d ← ask;
      let '(l, ret) := df_read (BNODE_IDX_TO_POS G i) (BNODE_SIZE G) (m_oFile d) in
      if ERROR ret then mret (ret, NewBPlusNode G i)
      else
        let '(n, ret) := ntoh l (NewBPlusNode G i) in
        if ERROR ret then mret (ret, n)
        else if m_bLeaf n then mret (ret, n)
        else ret ← ReloadChilds (ReloadNode fuel) n (Z.to_nat (m_wNumPtrs n)) 0 0; mret (ret, n)
  end.

(** [CFreeBNodePool::Reload] *)
Fixpoint ReloadPool (fuel : nat) (i : Z) : act Z :=
  match fuel with
  | O => undef
  | S fuel =>
      d ← ask;
      let '(l, ret) := df_read (BNODE_IDX_TO_POS G i) (BNODE_SIZE G) (m_oFile d) in
      if ERROR ret then mret ret
      else
        let '(pfb, ret) := ntoh_free l in
        if ERROR ret then mret ret
        else
          run (set_pool (m_vecFreeBNodes d ++ [(i, pfb)]));;
          if MAX_FILE_SIZE G / BNODE_SIZE G <=? Z.of_nat (length (m_vecFreeBNodes d)) + 1
          then mret (- EOVERFLOW)
          else if negb (IsFull G pfb) || negb (m_bNextBNode pfb) then mret ret
          else if GetLastBNodeIdx pfb =? INVALID_BNODE_IDX then mret ret
          else ReloadPool fuel (GetLastBNodeIdx pfb)
  end.

(** The pages of the file bound both walks. *)
Definition reload_fuel (f : F) : nat := S (Z.to_nat (df_size f / BNODE_SIZE G)).

(** [CDirImage::Reload], after the inode: [f] is the file. *)
Definition ReloadDir (f : F) : outcome (Dir * Z) :=
  ('(ret, root) ← ReloadNode (reload_fuel f) (df_root f);
   if ERROR ret then mret ret
   else
     d ← ask;
     (match m_mapChilds d !! df_root f with None => put (df_root f) root | Some _ => mret tt end);;
     i ← GetHeadFreeBNode;
     if i =? INVALID_BNODE_IDX then mret 0 else ReloadPool (reload_fuel f) i)
  (mkDir (df_root f) ∅ (df_root f) [] ∅ ∅ stateStarted f).
End Directory.
