(* ===== verification/DirWf.v ===== *)
(** * Directories in order

    The order of names and the binary search; a logic for the actions of
    [DirTree]; and what it means that a directory is a B+ tree ([tree_ok]): every
    node has a level and an interval of names, the intervals of its children
    split its own, and the leaves are linked in order.  A name has one leaf, and
    the search gets there. *)

From Stdlib Require Import ZArith Lia Sorted.
From stdpp Require Import strings sorting.
From S2P Require Import TaskGroup BlkCache Prelude Buffer BlkBitmap DirTree.
Local Open Scope Z_scope.

(** ** The order of names *)

Definition klt (a b : key) : Prop := String.compare a b = Lt.
#[global] Instance klt_dec a b : Decision (klt a b) := decide (String.compare a b = Lt).

Lemma compare_refl (s : key) : String.compare s s = Eq.
Proof. induction s as [|c s IH]; simpl; [done|]. unfold Ascii.compare. by rewrite N.compare_refl. Qed.

Lemma klt_irrefl a : ~ klt a a.
Proof. unfold klt. by rewrite compare_refl. Qed.

Lemma klt_gt a b : String.compare a b = Gt <-> klt b a.
Proof.
  unfold klt. rewrite (String.compare_antisym a b). destruct (String.compare b a); simpl; naive_solver.
Qed.

#[global] Instance klt_trans : Transitive klt.
Proof.
  unfold klt. intros a. induction a as [|x a IH]; intros [|y b] [|z c]; simpl; try done.
  unfold Ascii.compare.
  destruct (N.compare_spec (Ascii.N_of_ascii x) (Ascii.N_of_ascii y)) as [E1|E1|E1]; try done;
  destruct (N.compare_spec (Ascii.N_of_ascii y) (Ascii.N_of_ascii z)) as [E2|E2|E2]; try done; intros H1 H2;
  destruct (N.compare_spec (Ascii.N_of_ascii x) (Ascii.N_of_ascii z)); try lia; try done. by eapply IH.
Qed.

Lemma klt_asym a b : klt a b -> klt b a -> False.
Proof. intros H1 H2. apply (klt_irrefl a). by etrans. Qed.

Lemma compare_cases a b :
  (String.compare a b = Lt /\ klt a b) \/ (String.compare a b = Eq /\ a = b) \/
  (String.compare a b = Gt /\ klt b a).
Proof.
  destruct (String.compare a b) eqn:E; [right; left|by left|right; right].
  - split; [done|by apply String.compare_eq_iff].
  - split; [done|by apply klt_gt].
Qed.

Lemma klt_total a b : klt a b \/ a = b \/ klt b a.
Proof. destruct (compare_cases a b) as [[_ ?]|[[_ ?]|[_ ?]]]; auto. Qed.

(** [a <= b] *)
Definition kle (a b : key) : Prop := a = b \/ klt a b.

Lemma kle_nlt a b : kle a b <-> ~ klt b a.
Proof.
  split.
  - intros [->|H] H'; [by eapply klt_irrefl|by eapply klt_asym].
  - intros H. destruct (klt_total a b) as [|[|]]; [by right|by left|done].
Qed.
Lemma kle_klt a b c : kle a b -> klt b c -> klt a c.
Proof. intros [->|H] H'; [done|by etrans]. Qed.
Lemma klt_kle a b c : klt a b -> kle b c -> klt a c.
Proof. intros H [->|H']; [done|by etrans]. Qed.
Lemma kle_trans a b c : kle a b -> kle b c -> kle a c.
Proof. intros [->|H] H'; [done|right; by eapply klt_kle]. Qed.

(** A C string, and one that fits in a slot. *)
Definition c_string (k : key) : Prop := Forall (fun c => c <> Ascii.zero) (String.list_ascii_of_string k).
Definition key_ok (k : key) : Prop := trunc_key k = k /\ k <> ""%string /\ c_string k.

Lemma substring_idem n (k : key) : String.substring 0 n (String.substring 0 n k) = String.substring 0 n k.
Proof. revert n. induction k as [|c k IH]; intros [|n]; simpl; [done..|]. by rewrite IH. Qed.
Lemma trunc_idem k : trunc_key (trunc_key k) = trunc_key k.
Proof. apply substring_idem. Qed.
Lemma substring_c n k : c_string k -> c_string (String.substring 0 n k).
Proof.
  unfold c_string. revert n. induction k as [|c k IH]; intros [|n]; simpl; try done. intros H.
  apply Forall_cons in H as [H1 H2]. constructor; auto.
Qed.
Lemma trunc_ok k : k <> ""%string -> c_string k -> key_ok (trunc_key k).
Proof.
  intros H Hc. split; [apply trunc_idem|]. split; [|by apply substring_c]. destruct k as [|c k]; [done|].
  unfold trunc_key. destruct (Z.to_nat (REGFS_NAME_LENGTH - 1)) eqn:E; [by vm_compute in E|done].
Qed.
Lemma compare_key_ok k k' : key_ok k' -> COMPARE_KEY k k' = String.compare (trunc_key k) k'.
Proof. intros [H _]. unfold COMPARE_KEY. by rewrite H. Qed.

Abbreviation ksorted := (StronglySorted klt).

Lemma ksorted_lookup ks i j a b :
  ksorted ks -> ks !! i = Some a -> ks !! j = Some b -> (i < j)%nat -> klt a b.
Proof.
  intros H. revert i j. induction H as [|x l Hs IH Hf]; intros i j; [done|].
  destruct i as [|i], j as [|j]; simpl; intros Ha Hb Hij; try lia.
  - simplify_eq. rewrite Forall_forall in Hf. apply Hf. by eapply list_elem_of_lookup_2.
  - apply (IH i j); [done..|lia].
Qed.
Lemma ksorted_mono ks i j a b :
  ksorted ks -> ks !! i = Some a -> ks !! j = Some b -> klt a b -> (i < j)%nat.
Proof.
  intros H Ha Hb Hk. destruct (Nat.lt_trichotomy i j) as [|[->|Hj]]; [done| |].
  - simplify_eq. by apply klt_irrefl in Hk.
  - exfalso. eapply klt_asym; [done|]. by eapply ksorted_lookup.
Qed.
Lemma ksorted_inj ks i j a :
  ksorted ks -> ks !! i = Some a -> ks !! j = Some a -> i = j.
Proof.
  intros H Ha Hb. destruct (Nat.lt_trichotomy i j) as [Hj|[->|Hj]]; [|done|]; exfalso; apply (klt_irrefl a).
  - by apply (ksorted_lookup ks i j).
  - by apply (ksorted_lookup ks j i).
Qed.
Lemma ksorted_of_lookup ks :
  (forall i a b, ks !! i = Some a -> ks !! S i = Some b -> klt a b) -> ksorted ks.
Proof.
  intros H. apply Sorted_StronglySorted; [intros ???; apply klt_trans|].
  induction ks as [|x [|y l] IH]; constructor; [constructor..| |].
  - apply IH. intros i a b Ha Hb. by apply (H (S i)).
  - constructor. by apply (H 0%nat).
Qed.

(** ** The binary search *)

(** The keys of a node, as [GetKey] reads them. *)
Record has_keys (n : CBPlusNode) (ks : list key) : Prop := mkHasKeys {
  hk_len : m_wNumKeys n = Z.of_nat (length ks);
  hk_slot : szKey <$> take (length ks) (m_vecSlots n) = ks;
  hk_sorted : ksorted ks;
  hk_ok : Forall key_ok ks;
}.

Lemma has_keys_slot n ks i k :
  has_keys n ks -> ks !! i = Some k -> exists s, m_vecSlots n !! i = Some s /\ szKey s = k.
Proof.
  intros H Hk. pose proof (lookup_lt_Some _ _ _ Hk) as Hi.
  rewrite <- (hk_slot _ _ H), list_lookup_fmap, lookup_take_lt in Hk by done.
  destruct (m_vecSlots n !! i) as [s|]; simplify_eq/=. eauto.
Qed.

Lemma GetKey_ok n ks i k : has_keys n ks -> ks !! i = Some k -> GetKey n (Z.of_nat i) = Ret (Some k).
Proof.
  intros H Hk. destruct (has_keys_slot _ _ _ _ H Hk) as (s & Hs & <-).
  apply lookup_lt_Some in Hk. unfold GetKey, rd. rewrite (hk_len _ _ H).
  destruct (Z.leb_spec (Z.of_nat (length ks)) (Z.of_nat i)); [lia|].
  destruct (Z.ltb_spec (Z.of_nat i) 0); [lia|]. by rewrite Nat2Z.id, Hs.
Qed.

Lemma CompareAt_ok n ks i k k' :
  has_keys n ks -> ks !! i = Some k' -> CompareAt n k (Z.of_nat i) = Ret (String.compare (trunc_key k) k').
Proof.
  intros H Hk. unfold CompareAt. erewrite GetKey_ok by done.
  pose proof (hk_ok _ _ H) as Ho. rewrite Forall_lookup in Ho. by rewrite compare_key_ok by eauto.
Qed.

(** [k] is before [ks[p]] and behind all the keys before. *)
Definition pos_of (ks : list key) (k : key) (p : nat) : Prop :=
  (p <= length ks)%nat /\ (forall i a, ks !! i = Some a -> (i < p)%nat -> klt a k) /\
  (forall i a, ks !! i = Some a -> (p <= i)%nat -> klt k a).
Definition search_result (ks : list key) (k : key) (r : Z) : Prop :=
  (exists i, r = Z.of_nat i /\ ks !! i = Some k) \/
  (exists p, r < 0 /\ not_found_pos r = Z.of_nat p /\ pos_of ks k p).

Lemma not_found_before i : 0 <= i < 0x10000 -> - (i + 0x10000) < 0 /\ not_found_pos (- (i + 0x10000)) = i.
Proof. intros. unfold not_found_pos. destruct (Z.leb_spec 65536 (- - (i + 65536))); lia. Qed.
Lemma not_found_behind i : 0 <= i < 0xffff -> - (i + 1) < 0 /\ not_found_pos (- (i + 1)) = i + 1.
Proof. intros. unfold not_found_pos. destruct (Z.leb_spec 65536 (- - (i + 1))); lia. Qed.

Lemma below_all ks k i a :
  ksorted ks -> ks !! i = Some a -> klt k a -> forall j b, ks !! j = Some b -> (i <= j)%nat -> klt k b.
Proof.
  intros Hs Ha Hk j b Hb Hj. destruct (decide (i = j)) as [->|]; [by simplify_eq|].
  etrans; [done|]. eapply ksorted_lookup; [done..|lia].
Qed.
Lemma above_all ks k i a :
  ksorted ks -> ks !! i = Some a -> klt a k -> forall j b, ks !! j = Some b -> (j <= i)%nat -> klt b k.
Proof.
  intros Hs Ha Hk j b Hb Hj. destruct (decide (i = j)) as [->|]; [by simplify_eq|].
  etrans; [|done]. eapply ksorted_lookup; [done..|lia].
Qed.

Lemma BinLoop_spec n ks k :
  has_keys n ks -> Z.of_nat (length ks) < 0xffff ->
  forall fuel lo up, (lo <= up < length ks)%nat -> (up - lo < fuel)%nat ->
    (forall i a, ks !! i = Some a -> (i < lo)%nat -> klt a (trunc_key k)) ->
    (forall i a, ks !! i = Some a -> (up < i)%nat -> klt (trunc_key k) a) ->
  exists r, BinLoop fuel n k (Z.of_nat lo) (Z.of_nat up) = Ret r /\ search_result ks (trunc_key k) r.
Proof.
  intros H Hlen. pose proof (hk_sorted _ _ H) as Hs.
  induction fuel as [|fuel IH]; intros lo up Hr Hf Hlo Hup; [lia|]. cbn [BinLoop].
  assert (forall i, (i < length ks)%nat -> exists a, ks !! i = Some a) as Hat
    by (intros i Hi; by apply lookup_lt_is_Some).
  assert (forall p, (p < length ks)%nat ->
    (forall i a, ks !! i = Some a -> (i < p)%nat -> klt a (trunc_key k)) ->
    (forall i a, ks !! i = Some a -> (p <= i)%nat -> klt (trunc_key k) a) ->
    search_result ks (trunc_key k) (- (Z.of_nat p + 0x10000))) as Hbefore.
  { intros p Hp H1 H2. destruct (not_found_before (Z.of_nat p)) as [E1 E2]; [lia|].
    right. exists p. repeat split; [done..|lia|done|done]. }
  assert (forall p, (p < length ks)%nat ->
    (forall i a, ks !! i = Some a -> (i <= p)%nat -> klt a (trunc_key k)) ->
    (forall i a, ks !! i = Some a -> (p < i)%nat -> klt (trunc_key k) a) ->
    search_result ks (trunc_key k) (- (Z.of_nat p + 1))) as Hbehind.
  { intros p Hp H1 H2. destruct (not_found_behind (Z.of_nat p)) as [E1 E2]; [lia|].
    right. exists (S p). repeat split; [done|lia|lia| |].
    - intros i a Ha Hi. apply (H1 i); [done|lia].
    - intros i a Ha Hi. apply (H2 i); [done|lia]. }
  destruct (Hat lo) as [a Ha]; [lia|]. destruct (Hat up) as [b Hb]; [lia|].
  destruct (Z.eqb_spec (Z.of_nat up) (Z.of_nat lo)) as [E|E].
  { assert (up = lo) as -> by lia. rewrite (CompareAt_ok n ks lo k a) by done.
    destruct (compare_cases (trunc_key k) a) as [[-> Hc]|[[-> Hc]|[-> Hc]]]; eexists; (split; [done|]).
    - apply Hbefore; [lia|done|]. by apply (below_all ks _ lo a).
    - left. exists lo. by subst.
    - apply Hbehind; [lia| |done]. by apply (above_all ks _ lo a). }
  destruct (Z.eqb_spec (Z.of_nat up) (Z.of_nat lo + 1)) as [E1|E1].
  { rewrite (CompareAt_ok n ks lo k a) by done.
    destruct (compare_cases (trunc_key k) a) as [[-> Hc]|[[-> Hc]|[-> Hc]]].
    - eexists; (split; [done|]). apply Hbefore; [lia|done|]. by apply (below_all ks _ lo a).
    - eexists; (split; [done|]). left. exists lo. by subst.
    - rewrite (CompareAt_ok n ks up k b) by done.
      destruct (compare_cases (trunc_key k) b) as [[-> Hd]|[[-> Hd]|[-> Hd]]]; eexists; (split; [done|]).
      + apply Hbefore; [lia| |by apply (below_all ks _ up b)]. intros i x Hx Hi.
        eapply (above_all ks _ lo a); [done..|lia].
      + left. exists up. by subst.
      + apply Hbehind; [lia| |done]. by apply (above_all ks _ up b). }
  rewrite Z.shiftr_div_pow2, Z.pow_1_r by done.
  pose proof (Z.div_mod (Z.of_nat lo + Z.of_nat up) 2) as Hm.
  pose proof (Z.mod_pos_bound (Z.of_nat lo + Z.of_nat up) 2) as Hb2.
  set (cur := Z.to_nat ((Z.of_nat lo + Z.of_nat up) / 2)).
  assert ((Z.of_nat lo + Z.of_nat up) / 2 = Z.of_nat cur) as -> by (unfold cur; lia).
  assert (lo < cur < up)%nat by (unfold cur; lia). clearbody cur.
  destruct (Hat cur) as [c Hc]; [lia|]. rewrite (CompareAt_ok n ks cur k c) by done.
  destruct (compare_cases (trunc_key k) c) as [[-> Hd]|[[-> Hd]|[-> Hd]]].
  - replace (Z.of_nat cur - 1) with (Z.of_nat (pred cur)) by lia. apply IH; [lia..|done|].
    intros i x Hx Hi. apply (below_all ks _ cur c Hs Hc Hd i x Hx). lia.
  - eexists. split; [done|]. left. exists cur. by subst.
  - replace (Z.of_nat cur + 1) with (Z.of_nat (S cur)) by lia. apply IH; [lia..| |done].
    intros i x Hx Hi. apply (above_all ks _ cur c Hs Hc Hd i x Hx). lia.
Qed.

Lemma BinSearch_spec n ks k :
  has_keys n ks -> (0 < length ks)%nat -> Z.of_nat (length ks) < 0xffff ->
  exists r, BinSearch n k 0 (m_wNumKeys n - 1) = Ret r /\ search_result ks (trunc_key k) r.
Proof.
  intros H Hp Hl. unfold BinSearch. rewrite (hk_len _ _ H).
  change 0 with (Z.of_nat 0). replace (Z.of_nat (length ks) - 1) with (Z.of_nat (pred (length ks))) by lia.
  apply BinLoop_spec; [done..|lia|lia| |].
  - intros; lia.
  - intros i a Ha. apply lookup_lt_Some in Ha. lia.
Qed.

(** Position of a key among separators: the child to go down to. *)
Definition route (ks : list key) (k : key) (j : nat) : Prop :=
  (j <= length ks)%nat /\ (forall i a, ks !! i = Some a -> (i < j)%nat -> kle a k) /\
  (forall i a, ks !! i = Some a -> (j <= i)%nat -> klt k a).

Lemma search_route ks k r :
  ksorted ks -> search_result ks k r ->
  exists j, route ks k j /\ ((0 <= r /\ r + 1 = Z.of_nat j) \/ (r < 0 /\ not_found_pos r = Z.of_nat j)).
Proof.
  intros Hs [(i & -> & Hi)|(p & Hr & Hp & H1 & H2 & H3)].
  - exists (S i). split; [|left; lia]. split; [by apply lookup_lt_Some in Hi|]. split.
    + intros j a Ha Hj. destruct (decide (j = i)) as [->|]; [left; by simplify_eq|].
      right. eapply ksorted_lookup; [done..|lia].
    + intros j a Ha Hj. eapply ksorted_lookup; [done..|lia].
  - exists p. split; [|by right]. split; [done|]. split; [|done]. intros; right. by eapply H2.
Qed.

(** ** Actions: total correctness

    [wp m d Q]: from [d] the action returns, with [Q]. *)

#[export] Existing Instances act_ret act_bind.

Definition wp {F A} (m : act (F := F) A) (d : CDirImage F) (Q : A -> CDirImage F -> Prop) : Prop :=
  match m d with Ret (d', a) => Q a d' | _ => False end.

Section Logic.
Context {F : Type}.
Implicit Types d : CDirImage F.

Lemma wp_bind {A B} (m : act A) (f : A -> act B) d Q :
  wp m d (fun a d => wp (f a) d Q) -> wp (m ≫= f) d Q.
Proof. unfold wp, mbind, act_bind. by destruct (m d) as [[]| |]. Qed.
Lemma wp_mono {A} (m : act A) d (Q Q' : A -> CDirImage F -> Prop) :
  wp m d Q -> (forall a d, Q a d -> Q' a d) -> wp m d Q'.
Proof. unfold wp. destruct (m d) as [[]| |]; auto. Qed.
Lemma wp_ret {A} (a : A) d (Q : A -> CDirImage F -> Prop) : Q a d -> wp (mret a) d Q.
Proof. done. Qed.
Lemma wp_ask d (Q : CDirImage F -> CDirImage F -> Prop) : Q d d -> wp ask d Q.
Proof. done. Qed.
Lemma wp_run f d (Q : unit -> CDirImage F -> Prop) : Q tt (f d) -> wp (run f) d Q.
Proof. done. Qed.
Lemma wp_put i n d (Q : unit -> CDirImage F -> Prop) :
  Q tt (set_childs (<[i := n]> (m_mapChilds d)) d) -> wp (put i n) d Q.
Proof. done. Qed.
Lemma wp_lift {A} (o : outcome A) d (Q : A -> CDirImage F -> Prop) a : o = Ret a -> Q a d -> wp (lift o) d Q.
Proof. by intros ->. Qed.
Lemma wp_node i n d (Q : CBPlusNode -> CDirImage F -> Prop) : m_mapChilds d !! i = Some n -> Q n d -> wp (node i) d Q.
Proof. unfold wp, node. by intros ->. Qed.
Lemma wp_eq {A} (m : act A) d (Q : A -> CDirImage F -> Prop) : wp m d Q <-> exists d' a, m d = Ret (d', a) /\ Q a d'.
Proof.
  unfold wp. destruct (m d) as [[d' a]| |]; split; naive_solver.
Qed.
Lemma wp_upd i n f d (Q : unit -> CDirImage F -> Prop) :
  m_mapChilds d !! i = Some n -> Q tt (set_childs (<[i := f n]> (m_mapChilds d)) d) -> wp (upd i f) d Q.
Proof. intros H HQ. apply wp_bind. by eapply wp_node. Qed.
Lemma wp_updM i n n' f d (Q : unit -> CDirImage F -> Prop) :
  m_mapChilds d !! i = Some n -> f n = Ret n' -> Q tt (set_childs (<[i := n']> (m_mapChilds d)) d) ->
  wp (updM i f) d Q.
Proof. intros H Hf HQ. apply wp_bind. eapply wp_node; [done|]. apply wp_bind. by eapply wp_lift. Qed.
End Logic.

(** One step of an action.  A node must be known to the context. *)
Ltac wstep :=
  lazymatch goal with
  | |- wp (mbind _ _) _ _ => apply wp_bind
  | |- wp (mret _) _ _ => apply wp_ret
  | |- wp ask _ _ => apply wp_ask
  | |- wp (run _) _ _ => apply wp_run
  | |- wp (put _ _) _ _ => apply wp_put
  | |- wp (node _) _ _ => eapply wp_node; [eassumption|]
  | |- wp (upd _ _) _ _ => eapply wp_upd; [eassumption|]
  | |- wp (lift (Ret _)) _ _ => eapply wp_lift; [reflexivity|]
  | |- wp (lift _) _ _ => eapply wp_lift; [eassumption|]
  | |- wp (if ERROR 0 then _ else ?k) ?d ?Q => change (wp k d Q)
  | |- wp (if SUCCEEDED 0 then ?k else _) ?d ?Q => change (wp k d Q)
  end.
Ltac wsteps := repeat (wstep; cbn beta iota).

(** ** B+ trees *)

(** What the tree sees of a node. *)
Record vnode := V {
  v_leaf : bool;
  v_ks : list key;
  v_es : list KEYPTR_SLOT;
  v_cs : list Z;
  v_next : Z;
  v_parent : option Z;
}.
Definition entries (n : CBPlusNode) : list KEYPTR_SLOT := take (Z.to_nat (m_wNumKeys n)) (m_vecSlots n).
Definition keys (n : CBPlusNode) : list key := szKey <$> entries n.
Definition ptrs (n : CBPlusNode) : list Z := dwBNodeIdx <$> take (Z.to_nat (m_wNumPtrs n)) (m_vecSlots n).
Definition view (n : CBPlusNode) : vnode :=
  V (m_bLeaf n) (keys n) (if m_bLeaf n then entries n else []) (ptrs n) (m_wNextLeaf n) (m_pParent n).

(** The level of a node, 0 for leaves, and its interval of names. *)
Record ginfo := mkG { g_lev : nat; g_lo : option key; g_hi : option key }.
Definition above (lo : option key) (k : key) : Prop := match lo with Some l => kle l k | None => True end.
Definition strictly_above (lo : option key) (k : key) : Prop := match lo with Some l => klt l k | None => True end.
Definition below (k : key) (hi : option key) : Prop := match hi with Some u => klt k u | None => True end.
Definition in_range (g : ginfo) (k : key) : Prop := above (g_lo g) k /\ below k (g_hi g).

Definition lower (g : ginfo) (ks : list key) (j : nat) : option key :=
  match j with O => g_lo g | S j => ks !! j end.
Definition upper (g : ginfo) (ks : list key) (j : nat) : option key :=
  match ks !! j with Some k => Some k | None => g_hi g end.
Definition child_g (g : ginfo) (ks : list key) (j : nat) : ginfo :=
  mkG (pred (g_lev g)) (lower g ks j) (upper g ks j).

(** The shape of a node; [max] bounds its keys.  With [x], a node in the middle
    of an operation, it may have one key more, or none. *)
Record vshape (max : nat) (x : bool) (g : ginfo) (v : vnode) : Prop := mkVshape {
  vs_max : (length (v_ks v) <= if x then S max else max)%nat;
  vs_sorted : ksorted (v_ks v);
  vs_ok : Forall key_ok (v_ks v);
  vs_leaf : v_leaf v = true -> v_ks v = szKey <$> v_es v /\ v_cs v = [];
  vs_inner : v_leaf v = false -> length (v_cs v) = S (length (v_ks v)) /\ (v_ks v <> [] \/ x = true) /\ v_es v = [];
  vs_range : Forall (fun k => in_range g k /\ (v_leaf v = false -> strictly_above (g_lo g) k)) (v_ks v);
}.

(** A tree of height [h]; the nodes [over] are in the middle of an operation. *)
Record tree_ok (max : nat) (over : gset Z) (h : nat) (γ : Z -> ginfo) (root : Z) (m : gmap Z vnode) : Prop := mkTreeOk {
  to_root : γ root = mkG h None None /\ exists v, m !! root = Some v /\ v_parent v = None;
  to_shape : forall i v, m !! i = Some v -> vshape max (bool_decide (i ∈ over)) (γ i) v;
  to_lev : forall i v, m !! i = Some v -> (g_lev (γ i) <= h)%nat /\ (v_leaf v = true <-> g_lev (γ i) = 0%nat);
  to_child : forall i v j c, m !! i = Some v -> v_cs v !! j = Some c ->
    γ c = child_g (γ i) (v_ks v) j /\ exists vc, m !! c = Some vc /\ v_parent vc = Some i;
  to_parent : forall c vc, m !! c = Some vc ->
    match v_parent vc with
    | None => c = root
    | Some p => exists v j, m !! p = Some v /\ v_cs v !! j = Some c
    end;
  to_next : forall i v, m !! i = Some v -> v_leaf v = true ->
    match g_hi (γ i) with
    | None => v_next v = INVALID_BNODE_IDX
    | Some u => v_next v <> INVALID_BNODE_IDX /\
                exists v', m !! v_next v = Some v' /\ v_leaf v' = true /\ g_lo (γ (v_next v)) = Some u
    end;
}.

(** What a directory holds: the inode and the type of each name. *)
Definition holds (m : gmap Z vnode) (k : key) (x : Z * Z) : Prop :=
  exists i v s, m !! i = Some v /\ v_leaf v = true /\ s ∈ v_es v /\ szKey s = k /\
    x = (dwInodeIdx s, byFileType s).

(** *** Intervals *)

Lemma lower_upper_route g ks k j :
  ksorted ks -> in_range g k -> route ks k j -> in_range (child_g g ks j) k.
Proof.
  intros Hs [Hl Hu] (Hj & H1 & H2). split; simpl.
  - destruct j as [|j]; simpl; [done|]. destruct (ks !! j) as [a|] eqn:E; [|done]. apply (H1 j); [done|lia].
  - unfold upper. destruct (ks !! j) as [a|] eqn:E; [|done]. by apply (H2 j).
Qed.

Lemma child_in_range max x g v j k :
  vshape max x g v -> v_leaf v = false -> (j <= length (v_ks v))%nat ->
  in_range (child_g g (v_ks v) j) k -> in_range g k.
Proof.
  intros H Hv Hj [Hl Hu]. simpl in *.
  assert (forall i a, v_ks v !! i = Some a -> in_range g a /\ strictly_above (g_lo g) a) as Hr.
  { intros i a Ha. pose proof (vs_range _ _ _ _ H) as Hf. rewrite Forall_lookup in Hf.
    destruct (Hf i a Ha); auto. }
  split.
  - destruct j as [|j]; simpl in Hl; [done|].
    destruct (lookup_lt_is_Some_2 (v_ks v) j) as [a Ha]; [lia|]. rewrite Ha in Hl. simpl in Hl.
    destruct (Hr _ _ Ha) as [[Ha1 _] _]. unfold above in *. destruct (g_lo g); [|done]. by eapply kle_trans.
  - unfold upper in Hu. destruct (v_ks v !! j) as [a|] eqn:E; [|done].
    destruct (Hr _ _ E) as [[_ Ha2] _]. simpl in Hu. unfold below in *. destruct (g_hi g); [|done]. by etrans.
Qed.

Lemma child_route g ks j k :
  ksorted ks -> (j <= length ks)%nat -> in_range (child_g g ks j) k -> route ks k j.
Proof.
  intros Hs Hj [Hl Hu]. simpl in *. split; [done|]. split.
  - intros i a Ha Hi. destruct j as [|j]; [lia|]. simpl in Hl.
    destruct (lookup_lt_is_Some_2 ks j) as [b Hb]; [lia|]. rewrite Hb in Hl. simpl in Hl.
    destruct (decide (i = j)) as [->|]; [by simplify_eq|]. right. eapply klt_kle; [|done].
    eapply ksorted_lookup; [done..|lia].
  - intros i a Ha Hi. unfold upper in Hu. destruct (ks !! j) as [b|] eqn:E.
    + by apply (below_all ks _ j b Hs E Hu i a).
    + apply lookup_ge_None in E. apply lookup_lt_Some in Ha. lia.
Qed.

Lemma route_unique ks k j1 j2 : route ks k j1 -> route ks k j2 -> j1 = j2.
Proof.
  assert (forall j1 j2, route ks k j1 -> route ks k j2 -> (j1 < j2)%nat -> False) as H.
  { clear. intros j1 j2 (H1 & _ & H2) (H3 & H4 & _) Hj.
    destruct (lookup_lt_is_Some_2 ks j1) as [a Ha]; [lia|].
    apply (kle_nlt a k); [by apply (H4 j1)|by apply (H2 j1)]. }
  intros H1 H2. destruct (Nat.lt_trichotomy j1 j2) as [Hj|[|Hj]]; [|done|]; exfalso; [by apply (H j1 j2)|by apply (H j2 j1)].
Qed.

(** *** Trees *)

Section Tree.
Context {max : nat} {over : gset Z} {h : nat} {γ : Z -> ginfo} {root : Z} {m : gmap Z vnode}.
Context (HT : tree_ok max over h γ root m).

Lemma to_sorted i v : m !! i = Some v -> ksorted (v_ks v).
Proof using HT. intros H. eapply vs_sorted, to_shape; eauto. Qed.

Lemma cs_length i v : m !! i = Some v -> v_leaf v = false -> length (v_cs v) = S (length (v_ks v)).
Proof using HT. intros H Hv. eapply vs_inner; [by eapply to_shape|done]. Qed.

Lemma cs_inner i v j c : m !! i = Some v -> v_cs v !! j = Some c -> v_leaf v = false.
Proof using HT.
  intros H Hc. destruct (v_leaf v) eqn:E; [|done]. destruct (vs_leaf _ _ _ _ (to_shape _ _ _ _ _ _ HT i v H) E) as [_ E'].
  by rewrite E' in Hc.
Qed.

Lemma cs_bound i v j c : m !! i = Some v -> v_cs v !! j = Some c -> (j <= length (v_ks v))%nat.
Proof using HT.
  intros H Hc. pose proof (cs_length i v H (cs_inner _ _ _ _ H Hc)). apply lookup_lt_Some in Hc. lia.
Qed.

Lemma child_lev i v j c : m !! i = Some v -> v_cs v !! j = Some c -> g_lev (γ i) = S (g_lev (γ c)).
Proof using HT.
  intros H Hc. destruct (to_child _ _ _ _ _ _ HT _ _ _ _ H Hc) as [-> _]. simpl.
  pose proof (to_lev _ _ _ _ _ _ HT i v H) as [_ Hl]. rewrite (cs_inner _ _ _ _ H Hc) in Hl.
  destruct (g_lev (γ i)); [|done]. destruct Hl as [_ Hl]. by specialize (Hl eq_refl).
Qed.

(** A name has one node per level. *)
Lemma node_unique k : forall n i1 v1 i2 v2,
  m !! i1 = Some v1 -> m !! i2 = Some v2 -> (h - g_lev (γ i1) = n)%nat -> g_lev (γ i1) = g_lev (γ i2) ->
  in_range (γ i1) k -> in_range (γ i2) k -> i1 = i2.
Proof using HT.
  induction n as [|n IH]; intros i1 v1 i2 v2 H1 H2 Hn Hl Hr1 Hr2;
  pose proof (to_lev _ _ _ _ _ _ HT _ _ H1) as [Hh1 _]; pose proof (to_lev _ _ _ _ _ _ HT _ _ H2) as [Hh2 _].
  - assert (forall i v, m !! i = Some v -> g_lev (γ i) = h -> i = root) as Hroot.
    { intros i v Hi Hh. pose proof (to_parent _ _ _ _ _ _ HT i v Hi) as Hp. destruct (v_parent v) as [p|]; [|done].
      destruct Hp as (vp & j & Hp & Hc). pose proof (child_lev _ _ _ _ Hp Hc).
      pose proof (to_lev _ _ _ _ _ _ HT _ _ Hp) as [? _]. lia. }
    rewrite (Hroot i1 v1), (Hroot i2 v2); [done|done|lia|done|lia].
  - assert (forall i v, m !! i = Some v -> (g_lev (γ i) < h)%nat -> in_range (γ i) k ->
      exists p vp j, m !! p = Some vp /\ v_cs vp !! j = Some i /\ in_range (γ p) k /\
        g_lev (γ p) = S (g_lev (γ i)) /\ route (v_ks vp) k j) as Hp.
    { intros i v Hi Hh Hr. pose proof (to_parent _ _ _ _ _ _ HT i v Hi) as Hp. destruct (v_parent v) as [p|].
      - destruct Hp as (vp & j & Hp & Hc). exists p, vp, j.
        destruct (to_child _ _ _ _ _ _ HT _ _ _ _ Hp Hc) as [Hg _]. rewrite Hg in Hr.
        pose proof (cs_bound _ _ _ _ Hp Hc). pose proof (cs_inner _ _ _ _ Hp Hc).
        split; [done|]. split; [done|].
        split; [by eapply child_in_range; [eapply to_shape| | |]|]. split; [by eapply child_lev|].
        eapply child_route; [by eapply to_sorted|done..].
      - subst. destruct (to_root _ _ _ _ _ _ HT) as [Hg _]. rewrite Hg in Hh. simpl in Hh. lia. }
    destruct (Hp i1 v1 H1) as (p1 & vp1 & j1 & Hp1 & Hc1 & Hr1' & Hl1 & Hj1); [lia|done|].
    destruct (Hp i2 v2 H2) as (p2 & vp2 & j2 & Hp2 & Hc2 & Hr2' & Hl2 & Hj2); [lia|done|].
    assert (p1 = p2) as -> by (eapply (IH p1 vp1 p2 vp2); [done|done|lia|lia|done|done]).
    simplify_eq. assert (j1 = j2) as -> by by eapply route_unique. by simplify_eq.
Qed.

Lemma leaf_unique k i1 v1 i2 v2 :
  m !! i1 = Some v1 -> m !! i2 = Some v2 -> v_leaf v1 = true -> v_leaf v2 = true ->
  in_range (γ i1) k -> in_range (γ i2) k -> i1 = i2.
Proof using HT.
  intros H1 H2 Hv1 Hv2. eapply node_unique; [done..|].
  apply (to_lev _ _ _ _ _ _ HT) in H1 as [_ H1]. apply (to_lev _ _ _ _ _ _ HT) in H2 as [_ H2].
  apply H1 in Hv1. apply H2 in Hv2. congruence.
Qed.

(** The places among the children of a node are distinct. *)
Lemma child_place i v j1 j2 c : m !! i = Some v -> v_cs v !! j1 = Some c -> v_cs v !! j2 = Some c -> j1 = j2.
Proof using HT.
  assert (forall j1 j2, m !! i = Some v -> v_cs v !! j1 = Some c -> v_cs v !! j2 = Some c -> (j1 < j2)%nat -> False) as H.
  { clear j1 j2. intros j1 j2 Hi H1 H2 Hj.
    destruct (to_child _ _ _ _ _ _ HT _ _ _ _ Hi H1) as [G1 _]. destruct (to_child _ _ _ _ _ _ HT _ _ _ _ Hi H2) as [G2 _].
    pose proof (cs_bound _ _ _ _ Hi H2) as Hb. pose proof (to_sorted _ _ Hi) as Hs.
    rewrite G1 in G2. unfold child_g in G2. injection G2 as El Eu.
    destruct j2 as [|j2]; [lia|]. simpl in El. destruct (lookup_lt_is_Some_2 (v_ks v) j2) as [a Ha]; [lia|].
    rewrite Ha in El. destruct j1 as [|j1]; simpl in El.
    - pose proof (vs_range _ _ _ _ (to_shape _ _ _ _ _ _ HT i v Hi)) as Hf. rewrite Forall_lookup in Hf.
      destruct (Hf _ _ Ha) as [_ Hf']. specialize (Hf' (cs_inner _ _ _ _ Hi H1)). rewrite El in Hf'. by apply klt_irrefl in Hf'.
    - pose proof (ksorted_inj _ _ _ _ Hs El Ha). lia. }
  intros Hi H1 H2. destruct (Nat.lt_trichotomy j1 j2) as [Hj|[|Hj]]; [|done|]; exfalso; [by apply (H j1 j2)|by apply (H j2 j1)].
Qed.

(** The parent that a child knows. *)
Lemma child_parent i v j c p vp j' :
  m !! i = Some v -> v_cs v !! j = Some c -> m !! p = Some vp -> v_cs vp !! j' = Some c -> i = p /\ j = j'.
Proof using HT.
  intros Hi Hc Hp Hc'.
  destruct (to_child _ _ _ _ _ _ HT _ _ _ _ Hi Hc) as (_ & vc & H1 & H2).
  destruct (to_child _ _ _ _ _ _ HT _ _ _ _ Hp Hc') as (_ & vc' & H3 & H4). simplify_eq.
  split; [done|]. by apply (child_place i v j j' c).
Qed.

Lemma root_not_child i v j : m !! i = Some v -> v_cs v !! j <> Some root.
Proof using HT.
  intros Hi Hc. destruct (to_child _ _ _ _ _ _ HT _ _ _ _ Hi Hc) as (_ & vc & H1 & H2).
  destruct (to_root _ _ _ _ _ _ HT) as (_ & v' & H3 & H4). simplify_eq.
Qed.

(** What a node is of its parent. *)
Lemma node_parent c vc p :
  m !! c = Some vc -> v_parent vc = Some p ->
  exists vp j, m !! p = Some vp /\ v_cs vp !! j = Some c /\ v_leaf vp = false /\
    γ c = child_g (γ p) (v_ks vp) j /\ (j <= length (v_ks vp))%nat.
Proof using HT.
  intros Hc Hp. pose proof (to_parent _ _ _ _ _ _ HT c vc Hc) as H. rewrite Hp in H. destruct H as (vp & j & H1 & H2).
  exists vp, j. split; [done|]. split; [done|]. split; [by eapply cs_inner|].
  split; [by apply (to_child _ _ _ _ _ _ HT _ _ _ _ H1 H2)|by eapply cs_bound].
Qed.

(** The height is less than the number of nodes. *)
Lemma height_bound : (h < base.size m)%nat.
Proof using HT.
  assert (forall n, (n <= h)%nat -> exists l i v, length l = S n /\ NoDup l /\ (forall x, x ∈ l -> x ∈ dom m) /\
    (forall x, x ∈ l -> (h - n <= g_lev (γ x))%nat) /\ m !! i = Some v /\ g_lev (γ i) = (h - n)%nat) as H.
  { induction n as [|n IH]; intros Hn.
    - destruct (to_root _ _ _ _ _ _ HT) as (Hg & v & Hr & _). exists [root], root, v.
      split; [done|]. split; [apply NoDup_singleton|].
      assert (g_lev (γ root) = h) as Hl by by rewrite Hg.
      split_and!; [intros x ->%list_elem_of_singleton; by apply elem_of_dom_2 in Hr| |done|lia].
      intros x ->%list_elem_of_singleton. lia.
    - destruct IH as (l & i & v & Hl & Hnd & Hd & Hlev & Hi & Hg); [lia|].
      assert (v_leaf v = false) as Hv.
      { destruct (v_leaf v) eqn:E; [|done]. apply (to_lev _ _ _ _ _ _ HT i v Hi) in E. lia. }
      pose proof (cs_length _ _ Hi Hv) as Hcs.
      destruct (lookup_lt_is_Some_2 (v_cs v) 0) as [c Hc]; [lia|].
      pose proof (child_lev _ _ _ _ Hi Hc). destruct (to_child _ _ _ _ _ _ HT _ _ _ _ Hi Hc) as (_ & vc & Hvc & _).
      exists (c :: l), c, vc. split; [simpl; lia|]. split.
      { apply NoDup_cons. split; [|done]. intros Hin. specialize (Hlev _ Hin). lia. }
      split; [intros x [->|Hx]%elem_of_cons; [by apply elem_of_dom_2 in Hvc|auto]|].
      split; [intros x [->|Hx]%elem_of_cons; [lia|specialize (Hlev _ Hx); lia]|].
      split; [done|lia]. }
  destruct (H h) as (l & _ & _ & Hl & Hnd & Hd & _); [done|].
  assert (list_to_set l ⊆ dom m) as Hsub by (intros x; rewrite elem_of_list_to_set; auto).
  apply subseteq_size in Hsub. rewrite size_list_to_set, size_dom in Hsub by done. lia.
Qed.

(** The leaf of a name. *)
Lemma holds_leaf k x i v :
  m !! i = Some v -> v_leaf v = true -> in_range (γ i) k ->
  holds m k x <-> exists s, s ∈ v_es v /\ szKey s = k /\ x = (dwInodeIdx s, byFileType s).
Proof using HT.
  intros Hi Hv Hr. split.
  - intros (i' & v' & s & Hi' & Hv' & Hs & Hk & Hx).
    assert (i' = i) as ->.
    { eapply leaf_unique; [done..| |done]. pose proof (to_shape _ _ _ _ _ _ HT i' v' Hi') as Hsh.
      pose proof (vs_range _ _ _ _ Hsh) as Hf. rewrite Forall_forall in Hf.
      destruct (vs_leaf _ _ _ _ Hsh Hv') as [E _]. apply Hf. rewrite E, <- Hk. by apply list_elem_of_fmap_2. }
    simplify_eq. eauto.
  - intros (s & Hs & Hk & Hx). by exists i, v, s.
Qed.
End Tree.

(** *** The chain of leaves *)

(** Intervals are not empty. *)
Definition proper (g : ginfo) : Prop := match g_lo g, g_hi g with Some a, Some b => klt a b | _, _ => True end.
Definition lo_le (a b : option key) : Prop :=
  match a, b with None, _ => True | Some _, None => False | Some x, Some y => kle x y end.

Lemma child_proper max x g v j :
  vshape max x g v -> v_leaf v = false -> (j <= length (v_ks v))%nat -> proper g -> proper (child_g g (v_ks v) j).
Proof.
  intros H Hv Hj Hp. unfold proper. simpl.
  assert (forall i a, v_ks v !! i = Some a -> below a (g_hi g) /\ strictly_above (g_lo g) a) as Hr.
  { intros i a Ha. pose proof (vs_range _ _ _ _ H) as Hf. rewrite Forall_lookup in Hf.
    destruct (Hf i a Ha) as [[_ ?] ?]. auto. }
  unfold upper. destruct (v_ks v !! j) as [b|] eqn:Eb.
  - destruct j as [|j]; simpl; [destruct (Hr _ _ Eb) as [_ Hs]; unfold strictly_above in Hs; by destruct (g_lo g)|].
    destruct (v_ks v !! j) as [a|] eqn:Ea; [|done]. eapply ksorted_lookup; [by eapply vs_sorted|done..|lia].
  - apply lookup_ge_None in Eb.
    destruct j as [|j]; [done|]. simpl.
    destruct (v_ks v !! j) as [a|] eqn:Ea; [|by destruct (g_hi g)].
    destruct (Hr _ _ Ea) as [Hs _]. unfold below in Hs. by destruct (g_hi g).
Qed.

Section Chain.
Context {max : nat} {over : gset Z} {h : nat} {γ : Z -> ginfo} {root : Z} {m : gmap Z vnode}.
Context (HT : tree_ok max over h γ root m).

Lemma all_proper : forall n i v, m !! i = Some v -> (h - g_lev (γ i) = n)%nat -> proper (γ i).
Proof using HT.
  induction n as [n IH] using lt_wf_ind. intros i v Hi Hn. destruct (v_parent v) as [p|] eqn:Ep.
  - destruct (node_parent HT _ _ _ Hi Ep) as (vp & j & Hp & Hc & Hl & -> & Hj).
    pose proof (child_lev HT _ _ _ _ Hp Hc). pose proof (to_lev _ _ _ _ _ _ HT _ _ Hp) as [? _].
    eapply child_proper; [by eapply to_shape|done|done|]. eapply (IH (h - g_lev (γ p))%nat); [lia|done|done].
  - pose proof (to_parent _ _ _ _ _ _ HT i v Hi) as Hr. rewrite Ep in Hr. subst.
    by destruct (to_root _ _ _ _ _ _ HT) as [-> _].
Qed.

Lemma in_own_range i v a : m !! i = Some v -> g_lo (γ i) = Some a -> in_range (γ i) a.
Proof using HT.
  intros Hi Ha. pose proof (all_proper _ i v Hi eq_refl) as Hp. unfold proper in Hp. unfold in_range, above, below.
  rewrite Ha in *. split; [by left|]. by destruct (g_hi (γ i)).
Qed.

(** The first leaf begins at the bottom, and a leaf begins where the one before
    it ends. *)
Lemma chain_step i v j w :
  m !! i = Some v -> v_leaf v = true -> m !! j = Some w -> v_leaf w = true ->
  lo_le (g_lo (γ i)) (g_lo (γ j)) ->
  j = i \/ exists u, g_hi (γ i) = Some u /\ lo_le (Some u) (g_lo (γ j)).
Proof using HT.
  intros Hi Hv Hj Hw Hle. destruct (decide (j = i)) as [|Hne]; [by left|]. right.
  destruct (g_lo (γ j)) as [b|] eqn:Eb.
  - assert (above (g_lo (γ i)) b) as Ha by (unfold lo_le, above in *; by destruct (g_lo (γ i))).
    destruct (g_hi (γ i)) as [u|] eqn:Eu.
    + exists u. split; [done|]. apply kle_nlt. intros Hbu. apply Hne.
      apply (leaf_unique HT b j w i v); [done..|by eapply in_own_range|]. split; [done|]. by rewrite Eu.
    + exfalso. apply Hne. apply (leaf_unique HT b j w i v); [done..|by eapply in_own_range|].
      split; [done|]. by rewrite Eu.
  - exfalso. apply Hne. destruct (g_lo (γ i)) as [a|] eqn:Ea; [done|].
    (* both begin at the bottom: any key below both ends is in both *)
    assert (exists k, in_range (γ i) k /\ in_range (γ j) k) as (k & Hk1 & Hk2).
    { exists ""%string. unfold in_range, above, below. rewrite Ea, Eb.
      assert (forall o, (exists i v, m !! i = Some v /\ o = g_hi (γ i)) ->
        match o with Some u => klt ""%string u | None => True end) as Hlow.
      { clear - HT. intros [u|] (i & v & Hi & Ho); [|done].
        assert (forall n i v u, (h - g_lev (γ i) = n)%nat -> m !! i = Some v -> g_hi (γ i) = Some u -> u <> ""%string) as Hne.
        { clear - HT. induction n as [n IH] using lt_wf_ind. intros i v u Hn Hi Hu. destruct (v_parent v) as [p|] eqn:Ep.
          - destruct (node_parent HT _ _ _ Hi Ep) as (vp & j & Hp & Hc & Hl & Hg & Hj).
            pose proof (child_lev HT _ _ _ _ Hp Hc). pose proof (to_lev _ _ _ _ _ _ HT _ _ Hp) as [? _].
            rewrite Hg in Hu. simpl in Hu. unfold upper in Hu. destruct (v_ks vp !! j) as [a|] eqn:Ea.
            + simplify_eq. pose proof (vs_ok _ _ _ _ (to_shape _ _ _ _ _ _ HT _ _ Hp)) as Hf.
              rewrite Forall_lookup in Hf. by destruct (Hf _ _ Ea) as (_ & ? & _).
            + eapply (IH (h - g_lev (γ p))%nat); [lia|done|done|done].
          - pose proof (to_parent _ _ _ _ _ _ HT i v Hi) as Hr. rewrite Ep in Hr. subst.
            destruct (to_root _ _ _ _ _ _ HT) as [Hr _]. by rewrite Hr in Hu. }
        specialize (Hne _ i v u eq_refl Hi (eq_sym Ho)). destruct u; [done|]. done. }
      split; (split; [done|]); apply Hlow; eauto. }
    by apply (leaf_unique HT k j w i v).
Qed.

Lemma next_leaf i v u :
  m !! i = Some v -> v_leaf v = true -> g_hi (γ i) = Some u ->
  v_next v <> INVALID_BNODE_IDX /\ exists v', m !! v_next v = Some v' /\ v_leaf v' = true /\ g_lo (γ (v_next v)) = Some u.
Proof using HT. intros Hi Hv Hu. pose proof (to_next _ _ _ _ _ _ HT i v Hi Hv) as H. by rewrite Hu in H. Qed.
End Chain.

(** ** Directories *)

(** The sizes for which a directory works: nodes of a few slots at least, pages
    of a power of two, and page numbers that fit 16 bits. *)
Record node_geom (G : geometry) : Prop := mkNodeGeom {
  ng_ptrs : 7 <= MAX_PTRS_PER_NODE G <= 1000;
  ng_page : exists s, 0 <= s /\ BNODE_SIZE G = 2 ^ s /\ find_shift (BNODE_SIZE G) = s;
  ng_file : MAX_FILE_SIZE G + BNODE_SIZE G < 2 ^ 31;
  ng_index : MAX_FILE_SIZE G / BNODE_SIZE G < INVALID_BNODE_IDX;
}.

Section Dir.
Context (G : geometry) (HG : node_geom G).
Context {F : Type} `{HF : DirFile F}.
Implicit Types d : CDirImage F.

Definition max_keys : nat := Z.to_nat (MAX_KEYS_PER_NODE G).

Record node_ok (i : Z) (n : CBPlusNode) : Prop := mkNodeOk {
  no_this : m_wThisBNodeIdx n = i;
  no_idx : 0 <= i < INVALID_BNODE_IDX;
  no_slots : length (m_vecSlots n) = Z.to_nat (MAX_PTRS_PER_NODE G + 1);
  no_keys : 0 <= m_wNumKeys n <= MAX_PTRS_PER_NODE G;
  no_ptrs : m_wNumPtrs n = if m_bLeaf n then 0 else m_wNumKeys n + 1;
  no_next : m_bLeaf n = false -> m_wNextLeaf n = INVALID_BNODE_IDX;
}.

Definition vtree d : gmap Z vnode := view <$> m_mapChilds d.
Record dir_ok (over : gset Z) (h : nat) (γ : Z -> ginfo) d : Prop := mkDirOk {
  do_tree : tree_ok max_keys over h γ (m_pRootNode d) (vtree d);
  do_node : forall i n, m_mapChilds d !! i = Some n -> node_ok i n;
}.

Lemma vtree_lookup d i n : m_mapChilds d !! i = Some n -> vtree d !! i = Some (view n).
Proof. intros H. unfold vtree. by rewrite lookup_fmap, H. Qed.
Lemma vtree_some d i v : vtree d !! i = Some v -> exists n, m_mapChilds d !! i = Some n /\ v = view n.
Proof. unfold vtree. rewrite lookup_fmap. destruct (m_mapChilds d !! i); naive_solver. Qed.

Lemma length_entries i n : node_ok i n -> length (entries n) = Z.to_nat (m_wNumKeys n).
Proof using HG. intros H. unfold entries. rewrite length_take, (no_slots _ _ H). pose proof (no_keys _ _ H). lia. Qed.
Lemma length_keys i n : node_ok i n -> m_wNumKeys n = Z.of_nat (length (keys n)).
Proof using HG.
  intros H. unfold keys. rewrite length_fmap, (length_entries i) by done. pose proof (no_keys _ _ H). lia.
Qed.
Lemma length_ptrs i n : node_ok i n -> m_wNumPtrs n = Z.of_nat (length (ptrs n)).
Proof using HG.
  intros H. unfold ptrs. rewrite length_fmap, length_take, (no_slots _ _ H), (no_ptrs _ _ H).
  pose proof (no_keys _ _ H). destruct (m_bLeaf n); lia.
Qed.

Lemma node_keys i n max x g : node_ok i n -> vshape max x g (view n) -> has_keys n (keys n).
Proof using HG.
  intros H Hv. split.
  - by eapply length_keys.
  - pose proof (length_keys _ _ H) as E. unfold keys at 2, entries. do 2 f_equal. rewrite E. lia.
  - apply (vs_sorted _ _ _ _ Hv).
  - apply (vs_ok _ _ _ _ Hv).
Qed.

Lemma keys_small i n : node_ok i n -> Z.of_nat (length (keys n)) < 0xffff.
Proof using HG.
  intros H. rewrite <- (length_keys i) by done. pose proof (no_keys _ _ H). pose proof (ng_ptrs _ HG). lia.
Qed.

Lemma rd_lookup v i s : v !! i = Some s -> rd v (Z.of_nat i) = Ret s.
Proof. intros H. unfold rd. destruct (Z.ltb_spec (Z.of_nat i) 0); [lia|]. by rewrite Nat2Z.id, H. Qed.

Lemma ptr_slot n j c : ptrs n !! j = Some c -> exists s, m_vecSlots n !! j = Some s /\ dwBNodeIdx s = c.
Proof.
  unfold ptrs. rewrite list_lookup_fmap. intros H. destruct (take _ _ !! j) as [s|] eqn:E; simplify_eq/=.
  apply lookup_take_Some in E as [E _]. eauto.
Qed.

Lemma GetChild_ok d i n j c nc :
  node_ok i n -> ptrs n !! j = Some c -> m_mapChilds d !! c = Some nc ->
  GetChild d n (Z.of_nat j) = Ret (Some c).
Proof using HG.
  intros H Hc Hn. unfold GetChild. rewrite (length_ptrs i) by done. pose proof (lookup_lt_Some _ _ _ Hc).
  destruct (Z.leb_spec (Z.of_nat (length (ptrs n))) (Z.of_nat j)); [lia|].
  destruct (Z.ltb_spec (Z.of_nat j) 0); [lia|]. simpl. destruct (ptr_slot _ _ _ Hc) as (s & Hs & <-).
  erewrite rd_lookup by done. unfold GetChildDirect. by rewrite Hn.
Qed.

Section InOrder.
Context {over : gset Z} {h : nat} {γ : Z -> ginfo} {d : CDirImage F}.
Context (HD : dir_ok over h γ d).
Let HT := do_tree _ _ _ _ HD.

Lemma view_shape i n : m_mapChilds d !! i = Some n -> vshape max_keys (bool_decide (i ∈ over)) (γ i) (view n).
Proof using HD. intros H. by eapply to_shape, vtree_lookup. Qed.

Lemma child_node i n j c :
  m_mapChilds d !! i = Some n -> ptrs n !! j = Some c ->
  exists nc, m_mapChilds d !! c = Some nc /\ m_pParent nc = Some i /\ γ c = child_g (γ i) (keys n) j /\
    GetChild d n (Z.of_nat j) = Ret (Some c).
Proof using HD HG.
  intros Hi Hc. destruct (to_child _ _ _ _ _ _ HT _ _ j c (vtree_lookup _ _ _ Hi) Hc) as (Hg & vc & Hv & Hp).
  apply vtree_some in Hv as (nc & Hn & ->). exists nc. split; [done|]. split; [done|]. split; [done|].
  eapply GetChild_ok; [by eapply do_node|done..].
Qed.

Lemma inner_ptr i n j :
  m_mapChilds d !! i = Some n -> m_bLeaf n = false -> (j <= length (keys n))%nat -> exists c, ptrs n !! j = Some c.
Proof using HD HG.
  intros Hi Hl Hj. apply lookup_lt_is_Some.
  pose proof (cs_length HT _ _ (vtree_lookup _ _ _ Hi) Hl) as E. simpl in E. lia.
Qed.

Lemma node_search i n k :
  m_mapChilds d !! i = Some n -> m_wNumKeys n <> 0 ->
  exists r, BinSearch n k 0 (m_wNumKeys n - 1) = Ret r /\ search_result (keys n) (trunc_key k) r.
Proof using HD HG.
  intros Hi Hk. pose proof (do_node _ _ _ _ HD i n Hi) as Hok. eapply BinSearch_spec.
  - by eapply node_keys, view_shape.
  - rewrite (length_keys i) in Hk by done. lia.
  - by eapply keys_small.
Qed.

Lemma inner_keys i n : i ∉ over -> m_mapChilds d !! i = Some n -> m_bLeaf n = false -> m_wNumKeys n <> 0.
Proof using HD HG.
  intros Ho Hi Hl. destruct (vs_inner _ _ _ _ (view_shape i n Hi) Hl) as (_ & Hne & _). simpl in Hne.
  destruct Hne as [Hne|Hne]; [|by apply bool_decide_eq_true in Hne].
  rewrite (length_keys i) by by eapply do_node. destruct (keys n); [done|simpl; lia].
Qed.

Lemma size_vtree : base.size (vtree d) = base.size (m_mapChilds d).
Proof using Type. apply map_size_fmap. Qed.

Lemma fuel_enough i n : m_mapChilds d !! i = Some n -> (g_lev (γ i) < tree_fuel d)%nat.
Proof using HD.
  intros Hi. pose proof (height_bound HT) as Hh. rewrite size_vtree in Hh.
  pose proof (to_lev _ _ _ _ _ _ HT _ _ (vtree_lookup _ _ _ Hi)) as [Hl _]. unfold tree_fuel. lia.
Qed.

(** *** The search *)

Lemma SearchLoop_ok k : over = ∅ -> forall fuel i n,
  m_mapChilds d !! i = Some n -> in_range (γ i) (trunc_key k) -> (g_lev (γ i) < fuel)%nat ->
  wp (SearchLoop fuel i k) d (fun r d' => d' = d /\ r.1 = 0 /\ exists ln,
    m_mapChilds d !! r.2 = Some ln /\ m_bLeaf ln = true /\ in_range (γ r.2) (trunc_key k)).
Proof using HD HG.
  intros Ho. induction fuel as [|fuel IH]; intros i n Hi Hr Hf; [lia|]. cbn [SearchLoop]. wsteps.
  destruct (m_bLeaf n) eqn:El; [apply wp_ret; split_and!; [done..|]; by exists n|].
  assert (i ∉ over) as Hio by set_solver. pose proof (inner_keys i n Hio Hi El) as Hk. destruct (Z.eqb_spec (m_wNumKeys n) 0); [done|].
  destruct (node_search i n k Hi Hk) as (r & Hs & Hres). apply wp_bind. eapply wp_lift; [done|].
  pose proof (vs_sorted _ _ _ _ (view_shape i n Hi)) as Hsort. simpl in Hsort.
  destruct (search_route _ _ _ Hsort Hres) as (j & Hj & Hcase).
  assert (exists c nc, m_mapChilds d !! c = Some nc /\ GetChild d n (Z.of_nat j) = Ret (Some c) /\
    in_range (γ c) (trunc_key k) /\ (g_lev (γ c) < fuel)%nat) as (c & nc & Hc & Hgc & Hrc & Hlc).
  { destruct (inner_ptr i n j Hi El) as [c Hc]; [apply Hj|].
    destruct (child_node i n j c Hi Hc) as (nc & Hn & Hp & Hg & Hget). exists c, nc.
    split; [done|]. split; [done|]. split; [rewrite Hg; by apply lower_upper_route|].
    pose proof (child_lev HT i (view n) j c (vtree_lookup _ _ _ Hi) Hc). lia. }
  assert (forall r, r = Z.of_nat j ->
    wp (Child i r) d (fun x d' => d' = d /\ x = Some c)) as Hchild.
  { intros x ->. unfold Child. by wsteps. }
  destruct Hcase as [[H0 Hcase]|[H0 Hcase]].
  - destruct (Z.leb_spec 0 r); [|lia]. apply wp_bind. eapply wp_mono; [by apply Hchild|].
    intros x d' [-> ->]. by eapply IH.
  - destruct (Z.leb_spec 0 r); [lia|]. apply wp_bind. eapply wp_mono; [by apply Hchild|].
    intros x d' [-> ->]. by eapply IH.
Qed.

Lemma root_node : exists n, m_mapChilds d !! m_pRootNode d = Some n /\ m_pParent n = None /\ γ (m_pRootNode d) = mkG h None None.
Proof using HD.
  destruct (to_root _ _ _ _ _ _ HT) as (Hg & v & Hv & Hp). apply vtree_some in Hv as (n & Hn & ->). by exists n.
Qed.

Lemma leaf_lookup k i n x :
  m_mapChilds d !! i = Some n -> m_bLeaf n = true -> in_range (γ i) k ->
  holds (vtree d) k x <-> exists s, s ∈ entries n /\ szKey s = k /\ x = (dwInodeIdx s, byFileType s).
Proof using HD.
  intros Hi Hl Hr. rewrite (holds_leaf HT k x i (view n)) by (done || by apply vtree_lookup).
  simpl. by rewrite Hl.
Qed.

Lemma key_entry i n j k :
  m_mapChilds d !! i = Some n -> keys n !! j = Some k ->
  exists s, s ∈ entries n /\ szKey s = k /\ m_vecSlots n !! j = Some s /\ GetSlot G n (Z.of_nat j) = Ret s.
Proof using HD HG.
  intros Hi Hk. pose proof (do_node _ _ _ _ HD i n Hi) as Hok. unfold keys in Hk. rewrite list_lookup_fmap in Hk.
  destruct (entries n !! j) as [s|] eqn:Es; simplify_eq/=. exists s.
  split; [by eapply list_elem_of_lookup_2|]. split; [done|].
  pose proof (lookup_lt_Some _ _ _ Es) as Hj. rewrite (length_entries i) in Hj by done.
  unfold entries in Es. apply lookup_take_Some in Es as [Es _]. split; [done|].
  unfold GetSlot. replace (SlotNull G n (Z.of_nat j)) with false; [by apply rd_lookup|].
  unfold SlotNull, MAX_KEYS_PER_NODE. pose proof (no_keys _ _ Hok). rewrite (no_ptrs _ _ Hok).
  destruct (IsRoot n), (m_bLeaf n); symmetry; apply Z.ltb_ge; lia.
Qed.

Lemma entry_key n s : s ∈ entries n -> exists j, keys n !! j = Some (szKey s).
Proof.
  intros Hs. apply list_elem_of_lookup in Hs as [j Hj]. exists j. unfold keys. by rewrite list_lookup_fmap, Hj.
Qed.

(** What a search answers: the leaf of the name, and the file. *)
Record found (k : key) (ret : Z) (leaf f : option Z) (d' : CDirImage F) : Prop := mkFound {
  fd_files : exists fs, d' = set_files fs d;
  fd_leaf : exists c n, leaf = Some c /\ m_mapChilds d !! c = Some n /\ m_bLeaf n = true /\
    in_range (γ c) (trunc_key k);
  fd_result :
    ((forall x, ~ holds (vtree d) (trunc_key k) x) /\ ret = ERROR_FALSE /\ f = None /\ d' = d) \/
    (exists i t, holds (vtree d) (trunc_key k) (i, t) /\
       ((ret = STATUS_SUCCESS /\ f = Some i) \/
        (m_mapFiles d !! i = None /\ ret = (df_load i t (m_oFile d)).2 /\ ERROR ret = true /\ f = None)));
}.

Lemma SearchNoLock_ok k :
  over = ∅ -> wp (SearchNoLock G k) d (fun r => found k r.1.1 r.1.2 r.2).
Proof using HD HG.
  intros Ho. unfold SearchNoLock. wsteps. destruct root_node as (rn & Hr & _ & Hg).
  eapply wp_mono; [eapply (SearchLoop_ok k Ho _ _ rn Hr); [by rewrite Hg|by eapply fuel_enough]|].
  intros [ret c] d' (-> & E & n & Hn & Hl & Hin). simpl in *. subst ret.
  wsteps.
  assert (forall ret f d', (exists fs, d' = set_files fs d) ->
    ((forall x, ~ holds (vtree d) (trunc_key k) x) /\ ret = ERROR_FALSE /\ f = None /\ d' = d) \/
    (exists i t, holds (vtree d) (trunc_key k) (i, t) /\
       ((ret = STATUS_SUCCESS /\ f = Some i) \/
        (m_mapFiles d !! i = None /\ ret = (df_load i t (m_oFile d)).2 /\ ERROR ret = true /\ f = None))) ->
    found k ret (Some c) f d') as Hout.
  { intros ret f d' H1 H2. split; [done| |done]. by exists c, n. }
  assert (exists fs, d = set_files fs d) as Hsame by (exists (m_mapFiles d); by destruct d).
  pose proof (leaf_lookup (trunc_key k) c n) as Hholds.
  destruct (Z.eqb_spec (m_wNumKeys n) 0) as [E0|E0].
  { apply wp_ret. simpl. apply Hout; [done|]. left. split; [|done]. intros x Hx. apply Hholds in Hx as (s & Hs & _); [|done..].
    unfold entries in Hs. rewrite E0 in Hs. by apply not_elem_of_nil in Hs. }
  destruct (node_search c n k Hn E0) as (r & Hs & Hres). apply wp_bind. eapply wp_lift; [done|].
  destruct Hres as [(i & -> & Hi)|(p & Hneg & _ & _ & Hp1 & Hp2)].
  - destruct (Z.ltb_spec (Z.of_nat i) 0); [lia|]. destruct (key_entry c n i _ Hn Hi) as (s & Hse & Hk & Hsl & Hget).
    apply wp_bind. eapply wp_lift; [done|]. wsteps.
    assert (holds (vtree d) (trunc_key k) (dwInodeIdx s, byFileType s)) as Hh by (apply Hholds; [done..|by exists s]).
    destruct (m_mapFiles d !! dwInodeIdx s) as [f|] eqn:Ef.
    { apply wp_ret. simpl. apply Hout; [done|]. right. exists (dwInodeIdx s), (byFileType s). split; [done|]. by left. }
    destruct (df_load (dwInodeIdx s) (byFileType s) (m_oFile d)) as [f ret] eqn:El.
    destruct (ERROR ret) eqn:Ee.
    + apply wp_ret. simpl. apply Hout; [done|]. right. exists (dwInodeIdx s), (byFileType s). split; [done|]. right.
      by rewrite El.
    + apply wp_bind. unfold AddFileDirect. wsteps. rewrite Ef. wsteps. simpl. apply Hout; [by eexists|]. right.
      exists (dwInodeIdx s), (byFileType s). split; [done|]. by left.
  - destruct (Z.ltb_spec r 0); [|lia]. apply wp_ret. simpl. apply Hout; [done|]. left. split; [|done].
    intros x Hx. apply Hholds in Hx as (s & Hse & Hk & _); [|done..]. destruct (entry_key _ _ Hse) as [j Hj]. rewrite Hk in Hj.
    destruct (decide (j < p)%nat).
    + eapply klt_irrefl, (Hp1 j); [done|lia].
    + eapply klt_irrefl, (Hp2 j); [done|lia].
Qed.

(** *** Listing *)

Lemma FirstLeaf_ok : forall fuel i n,
  m_mapChilds d !! i = Some n -> (g_lev (γ i) < fuel)%nat ->
  wp (FirstLeaf fuel i) d (fun r d' => d' = d /\ exists c ln, r = Some c /\
    m_mapChilds d !! c = Some ln /\ m_bLeaf ln = true /\ g_lo (γ c) = g_lo (γ i)).
Proof using HD HG.
  induction fuel as [|fuel IH]; intros i n Hi Hf; [lia|]. cbn [FirstLeaf]. wsteps.
  destruct (m_bLeaf n) eqn:El; [apply wp_ret; split; [done|]; by exists i, n|].
  destruct (inner_ptr i n 0 Hi El) as [c Hc]; [lia|].
  destruct (child_node i n 0 c Hi Hc) as (nc & Hn & Hp & Hg & Hget).
  pose proof (child_lev HT i (view n) 0 c (vtree_lookup _ _ _ Hi) Hc).
  unfold Child. wsteps. eapply wp_mono; [eapply (IH c nc Hn); lia|].
  intros r d' (-> & c' & ln & -> & Hln & Hll & Hlo). split; [done|]. exists c', ln. rewrite Hlo, Hg. done.
Qed.

Lemma SlotsOf_spec k v i : (i + k <= length v)%nat -> SlotsOf k v (Z.of_nat i) = Ret (take k (drop i v)).
Proof.
  revert i. induction k as [|k IH]; intros i Hk; simpl; [done|].
  destruct (lookup_lt_is_Some_2 v i) as [s Hs]; [lia|]. rewrite (rd_lookup _ _ _ Hs).
  replace (Z.of_nat i + 1) with (Z.of_nat (S i)) by lia. rewrite IH by lia.
  by rewrite (drop_S _ _ _ Hs).
Qed.
Lemma SlotsOf_entries i n : node_ok i n -> SlotsOf (Z.to_nat (m_wNumKeys n)) (m_vecSlots n) 0 = Ret (entries n).
Proof using HG.
  intros H. change 0 with (Z.of_nat 0). rewrite SlotsOf_spec; [done|].
  rewrite (no_slots _ _ H). pose proof (no_keys _ _ H). lia.
Qed.

(** The entries of the leaves from [lo] on. *)
Definition from_leaf (lo : option key) (s : KEYPTR_SLOT) : Prop :=
  exists j w, vtree d !! j = Some w /\ v_leaf w = true /\ lo_le lo (g_lo (γ j)) /\ s ∈ v_es w.

Lemma ksorted_app l1 l2 :
  ksorted l1 -> ksorted l2 -> (forall a b, a ∈ l1 -> b ∈ l2 -> klt a b) -> ksorted (l1 ++ l2).
Proof.
  induction 1 as [|x l Hs IH Hf]; intros H2 Hab; simpl; [done|]. constructor.
  - apply IH; [done|]. set_solver.
  - apply Forall_app. split; [done|]. apply Forall_forall. set_solver.
Qed.

Lemma entries_range i n s :
  m_mapChilds d !! i = Some n -> m_bLeaf n = true -> s ∈ entries n -> in_range (γ i) (szKey s).
Proof using HD.
  intros Hi Hl Hs. pose proof (vs_range _ _ _ _ (view_shape i n Hi)) as Hf. rewrite Forall_forall in Hf.
  apply Hf. simpl. by apply list_elem_of_fmap_2.
Qed.

Lemma ListLoop_ok : forall fuel i n vis,
  m_mapChilds d !! i = Some n -> m_bLeaf n = true ->
  NoDup vis -> (forall x, x ∈ vis -> x ∈ dom (m_mapChilds d) /\ ~ lo_le (g_lo (γ i)) (g_lo (γ x))) ->
  (length vis + fuel = S (base.size (m_mapChilds d)))%nat ->
  wp (ListLoop fuel i) d (fun l d' => d' = d /\ ksorted (szKey <$> l) /\
    (forall s, s ∈ l <-> from_leaf (g_lo (γ i)) s) /\ Forall (fun s => above (g_lo (γ i)) (szKey s)) l).
Proof using HD HG.
  induction fuel as [|fuel IH]; intros i n vis Hi Hl Hnd Hvis Hlen.
  { exfalso. assert (NoDup (i :: vis)) as Hnd'.
    { constructor; [|done]. intros Hin. destruct (Hvis _ Hin) as [_ Hn]. apply Hn.
      unfold lo_le. destruct (g_lo (γ i)); [by left|done]. }
    assert (list_to_set (i :: vis) ⊆ dom (m_mapChilds d)) as Hsub.
    { intros x. rewrite elem_of_list_to_set, elem_of_cons. intros [->|Hx]; [by eapply elem_of_dom_2|by apply Hvis]. }
    apply subseteq_size in Hsub. rewrite size_list_to_set, size_dom in Hsub by done. simpl in Hsub. lia. }
  cbn [ListLoop]. wsteps. eapply wp_lift; [eapply SlotsOf_entries; by eapply do_node|].
  pose proof (vs_sorted _ _ _ _ (view_shape i n Hi)) as Hsort. simpl in Hsort.
  assert (vtree d !! i = Some (view n)) as Hv by by apply vtree_lookup.
  assert (forall s, s ∈ entries n -> from_leaf (g_lo (γ i)) s) as Hown.
  { intros s Hs. exists i, (view n). split; [done|]. split; [done|]. split; [|simpl; by rewrite Hl].
    unfold lo_le. destruct (g_lo (γ i)); [by left|done]. }
  assert (Forall (fun s => above (g_lo (γ i)) (szKey s)) (entries n)) as Habove.
  { apply Forall_forall. intros s Hs. by apply (entries_range i n). }
  wsteps. pose proof (to_next _ _ _ _ _ _ HT i (view n) Hv Hl) as Hnext.
  destruct (g_hi (γ i)) as [u|] eqn:Eu.
  - destruct Hnext as (Hne & v' & Hv' & Hl' & Hlo). simpl in *.
    destruct (Z.eqb_spec (m_wNextLeaf n) INVALID_BNODE_IDX); [done|].
    apply vtree_some in Hv' as (n' & Hn' & ->). unfold GetChildDirect. rewrite Hn'. wsteps.
    pose proof (all_proper HT _ i _ Hv eq_refl) as Hp. unfold proper in Hp. rewrite Eu in Hp.
    eapply wp_mono; [apply (IH (m_wNextLeaf n) n' (i :: vis)); [done|done| | |simpl; lia]|].
    + constructor; [|done]. intros Hin. destruct (Hvis _ Hin) as [_ Hx]. apply Hx.
      unfold lo_le. destruct (g_lo (γ i)); [by left|done].
    + intros x [->|Hx]%elem_of_cons.
      * split; [by eapply elem_of_dom_2|]. rewrite Hlo. unfold lo_le. destruct (g_lo (γ i)) as [a|]; [|tauto].
        intros Hle. apply kle_nlt in Hle. done.
      * destruct (Hvis _ Hx) as [H1 H2]. split; [done|]. rewrite Hlo. intros H3. apply H2.
        unfold lo_le in *. destruct (g_lo (γ i)) as [a|]; [|done]. destruct (g_lo (γ x)) as [b|]; [|done].
        right. by eapply klt_kle.
    + intros l d' (-> & Hsl & Hin & Hab). rewrite Hlo in Hin, Hab. apply wp_ret. split; [done|]. split.
      { rewrite fmap_app. apply ksorted_app; [done|done|]. intros a b Ha Hb.
        apply list_elem_of_fmap in Ha as (s & -> & Hs). apply list_elem_of_fmap in Hb as (t & -> & Ht).
        rewrite Forall_forall in Hab. specialize (Hab t Ht). simpl in Hab.
        destruct (entries_range i n s Hi Hl Hs) as [_ Hb2]. rewrite Eu in Hb2. by eapply klt_kle. }
      split.
      { intros s. rewrite elem_of_app. split.
        - intros [Hs|Hs]; [by apply Hown|]. apply Hin in Hs as (j & w & H1 & H2 & H3 & H4). exists j, w.
          split; [done|]. split; [done|]. split; [|done]. unfold lo_le in *. destruct (g_lo (γ i)) as [a|]; [|done].
          destruct (g_lo (γ j)); [|done]. right. by eapply klt_kle.
        - intros (j & w & H1 & H2 & H3 & H4).
          destruct (chain_step HT i (view n) j w Hv Hl H1 H2 H3) as [->|(u' & Hu' & Hle)].
          + simplify_eq. left. simpl in H4. by rewrite Hl in H4.
          + right. apply Hin. simplify_eq. by exists j, w. }
      apply Forall_app. split; [done|]. eapply Forall_impl; [done|]. intros s Hs. simpl in Hs.
      unfold above in *. destruct (g_lo (γ i)) as [a|]; [|done]. right. by eapply klt_kle.
  - simpl in Hnext. rewrite Hnext, Z.eqb_refl. apply wp_ret. split; [done|]. split; [done|]. split; [|done].
    intros s. split; [apply Hown|]. intros (j & w & H1 & H2 & H3 & H4).
    destruct (chain_step HT i (view n) j w Hv Hl H1 H2 H3) as [->|(u' & Hu' & Hle)]; [|congruence].
    simplify_eq. simpl in H4. by rewrite Hl in H4.
Qed.

Lemma ListDir_ok :
  m_dwDirState d <> stateStopped ->
  wp ListDir d (fun r d' => d' = d /\ r.1 = 0 /\ ksorted (szKey <$> r.2) /\
    forall k x, holds (vtree d) k x <-> exists s, s ∈ r.2 /\ szKey s = k /\ x = (dwInodeIdx s, byFileType s)).
Proof using HD HG.
  intros Hst. unfold ListDir. wsteps. destruct (root_node) as (rn & Hr & _ & Hg).
  assert (forall P : Prop, P -> match m_dwDirState d with stateStopped => False | _ => P end) as Hm
    by (intros P HP; by destruct (m_dwDirState d)).
  assert (wp (c ← FirstLeaf (tree_fuel d) (m_pRootNode d);
      match c with
      | None => mret (0, [])
      | Some c => l ← ListLoop (tree_fuel d) c; mret (0, l)
      end) d (fun r d' => d' = d /\ r.1 = 0 /\ ksorted (szKey <$> r.2) /\
    forall k x, holds (vtree d) k x <-> exists s, s ∈ r.2 /\ szKey s = k /\ x = (dwInodeIdx s, byFileType s))) as H.
  { wsteps. eapply wp_mono; [eapply FirstLeaf_ok; [done|by eapply fuel_enough]|].
    intros c d' (-> & c' & ln & -> & Hln & Hll & Hlo). wsteps.
    eapply wp_mono; [eapply (ListLoop_ok _ c' ln []); [done|done|constructor|set_solver|done]|].
    intros l d' (-> & Hsl & Hin & _). apply wp_ret. split; [done|]. split; [done|]. split; [done|].
    rewrite Hlo, Hg in Hin. simpl in Hin. intros k x. simpl. split.
    - intros (i & v & s & H1 & H2 & H3 & H4 & H5). exists s. split; [|done]. apply Hin. by exists i, v.
    - intros (s & Hs & Hk & Hx). apply Hin in Hs as (i & v & H1 & H2 & _ & H3). by exists i, v, s. }
  by destruct (m_dwDirState d).
Qed.
End InOrder.
End Dir.
