(* ===== verification/DirSplit.v ===== *)
(** * Changing a B+ tree

    What an insertion does to the tree of [DirWf], on nodes as the tree sees
    them: an entry more in a leaf ([tree_leaf]), a new root above the old one
    ([tree_grow]), and a node that is split in two ([tree_split]).  [DirInsert]
    shows that the actions of [DirTree] do this. *)

From Stdlib Require Import ZArith Lia Sorted.
From stdpp Require Import strings sorting.
From S2P Require Import TaskGroup BlkCache Prelude Buffer BlkBitmap DirTree DirWf.
Local Open Scope Z_scope.

(** ** Lists *)

Definition insert_at {A} (p : nat) (x : A) (l : list A) : list A := take p l ++ x :: drop p l.

Lemma length_insert_at {A} p (x : A) l : (p <= length l)%nat -> length (insert_at p x l) = S (length l).
Proof. intros. unfold insert_at. rewrite length_app, length_take. simpl. rewrite length_drop. lia. Qed.
Lemma insert_at_before {A} p (x : A) l i : (i < p)%nat -> (p <= length l)%nat -> insert_at p x l !! i = l !! i.
Proof.
  intros. unfold insert_at. rewrite lookup_app_l by (rewrite length_take; lia). by rewrite lookup_take_lt.
Qed.
Lemma insert_at_here {A} p (x : A) l : (p <= length l)%nat -> insert_at p x l !! p = Some x.
Proof.
  intros. unfold insert_at. rewrite lookup_app_r by (rewrite length_take; lia).
  rewrite length_take. by replace (p - p `min` length l)%nat with 0%nat by lia.
Qed.
Lemma insert_at_behind {A} p (x : A) l i : (p <= i)%nat -> (p <= length l)%nat -> insert_at p x l !! S i = l !! i.
Proof.
  intros. unfold insert_at. rewrite lookup_app_r by (rewrite length_take; lia).
  rewrite length_take. replace (S i - p `min` length l)%nat with (S (i - p)) by lia. simpl.
  rewrite lookup_drop. f_equal. lia.
Qed.
Lemma elem_of_insert_at {A} p (x y : A) l : y ∈ insert_at p x l <-> y = x \/ y ∈ l.
Proof.
  unfold insert_at. rewrite elem_of_app, elem_of_cons. rewrite <- (take_drop p l) at 3. rewrite elem_of_app. tauto.
Qed.
Lemma fmap_insert_at {A B} (f : A -> B) p x l : f <$> insert_at p x l = insert_at p (f x) (f <$> l).
Proof. unfold insert_at. by rewrite fmap_app, fmap_cons, fmap_take, fmap_drop. Qed.
Lemma Forall_insert_at {A} (P : A -> Prop) p x l : Forall P l -> P x -> Forall P (insert_at p x l).
Proof. rewrite !Forall_forall. intros H Hx y Hy. apply elem_of_insert_at in Hy as [->|]; auto. Qed.

(** A key at its place keeps the order. *)
Lemma ksorted_insert_at ks k p : ksorted ks -> pos_of ks k p -> ksorted (insert_at p k ks).
Proof.
  intros Hs (Hp & H1 & H2). apply ksorted_of_lookup. intros i a b Ha Hb.
  destruct (Nat.lt_trichotomy (S i) p) as [Hi|[Hi|Hi]].
  - rewrite insert_at_before in Ha, Hb by lia. eapply ksorted_lookup; [done..|lia].
  - subst. rewrite insert_at_before in Ha by lia. rewrite insert_at_here in Hb by done. simplify_eq.
    apply (H1 i); [done|lia].
  - rewrite insert_at_behind in Hb by lia. destruct (decide (i = p)) as [->|].
    + rewrite insert_at_here in Ha by done. simplify_eq. by apply (H2 p).
    + destruct i as [|i]; [lia|]. rewrite insert_at_behind in Ha by lia. eapply ksorted_lookup; [done..|lia].
Qed.

(** ** Edits *)

Lemma vshape_mono max x y g v : (x = true -> y = true) -> vshape max x g v -> vshape max y g v.
Proof.
  intros Hxy [H1 H2 H3 H4 H5 H6]. split; try done.
  - destruct x, y; lia.
  - intros Hl. destruct (H5 Hl) as (E1 & E2 & E3). split; [done|]. split; [|done]. destruct E2; auto.
Qed.

Lemma tree_over max over over' h γ root m :
  tree_ok max over h γ root m ->
  (forall i v, m !! i = Some v -> vshape max (bool_decide (i ∈ over')) (γ i) v) ->
  tree_ok max over' h γ root m.
Proof. intros [H1 H2 H3 H4 H5 H6] H. by split. Qed.

Lemma tree_tighten max over i h γ root m :
  tree_ok max over h γ root m ->
  (forall v, m !! i = Some v -> (length (v_ks v) <= max)%nat /\ (v_leaf v = false -> v_ks v <> [])) ->
  tree_ok max (over ∖ {[i]}) h γ root m.
Proof.
  intros HT Hi. eapply tree_over; [done|]. intros x v Hx. pose proof (to_shape _ _ _ _ _ _ HT x v Hx) as Hs.
  destruct (decide (x = i)) as [->|].
  - destruct (Hi v Hx) as [Hm Hn]. rewrite bool_decide_false by set_solver. destruct Hs as [S1 S2 S3 S4 S5 S6].
    split; try done. intros Hl. destruct (S5 Hl) as (E1 & _ & E3). auto.
  - eapply vshape_mono; [|done]. rewrite !bool_decide_eq_true. set_solver.
Qed.

(** The same nodes with the same children: a leaf has other entries. *)
Lemma tree_leaf max over h γ root m i v ks es :
  tree_ok max over h γ root m -> m !! i = Some v -> v_leaf v = true ->
  vshape max true (γ i) (V true ks es [] (v_next v) (v_parent v)) ->
  tree_ok max ({[i]} ∪ over) h γ root (<[i := V true ks es [] (v_next v) (v_parent v)]> m).
Proof.
  intros HT Hi Hl Hs. set (v' := V _ _ _ _ _ _) in *.
  destruct (vs_leaf _ _ _ _ (to_shape _ _ _ _ _ _ HT i v Hi) Hl) as [_ Hcs].
  assert (forall x w, <[i := v']> m !! x = Some w -> exists w0, m !! x = Some w0 /\
    v_leaf w = v_leaf w0 /\ v_cs w = v_cs w0 /\ v_next w = v_next w0 /\ v_parent w = v_parent w0 /\
    (v_cs w <> [] -> v_ks w = v_ks w0)) as Hback.
  { intros x w. destruct (decide (x = i)) as [->|Hne].
    - rewrite lookup_insert_eq. intros [= <-]. exists v. unfold v'. simpl. by rewrite Hl, Hcs.
    - rewrite lookup_insert_ne by done. intros Hw. by exists w. }
  assert (forall x w0, m !! x = Some w0 -> exists w, <[i := v']> m !! x = Some w /\
    v_leaf w = v_leaf w0 /\ v_cs w = v_cs w0 /\ v_next w = v_next w0 /\ v_parent w = v_parent w0) as Hforth.
  { intros x w0 Hw. destruct (decide (x = i)) as [->|Hne].
    - simplify_eq. exists v'. rewrite lookup_insert_eq. unfold v'. simpl. by rewrite Hl, Hcs.
    - exists w0. by rewrite lookup_insert_ne. }
  split.
  - destruct (to_root _ _ _ _ _ _ HT) as (Hg & w & Hw & Hp). split; [done|].
    destruct (Hforth _ _ Hw) as (w' & Hw' & _ & _ & _ & Hp'). exists w'. by rewrite Hp'.
  - intros x w Hx. destruct (decide (x = i)) as [->|Hne].
    + rewrite lookup_insert_eq in Hx. injection Hx as <-. by rewrite bool_decide_true by set_solver.
    + rewrite lookup_insert_ne in Hx by done. eapply vshape_mono; [|by eapply to_shape].
      rewrite !bool_decide_eq_true. set_solver.
  - intros x w Hx. destruct (Hback _ _ Hx) as (w0 & Hw & -> & _). by eapply to_lev.
  - intros x w j c Hx Hc. destruct (Hback _ _ Hx) as (w0 & Hw & _ & Hcs0 & _ & _ & Hks).
    rewrite Hks by (intros E; by rewrite E in Hc). rewrite Hcs0 in Hc.
    destruct (to_child _ _ _ _ _ _ HT _ _ _ _ Hw Hc) as (Hg & vc & Hvc & Hp). split; [done|].
    destruct (Hforth _ _ Hvc) as (vc' & Hvc' & _ & _ & _ & Hp'). exists vc'. by rewrite Hp'.
  - intros x w Hx. destruct (Hback _ _ Hx) as (w0 & Hw & _ & _ & _ & -> & _).
    pose proof (to_parent _ _ _ _ _ _ HT x w0 Hw) as Hpar. destruct (v_parent w0) as [p|]; [|done].
    destruct Hpar as (vp & j & Hp & Hc). destruct (Hforth _ _ Hp) as (vp' & Hp' & _ & Hcs' & _).
    exists vp', j. by rewrite Hcs'.
  - intros x w Hx Hlw. destruct (Hback _ _ Hx) as (w0 & Hw & Hl0 & _ & -> & _). rewrite Hl0 in Hlw.
    pose proof (to_next _ _ _ _ _ _ HT x w0 Hw Hlw) as Hn. destruct (g_hi (γ x)) as [u|]; [|done].
    destruct Hn as (Hne & v2 & Hv2 & Hl2 & Hlo). split; [done|].
    destruct (Hforth _ _ Hv2) as (v3 & Hv3 & Hl3 & _). exists v3. by rewrite Hl3.
Qed.

(** A new root, which has the old one as its only child. *)
Definition set_gi (γ : Z -> ginfo) (i : Z) (g : ginfo) (x : Z) : ginfo := if decide (x = i) then g else γ x.

Definition reparent (p : Z) (v : vnode) : vnode :=
  V (v_leaf v) (v_ks v) (v_es v) (v_cs v) (v_next v) (Some p).

Lemma set_gi_same γ i g : set_gi γ i g i = g.
Proof. unfold set_gi. by rewrite decide_True. Qed.
Lemma set_gi_other γ i g x : x <> i -> set_gi γ i g x = γ x.
Proof. intros. unfold set_gi. by rewrite decide_False. Qed.

Lemma vshape_reparent max x g v p : vshape max x g v -> vshape max x g (reparent p v).
Proof. intros [H1 H2 H3 H4 H5 H6]. by split. Qed.

Lemma tree_grow max over h γ root m v r :
  tree_ok max over h γ root m -> m !! root = Some v -> m !! r = None ->
  tree_ok max ({[r]} ∪ over) (S h) (set_gi γ r (mkG (S h) None None)) r
    (<[r := V false [] [] [root] INVALID_BNODE_IDX None]> (<[root := reparent r v]> m)).
Proof.
  intros HT Hroot Hr. set (m' := <[r := _]> _). set (γ' := set_gi _ _ _).
  assert (root <> r) as Hne by congruence.
  destruct (to_root _ _ _ _ _ _ HT) as (Hg & v0 & Hv0 & Hpv). assert (v0 = v) as -> by congruence.
  assert (forall x, x <> r -> γ' x = γ x) as Hγ by (intros; by apply set_gi_other).
  assert (γ' r = mkG (S h) None None) as Hγr by apply set_gi_same.
  assert (forall x w, m' !! x = Some w -> (x = r /\ w = V false [] [] [root] INVALID_BNODE_IDX None) \/
    (x = root /\ w = reparent r v) \/ (x <> r /\ x <> root /\ m !! x = Some w)) as Hback.
  { intros x w. unfold m'. destruct (decide (x = r)) as [->|]; [rewrite lookup_insert_eq; naive_solver|].
    rewrite lookup_insert_ne by done. destruct (decide (x = root)) as [->|]; [rewrite lookup_insert_eq; naive_solver|].
    rewrite lookup_insert_ne by done. naive_solver. }
  assert (m' !! r = Some (V false [] [] [root] INVALID_BNODE_IDX None)) as Hr' by by apply lookup_insert_eq.
  assert (m' !! root = Some (reparent r v)) as Hroot'
    by (unfold m'; rewrite lookup_insert_ne by done; apply lookup_insert_eq).
  assert (forall x w, m !! x = Some w -> x <> root -> m' !! x = Some w /\ x <> r) as Hforth.
  { intros x w Hx Hn. assert (x <> r) by congruence. split; [|done]. unfold m'. by rewrite !lookup_insert_ne. }
  split.
  - split; [done|]. eauto.
  - intros x w [(-> & ->)|[(-> & ->)|(H1 & H2 & H3)]]%Hback.
    + rewrite bool_decide_true by set_solver. split; simpl; try done; [lia|constructor..|auto].
    + rewrite Hγ by done. apply vshape_reparent. eapply vshape_mono; [|by eapply to_shape].
      rewrite !bool_decide_eq_true. set_solver.
    + rewrite Hγ by done. eapply vshape_mono; [|by eapply to_shape]. rewrite !bool_decide_eq_true. set_solver.
  - intros x w [(-> & ->)|[(-> & ->)|(H1 & H2 & H3)]]%Hback.
    + rewrite Hγr. simpl. split; [lia|]. split; [done|lia].
    + rewrite Hγ by done. pose proof (to_lev _ _ _ _ _ _ HT _ _ Hv0) as [E1 E2]. split; [lia|done].
    + rewrite Hγ by done. pose proof (to_lev _ _ _ _ _ _ HT _ _ H3) as [E1 E2]. split; [lia|done].
  - intros x w j c Hx Hc. destruct (Hback _ _ Hx) as [(-> & ->)|[(-> & ->)|(H1 & H2 & H3)]].
    + simpl in Hc. destruct j as [|j]; [|done]. simpl in Hc. injection Hc as <-.
      rewrite Hγ, Hγr by done. split; [by rewrite Hg|]. eauto.
    + simpl in *. destruct (to_child _ _ _ _ _ _ HT _ _ _ _ Hv0 Hc) as (Hgc & vc & Hvc & Hp).
      assert (c <> root) by (intros ->; by apply (root_not_child HT _ _ j Hv0)).
      destruct (Hforth _ _ Hvc) as [Hf Hcr]; [done|]. rewrite !Hγ by done. eauto.
    + destruct (to_child _ _ _ _ _ _ HT _ _ _ _ H3 Hc) as (Hgc & vc & Hvc & Hp).
      assert (c <> root) by (intros ->; by apply (root_not_child HT _ _ j H3)).
      destruct (Hforth _ _ Hvc) as [Hf Hcr]; [done|]. rewrite !Hγ by done. eauto.
  - intros x w [(-> & ->)|[(-> & ->)|(H1 & H2 & H3)]]%Hback.
    + done.
    + simpl. eexists. exists 0%nat. split; [done|]. done.
    + pose proof (to_parent _ _ _ _ _ _ HT x w H3) as Hpar. destruct (v_parent w) as [p|]; [|done].
      destruct Hpar as (vp & j & Hp & Hc). destruct (decide (p = root)) as [->|].
      * simplify_eq. eauto.
      * destruct (Hforth _ _ Hp) as [Hf _]; [done|]. eauto.
  - intros x w Hx Hl.
    assert (forall w0, m !! x = Some w0 -> v_leaf w0 = true -> v_next w0 = v_next w -> x <> r ->
      match g_hi (γ' x) with
      | Some u => v_next w <> INVALID_BNODE_IDX /\ exists v', m' !! v_next w = Some v' /\ v_leaf v' = true /\ g_lo (γ' (v_next w)) = Some u
      | None => v_next w = INVALID_BNODE_IDX end) as Hgen.
    { intros w0 Hw0 Hl0 <- Hxr. rewrite Hγ by done. pose proof (to_next _ _ _ _ _ _ HT x w0 Hw0 Hl0) as Hn.
      destruct (g_hi (γ x)) as [u|]; [|done]. destruct Hn as (Hni & v2 & Hv2 & Hl2 & Hlo). split; [done|].
      assert (v_next w0 <> r) by congruence. rewrite Hγ by done.
      destruct (decide (v_next w0 = root)) as [E|]; [|destruct (Hforth _ _ Hv2); [done|]; eauto].
      exfalso. rewrite E in *. rewrite Hg in Hlo. done. }
    destruct (Hback _ _ Hx) as [(-> & ->)|[(-> & ->)|(H1 & H2 & H3)]]; [done| |].
    + by apply (Hgen v).
    + by apply (Hgen w).
Qed.

(** A node that is split: [vl] keeps its number, [vr] gets the new number [s], and
    their parent gets the key that separates them. *)
Record halves (max : nat) (g : ginfo) (v vl vr : vnode) (p s : Z) (sep : key) : Prop := mkHalves {
  hv_sep : in_range g sep /\ strictly_above (g_lo g) sep /\ key_ok sep;
  hv_left : vshape max false (mkG (g_lev g) (g_lo g) (Some sep)) vl;
  hv_right : vshape max false (mkG (g_lev g) (Some sep) (g_hi g)) vr;
  hv_kind : v_leaf vl = v_leaf v /\ v_leaf vr = v_leaf v;
  hv_parent : v_parent vl = Some p /\ v_parent vr = Some p;
  hv_next : v_leaf v = true -> v_next vl = s /\ v_next vr = v_next v;
  hv_cs : v_cs v = v_cs vl ++ v_cs vr;
  hv_gl : forall j c, v_cs vl !! j = Some c ->
    child_g (mkG (g_lev g) (g_lo g) (Some sep)) (v_ks vl) j = child_g g (v_ks v) j;
  hv_gr : forall j c, v_cs vr !! j = Some c ->
    child_g (mkG (g_lev g) (Some sep) (g_hi g)) (v_ks vr) j = child_g g (v_ks v) (length (v_cs vl) + j);
}.

Definition split_parent_view (vp : vnode) (j : nat) (sep : key) (s : Z) : vnode :=
  V false (insert_at j sep (v_ks vp)) [] (insert_at (S j) s (v_cs vp)) (v_next vp) (v_parent vp).
(** The tree after the split. *)
Definition split_view (m : gmap Z vnode) (i p s : Z) (vl vr vp' : vnode) (x : Z) : option vnode :=
  if decide (x = p) then Some vp'
  else if decide (x = s) then Some vr
  else if decide (x = i) then Some vl
  else if decide (x ∈ v_cs vr) then reparent s <$> m !! x
  else m !! x.
Definition split_gi (γ : Z -> ginfo) (i s : Z) (sep : key) : Z -> ginfo :=
  set_gi (set_gi γ i (mkG (g_lev (γ i)) (g_lo (γ i)) (Some sep))) s (mkG (g_lev (γ i)) (Some sep) (g_hi (γ i))).

(** The children of the parent after the split. *)
Lemma child_g_before g ks k j i : (j <= length ks)%nat -> (i < j)%nat -> child_g g (insert_at j k ks) i = child_g g ks i.
Proof.
  intros Hj Hi. unfold child_g. f_equal.
  - destruct i as [|i]; [done|]. simpl. apply insert_at_before; lia.
  - unfold upper. by rewrite insert_at_before by lia.
Qed.
Lemma child_g_behind g ks k j i : (j <= length ks)%nat -> (j < i)%nat -> child_g g (insert_at j k ks) (S i) = child_g g ks i.
Proof.
  intros Hj Hi. unfold child_g. f_equal.
  - simpl. destruct i as [|i]; [lia|]. simpl. apply insert_at_behind; lia.
  - unfold upper. by rewrite insert_at_behind by lia.
Qed.
Lemma child_g_left g ks k j : (j <= length ks)%nat ->
  child_g g (insert_at j k ks) j = mkG (pred (g_lev g)) (lower g ks j) (Some k).
Proof.
  intros Hj. unfold child_g. f_equal.
  - destruct j as [|j]; [done|]. simpl. apply insert_at_before; lia.
  - unfold upper. by rewrite insert_at_here by done.
Qed.
Lemma child_g_right g ks k j : (j <= length ks)%nat ->
  child_g g (insert_at j k ks) (S j) = mkG (pred (g_lev g)) (Some k) (upper g ks j).
Proof.
  intros Hj. unfold child_g. f_equal.
  - simpl. by apply insert_at_here.
  - unfold upper. by rewrite insert_at_behind by lia.
Qed.

Section Split.
Context {max : nat} {over : gset Z} {h : nat} {γ : Z -> ginfo} {root : Z} {m : gmap Z vnode}.
Context (HT : tree_ok max over h γ root m).
Context {i p s : Z} {v vp vl vr : vnode} {j : nat} {sep : key}.
Context (Hi : m !! i = Some v) (Hp : m !! p = Some vp) (Hj : v_cs vp !! j = Some i) (Hs : m !! s = None).
Context (HsI : s <> INVALID_BNODE_IDX) (Hmax : (length (v_ks vp) <= max)%nat).
Context (HV : halves max (γ i) v vl vr p s sep).
Context {m' : gmap Z vnode} (Hm' : forall x, m' !! x = split_view m i p s vl vr (split_parent_view vp j sep s) x).
Abbreviation γ' := (split_gi γ i s sep).

Lemma split_bound : (j <= length (v_ks vp))%nat /\ v_leaf vp = false.
Proof using All. split; [by eapply (cs_bound HT)|by eapply (cs_inner HT)]. Qed.

Lemma split_gi_i : γ' i = mkG (g_lev (γ i)) (g_lo (γ i)) (Some sep).
Proof using All. unfold split_gi. rewrite set_gi_other by congruence. apply set_gi_same. Qed.
Lemma split_gi_s : γ' s = mkG (g_lev (γ i)) (Some sep) (g_hi (γ i)).
Proof using All. unfold split_gi. apply set_gi_same. Qed.
Lemma split_gi_other x : x <> i -> x <> s -> γ' x = γ x.
Proof using All. intros. unfold split_gi. by rewrite !set_gi_other. Qed.

Lemma split_levels : g_lev (γ p) = S (g_lev (γ i)) /\ p <> i.
Proof using All.
  pose proof (child_lev HT _ _ _ _ Hp Hj). split; [done|]. intros ->. lia.
Qed.

Lemma moved_child c : c ∈ v_cs vr -> exists jc vc, v_cs v !! jc = Some c /\ m !! c = Some vc /\ v_parent vc = Some i /\
  g_lev (γ i) = S (g_lev (γ c)) /\ c <> p /\ c <> i /\ c <> s.
Proof using All.
  intros Hc. assert (c ∈ v_cs v) as Hc' by (rewrite (hv_cs _ _ _ _ _ _ _ _ HV); set_solver).
  apply list_elem_of_lookup in Hc' as [jc Hjc]. destruct (to_child _ _ _ _ _ _ HT _ _ _ _ Hi Hjc) as (_ & vc & Hvc & Hpc).
  pose proof (child_lev HT _ _ _ _ Hi Hjc). destruct split_levels as [Hl _].
  exists jc, vc. split_and!; try done; [intros ->; lia|intros ->; lia|congruence].
Qed.

Lemma kept_child c jc : v_cs vl !! jc = Some c -> c ∉ v_cs vr.
Proof using All.
  intros Hc Hr. apply list_elem_of_lookup in Hr as [j2 Hj2].
  assert (v_cs v !! jc = Some c) as H1.
  { rewrite (hv_cs _ _ _ _ _ _ _ _ HV), lookup_app_l; [done|]. by eapply lookup_lt_Some. }
  assert (v_cs v !! (length (v_cs vl) + j2)%nat = Some c) as H2.
  { rewrite (hv_cs _ _ _ _ _ _ _ _ HV), lookup_app_r by lia. rewrite <- Hj2. f_equal. lia. }
  pose proof (child_place HT _ _ _ _ _ Hi H1 H2). apply lookup_lt_Some in Hc. lia.
Qed.

(** The kinds of nodes. *)
Lemma split_cases x w : m' !! x = Some w ->
  (x = p /\ w = split_parent_view vp j sep s) \/ (x = s /\ w = vr) \/ (x = i /\ w = vl) \/
  (x <> p /\ x <> s /\ x <> i /\ exists w0, m !! x = Some w0 /\
    ((x ∈ (v_cs vr) /\ w = reparent s w0) \/ (~ (x ∈ v_cs vr) /\ w = w0))).
Proof using All.
  rewrite Hm'. unfold split_view.
  destruct (decide (x = p)); [naive_solver|]. destruct (decide (x = s)); [naive_solver|].
  destruct (decide (x = i)); [naive_solver|]. destruct (decide (x ∈ v_cs vr)).
  - destruct (m !! x) as [w0|] eqn:E; [|done]. simpl. intros [= <-]. right. right. right. split_and!; eauto.
  - intros E. right. right. right. split_and!; eauto.
Qed.

(** A node of the old tree in the new one. *)
Lemma split_keeps x w0 : m !! x = Some w0 -> exists w, m' !! x = Some w /\ v_leaf w = v_leaf w0 /\
  (x <> p -> x <> i -> v_cs w = v_cs w0 /\ v_ks w = v_ks w0 /\ v_next w = v_next w0) /\
  (x ∉ v_cs vr -> v_parent w = v_parent w0) /\ (x ∈ v_cs vr -> v_parent w = Some s).
Proof using All.
  intros Hx. assert (x <> s) by congruence. rewrite Hm'. unfold split_view.
  destruct split_bound as [_ Hlp]. destruct split_levels as [_ Hpi].
  destruct (decide (x = p)) as [->|Hxp].
  { simplify_eq. eexists. split; [done|]. simpl. rewrite Hlp. split; [done|]. split; [done|]. split; [done|].
    intros Hc. destruct (moved_child _ Hc) as (? & ? & _ & _ & _ & _ & ? & _). done. }
  rewrite decide_False by done. destruct (decide (x = i)) as [->|Hxi].
  { simplify_eq. exists vl. split; [done|]. destruct (hv_kind _ _ _ _ _ _ _ _ HV) as [-> _]. split; [done|].
    split; [done|]. split.
    - intros _. destruct (hv_parent _ _ _ _ _ _ _ _ HV) as [-> _].
      destruct (to_child _ _ _ _ _ _ HT _ _ _ _ Hp Hj) as (_ & vc & Hvc & <-). congruence.
    - intros Hc. destruct (moved_child _ Hc) as (? & ? & _ & _ & _ & _ & _ & ? & _). done. }
  destruct (decide (x ∈ v_cs vr)); rewrite Hx; simpl; eexists; (split; [done|]); simpl; tauto.
Qed.

Lemma split_sep_parent : pos_of (v_ks vp) sep j /\ in_range (γ p) sep /\ strictly_above (g_lo (γ p)) sep.
Proof using All.
  destruct (hv_sep _ _ _ _ _ _ _ _ HV) as (Hr & Hsa & _). destruct split_bound as [Hb Hlp].
  pose proof (to_shape _ _ _ _ _ _ HT _ _ Hp) as Hsp. pose proof (vs_sorted _ _ _ _ Hsp) as Hso.
  destruct (to_child _ _ _ _ _ _ HT _ _ _ _ Hp Hj) as [Hg _]. rewrite Hg in Hr, Hsa. simpl in Hsa.
  split; [|split; [by eapply child_in_range|]].
  - destruct (child_route _ _ _ _ Hso Hb Hr) as (_ & H1 & H2). split; [done|]. split; [|done].
    intros k a Ha Hk. destruct (H1 k a Ha Hk) as [->|]; [|done]. exfalso.
    destruct j as [|j']; [lia|]. simpl in Hsa. destruct (lookup_lt_is_Some_2 (v_ks vp) j') as [b Hb']; [lia|].
    rewrite Hb' in Hsa. simpl in Hsa. apply (klt_irrefl sep). destruct (decide (k = j')) as [->|]; [by simplify_eq|].
    etrans; [|done]. eapply ksorted_lookup; [done..|lia].
  - destruct j as [|j']; simpl in Hsa; [done|]. destruct (lookup_lt_is_Some_2 (v_ks vp) j') as [b Hb']; [lia|].
    rewrite Hb' in Hsa. simpl in Hsa. pose proof (vs_range _ _ _ _ Hsp) as Hf. rewrite Forall_lookup in Hf.
    destruct (Hf _ _ Hb') as [_ Hf']. specialize (Hf' Hlp). unfold strictly_above in *. destruct (g_lo (γ p)); [|done].
    by etrans.
Qed.

Lemma split_parent_shape : vshape max true (γ p) (split_parent_view vp j sep s).
Proof using All.
  destruct split_bound as [Hb Hlp]. pose proof (to_shape _ _ _ _ _ _ HT _ _ Hp) as Hsp.
  destruct split_sep_parent as (Hpos & Hr & Hsa). destruct (hv_sep _ _ _ _ _ _ _ _ HV) as (_ & _ & Hok).
  destruct (vs_inner _ _ _ _ Hsp Hlp) as (Hlen & _ & _).
  split; simpl; try done.
  - rewrite length_insert_at by done. lia.
  - apply ksorted_insert_at; [by eapply vs_sorted|done].
  - apply Forall_insert_at; [by eapply vs_ok|done].
  - intros _. rewrite !length_insert_at by lia. split; [lia|]. auto.
  - apply Forall_insert_at; [|done]. eapply Forall_impl; [by eapply vs_range|]. simpl. rewrite Hlp. tauto.
Qed.

Lemma split_root : exists w, γ' root = mkG h None None /\ m' !! root = Some w /\ v_parent w = None.
Proof using All.
  destruct (to_root _ _ _ _ _ _ HT) as (Hg & w0 & Hw0 & Hpw).
  destruct (split_keeps _ _ Hw0) as (w & Hw & _ & _ & Hpar & _). exists w.
  assert (root <> s) by congruence.
  assert (root <> i) by (intros <-; by apply (root_not_child HT _ _ _ Hp Hj)).
  rewrite split_gi_other by done. split; [done|]. split; [done|]. rewrite Hpar; [done|].
  intros Hc. destruct (moved_child _ Hc) as (? & vc & _ & Hvc & Hpc & _). congruence.
Qed.

Lemma split_shape x w : m' !! x = Some w -> vshape max (bool_decide (x ∈ {[p]} ∪ (over ∖ {[i]}))) (γ' x) w.
Proof using All.
  intros Hx. destruct split_levels as [_ Hpi]. assert (p <> s) by congruence.
  destruct (split_cases _ _ Hx) as [(-> & ->)|[(-> & ->)|[(-> & ->)|(H1 & H2 & H3 & w0 & Hw0 & Hw)]]].
  - rewrite split_gi_other by done. rewrite bool_decide_true by set_solver. apply split_parent_shape.
  - rewrite split_gi_s. eapply vshape_mono; [|by apply HV]. done.
  - rewrite split_gi_i. eapply vshape_mono; [|by apply HV]. done.
  - rewrite split_gi_other by done. eapply (vshape_mono _ (bool_decide (x ∈ over))).
    + rewrite !bool_decide_eq_true. set_solver.
    + destruct Hw as [[_ ->]|[_ ->]]; [apply vshape_reparent|]; by eapply to_shape.
Qed.

Lemma split_lev x w : m' !! x = Some w -> (g_lev (γ' x) <= h)%nat /\ (v_leaf w = true <-> g_lev (γ' x) = 0%nat).
Proof using All.
  intros Hx. destruct split_levels as [_ Hpi]. destruct split_bound as [_ Hlp]. assert (p <> s) by congruence.
  pose proof (to_lev _ _ _ _ _ _ HT _ _ Hi) as Hli. destruct (hv_kind _ _ _ _ _ _ _ _ HV) as [Hkl Hkr].
  destruct (split_cases _ _ Hx) as [(-> & ->)|[(-> & ->)|[(-> & ->)|(H1 & H2 & H3 & w0 & Hw0 & Hw)]]].
  - rewrite split_gi_other by done. simpl. rewrite <- Hlp. by eapply to_lev.
  - rewrite split_gi_s, Hkr. done.
  - rewrite split_gi_i, Hkl. done.
  - rewrite split_gi_other by done. pose proof (to_lev _ _ _ _ _ _ HT _ _ Hw0) as Hl. by destruct Hw as [[_ ->]|[_ ->]].
Qed.

(** A child of a node that is neither split nor the parent. *)
Lemma old_child x w0 k c : m !! x = Some w0 -> v_cs w0 !! k = Some c -> x <> p -> x <> i ->
  γ' c = γ c /\ exists vc, m' !! c = Some vc /\ v_parent vc = Some x.
Proof using All.
  intros Hx Hc Hxp Hxi. destruct (to_child _ _ _ _ _ _ HT _ _ _ _ Hx Hc) as (_ & vc & Hvc & Hpc).
  assert (c <> i). { intros ->. destruct (child_parent HT _ _ _ _ _ _ _ Hx Hc Hp Hj). done. }
  assert (c <> s) by congruence. split; [by apply split_gi_other|].
  destruct (split_keeps _ _ Hvc) as (w & Hw & _ & _ & Hpar & _). exists w. split; [done|]. rewrite Hpar; [done|].
  intros Hm. destruct (moved_child _ Hm) as (? & vc' & _ & Hvc' & Hpc' & _). congruence.
Qed.

Lemma split_child x w k c : m' !! x = Some w -> v_cs w !! k = Some c ->
  γ' c = child_g (γ' x) (v_ks w) k /\ exists vc, m' !! c = Some vc /\ v_parent vc = Some x.
Proof using All.
  intros Hx Hc. destruct split_levels as [_ Hpi]. destruct split_bound as [Hb Hlp]. assert (p <> s) by congruence.
  destruct (to_child _ _ _ _ _ _ HT _ _ _ _ Hp Hj) as (Hgi & _).
  assert (m' !! i = Some vl) as Hmi.
  { rewrite Hm'. unfold split_view. rewrite !decide_False by congruence. by rewrite decide_True. }
  assert (m' !! s = Some vr) as Hms.
  { rewrite Hm'. unfold split_view. rewrite decide_False by congruence. by rewrite decide_True. }
  destruct (split_cases _ _ Hx) as [(-> & ->)|[(-> & ->)|[(-> & ->)|(H1 & H2 & H3 & w0 & Hw0 & Hw)]]].
  - (* the parent *)
    simpl in Hc |- *. rewrite (split_gi_other p) by done.
    pose proof (cs_length HT _ _ Hp Hlp) as Hlen.
    assert (forall k0, v_cs vp !! k0 = Some c -> k0 <> j -> γ' c = γ c /\ exists vc, m' !! c = Some vc /\ v_parent vc = Some p) as Hold.
    { intros k0 Hk0 Hne. destruct (to_child _ _ _ _ _ _ HT _ _ _ _ Hp Hk0) as (_ & vc & Hvc & Hpc).
      assert (c <> i) by (intros ->; by apply Hne, (child_place HT _ _ _ _ _ Hp Hk0 Hj)).
      assert (c <> s) by congruence. split; [by apply split_gi_other|].
      destruct (split_keeps _ _ Hvc) as (w & Hw & _ & _ & Hpar & _). exists w. split; [done|]. rewrite Hpar; [done|].
      intros Hmv. destruct (moved_child _ Hmv) as (? & vc' & _ & Hvc' & Hpc' & _). congruence. }
    destruct (Nat.lt_trichotomy k (S j)) as [Hk|[->|Hk]].
    + rewrite insert_at_before in Hc by lia. destruct (decide (k = j)) as [->|].
      * rewrite Hj in Hc. injection Hc as <-. rewrite split_gi_i, child_g_left by done. rewrite Hgi. simpl. split; [done|].
        exists vl. split; [done|]. apply HV.
      * destruct (Hold k Hc) as [-> Hex]; [done|]. rewrite child_g_before by lia.
        split; [|done]. by apply (to_child _ _ _ _ _ _ HT _ _ _ _ Hp Hc).
    + rewrite insert_at_here in Hc by lia. injection Hc as <-. rewrite split_gi_s, child_g_right by done.
      rewrite Hgi. simpl. split; [done|]. exists vr. split; [done|]. apply HV.
    + destruct k as [|k]; [lia|]. rewrite insert_at_behind in Hc by lia.
      destruct (Hold k Hc) as [-> Hex]; [lia|]. rewrite child_g_behind by lia.
      split; [|done]. by apply (to_child _ _ _ _ _ _ HT _ _ _ _ Hp Hc).
  - (* the right half *)
    assert (c ∈ v_cs vr) as Hin by by eapply list_elem_of_lookup_2.
    destruct (moved_child _ Hin) as (jc & vc & Hjc & Hvc & Hpc & _ & H1 & H2 & H3).
    rewrite split_gi_other by done. rewrite split_gi_s.
    rewrite (hv_gr _ _ _ _ _ _ _ _ HV _ _ Hc). split.
    + apply (to_child _ _ _ _ _ _ HT i v); [done|]. rewrite (hv_cs _ _ _ _ _ _ _ _ HV), lookup_app_r by lia.
      rewrite <- Hc. f_equal. lia.
    + destruct (split_keeps _ _ Hvc) as (w & Hw & _ & _ & _ & Hpar). exists w. auto.
  - (* the left half *)
    pose proof (kept_child _ _ Hc) as Hk.
    assert (v_cs v !! k = Some c) as Hcv.
    { rewrite (hv_cs _ _ _ _ _ _ _ _ HV), lookup_app_l; [done|]. by eapply lookup_lt_Some. }
    destruct (to_child _ _ _ _ _ _ HT _ _ _ _ Hi Hcv) as (Hgc & vc & Hvc & Hpc).
    pose proof (child_lev HT _ _ _ _ Hi Hcv).
    assert (c <> i) by (intros ->; lia). assert (c <> s) by congruence.
    rewrite split_gi_other by done. rewrite split_gi_i, (hv_gl _ _ _ _ _ _ _ _ HV _ _ Hc). split; [done|].
    destruct (split_keeps _ _ Hvc) as (w & Hw & _ & _ & Hpar & _). exists w. rewrite Hpar; done.
  - assert (v_cs w = v_cs w0 /\ v_ks w = v_ks w0) as [E1 E2] by by destruct Hw as [[_ ->]|[_ ->]].
    rewrite E1 in Hc. rewrite E2. destruct (old_child _ _ _ _ Hw0 Hc H1 H3) as [-> Hex].
    rewrite split_gi_other by done. split; [|done]. by apply (to_child _ _ _ _ _ _ HT _ _ _ _ Hw0 Hc).
Qed.

Lemma split_in x : x = p \/ x = s \/ x = i -> exists w, m' !! x = Some w.
Proof using All.
  intros Hx. rewrite Hm'. unfold split_view. destruct (decide (x = p)); [eauto|].
  destruct (decide (x = s)); [eauto|]. destruct (decide (x = i)); [eauto|]. naive_solver.
Qed.

Lemma split_at_p : m' !! p = Some (split_parent_view vp j sep s).
Proof using All. rewrite Hm'. unfold split_view. by rewrite decide_True. Qed.
Lemma split_at_s : m' !! s = Some vr.
Proof using All. rewrite Hm'. unfold split_view. rewrite decide_False by congruence. by rewrite decide_True. Qed.
Lemma split_at_i : m' !! i = Some vl.
Proof using All.
  destruct split_levels as [_ Hpi]. rewrite Hm'. unfold split_view. rewrite !decide_False by congruence. by rewrite decide_True.
Qed.

Lemma split_parents x w : m' !! x = Some w ->
  match v_parent w with
  | None => x = root
  | Some q => exists vq k, m' !! q = Some vq /\ v_cs vq !! k = Some x
  end.
Proof using All.
  intros Hx. destruct split_bound as [Hb Hlp]. pose proof (cs_length HT _ _ Hp Hlp) as Hlen.
  assert (forall q vq k, m !! q = Some vq -> v_cs vq !! k = Some x -> (q = i -> x ∉ v_cs vr) ->
    exists vq' k', m' !! q = Some vq' /\ v_cs vq' !! k' = Some x) as Hold.
  { intros q vq k Hq Hk Hqi. destruct (decide (q = p)) as [->|Hqp].
    - assert (vq = vp) as -> by congruence. eexists. destruct (decide (k < S j)%nat).
      + exists k. split; [apply split_at_p|]. simpl. by rewrite insert_at_before by lia.
      + exists (S k). split; [apply split_at_p|]. simpl. by rewrite insert_at_behind by lia.
    - destruct (decide (q = i)) as [->|].
      + assert (vq = v) as -> by congruence. exists vl. rewrite (hv_cs _ _ _ _ _ _ _ _ HV) in Hk.
        apply lookup_app_Some in Hk as [Hk|[_ Hk]]; [exists k; split; [apply split_at_i|done]|].
        exfalso. apply Hqi; [done|]. by eapply list_elem_of_lookup_2.
      + destruct (split_keeps _ _ Hq) as (w' & Hw' & _ & Hsame & _). destruct Hsame as [E _]; [done..|].
        exists w', k. by rewrite E. }
  destruct (split_cases _ _ Hx) as [(-> & ->)|[(-> & ->)|[(-> & ->)|(H1 & H2 & H3 & w0 & Hw0 & Hw)]]].
  - simpl. pose proof (to_parent _ _ _ _ _ _ HT _ _ Hp) as Hpar. destruct (v_parent vp) as [q|]; [|done].
    destruct Hpar as (vq & k & Hq & Hk). apply (Hold q vq k); [done..|].
    intros _ Hc. destruct (moved_child _ Hc) as (? & ? & _ & _ & _ & _ & ? & _). done.
  - destruct (hv_parent _ _ _ _ _ _ _ _ HV) as [_ ->]. eexists. exists (S j). split; [apply split_at_p|].
    simpl. by rewrite insert_at_here by lia.
  - destruct (hv_parent _ _ _ _ _ _ _ _ HV) as [-> _]. eexists. exists j. split; [apply split_at_p|].
    simpl. by rewrite insert_at_before by lia.
  - destruct Hw as [[Hmv ->]|[Hmv ->]]; simpl.
    + apply list_elem_of_lookup in Hmv as [k Hk]. exists vr, k. split; [apply split_at_s|done].
    + pose proof (to_parent _ _ _ _ _ _ HT _ _ Hw0) as Hpar. destruct (v_parent w0) as [q|]; [|done].
      destruct Hpar as (vq & k & Hq & Hk). by apply (Hold q vq k).
Qed.

Lemma split_next x w : m' !! x = Some w -> v_leaf w = true ->
  match g_hi (γ' x) with
  | None => v_next w = INVALID_BNODE_IDX
  | Some u => v_next w <> INVALID_BNODE_IDX /\
              exists w', m' !! v_next w = Some w' /\ v_leaf w' = true /\ g_lo (γ' (v_next w)) = Some u
  end.
Proof using All.
  intros Hx Hl. destruct split_bound as [Hb Hlp]. destruct split_levels as [_ Hpi].
  destruct (hv_kind _ _ _ _ _ _ _ _ HV) as [Hkl Hkr].
  (* the next of an old leaf is still there *)
  assert (forall x0 w0, m !! x0 = Some w0 -> v_leaf w0 = true ->
    match g_hi (γ x0) with
    | None => v_next w0 = INVALID_BNODE_IDX
    | Some u => v_next w0 <> INVALID_BNODE_IDX /\
                exists w', m' !! v_next w0 = Some w' /\ v_leaf w' = true /\ g_lo (γ' (v_next w0)) = Some u
    end) as Hold.
  { intros x0 w0 Hx0 Hl0. pose proof (to_next _ _ _ _ _ _ HT x0 w0 Hx0 Hl0) as Hn.
    destruct (g_hi (γ x0)) as [u|]; [|done]. destruct Hn as (Hne & v' & Hv' & Hl' & Hlo). split; [done|].
    destruct (split_keeps _ _ Hv') as (w' & Hw' & Hlw & _). exists w'. rewrite Hlw. split; [done|]. split; [done|].
    destruct (decide (v_next w0 = i)) as [E|].
    - rewrite E in *. by rewrite split_gi_i.
    - rewrite split_gi_other by congruence. done. }
  destruct (split_cases _ _ Hx) as [(-> & ->)|[(-> & ->)|[(-> & ->)|(H1 & H2 & H3 & w0 & Hw0 & Hw)]]].
  - done.
  - rewrite Hkr in Hl. destruct (hv_next _ _ _ _ _ _ _ _ HV Hl) as [_ ->]. rewrite split_gi_s. simpl. by apply Hold.
  - rewrite Hkl in Hl. destruct (hv_next _ _ _ _ _ _ _ _ HV Hl) as [-> _]. rewrite split_gi_i. simpl.
    split; [done|]. exists vr. split; [apply split_at_s|]. split; [by rewrite Hkr|]. by rewrite split_gi_s.
  - rewrite split_gi_other by done.
    assert (v_leaf w0 = true /\ v_next w = v_next w0) as [E ->] by by destruct Hw as [[_ ->]|[_ ->]].
    by apply Hold.
Qed.

Lemma tree_split : tree_ok max ({[p]} ∪ (over ∖ {[i]})) h γ' root m'.
Proof using All.
  split.
  - destruct split_root as (w & H1 & H2 & H3). eauto.
  - apply split_shape.
  - apply split_lev.
  - intros x w k c. apply split_child.
  - apply split_parents.
  - apply split_next.
Qed.

(** The entries of a leaf are those of its halves. *)
Lemma split_holds k x : (v_leaf v = true -> v_es v = v_es vl ++ v_es vr) -> holds m' k x <-> holds m k x.
Proof using All.
  intros Hes. destruct split_bound as [Hb Hlp]. destruct (hv_kind _ _ _ _ _ _ _ _ HV) as [Hkl Hkr].
  unfold holds. split.
  - intros (y & w & t & Hy & Hl & Ht & Hk).
    destruct (split_cases _ _ Hy) as [(-> & ->)|[(-> & ->)|[(-> & ->)|(H1 & H2 & H3 & w0 & Hw0 & Hw)]]].
    + done.
    + rewrite Hkr in Hl. exists i, v, t. rewrite Hes by done. set_solver.
    + rewrite Hkl in Hl. exists i, v, t. rewrite Hes by done. set_solver.
    + exists y, w0, t. by destruct Hw as [[_ ->]|[_ ->]].
  - intros (y & w & t & Hy & Hl & Ht & Hk). destruct (decide (y = i)) as [->|Hyi].
    + assert (w = v) as -> by congruence. rewrite Hes in Ht by done. apply elem_of_app in Ht as [Ht|Ht].
      * exists i, vl, t. split; [apply split_at_i|]. by rewrite Hkl.
      * exists s, vr, t. split; [apply split_at_s|]. by rewrite Hkr.
    + assert (y <> p) by (intros ->; congruence). assert (y <> s) by congruence.
      assert (m' !! y = if decide (y ∈ v_cs vr) then Some (reparent s w) else Some w) as Hm.
      { rewrite Hm'. unfold split_view. rewrite !decide_False by done. rewrite Hy. by destruct (decide _). }
      destruct (decide (y ∈ v_cs vr)); [exists y, (reparent s w), t|exists y, w, t]; done.
Qed.
End Split.

(** *** The halves of a leaf and of an inner node *)

Lemma ksorted_take ks q : ksorted ks -> ksorted (take q ks).
Proof.
  intros H. apply ksorted_of_lookup. intros i a b Ha Hb.
  apply lookup_take_Some in Ha as [Ha _]. apply lookup_take_Some in Hb as [Hb _]. eapply ksorted_lookup; [done..|lia].
Qed.
Lemma ksorted_drop ks q : ksorted ks -> ksorted (drop q ks).
Proof.
  intros H. apply ksorted_of_lookup. intros i a b Ha Hb. rewrite lookup_drop in Ha, Hb.
  eapply ksorted_lookup; [done..|lia].
Qed.

Section Halves.
Context {max : nat} {x : bool} {g : ginfo} {v : vnode} (Hsh : vshape max x g v).
Context {q : nat} {sep : key} (Hq : (0 < q)%nat) (Hsep : v_ks v !! q = Some sep).

Lemma keys_before k : k ∈ take q (v_ks v) -> klt k sep.
Proof using All.
  intros Hk. apply list_elem_of_lookup in Hk as [i Hi]. apply lookup_take_Some in Hi as [Hi Hl].
  eapply ksorted_lookup; [by eapply vs_sorted|done..].
Qed.
Lemma keys_behind k : k ∈ drop (S q) (v_ks v) -> klt sep k.
Proof using All.
  intros Hk. apply list_elem_of_lookup in Hk as [i Hi]. rewrite lookup_drop in Hi.
  eapply ksorted_lookup; [by eapply vs_sorted|done..|lia].
Qed.
Lemma key_range k : k ∈ v_ks v -> in_range g k /\ (v_leaf v = false -> strictly_above (g_lo g) k).
Proof using All. pose proof (vs_range _ _ _ _ Hsh) as H. rewrite Forall_forall in H. auto. Qed.
Lemma key_at_range : in_range g sep /\ strictly_above (g_lo g) sep /\ key_ok sep.
Proof using All.
  assert (sep ∈ v_ks v) as Hin by by eapply list_elem_of_lookup_2.
  split; [by apply key_range|]. split.
  - destruct (lookup_lt_is_Some_2 (v_ks v) 0) as [k0 Hk0]; [apply lookup_lt_Some in Hsep; lia|].
    assert (k0 ∈ v_ks v) as Hin0 by by eapply list_elem_of_lookup_2.
    destruct (key_range _ Hin0) as [[Ha _] _]. unfold above, strictly_above in *. destruct (g_lo g); [|done].
    eapply kle_klt; [done|]. eapply ksorted_lookup; [by eapply vs_sorted|done..].
  - pose proof (vs_ok _ _ _ _ Hsh) as H. rewrite Forall_forall in H. auto.
Qed.

Lemma leaf_halves p s :
  v_leaf v = true -> (q <= max)%nat -> (length (v_ks v) <= max + q)%nat ->
  halves max g v (V true (take q (v_ks v)) (take q (v_es v)) [] s (Some p))
    (V true (drop q (v_ks v)) (drop q (v_es v)) [] (v_next v) (Some p)) p s sep.
Proof using All.
  intros Hl Hm1 Hm2. destruct (vs_leaf _ _ _ _ Hsh Hl) as [Eks Ecs].
  pose proof (vs_sorted _ _ _ _ Hsh) as Hso. pose proof (vs_ok _ _ _ _ Hsh) as Hok.
  split; simpl; try done.
  - apply key_at_range.
  - split; simpl; try done.
    + rewrite length_take. lia.
    + by apply ksorted_take.
    + by apply Forall_take.
    + intros _. by rewrite Eks, fmap_take.
    + apply Forall_forall. intros k Hk. split; [|done]. pose proof (keys_before _ Hk) as Hb.
      apply elem_of_take in Hk as (i & Hk & _). destruct (key_range k) as [[? _] _]; [by eapply list_elem_of_lookup_2|]. by split.
  - split; simpl; try done.
    + rewrite length_drop. lia.
    + by apply ksorted_drop.
    + by apply Forall_drop.
    + intros _. by rewrite Eks, fmap_drop.
    + apply Forall_forall. intros k Hk. split; [|done]. split; simpl.
      * rewrite (drop_S _ _ _ Hsep) in Hk. apply elem_of_cons in Hk as [->|Hk]; [by left|right; by apply keys_behind].
      * destruct (key_range k) as [[_ ?] _]; [|done]. by apply (subseteq_drop q).
Qed.

Lemma inner_halves p s nl nr :
  v_leaf v = false -> (q <= max)%nat -> (S q < length (v_ks v))%nat -> (length (v_ks v) <= max + S q)%nat ->
  halves max g v (V false (take q (v_ks v)) [] (take (S q) (v_cs v)) nl (Some p))
    (V false (drop (S q) (v_ks v)) [] (drop (S q) (v_cs v)) nr (Some p)) p s sep.
Proof using All.
  intros Hl Hm1 Hm2 Hm3. destruct (vs_inner _ _ _ _ Hsh Hl) as (Hlen & _ & _).
  pose proof (vs_sorted _ _ _ _ Hsh) as Hso. pose proof (vs_ok _ _ _ _ Hsh) as Hok.
  split; simpl; try done.
  - apply key_at_range.
  - split; simpl; try done.
    + rewrite length_take. lia.
    + by apply ksorted_take.
    + by apply Forall_take.
    + intros _. rewrite !length_take. split; [lia|]. split; [|done]. left. intros E.
      apply (f_equal length) in E. rewrite length_take in E. simpl in E. lia.
    + apply Forall_forall. intros k Hk. pose proof (keys_before _ Hk) as Hb.
      apply elem_of_take in Hk as (i & Hk & _).
      destruct (key_range k) as [[? _] ?]; [by eapply list_elem_of_lookup_2|]. split; [by split|auto].
  - split; simpl; try done.
    + rewrite length_drop. lia.
    + by apply ksorted_drop.
    + by apply Forall_drop.
    + intros _. rewrite !length_drop. split; [lia|]. split; [|done]. left. intros E.
      apply (f_equal length) in E. rewrite length_drop in E. simpl in E. lia.
    + apply Forall_forall. intros k Hk. pose proof (keys_behind _ Hk) as Hb. split; [|done].
      split; [by right|]. destruct (key_range k) as [[_ ?] _]; [|done]. by apply (subseteq_drop (S q)).
  - by rewrite Hl.
  - symmetry. apply (take_drop (S q)).
  - intros j c Hc. apply lookup_lt_Some in Hc. rewrite length_take in Hc. unfold child_g. simpl. f_equal.
    + destruct j as [|j]; [done|]. simpl. apply lookup_take_lt. lia.
    + unfold upper. simpl. destruct (decide (j = q)) as [->|].
      * rewrite Hsep, lookup_take_ge by done. done.
      * rewrite lookup_take_lt by lia. destruct (lookup_lt_is_Some_2 (v_ks v) j) as [k ->]; [lia|done].
  - intros j c Hc. rewrite length_take, Nat.min_l by lia. unfold child_g. simpl. f_equal.
    + destruct j as [|j]; simpl; [by rewrite Nat.add_0_r, Hsep|]. rewrite lookup_drop. f_equal. lia.
    + unfold upper. rewrite lookup_drop. simpl. by replace (S (q + j)) with (S q + j)%nat by lia.
Qed.
End Halves.
