(* ===== verification/DirInsert.v ===== *)
(** * Adding names to a directory

    [InsertOnly], [Split], [Insert] and [CreateFile] of [DirTree] do to the tree
    what [DirSplit] says, and keep memory and disk together ([store_ok]): a node
    that is not on the disk as it is in memory is marked for the next commit.
    The file below the directory is an instance of [DirFileOk], pages that keep
    what is written. *)

From Stdlib Require Import ZArith Lia Sorted.
From stdpp Require Import strings sorting.
From S2P Require Import TaskGroup BlkCache Prelude Buffer BlkBitmap DirTree DirWf DirSplit.
Local Open Scope Z_scope.

(** ** The file of a directory

    [df_page] is what a page holds, [df_room] how many pages the file may grow
    by. *)
Class DirFileOk (G : geometry) (F : Type) {HDF : DirFile F} := {
  df_inv : F -> Prop;
  df_page : F -> Z -> list Z;
  df_room : F -> nat;
  df_fits : forall f, df_inv f -> 0 <= df_size f /\ (BNODE_SIZE G | df_size f) /\
    df_size f + Z.of_nat (df_room f) * BNODE_SIZE G <= MAX_FILE_SIZE G;
  df_write_ok : forall f i l,
    df_inv f -> 0 <= i -> i * BNODE_SIZE G <= df_size f ->
    (i * BNODE_SIZE G < df_size f \/ (0 < df_room f)%nat) -> Z.of_nat (length l) = BNODE_SIZE G ->
    let r := df_write (i * BNODE_SIZE G) l f in
    df_inv r.1 /\ ERROR r.2 = false /\ df_size r.1 = Z.max (df_size f) ((i + 1) * BNODE_SIZE G) /\
    df_root r.1 = df_root f /\
    (df_room f <= df_room r.1 + (if (i * BNODE_SIZE G <? df_size f)%Z then 0 else 1))%nat /\
    (forall j, 0 <= j -> j * BNODE_SIZE G < df_size r.1 ->
       df_page r.1 j = if decide (j = i) then l else df_page f j);
  df_read_ok : forall f i,
    df_inv f -> 0 <= i -> i * BNODE_SIZE G < df_size f ->
    (df_read (i * BNODE_SIZE G) (BNODE_SIZE G) f).1 = df_page f i /\
    ERROR (df_read (i * BNODE_SIZE G) (BNODE_SIZE G) f).2 = false;
  df_flush_ok : forall f r,
    df_inv f -> let f' := (df_flush_inode r f).1 in
    df_inv f' /\ ERROR (df_flush_inode r f).2 = false /\ df_root f' = r /\
    df_size f' = df_size f /\ df_room f' = df_room f /\ (forall j, df_page f' j = df_page f j);
  df_create_ok : forall f t,
    df_inv f -> let f' := (df_create t f).1.1 in
    df_inv f' /\ df_root f' = df_root f /\ df_size f' = df_size f /\
    (df_room f <= S (df_room f'))%nat /\ (forall j, df_page f' j = df_page f j) /\
    0 <= (df_create t f).1.2 < 2 ^ 32;
}.

(** ** The pool of free pages *)

(** The pages of the pool: the last entry of a full one is the number of the
    next. *)
Fixpoint chain (G : geometry) (i : Z) (v : list (Z * FREE_BNODES)) : Prop :=
  match v with
  | [] => False
  | (j, f) :: v =>
      j = i /\ m_wBNCount f <= GetMaxCount G /\
      match v with
      | [] => m_bNextBNode f = false
      | _ => m_bNextBNode f = true /\ IsFull G f = true /\ exists x, last (m_arrFreeBNIdx f) = Some x /\ chain G x v
      end
  end.
Definition pool_entries (v : list (Z * FREE_BNODES)) : list Z := concat (map (fun p => m_arrFreeBNIdx p.2) v).
(** The free pages. *)
Definition free_pages (head : Z) (v : list (Z * FREE_BNODES)) : list Z :=
  if head =? INVALID_BNODE_IDX then [] else head :: pool_entries v.
Record pool_ok (G : geometry) (head : Z) (v : list (Z * FREE_BNODES)) : Prop := mkPoolOk {
  po_chain : if head =? INVALID_BNODE_IDX then v = [] else chain G head v;
  po_nodup : NoDup (free_pages head v);
  po_range : Forall (fun x => 0 <= x < INVALID_BNODE_IDX) (free_pages head v);
}.

Lemma pool_entries_app v w : pool_entries (v ++ w) = pool_entries v ++ pool_entries w.
Proof. unfold pool_entries. by rewrite map_app, concat_app. Qed.
Lemma pool_entries_one i f : pool_entries [(i, f)] = m_arrFreeBNIdx f.
Proof. unfold pool_entries. simpl. by rewrite app_nil_r. Qed.

Lemma chain_cons G i j f v :
  v <> [] -> chain G i ((j, f) :: v) <-> j = i /\ m_wBNCount f <= GetMaxCount G /\
    m_bNextBNode f = true /\ IsFull G f = true /\ exists x, last (m_arrFreeBNIdx f) = Some x /\ chain G x v.
Proof. destruct v; [done|]. intros _. done. Qed.

(** The last page is empty and goes. *)
Lemma chain_pop G h v j g i f :
  chain G h (v ++ [(j, g); (i, f)]) -> chain G h (v ++ [(j, set_next false g)]) /\ last (m_arrFreeBNIdx g) = Some i.
Proof.
  revert h. induction v as [|[k e] v IH]; intros h.
  - simpl. intros (-> & Hc & Hn & Hf & x & Hx & -> & _). done.
  - simpl app. rewrite !chain_cons by (by destruct v). intros (-> & Hc & Hn & Hf & x & Hx & Hch).
    destruct (IH x Hch) as [H1 H2]. split; [|done]. split_and!; try done. by exists x.
Qed.
Lemma chain_last G h v i f f' :
  chain G h (v ++ [(i, f)]) -> m_bNextBNode f' = m_bNextBNode f -> m_wBNCount f' <= m_wBNCount f ->
  chain G h (v ++ [(i, f')]).
Proof.
  intros H Hn Hc. revert h H. induction v as [|[k e] v IH]; intros h.
  - simpl. intros (-> & Hm & Hf). rewrite Hn. split; [done|]. split; [lia|done].
  - simpl app. rewrite !chain_cons by (by destruct v). intros (-> & Hm & Hn' & Hf & x & Hx & Hch).
    split_and!; try done. exists x. auto.
Qed.
(** A page of the pool is the first one or an entry. *)
Lemma chain_in G h v i : chain G h v -> i ∈ map fst v -> i ∈ h :: pool_entries v.
Proof.
  revert h. induction v as [|[j e] v IH]; intros h; [done|]. destruct (decide (v = [])) as [->|Hv].
  - simpl. intros (-> & _) Hi. apply list_elem_of_singleton in Hi as ->. by left.
  - rewrite chain_cons by done. intros (-> & _ & _ & _ & x & Hx & Hch) Hi. simpl in Hi.
    apply elem_of_cons in Hi as [->|Hi]; [by left|]. right. unfold pool_entries. simpl. apply elem_of_app.
    specialize (IH x Hch Hi). apply elem_of_cons in IH as [->|]; [left; by apply last_Some_elem_of|by right].
Qed.
Lemma pool_in G h v i : pool_ok G h v -> i ∈ map fst v -> i ∈ free_pages h v.
Proof.
  intros [P1 _ _] Hi. unfold free_pages. destruct (h =? INVALID_BNODE_IDX); [subst; by apply not_elem_of_nil in Hi|].
  by eapply chain_in.
Qed.

(** ** Memory and disk *)

Section Store.
Context (G : geometry) (HG : node_geom G) (HS : IsSafeMode G = true).
Context {F : Type} {HF : DirFile F} {HFok : DirFileOk G F}.
Implicit Types d : CDirImage F.

Definition head_of d : Z :=
  match m_mapChilds d !! m_pRootNode d with Some n => m_wFreeBNodeIdx n | None => INVALID_BNODE_IDX end.
Definition in_file (f : F) (i : Z) : Prop := 0 <= i < INVALID_BNODE_IDX /\ i * BNODE_SIZE G < df_size f.

Definition node_id (i : Z) (n : CBPlusNode) : Prop := m_wThisBNodeIdx n = i /\ 0 <= i < INVALID_BNODE_IDX.

(** What a page keeps of a node: of the last slot of an inner node the pointer,
    not the name. *)
Definition image (n : CBPlusNode) :=
  (m_wThisBNodeIdx n, m_wNextLeaf n, m_bLeaf n, u16 (m_wFreeBNodeIdx n), m_wNumKeys n, m_wNumPtrs n, keys n,
   map (fun s => (dwBNodeIdx s, byFileType s)) (take (Z.to_nat (slots_used n)) (m_vecSlots n))).
Definition on_page (l : list Z) (n : CBPlusNode) : Prop := exists m, image m = image n /\ hton G m = l.

Lemma on_page_hton n : on_page (hton G n) n.
Proof. by exists n. Qed.
Lemma on_page_image l n n' : image n' = image n -> on_page l n -> on_page l n'.
Proof. intros E (m & Em & Hm). exists m. by rewrite E. Qed.

(** What is in memory is on the disk, or marked; the nodes of [X] are not marked
    yet. *)
Record store_ok (X : gset Z) d : Prop := mkStoreOk {
  so_inv : df_inv (m_oFile d);
  so_root : m_dwRootBNode d = m_pRootNode d /\ is_Some (m_mapChilds d !! m_pRootNode d);
  so_node : forall i n, m_mapChilds d !! i = Some n -> node_id i n /\ in_file (m_oFile d) i;
  so_pool : pool_ok G (head_of d) (m_vecFreeBNodes d);
  so_free : forall x, x ∈ free_pages (head_of d) (m_vecFreeBNodes d) ->
    m_mapChilds d !! x = None /\ in_file (m_oFile d) x;
  so_disk : forall i n, m_mapChilds d !! i = Some n ->
    i ∈ X \/ i ∈ m_setDirtyNodes d \/ on_page (df_page (m_oFile d) i) n;
  so_dpool : forall i f, (i, f) ∈ m_vecFreeBNodes d ->
    i ∈ m_setDirtyNodes d \/ df_page (m_oFile d) i = hton_free G f;
  so_droot : u32 (-2) ∈ m_setDirtyNodes d \/ df_root (m_oFile d) = m_dwRootBNode d;
}.

Lemma pos_page i : BNODE_IDX_TO_POS G i = i * BNODE_SIZE G.
Proof using HG.
  destruct (ng_page _ HG) as (s & Hs & E & E'). unfold BNODE_IDX_TO_POS. rewrite E', E, Z.shiftl_mul_pow2 by done. done.
Qed.
Lemma page_pos : 512 <= BNODE_SIZE G.
Proof using HG.
  pose proof (ng_ptrs _ HG) as H. unfold MAX_PTRS_PER_NODE in H.
  pose proof (Z_div_mod_eq_full (BNODE_SIZE G) sizeof_KEYPTR_SLOT) as E. unfold sizeof_KEYPTR_SLOT, REGFS_NAME_LENGTH in *.
  pose proof (Z.mod_pos_bound (BNODE_SIZE G) (96 + 8)). lia.
Qed.

Lemma in_file_mono f f' i : df_size f <= df_size f' -> in_file f i -> in_file f' i.
Proof. unfold in_file. lia. Qed.

(** The number of a page past the end. *)
Lemma page_numbers f i : df_inv f -> 0 <= i -> i * BNODE_SIZE G < df_size f -> in_file f i.
Proof using HG.
  intros Hf Hi Hs. split; [|done]. split; [done|]. destruct (df_fits f Hf) as (H1 & [k Hk] & H3).
  pose proof page_pos. assert (i < k) by nia.
  assert (k <= MAX_FILE_SIZE G / BNODE_SIZE G) by (apply Z.div_le_lower_bound; nia).
  pose proof (ng_index _ HG). lia.
Qed.

Lemma u16_idx i : 0 <= i < INVALID_BNODE_IDX -> u16 i = i.
Proof. intros. apply uN_small. unfold INVALID_BNODE_IDX, USHRT_MAX in *. lia. Qed.
Lemma u32_idx i : 0 <= i < INVALID_BNODE_IDX -> u32 i = i.
Proof. intros. apply uN_small. unfold INVALID_BNODE_IDX, USHRT_MAX in *. lia. Qed.

(** *** Pages have the size of a page *)

Lemma length_pad_to n l : Z.of_nat (length l) <= n -> Z.of_nat (length (pad_to n l)) = n.
Proof. intros. unfold pad_to. rewrite length_app, length_replicate. lia. Qed.

Lemma length_name_bytes k : length (name_bytes k) = 96%nat.
Proof. unfold name_bytes. rewrite length_firstn, length_app, length_replicate. unfold REGFS_NAME_LENGTH. lia. Qed.
Lemma length_be n z : length (be_bytes n z) = n.
Proof. unfold be_bytes. rewrite length_rev. revert z. induction n; intros; simpl; auto. Qed.
Lemma length_slot_bytes s : length (slot_bytes s) = 104%nat.
Proof. unfold slot_bytes. rewrite !length_app, length_name_bytes, length_be. done. Qed.
Lemma length_concat_const {A} (l : list (list A)) k : (forall x, x ∈ l -> length x = k) -> length (concat l) = (k * length l)%nat.
Proof.
  induction l as [|x l IH]; intros H; simpl; [lia|]. rewrite length_app, IH, (H x); [lia|by left|].
  intros y Hy. apply H. by right.
Qed.
Lemma length_slots v : length (concat (map slot_bytes v)) = (104 * length v)%nat.
Proof.
  rewrite (length_concat_const _ 104); [by rewrite length_map|].
  intros x Hx. apply list_elem_of_fmap in Hx as (s & -> & _). apply length_slot_bytes.
Qed.

Lemma slots_used_bound i n : node_ok G i n -> m_bLeaf n = true \/ m_wNumKeys n <= MAX_KEYS_PER_NODE G ->
  0 <= slots_used n <= MAX_PTRS_PER_NODE G.
Proof using HG.
  intros H Hk. unfold slots_used, MAX_KEYS_PER_NODE in *. pose proof (no_keys _ _ _ H). rewrite (no_ptrs _ _ _ H).
  pose proof (ng_ptrs _ HG). destruct (m_bLeaf n); lia.
Qed.

Lemma length_hton n : 0 <= slots_used n <= MAX_PTRS_PER_NODE G -> Z.of_nat (length (hton G n)) = BNODE_SIZE G.
Proof using HG.
  intros Hu. unfold hton. apply length_pad_to. rewrite !length_app.
  assert (Z.of_nat (length (concat (map slot_bytes (take (Z.to_nat (slots_used n)) (m_vecSlots n))))) <=
    MAX_PTRS_PER_NODE G * sizeof_KEYPTR_SLOT) as Hc.
  { rewrite length_slots, length_take. unfold sizeof_KEYPTR_SLOT, REGFS_NAME_LENGTH. lia. }
  pose proof (length_pad_to _ _ Hc) as E. rewrite !length_be. simpl.
  assert (MAX_PTRS_PER_NODE G * sizeof_KEYPTR_SLOT + 14 <= BNODE_SIZE G); [|lia].
  unfold MAX_PTRS_PER_NODE. pose proof (Z_div_mod_eq_full (BNODE_SIZE G) sizeof_KEYPTR_SLOT) as E'.
  unfold sizeof_KEYPTR_SLOT, REGFS_NAME_LENGTH in *. pose proof (Z.mod_pos_bound (BNODE_SIZE G) (96 + 8)). lia.
Qed.

Lemma length_hton_free f : m_wBNCount f <= GetMaxCount G -> Z.of_nat (length (hton_free G f)) = BNODE_SIZE G.
Proof using HG.
  intros H. unfold hton_free. rewrite !length_app, length_be, length_replicate. simpl length.
  rewrite (length_concat_const _ 2), length_map.
  2: { intros x Hx. apply list_elem_of_fmap in Hx as (y & -> & _). apply length_be. }
  unfold m_wBNCount in *. unfold GetMaxCount in *.
  destruct (ng_page _ HG) as (s & Hs & E & _). pose proof page_pos.
  assert (exists k, BNODE_SIZE G = 2 * k) as [k Hk].
  { rewrite E in *. destruct (Z.eq_dec s 0) as [->|]; [simpl in *; lia|]. exists (2 ^ (s - 1)).
    rewrite <- Z.pow_succ_r by lia. f_equal. lia. }
  rewrite Z.shiftr_div_pow2 in * by done. change (2 ^ 1) with 2 in *.
  assert ((BNODE_SIZE G - 4) / 2 = k - 2) as Ek by (rewrite Hk; replace (2 * k - 4) with ((k - 2) * 2) by lia; apply Z.div_mul; lia).
  rewrite Ek in *.
  lia.
Qed.

(** *** Steps *)

Lemma store_sub X Y d : (forall x, x ∈ X -> x ∈ Y \/ x ∈ m_setDirtyNodes d) -> store_ok X d -> store_ok Y d.
Proof.
  intros HXY [H1 H2 H3 H4 H5 H6 H7 H8]. split; try done. intros i n Hi.
  destruct (H6 i n Hi) as [Hx|[?|?]]; [|tauto..]. destruct (HXY i Hx); tauto.
Qed.

(** A node that is changed in place. *)
Lemma store_put X d i n n' :
  store_ok X d -> m_mapChilds d !! i = Some n -> m_wThisBNodeIdx n' = m_wThisBNodeIdx n -> m_wFreeBNodeIdx n' = m_wFreeBNodeIdx n ->
  (i ∈ X \/ image n' = image n) ->
  store_ok X (set_childs (<[i := n']> (m_mapChilds d)) d).
Proof.
  intros [H1 H2 H3 H4 H5 H6 H7 H8] Hi Hn Hf Hx.
  assert (head_of (set_childs (<[i := n']> (m_mapChilds d)) d) = head_of d) as Eh.
  { unfold head_of. simpl. destruct (decide (m_pRootNode d = i)) as [->|].
    - by rewrite lookup_insert_eq, Hi.
    - by rewrite lookup_insert_ne. }
  split; simpl; rewrite ?Eh; try done.
  - split; [apply H2|]. rewrite lookup_insert_is_Some. destruct (decide (i = m_pRootNode d)); [by left|right; split; [done|apply H2]].
  - intros x m. destruct (decide (x = i)) as [->|].
    + rewrite lookup_insert_eq. intros [= <-]. destruct (H3 i n Hi) as [[E ?] ?]. split; [|done]. split; [congruence|done].
    + rewrite lookup_insert_ne by done. apply H3.
  - intros x Hxf. destruct (H5 x Hxf) as [E ?]. split; [|done]. rewrite lookup_insert_ne; [done|]. congruence.
  - intros x m. destruct (decide (x = i)) as [->|].
    + rewrite lookup_insert_eq. intros [= <-]. destruct Hx as [Hx|Hx]; [by left|]. destruct (H6 i n Hi) as [|[|]]; [tauto..|].
      right. right. by eapply on_page_image.
    + rewrite lookup_insert_ne by done. apply H6.
Qed.

Lemma store_dirty X d s : store_ok X d -> store_ok X (set_dirty (s ∪ m_setDirtyNodes d) d).
Proof.
  intros [H1 H2 H3 H4 H5 H6 H7 H8]. split; simpl; try done.
  - intros i n Hi. destruct (H6 i n Hi) as [?|[?|?]]; [tauto|set_solver|tauto].
  - intros i f Hi. destruct (H7 i f Hi); [set_solver|tauto].
  - destruct H8; [set_solver|tauto].
Qed.

(** *** A page from the pool *)

(** The nodes are the same, but for the free page that the root remembers. *)
Record same_nodes d d' : Prop := mkSameNodes {
  sn_root : m_pRootNode d' = m_pRootNode d;
  sn_rootidx : m_dwRootBNode d' = m_dwRootBNode d;
  sn_files : m_mapFiles d' = m_mapFiles d;
  sn_state : m_dwDirState d' = m_dwDirState d;
  sn_dirty : m_setDirtyNodes d ⊆ m_setDirtyNodes d';
  sn_nodes : forall x, m_mapChilds d' !! x = m_mapChilds d !! x \/
    exists n y, m_mapChilds d !! x = Some n /\ m_mapChilds d' !! x = Some (SetFreeBNodeIdx y n);
}.

Lemma same_nodes_refl d : same_nodes d d.
Proof. split; auto. Qed.
Lemma same_nodes_some d d' x n : same_nodes d d' -> m_mapChilds d !! x = Some n ->
  exists n', m_mapChilds d' !! x = Some n' /\ (n' = n \/ exists y, n' = SetFreeBNodeIdx y n).
Proof.
  intros H Hx. destruct (sn_nodes _ _ H x) as [E|(m & y & E & E')]; [exists n; rewrite E; auto|].
  simplify_eq. eauto.
Qed.
Lemma same_nodes_none d d' x : same_nodes d d' -> m_mapChilds d !! x = None -> m_mapChilds d' !! x = None.
Proof. intros H Hx. destruct (sn_nodes _ _ H x) as [E|(m & y & E & E')]; congruence. Qed.
Lemma same_nodes_view d d' : same_nodes d d' -> vtree d' = vtree d.
Proof.
  intros H. apply map_eq. intros x. unfold vtree. rewrite !lookup_fmap.
  destruct (sn_nodes _ _ H x) as [->|(n & y & E & ->)]; [done|]. by rewrite E.
Qed.

(** The pool and the root's free page change; pages of the pool that changed
    are marked. *)
Lemma store_pool X d d' :
  store_ok X d -> m_oFile d' = m_oFile d -> same_nodes d d' ->
  (forall x, m_mapChilds d' !! x = m_mapChilds d !! x \/ x ∈ m_setDirtyNodes d') ->
  pool_ok G (head_of d') (m_vecFreeBNodes d') ->
  (forall x, x ∈ free_pages (head_of d') (m_vecFreeBNodes d') -> x ∈ free_pages (head_of d) (m_vecFreeBNodes d)) ->
  (forall i f, (i, f) ∈ m_vecFreeBNodes d' -> i ∈ m_setDirtyNodes d' \/ (i, f) ∈ m_vecFreeBNodes d) ->
  store_ok X d'.
Proof.
  intros [H1 H2 H3 H4 H5 H6 H7 H8] Ef Hs Hx Hp Hfree Hv. pose proof (sn_dirty _ _ Hs) as Hd. split; rewrite ?Ef; try done.
  - rewrite (sn_root _ _ Hs), (sn_rootidx _ _ Hs). split; [apply H2|]. destruct H2 as [_ [n Hn]].
    destruct (same_nodes_some _ _ _ _ Hs Hn) as (n' & -> & _). eauto.
  - intros i n' Hi. destruct (sn_nodes _ _ Hs i) as [E|(n & y & E & E')].
    + rewrite E in Hi. by apply H3.
    + rewrite E' in Hi. injection Hi as <-. by apply (H3 i n).
  - intros x Hxf. apply Hfree, H5 in Hxf as [E ?]. split; [|done]. by eapply same_nodes_none.
  - intros i n' Hi. destruct (Hx i) as [E|]; [|tauto]. rewrite E in Hi. destruct (H6 i n' Hi) as [|[|]]; [tauto|set_solver|tauto].
  - intros i f Hi. destruct (Hv i f Hi) as [|Hin]; [tauto|]. destruct (H7 i f Hin); [set_solver|tauto].
  - rewrite (sn_rootidx _ _ Hs). destruct H8; [set_solver|tauto].
Qed.

Lemma last_pop {A} (l : list A) x : last l = Some x -> l = pop_back l ++ [x].
Proof. intros H. apply last_Some in H as [l' ->]. by rewrite pop_back_snoc. Qed.

(** The pool gives a page away. *)
Definition pool_given X d (r : Z * Z) d' : Prop :=
  store_ok X d' /\ same_nodes d d' /\ m_oFile d' = m_oFile d /\
  ((ERROR r.1 = true /\ head_of d = INVALID_BNODE_IDX /\ d' = d) \/
   (r.1 = 0 /\ r.2 ∈ free_pages (head_of d) (m_vecFreeBNodes d) /\
    r.2 ∉ free_pages (head_of d') (m_vecFreeBNodes d'))).

Lemma wp_SafeDirty i d (Q : unit -> CDirImage F -> Prop) :
  Q tt (set_dirty ({[u32 i]} ∪ m_setDirtyNodes d) d) -> wp (SafeDirty G i) d Q.
Proof using HS. unfold SafeDirty. by rewrite HS. Qed.

(** The last page gives its last entry. *)
Lemma pool_pop X d d0 v i f h :
  store_ok X d -> head_of d = h -> h <> INVALID_BNODE_IDX ->
  m_vecFreeBNodes d0 = v ++ [(i, f)] -> d0 = set_pool (m_vecFreeBNodes d0) d ->
  chain G h (v ++ [(i, f)]) -> pool_entries (v ++ [(i, f)]) = pool_entries (m_vecFreeBNodes d) ->
  (forall j e, (j, e) ∈ v -> (j, e) ∈ m_vecFreeBNodes d) -> i ∈ map fst (m_vecFreeBNodes d) ->
  IsEmpty f = false -> forall fuel, (0 < fuel)%nat ->
  wp (PoolLoop G fuel h) d0 (pool_given X d).
Proof using HS HG.
  intros HSt Hh Hne Hv Hd0 Hch Hent Hold Hi Hf fuel Hfuel. destruct fuel as [|fuel]; [lia|]. cbn [PoolLoop]. wsteps.
  rewrite Hv, last_snoc, Hf. unfold PopFreeBNode. rewrite Hf. wsteps. rewrite pop_back_snoc.
  apply wp_SafeDirty. wsteps. set (d' := set_dirty _ _).
  destruct (last (m_arrFreeBNIdx f)) as [x|] eqn:Ex.
  2: { apply last_None in Ex. unfold IsEmpty, m_wBNCount in Hf. by rewrite Ex in Hf. }
  assert (GetLastBNodeIdx f = x) as -> by (unfold GetLastBNodeIdx; by rewrite Ex).
  pose proof (last_pop _ _ Ex) as Earr.
  assert (head_of d' = h) as Eh by (rewrite <- Hh; unfold head_of, d'; by rewrite Hd0).
  assert (m_vecFreeBNodes d' = v ++ [(i, mkFree (m_bNextBNode f) (pop_back (m_arrFreeBNIdx f)))]) as Ev by done.
  assert (free_pages h (m_vecFreeBNodes d) = free_pages h (m_vecFreeBNodes d') ++ [x]) as Efree.
  { unfold free_pages. destruct (Z.eqb_spec h INVALID_BNODE_IDX); [done|]. rewrite <- Hent, Ev.
    rewrite !pool_entries_app, !pool_entries_one. simpl. by rewrite Earr at 1; rewrite <- app_assoc. }
  destruct (so_pool _ _ HSt) as [P1 P2 P3]. rewrite Hh, Efree in P2, P3.
  apply NoDup_app in P2 as (P2 & P2' & _). apply Forall_app in P3 as [P3 _].
  assert (same_nodes d d') as Hsame.
  { unfold d'. rewrite Hd0. split; simpl; auto; set_solver. }
  assert (m_oFile d' = m_oFile d) as Ef by (unfold d'; by rewrite Hd0).
  assert (0 <= i < INVALID_BNODE_IDX) as Hir.
  { pose proof (pool_in _ _ _ _ (so_pool _ _ HSt) Hi) as Hin. pose proof (po_range _ _ _ (so_pool _ _ HSt)) as P4.
    rewrite Forall_forall in P4. by apply P4. }
  split; [|split; [done|split; [done|right]]].
  - apply (store_pool X d); try done.
    + intros y. left. unfold d'. by rewrite Hd0.
    + rewrite Eh. split; [|done|done]. destruct (Z.eqb_spec h INVALID_BNODE_IDX); [done|]. rewrite Ev.
      eapply chain_last; [done|done|]. unfold m_wBNCount. simpl. rewrite Earr at 2. rewrite length_app. simpl. lia.
    + rewrite Eh, Hh, Efree. intros y Hy. apply elem_of_app. by left.
    + rewrite Ev. intros j e [Hin|Hin]%elem_of_app; [right; by apply Hold|left].
      apply list_elem_of_singleton in Hin. injection Hin as -> ->. unfold d'. simpl. rewrite u32_idx by done. set_solver.
  - simpl. split; [done|]. rewrite Eh, Hh, Efree. split; [set_solver|]. intros Hy. apply (P2' x); [done|]. set_solver.
Qed.

Lemma chain_members h v i f : chain G h (v ++ [(i, f)]) -> i ∈ map fst (v ++ [(i, f)]).
Proof. intros _. rewrite map_app. apply elem_of_app. right. simpl. by left. Qed.

(** The head goes when nothing else is left. *)
Lemma pool_head X d d0 h : 
  store_ok X d -> head_of d = h -> h <> INVALID_BNODE_IDX ->
  d0 = set_pool [] d -> pool_entries (m_vecFreeBNodes d) = [] ->
  forall fuel, (0 < fuel)%nat -> wp (PoolLoop G fuel h) d0 (pool_given X d).
Proof using HS HG.
  intros HSt Hh Hne -> Hent fuel Hfuel. destruct fuel as [|fuel]; [lia|]. cbn [PoolLoop]. wsteps.
  simpl last. cbn iota. unfold SetHeadFreeBNode, RootNode.
  destruct (so_root _ _ HSt) as [_ [rn Hrn]].
  assert (m_mapChilds (set_pool [] d) !! m_pRootNode d = Some rn) as Hrn' by done.
  wsteps. simpl m_pRootNode. eapply wp_node; [apply lookup_insert_eq|].
  wsteps. apply wp_SafeDirty. wsteps. eapply wp_node; [simpl; apply lookup_insert_eq|]. wsteps. apply wp_SafeDirty. wsteps.
  set (d' := set_dirty _ _).
  destruct (so_node _ _ HSt _ _ Hrn) as [Hno _]. destruct Hno as [Hthis Hidx].
  assert (m_mapChilds d' = <[m_pRootNode d := SetFreeBNodeIdx INVALID_BNODE_IDX rn]> (m_mapChilds d)) as Em by done.
  assert (head_of d' = INVALID_BNODE_IDX) as Eh by (unfold head_of; rewrite Em; simpl m_pRootNode; by rewrite lookup_insert_eq).
  assert (same_nodes d d') as Hsame.
  { split; try done.
    - unfold d'. simpl. set_solver.
    - intros x. rewrite Em. destruct (decide (x = m_pRootNode d)) as [->|].
      + right. exists rn, INVALID_BNODE_IDX. by rewrite lookup_insert_eq.
      + left. by rewrite lookup_insert_ne. }
  assert (free_pages (head_of d') (m_vecFreeBNodes d') = []) as Efree by (by rewrite Eh).
  split; [|split; [done|split; [done|right]]].
  - apply (store_pool X d); try done.
    + intros x. rewrite Em. destruct (decide (x = m_pRootNode d)) as [->|]; [right|left; by rewrite lookup_insert_ne].
      unfold d'. simpl. rewrite Hthis, u32_idx by done. set_solver.
    + rewrite Eh. split; [done|constructor..].
    + intros x. rewrite Efree. set_solver.
    + intros i f Hin. by apply not_elem_of_nil in Hin.
  - split; [done|]. rewrite Efree. split; [|set_solver]. rewrite Hh. unfold free_pages.
    destruct (Z.eqb_spec h INVALID_BNODE_IDX); [done|]. by left.
Qed.

Lemma PoolGet_ok X d : store_ok X d -> wp (PoolGetFreeBNode G) d (pool_given X d).
Proof using HS HG.
  intros HSt. unfold PoolGetFreeBNode, GetHeadFreeBNode, RootNode. destruct (so_root _ _ HSt) as [_ [rn Hrn]]. wsteps.
  assert (head_of d = m_wFreeBNodeIdx rn) as Eh by (unfold head_of; by rewrite Hrn).
  rewrite <- Eh. pose proof (so_pool _ _ HSt) as HP.
  destruct (Z.eqb_spec (head_of d) INVALID_BNODE_IDX) as [E|E].
  { apply wp_ret. split; [done|]. split; [apply same_nodes_refl|]. split; [done|]. left. done. }
  wsteps. pose proof (po_chain _ _ _ HP) as Hch. destruct (Z.eqb_spec (head_of d) INVALID_BNODE_IDX); [done|].
  destruct (m_vecFreeBNodes d) as [|p0 v0 _] eqn:Ev using rev_ind; [done|]. destruct p0 as [i f].
  assert (forall fuel, (1 < fuel)%nat -> wp (PoolLoop G fuel (head_of d)) d (pool_given X d)) as Hgoal.
  2: { apply Hgoal. rewrite length_app. simpl. lia. }
  intros fuel Hfuel. destruct (IsEmpty f) eqn:Ef.
  - destruct fuel as [|fuel]; [lia|]. cbn [PoolLoop]. wsteps. rewrite Ev, last_snoc, Ef. wsteps. rewrite pop_back_snoc.
    assert (m_arrFreeBNIdx f = []) as Earr.
    { unfold IsEmpty, m_wBNCount in Ef. apply Z.eqb_eq in Ef. destruct (m_arrFreeBNIdx f); [done|simpl in Ef; lia]. }
    destruct v0 as [|[j g] v1 _] using rev_ind.
    + simpl last. cbn iota. apply (pool_head X d); [done..|rewrite Ev, pool_entries_app, pool_entries_one, Earr; done|lia].
    + rewrite last_snoc, pop_back_snoc. rewrite <- app_assoc in Hch. simpl in Hch.
      destruct (chain_pop _ _ _ _ _ _ _ Hch) as [Hch' Hlast].
      eapply (pool_pop X d _ v1 j (set_next false g)); [done|done|done|done|done|done| | | | |lia].
      * rewrite Ev, !pool_entries_app, !pool_entries_one, Earr. by rewrite app_nil_r.
      * intros k e Hk. rewrite Ev. set_solver.
      * rewrite Ev, !map_app. set_solver.
      * unfold IsEmpty, m_wBNCount. simpl. by destruct (m_arrFreeBNIdx g).
  - eapply (pool_pop X d d v0 i f); [done|done|done|done|by destruct d|done|by rewrite Ev| | |done|lia].
    + intros k e Hk. rewrite Ev. set_solver.
    + rewrite Ev. by eapply chain_members.
Qed.

(** *** A new node *)

Record new_node X d (bLeaf : bool) (i : Z) d' : Prop := mkNewNode {
  nn_store : store_ok X d';
  nn_same : same_nodes d d';
  nn_range : in_file (m_oFile d') i;
  nn_fresh : m_mapChilds d !! i = None;
  nn_free : i ∉ free_pages (head_of d') (m_vecFreeBNodes d');
  nn_room : (df_room (m_oFile d) <= S (df_room (m_oFile d')))%nat;
}.

(** A page that no node has and the pool does not own is written. *)
Lemma store_write X d i l f ret :
  store_ok X d -> df_inv (m_oFile d) -> 0 <= i -> i * BNODE_SIZE G <= df_size (m_oFile d) ->
  (i * BNODE_SIZE G < df_size (m_oFile d) \/ (0 < df_room (m_oFile d))%nat) -> Z.of_nat (length l) = BNODE_SIZE G ->
  (forall n, m_mapChilds d !! i = Some n -> l = hton G n) ->
  (forall g, (i, g) ∈ m_vecFreeBNodes d -> i ∈ m_setDirtyNodes d) ->
  df_write (i * BNODE_SIZE G) l (m_oFile d) = (f, ret) ->
  store_ok X (set_file f d) /\ ERROR ret = false /\ in_file f i /\ df_page f i = l /\
    (df_room (m_oFile d) <= S (df_room f))%nat /\ (df_size (m_oFile d) <= df_size f).
Proof using HG.
  intros HSt Hinv Hi Hsz Hroom Hl Hn Hg Hw. pose proof (df_write_ok _ i l Hinv Hi Hsz Hroom Hl) as H.
  rewrite Hw in H. simpl in H. destruct H as (W1 & W2 & W3 & W4 & W5 & W6). pose proof page_pos.
  assert (df_size (m_oFile d) <= df_size f) as Hmono by lia.
  assert (in_file f i) as Hin by (apply page_numbers; [done|done|lia]).
  assert (forall j, in_file (m_oFile d) j -> df_page f j = if decide (j = i) then l else df_page (m_oFile d) j) as Hpage.
  { intros j [Hj Hj']. apply W6; lia. }
  split; [|split; [done|split; [done|split]]].
  - destruct HSt as [H1 H2 H3 H4 H5 H6 H7 H8]. split; simpl; try done.
    + intros j n Hj. destruct (H3 j n Hj). split; [done|]. by eapply in_file_mono.
    + intros x Hx. destruct (H5 x Hx). split; [done|]. by eapply in_file_mono.
    + intros j n Hj. destruct (H6 j n Hj) as [|[|E]]; [tauto..|]. right. right. rewrite Hpage by by eapply H3.
      destruct (decide (j = i)) as [->|]; [rewrite (Hn n Hj); apply on_page_hton|done].
    + intros j e Hj. destruct (H7 j e Hj) as [|E]; [tauto|]. destruct (decide (j = i)) as [->|Hne]; [left; by eapply Hg|].
      right. rewrite Hpage; [by rewrite decide_False|].
      apply (H5 j). eapply pool_in; [done|]. apply list_elem_of_fmap. by exists (j, e).
    + by rewrite W4.
  - rewrite W6 by (done || apply Hin). by rewrite decide_True.
  - split; [|done]. destruct (_ <? _); lia.
Qed.

Lemma NewBPlusNode_ok i bLeaf : 0 <= i < INVALID_BNODE_IDX ->
  let n := SetLeaf bLeaf (NewBPlusNode G i) in
  m_wThisBNodeIdx n = i /\ length (m_vecSlots n) = Z.to_nat (MAX_PTRS_PER_NODE G + 1) /\
  m_wNumKeys n = 0 /\ m_wNumPtrs n = 0 /\ m_bLeaf n = bLeaf /\ m_pParent n = None /\ slots_used n = 0.
Proof.
  intros Hi. simpl. rewrite u16_idx by done. rewrite length_replicate. split_and!; try done. unfold slots_used. by destruct bLeaf.
Qed.

Lemma GetFreeBNode_ok X d bLeaf :
  store_ok X d -> (0 < df_room (m_oFile d))%nat ->
  wp (GetFreeBNode G bLeaf) d (fun r d' => r.1 = 0 /\ exists i, r.2 = SetLeaf bLeaf (NewBPlusNode G i) /\ new_node X d bLeaf i d').
Proof using HS HG.
  intros HSt Hroom. unfold GetFreeBNode. wsteps. eapply wp_mono; [by apply PoolGet_ok|].
  intros [ret i] d1 (HSt1 & Hsame & Ef & Hcase). simpl in *. wsteps. pose proof page_pos as Hpp.
  pose proof (so_inv _ _ HSt) as Hinv. destruct (df_fits _ Hinv) as (Hs0 & [k Hk] & Hfit). pose proof (ng_file _ HG) as Hmax.
  assert (0 <= k) by nia.
  assert (exists j, (if ERROR ret
      then if MAX_FILE_SIZE G <? u32 (df_size (m_oFile d1) + BNODE_SIZE G) then (- EFBIG, i)
           else (0, u32 (df_size (m_oFile d1) + BNODE_SIZE G - 1) / BNODE_SIZE G)
      else (ret, i)) = (0, j) /\ 0 <= j /\ j * BNODE_SIZE G <= df_size (m_oFile d) /\ m_mapChilds d !! j = None /\
      j ∉ free_pages (head_of d1) (m_vecFreeBNodes d1)) as (j & -> & Hj & Hjs & Hjm & Hjf).
  { destruct Hcase as [(E & Eh & ->)|(-> & Hin & Hout)].
    - rewrite E. assert (0 <= df_size (m_oFile d) + BNODE_SIZE G < 2 ^ 32) by lia.
      assert (u32 (df_size (m_oFile d) + BNODE_SIZE G) = df_size (m_oFile d) + BNODE_SIZE G) as -> by by apply u32_small.
      assert (u32 (df_size (m_oFile d) + BNODE_SIZE G - 1) = df_size (m_oFile d) + BNODE_SIZE G - 1) as -> by (apply u32_small; lia).
      destruct (Z.ltb_spec (MAX_FILE_SIZE G) (df_size (m_oFile d) + BNODE_SIZE G)); [nia|].
      exists k. assert ((df_size (m_oFile d) + BNODE_SIZE G - 1) / BNODE_SIZE G = k) as ->.
      { symmetry. apply (Z.div_unique _ _ _ (BNODE_SIZE G - 1)); [lia|]. rewrite Hk. lia. }
      split; [done|]. split; [done|]. split; [lia|]. split.
      + destruct (m_mapChilds d !! k) as [n|] eqn:En; [|done]. destruct (so_node _ _ HSt _ _ En) as [_ [_ ?]]. lia.
      + rewrite Eh. set_solver.
    - exists i. change (ERROR 0) with false. cbn iota. destruct (so_free _ _ HSt _ Hin) as [Hm [Hr Hs]]. split_and!; try done; lia. }
  wsteps. unfold FormatNode, WriteNode. wsteps. set (n := SetLeaf bLeaf (NewBPlusNode G j)).
  assert (0 <= j < INVALID_BNODE_IDX) as Hjr.
  { split; [done|]. assert (j <= k) by nia. assert (k + 1 <= MAX_FILE_SIZE G / BNODE_SIZE G) by (apply Z.div_le_lower_bound; nia).
    pose proof (ng_index _ HG). lia. }
  destruct (NewBPlusNode_ok j bLeaf Hjr) as (N1 & N2 & N3 & N4 & N5 & N6 & N7). fold n in N1, N2, N3, N4, N5, N6, N7.
  rewrite N1, pos_page. destruct (df_write _ _ _) as [f ret'] eqn:Ew.
  pose proof (ng_ptrs _ HG).
  destruct (store_write X d1 j (hton G n) f ret' HSt1) as (S1 & S2 & S3 & S4 & S5 & S6); try done.
  - by rewrite Ef.
  - by rewrite Ef.
  - rewrite Ef. auto.
  - apply length_hton. rewrite N7. lia.
  - intros n' Hn'. exfalso. rewrite (same_nodes_none d d1) in Hn' by done. done.
  - intros g Hg. exfalso. apply Hjf. eapply pool_in; [by eapply so_pool|]. apply list_elem_of_fmap. by exists (j, g).
  - wsteps. unfold or_fail. rewrite S2. wsteps. split; [done|]. exists j. split; [done|]. split; try done.
    + destruct Hsame as [H1 H2 H3 H4 H5 H6]. by split.
    + simpl. rewrite Ef in S5. done.
Qed.

(** *** Slots *)

Lemma wr_ok i s v : (i < length v)%nat -> wr (Z.of_nat i) s v = Ret (<[i := s]> v).
Proof.
  intros H. unfold wr. destruct (Z.ltb_spec (Z.of_nat i) 0); [lia|].
  destruct (Z.leb_spec (Z.of_nat (length v)) (Z.of_nat i)); [lia|]. simpl. by rewrite Nat2Z.id.
Qed.

Lemma ShiftUp_spec k : forall i v, (k <= i < length v)%nat -> exists v', ShiftUp k (Z.of_nat i) v = Ret v' /\
  length v' = length v /\ forall x, v' !! x = if decide (i - k < x <= i)%nat then v !! pred x else v !! x.
Proof.
  induction k as [|k IH]; intros i v Hi.
  - exists v. split; [done|]. split; [done|]. intros x. rewrite decide_False by lia. done.
  - cbn [ShiftUp]. replace (Z.of_nat i - 1) with (Z.of_nat (pred i)) by lia.
    destruct (lookup_lt_is_Some_2 v (pred i)) as [s Hs]; [lia|]. rewrite (rd_lookup _ _ _ Hs), wr_ok by lia.
    destruct (IH (pred i) (<[i := s]> v)) as (v' & -> & Hl & Hv); [rewrite length_insert; lia|].
    exists v'. split; [done|]. split; [by rewrite Hl, length_insert|]. intros x. rewrite Hv.
    destruct (decide (x = i)) as [->|Hne].
    + rewrite decide_False by lia. rewrite list_lookup_insert_eq by lia. rewrite decide_True by lia. done.
    + destruct (decide (pred i - k < x <= pred i)%nat).
      * rewrite decide_True by lia. by rewrite list_lookup_insert_ne by lia.
      * rewrite decide_False by lia. by rewrite list_lookup_insert_ne by lia.
Qed.

Lemma shifted p cnt (s : KEYPTR_SLOT) v v' : (p <= cnt < length v)%nat -> length v' = length v ->
  (forall x, v' !! x = if decide (p < x <= cnt)%nat then v !! pred x else v !! x) ->
  take (S cnt) (<[p := s]> v') = insert_at p s (take cnt v).
Proof.
  intros Hp Hl Hv. apply list_eq. intros x. destruct (decide (x < S cnt)%nat) as [Hx|Hx].
  - rewrite lookup_take_lt by done. destruct (Nat.lt_trichotomy x p) as [Hxp|[->|Hxp]].
    + rewrite list_lookup_insert_ne, Hv, decide_False by lia.
      rewrite insert_at_before, lookup_take_lt; [done|lia|lia|rewrite length_take; lia].
    + rewrite list_lookup_insert_eq by lia. rewrite insert_at_here; [done|]. rewrite length_take. lia.
    + rewrite list_lookup_insert_ne, Hv, decide_True by lia. destruct x as [|x]; [lia|].
      rewrite insert_at_behind, lookup_take_lt; [done|lia|lia|rewrite length_take; lia].
  - rewrite lookup_take_ge by lia. symmetry. apply lookup_ge_None. rewrite length_insert_at; rewrite length_take; lia.
Qed.

(** [InsertSlotAt]: the node that is put in the place of [n]. *)
Definition slot_inserted (v : list KEYPTR_SLOT) (s : KEYPTR_SLOT) (n : CBPlusNode) : CBPlusNode :=
  let n := set_slots v n in
  let n := if negb (bool_decide (szKey s = ""%string)) then IncKeyCount n else n in
  if m_bLeaf n then n else IncChildCount n.
Definition slot_count (n : CBPlusNode) : Z := if m_bLeaf n then m_wNumKeys n else m_wNumPtrs n.

Lemma InsertSlotAt_ok d i n p s :
  m_mapChilds d !! i = Some n -> Z.of_nat (length (m_vecSlots n)) = MAX_PTRS_PER_NODE G + 1 ->
  0 <= slot_count n <= (if m_bLeaf n then MAX_KEYS_PER_NODE G else MAX_PTRS_PER_NODE G) ->
  Z.of_nat p <= slot_count n ->
  (m_bLeaf n = false -> dwBNodeIdx s <> INVALID_BNODE_IDX /\ dwBNodeIdx s <> i /\ is_Some (m_mapChilds d !! dwBNodeIdx s)) ->
  exists v, length v = length (m_vecSlots n) /\
    take (S (Z.to_nat (slot_count n))) v = insert_at p s (take (Z.to_nat (slot_count n)) (m_vecSlots n)) /\
    wp (InsertSlotAt G i (Z.of_nat p) s) d (fun r d' => r = 0 /\
      d' = set_childs (<[i := slot_inserted v s n]> (m_mapChilds d)) d).
Proof using HG.
  intros Hi Hlen Hc Hp Hs. set (cnt := Z.to_nat (slot_count n)) in *.
  assert (Hcnt : slot_count n = Z.of_nat cnt) by (unfold cnt; lia).
  assert (cnt < length (m_vecSlots n))%nat as Hcl by (unfold MAX_KEYS_PER_NODE in *; destruct (m_bLeaf n); lia).
  destruct (ShiftUp_spec (cnt - p) cnt (m_vecSlots n)) as (v' & Hsh & Hl & Hv); [lia|].
  replace (cnt - (cnt - p))%nat with p in Hv by lia.
  exists (<[p := s]> v'). split; [by rewrite length_insert|]. split; [by apply shifted; [lia|..]|].
  unfold InsertSlotAt. wsteps. change (if m_bLeaf n then m_wNumKeys n else m_wNumPtrs n) with (slot_count n).
  destruct (Z.ltb_spec (Z.of_nat p) 0); [lia|]. destruct (Z.ltb_spec (slot_count n) (Z.of_nat p)); [lia|].
  assert ((if m_bLeaf n then MAX_KEYS_PER_NODE G + 1 <=? slot_count n else MAX_PTRS_PER_NODE G + 1 <=? slot_count n) = false) as ->
    by (destruct (m_bLeaf n); apply Z.leb_gt; lia).
  rewrite Hcnt at 1 2. replace (Z.to_nat (Z.of_nat cnt - Z.of_nat p)) with (cnt - p)%nat by lia.
  apply wp_bind. eapply wp_lift; [done|]. apply wp_bind. eapply wp_lift; [apply wr_ok; lia|]. wsteps.
  unfold slot_inserted. set (n1 := if negb _ then _ else _).
  assert (m_bLeaf n1 = m_bLeaf n) as El by (unfold n1; by destruct (negb _)). rewrite El.
  destruct (m_bLeaf n) eqn:Elf; cbn [negb andb].
  { apply wp_ret. done. }
  destruct (Hs eq_refl) as (Hs1 & Hs2 & [c Hs3]). destruct (Z.eqb_spec (dwBNodeIdx s) INVALID_BNODE_IDX); [done|]. cbn [negb].
  wsteps. simpl m_mapChilds. rewrite lookup_insert_ne, Hs3 by done. wsteps. split; [done|]. simpl. by rewrite insert_insert_eq.
Qed.
End Store.
