(* ===== verification/DirCreate.v ===== *)
(** * Insertion

    The insertion of [DirTree] against the trees of [DirSplit] and the store of
    [DirInsert]: a leaf gets a slot ([InsertOnly]), a full node is split and the
    split goes up ([Split]), so that [Insert] adds one slot to what the directory
    holds. *)

From Stdlib Require Import ZArith Lia Sorted.
From stdpp Require Import strings sorting.
From S2P Require Import TaskGroup BlkCache Prelude Buffer BlkBitmap DirTree DirWf DirSplit DirInsert.
Local Open Scope Z_scope.

(** ** The names inside an interval *)

Definition inside (g : ginfo) (k : key) : Prop := strictly_above (g_lo g) k /\ below k (g_hi g).

Lemma inside_child max x g v j k :
  vshape max x g v -> v_leaf v = false -> (j <= length (v_ks v))%nat ->
  inside (child_g g (v_ks v) j) k -> inside g k /\ k ∉ v_ks v.
Proof.
  intros Hs Hl Hj [H1 H2]. simpl in H1, H2.
  assert (in_range (child_g g (v_ks v) j) k) as Hr.
  { split; [|done]. simpl. unfold above, strictly_above in *. destruct (lower _ _ _); [by right|done]. }
  pose proof (vs_sorted _ _ _ _ Hs) as Hso. split.
  - destruct (child_in_range _ _ _ _ _ _ Hs Hl Hj Hr) as [_ Hb]. split; [|done].
    destruct j as [|j]; simpl in H1; [done|]. destruct (lookup_lt_is_Some_2 (v_ks v) j) as [a Ha]; [lia|].
    rewrite Ha in H1. simpl in H1. pose proof (vs_range _ _ _ _ Hs) as Hf. rewrite Forall_lookup in Hf.
    destruct (Hf _ _ Ha) as [_ Hf']. specialize (Hf' Hl). unfold strictly_above in *. destruct (g_lo g); [by etrans|done].
  - intros Hk. apply list_elem_of_lookup in Hk as [i Hi]. destruct (child_route _ _ _ _ Hso Hj Hr) as (_ & R1 & R2).
    destruct (decide (j <= i)%nat) as [Hji|Hji]; [by apply (klt_irrefl k), (R2 i)|].
    destruct j as [|j]; [lia|]. simpl in H1. destruct (lookup_lt_is_Some_2 (v_ks v) j) as [a Ha]; [lia|].
    rewrite Ha in H1. simpl in H1. apply (klt_irrefl k). destruct (decide (i = j)) as [->|]; [by simplify_eq|].
    etrans; [|exact H1]. eapply ksorted_lookup; [done..|lia].
Qed.

Section Create.
Context (G : geometry) (HG : node_geom G) (HS : IsSafeMode G = true).
Context {F : Type} {HF : DirFile F} {HFok : DirFileOk G F}.
Implicit Types d : CDirImage F.

(** ** [InsertOnly] *)

(** A key strictly inside the interval of a child is no key of the nodes above. *)
Lemma ReplaceLoop_none over h γ d k k' : dir_ok G over h γ d -> key_ok k -> forall fuel o,
  match o with
  | None => True
  | Some p => exists n j, m_mapChilds d !! p = Some n /\ m_bLeaf n = false /\ (j <= length (keys n))%nat /\
      inside (child_g (γ p) (keys n) j) k /\ (S (h - g_lev (γ p)) < fuel)%nat
  end -> (0 < fuel)%nat ->
  wp (ReplaceLoop G fuel o k k') d (fun _ d' => d' = d).
Proof using HG.
  intros HD Hk. pose proof (do_tree _ _ _ _ _ HD) as HT. induction fuel as [|fuel IH]; intros o Ho Hf; [lia|].
  destruct o as [p|]; [|by apply wp_ret]. destruct Ho as (n & j & Hp & Hl & Hj & Hin & Hlev). cbn [ReplaceLoop]. wsteps.
  destruct (Z.eqb_spec (m_wNumKeys n) 0); [by apply wp_ret|].
  destruct (node_search G HG HD p n k Hp) as (r & Hs & Hres); [done|]. apply wp_bind. eapply wp_lift; [done|].
  pose proof (view_shape G HD p n Hp) as Hsh.
  destruct (inside_child _ _ _ _ _ _ Hsh Hl Hj Hin) as [Hin' Hnk]. simpl in Hnk.
  rewrite (proj1 Hk) in Hres. destruct Hres as [(i & -> & Hi)|(q & Hq & _)].
  { exfalso. apply Hnk. by eapply list_elem_of_lookup_2. }
  destruct (Z.ltb_spec r 0); [|lia].
  pose proof (vtree_lookup _ _ _ Hp) as Hv. pose proof (to_lev _ _ _ _ _ _ HT _ _ Hv) as [Hh _].
  apply IH; [|lia].
  destruct (m_pParent n) as [p'|] eqn:Ep; [|done].
  destruct (node_parent HT p (view n) p' Hv Ep) as (vp & j' & Hp' & Hc & Hlp & Hg & Hj').
  apply vtree_some in Hp' as (np & Hnp & ->). exists np, j'. simpl in *. rewrite <- Hg.
  pose proof (child_lev HT _ _ _ _ (vtree_lookup _ _ _ Hnp) Hc). pose proof (to_lev _ _ _ _ _ _ HT _ _ (vtree_lookup _ _ _ Hnp)) as [? _].
  split_and!; try done; try lia; apply Hin'.
Qed.

(** What stays and what only grows. *)
Record grows d d' : Prop := mkGrows {
  gr_files : m_mapFiles d' = m_mapFiles d;
  gr_state : m_dwDirState d' = m_dwDirState d;
  gr_dirty : m_setDirtyNodes d ⊆ m_setDirtyNodes d';
}.
Lemma grows_refl d : grows d d.
Proof. by split. Qed.
Lemma dir_grows_trans d1 d2 d3 : grows d1 d2 -> grows d2 d3 -> grows d1 d3.
Proof. intros [A1 B1 C1] [A2 B2 C2]. split; [congruence..|set_solver]. Qed.
Lemma same_grows d d' : same_nodes d d' -> grows d d'.
Proof. intros [H1 H2 H3 H4 H5 H6]. by split. Qed.

Lemma u16_keys z : 0 <= z <= MAX_PTRS_PER_NODE G + 1 -> u16 z = z.
Proof using HG. intros H. pose proof (ng_ptrs _ HG). apply uN_small. lia. Qed.
Lemma max_keys_Z : Z.of_nat (max_keys G) = MAX_PTRS_PER_NODE G - 1.
Proof using HG. pose proof (ng_ptrs _ HG). unfold max_keys, MAX_KEYS_PER_NODE. lia. Qed.

(** A leaf with a slot more. *)
Definition leaf_with (v : list KEYPTR_SLOT) n : CBPlusNode := SetKeyCount (m_wNumKeys n + 1) (set_slots v n).

Lemma leaf_with_ok i n v p s :
  node_ok G i n -> m_bLeaf n = true -> m_wNumKeys n <= MAX_KEYS_PER_NODE G -> length v = length (m_vecSlots n) ->
  take (S (Z.to_nat (m_wNumKeys n))) v = insert_at p s (entries n) ->
  node_ok G i (leaf_with v n) /\ m_wNumKeys (leaf_with v n) = m_wNumKeys n + 1 /\
  view (leaf_with v n) = V true (insert_at p (szKey s) (keys n)) (insert_at p s (entries n)) [] (m_wNextLeaf n) (m_pParent n).
Proof using HG.
  intros [H1 H2 H3 H4 H5 HN] Hl Hk Hv Ht. unfold MAX_KEYS_PER_NODE in Hk.
  assert (u16 (m_wNumKeys n + 1) = m_wNumKeys n + 1) as Eu by (apply u16_keys; lia).
  split; [|split; [done|]].
  - split; simpl; [done|done|congruence|lia| |by rewrite Hl]. by rewrite Hl in *.
  - rewrite Hl in H5. unfold view, keys, entries, ptrs. simpl. rewrite Eu, H5, Hl. simpl.
    replace (Z.to_nat (m_wNumKeys n + 1)) with (S (Z.to_nat (m_wNumKeys n))) by lia. rewrite Ht, fmap_insert_at. done.
Qed.

(** What [InsertOnly] does. *)
Record leaf_added (over : gset Z) (h : nat) (γ : Z -> ginfo) X i n s d d' : Prop := mkLeafAdded {
  la_dir : dir_ok G ({[i]} ∪ over) h γ d';
  la_store : store_ok G X d';
  la_dirty : i ∈ m_setDirtyNodes d';
  la_grows : grows d d';
  la_file : m_oFile d' = m_oFile d;
  la_root : m_pRootNode d' = m_pRootNode d;
  la_node : exists n', m_mapChilds d' = <[i := n']> (m_mapChilds d) /\ m_wNumKeys n' = m_wNumKeys n + 1 /\
    m_bLeaf n' = true /\ m_pParent n' = m_pParent n;
  la_holds : forall k x, holds (vtree d') k x <-> holds (vtree d) k x \/ k = szKey s /\ x = (dwInodeIdx s, byFileType s);
}.

Lemma leaf_shape over h γ d i n s p :
  dir_ok G over h γ d -> m_mapChilds d !! i = Some n -> m_bLeaf n = true -> m_wNumKeys n <= MAX_KEYS_PER_NODE G ->
  in_range (γ i) (szKey s) -> key_ok (szKey s) -> pos_of (keys n) (szKey s) p ->
  vshape (max_keys G) true (γ i)
    (V true (insert_at p (szKey s) (keys n)) (insert_at p s (entries n)) [] (m_wNextLeaf n) (m_pParent n)).
Proof using HG.
  intros HD Hi Hl Hk Hr Hok Hp. pose proof (view_shape G HD i n Hi) as Hsh. pose proof Hp as (Hpl & _).
  pose proof (length_keys G HG i n (do_node _ _ _ _ _ HD i n Hi)) as Hlen. pose proof max_keys_Z.
  unfold MAX_KEYS_PER_NODE in Hk. split; simpl; try done.
  - rewrite length_insert_at by done. lia.
  - apply ksorted_insert_at; [exact (vs_sorted _ _ _ _ Hsh)|done].
  - apply Forall_insert_at; [exact (vs_ok _ _ _ _ Hsh)|done].
  - intros _. by rewrite fmap_insert_at.
  - apply Forall_insert_at; [|done]. pose proof (vs_range _ _ _ _ Hsh) as Hf. simpl in Hf. eapply Forall_impl; [exact Hf|].
    intros k [? _]. by split.
Qed.

(** The slot goes in and the leaf is marked. *)
Lemma leaf_insert X over h γ d i n s p :
  dir_ok G over h γ d -> store_ok G X d -> m_mapChilds d !! i = Some n -> m_bLeaf n = true ->
  m_wNumKeys n <= MAX_KEYS_PER_NODE G -> in_range (γ i) (szKey s) -> key_ok (szKey s) -> pos_of (keys n) (szKey s) p ->
  wp (InsertSlotAt G i (Z.of_nat p) s) d (fun r d' => r = 0 /\
    leaf_added over h γ X i n s d (set_dirty ({[i]} ∪ m_setDirtyNodes d') d') /\ dir_ok G ({[i]} ∪ over) h γ d').
Proof using HG HS.
  intros HD HSt Hi Hl Hk Hr Hok Hp. pose proof (do_node _ _ _ _ _ HD i n Hi) as Hno. pose proof (ng_ptrs _ HG) as Hptrs.
  assert (slot_count n = m_wNumKeys n) as Hsc by (unfold slot_count; by rewrite Hl).
  pose proof Hp as (Hpl & _ & _). pose proof (no_keys _ _ _ Hno) as Hkb. pose proof (no_slots _ _ _ Hno) as Hsl. pose proof Hk as Hk0; unfold MAX_KEYS_PER_NODE in Hk0.
  rewrite <- (Nat2Z.id (length (keys n))), <- (length_keys G HG i n Hno) in Hpl.
  destruct (InsertSlotAt_ok G HG d i n p s Hi) as (v & Hv & Ht & Hwp).
  { rewrite Hsl. lia. }
  { rewrite Hsc, Hl. lia. }
  { rewrite Hsc. lia. }
  { congruence. }
  rewrite Hsc in Ht.
  destruct (leaf_with_ok i n v p s Hno Hl Hk Hv Ht) as (N1 & N2 & N3).
  assert (slot_inserted v s n = leaf_with v n) as Esl.
  { unfold slot_inserted. rewrite bool_decide_false by apply Hok. simpl. by rewrite Hl. }
  eapply wp_mono; [exact Hwp|]. intros r d' [-> ->]. rewrite Esl. split; [done|].
  set (d1 := set_childs _ d).
  assert (vtree d1 = <[i := view (leaf_with v n)]> (vtree d)) as Ev by (unfold vtree, d1; simpl; by rewrite fmap_insert).
  assert (dir_ok G ({[i]} ∪ over) h γ d1) as HD1.
  { split.
    - rewrite Ev, N3. eapply (tree_leaf _ _ _ _ _ _ i (view n)); [by apply (do_tree _ _ _ _ _ HD)|by apply vtree_lookup|done|].
      by eapply leaf_shape.
    - intros x m. unfold d1. simpl. destruct (decide (x = i)) as [->|].
      + rewrite lookup_insert_eq. by intros [= <-].
      + rewrite lookup_insert_ne by done. by apply (do_node _ _ _ _ _ HD). }
  split; [|done]. split; try done.
  - by destruct HD1.
  - apply (store_sub G ({[i]} ∪ X)).
    { intros x [->%elem_of_singleton|]%elem_of_union; [right|by left]. simpl. set_solver. }
    apply (store_dirty G HG HS). eapply store_put; [|done..|].
    { eapply store_sub; [|exact HSt]. set_solver. }
    left. set_solver.
  - simpl. set_solver.
  - split; try done. simpl. set_solver.
  - simpl. exists (leaf_with v n). done.
  - intros k x. change (vtree (set_dirty _ _)) with (vtree d1). rewrite Ev, N3.
    pose proof (vtree_lookup _ _ _ Hi) as Hvi. split.
    + intros (y & w & t & Hy & Hlw & Hin & Hkx). destruct (decide (y = i)) as [->|Hne].
      * rewrite lookup_insert_eq in Hy. injection Hy as <-. simpl in Hin. apply elem_of_insert_at in Hin as [->|Hin].
        -- right. destruct Hkx as [<- ->]. done.
        -- left. exists i, (view n), t. split; [done|]. simpl. by rewrite Hl.
      * rewrite lookup_insert_ne in Hy by done. left. by exists y, w, t.
    + intros [(y & w & t & Hy & Hlw & Hin & Hkx)|[-> ->]].
      * destruct (decide (y = i)) as [->|Hne].
        -- rewrite Hvi in Hy. injection Hy as <-. simpl in Hin. rewrite Hl in Hin. eexists i, _, t.
           rewrite lookup_insert_eq. split; [done|]. split; [done|]. split; [|done]. simpl. apply elem_of_insert_at. by right.
        -- exists y, w, t. by rewrite lookup_insert_ne.
      * eexists i, _, s. rewrite lookup_insert_eq. split; [done|]. split; [done|]. split; [|done].
        simpl. apply elem_of_insert_at. by left.
Qed.

(** The first key of a leaf is not one of a node above, when a smaller one
    belongs to the leaf. *)
Lemma ReplaceNonLeafKey_none over h γ d i n k0 k k' :
  dir_ok G over h γ d -> m_mapChilds d !! i = Some n -> key_ok k0 -> in_range (γ i) k0 -> in_range (γ i) k -> klt k k0 ->
  wp (ReplaceNonLeafKey G i k0 k') d (fun _ d' => d' = d).
Proof using HG.
  intros HD Hi Hok Hr0 Hr Hlt. pose proof (do_tree _ _ _ _ _ HD) as HT. unfold ReplaceNonLeafKey. wsteps.
  destruct (m_bLeaf n) eqn:Hl; [|by apply wp_ret]. unfold IsRoot. destruct (m_pParent n) as [p|] eqn:Ep; [|by apply wp_ret].
  cbn [negb orb]. wsteps. destruct (node_parent HT i (view n) p (vtree_lookup _ _ _ Hi) Ep) as (vp & j & Hp & Hc & Hlp & Hg & Hj).
  apply vtree_some in Hp as (np & Hnp & ->). eapply wp_mono.
  - eapply (ReplaceLoop_none _ _ _ _ _ _ HD Hok); [|unfold tree_fuel; lia]. exists np, j. simpl in *. rewrite <- Hg.
    split; [done|]. split; [done|]. split; [done|]. split.
    + destruct Hr0 as [_ Hb], Hr as [Ha _]. split; [|done]. unfold above, strictly_above in *.
      destruct (g_lo (γ i)); [by eapply kle_klt|done].
    + pose proof (height_bound HT) as Hh. rewrite size_vtree in Hh. unfold tree_fuel.
      pose proof (child_lev HT _ _ _ _ (vtree_lookup _ _ _ Hnp) Hc). lia.
  - intros [] d' ->. by apply wp_ret.
Qed.

Lemma pos_of_empty k : pos_of [] k 0.
Proof. split; [simpl; lia|]. split; intros ? ? H; done. Qed.

Lemma InsertOnly_ok X over h γ d i n s :
  dir_ok G over h γ d -> store_ok G X d -> m_mapChilds d !! i = Some n -> m_bLeaf n = true ->
  m_wNumKeys n <= MAX_KEYS_PER_NODE G -> in_range (γ i) (szKey s) -> key_ok (szKey s) -> szKey s ∉ keys n ->
  wp (InsertOnly G i s) d (fun r d' => r = 0 /\ leaf_added over h γ X i n s d d').
Proof using HG HS.
  intros HD HSt Hi Hl Hk Hr Hok Hnew. pose proof (do_node _ _ _ _ _ HD i n Hi) as Hno.
  assert (u32 i = i) as Ei by (apply u32_idx, (no_idx _ _ _ Hno)).
  pose proof (leaf_insert X over h γ d i n s) as Hins.
  unfold InsertOnly. wsteps. destruct (Z.eqb_spec (m_wNumKeys n) 0) as [E0|E0].
  { assert (keys n = []) as Ek by (unfold keys, entries; by rewrite E0).
    eapply wp_mono; [apply (Hins 0%nat); try done; rewrite Ek; apply pos_of_empty|].
    intros r d1 (-> & Hla & _). wsteps. unfold SetDirty. wsteps. rewrite Ei. done. }
  destruct (node_search G HG HD i n (szKey s) Hi E0) as (r & Hs & Hres). rewrite (proj1 Hok) in Hres.
  destruct Hres as [(x & -> & Hx)|(p & Hneg & Hp & Hpos)].
  { exfalso. apply Hnew. by eapply list_elem_of_lookup_2. }
  apply wp_bind. eapply wp_lift; [exact Hs|]. destruct (Z.leb_spec 0 r); [lia|]. rewrite Hp.
  pose proof (length_keys G HG i n Hno) as Hlen. pose proof Hpos as (Hpl & _ & Hlt).
  destruct (Z.ltb_spec (MAX_KEYS_PER_NODE G) (Z.of_nat p)); [lia|].
  destruct (lookup_lt_is_Some_2 (keys n) 0) as [k0 Hk0]; [lia|].
  destruct (key_entry G HG HD i n 0 k0 Hi Hk0) as (s0 & _ & Es0 & _ & Hget).
  assert (key_ok k0 /\ in_range (γ i) k0) as [Hok0 Hr0].
  { pose proof (view_shape G HD i n Hi) as Hsh. pose proof (vs_ok _ _ _ _ Hsh) as Hf. pose proof (vs_range _ _ _ _ Hsh) as Hf'.
    simpl in Hf, Hf'. rewrite Forall_lookup in Hf, Hf'. split; [by apply (Hf 0%nat)|by apply (Hf' 0%nat)]. }
  apply wp_bind. rewrite Hl, andb_true_r.
  assert (wp (if Z.of_nat p =? 0 then s ← lift (GetSlot G n 0); mret (szKey s) else mret ""%string) d
    (fun k d' => d' = d /\ (p = 0%nat -> k = k0))) as Hold.
  { destruct (Z.eqb_spec (Z.of_nat p) 0).
    - apply wp_bind. eapply wp_lift; [exact Hget|]. wsteps. done.
    - wsteps. split; [done|lia]. }
  eapply wp_mono; [exact Hold|]. clear Hold. intros old d0 [-> Hold].
  apply wp_bind. eapply wp_mono; [by apply (Hins p)|]. intros r' d1 (-> & Hla & HD1).
  change (ERROR 0) with false. cbn iota.
  assert (wp (if negb (Z.of_nat p =? 0) then mret 0 else ReplaceNonLeafKey G i old (szKey s);; mret 0) d1
    (fun r d' => r = 0 /\ d' = d1)) as Hrep.
  { destruct (Z.eqb_spec (Z.of_nat p) 0); cbn [negb]; [|by apply wp_ret]. assert (p = 0%nat) as -> by lia.
    rewrite (Hold eq_refl). destruct (la_node _ _ _ _ _ _ _ _ _ Hla) as (n' & Hn' & _).
    assert (m_mapChilds d1 !! i = Some n') as Hi1.
    { change (m_mapChilds d1) with (m_mapChilds (set_dirty ({[i]} ∪ m_setDirtyNodes d1) d1)). rewrite Hn'. apply lookup_insert_eq. }
    apply wp_bind. eapply wp_mono; [eapply (ReplaceNonLeafKey_none _ _ _ _ _ _ _ (szKey s) _ HD1 Hi1); [done..|]|].
    - apply (Hlt 0%nat); [done|lia].
    - intros a d2 ->. by apply wp_ret. }
  eapply wp_mono; [exact Hrep|]. intros r2 d2 [-> ->]. wsteps. unfold SetDirty. wsteps. rewrite Ei. done.
Qed.

(** ** [MoveBNodeStore] *)

(** The pointers that go with the slots. *)
Definition moved (n : CBPlusNode) (off k : nat) : list Z :=
  if m_bLeaf n then [] else take k (drop off (dwBNodeIdx <$> m_vecSlots n)).

(** The children that go get a new parent. *)
Definition adopted (l : list Z) (p : Z) (m m' : gmap Z CBPlusNode) : Prop :=
  forall x, m' !! x = if decide (x ∈ l) then SetParent (Some p) <$> m !! x else m !! x.

Lemma adopted_nil p m : adopted [] p m m.
Proof. intros x. by rewrite decide_False by apply not_elem_of_nil. Qed.
Lemma adopted_cons c l p m m' n :
  c ∉ l -> m !! c = Some n -> adopted l p (<[c := SetParent (Some p) n]> m) m' -> adopted (c :: l) p m m'.
Proof.
  intros Hc Hn H x. rewrite (H x). destruct (decide (x = c)) as [->|Hx].
  - rewrite decide_False, lookup_insert_eq by done. rewrite decide_True by by left. by rewrite Hn.
  - rewrite lookup_insert_ne by done. destruct (decide (x ∈ l)); [rewrite decide_True|rewrite decide_False]; set_solver.
Qed.

Lemma RemoveChild_ok d n i s c :
  m_bLeaf n = false -> Z.of_nat i < m_wNumPtrs n <= 2 ^ 16 -> m_vecSlots n !! i = Some s ->
  m_mapChilds d !! dwBNodeIdx s = Some c ->
  wp (RemoveChild n (Z.of_nat i)) d (fun r d' => r = (0, Some (SetParent None c)) /\
    d' = set_childs (delete (dwBNodeIdx s) (m_mapChilds d)) d).
Proof.
  intros Hl Hi Hs Hc. assert (u32 (Z.of_nat i) = Z.of_nat i) as Eu by (apply u32_small; lia).
  unfold RemoveChild. rewrite Eu. destruct (Z.leb_spec (m_wNumPtrs n) (Z.of_nat i)); [lia|]. rewrite Hl.
  apply wp_bind. eapply wp_lift; [by apply rd_lookup|]. unfold RemoveChildDirect. wsteps. rewrite Hc. by wsteps.
Qed.

Lemma AddChildDirect_ok d this i c :
  m_mapChilds d !! i = None -> this <> m_wThisBNodeIdx c ->
  wp (AddChildDirect this i c) d (fun r d' => r = 0 /\
    d' = set_childs (<[i := SetParent (Some this) c]> (m_mapChilds d)) d).
Proof.
  intros Hi Ht. unfold AddChildDirect. wsteps. rewrite Hi. destruct (Z.eqb_spec this (m_wThisBNodeIdx c)); [done|].
  by wsteps.
Qed.

Lemma MoveLoop_ok sn off k : forall i dst d,
  m_bLeaf dst = m_bLeaf sn -> (off + i + k <= length (m_vecSlots sn))%nat -> (i + k <= length (m_vecSlots dst))%nat ->
  (m_bLeaf sn = false -> Z.of_nat (off + i + k) <= m_wNumPtrs sn <= 2 ^ 16) ->
  NoDup (moved sn (off + i) k) ->
  (forall c, c ∈ moved sn (off + i) k -> exists nc, m_mapChilds d !! c = Some nc /\ m_wThisBNodeIdx dst <> m_wThisBNodeIdx nc) ->
  wp (MoveLoop k dst sn (Z.of_nat off) 0 (Z.of_nat i)) d (fun dst' d' =>
    exists v m', dst' = set_slots v dst /\ d' = set_childs m' d /\ length v = length (m_vecSlots dst) /\
      (forall x, v !! x = if decide (i <= x < i + k)%nat then m_vecSlots sn !! (off + x)%nat else m_vecSlots dst !! x) /\
      adopted (moved sn (off + i) k) (m_wThisBNodeIdx dst) (m_mapChilds d) m').
Proof.
  induction k as [|k IH]; intros i dst d Hl Hs Hd Hp Hnd Hc.
  { cbn [MoveLoop]. wsteps. exists (m_vecSlots dst), (m_mapChilds d). split; [by destruct dst|]. split; [by destruct d|].
    split; [done|]. split; [intros x; by rewrite decide_False by lia|].
    unfold moved. destruct (m_bLeaf sn); apply adopted_nil. }
  destruct (lookup_lt_is_Some_2 (m_vecSlots sn) (off + i)) as [s Hsl]; [lia|].
  assert (moved sn (off + i) (S k) = if m_bLeaf sn then [] else dwBNodeIdx s :: moved sn (off + S i) k) as Em.
  { unfold moved. destruct (m_bLeaf sn); [done|]. rewrite (drop_S _ (dwBNodeIdx s)) by by rewrite list_lookup_fmap, Hsl.
    simpl. by replace (off + S i)%nat with (S (off + i)) by lia. }
  cbn [MoveLoop]. replace (Z.of_nat off + Z.of_nat i) with (Z.of_nat (off + i)) by lia.
  replace (0 + Z.of_nat i) with (Z.of_nat i) by lia. replace (Z.of_nat i + 1) with (Z.of_nat (S i)) by lia.
  apply wp_bind. eapply wp_lift; [by apply rd_lookup|]. apply wp_bind. eapply wp_lift; [apply wr_ok; lia|]. cbn beta iota.
  set (dst1 := set_slots _ dst). rewrite Em in *.
  assert (forall dx, (forall c, c ∈ moved sn (off + S i) k ->
      exists nc, m_mapChilds dx !! c = Some nc /\ m_wThisBNodeIdx dst <> m_wThisBNodeIdx nc) ->
    NoDup (moved sn (off + S i) k) -> wp (MoveLoop k dst1 sn (Z.of_nat off) 0 (Z.of_nat (S i))) dx (fun dst' d' =>
      exists v m', dst' = set_slots v dst /\ d' = set_childs m' dx /\ length v = length (m_vecSlots dst) /\
        (forall x, v !! x = if decide (i <= x < i + S k)%nat then m_vecSlots sn !! (off + x)%nat else m_vecSlots dst !! x) /\
        adopted (moved sn (off + S i) k) (m_wThisBNodeIdx dst) (m_mapChilds dx) m')) as Hrest.
  { intros dx Hcx Hndx. eapply wp_mono.
    - apply (IH (S i) dst1 dx); [done|lia| | |done|done].
      + unfold dst1. simpl. rewrite length_insert. lia.
      + intros E. specialize (Hp E). lia.
    - intros dst' d' (v & m' & -> & -> & Hlen & Hv & Ha). exists v, m'. split; [done|]. split; [done|].
      unfold dst1 in Hlen, Hv. simpl in Hlen, Hv. rewrite length_insert in Hlen. split; [done|]. split; [|done].
      intros x. rewrite Hv. destruct (decide (x = i)) as [->|Hx].
      + rewrite decide_False, decide_True, list_lookup_insert_eq by lia. done.
      + rewrite list_lookup_insert_ne by done.
        repeat case_decide; done || lia. }
  change (m_bLeaf dst1) with (m_bLeaf dst). change (m_wThisBNodeIdx dst1) with (m_wThisBNodeIdx dst).
  apply wp_bind. rewrite Hl. destruct (m_bLeaf sn) eqn:El.
  { wsteps. eapply wp_mono; [apply Hrest; unfold moved; rewrite El; [set_solver|constructor]|].
    intros dst' d'. unfold moved. by rewrite El. }
  destruct (Hc (dwBNodeIdx s)) as (nc & Hnc & Hne); [by left|]. apply NoDup_cons in Hnd as [Hni Hnd].
  apply wp_bind. eapply wp_mono; [eapply RemoveChild_ok; [done| |done|done]; specialize (Hp eq_refl); lia|].
  intros r d1 [-> ->]. cbn beta iota. change (ERROR 0) with false. cbn iota.
  apply wp_bind. eapply wp_mono; [eapply AddChildDirect_ok; [simpl; apply lookup_delete_eq|done]|].
  intros r d2 [-> ->]. wsteps. simpl m_mapChilds. rewrite insert_delete_eq.
  eapply wp_mono; [apply Hrest|].
  - intros c Hin. simpl. assert (c <> dwBNodeIdx s) by congruence. rewrite lookup_insert_ne by done. apply Hc. by right.
  - done.
  - intros dst' d' (v & m' & -> & -> & H1 & H2 & H3). exists v, m'. split_and!; try done.
    eapply adopted_cons; [done|done|]. exact H3.
Qed.

(** ** [SplitMove] *)

Definition half_left (q : nat) (s : Z) (v : vnode) : vnode :=
  if v_leaf v then V true (take q (v_ks v)) (take q (v_es v)) [] s (v_parent v)
  else V false (take q (v_ks v)) [] (take (S q) (v_cs v)) (v_next v) (v_parent v).
Definition half_right (q : nat) (p : option Z) (v : vnode) : vnode :=
  if v_leaf v then V true (drop q (v_ks v)) (drop q (v_es v)) [] (v_next v) p
  else V false (drop (S q) (v_ks v)) [] (drop (S q) (v_cs v)) INVALID_BNODE_IDX p.
Definition split_at (leaf : bool) : nat := Z.to_nat (SPLIT_POS G leaf).

Lemma split_at_Z leaf : Z.of_nat (split_at leaf) = SPLIT_POS G leaf /\ 3 <= SPLIT_POS G leaf /\
  2 * SPLIT_POS G leaf <= MAX_PTRS_PER_NODE G /\ MAX_PTRS_PER_NODE G <= 2 * SPLIT_POS G leaf + 2.
Proof using HG HS.
  pose proof (ng_ptrs _ HG) as H. unfold split_at, SPLIT_POS.
  pose proof (Z.div_mod (MAX_PTRS_PER_NODE G) 2) as E1. pose proof (Z.mod_pos_bound (MAX_PTRS_PER_NODE G) 2) as E2.
  pose proof (Z.div_mod (MAX_PTRS_PER_NODE G + 1) 2) as E3. pose proof (Z.mod_pos_bound (MAX_PTRS_PER_NODE G + 1) 2) as E4.
  destruct leaf; split_and!; lia.
Qed.

(** A full node, and the slots that the new one gets. *)
Record full_node (i : Z) n : Prop := mkFullNode {
  fn_ok : node_ok G i n;
  fn_keys : m_wNumKeys n = MAX_PTRS_PER_NODE G;
}.
Lemma full_entries i n : full_node i n -> entries n = take (Z.to_nat (MAX_PTRS_PER_NODE G)) (m_vecSlots n).
Proof. intros [H1 H2]. unfold entries. by rewrite H2. Qed.
Lemma full_ptrs i n : full_node i n -> m_bLeaf n = false -> ptrs n = dwBNodeIdx <$> m_vecSlots n.
Proof using HG HS.
  intros [H1 H2] Hl. unfold ptrs. rewrite take_ge; [done|]. rewrite (no_slots _ _ _ H1), (no_ptrs _ _ _ H1), Hl, H2. lia.
Qed.
Lemma full_moved i n : full_node i n ->
  moved n (if m_bLeaf n then split_at true else S (split_at false))
    (Z.to_nat (MAX_PTRS_PER_NODE G) - split_at (m_bLeaf n)) = v_cs (half_right (split_at (m_bLeaf n)) None (view n)).
Proof using HG HS.
  intros H. unfold moved, half_right. simpl. destruct (m_bLeaf n) eqn:Hl; [done|]. simpl. rewrite (full_ptrs i) by done.
  rewrite take_ge; [done|]. rewrite length_drop, length_fmap, (no_slots _ _ _ (fn_ok _ _ H)). destruct (split_at_Z false). lia.
Qed.

Lemma window_take {A} (v v' w : list A) off cnt :
  (forall x, v' !! x = if decide (0 <= x < 0 + cnt)%nat then v !! (off + x)%nat else w !! x) ->
  take cnt v' = take cnt (drop off v).
Proof.
  intros H. apply list_eq. intros x. destruct (decide (x < cnt)%nat).
  - by rewrite !lookup_take_lt, lookup_drop, H, decide_True by lia.
  - by rewrite !lookup_take_ge by lia.
Qed.

(** What [SplitMove] leaves behind. *)
Record halved (i s : Z) (n : CBPlusNode) d (pNew : CBPlusNode) d' : Prop := mkHalved {
  hd_left : exists n', m_mapChilds d' !! i = Some n' /\ node_ok G i n' /\ m_wFreeBNodeIdx n' = m_wFreeBNodeIdx n /\
    view n' = half_left (split_at (m_bLeaf n)) s (view n);
  hd_right : node_ok G s pNew /\ m_pParent pNew = None /\ view pNew = half_right (split_at (m_bLeaf n)) None (view n);
  hd_rest : exists m', d' = set_childs m' d /\ forall x, x <> i -> m' !! x =
    if decide (x ∈ v_cs (half_right (split_at (m_bLeaf n)) None (view n)))
    then SetParent (Some s) <$> m_mapChilds d !! x else m_mapChilds d !! x;
}.

(** The loop on a full node. *)
Lemma move_half d i n s :
  full_node i n -> 0 <= s < INVALID_BNODE_IDX -> s <> i ->
  NoDup (v_cs (half_right (split_at (m_bLeaf n)) None (view n))) ->
  (forall c, c ∈ v_cs (half_right (split_at (m_bLeaf n)) None (view n)) ->
     c <> i /\ exists nc, m_mapChilds d !! c = Some nc /\ m_wThisBNodeIdx nc <> s) ->
  let off := if m_bLeaf n then split_at true else S (split_at false) in
  let cnt := (Z.to_nat (MAX_PTRS_PER_NODE G) - split_at (m_bLeaf n))%nat in
  let dst := SetLeaf (m_bLeaf n) (NewBPlusNode G s) in
  wp (MoveLoop cnt dst n (Z.of_nat off) 0 0) d (fun dst' d' => exists v m',
    dst' = set_slots v dst /\ d' = set_childs m' d /\ length v = Z.to_nat (MAX_PTRS_PER_NODE G + 1) /\
    take cnt v = take cnt (drop off (m_vecSlots n)) /\
    adopted (v_cs (half_right (split_at (m_bLeaf n)) None (view n))) s (m_mapChilds d) m').
Proof using HG HS.
  intros Hf Hs Hsi Hnd Hc off cnt dst. pose proof (full_moved i n Hf) as Em. pose proof (fn_ok _ _ Hf) as Hok.
  destruct (NewBPlusNode_ok G s (m_bLeaf n) Hs) as (N1 & N2 & _). fold dst in N1, N2.
  pose proof (no_slots _ _ _ Hok) as Hsl. pose proof (ng_ptrs _ HG) as Hptrs. rewrite <- Em in Hnd, Hc |- *.
  destruct (split_at_Z true) as (T1 & T2 & T3 & T4). destruct (split_at_Z false) as (U1 & U2 & U3 & U4).
  assert (off + cnt <= Z.to_nat (MAX_PTRS_PER_NODE G + 1))%nat as Hoc by (unfold off, cnt; destruct (m_bLeaf n); lia).
  change 0 with (Z.of_nat 0) at 2. eapply wp_mono.
  - eapply (MoveLoop_ok n off cnt 0 dst d); rewrite ?Nat.add_0_r.
    + done.
    + by rewrite Hsl.
    + rewrite N2. lia.
    + intros Hl. rewrite (no_ptrs _ _ _ Hok), Hl, (fn_keys _ _ Hf). lia.
    + exact Hnd.
    + intros c Hin. destruct (Hc c Hin) as (_ & nc & Hnc & Hne). exists nc. split; [done|]. rewrite N1. congruence.
  - intros dst' d' (v & m' & -> & -> & Hlen & Hv & Ha). rewrite Nat.add_0_r, N1 in Ha. exists v, m'.
    split; [done|]. split; [done|]. split; [by rewrite Hlen, N2|]. split; [|exact Ha]. by eapply window_take.
Qed.

#[local] Arguments SPLIT_POS : simpl never.
#[local] Arguments split_at : simpl never.

Lemma u32_count leaf : u32 (MAX_PTRS_PER_NODE G - SPLIT_POS G leaf) = MAX_PTRS_PER_NODE G - SPLIT_POS G leaf.
Proof using HG HS.
  destruct (split_at_Z leaf) as (T1 & T2 & T3 & T4). pose proof (ng_ptrs _ HG). apply u32_small. lia.
Qed.

Lemma SplitMove_leaf d i n s :
  m_mapChilds d !! i = Some n -> full_node i n -> m_bLeaf n = true -> 0 <= s < INVALID_BNODE_IDX -> s <> i ->
  0 <= m_wNextLeaf n <= INVALID_BNODE_IDX ->
  wp (SplitMove G i (SPLIT_POS G true) (SetLeaf true (NewBPlusNode G s))) d
    (fun r d' => r.1 = 0 /\ halved i s n d r.2 d').
Proof using HG HS.
  intros Hi Hf Hl Hs Hsi Hnext. pose proof (fn_ok _ _ Hf) as Hok. pose proof (ng_ptrs _ HG) as Hptrs.
  destruct (split_at_Z true) as (T1 & T2 & T3 & T4). pose proof (fn_keys _ _ Hf) as Hk.
  destruct (NewBPlusNode_ok G s true Hs) as (N1 & N2 & N3 & N4 & N5 & N6 & _).
  pose proof (move_half d i n s Hf Hs Hsi) as Hmv.
  assert (v_cs (half_right (split_at (m_bLeaf n)) None (view n)) = []) as Ecs by (unfold half_right; simpl; by rewrite Hl).
  rewrite Ecs, Hl in Hmv. specialize (Hmv NoDup_nil_2 ltac:(set_solver)). cbn zeta in Hmv. rewrite T1 in Hmv.
  replace (Z.to_nat (MAX_PTRS_PER_NODE G) - split_at true)%nat
    with (Z.to_nat (MAX_PTRS_PER_NODE G - SPLIT_POS G true)) in Hmv by (unfold split_at; lia).
  set (dst := SetLeaf true (NewBPlusNode G s)) in *. set (cnt := MAX_PTRS_PER_NODE G - SPLIT_POS G true) in *.
  assert (cnt = MAX_PTRS_PER_NODE G - SPLIT_POS G true) as Ecnt by done. clearbody cnt.
  unfold SplitMove. wsteps. rewrite Hl, Hk, u32_count, <- Ecnt. unfold MoveBNodeStore. rewrite N5.
  replace (MAX_KEYS_PER_NODE G + 1) with (MAX_PTRS_PER_NODE G) by (unfold MAX_KEYS_PER_NODE; lia).
  destruct (Z.ltb_spec (MAX_PTRS_PER_NODE G) (SPLIT_POS G true + cnt)); [lia|].
  destruct (Z.ltb_spec (MAX_PTRS_PER_NODE G) (0 + cnt)); [lia|]. cbn [orb].
  wsteps. eapply wp_mono; [exact Hmv|]. intros dst' d1 (v & m' & -> & -> & Hlen & Hv & Ha).
  assert (m' !! i = Some n) as Hi' by (rewrite (Ha i), decide_False by apply not_elem_of_nil; done).
  change (m_bLeaf (set_slots v dst)) with (m_bLeaf dst). rewrite N5, Hk. wsteps.
  eapply wp_upd; [simpl; apply lookup_insert_eq|]. wsteps. split; [done|].
  replace (MAX_PTRS_PER_NODE G - cnt) with (SPLIT_POS G true) by lia.
  assert (u16 (SPLIT_POS G true) = SPLIT_POS G true) as Eq by (apply u16_keys; lia).
  assert (u16 (0 + cnt) = cnt) as Ec by (apply u16_keys; lia).
  assert (u16 s = s) as Es by by apply u16_idx.
  assert (Z.to_nat (SPLIT_POS G true) = split_at true) as Esp by done.
  pose proof (full_entries i n Hf) as Een. pose proof (no_ptrs _ _ _ Hok) as Hnp. rewrite Hl in Hnp.
  change (m_wThisBNodeIdx (SetKeyCount _ (set_slots v dst))) with (m_wThisBNodeIdx dst). rewrite N1.
  split.
  - eexists. split; [simpl; apply lookup_insert_eq|]. split.
    { destruct Hok as [O1 O2 O3 O4 O5]. split; simpl; rewrite ?Eq, ?Hl; try done; lia. }
    split; [done|]. unfold view, half_left, keys. unfold entries at 1 2, ptrs at 1. simpl. rewrite Hl, Eq, Es, Hnp, Esp. simpl.
    rewrite <- !fmap_take. unfold keys. by rewrite Een, !take_take, Nat.min_l by lia.
  - change (m_wNumKeys (set_slots v dst)) with (m_wNumKeys dst). rewrite N3. split.
    { split; simpl; rewrite ?Ec; try done; lia. }
    split; [done|]. unfold view, half_right, keys. unfold entries at 1 2, ptrs at 1. simpl. rewrite Hl, Ec. simpl.
    rewrite Hv, Een, <- fmap_drop. 
    assert (u16 (m_wNextLeaf n) = m_wNextLeaf n) as -> by (apply uN_small; unfold INVALID_BNODE_IDX, USHRT_MAX in *; lia).
    rewrite take_drop_commute. replace (split_at true + Z.to_nat cnt)%nat with (Z.to_nat (MAX_PTRS_PER_NODE G)) by lia. done.
  - exists (<[i := SetNextLeaf s (SetKeyCount (SPLIT_POS G true) n)]> (<[i := SetKeyCount (SPLIT_POS G true) n]> m')). split; [done|].
    intros x Hx. rewrite Ecs. by rewrite !lookup_insert_ne, (Ha x) by done.
Qed.

Lemma GetSlot_ok n i s : m_vecSlots n !! i = Some s ->
  Z.of_nat i <= (if IsRoot n then MAX_KEYS_PER_NODE G else if m_bLeaf n then m_wNumKeys n else m_wNumPtrs n) ->
  GetSlot G n (Z.of_nat i) = Ret s.
Proof.
  intros Hs Hi. unfold GetSlot. assert (SlotNull G n (Z.of_nat i) = false) as ->; [|by apply rd_lookup].
  unfold SlotNull. destruct (IsRoot n), (m_bLeaf n); apply Z.ltb_ge; unfold MAX_KEYS_PER_NODE in *; lia.
Qed.
Lemma UpdSlot_ok n i s f : m_vecSlots n !! i = Some s ->
  Z.of_nat i <= (if IsRoot n then MAX_KEYS_PER_NODE G else if m_bLeaf n then m_wNumKeys n else m_wNumPtrs n) ->
  UpdSlot G (Z.of_nat i) f n = Ret (set_slots (<[i := f s]> (m_vecSlots n)) n).
Proof.
  intros Hs Hi. unfold UpdSlot. erewrite GetSlot_ok by done. rewrite wr_ok; [done|]. by eapply lookup_lt_Some.
Qed.

(** Slots from [q] on changed: what is in front is the same. *)
Lemma take_set {A} q i (x : A) l : (q <= i)%nat -> take q (<[i := x]> l) = take q l.
Proof. apply take_insert_ge. Qed.
Lemma ptrs_set (f : KEYPTR_SLOT -> KEYPTR_SLOT) (i : nat) s (v : list KEYPTR_SLOT) :
  v !! i = Some s -> dwBNodeIdx (f s) = dwBNodeIdx s -> dwBNodeIdx <$> <[i := f s]> v = dwBNodeIdx <$> v.
Proof.
  intros Hs E. rewrite list_fmap_insert, E. apply list_insert_id. by rewrite list_lookup_fmap, Hs.
Qed.

Lemma SplitMove_inner d i n s p :
  m_mapChilds d !! i = Some n -> full_node i n -> m_bLeaf n = false -> m_pParent n = Some p ->
  0 <= s < INVALID_BNODE_IDX -> s <> i ->
  NoDup (v_cs (half_right (split_at (m_bLeaf n)) None (view n))) ->
  (forall c, c ∈ v_cs (half_right (split_at (m_bLeaf n)) None (view n)) ->
     c <> i /\ exists nc, m_mapChilds d !! c = Some nc /\ m_wThisBNodeIdx nc <> s) ->
  wp (SplitMove G i (SPLIT_POS G false) (SetLeaf false (NewBPlusNode G s))) d
    (fun r d' => r.1 = 0 /\ halved i s n d r.2 d').
Proof using HG HS.
  intros Hi Hf Hl Hpar Hs Hsi Hnd Hc. pose proof (fn_ok _ _ Hf) as Hok. pose proof (ng_ptrs _ HG) as Hptrs.
  destruct (split_at_Z false) as (T1 & T2 & T3 & T4). pose proof (fn_keys _ _ Hf) as Hk.
  destruct (NewBPlusNode_ok G s false Hs) as (N1 & N2 & N3 & N4 & N5 & N6 & _).
  pose proof (move_half d i n s Hf Hs Hsi Hnd Hc) as Hmv. cbn zeta in Hmv. rewrite Hl in Hmv, Hc, Hnd.
  pose proof (no_ptrs _ _ _ Hok) as Hnp. rewrite Hl, Hk in Hnp. pose proof (no_slots _ _ _ Hok) as Hsl.
  set (sp := split_at false) in *. set (dst := SetLeaf false (NewBPlusNode G s)) in *.
  replace (Z.of_nat (S sp)) with (SPLIT_POS G false + 1) in Hmv by lia.
  assert (exists cnt, cnt = MAX_PTRS_PER_NODE G + 1 - (SPLIT_POS G false + 1)) as [cnt Ecnt] by eauto.
  replace (Z.to_nat (MAX_PTRS_PER_NODE G) - sp)%nat with (Z.to_nat cnt) in Hmv by lia.
  unfold SplitMove. wsteps. rewrite Hl, Hnp, <- Ecnt.
  assert (u32 cnt = cnt) as -> by (apply u32_small; lia). unfold MoveBNodeStore. rewrite N5.
  destruct (Z.ltb_spec (MAX_PTRS_PER_NODE G + 1) (SPLIT_POS G false + 1 + cnt)); [lia|].
  destruct (Z.ltb_spec (MAX_PTRS_PER_NODE G + 1) (0 + cnt)); [lia|]. cbn [orb].
  wsteps. eapply wp_mono; [exact Hmv|]. intros dst' d1 (v & m' & -> & -> & Hlen & Hv & Ha).
  assert (m' !! i = Some n) as Hi'.
  { rewrite (Ha i), decide_False; [done|]. intros Hin. by apply (Hc i). }
  change (m_bLeaf (set_slots v dst)) with (m_bLeaf dst). rewrite N5, Hk. wsteps.
  change (m_wNumPtrs (set_slots v dst)) with (m_wNumPtrs dst). change (m_wNumKeys (set_slots v dst)) with (m_wNumKeys dst).
  rewrite N3, N4. replace (MAX_PTRS_PER_NODE G - cnt + 1) with (SPLIT_POS G false + 1) by lia. rewrite Hnp.
  replace (MAX_PTRS_PER_NODE G + 1 - cnt) with (SPLIT_POS G false + 1) by lia.
  replace (0 + cnt - 1) with (cnt - 1) by lia. replace (0 + cnt) with cnt by lia.
  set (n1 := SetChildCount _ (SetKeyCount _ n)).
  assert (u16 (SPLIT_POS G false + 1) = SPLIT_POS G false + 1) as Eq by (apply u16_keys; lia).
  assert (u16 (SPLIT_POS G false + 1 - 1) = SPLIT_POS G false) as Eq' by (rewrite Z.add_simpl_r; apply u16_keys; lia).
  assert (u16 cnt = cnt) as Ec by (apply u16_keys; lia). assert (u16 (cnt - 1) = cnt - 1) as Ec' by (apply u16_keys; lia).
  destruct (lookup_lt_is_Some_2 (m_vecSlots n) sp) as [ss Hss]; [rewrite Hsl; lia|].
  eapply wp_updM; [simpl; apply lookup_insert_eq| |].
  { rewrite <- T1. apply UpdSlot_ok; [exact Hss|]. unfold IsRoot. simpl. rewrite Hpar, Hl, Eq. lia. }
  wsteps. eapply wp_upd; [simpl; apply lookup_insert_eq|]. wsteps. split; [done|].
  set (v' := <[sp := _]> _).
  assert (dwBNodeIdx <$> v' = dwBNodeIdx <$> m_vecSlots n) as Ev'.
  { apply (ptrs_set (fun s => mkSlot CLEAR_KEY (dwBNodeIdx s) (byFileType s))); done. }
  assert (Z.to_nat (SPLIT_POS G false) = sp) as Esp by lia.
  assert (Z.to_nat (SPLIT_POS G false + 1) = S sp) as Esp' by lia.
  pose proof (full_entries i n Hf) as Een. pose proof (full_ptrs i n Hf Hl) as Ept.
  split.
  - eexists. split; [simpl; apply lookup_insert_eq|]. split.
    { destruct Hok as [O1 O2 O3 O4 O5 O6]. split; simpl; rewrite ?Eq, ?Eq'; try lia; auto; [unfold v'; by rewrite length_insert|by rewrite Hl]. }
    split; [done|]. unfold view, half_left, keys, entries, ptrs. simpl. rewrite Hl, Eq, Eq', Esp, Esp'. cbv beta iota. simpl.
    assert (dwBNodeIdx <$> take (S sp) v' = dwBNodeIdx <$> take (S sp) (m_vecSlots n)) as -> by by rewrite !fmap_take, Ev'.
    unfold v'. rewrite take_set by lia. rewrite Hk, Hnp. fold sp. rewrite <- !(fmap_take _ _ (take _ _)), !take_take, !Nat.min_l by lia. done.
  - split.
    { split; simpl; rewrite ?Ec, ?Ec'; try done; lia. }
    split; [done|]. unfold view, half_right, keys, entries, ptrs. simpl. rewrite Hl, Ec, Ec'. simpl.
    fold (entries n) (ptrs n). rewrite Een, Ept, <- !fmap_drop. rewrite Hv.
    assert (take (Z.to_nat (cnt - 1)) v = take (Z.to_nat (cnt - 1)) (drop (S sp) (m_vecSlots n))) as ->.
    { rewrite <- (Nat.min_l (Z.to_nat (cnt - 1)) (Z.to_nat cnt)) by lia. by rewrite <- take_take, Hv, take_take. }
    rewrite take_drop_commute. replace (S sp + Z.to_nat (cnt - 1))%nat with (Z.to_nat (MAX_PTRS_PER_NODE G)) by lia.
    rewrite (take_ge (drop (S sp) (m_vecSlots n))) by (rewrite length_drop, Hsl; lia). done.
  - eexists. split; [reflexivity|]. intros x Hx. simpl. rewrite !lookup_insert_ne by done. rewrite Hl. apply Ha.
Qed.

(** ** The parent of the node that is split *)

(** The parent before the slot of the new sibling goes in at [S j]: [vp] is the
    parent as it was, [sep] the key in slot [j], [k] the key of the new slot. *)
Record p_ready (p : Z) (j : nat) (sep k : key) (vp : vnode) (n : CBPlusNode) : Prop := mkPReady {
  pr_leaf : m_bLeaf n = false;
  pr_id : node_id p n;
  pr_slots : length (m_vecSlots n) = Z.to_nat (MAX_PTRS_PER_NODE G + 1);
  pr_next : m_wNextLeaf n = v_next vp /\ v_next vp = INVALID_BNODE_IDX;
  pr_parent : m_pParent n = v_parent vp;
  pr_j : (j < length (v_cs vp))%nat;
  pr_len : Z.of_nat (length (v_cs vp)) <= MAX_PTRS_PER_NODE G;
  pr_count : m_wNumPtrs n = Z.of_nat (length (v_cs vp));
  pr_keys : m_wNumKeys n = Z.of_nat (length (v_cs vp)) - (if bool_decide (k = ""%string) then 0 else 1);
  pr_ptrs : dwBNodeIdx <$> take (length (v_cs vp)) (m_vecSlots n) = v_cs vp;
  pr_names : take (length (v_cs vp)) (insert_at (S j) k (szKey <$> take (length (v_cs vp)) (m_vecSlots n))) =
    insert_at j sep (v_ks vp);
}.

Lemma p_ready_free p j sep k vp n y : p_ready p j sep k vp n -> p_ready p j sep k vp (SetFreeBNodeIdx y n).
Proof. intros [H1 H2 H3 H4 H5 H6 H7 H8 H9 H10 H11]. by split. Qed.

(** The keys of the parent, however the key comes to the new slot. *)
Lemma parent_names j len (names ks : list key) sep k :
  length names = len -> take (pred len) names = ks -> (j < len)%nat ->
  ((S j < len)%nat -> ks !! j = Some k) ->
  take len (insert_at (S j) k (<[j := sep]> names)) = insert_at j sep ks.
Proof.
  intros Hlen Hks Hj Hk. assert (length ks = pred len) as Hl by (rewrite <- Hks, length_take; lia).
  assert (forall x, (x < pred len)%nat -> names !! x = ks !! x) as Hx by (intros x Hx; by rewrite <- Hks, lookup_take_lt).
  apply list_eq. intros x. destruct (decide (x < len)%nat) as [Hxl|Hxl].
  - rewrite lookup_take_lt by done. destruct (Nat.lt_trichotomy x (S j)) as [Hlt|[->|Hgt]].
    + rewrite insert_at_before by (rewrite ?length_insert; lia). destruct (decide (x = j)) as [->|Hne].
      * rewrite list_lookup_insert_eq by lia. by rewrite insert_at_here by lia.
      * rewrite list_lookup_insert_ne by done. rewrite insert_at_before by lia. apply Hx. lia.
    + rewrite insert_at_here by (rewrite length_insert; lia). rewrite insert_at_behind by lia. symmetry. by apply Hk.
    + destruct x as [|x]; [lia|]. rewrite insert_at_behind by (rewrite ?length_insert; lia).
      rewrite list_lookup_insert_ne by lia. rewrite insert_at_behind by lia. apply Hx. lia.
  - rewrite lookup_take_ge by lia. symmetry. apply lookup_ge_None. rewrite length_insert_at; lia.
Qed.

Lemma ready_view p j sep k vp n s v :
  p_ready p j sep k vp n -> length v = length (m_vecSlots n) ->
  take (S (Z.to_nat (m_wNumPtrs n))) v = insert_at (S j) (mkSlot k s 0) (take (Z.to_nat (m_wNumPtrs n)) (m_vecSlots n)) ->
  let n' := slot_inserted v (mkSlot k s 0) n in
  node_ok G p n' /\ view n' = split_parent_view vp j sep s /\ m_wFreeBNodeIdx n' = m_wFreeBNodeIdx n.
Proof using HG HS.
  intros [R1 [R2 R2'] R3 [R4 R4'] R5 R6 R7 R8 R9 R10 R11] Hv Ht n'. rewrite R8, Nat2Z.id in Ht. set (len := length (v_cs vp)) in *.
  assert (m_wNumPtrs n' = Z.of_nat len + 1 /\ m_wNumKeys n' = Z.of_nat len) as [Ep Ek].
  { unfold n', slot_inserted. simpl. destruct (bool_decide _); simpl; rewrite R1; simpl; rewrite R8, ?R9; split;
    rewrite ?u16_keys; lia. }
  assert (m_vecSlots n' = v /\ m_bLeaf n' = false /\ m_wThisBNodeIdx n' = p /\ m_wNextLeaf n' = m_wNextLeaf n /\
    m_pParent n' = m_pParent n /\ m_wFreeBNodeIdx n' = m_wFreeBNodeIdx n) as (E1 & E2 & E3 & E4 & E5 & E6).
  { unfold n', slot_inserted. simpl. destruct (bool_decide _); simpl; rewrite R1; done. }
  assert (take len v = take len (insert_at (S j) (mkSlot k s 0) (take len (m_vecSlots n)))) as Htl.
  { rewrite <- Ht, take_take, Nat.min_l by lia. done. }
  split; [|split; [|done]].
  - split; rewrite ?E1, ?E2, ?Ep, ?Ek; try done; [congruence|lia|congruence].
  - unfold view, split_parent_view, keys, entries, ptrs. rewrite E1, E2, E4, E5, Ep, Ek, R4, R5, Nat2Z.id.
    replace (Z.to_nat (Z.of_nat len + 1)) with (S len) by lia. rewrite Ht, fmap_insert_at, R10. simpl.
    f_equal. rewrite Htl, fmap_take, fmap_insert_at. exact R11.
Qed.

Lemma set_name_ready p j sep k vp n s (len := length (v_cs vp)) :
  m_bLeaf n = false -> node_id p n -> length (m_vecSlots n) = Z.to_nat (MAX_PTRS_PER_NODE G + 1) ->
  m_wNextLeaf n = v_next vp /\ v_next vp = INVALID_BNODE_IDX -> m_pParent n = v_parent vp -> (j < len)%nat -> Z.of_nat len <= MAX_PTRS_PER_NODE G ->
  m_wNumPtrs n = Z.of_nat len -> dwBNodeIdx <$> take len (m_vecSlots n) = v_cs vp ->
  take (pred len) (szKey <$> m_vecSlots n) = v_ks vp -> m_vecSlots n !! j = Some s ->
  ((S j < len)%nat -> v_ks vp !! j = Some k) -> key_ok sep ->
  m_wNumKeys n = Z.of_nat len - (if bool_decide (k = ""%string) then 0 else 1) ->
  p_ready p j sep k vp (set_slots (<[j := COPY_KEY sep s]> (m_vecSlots n)) n).
Proof using HG HS.
  intros R1 R2 R3 R4 R5 R6 R7 R8 R9 R10 Hs Hk [Hsep _] R11. split; simpl; try done.
  - by rewrite length_insert.
  - rewrite fmap_take, (ptrs_set (COPY_KEY sep) j s) by done. by rewrite <- fmap_take.
  - fold len. rewrite fmap_take, list_fmap_insert. simpl szKey. rewrite Hsep, take_insert_lt by done.
    apply parent_names; [|by rewrite take_take, Nat.min_l by lia|done|done].
    rewrite length_take, length_fmap, R3. lia.
Qed.

Lemma SplitParent_ok d n p p0 j sep :
  m_mapChilds d !! p = Some p0 -> node_ok G p p0 -> m_bLeaf p0 = false -> m_wNumKeys p0 <= MAX_KEYS_PER_NODE G ->
  Forall key_ok (keys p0) -> (j < length (ptrs p0))%nat -> key_ok sep ->
  wp (SplitParent G n p (Z.of_nat j) sep None) d (fun r d' => exists k p1, r = Some (Z.of_nat j, k) /\
    d' = set_childs (<[p := p1]> (m_mapChilds d)) d /\ p_ready p j sep k (view p0) p1 /\
    m_wFreeBNodeIdx p1 = m_wFreeBNodeIdx p0).
Proof using HG HS.
  intros Hp Hok Hl Hk Hkeys Hj Hsep. pose proof (ng_ptrs _ HG) as Hptrs. pose proof (no_keys _ _ _ Hok) as Hkb.
  pose proof (length_keys G HG p p0 Hok) as Hlk. pose proof (length_ptrs G HG p p0 Hok) as Hlp.
  pose proof (no_ptrs _ _ _ Hok) as Hnp. rewrite Hl in Hnp. unfold MAX_KEYS_PER_NODE in Hk.
  pose proof (no_slots _ _ _ Hok) as Hsl. destruct (lookup_lt_is_Some_2 (m_vecSlots p0) j) as [s Hs]; [rewrite Hsl; lia|].
  assert (forall f, UpdSlot G (Z.of_nat j) f p0 = Ret (set_slots (<[j := f s]> (m_vecSlots p0)) p0) /\
    GetSlot G p0 (Z.of_nat j) = Ret s) as Hupd.
  { intros f. split; [apply UpdSlot_ok|apply GetSlot_ok]; try done; unfold MAX_KEYS_PER_NODE; rewrite Hl; destruct (IsRoot p0); lia. }
  assert (take (pred (length (ptrs p0))) (szKey <$> m_vecSlots p0) = keys p0) as Hnames.
  { unfold keys, entries. rewrite <- fmap_take. do 2 f_equal. lia. }
  assert (dwBNodeIdx <$> take (length (ptrs p0)) (m_vecSlots p0) = ptrs p0) as Hpt.
  { unfold ptrs at 2. do 2 f_equal. lia. }
  unfold SplitParent. wsteps. destruct (Z.eqb_spec (m_wNumPtrs p0) 0); [lia|].
  destruct (Z.ltb_spec (Z.of_nat j) (m_wNumPtrs p0 - 1)).
  - assert (exists k, keys p0 !! j = Some k) as [k Hkj] by (apply lookup_lt_is_Some; lia).
    assert (szKey s = k /\ key_ok k) as [Esk Hkk].
    { rewrite Forall_lookup in Hkeys. split; [|by eapply Hkeys].
      unfold keys, entries in Hkj. rewrite list_lookup_fmap, lookup_take_lt, Hs in Hkj by lia. by injection Hkj. }
    apply wp_bind. eapply wp_lift; [by apply Hupd|]. apply wp_bind. eapply wp_lift; [by apply Hupd|]. wsteps.
    exists k, (set_slots (<[j := COPY_KEY sep s]> (m_vecSlots p0)) p0). rewrite Esk, (proj1 Hkk).
    split; [done|]. split; [done|]. split; [|done].
    apply set_name_ready; simpl; try done; [by split; [apply (no_this _ _ _ Hok)|apply (no_idx _ _ _ Hok)]|by split; [|apply (no_next _ _ _ Hok)]|lia|].
    rewrite bool_decide_false by apply Hkk. lia.
  - assert (u32 (Z.of_nat j + 1) = Z.of_nat j + 1) as -> by (apply u32_small; lia).
    destruct (Z.eqb_spec (Z.of_nat j + 1) (m_wNumPtrs p0)); [|lia].
    apply wp_bind. eapply wp_lift; [by apply Hupd|]. wsteps.
    exists ""%string, (IncKeyCount (set_slots (<[j := COPY_KEY sep s]> (m_vecSlots p0)) p0)).
    split; [done|]. split; [done|]. split; [|done].
    assert (u16 (m_wNumKeys p0 + 1) = m_wNumKeys p0 + 1) as Eu by (apply u16_keys; lia).
    change (IncKeyCount (set_slots (<[j := COPY_KEY sep s]> (m_vecSlots p0)) p0))
      with (set_slots (<[j := COPY_KEY sep s]> (m_vecSlots (IncKeyCount p0))) (IncKeyCount p0)).
    apply set_name_ready; simpl; try done; [by split; [apply (no_this _ _ _ Hok)|apply (no_idx _ _ _ Hok)]|by split; [|apply (no_next _ _ _ Hok)]|lia|lia|].
    rewrite Eu. lia.
Qed.

(** The first child of a new root. *)
Definition first_child (i : Z) : vnode := V false [] [] [i] INVALID_BNODE_IDX None.
Definition empty_root (p : Z) (n : CBPlusNode) : Prop :=
  exists y, n = SetFreeBNodeIdx y (SetLeaf false (NewBPlusNode G p)).

Lemma SplitParent_root d n p p0 i j sep o :
  m_mapChilds d !! p = Some p0 -> empty_root p p0 -> node_id i n -> 0 <= p < INVALID_BNODE_IDX -> p <> i -> key_ok sep ->
  (forall c, o = Some c -> m_mapChilds d !! i = None /\ m_wThisBNodeIdx c = i) ->
  wp (SplitParent G n p j sep o) d (fun r d' => exists p1, r = Some (0, ""%string) /\
    d' = set_childs (match o with
                     | None => <[p := p1]> (m_mapChilds d)
                     | Some c => <[i := SetParent (Some p) c]> (<[p := p1]> (m_mapChilds d)) end) d /\
    p_ready p 0 sep "" (first_child i) p1 /\ m_wFreeBNodeIdx p1 = m_wFreeBNodeIdx p0).
Proof using HG HS.
  intros Hp [y Ey] [Hid Hi] Hpr Hpi Hsep Ho. pose proof (ng_ptrs _ HG) as Hptrs.
  destruct (NewBPlusNode_ok G p false Hpr) as (N1 & N2 & N3 & N4 & N5 & N6 & _).
  set (nn := SetLeaf false (NewBPlusNode G p)) in *.
  assert (exists s, m_vecSlots p0 !! 0%nat = Some s) as [s Hs].
  { apply lookup_lt_is_Some. rewrite Ey. change (m_vecSlots (SetFreeBNodeIdx y nn)) with (m_vecSlots nn). rewrite N2. lia. }
  unfold SplitParent. wsteps. assert (m_wNumPtrs p0 = 0) as -> by by rewrite Ey. change (0 =? 0) with true. cbn iota.
  apply wp_bind. eapply wp_lift.
  { change 0 with (Z.of_nat 0). apply UpdSlot_ok; [exact Hs|]. rewrite Ey. simpl. unfold MAX_KEYS_PER_NODE. lia. }
  wsteps. rewrite Hid. set (p1 := IncChildCount _). unfold nn in Ey.
  assert (p_ready p 0 sep "" (first_child i) p1 /\ m_wFreeBNodeIdx p1 = m_wFreeBNodeIdx p0) as [Hready Hfree].
  { split; [|done]. destruct Hsep as [Hsep _]. unfold p1. rewrite Ey. split; simpl; try done.
    - by rewrite length_insert, length_replicate.
    - lia.
    - lia.
    - destruct (replicate _ _) eqn:E; [|done]. exfalso. rewrite Ey in Hs. simpl in Hs. by rewrite E in Hs.
    - destruct (replicate _ _) eqn:E; [|simpl; by rewrite Hsep]. exfalso. rewrite Ey in Hs. simpl in Hs. by rewrite E in Hs. }
  destruct o as [c|].
  - destruct (Ho c eq_refl) as [Hni Hc]. apply wp_bind.
    eapply wp_mono; [eapply AddChildDirect_ok; [simpl; by rewrite lookup_insert_ne|by rewrite Hc]|].
    intros r d' [-> ->]. wsteps. exists p1. done.
  - wsteps. exists p1. done.
Qed.

(** ** One level of a split *)

(** Nodes change, and nodes that are not marked yet come or go. *)
Lemma store_childs X d m' :
  store_ok G X d ->
  (exists r r', m_mapChilds d !! m_pRootNode d = Some r /\ m' !! m_pRootNode d = Some r' /\
    m_wFreeBNodeIdx r' = m_wFreeBNodeIdx r) ->
  (forall x n', m' !! x = Some n' ->
    (exists n, m_mapChilds d !! x = Some n /\ m_wThisBNodeIdx n' = m_wThisBNodeIdx n /\
       (x ∈ X \/ image n' = image n)) \/
    (x ∈ X /\ node_id x n' /\ in_file G (m_oFile d) x /\ x ∉ free_pages (head_of d) (m_vecFreeBNodes d))) ->
  store_ok G X (set_childs m' d).
Proof.
  intros [H1 H2 H3 H4 H5 H6 H7 H8] (r & r' & Hr & Hr' & Hf) Hm.
  assert (head_of (set_childs m' d) = head_of d) as Eh by (unfold head_of; simpl; by rewrite Hr, Hr').
  split; simpl; rewrite ?Eh; try done.
  - split; [apply H2|eauto].
  - intros x n' Hx. destruct (Hm x n' Hx) as [(n & Hn & E & _)|(_ & ? & ? & _)]; [|done].
    destruct (H3 x n Hn) as [[? ?] ?]. split; [|done]. split; [congruence|done].
  - intros x Hx. destruct (H5 x Hx) as [E ?]. split; [|done]. destruct (m' !! x) as [n'|] eqn:En; [|done].
    destruct (Hm x n' En) as [(n & Hn & _)|(_ & _ & _ & ?)]; [congruence|done].
  - intros x n' Hx. destruct (Hm x n' Hx) as [(n & Hn & _ & [?|E])|(? & _)]; [by left| |by left].
    destruct (H6 x n Hn) as [|[|]]; [tauto..|]. right. right. by eapply on_page_image.
Qed.

(** The tree and the store after the new sibling is in. *)
Record split_done X i p (vl vr vp' : vnode) s d d' : Prop := mkSplitDone {
  sd_fresh : m_mapChilds d !! s = None /\ 0 <= s < INVALID_BNODE_IDX;
  sd_store : store_ok G ({[s]} ∪ X) d';
  sd_grows : grows d d';
  sd_root : m_pRootNode d' = m_pRootNode d;
  sd_room : (df_room (m_oFile d) <= S (df_room (m_oFile d')))%nat;
  sd_view : forall x, vtree d' !! x = split_view (vtree d) i p s vl vr vp' x;
  sd_ok : (forall x n, x <> p -> m_mapChilds d !! x = Some n -> node_ok G x n) ->
    forall x n, m_mapChilds d' !! x = Some n -> node_ok G x n;
}.

Lemma same_node_props d d' i n : same_nodes d d' -> m_mapChilds d !! i = Some n ->
  exists n', m_mapChilds d' !! i = Some n' /\ view n' = view n /\ m_pParent n' = m_pParent n /\
    m_bLeaf n' = m_bLeaf n /\ m_wNextLeaf n' = m_wNextLeaf n /\ m_wThisBNodeIdx n' = m_wThisBNodeIdx n /\
    (full_node i n -> full_node i n') /\ (node_ok G i n -> node_ok G i n') /\
    (forall p j sep k vp, p_ready p j sep k vp n -> p_ready p j sep k vp n').
Proof.
  intros H Hi. destruct (same_nodes_some _ _ _ _ H Hi) as (n' & Hn' & [->|[y ->]]); eexists; (split; [done|]); split_and!; try done.
  - intros [[H1 H2 H3 H4 H5 HN] H6]. by split.
  - intros [H1 H2 H3 H4 H5 HN]. by split.
  - intros p j sep k vp [? ? ? ? ? ? ? ? ? ? ?]. by split.
Qed.

Lemma SplitMove_ok d i n s p :
  m_mapChilds d !! i = Some n -> full_node i n -> m_pParent n = Some p -> 0 <= s < INVALID_BNODE_IDX -> s <> i ->
  (m_bLeaf n = true -> 0 <= m_wNextLeaf n <= INVALID_BNODE_IDX) ->
  NoDup (v_cs (half_right (split_at (m_bLeaf n)) None (view n))) ->
  (forall c, c ∈ v_cs (half_right (split_at (m_bLeaf n)) None (view n)) ->
     c <> i /\ exists nc, m_mapChilds d !! c = Some nc /\ m_wThisBNodeIdx nc <> s) ->
  wp (SplitMove G i (SPLIT_POS G (m_bLeaf n)) (SetLeaf (m_bLeaf n) (NewBPlusNode G s))) d
    (fun r d' => r.1 = 0 /\ halved i s n d r.2 d').
Proof using HG HS.
  intros Hi Hf Hp Hs Hsi Hn Hnd Hc. destruct (m_bLeaf n) eqn:El.
  - apply SplitMove_leaf; auto.
  - eapply SplitMove_inner; rewrite ?El; eauto.
Qed.

Definition new_childs (m3 : gmap Z CBPlusNode) (p s : Z) (pNew p5 : CBPlusNode) : gmap Z CBPlusNode :=
  <[p := p5]> (<[s := SetParent (Some p) pNew]> m3).

Lemma reparent_view p n : view (SetParent (Some p) n) = reparent p (view n).
Proof. done. Qed.
Lemma half_right_cs q o o' v : v_cs (half_right q o v) = v_cs (half_right q o' v).
Proof. unfold half_right. by destruct (v_leaf v). Qed.

Section New.
Context {X : gset Z} {d d2 d3 : CDirImage F} {i p s : Z} {n2 p2 p5 pNew : CBPlusNode} {vp' : vnode} {bLeaf : bool}.
Abbreviation L := (v_cs (half_right (split_at (m_bLeaf n2)) None (view n2))).
Context (HNew : new_node G X d bLeaf s d2) (Hi : m_mapChilds d2 !! i = Some n2) (Hp : m_mapChilds d2 !! p = Some p2).
Context (Hip : i <> p) (HiX : i ∈ X) (HpX : p ∈ X) (HpL : p ∉ L).
Context (HH : halved i s n2 d2 pNew d3) (Hp5 : node_ok G p p5) (Hv5 : view p5 = vp') (Hf5 : m_wFreeBNodeIdx p5 = m_wFreeBNodeIdx p2).

Lemma new_fresh : m_mapChilds d2 !! s = None /\ s <> i /\ s <> p.
Proof using All.
  pose proof (same_nodes_none _ _ _ (nn_same _ _ _ _ _ _ HNew) (nn_fresh _ _ _ _ _ _ HNew)) as E.
  split; [done|]. split; congruence.
Qed.

Lemma new_lookup m3 : d3 = set_childs m3 d2 ->
  (forall x, x <> i -> m3 !! x = if decide (x ∈ L) then SetParent (Some s) <$> m_mapChilds d2 !! x else m_mapChilds d2 !! x) ->
  forall x, x <> p -> x <> s -> x <> i ->
  new_childs m3 p s pNew p5 !! x = if decide (x ∈ L) then SetParent (Some s) <$> m_mapChilds d2 !! x else m_mapChilds d2 !! x.
Proof using All. intros _ Hm x H1 H2 H3. unfold new_childs. rewrite !lookup_insert_ne by done. by apply Hm. Qed.

Lemma new_split_done : exists m3, d3 = set_childs m3 d2 /\
  split_done X i p (half_left (split_at (m_bLeaf n2)) s (view n2)) (half_right (split_at (m_bLeaf n2)) (Some p) (view n2)) vp' s d
    (set_childs (new_childs m3 p s pNew p5) d2).
Proof using All.
  destruct new_fresh as (Hs & Hsi & Hsp). destruct (hd_rest _ _ _ _ _ _ HH) as (m3 & E3 & Hm3). exists m3. split; [done|].
  pose proof (new_lookup m3 E3 Hm3) as Hother. destruct (hd_left _ _ _ _ _ _ HH) as (n3 & Hn3 & Hok3 & Hf3 & Hv3).
  rewrite E3 in Hn3. simpl in Hn3. destruct (hd_right _ _ _ _ _ _ HH) as (Hokr & Hparr & Hvr).
  set (m5 := new_childs m3 p s pNew p5) in *.
  assert (m5 !! p = Some p5) as H5p by apply lookup_insert_eq.
  assert (m5 !! s = Some (SetParent (Some p) pNew)) as H5s
    by (unfold m5, new_childs; rewrite lookup_insert_ne by done; apply lookup_insert_eq).
  assert (m5 !! i = Some n3) as H5i by (unfold m5, new_childs; by rewrite !lookup_insert_ne by done).
  pose proof (nn_store _ _ _ _ _ _ HNew) as HSt. pose proof (nn_range _ _ _ _ _ _ HNew) as [Hsr Hsf].
  pose proof (nn_same _ _ _ _ _ _ HNew) as Hsame.
  assert (store_ok G ({[s]} ∪ X) d2) as HSt' by (eapply store_sub; [|exact HSt]; set_solver).
  assert (forall x m, x <> i -> x <> p -> m_mapChilds d2 !! x = Some m -> exists m', m5 !! x = Some m' /\
    m_wFreeBNodeIdx m' = m_wFreeBNodeIdx m) as Hkeep.
  { intros x m Hxi Hxp Hx. assert (x <> s) by congruence. rewrite Hother by done.
    destruct (decide (x ∈ L)); rewrite Hx; simpl; eauto. }
  split.
  - split; [by eapply nn_fresh|done].
  - apply store_childs; [done| |].
    + destruct (so_root _ _ _ HSt) as [_ [r Hr]]. exists r. set (rt := m_pRootNode d2) in *.
      destruct (decide (rt = i)) as [E|Hri]; [|destruct (decide (rt = p)) as [E|Hrp]].
      * rewrite E in *. exists n3. split; [done|]. split; [done|]. congruence.
      * rewrite E in *. exists p5. split; [done|]. split; [done|]. congruence.
      * destruct (Hkeep rt r Hri Hrp Hr) as (r' & ? & ?). exists r'. done.
    + intros x m' Hx. destruct (decide (x = s)) as [->|Hxs].
      { right. rewrite H5s in Hx. injection Hx as <-. split; [set_solver|]. split; [|split; [done|by eapply nn_free]].
        split; [apply (no_this _ _ _ Hokr)|done]. }
      left. destruct (decide (x = i)) as [->|Hxi]; [|destruct (decide (x = p)) as [->|Hxp]].
      * rewrite H5i in Hx. injection Hx as <-. exists n2. split; [done|]. split; [|left; set_solver].
        rewrite (no_this _ _ _ Hok3). symmetry. by apply (so_node _ _ _ HSt i n2 Hi).
      * rewrite H5p in Hx. injection Hx as <-. exists p2. split; [done|]. split; [|left; set_solver].
        rewrite (no_this _ _ _ Hp5). symmetry. by apply (so_node _ _ _ HSt p p2 Hp).
      * rewrite Hother in Hx by done. destruct (decide (x ∈ L)).
        -- destruct (m_mapChilds d2 !! x) as [nx|]; [|done]. simpl in Hx. injection Hx as <-. exists nx. auto.
        -- exists m'. auto.
  - eapply dir_grows_trans; [by eapply same_grows|]. by split.
  - apply (sn_root _ _ Hsame).
  - exact (nn_room _ _ _ _ _ _ HNew).
  - intros x. rewrite <- (same_nodes_view d d2) by done. unfold vtree. rewrite !lookup_fmap. simpl m_mapChilds. unfold split_view.
    destruct (decide (x = p)) as [->|Hxp]; [by rewrite H5p, <- Hv5|].
    destruct (decide (x = s)) as [->|Hxs].
    { rewrite H5s. simpl. rewrite reparent_view, Hvr. unfold half_right. by destruct (v_leaf (view n2)). }
    destruct (decide (x = i)) as [->|Hxi]; [by rewrite H5i, <- Hv3|].
    rewrite Hother by done. rewrite (half_right_cs _ (Some p) None).
    destruct (decide (x ∈ L)); [|by rewrite lookup_fmap]. rewrite lookup_fmap. by destruct (m_mapChilds d2 !! x).
  - intros Hok x m' Hx. simpl in Hx. destruct (decide (x = s)) as [->|Hxs].
    { rewrite H5s in Hx. injection Hx as <-. destruct Hokr. by split. }
    destruct (decide (x = i)) as [->|Hxi]; [congruence|]. destruct (decide (x = p)) as [->|Hxp]; [congruence|].
    rewrite Hother in Hx by done.
    assert (forall nx, m_mapChilds d2 !! x = Some nx -> node_ok G x nx) as Hokx.
    { intros nx Hnx. destruct (sn_nodes _ _ Hsame x) as [E|(n0 & y & E & E')].
      - rewrite E in Hnx. by apply Hok.
      - rewrite E' in Hnx. injection Hnx as <-. destruct (Hok x n0 Hxp E). by split. }
    destruct (decide (x ∈ L)); [|by apply Hokx]. destruct (m_mapChilds d2 !! x) as [nx|]; [|done].
    simpl in Hx. injection Hx as <-. destruct (Hokx nx eq_refl). by split.
Qed.
End New.

Lemma SplitNew_ok X d i n p p1 vp j sep k :
  store_ok G X d -> (0 < df_room (m_oFile d))%nat -> i ∈ X -> p ∈ X -> i <> p ->
  m_mapChilds d !! i = Some n -> full_node i n -> m_pParent n = Some p ->
  m_mapChilds d !! p = Some p1 -> p_ready p j sep k vp p1 ->
  (m_bLeaf n = true -> 0 <= m_wNextLeaf n <= INVALID_BNODE_IDX) ->
  NoDup (v_cs (half_right (split_at (m_bLeaf n)) None (view n))) ->
  (forall c, c ∈ v_cs (half_right (split_at (m_bLeaf n)) None (view n)) -> c <> i /\ c <> p /\ is_Some (m_mapChilds d !! c)) ->
  wp (SplitNew G (m_bLeaf n) i p (SPLIT_POS G (m_bLeaf n)) (Z.of_nat j) k) d (fun r d' => r.1 = 0 /\
    split_done X i p (half_left (split_at (m_bLeaf n)) r.2 (view n)) (half_right (split_at (m_bLeaf n)) (Some p) (view n))
      (split_parent_view vp j sep r.2) r.2 d d').
Proof using HG HS.
  intros HSt Hroom HiX HpX Hip Hi Hf Hpar Hp Hrd Hnext Hnd Hc. unfold SplitNew. apply wp_bind.
  eapply wp_mono; [by apply (GetFreeBNode_ok G HG HS X)|]. intros [ret pNew0] d2 (E & s & E' & HNew). simpl in E, E'. subst ret pNew0.
  wsteps. pose proof (nn_same _ _ _ _ _ _ HNew) as Hsame. pose proof (nn_range _ _ _ _ _ _ HNew) as [Hsr _].
  destruct (same_node_props _ _ _ _ Hsame Hi) as (n2 & Hn2 & Ev & Epar & El & En & _ & Hfull & _).
  destruct (same_node_props _ _ _ _ Hsame Hp) as (p2 & Hp2 & _ & _ & _ & _ & _ & _ & _ & Hrd2). specialize (Hrd2 _ _ _ _ _ Hrd).
  pose proof (nn_fresh _ _ _ _ _ _ HNew) as Hfresh. assert (s <> i /\ s <> p) as [Hsi Hsp] by (split; congruence).
  rewrite <- El, <- Ev in Hnd, Hc |- *. pose proof (nn_store _ _ _ _ _ _ HNew) as HSt2.
  eapply wp_mono.
  { eapply (SplitMove_ok d2 i n2 s p); [done|by apply Hfull|congruence|done|done|by rewrite El, En|done|].
    intros c Hin. destruct (Hc c Hin) as (H1 & H2 & [nc Hnc]). split; [done|].
    destruct (same_nodes_some _ _ _ _ Hsame Hnc) as (nc' & Hnc' & _). exists nc'. split; [done|].
    destruct (so_node _ _ _ HSt2 c nc' Hnc') as [[-> _] _]. congruence. }
  intros [ret pNew] d3 [E HH]. simpl in E, HH. subst ret. wsteps.
  destruct (hd_right _ _ _ _ _ _ HH) as (Hokr & Hparr & Hvr). rewrite (no_this _ _ _ Hokr).
  destruct (hd_rest _ _ _ _ _ _ HH) as (m3 & E3 & Hm3).
  assert (forall x, x <> i -> x = p \/ m_mapChilds d2 !! x = None -> m_mapChilds d3 !! x = m_mapChilds d2 !! x) as Hd3.
  { intros x Hxi Hx. rewrite E3. simpl. rewrite Hm3 by done. rewrite decide_False; [done|]. intros Hin.
    destruct (Hc x Hin) as (_ & H2 & H3). destruct Hx as [->|Hx]; [done|]. destruct H3 as [nx H3].
    destruct (same_nodes_some _ _ _ _ Hsame H3) as (? & ? & _). congruence. }
  eapply wp_mono.
  { eapply AddChildDirect_ok; [|rewrite (no_this _ _ _ Hokr); congruence].
    rewrite Hd3; [|done|right]; by eapply same_nodes_none. }
  intros r d4 [-> ->]. wsteps. rewrite E3. simpl m_mapChilds.
  assert (m3 !! p = Some p2) as Hm3p by (rewrite <- Hp2, <- Hd3, E3 by auto; done).
  assert (m_mapChilds (set_childs (<[s:=SetParent (Some p) pNew]> m3) (set_childs m3 d2)) !! p = Some p2) as Hp4
    by (simpl; by rewrite lookup_insert_ne).
  replace (Z.of_nat j + 1) with (Z.of_nat (S j)) by lia.
  assert (slot_count p2 = m_wNumPtrs p2) as Hsc by (unfold slot_count; by rewrite (pr_leaf _ _ _ _ _ _ Hrd2)).
  pose proof (pr_count _ _ _ _ _ _ Hrd2) as Hcnt. pose proof (pr_j _ _ _ _ _ _ Hrd2). pose proof (pr_len _ _ _ _ _ _ Hrd2).
  pose proof (ng_ptrs _ HG). destruct (InsertSlotAt_ok G HG _ p p2 (S j) (mkSlot k s 0) Hp4) as (v & Hv & Ht & Hwp).
  { rewrite (pr_slots _ _ _ _ _ _ Hrd2). lia. }
  { rewrite Hsc, (pr_leaf _ _ _ _ _ _ Hrd2). lia. }
  { rewrite Hsc. lia. }
  { intros _. simpl. split; [lia|]. split; [done|]. rewrite lookup_insert_eq. eauto. }
  rewrite Hsc in Ht. destruct (ready_view p j sep k vp p2 s v Hrd2 Hv Ht) as (Hok5 & Hv5 & Hf5).
  eapply wp_mono; [exact Hwp|]. intros r d5 [-> ->]. apply wp_ret. split; [done|]. simpl.
  assert (p ∉ v_cs (half_right (split_at (m_bLeaf n2)) None (view n2))) as HpL by (intros Hin; by apply (Hc p)).
  destruct (new_split_done HNew Hn2 Hp2 Hip HiX HpX HpL HH Hok5 Hv5 Hf5) as (m3' & Em3' & Hdone).
  rewrite E3 in Em3'. assert (m3' = m3) as -> by by injection Em3'. exact Hdone.
Qed.

(** *** The tree *)

(** The directory when the parent is ready: [m] is the tree before the split. *)
Record at_split (X over : gset Z) h γ m (i p : Z) n p1 vp j sep k d : Prop := mkAtSplit {
  as_tree : tree_ok (max_keys G) over h γ (m_pRootNode d) m;
  as_i : m_mapChilds d !! i = Some n;
  as_full : full_node i n;
  as_parent : m_pParent n = Some p;
  as_p : m !! p = Some vp;
  as_j : v_cs vp !! j = Some i;
  as_room : (length (v_ks vp) <= max_keys G)%nat;
  as_sep : keys n !! split_at (m_bLeaf n) = Some sep;
  as_p1 : m_mapChilds d !! p = Some p1;
  as_ready : p_ready p j sep k vp p1;
  as_same : forall x, x <> p -> vtree d !! x = m !! x;
  as_ok : forall x nx, x <> p -> m_mapChilds d !! x = Some nx -> node_ok G x nx;
  as_store : store_ok G X d;
  as_X : i ∈ X /\ p ∈ X;
}.

(** The directory afterwards: the sibling [s] is not marked yet, and the parent
    may have one key too many. *)
Record split_tree X (over : gset Z) h γ m (i p : Z) vp d s d' : Prop := mkSplitTree {
  st_dir : exists γ', dir_ok G ({[p]} ∪ (over ∖ {[i]})) h γ' d' /\ γ' p = γ p;
  st_store : store_ok G ({[s]} ∪ X) d';
  st_grows : grows d d';
  st_root : m_pRootNode d' = m_pRootNode d;
  st_room : (df_room (m_oFile d) <= S (df_room (m_oFile d')))%nat;
  st_holds : forall k x, holds (vtree d') k x <-> holds m k x;
  st_parent : exists np, m_mapChilds d' !! p = Some np /\ m_bLeaf np = false /\ m_pParent np = v_parent vp /\
    m_wNumKeys np = Z.of_nat (length (v_ks vp)) + 1;
  st_s : 0 <= s < INVALID_BNODE_IDX;
}.

Section AtSplit.
Context {X over : gset Z} {h : nat} {γ : Z -> ginfo} {m : gmap Z vnode} {i p : Z} {n p1 : CBPlusNode} {vp : vnode} {j : nat}
  {sep k : key} {d : CDirImage F}.
Context (HA : at_split X over h γ m i p n p1 vp j sep k d).

Lemma as_node : m !! i = Some (view n) /\ i <> p.
Proof using All.
  destruct (to_child _ _ _ _ _ _ (as_tree _ _ _ _ _ _ _ _ _ _ _ _ _ _ HA) _ _ _ _ (as_p _ _ _ _ _ _ _ _ _ _ _ _ _ _ HA)
    (as_j _ _ _ _ _ _ _ _ _ _ _ _ _ _ HA)) as (Hg & vc & Hvc & Hpc).
  assert (i <> p) as Hip.
  { intros ->. pose proof (child_lev (as_tree _ _ _ _ _ _ _ _ _ _ _ _ _ _ HA) _ _ _ _ (as_p _ _ _ _ _ _ _ _ _ _ _ _ _ _ HA)
    (as_j _ _ _ _ _ _ _ _ _ _ _ _ _ _ HA)). lia. }
  split; [|done]. rewrite <- (as_same _ _ _ _ _ _ _ _ _ _ _ _ _ _ HA) by done. apply vtree_lookup, HA.
Qed.

Lemma as_halves s :
  halves (max_keys G) (γ i) (view n) (half_left (split_at (m_bLeaf n)) s (view n))
    (half_right (split_at (m_bLeaf n)) (Some p) (view n)) p s sep.
Proof using All.
  destruct as_node as [Hi _]. pose proof (to_shape _ _ _ _ _ _ (as_tree _ _ _ _ _ _ _ _ _ _ _ _ _ _ HA) _ _ Hi) as Hsh.
  pose proof (as_full _ _ _ _ _ _ _ _ _ _ _ _ _ _ HA) as Hf. pose proof (as_sep _ _ _ _ _ _ _ _ _ _ _ _ _ _ HA) as Hsep.
  pose proof (length_keys G HG i n (fn_ok _ _ Hf)) as Hlen. rewrite (fn_keys _ _ Hf) in Hlen. pose proof max_keys_Z.
  destruct (split_at_Z (m_bLeaf n)) as (T1 & T2 & T3 & T4). pose proof (as_parent _ _ _ _ _ _ _ _ _ _ _ _ _ _ HA) as Hpar.
  unfold half_left, half_right. destruct (v_leaf (view n)) eqn:El; simpl in El; simpl v_parent; rewrite Hpar.
  - eapply (leaf_halves Hsh); simpl; try done; try lia.
  - eapply (inner_halves Hsh); simpl; try done; try lia.
Qed.

Lemma as_moved :
  NoDup (v_cs (half_right (split_at (m_bLeaf n)) None (view n))) /\
  (forall c, c ∈ v_cs (half_right (split_at (m_bLeaf n)) None (view n)) -> c <> i /\ c <> p /\ is_Some (m_mapChilds d !! c)).
Proof using All.
  destruct as_node as [Hi Hip]. pose proof (as_tree _ _ _ _ _ _ _ _ _ _ _ _ _ _ HA) as HT.
  unfold half_right. simpl. destruct (m_bLeaf n) eqn:El; [by split; [constructor|set_solver]|]. simpl.
  assert (forall c jc, ptrs n !! jc = Some c -> c <> i /\ c <> p /\ is_Some (m_mapChilds d !! c)) as Hc.
  { intros c jc Hjc. destruct (to_child _ _ _ _ _ _ HT _ _ jc c Hi Hjc) as (_ & vc & Hvc & _).
    pose proof (child_lev HT _ _ _ _ Hi Hjc).
    pose proof (child_lev HT _ _ _ _ (as_p _ _ _ _ _ _ _ _ _ _ _ _ _ _ HA) (as_j _ _ _ _ _ _ _ _ _ _ _ _ _ _ HA)).
    assert (c <> i) by (intros ->; lia). assert (c <> p) as Hcp by (intros ->; lia). split; [done|]. split; [done|].
    rewrite <- (as_same _ _ _ _ _ _ _ _ _ _ _ _ _ _ HA c Hcp) in Hvc. apply vtree_some in Hvc as (nc & -> & _). eauto. }
  split.
  - apply NoDup_alt. intros a b c Ha Hb. rewrite lookup_drop in Ha, Hb.
    pose proof (child_place HT _ _ _ _ _ Hi Ha Hb). lia.
  - intros c Hin. apply list_elem_of_lookup in Hin as [jc Hjc]. rewrite lookup_drop in Hjc. by eapply Hc.
Qed.

Lemma as_next : m_bLeaf n = true -> 0 <= m_wNextLeaf n <= INVALID_BNODE_IDX.
Proof using All.
  intros Hl. destruct as_node as [Hi Hip]. pose proof (as_tree _ _ _ _ _ _ _ _ _ _ _ _ _ _ HA) as HT.
  pose proof (to_next _ _ _ _ _ _ HT _ _ Hi Hl) as Hn. simpl in Hn. destruct (g_hi (γ i)) as [u|].
  - destruct Hn as (_ & v' & Hv' & Hl' & _). assert (m_wNextLeaf n <> p) as Hnp.
    { intros E. rewrite E in Hv'. pose proof (cs_inner HT _ _ _ _ (as_p _ _ _ _ _ _ _ _ _ _ _ _ _ _ HA) (as_j _ _ _ _ _ _ _ _ _ _ _ _ _ _ HA)).
      pose proof (as_p _ _ _ _ _ _ _ _ _ _ _ _ _ _ HA). congruence. }
    rewrite <- (as_same _ _ _ _ _ _ _ _ _ _ _ _ _ _ HA _ Hnp) in Hv'. apply vtree_some in Hv' as (nn & Hnn & _).
    pose proof (no_idx _ _ _ (as_ok _ _ _ _ _ _ _ _ _ _ _ _ _ _ HA _ _ Hnp Hnn)). lia.
  - rewrite Hn. unfold INVALID_BNODE_IDX, USHRT_MAX. lia.
Qed.
End AtSplit.

Lemma split_new_tree X over h γ m i p n p1 vp j sep k d :
  at_split X over h γ m i p n p1 vp j sep k d -> (0 < df_room (m_oFile d))%nat ->
  wp (SplitNew G (m_bLeaf n) i p (SPLIT_POS G (m_bLeaf n)) (Z.of_nat j) k) d (fun r d' => r.1 = 0 /\
    split_tree X over h γ m i p vp d r.2 d').
Proof using HG HS.
  intros HA Hroom. destruct (as_node HA) as [Hi Hip]. destruct (as_moved HA) as [Hnd Hc]. pose proof (as_next HA) as Hnext.
  pose proof HA as [HT Hin Hf Hpar Hp Hj Hmax Hsep Hp1 Hrd Hsame Hok HSt [HiX HpX]].
  eapply wp_mono; [by eapply SplitNew_ok|]. intros [ret s] d' [E [S1 S2 S3 S4 S5 S6 S7]]. simpl in *. split; [done|].
  destruct S1 as [S1 S1']. pose proof (as_halves HA s) as HV.
  assert (s <> p) by congruence. assert (m !! s = None) as Hms.
  { rewrite <- Hsame by done. unfold vtree. by rewrite lookup_fmap, S1. }
  assert (forall x, vtree d' !! x = split_view m i p s (half_left (split_at (m_bLeaf n)) s (view n))
    (half_right (split_at (m_bLeaf n)) (Some p) (view n)) (split_parent_view vp j sep s) x) as Hview.
  { intros x. rewrite S6. unfold split_view. destruct (decide (x = p)); [done|]. by rewrite Hsame. }
  assert (s <> INVALID_BNODE_IDX) as HsI by lia.
  pose proof (tree_split HT Hi Hp Hj Hms HsI Hmax HV Hview) as HT'.
  pose proof (split_at_p HT Hi Hp Hj Hms HsI Hmax HV Hview) as Hpv.
  apply vtree_some in Hpv as (np & Hnp & Enp). pose proof (S7 Hok p np Hnp) as Hokp.
  split; try done.
  - exists (split_gi γ i s sep). split; [split; [by rewrite S4|by apply S7]|].
    unfold split_gi. by rewrite !set_gi_other by congruence.
  - intros k0 x. apply (split_holds HT Hi Hp Hj Hms HsI Hmax HV Hview). intros Hl. unfold half_left, half_right. rewrite Hl.
    simpl. symmetry. apply take_drop.
  - exists np. split; [done|]. unfold split_parent_view, view in Enp. injection Enp as E1 E2 E3 E4 E5 E6.
    split; [done|]. split; [done|]. rewrite (length_keys G HG p) by done. rewrite <- E2.
    pose proof (cs_bound HT _ _ _ _ Hp Hj). rewrite length_insert_at by done. lia.
Qed.

(** *** [SplitOnce] below a parent *)

Lemma split_slot i n : full_node i n -> exists s sep, GetSlot G n (SPLIT_POS G (m_bLeaf n)) = Ret s /\ szKey s = sep /\
  keys n !! split_at (m_bLeaf n) = Some sep.
Proof using HG HS.
  intros Hf. pose proof (ng_ptrs _ HG). destruct (split_at_Z (m_bLeaf n)) as (T1 & T2 & T3 & T4).
  pose proof (no_slots _ _ _ (fn_ok _ _ Hf)) as Hsl. pose proof (no_ptrs _ _ _ (fn_ok _ _ Hf)) as Hnp. pose proof (fn_keys _ _ Hf) as Hk.
  destruct (lookup_lt_is_Some_2 (m_vecSlots n) (split_at (m_bLeaf n))) as [s Hs]; [rewrite Hsl; lia|].
  exists s, (szKey s). rewrite <- T1. split; [|split; [done|]].
  - apply GetSlot_ok; [done|]. unfold MAX_KEYS_PER_NODE. destruct (IsRoot n); [lia|]. destruct (m_bLeaf n); lia.
  - unfold keys. rewrite (full_entries i) by done. rewrite list_lookup_fmap, lookup_take_lt, Hs by lia. done.
Qed.

Lemma split_key_ok over h γ d i n sep :
  dir_ok G over h γ d -> m_mapChilds d !! i = Some n -> keys n !! split_at (m_bLeaf n) = Some sep -> key_ok sep.
Proof using HG.
  intros HD Hi Hsep. pose proof (vs_ok _ _ _ _ (view_shape G HD i n Hi)) as Hf. simpl in Hf. rewrite Forall_lookup in Hf.
  by eapply Hf.
Qed.

(** An [over] node is not the parent. *)
Lemma parent_of h γ d i n p j p0 :
  dir_ok G {[i]} h γ d -> m_mapChilds d !! i = Some n -> m_mapChilds d !! p = Some p0 -> ptrs p0 !! j = Some i ->
  i <> p /\ m_bLeaf p0 = false /\ (length (keys p0) <= max_keys G)%nat /\ g_lev (γ p) = S (g_lev (γ i)).
Proof.
  intros HD Hi Hp Hj. pose proof (do_tree _ _ _ _ _ HD) as HT. pose proof (vtree_lookup _ _ _ Hp) as Hvp.
  pose proof (child_lev HT _ _ _ _ Hvp Hj) as Hlev. assert (i <> p) as Hip by (intros ->; lia).
  split; [done|]. split; [by apply (cs_inner HT _ _ _ _ Hvp Hj)|]. split; [|done].
  pose proof (view_shape G HD p p0 Hp) as Hsh. rewrite bool_decide_false in Hsh by set_solver. apply (vs_max _ _ _ _ Hsh).
Qed.

Lemma SplitOnce_ok X h γ d i n p j p0 :
  dir_ok G {[i]} h γ d -> store_ok G X d -> m_mapChilds d !! i = Some n -> full_node i n -> m_pParent n = Some p ->
  m_mapChilds d !! p = Some p0 -> ptrs p0 !! j = Some i -> (0 < df_room (m_oFile d))%nat ->
  wp (SplitOnce G n i p (Z.of_nat j) None) d (fun r d' => r.1 = 0 /\
    split_tree ({[i; p]} ∪ X) {[i]} h γ (vtree d) i p (view p0) d r.2 d').
Proof using HG HS.
  intros HD HSt Hi Hf Hpar Hp Hj Hroom. destruct (parent_of _ _ _ _ _ _ _ _ HD Hi Hp Hj) as (Hip & Hlp & Hmax & _).
  destruct (split_slot i n Hf) as (s & sep & Hslot & Esep & Hsep). pose proof (split_key_ok _ _ _ _ _ _ _ HD Hi Hsep) as Hsk.
  pose proof (do_node _ _ _ _ _ HD p p0 Hp) as Hokp. pose proof max_keys_Z as Hmk. pose proof (length_keys G HG p p0 Hokp) as Hlk.
  pose proof (vs_ok _ _ _ _ (view_shape G HD p p0 Hp)) as Hkeys. simpl in Hkeys.
  unfold SplitOnce. apply wp_bind. eapply wp_lift; [exact Hslot|]. apply wp_bind. rewrite Esep.
  eapply wp_mono; [apply (SplitParent_ok d n p p0 j sep); try done|].
  { unfold MAX_KEYS_PER_NODE. lia. }
  { by eapply lookup_lt_Some. }
  intros r d1 (k & p1 & -> & -> & Hrd & Hfree). cbn beta iota. set (d1 := set_childs _ d).
  assert (store_ok G ({[i; p]} ∪ X) d1) as HSt1.
  { eapply store_put; [eapply store_sub; [|exact HSt]; set_solver|done| |done|left; set_solver].
    rewrite (no_this _ _ _ Hokp). apply (pr_id _ _ _ _ _ _ Hrd). }
  assert (at_split ({[i; p]} ∪ X) {[i]} h γ (vtree d) i p n p1 (view p0) j sep k d1) as HA.
  { split; try done.
    - apply (do_tree _ _ _ _ _ HD).
    - unfold d1. simpl. by rewrite lookup_insert_ne.
    - by apply vtree_lookup.
    - apply lookup_insert_eq.
    - intros x Hx. unfold vtree, d1. simpl. by rewrite !lookup_fmap, lookup_insert_ne.
    - intros x nx Hx. unfold d1. simpl. rewrite lookup_insert_ne by done. by apply (do_node _ _ _ _ _ HD).
    - set_solver. }
  eapply wp_mono; [apply (split_new_tree _ _ _ _ _ _ _ _ _ _ _ _ _ _ HA); done|].
  intros r d' [E [S1 S2 S3 S4 S5 S6 S7 S8]]. split; [done|]. split; try done. by destruct S3.
Qed.

(** *** [SplitOnce] below a new root *)

(** The old root [i] is below the new root [r] again; [p1] is the new root. *)
Record grown (r i : Z) (n1 p1 : CBPlusNode) (m1 M : gmap Z CBPlusNode) : Prop := mkGrown {
  gw_r : M !! r = Some p1;
  gw_i : M !! i = Some (SetParent (Some r) n1);
  gw_rest : forall x, x <> r -> x <> i -> M !! x = m1 !! x;
}.
(** The directory that [ReplaceRootBNode] makes of [d], with the nodes [M]. *)
Definition new_root (r : Z) (M : gmap Z CBPlusNode) d : CDirImage F :=
  set_dirty ({[u32 (-2)]} ∪ m_setDirtyNodes d) (set_childs M (set_rootidx r (set_root r d))).

Lemma ReplaceRootBNode_ok d1 i n1 r :
  m_pRootNode d1 = i -> m_mapChilds d1 !! i = Some n1 -> m_wThisBNodeIdx n1 = i -> 0 <= r < INVALID_BNODE_IDX ->
  m_mapChilds d1 !! r = None ->
  wp (ReplaceRootBNode G (SetLeaf false (NewBPlusNode G r))) d1 (fun o d' => o = SetParent None n1 /\
    d' = new_root r (delete i (<[r := SetFreeBNodeIdx (m_wFreeBNodeIdx n1) (SetLeaf false (NewBPlusNode G r))]> (m_mapChilds d1))) d1).
Proof using HG HS.
  intros Hroot Hi Hid Hr Hnr. destruct (NewBPlusNode_ok G r false Hr) as (N1 & _). assert (i <> r) as Hir by congruence.
  set (nn := SetLeaf false (NewBPlusNode G r)) in *. unfold ReplaceRootBNode, RootNode. wsteps.
  eapply wp_node; [by rewrite Hroot|]. wsteps. rewrite N1. unfold AddChildDirect. wsteps. simpl m_mapChilds. rewrite Hnr.
  change (m_wThisBNodeIdx (SetFreeBNodeIdx (m_wFreeBNodeIdx n1) nn)) with (m_wThisBNodeIdx nn). rewrite N1, Z.eqb_refl.
  wsteps. rewrite Hid. unfold RemoveChildDirect. wsteps. simpl m_mapChilds. rewrite lookup_insert_ne, Hi by done. wsteps.
  rewrite HS. unfold SetDirty. wsteps. done.
Qed.

Lemma grown_at_split X h γ d0 d1 i n0 n1 r p1 M sep :
  dir_ok G {[i]} h γ d0 -> m_pRootNode d0 = i -> m_mapChilds d0 !! i = Some n0 -> full_node i n0 ->
  new_node G X d0 false r d1 -> m_mapChilds d1 !! i = Some n1 -> i ∈ X ->
  keys n0 !! split_at (m_bLeaf n0) = Some sep ->
  grown r i n1 p1 (m_mapChilds d1) M -> p_ready r 0 sep "" (first_child i) p1 -> m_wFreeBNodeIdx p1 = m_wFreeBNodeIdx n1 ->
  at_split ({[r]} ∪ X) ({[r]} ∪ {[i]}) (S h) (set_gi γ r (mkG (S h) None None))
    (<[r := first_child i]> (<[i := reparent r (view n0)]> (vtree d0))) i r (SetParent (Some r) n1) p1 (first_child i) 0 sep ""
    (new_root r M d1).
Proof using HG HS.
  intros HD Hroot Hi Hf HNew Hi1 HiX Hsep [Mr Mi Mx] Hrd Hfree. pose proof (nn_same _ _ _ _ _ _ HNew) as Hsame.
  pose proof (nn_fresh _ _ _ _ _ _ HNew) as Hfresh. assert (i <> r) as Hir by congruence.
  pose proof (nn_store _ _ _ _ _ _ HNew) as HSt. pose proof (nn_range _ _ _ _ _ _ HNew) as Hrf.
  destruct (same_node_props _ _ _ _ Hsame Hi) as (n1' & En1 & Ev & Epar & El & _ & Eid & Hfull & _).
  rewrite Hi1 in En1. injection En1 as <-. specialize (Hfull Hf). pose proof (do_tree _ _ _ _ _ HD) as HT.
  assert (vtree d0 !! r = None) as Hvr by (unfold vtree; by rewrite lookup_fmap, Hfresh).
  assert (forall x, x <> r -> vtree (new_root r M d1) !! x = <[r := first_child i]> (<[i := reparent r (view n0)]> (vtree d0)) !! x) as Hview.
  { intros x Hxr. unfold vtree at 1, new_root. simpl. rewrite lookup_insert_ne, lookup_fmap by done. destruct (decide (x = i)) as [->|Hxi].
    - rewrite lookup_insert_eq, Mi. simpl. by rewrite reparent_view, Ev.
    - rewrite lookup_insert_ne by done. rewrite Mx by done. rewrite <- (same_nodes_view _ _ Hsame). unfold vtree. by rewrite lookup_fmap. }
  pose proof (so_root _ _ _ HSt) as [Er [rt Hrt]]. rewrite (sn_root _ _ Hsame), Hroot in Hrt.
  assert (head_of (new_root r M d1) = head_of d1) as Eh.
  { unfold head_of, new_root. simpl. rewrite Mr, (sn_root _ _ Hsame), Hroot, Hi1. done. }
  assert (forall x n', M !! x = Some n' -> x = r /\ n' = p1 \/ (exists n, m_mapChilds d1 !! x = Some n /\
    m_wThisBNodeIdx n' = m_wThisBNodeIdx n /\ image n' = image n)) as HM.
  { intros x n' Hx. destruct (decide (x = r)) as [->|Hxr]; [left; split; congruence|right].
    destruct (decide (x = i)) as [->|Hxi]; [exists n1|exists n'; by rewrite <- Mx].
    rewrite Mi in Hx. by injection Hx as <-. }
  split.
  - simpl. rewrite Hroot in HT. eapply tree_grow; [exact HT|by apply vtree_lookup|done].
  - done.
  - destruct Hfull as [[H1 H2 H3 H4 H5 HN] H6]. by split.
  - done.
  - apply lookup_insert_eq.
  - done.
  - simpl. lia.
  - change (keys (SetParent (Some r) n1)) with (v_ks (view n1)). rewrite Ev. simpl. by rewrite El.
  - done.
  - done.
  - exact Hview.
  - intros x nx Hxr Hx. change (M !! x = Some nx) in Hx. destruct (decide (x = i)) as [->|Hxi].
    + rewrite Mi in Hx. injection Hx as <-. destruct Hfull as [[H1 H2 H3 H4 H5 HN] H6]. by split.
    + rewrite Mx in Hx by done. destruct (sn_nodes _ _ Hsame x) as [E|(ny & y & E & E')].
      * rewrite E in Hx. by apply (do_node _ _ _ _ _ HD).
      * rewrite E' in Hx. injection Hx as <-. destruct (do_node _ _ _ _ _ HD x ny E). by split.
  - destruct HSt as [H1 H2 H3 H4 H5 H6 H7 H8]. split; rewrite ?Eh; simpl; try done.
    + intros x n' Hx. destruct (HM x n' Hx) as [[-> ->]|(n & Hn & Eidn & _)]; [by split; [apply (pr_id _ _ _ _ _ _ Hrd)|]|].
      destruct (H3 x n Hn) as [[? ?] ?]. split; [|done]. split; [congruence|done].
    + intros x Hx. destruct (H5 x Hx) as [E ?]. split; [|done]. destruct (M !! x) as [n'|] eqn:En; [|done].
      destruct (HM x n' En) as [[-> _]|(n & Hn & _)]; [|congruence]. exfalso. by apply (nn_free _ _ _ _ _ _ HNew).
    + intros x n' Hx. destruct (HM x n' Hx) as [[-> _]|(n & Hn & _ & E)]; [left; set_solver|].
      destruct (H6 x n Hn) as [|[|]]; [left; set_solver|right; left; set_solver|].
      right. right. by eapply on_page_image.
    + intros x f Hx. destruct (H7 x f Hx); [left; set_solver|tauto].
    + left. set_solver.
  - set_solver.
Qed.

Lemma dir_tighten over h γ d i n :
  dir_ok G over h γ d -> m_mapChilds d !! i = Some n -> m_wNumKeys n <= MAX_KEYS_PER_NODE G ->
  (m_bLeaf n = false -> 0 < m_wNumKeys n) -> dir_ok G (over ∖ {[i]}) h γ d.
Proof using HG HS.
  intros [HT Hok] Hi Hk Hne. split; [|done]. eapply tree_tighten; [done|]. intros v Hv.
  rewrite (vtree_lookup _ _ _ Hi) in Hv. injection Hv as <-. pose proof (length_keys G HG i n (Hok i n Hi)). pose proof max_keys_Z.
  unfold MAX_KEYS_PER_NODE in Hk. simpl. split; [lia|]. intros Hl. specialize (Hne Hl). intros E. rewrite E in *. simpl in *. lia.
Qed.

Lemma grown_holds (m : gmap Z vnode) r i v k x :
  m !! r = None -> m !! i = Some v ->
  holds (<[r := first_child i]> (<[i := reparent r v]> m)) k x <-> holds m k x.
Proof.
  intros Hr Hi. assert (i <> r) as Hir by congruence. split.
  - intros (y & w & s & Hy & Hl & Hs & Hk). destruct (decide (y = r)) as [->|]; [rewrite lookup_insert_eq in Hy; by injection Hy as <-|].
    rewrite lookup_insert_ne in Hy by done. destruct (decide (y = i)) as [->|].
    + rewrite lookup_insert_eq in Hy. injection Hy as <-. by exists i, v, s.
    + rewrite lookup_insert_ne in Hy by done. by exists y, w, s.
  - intros (y & w & s & Hy & Hl & Hs & Hk). assert (y <> r) by congruence. destruct (decide (y = i)) as [->|].
    + rewrite Hi in Hy. injection Hy as <-. exists i, (reparent r v), s. by rewrite lookup_insert_ne, lookup_insert_eq.
    + exists y, w, s. by rewrite !lookup_insert_ne.
Qed.

(** The tree that a new root makes of [m]. *)
Definition grown_view (r i : Z) (v : vnode) (m : gmap Z vnode) : gmap Z vnode :=
  <[r := first_child i]> (<[i := reparent r v]> m).

Lemma head_u16 X d : store_ok G X d -> u16 (head_of d) = head_of d.
Proof.
  intros HSt. pose proof (po_range _ _ _ (so_pool _ _ _ HSt)) as H. unfold free_pages in H.
  destruct (Z.eqb_spec (head_of d) INVALID_BNODE_IDX) as [->|]; [done|]. apply Forall_inv in H. by apply u16_idx.
Qed.

Lemma SplitOnce_root X h γ d0 d1 i n0 n1 n r M o :
  dir_ok G {[i]} h γ d0 -> m_pRootNode d0 = i -> m_mapChilds d0 !! i = Some n0 -> full_node i n0 ->
  new_node G X d0 false r d1 -> m_mapChilds d1 !! i = Some n1 -> i ∈ X ->
  full_node i n -> m_bLeaf n = m_bLeaf n0 -> keys n = keys n0 ->
  M !! r = Some (SetFreeBNodeIdx (m_wFreeBNodeIdx n1) (SetLeaf false (NewBPlusNode G r))) ->
  (forall x, x <> r -> x <> i -> M !! x = m_mapChilds d1 !! x) ->
  (o = None /\ M !! i = Some (SetParent (Some r) n1) \/ o = Some (SetParent None n1) /\ M !! i = None) ->
  (0 < df_room (m_oFile d1))%nat ->
  wp (SplitOnce G n i r 0 o) (new_root r M d1) (fun a d' => a.1 = 0 /\ exists d2, m_pRootNode d2 = r /\ grows d1 d2 /\
    df_room (m_oFile d2) = df_room (m_oFile d1) /\
    split_tree ({[r]} ∪ X) ({[r]} ∪ {[i]}) (S h) (set_gi γ r (mkG (S h) None None)) (grown_view r i (view n0) (vtree d0))
      i r (first_child i) d2 a.2 d').
Proof using HG HS.
  intros HD Hroot Hi Hf HNew Hi1 HiX Hfn Eln Ekn Mr Mx Ho Hroom.
  pose proof (nn_same _ _ _ _ _ _ HNew) as Hsame. pose proof (nn_fresh _ _ _ _ _ _ HNew) as Hfresh. assert (i <> r) as Hir by congruence.
  pose proof (nn_range _ _ _ _ _ _ HNew) as [Hrr _].
  destruct (same_node_props _ _ _ _ Hsame Hi) as (n1' & En1 & _ & _ & El1 & _ & Eid & _). rewrite Hi1 in En1. injection En1 as <-.
  destruct (split_slot i n Hfn) as (s & sep & Hslot & Esep & Hsep). rewrite Ekn, Eln in Hsep.
  pose proof (split_key_ok _ _ _ _ _ _ _ HD Hi Hsep) as Hsk.
  unfold SplitOnce. apply wp_bind. eapply wp_lift; [exact Hslot|]. apply wp_bind. rewrite Esep.
  eapply wp_mono; [eapply (SplitParent_root (new_root r M d1) n r _ i 0 sep o Mr); [eexists; reflexivity| |done|done|done|]|].
  { split; [apply (no_this _ _ _ (fn_ok _ _ Hfn))|apply (no_idx _ _ _ (fn_ok _ _ Hfn))]. }
  { intros c Hc. destruct Ho as [[-> _]|[-> Hni]]; [done|]. injection Hc as <-. split; [done|]. simpl.
    rewrite Eid. apply (no_this _ _ _ (fn_ok _ _ Hf)). }
  intros a d2 (p1 & -> & -> & Hrd & Hfree). cbn beta iota.
  set (M2 := match o with None => <[r := p1]> _ | Some c => _ end). simpl m_mapChilds in M2.
  assert (grown r i n1 p1 (m_mapChilds d1) M2) as Hgr.
  { unfold M2. destruct Ho as [[-> HMi]|[-> HMi]]; split.
    - apply lookup_insert_eq.
    - by rewrite lookup_insert_ne.
    - intros x Hxr Hxi. rewrite lookup_insert_ne by done. by apply Mx.
    - rewrite lookup_insert_ne by done. apply lookup_insert_eq.
    - apply lookup_insert_eq.
    - intros x Hxr Hxi. rewrite !lookup_insert_ne by done. by apply Mx. }
  assert (m_wFreeBNodeIdx p1 = m_wFreeBNodeIdx n1) as Hfree'.
  { rewrite Hfree. simpl. pose proof (head_u16 _ _ (nn_store _ _ _ _ _ _ HNew)) as Hu. unfold head_of in Hu.
    by rewrite (sn_root _ _ Hsame), Hroot, Hi1 in Hu. }
  pose proof (grown_at_split X h γ d0 d1 i n0 n1 r p1 M2 sep HD Hroot Hi Hf HNew Hi1 HiX Hsep Hgr Hrd Hfree') as HA.
  change (set_childs M2 (new_root r M d1)) with (new_root r M2 d1).
  rewrite Eln, <- El1. change (m_bLeaf n1) with (m_bLeaf (SetParent (Some r) n1)).
  change 0 with (Z.of_nat 0). eapply wp_mono; [apply (split_new_tree _ _ _ _ _ _ _ _ _ _ _ _ _ _ HA); done|].
  intros b d' [E Hst]. split; [done|]. exists (new_root r M2 d1). split; [done|]. split; [|done].
  split; try done. simpl. set_solver.
Qed.

(** *** [Split] *)

(** The end of an insertion. *)
Record split_end X (h : nat) d d' : Prop := mkSplitEnd {
  se_dir : exists h' γ', dir_ok G ∅ h' γ' d' /\ (h <= h' <= S h)%nat;
  se_store : store_ok G X d';
  se_grows : grows d d';
  se_holds : forall k x, holds (vtree d') k x <-> holds (vtree d) k x;
}.

Lemma SlotLoop_ok v this k : forall i j,
  (i + k <= length v)%nat -> (i <= j < i + k)%nat -> (dwBNodeIdx <$> v) !! j = Some this ->
  (forall j', (i <= j' < j)%nat -> (dwBNodeIdx <$> v) !! j' <> Some this) ->
  SlotLoop k v this (Z.of_nat i) = Ret (Z.of_nat j).
Proof.
  induction k as [|k IH]; intros i j Hl Hj Hv Hn; [lia|]. cbn [SlotLoop].
  destruct (lookup_lt_is_Some_2 v i) as [s Hs]; [lia|]. rewrite (rd_lookup _ _ _ Hs).
  destruct (decide (i = j)) as [->|Hij].
  - rewrite list_lookup_fmap, Hs in Hv. injection Hv as ->. by rewrite Z.eqb_refl.
  - destruct (Z.eqb_spec (dwBNodeIdx s) this) as [E|E].
    + exfalso. apply (Hn i); [lia|]. by rewrite list_lookup_fmap, Hs, <- E.
    + replace (Z.of_nat i + 1) with (Z.of_nat (S i)) by lia. apply IH; [lia|lia|done|]. intros j' Hj'. apply Hn. lia.
Qed.

Lemma GetParentSlotIdx_ok over h γ d i n p p0 j :
  dir_ok G over h γ d -> m_mapChilds d !! i = Some n -> m_pParent n = Some p -> m_mapChilds d !! p = Some p0 ->
  ptrs p0 !! j = Some i ->
  wp (GetParentSlotIdx n) d (fun r d' => d' = d /\ r = Z.of_nat j /\ (r =? UINT_MAX) = false).
Proof using HG HS.
  intros HD Hi Hpar Hp Hj. pose proof (do_node _ _ _ _ _ HD p p0 Hp) as Hok. pose proof (length_ptrs G HG p p0 Hok) as Hlp.
  pose proof (lookup_lt_Some _ _ _ Hj) as Hjl. pose proof (no_slots _ _ _ Hok) as Hsl. pose proof (no_keys _ _ _ Hok) as Hkb.
  pose proof (ng_ptrs _ HG). assert (length (ptrs p0) <= length (m_vecSlots p0))%nat as Hle.
  { unfold ptrs. rewrite length_fmap, length_take. lia. }
  assert (forall j', (j' < length (ptrs p0))%nat -> (dwBNodeIdx <$> m_vecSlots p0) !! j' = ptrs p0 !! j') as Hpt.
  { intros j' Hj'. unfold ptrs. rewrite !list_lookup_fmap, lookup_take_lt; [done|]. lia. }
  unfold GetParentSlotIdx. rewrite Hpar. wsteps. rewrite (no_this _ _ _ (do_node _ _ _ _ _ HD i n Hi)).
  eapply wp_lift.
  - rewrite Hlp, Nat2Z.id. change 0 with (Z.of_nat 0). apply (SlotLoop_ok _ _ _ _ j); [done|lia|by rewrite Hpt|].
    intros j' Hj'. rewrite Hpt by lia. intros E.
    pose proof (child_place (do_tree _ _ _ _ _ HD) _ _ _ _ _ (vtree_lookup _ _ _ Hp) E Hj). lia.
  - split; [done|]. split; [done|]. apply Z.eqb_neq. unfold UINT_MAX. lia.
Qed.

(** The parent and the sibling are marked. *)
Lemma split_mark X Y h d d' p s r :
  split_end Y h d d' -> 0 <= p < INVALID_BNODE_IDX -> 0 <= s < INVALID_BNODE_IDX ->
  (forall x, x ∈ Y -> x = p \/ x = s \/ x ∈ X \/ x ∈ m_setDirtyNodes d') ->
  wp ((if IsSafeMode G then SetDirty p;; SetDirty s else mret tt : act (F := F) unit);; (mret r : act (F := F) Z)) d' (fun a d'' => a = r /\ split_end X h d d'').
Proof using HG HS.
  intros [H1 H2 H3 H4] Hp Hs HY. rewrite HS. unfold SetDirty. wsteps. rewrite !u32_idx by done. split; [done|].
  set (d2 := set_dirty _ _). split.
  - destruct H1 as (h' & γ' & HD & Hh). exists h', γ'. split; [|done]. destruct HD as [HT Hok]. by split.
  - eapply (store_sub G Y).
    + intros x Hx. destruct (HY x Hx) as [->|[->|[|]]]; unfold d2; simpl; [right; set_solver..|by left|right; set_solver].
    + apply (store_dirty G HG HS _ (set_dirty ({[p]} ∪ m_setDirtyNodes d') d')). by apply (store_dirty G HG HS).
  - eapply dir_grows_trans; [exact H3|]. split; try done. unfold d2. simpl. set_solver.
  - exact H4.
Qed.

Lemma split_tree_end X over h γ m i p vp d0 d s d' np (h0 : nat) :
  split_tree X over h γ m i p vp d s d' -> m_mapChilds d' !! p = Some np -> m_wNumKeys np <= MAX_KEYS_PER_NODE G ->
  over ∖ {[i]} ⊆ {[p]} -> grows d0 d -> (h0 <= h <= S h0)%nat -> (forall k x, holds m k x <-> holds (vtree d0) k x) ->
  split_end ({[s]} ∪ X) h0 d0 d'.
Proof using HG HS.
  intros [S1 S2 S3 S4 S5 S6 S7 S8] Hnp Hk Ho Hg Hh Hm. destruct S1 as (γ' & HD & _). destruct S7 as (np' & Hnp' & Hl & _ & Hkeys).
  assert (np' = np) as -> by congruence. split.
  - exists h, γ'. split; [|done].
    assert (({[p]} ∪ over ∖ {[i]}) ∖ {[p]} = (∅ : gset Z)) as <- by set_solver.
    eapply dir_tighten; [done..|]. intros _. lia.
  - done.
  - by eapply dir_grows_trans.
  - intros k x. by rewrite S6, Hm.
Qed.

Lemma Split_ok : forall fuel X h γ d i n j,
  dir_ok G {[i]} h γ d -> store_ok G X d -> i ∈ X \/ i ∈ m_setDirtyNodes d -> m_mapChilds d !! i = Some n -> full_node i n ->
  (m_pParent n = None -> m_bLeaf n = false) ->
  (forall p, m_pParent n = Some p -> exists p0, m_mapChilds d !! p = Some p0 /\ ptrs p0 !! j = Some i) ->
  (h - g_lev (γ i) < fuel)%nat -> (h - g_lev (γ i) + 2 <= df_room (m_oFile d))%nat ->
  wp (Split G fuel i (Z.of_nat j)) d (fun r d' => r = 0 /\ split_end X h d d').
Proof using HG HS.
  induction fuel as [|fuel IH]; intros X h γ d i n j HD HSt HiX Hi Hf Hrl Hpar Hlev Hroom; [lia|].
  pose proof (do_tree _ _ _ _ _ HD) as HT. pose proof (ng_ptrs _ HG) as Hptrs.
  assert (store_ok G ({[i]} ∪ X) d) as HStX by (eapply store_sub; [|exact HSt]; set_solver).
  cbn [Split]. wsteps. destruct (m_pParent n) as [p|] eqn:Ep.
  - (* below a parent *)
    assert (IsRoot n = false) as -> by (unfold IsRoot; by rewrite Ep). cbn [andb]. cbn iota.
    unfold SplitRoot. rewrite Ep. wsteps. destruct (Hpar p eq_refl) as (p0 & Hp0 & Hj).
    destruct (parent_of _ _ _ _ _ _ _ _ HD Hi Hp0 Hj) as (Hip & Hlp & Hmax & Hlevp).
    eapply wp_mono; [eapply (SplitOnce_ok X h γ d i n p j p0); try done; lia|].
    intros [ret s] d1 [E Hst]. simpl in E, Hst. subst ret. wsteps.
    pose proof Hst as [(γ' & HD1 & Hγp) S2 S3 S4 S5 S6 (np & Hnp & Hnl & Hnpar & Hnk) S8].
    wsteps. pose proof (do_node _ _ _ _ _ HD1 p np Hnp) as Hokp. pose proof (no_idx _ _ _ Hokp) as Hpidx.
    assert ({[p]} ∪ {[i]} ∖ {[i]} = ({[p]} : gset Z)) as Eset by set_solver. rewrite Eset in HD1.
    assert (wp (if m_wNumKeys np =? MAX_PTRS_PER_NODE G
       then dwParentSlot ← (if IsRoot np then mret 0 else GetParentSlotIdx np);
            if dwParentSlot =? UINT_MAX then mret (- ENOENT) else Split G fuel p dwParentSlot
       else mret 0) d1 (fun r d' => r = 0 /\ split_end ({[s]} ∪ ({[i; p]} ∪ X)) h d d')) as Hup.
    { destruct (Z.eqb_spec (m_wNumKeys np) (MAX_PTRS_PER_NODE G)) as [Efull|Enf].
      - pose proof (to_lev _ _ _ _ _ _ HT _ _ (vtree_lookup _ _ _ Hp0)) as [Hlph _].
        assert (forall j', (forall q, m_pParent np = Some q -> exists q0, m_mapChilds d1 !! q = Some q0 /\ ptrs q0 !! j' = Some p) ->
          wp (Split G fuel p (Z.of_nat j')) d1 (fun r d' => r = 0 /\ split_end ({[s]} ∪ ({[i; p]} ∪ X)) h d d')) as Hrec.
        { intros j' Hj'. eapply wp_mono.
          - eapply (IH _ h γ' d1 p np j' HD1 S2); [left; set_solver|done|by split|done|done|rewrite Hγp; lia|rewrite Hγp; lia].
          - intros r d' [-> [E1 E2 E3 E4]]. split; [done|]. split; try done; [by eapply dir_grows_trans|].
            intros k x. by rewrite E4, S6. }
        apply wp_bind. unfold IsRoot. destruct (m_pParent np) as [q|] eqn:Eq.
        + destruct (node_parent (do_tree _ _ _ _ _ HD1) p (view np) q (vtree_lookup _ _ _ Hnp) Eq) as (vq & j' & Hq & Hj' & _).
          apply vtree_some in Hq as (nq & Hnq & ->). eapply wp_mono; [eapply GetParentSlotIdx_ok; done|].
          intros r d2 (-> & -> & ->). apply Hrec. intros q' [= <-]. eauto.
        + wsteps. change (0 =? UINT_MAX) with false. cbn iota. change 0 with (Z.of_nat 0) at 1. by apply Hrec.
      - apply wp_ret. split; [done|]. eapply (split_tree_end _ _ h); try done; [|set_solver|lia].
        unfold MAX_KEYS_PER_NODE. pose proof max_keys_Z. simpl in Hnk. lia. }
    eapply wp_mono; [exact Hup|]. intros r d2 [-> Hend]. wstep.
    eapply split_mark; [exact Hend|done|done|]. intros x Hx. assert (x = s \/ x = i \/ x = p \/ x ∈ X) as Hx' by set_solver.
    destruct Hx' as [->|[->|[->|]]]; [tauto| |tauto|tauto]. pose proof (gr_dirty _ _ (se_grows _ _ _ _ Hend)). set_solver.
  - (* the root *)
    assert (i = m_pRootNode d) as Eroot.
    { pose proof (to_parent _ _ _ _ _ _ HT i _ (vtree_lookup _ _ _ Hi)) as Hr. simpl in Hr. by rewrite Ep in Hr. }
    assert (IsRoot n = true) as -> by (unfold IsRoot; by rewrite Ep). rewrite (Hrl eq_refl). cbn [andb]. cbn iota.
    unfold SplitRoot. rewrite Ep. apply wp_bind. apply wp_bind.
    eapply wp_mono; [apply (GetFreeBNode_ok G HG HS _ _ false HStX); lia|].
    intros [ret nn] d1 (E & r & E' & HNew). simpl in E, E'. subst ret nn. wsteps.
    pose proof (nn_same _ _ _ _ _ _ HNew) as Hsame. destruct (same_node_props _ _ _ _ Hsame Hi) as (n1 & Hn1 & Ev & Epar & El & _ & Eid & _).
    pose proof (nn_range _ _ _ _ _ _ HNew) as [Hrr _]. pose proof (nn_fresh _ _ _ _ _ _ HNew) as Hfresh.
    assert (i <> r) as Hir by congruence. pose proof (nn_room _ _ _ _ _ _ HNew) as Hrm.
    destruct (NewBPlusNode_ok G r false Hrr) as (N1 & _). rewrite N1.
    eapply wp_mono; [apply (ReplaceRootBNode_ok d1 i n1 r); [by rewrite (sn_root _ _ Hsame)|done| |done|by eapply same_nodes_none]|].
    { rewrite Eid. apply (no_this _ _ _ (fn_ok _ _ Hf)). }
    intros o d2 [-> ->]. wsteps.
    eapply wp_mono; [eapply (SplitOnce_root ({[i]} ∪ X) h γ d d1 i n n1 n r); try done|].
    + set_solver.
    + rewrite lookup_delete_ne by done. apply lookup_insert_eq.
    + intros x Hxr Hxi. by rewrite lookup_delete_ne, lookup_insert_ne.
    + right. split; [done|]. apply lookup_delete_eq.
    + lia.
    + intros [ret s] d3 [E (d2 & Hd2r & Hg & _ & Hst)]. simpl in E, Hst. subst ret. wsteps.
      pose proof Hst as [(γ' & HD1 & Hγp) S2 S3 S4 S5 S6 (np & Hnp & Hnl & Hnpar & Hnk) S8]. wsteps.
      simpl in Hnk. rewrite Hnk. destruct (Z.eqb_spec (Z.of_nat 0 + 1) (MAX_PTRS_PER_NODE G)); [lia|]. wstep. wstep.
      eapply split_mark; [|exact Hrr|exact S8|].
      * eapply (split_tree_end _ _ (S h)); [exact Hst|exact Hnp| |set_solver| |lia|].
        -- rewrite Hnk. unfold MAX_KEYS_PER_NODE. lia.
        -- eapply dir_grows_trans; [by apply same_grows|done].
        -- intros k x. apply grown_holds; [|by apply vtree_lookup]. unfold vtree. by rewrite lookup_fmap, Hfresh.
      * intros x Hx. assert (x = s \/ x = r \/ x = i \/ x ∈ X) as Hx' by set_solver.
        destruct Hx' as [->|[->|[->|]]]; [tauto|tauto| |tauto]. destruct HiX as [|HiX]; [tauto|]. right. right. right.
        pose proof (gr_dirty _ _ (same_grows _ _ Hsame)). pose proof (gr_dirty _ _ Hg). pose proof (gr_dirty _ _ S3). set_solver.
Qed.

(** ** [Insert] *)

Record inserted X (h : nat) s d d' : Prop := mkInserted {
  in_dir : exists h' γ', dir_ok G ∅ h' γ' d' /\ (h <= h' <= S h)%nat;
  in_store : store_ok G X d';
  in_grows : grows d d';
  in_holds : forall k x, holds (vtree d') k x <-> holds (vtree d) k x \/ k = szKey s /\ x = (dwInodeIdx s, byFileType s);
}.

Lemma split_inserted X h γ i n s d d1 d2 :
  leaf_added ∅ h γ X i n s d d1 -> split_end X h d1 d2 -> inserted X h s d d2.
Proof.
  intros HL [E1 E2 E3 E4]. split; try done.
  - eapply dir_grows_trans; [by eapply la_grows|done].
  - intros k x. rewrite E4. by eapply la_holds.
Qed.

(** A full leaf that is the root. *)
Lemma insert_root_leaf X h γ d i n :
  dir_ok G {[i]} h γ d -> store_ok G X d -> i ∈ m_setDirtyNodes d -> m_mapChilds d !! i = Some n -> full_node i n ->
  m_bLeaf n = true -> m_pParent n = None -> (2 <= df_room (m_oFile d))%nat ->
  wp ('(ret, pNewRoot) ← GetFreeBNode G false;
      if ERROR ret then mret ret
      else
        pOld ← ReplaceRootBNode G pNewRoot;
        d ← ask;
        ret ← AddChildDirect (m_pRootNode d) (m_wThisBNodeIdx pOld) pOld;
        if ERROR ret then mret ret else SplitNode G i 0) d (fun r d' => r = 0 /\ split_end X h d d').
Proof using HG HS.
  intros HD HSt Hdi Hi Hf Hl Ep Hroom. pose proof (do_tree _ _ _ _ _ HD) as HT. pose proof (ng_ptrs _ HG) as Hptrs.
  assert (i = m_pRootNode d) as Eroot.
  { pose proof (to_parent _ _ _ _ _ _ HT i _ (vtree_lookup _ _ _ Hi)) as Hr. simpl in Hr. by rewrite Ep in Hr. }
  assert (store_ok G ({[i]} ∪ X) d) as HStX by (eapply store_sub; [|exact HSt]; set_solver).
  apply wp_bind. eapply wp_mono; [apply (GetFreeBNode_ok G HG HS _ _ false HStX); lia|].
  intros [ret nn] d1 (E & r & E' & HNew). simpl in E, E'. subst ret nn. wsteps.
  pose proof (nn_same _ _ _ _ _ _ HNew) as Hsame. destruct (same_node_props _ _ _ _ Hsame Hi) as (n1 & Hn1 & Ev & Epar & El & _ & Eid & Hfull & _).
  pose proof (nn_range _ _ _ _ _ _ HNew) as [Hrr _]. pose proof (nn_fresh _ _ _ _ _ _ HNew) as Hfresh.
  assert (i <> r) as Hir by congruence. pose proof (nn_room _ _ _ _ _ _ HNew) as Hrm.
  pose proof (no_this _ _ _ (fn_ok _ _ Hf)) as Hid. rewrite <- Eid in Hid.
  eapply wp_mono; [apply (ReplaceRootBNode_ok d1 i n1 r); [by rewrite (sn_root _ _ Hsame)|done|done|done|by eapply same_nodes_none]|].
  intros o d2 [-> ->]. wsteps. simpl m_pRootNode. change (m_wThisBNodeIdx (SetParent None n1)) with (m_wThisBNodeIdx n1). rewrite Hid.
  eapply wp_mono; [eapply AddChildDirect_ok; [simpl; apply lookup_delete_eq|simpl; congruence]|].
  intros z d2 [-> ->]. wsteps. unfold SplitNode. wsteps.
  set (M := <[i := SetParent (Some r) (SetParent None n1)]> _).
  change (set_childs M _) with (new_root r M d1). cbn [Split]. wsteps.
  eapply wp_node; [simpl; unfold M; apply lookup_insert_eq|]. set (n3 := SetParent (Some r) (SetParent None n1)) in *.
  change (IsRoot n3) with false. cbn [andb]. cbn iota. unfold SplitRoot. change (m_pParent n3) with (Some r). wsteps.
  eapply wp_mono; [eapply (SplitOnce_root ({[i]} ∪ X) h γ d d1 i n n1 n3 r M None); try done|].
  - set_solver.
  - destruct (Hfull Hf) as [[F1 F2 F3 F4 F5] F6]. by split.
  - change (keys n3) with (v_ks (view n1)). by rewrite Ev.
  - unfold M. simpl. rewrite lookup_insert_ne, lookup_delete_ne by done. apply lookup_insert_eq.
  - intros x Hxr Hxi. unfold M. simpl. by rewrite lookup_insert_ne, lookup_delete_ne, lookup_insert_ne.
  - left. split; [done|]. unfold M. by rewrite lookup_insert_eq.
  - lia.
  - intros [ret s] d3 [E (d2 & Hd2r & Hg & _ & Hst)]. simpl in E, Hst. subst ret. wsteps.
    pose proof Hst as [(γ' & HD1 & Hγp) S2 S3 S4 S5 S6 (np & Hnp & Hnl & Hnpar & Hnk) S8]. wsteps.
    simpl in Hnk. rewrite Hnk. destruct (Z.eqb_spec (Z.of_nat 0 + 1) (MAX_PTRS_PER_NODE G)); [lia|]. wstep. wstep.
    eapply split_mark; [|exact Hrr|exact S8|].
    + eapply (split_tree_end _ _ (S h)); [exact Hst|exact Hnp| |set_solver| |lia|].
      * rewrite Hnk. unfold MAX_KEYS_PER_NODE. lia.
      * eapply dir_grows_trans; [by apply same_grows|done].
      * intros k x. apply grown_holds; [|by apply vtree_lookup]. unfold vtree. by rewrite lookup_fmap, Hfresh.
    + intros x Hx. assert (x = s \/ x = r \/ x = i \/ x ∈ X) as Hx' by set_solver.
      destruct Hx' as [->|[->|[->|]]]; [tauto|tauto| |tauto]. right. right. right.
      pose proof (gr_dirty _ _ (same_grows _ _ Hsame)). pose proof (gr_dirty _ _ Hg). pose proof (gr_dirty _ _ S3). set_solver.
Qed.

Lemma Insert_ok X h γ d i n s :
  dir_ok G ∅ h γ d -> store_ok G X d -> m_mapChilds d !! i = Some n -> m_bLeaf n = true ->
  in_range (γ i) (szKey s) -> key_ok (szKey s) -> szKey s ∉ keys n -> (h + 2 <= df_room (m_oFile d))%nat ->
  wp (Insert G i s) d (fun r d' => r = 0 /\ inserted X h s d d').
Proof using HG HS.
  intros HD HSt Hi Hl Hr Hok Hnew Hroom. pose proof (ng_ptrs _ HG) as Hptrs.
  assert (m_wNumKeys n <= MAX_KEYS_PER_NODE G) as Hk.
  { pose proof (vs_max _ _ _ _ (view_shape G HD i n Hi)) as Hm. rewrite bool_decide_false in Hm by set_solver. simpl in Hm.
    rewrite (length_keys G HG i n (do_node _ _ _ _ _ HD i n Hi)). pose proof max_keys_Z. unfold MAX_KEYS_PER_NODE. lia. }
  pose proof (InsertOnly_ok X ∅ h γ d i n s HD HSt Hi Hl Hk Hr Hok Hnew) as Hins.
  assert (forall d1, leaf_added ∅ h γ X i n s d d1 -> dir_ok G {[i]} h γ d1 /\ store_ok G X d1 /\ i ∈ m_setDirtyNodes d1 /\
    exists n', m_mapChilds d1 !! i = Some n' /\ m_wNumKeys n' = m_wNumKeys n + 1 /\ m_bLeaf n' = true /\ m_pParent n' = m_pParent n /\
    df_room (m_oFile d1) = df_room (m_oFile d)) as Hafter.
  { intros d1 HL. pose proof (la_dir _ _ _ _ _ _ _ _ _ HL) as HD1. rewrite union_empty_r_L in HD1.
    destruct (la_node _ _ _ _ _ _ _ _ _ HL) as (n' & E & E1 & E2 & E3). split; [done|]. split; [by eapply la_store|].
    split; [by eapply la_dirty|]. exists n'. rewrite E. split; [apply lookup_insert_eq|]. split; [done|]. split; [done|]. split; [done|].
    by rewrite (la_file _ _ _ _ _ _ _ _ _ HL). }
  unfold Insert. wsteps. unfold tree_fuel. cbn [InsertLoop]. wsteps. rewrite Hl. cbn [negb].
  destruct (Z.eqb_spec (m_wNumKeys n) (MAX_KEYS_PER_NODE G)) as [Efull|Enf]; cbn [negb].
  - assert (forall d1 n', leaf_added ∅ h γ X i n s d d1 -> m_mapChilds d1 !! i = Some n' -> m_wNumKeys n' = m_wNumKeys n + 1 ->
      full_node i n') as Hfull.
    { intros d1 n' HL Hn' Hk'. split; [by eapply (do_node _ _ _ _ _ (la_dir _ _ _ _ _ _ _ _ _ HL))|].
      rewrite Hk', Efull. unfold MAX_KEYS_PER_NODE. lia. }
    unfold IsRoot. destruct (m_pParent n) as [p|] eqn:Ep.
    + apply wp_bind. eapply wp_mono; [exact Hins|]. intros r d1 [-> HL]. change (ERROR 0) with false. cbn iota.
      destruct (Hafter d1 HL) as (HD1 & HSt1 & Hdi & n' & Hn' & Hk' & Hl' & Hp' & Hrm). wsteps. rewrite ?Hp' in *.
      destruct (node_parent (do_tree _ _ _ _ _ HD1) i (view n') p (vtree_lookup _ _ _ Hn') Hp') as (vp & j & Hp & Hj & _).
      apply vtree_some in Hp as (np & Hnp & ->).
      eapply wp_mono; [eapply GetParentSlotIdx_ok; done|]. intros r d2 (-> & -> & ->).
      unfold SplitNode. wsteps. eapply wp_mono; [eapply (Split_ok _ X h γ d1 i n' j HD1 HSt1); [by right|done|by eapply Hfull|congruence| | |]|].
      * intros q Hq. assert (q = p) as -> by congruence. eauto.
      * pose proof (height_bound (do_tree _ _ _ _ _ HD1)) as Hh. rewrite size_vtree in Hh. unfold tree_fuel. lia.
      * lia.
      * intros r d2 [-> Hend]. split; [done|]. by eapply split_inserted.
    + apply wp_bind. eapply wp_mono; [exact Hins|]. intros r d1 [-> HL]. change (ERROR 0) with false. cbn iota.
      destruct (Hafter d1 HL) as (HD1 & HSt1 & Hdi & n' & Hn' & Hk' & Hl' & Hp' & Hrm).
      eapply wp_mono; [eapply (insert_root_leaf X h γ d1 i n'); try done; [by eapply Hfull|lia]|].
      intros r d2 [-> Hend]. split; [done|]. by eapply split_inserted.
  - eapply wp_mono; [exact Hins|]. intros r d1 [-> HL]. split; [done|].
    destruct (Hafter d1 HL) as (HD1 & HSt1 & Hdi & n' & Hn' & Hk' & Hl' & Hp' & Hrm). split.
    + exists h, γ. split; [|lia]. assert ({[i]} ∖ {[i]} = (∅ : gset Z)) as <- by set_solver.
      eapply dir_tighten; [done..|lia|congruence].
    + done.
    + by eapply la_grows.
    + by eapply la_holds.
Qed.
End Create.
