(* ===== verification/DirCalls.v ===== *)
(** * The calls of a directory

    The commit writes what is marked ([CommitDirtyNodes_ok]); [CreateFile],
    [Search] and [ListDir] do to a directory what they say to a finite map from
    names to inodes ([dir_state]); a new directory is the empty map.  A file in
    memory shows that the assumptions on files can be met. *)

From Stdlib Require Import ZArith Lia Sorted.
From stdpp Require Import strings sorting.
From S2P Require Import TaskGroup BlkCache Prelude Buffer BlkBitmap DirTree DirWf DirSplit DirInsert DirCreate.
Local Open Scope Z_scope.

Section Calls.
Context (G : geometry) (HG : node_geom G) (HS : IsSafeMode G = true).
Context {F : Type} {HF : DirFile F} {HFok : DirFileOk G F}.
Implicit Types d : CDirImage F.

(** ** The commit

    What is marked is written: the disk is what memory is. *)

Lemma pool_pages_nodup h v : chain G h v -> NoDup (h :: pool_entries v) -> NoDup (map fst v).
Proof using HG HS.
  revert h. induction v as [|[j f] v IH]; intros h; [constructor|]. destruct (decide (v = [])) as [->|Hv].
  - intros _ _. apply NoDup_singleton.
  - rewrite chain_cons by done. intros (-> & _ & _ & _ & x & Hx & Hch) Hnd. apply NoDup_cons in Hnd as [Hh Hnd].
    unfold pool_entries in Hnd, Hh. simpl in Hnd, Hh. apply NoDup_app in Hnd as (N1 & N2 & N3).
    apply last_Some_elem_of in Hx. constructor; simpl.
    + intros Hin. pose proof (chain_in _ _ _ _ Hch Hin) as Hin'. apply Hh. apply elem_of_app.
      apply elem_of_cons in Hin' as [->|]; [by left|by right].
    + apply (IH x Hch). constructor; [|done]. intros Hin. by apply (N2 x).
Qed.

Lemma pool_unique X d i f g : store_ok G X d -> (i, f) ∈ m_vecFreeBNodes d -> (i, g) ∈ m_vecFreeBNodes d -> f = g.
Proof using HG HS.
  intros HSt Hf Hg. destruct (so_pool _ _ _ HSt) as [P1 P2 P3]. unfold free_pages in P2.
  destruct (head_of d =? INVALID_BNODE_IDX); [rewrite P1 in Hf; by apply not_elem_of_nil in Hf|].
  pose proof (pool_pages_nodup _ _ P1 P2) as Hnd. apply list_elem_of_lookup in Hf as [a Ha]. apply list_elem_of_lookup in Hg as [b Hb].
  assert (a = b) as ->.
  { eapply NoDup_lookup; [exact Hnd|rewrite list_lookup_fmap, Ha; done|by rewrite list_lookup_fmap, Hb]. }
  congruence.
Qed.

Lemma chain_count h v i f : chain G h v -> (i, f) ∈ v -> m_wBNCount f <= GetMaxCount G.
Proof.
  revert h. induction v as [|[j e] v IH]; intros h; [done|]. destruct (decide (v = [])) as [->|Hv].
  - simpl. intros (_ & Hc & _) Hin. apply list_elem_of_singleton in Hin. by injection Hin as -> ->.
  - rewrite chain_cons by done. intros (_ & Hc & _ & _ & x & _ & Hch) Hin. apply elem_of_cons in Hin as [E|Hin]; [|by eapply IH].
    by injection E as -> ->.
Qed.

(** The same directory on another file. *)
Record on_file d d' : Prop := mkOnFile {
  of_eq : exists f s, d' = set_dirty s (set_file f d);
  of_room : (df_room (m_oFile d) <= df_room (m_oFile d'))%nat;
}.

Lemma write_page X d i l s :
  store_ok G X (set_dirty ({[i]} ∪ s) d) -> in_file G (m_oFile d) i -> Z.of_nat (length l) = BNODE_SIZE G ->
  (forall n, m_mapChilds d !! i = Some n -> l = hton G n) -> (forall f, (i, f) ∈ m_vecFreeBNodes d -> l = hton_free G f) ->
  i <> u32 (-2) ->
  wp (let '(o, ret) := df_write (BNODE_IDX_TO_POS G i) l (m_oFile d) in run (set_file o);; mret ret) d
    (fun r d' => store_ok G X (set_dirty s d') /\ on_file d d' /\ ERROR r = false).
Proof using HG HS.
  intros HSt [Hi Hsz] Hl Hn Hf Hi2. rewrite pos_page by done. destruct (df_write _ _ _) as [o ret] eqn:Ew. wsteps.
  pose proof (so_inv _ _ _ HSt) as Hinv. simpl in Hinv.
  destruct (store_write G HG X _ i l o ret HSt) as (S1 & S2 & S3 & S4 & S5 & S6); try done; simpl in *; try lia.
  { intros; set_solver. }
  destruct (df_write_ok _ i l Hinv ltac:(lia) ltac:(lia) ltac:(auto) Hl) as (W1 & W2 & W3 & W4 & W5 & W6). rewrite Ew in *. simpl in *.
  split; [|split; [|done]].
  - destruct S1 as [H1 H2 H3 H4 H5 H6 H7 H8]. split; simpl in *; try done.
    + intros x n Hx. destruct (H6 x n Hx) as [?|[Hin|?]]; [by left| |tauto].
      apply elem_of_union in Hin as [->%elem_of_singleton|]; [|tauto]. right. right. rewrite S4, (Hn n Hx). apply on_page_hton.
    + intros x f Hx. destruct (H7 x f Hx) as [Hin|?]; [|tauto]. apply elem_of_union in Hin as [->%elem_of_singleton|]; [|tauto].
      right. rewrite S4. by apply Hf.
    + destruct H8 as [Hin|]; [|tauto]. apply elem_of_union in Hin as [E%elem_of_singleton|]; [|tauto]. congruence.
  - split; [exists o, (m_setDirtyNodes d); by destruct d|]. simpl. destruct (Z.ltb_spec (i * BNODE_SIZE G) (df_size (m_oFile d))); lia.
Qed.

(** One page. *)
Lemma CommitOne_ok h γ d i ret s :
  dir_ok G ∅ h γ d -> store_ok G ∅ (set_dirty ({[i]} ∪ s) d) ->
  wp (CommitOne G i ret) d (fun r d' => store_ok G ∅ (set_dirty s d') /\ on_file d d').
Proof using HG HS.
  intros HD HSt. pose proof (so_inv _ _ _ HSt) as Hinv. simpl in Hinv.
  assert (forall x, 0 <= x < INVALID_BNODE_IDX -> x <> u32 (-2)) as Hneg.
  { intros x Hx. change (u32 (-2)) with 4294967294. unfold INVALID_BNODE_IDX, USHRT_MAX in Hx. lia. }
  unfold CommitOne. destruct (Z.eqb_spec i (u32 (-2))) as [->|Hi2].
  - (* the inode *)
    assert (forall v d1, wp (FlushPages G v) d1 (fun _ d2 => exists t, d2 = set_dirty t d1)) as Hpages.
    { induction v as [|[x f] v IH]; intros d1; cbn [FlushPages].
      - wsteps. exists (m_setDirtyNodes d1). by destruct d1.
      - destruct (_ <? _); [wsteps; exists (m_setDirtyNodes d1); by destruct d1|]. unfold SetDirty. wsteps.
        eapply wp_mono; [apply IH|]. intros [] d2 [t ->]. by exists t. }
    pose proof (df_flush_ok _ (m_dwRootBNode d) Hinv) as HF1. unfold FlushInode. wsteps.
    destruct (df_flush_inode _ _) as [f e] eqn:Ef. simpl in HF1. destruct HF1 as (F1 & F2 & F3 & F4 & F5 & F6). wsteps.
    rewrite F2. destruct (so_root _ _ _ HSt) as [_ [rn Hrn]]. simpl in Hrn. unfold PoolFlush, GetHeadFreeBNode, RootNode. wsteps.
    assert (forall t, store_ok G ∅ (set_dirty s (set_dirty t (set_file f d))) /\ on_file d (set_dirty t (set_file f d))) as Hdone.
    { intros t. split; [|split; [by exists f, t|simpl; lia]]. destruct HSt as [H1 H2 H3 H4 H5 H6 H7 H8].
      assert (forall x, in_file G (m_oFile d) x -> in_file G f x) as Hin by (intros x; apply in_file_mono; lia).
      split; simpl in *; try done.
      - intros x n Hx. destruct (H3 x n Hx). auto.
      - intros x Hx. destruct (H5 x Hx). auto.
      - intros x n Hx. destruct (H3 x n Hx) as [[_ Hr] _]. rewrite F6. destruct (H6 x n Hx) as [|[Hd|]]; [tauto| |tauto].
        apply elem_of_union in Hd as [E%elem_of_singleton|]; [|tauto]. by apply Hneg in Hr.
      - intros x e' Hx. rewrite F6. destruct (H7 x e' Hx) as [Hd|]; [|tauto].
        apply elem_of_union in Hd as [E%elem_of_singleton|]; [|tauto]. exfalso.
        assert (x ∈ free_pages (head_of d) (m_vecFreeBNodes d)) as Hxf by (eapply pool_in; [exact H4|]; apply list_elem_of_fmap; by exists (x, e')).
        destruct (H5 x Hxf) as [_ [Hr _]]. by apply Hneg in Hr.
      - right. by rewrite F3. }
    assert (forall d1, (exists t, d1 = set_dirty t (set_file f d)) -> store_ok G ∅ (set_dirty s d1) /\ on_file d d1) as Hdone'
      by (intros d1 [t ->]; apply Hdone).
    destruct (Z.eqb _ _).
    + wsteps. apply Hdone'. exists (m_setDirtyNodes d). by destruct d.
    + wsteps. eapply wp_mono; [apply Hpages|]. intros [] d2 [t ->]. wsteps. apply Hdone.
  - wsteps. destruct (m_mapChilds d !! i) as [n|] eqn:En.
    + unfold WriteNode. wsteps. pose proof (do_node _ _ _ _ _ HD i n En) as Hok. rewrite (no_this _ _ _ Hok).
      destruct (so_node _ _ _ HSt i n En) as [_ Hin]. simpl in Hin.
      pose proof (vs_max _ _ _ _ (view_shape G HD i n En)) as Hm. rewrite bool_decide_false in Hm by set_solver. simpl in Hm.
      eapply wp_mono; [eapply (write_page ∅ d i (hton G n) s HSt Hin); [| | |by apply Hneg, (no_idx _ _ _ Hok)]|].
      * apply length_hton; [done|]. apply (slots_used_bound G HG i); [done|]. right.
        rewrite (length_keys G HG i) by done. pose proof (max_keys_Z G HG). unfold MAX_KEYS_PER_NODE. lia.
      * intros n' Hn'. congruence.
      * intros f Hf. exfalso. assert (i ∈ free_pages (head_of d) (m_vecFreeBNodes d)) as Hif
          by (eapply pool_in; [exact (so_pool _ _ _ HSt)|]; apply list_elem_of_fmap; by exists (i, f)).
        destruct (so_free _ _ _ HSt i Hif) as [E _]. simpl in E. congruence.
      * intros r d' (? & ? & ?). done.
    + assert (forall v, (forall x f, (x, f) ∈ v -> (x, f) ∈ m_vecFreeBNodes d) -> (forall f, (i, f) ∈ m_vecFreeBNodes d -> (i, f) ∈ v) ->
        wp (FlushSingle G v i) d (fun r d' => store_ok G ∅ (set_dirty s d') /\ on_file d d')) as Hsingle; [|by apply Hsingle].
      induction v as [|[x f] v IH]; intros Hv Hv'; cbn [FlushSingle].
      * wsteps. split; [|split; [exists (m_oFile d), (m_setDirtyNodes d); by destruct d|lia]].
        destruct HSt as [H1 H2 H3 H4 H5 H6 H7 H8]. split; simpl in *; try done.
        -- intros x n Hx. destruct (H6 x n Hx) as [|[Hd|]]; [tauto| |tauto].
           apply elem_of_union in Hd as [E%elem_of_singleton|]; [|tauto]. congruence.
        -- intros x f Hx. destruct (H7 x f Hx) as [Hd|]; [|tauto]. apply elem_of_union in Hd as [->%elem_of_singleton|]; [|tauto].
           exfalso. apply Hv' in Hx. by apply not_elem_of_nil in Hx.
        -- destruct H8 as [Hd|]; [|tauto]. apply elem_of_union in Hd as [E%elem_of_singleton|]; [congruence|tauto].
      * destruct (Z.eqb_spec x i) as [->|Hxi].
        -- assert ((i, f) ∈ m_vecFreeBNodes d) as Hin by (apply Hv; by left).
           assert (i ∈ free_pages (head_of d) (m_vecFreeBNodes d)) as Hif
             by (eapply pool_in; [exact (so_pool _ _ _ HSt)|]; apply list_elem_of_fmap; by exists (i, f)).
           destruct (so_free _ _ _ HSt i Hif) as [_ Hinf]. simpl in Hinf.
           assert (m_wBNCount f <= GetMaxCount G) as Hc.
           { destruct (so_pool _ _ _ HSt) as [P1 _ _]. simpl in P1.
             destruct (Z.eqb_spec (head_of (set_dirty ({[i]} ∪ s) d)) INVALID_BNODE_IDX); [|by eapply chain_count].
             rewrite P1 in Hin. by apply not_elem_of_nil in Hin. }
           unfold WriteFree. destruct (Z.ltb_spec (GetMaxCount G) (m_wBNCount f)); [lia|]. wsteps.
           eapply wp_mono; [eapply (write_page ∅ d i (hton_free G f) s HSt Hinf); [by apply length_hton_free| | |by apply Hneg, Hinf]|].
           ++ congruence.
           ++ intros g Hg. by rewrite (pool_unique _ _ i f g HSt).
           ++ intros r d' (? & ? & ?). done.
        -- apply IH; [intros; apply Hv; by right|]. intros g Hg. apply Hv' in Hg. apply elem_of_cons in Hg as [E|]; [|done].
           by injection E as <- <-.
Qed.

Lemma dir_on_file over h γ d d' : on_file d d' -> dir_ok G over h γ d -> dir_ok G over h γ d'.
Proof. intros [(f & s & ->) _] [HT Hok]. by split. Qed.
Lemma on_file_trans d1 d2 d3 : on_file d1 d2 -> on_file d2 d3 -> on_file d1 d3.
Proof. intros [(f & s & ->) H1] [(f' & s' & ->) H2]. split; [by exists f', s'|simpl in *; lia]. Qed.

Lemma CommitLoop_ok h γ l : forall ret d, dir_ok G ∅ h γ d -> store_ok G ∅ (set_dirty (list_to_set l) d) ->
  wp (CommitLoop G l ret) d (fun _ d' => store_ok G ∅ (set_dirty ∅ d') /\ on_file d d').
Proof using HG HS.
  induction l as [|i l IH]; intros ret d HD HSt; cbn [CommitLoop].
  - wsteps. split; [done|]. split; [|lia]. exists (m_oFile d), (m_setDirtyNodes d). by destruct d.
  - apply wp_bind. eapply wp_mono; [apply (CommitOne_ok h γ d i ret (list_to_set l) HD HSt)|].
    intros r d1 [HSt1 Hf]. eapply wp_mono; [apply (IH r d1); [by eapply dir_on_file|done]|].
    intros r' d2 [HSt2 Hf2]. split; [done|]. by eapply on_file_trans.
Qed.

Lemma CommitDirtyNodes_ok h γ d : dir_ok G ∅ h γ d -> store_ok G ∅ d ->
  wp (CommitDirtyNodes G) d (fun _ d' => store_ok G ∅ d' /\ on_file d d' /\ m_setDirtyNodes d' = ∅).
Proof using HG HS.
  intros HD HSt. unfold CommitDirtyNodes. rewrite HS. cbn [negb]. wsteps.
  assert (list_to_set (merge_sort Z.le (elements (m_setDirtyNodes d))) = m_setDirtyNodes d) as El.
  { apply set_eq. intros x. by rewrite elem_of_list_to_set, merge_sort_Permutation, elem_of_elements. }
  eapply wp_mono; [apply (CommitLoop_ok h γ)|]; [done|rewrite El; by destruct d|].
  intros r d' [H1 [(f & s & ->) H2]]. wsteps. split; [exact H1|]. split; [|done]. split; [by exists f, ∅|exact H2].
Qed.

(** ** What a directory is *)

(** The directory holds the files of [M], in memory and, once it is committed, on
    the disk. *)
Record dir_state d (M : gmap key (Z * Z)) : Prop := mkDirState {
  ds_tree : exists h γ, dir_ok G ∅ h γ d;
  ds_store : store_ok G ∅ d;
  ds_holds : forall k x, M !! k = Some x <-> holds (vtree d) k x;
}.

Lemma dir_state_files d M fs : dir_state d M -> dir_state (set_files fs d) M.
Proof.
  intros [(h & γ & [HT Hok]) [H1 H2 H3 H4 H5 H6 H7 H8] Hh]. split; [|by split|done]. exists h, γ. by split.
Qed.
Lemma dir_state_file d M d' : dir_state d M -> store_ok G ∅ d' -> on_file d d' -> dir_state d' M.
Proof.
  intros [(h & γ & HD) HSt Hh] HSt' Hf. split; [exists h, γ; by eapply dir_on_file|done|].
  destruct Hf as [(f & s & ->) _]. done.
Qed.

Lemma store_create X d t : store_ok G X d -> let f := (df_create t (m_oFile d)).1.1 in
  store_ok G X (set_file f d) /\ (df_room (m_oFile d) <= S (df_room f))%nat.
Proof using HG HS.
  intros [H1 H2 H3 H4 H5 H6 H7 H8] f. destruct (df_create_ok _ t H1) as (C1 & C2 & C3 & C4 & C5 & _). fold f in C1, C2, C3, C4, C5.
  split; [|done]. assert (forall x, in_file G (m_oFile d) x -> in_file G f x) as Hin by (intros x; apply in_file_mono; lia).
  split; simpl; try done.
  - intros x n Hx. destruct (H3 x n Hx). auto.
  - intros x Hx. destruct (H5 x Hx). auto.
  - intros x n Hx. rewrite C5. auto.
  - intros x e Hx. rewrite C5. auto.
  - by rewrite C2.
Qed.
Lemma dir_state_create d M t : dir_state d M -> dir_state (set_file (df_create t (m_oFile d)).1.1 d) M.
Proof using HG HS.
  intros [(h & γ & [HT Hok]) HSt Hh]. split; [exists h, γ; by split|by apply store_create|done].
Qed.

(** The name is there already. *)
Lemma InsertOnly_exists over h γ d i n s :
  dir_ok G over h γ d -> m_mapChilds d !! i = Some n -> key_ok (szKey s) -> szKey s ∈ keys n ->
  wp (InsertOnly G i s) d (fun r d' => r = - EEXIST /\ d' = d).
Proof using HG HS.
  intros HD Hi Hok Hin. pose proof (do_node _ _ _ _ _ HD i n Hi) as Hno. pose proof (length_keys G HG i n Hno) as Hlen.
  apply list_elem_of_lookup in Hin as [x Hx]. pose proof (lookup_lt_Some _ _ _ Hx).
  unfold InsertOnly. wsteps. destruct (Z.eqb_spec (m_wNumKeys n) 0) as [E0|E0]; [lia|].
  destruct (node_search G HG HD i n (szKey s) Hi E0) as (r & Hs & Hres). rewrite (proj1 Hok) in Hres.
  destruct Hres as [(y & -> & Hy)|(p & Hneg & Hp & (_ & P1 & P2))].
  - apply wp_bind. eapply wp_lift; [exact Hs|]. destruct (Z.leb_spec 0 (Z.of_nat y)); [|lia]. wsteps.
    change (SUCCEEDED (- EEXIST)) with false. cbn iota. by wsteps.
  - exfalso. apply (klt_irrefl (szKey s)). destruct (decide (x < p)%nat); [by eapply P1|eapply P2; [done|lia]].
Qed.

Lemma Insert_exists h γ d i n s :
  dir_ok G ∅ h γ d -> m_mapChilds d !! i = Some n -> m_bLeaf n = true -> key_ok (szKey s) -> szKey s ∈ keys n ->
  wp (Insert G i s) d (fun r d' => r = - EEXIST /\ d' = d).
Proof using HG HS.
  intros HD Hi Hl Hok Hin. pose proof (InsertOnly_exists _ _ _ _ _ _ _ HD Hi Hok Hin) as Hex.
  unfold Insert. wsteps. unfold tree_fuel. cbn [InsertLoop]. wsteps. rewrite Hl. cbn [negb].
  destruct (m_wNumKeys n =? MAX_KEYS_PER_NODE G); cbn [negb]; [|exact Hex].
  destruct (IsRoot n); apply wp_bind; (eapply wp_mono; [exact Hex|]); intros r d' [-> ->];
    change (ERROR (- EEXIST)) with true; cbn iota; by wsteps.
Qed.

(** ** The calls *)

Lemma locked_ok d (k : act (F := F) Z) (R : Z -> CDirImage F -> Prop) (P : Z -> gmap key (Z * Z)) :
  m_dwDirState d <> stateStopped ->
  wp k d (fun r d' => dir_state d' (P r) /\ R r d') ->
  (forall r d1 d2, R r d1 -> on_file d1 d2 -> R r d2) ->
  wp (dir_write_lock G k) d (fun r d' => dir_state d' (P r) /\ R r d' /\ m_setDirtyNodes d' = ∅).
Proof using HG HS.
  intros Hst Hk HR. unfold dir_write_lock. wsteps.
  assert (wp (match m_dwDirState d with stateStopped => mret ERROR_STATE | _ => k end) d
    (fun r d' => dir_state d' (P r) /\ R r d')) as Hk' by (by destruct (m_dwDirState d)).
  eapply wp_mono; [exact Hk'|]. intros r d1 [HD Hr]. wsteps. destruct (ds_tree _ _ HD) as (h & γ & HDt).
  eapply wp_mono; [eapply (CommitDirtyNodes_ok h γ d1 HDt); apply HD|]. intros z d2 (HSt2 & Hof & Hc). wsteps.
  split; [by eapply dir_state_file|]. split; [by eapply HR|done].
Qed.

Lemma AddName_ok h γ d M c n name i t img :
  dir_ok G ∅ h γ d -> dir_state d M -> m_mapChilds d !! c = Some n -> m_bLeaf n = true -> in_range (γ c) (trunc_key name) ->
  name <> ""%string -> c_string name -> M !! trunc_key name = None -> m_mapFiles d !! i = None ->
  (tree_fuel d <= df_room (m_oFile d))%nat ->
  wp (AddName G (Some c) name i t img) d (fun r d' => r = 0 /\ dir_state d' (<[trunc_key name := (i, t)]> M) /\
    m_mapFiles d' = <[i := img]> (m_mapFiles d) /\ m_dwDirState d' = m_dwDirState d).
Proof using HG HS.
  intros HD [_ HSt Hh] Hc Hl Hr Hne Hcs HM Hi Hroom. pose proof (trunc_ok name Hne Hcs) as Hok.
  pose proof (height_bound (do_tree _ _ _ _ _ HD)) as Hhb. rewrite size_vtree in Hhb. unfold tree_fuel in Hroom.
  assert (forall x, ~ holds (vtree d) (trunc_key name) x) as Hno by (intros x Hx; apply Hh in Hx; congruence).
  assert (trunc_key name ∉ keys n) as Hnk.
  { intros Hin. apply list_elem_of_lookup in Hin as [x Hx]. destruct (key_entry G HG HD c n x _ Hc Hx) as (s & Hs & Ek & _).
    apply (Hno (dwInodeIdx s, byFileType s)). apply (leaf_lookup G HD (trunc_key name) c n); [done..|]. by exists s. }
  unfold AddName. apply wp_bind. eapply wp_mono; [apply (Insert_ok G HG HS ∅ h γ d c n); try done; simpl; lia|].
  intros r d1 [-> [I1 I2 I3 I4]]. change (ERROR 0) with false. cbn iota. unfold AddFileDirect. wsteps.
  rewrite (gr_files _ _ I3), Hi. wsteps. split; [done|]. split; [|split; [done|apply (gr_state _ _ I3)]]. apply dir_state_files. split; [|done|].
  - destruct I1 as (h' & γ' & HD' & _). by exists h', γ'.
  - intros k x. rewrite I4. simpl. destruct (decide (k = trunc_key name)) as [->|Hk].
    + rewrite lookup_insert_eq. split; [intros [= <-]; by right|]. intros [H|[_ ->]]; [by apply Hno in H|done].
    + rewrite lookup_insert_ne by done. rewrite Hh. split; [by left|]. intros [|[? _]]; [done|]. done.
Qed.

Lemma AddName_exists h γ d M c n name i t img x :
  dir_ok G ∅ h γ d -> dir_state d M -> m_mapChilds d !! c = Some n -> m_bLeaf n = true -> in_range (γ c) (trunc_key name) ->
  name <> ""%string -> c_string name -> M !! trunc_key name = Some x ->
  wp (AddName G (Some c) name i t img) d (fun r d' => r = - EEXIST /\ d' = d).
Proof using HG HS.
  intros HD [_ HSt Hh] Hc Hl Hr Hne Hcs HM. pose proof (trunc_ok name Hne Hcs) as Hok.
  apply Hh in HM. apply (leaf_lookup G HD (trunc_key name) c n) in HM as (s & Hs & Ek & _); [|done..].
  unfold AddName. apply wp_bind. eapply wp_mono; [eapply (Insert_exists h γ d c n); try done; simpl|].
  { destruct (entry_key n s Hs) as [j Hj]. rewrite Ek in Hj. by eapply list_elem_of_lookup_2. }
  intros r d1 [-> ->]. by wsteps.
Qed.

Lemma CreateFile_map d M name t (new := df_create t (m_oFile d)) :
  dir_state d M -> m_dwDirState d <> stateStopped -> name <> ""%string -> c_string name ->
  (tree_fuel d < df_room (m_oFile d))%nat -> m_mapFiles d !! new.1.2 = None ->
  wp (CreateFile G name t) d (fun r d' => m_setDirtyNodes d' = ∅ /\ m_dwDirState d' = m_dwDirState d /\
    match M !! trunc_key name with
    | Some _ => dir_state d' M /\ (r = - EEXIST \/ ERROR new.2 = true /\ r = new.2)
    | None => if ERROR new.2 then r = new.2 /\ dir_state d' M
              else r = 0 /\ dir_state d' (<[trunc_key name := (new.1.2, t)]> M)
    end).
Proof using HG HS.
  intros HDS Hst Hne Hcs Hroom Hfree. pose proof (dir_state_create d M t HDS) as HDS'.
  destruct (store_create ∅ d t (ds_store _ _ HDS)) as [_ Hrm]. fold new in HDS', Hrm. unfold new in *. clear new.
  destruct (df_create t (m_oFile d)) as [[f' i] e] eqn:Enew. simpl in *. destruct (ds_tree _ _ HDS) as (h & γ & HD).
  set (P := fun r : Z => if r =? 0 then <[trunc_key name := (i, t)]> M else M).
  set (R := fun (r : Z) (d' : CDirImage F) => m_dwDirState d' = m_dwDirState d /\
    match M !! trunc_key name with
    | Some _ => r = - EEXIST \/ ERROR e = true /\ r = e
    | None => if ERROR e then r = e else r = 0
    end).
  assert (ERROR e = true -> (e =? 0) = false) as Herr.
  { intros E. destruct (Z.eqb_spec e 0) as [E0|]; [|done]. by rewrite E0 in E. }
  unfold CreateFile. eapply wp_mono; [apply (locked_ok d _ R P Hst); [|intros r d1 d2 [E H] [(f2 & s2 & ->) _]; by split]|].
  2: { intros r d' (Hs & [Hst' Hr] & Hc). split; [done|]. split; [done|]. unfold R in Hr. destruct (M !! trunc_key name) as [x|].
    - split; [|done]. destruct Hr as [->|[E ->]]; [done|]. unfold P in Hs. by rewrite Herr in Hs.
    - destruct (ERROR e) eqn:E; subst r; (split; [done|]); [unfold P in Hs; by rewrite Herr in Hs|done]. }
  apply wp_bind. eapply wp_mono; [by apply (SearchNoLock_ok G HG HD name)|].
  intros [[ret leaf] f] d1 [[fs ->] (c & n & Hleaf & Hc & Hl & Hr) Hres]. simpl in Hleaf, Hres. subst leaf.
  pose proof (dir_state_files d M fs HDS) as HDS1. set (d1 := set_files fs d) in *.
  assert (dir_ok G ∅ h γ d1) as HD1 by (destruct HD; by split).
  assert (SUCCEEDED ret = false -> wp (d ← ask;
       let '(f, dwInode, ret) := df_create t (m_oFile d) in
       run (set_file f);;
       if ERROR ret then mret ret else AddName G (Some c) name dwInode t (NewImg t)) d1 (fun r d' => dir_state d' (P r) /\ R r d')) as Hnew.
  { intros Hs. wsteps. change (m_oFile d1) with (m_oFile d). rewrite Enew. wsteps.
    pose proof (dir_state_files _ M fs HDS') as HDS2. change (set_files fs (set_file f' d)) with (set_file f' d1) in HDS2.
    destruct (ERROR e) eqn:Ee.
    { wsteps. unfold P, R. rewrite (Herr eq_refl), ?Ee. split; [done|]. split; [done|]. destruct (M !! trunc_key name); auto. }
    assert (dir_ok G ∅ h γ (set_file f' d1)) as HD2 by (destruct HD1; by split).
    destruct (M !! trunc_key name) as [x|] eqn:EM.
    - eapply wp_mono; [by eapply (AddName_exists h γ (set_file f' d1) M c n name i t _ x)|].
      intros r d2 [-> ->]. unfold P, R. rewrite ?EM. split; [done|]. split; [done|by left].
    - assert (d1 = d) as Ed1.
      { destruct Hres as [(_ & _ & _ & E)|(j & t' & Hj & _)]; [done|]. apply (ds_holds _ _ HDS) in Hj. congruence. }
      rewrite Ed1 in *. eapply wp_mono; [apply (AddName_ok h γ (set_file f' d) M c n name i t); try done; simpl; unfold tree_fuel in *; simpl; lia|].
      intros r d2 (-> & Hs2 & _ & Hst2). unfold P, R. rewrite ?EM, ?Ee. done. }
  cbn beta iota. destruct Hres as [(_ & -> & _ & _)|(j & t' & Hj & [[-> _]|(_ & _ & He & _)])].
  - by apply Hnew.
  - change (SUCCEEDED STATUS_SUCCESS) with true. cbn iota. wsteps. unfold P, R. apply (ds_holds _ _ HDS) in Hj. rewrite ?Hj.
    split; [done|]. split; [done|by left].
  - assert (SUCCEEDED ret = false) as Es. { unfold SUCCEEDED, ERROR in *. destruct (Z.eqb_spec ret 0); [by subst|done]. }
    rewrite Es. by apply Hnew.
Qed.

(** C14: a new name is added with the inode and the type of the new file,
    and everything else stays; a name that is there is refused.  The file can
    still grow by more pages than the tree has nodes ([df_room]), so that -EFBIG
    does not occur, and the inode of the new file is not that of an open one. *)
Theorem CreateFile_spec d M name t (new := df_create t (m_oFile d)) :
  dir_state d M -> m_dwDirState d <> stateStopped -> name <> ""%string -> c_string name ->
  (tree_fuel d < df_room (m_oFile d))%nat -> m_mapFiles d !! new.1.2 = None ->
  wp (CreateFile G name t) d (fun r d' => m_setDirtyNodes d' = ∅ /\ m_dwDirState d' = m_dwDirState d /\
    match M !! trunc_key name with
    | Some _ => dir_state d' M /\ (r = - EEXIST \/ ERROR new.2 = true /\ r = new.2)
    | None => if ERROR new.2 then r = new.2 /\ dir_state d' M
              else r = 0 /\ dir_state d' (<[trunc_key name := (new.1.2, t)]> M)
    end).
Proof using HG HS. apply CreateFile_map. Qed.

Lemma Search_map d M k :
  dir_state d M -> m_dwDirState d <> stateStopped ->
  wp (Search G k) d (fun r d' => dir_state d' M /\ (exists fs, d' = set_files fs d) /\
    match M !! trunc_key k with
    | None => r = (- ENOENT, None) /\ d' = d
    | Some (i, t) =>
        r = (STATUS_SUCCESS, Some i) \/
        let e := (df_load i t (m_oFile d)).2 in
        m_mapFiles d !! i = None /\ ERROR e = true /\ r = (if e =? ERROR_FALSE then - ENOENT else e, None)
    end).
Proof using HG HS.
  intros HDS Hst. destruct (ds_tree _ _ HDS) as (h & γ & HD). unfold Search. wsteps.
  assert (forall Q, wp ('(ret, _, f) ← SearchNoLock G k; mret (if ret =? ERROR_FALSE then - ENOENT else ret, f)) d Q ->
    wp (match m_dwDirState d with stateStopped => mret (ERROR_STATE, None)
        | _ => '(ret, _, f) ← SearchNoLock G k; mret (if ret =? ERROR_FALSE then - ENOENT else ret, f) end) d Q) as Hm
    by (intros Q HQ; by destruct (m_dwDirState d)).
  apply Hm. apply wp_bind. eapply wp_mono; [by apply (SearchNoLock_ok G HG HD k)|].
  intros [[ret leaf] f] d1 [[fs ->] _ Hres]. simpl in Hres. wsteps.
  split; [by apply dir_state_files|]. split; [by exists fs|].
  destruct Hres as [(Hn & -> & -> & E)|(i & t & Hh & Hcase)].
  - destruct (M !! trunc_key k) as [x|] eqn:EM; [|by rewrite E].
    apply (ds_holds _ _ HDS) in EM. by apply Hn in EM.
  - apply (ds_holds _ _ HDS) in Hh. rewrite Hh. destruct Hcase as [[-> ->]|(H1 & -> & H3 & ->)]; [by left|right]. auto.
Qed.

(** C15: a lookup finds exactly the names that the directory holds, and
    changes nothing but the files that are loaded. *)
Theorem Search_spec d M k :
  dir_state d M -> m_dwDirState d <> stateStopped ->
  wp (Search G k) d (fun r d' => dir_state d' M /\ (exists fs, d' = set_files fs d) /\
    match M !! trunc_key k with
    | None => r = (- ENOENT, None) /\ d' = d
    | Some (i, t) =>
        r = (STATUS_SUCCESS, Some i) \/
        let e := (df_load i t (m_oFile d)).2 in
        m_mapFiles d !! i = None /\ ERROR e = true /\ r = (if e =? ERROR_FALSE then - ENOENT else e, None)
    end).
Proof using HG HS. apply Search_map. Qed.

Lemma ListDir_map d M :
  dir_state d M -> m_dwDirState d <> stateStopped ->
  wp ListDir d (fun r d' => d' = d /\ r.1 = 0 /\ ksorted (szKey <$> r.2) /\
    forall k x, M !! k = Some x <-> exists s, s ∈ r.2 /\ szKey s = k /\ x = (dwInodeIdx s, byFileType s)).
Proof using HG HS.
  intros HDS Hst. destruct (ds_tree _ _ HDS) as (h & γ & HD).
  eapply wp_mono; [by apply (ListDir_ok G HG HD)|]. intros r d' (-> & H1 & H2 & H3). split_and!; try done.
  intros k x. by rewrite (ds_holds _ _ HDS), H3.
Qed.

(** C20: the listing is in the order of the names, without duplicates, and
    has exactly what the directory holds. *)
Theorem ListDir_spec d M :
  dir_state d M -> m_dwDirState d <> stateStopped ->
  wp ListDir d (fun r d' => d' = d /\ r.1 = 0 /\ ksorted (szKey <$> r.2) /\
    forall k x, M !! k = Some x <-> exists s, s ∈ r.2 /\ szKey s = k /\ x = (dwInodeIdx s, byFileType s)).
Proof using HG HS. apply ListDir_map. Qed.

(** A new directory is empty. *)
Lemma FormatDir_ok f : df_inv f -> df_size f = 0 -> (0 < df_room f)%nat ->
  exists d, FormatDir G f = Ret (d, 0) /\ dir_state d ∅ /\ m_dwDirState d = stateStarted /\ m_mapFiles d = ∅ /\
    base.size (m_mapChilds d) = 1%nat /\ (df_room f <= S (df_room (m_oFile d)))%nat.
Proof using HG HS.
  intros Hinv Hsz Hroom. pose proof (ng_ptrs _ HG) as Hptrs. pose proof (page_pos G HG) as Hpp.
  assert (0 <= 0 < INVALID_BNODE_IDX) as H0 by (unfold INVALID_BNODE_IDX, USHRT_MAX; lia).
  destruct (NewBPlusNode_ok G 0 false H0) as (N1 & N2 & N3 & N4 & N5 & N6 & N7).
  assert (Z.of_nat (length (hton G (NewBPlusNode G 0))) = BNODE_SIZE G) as Hl.
  { apply length_hton; [done|]. change (slots_used (NewBPlusNode G 0)) with (slots_used (SetLeaf false (NewBPlusNode G 0))).
    rewrite N7. lia. }
  destruct (df_write_ok f 0 _ Hinv ltac:(lia) ltac:(lia) ltac:(auto) Hl) as (W1 & W2 & W3 & W4 & W5 & W6).
  rewrite Z.mul_0_l in *. destruct (df_write 0 (hton G (NewBPlusNode G 0)) f) as [f' e] eqn:Ew. simpl in *.
  set (n := SetLeaf true (NewBPlusNode G 0)).
  set (d := set_dirty ({[u32 0]} ∪ ({[u32 (-2)]} ∪ ∅)) (set_childs {[0 := n]} (mkDir 0 ∅ 0 [] ∅ ∅ stateStarted f'))).
  assert (wp (ret ← FormatNode G (NewBPlusNode G 0);
     if ERROR ret then mret ret
     else put 0 n;; (if IsSafeMode G then SetDirty (-2);; SetDirty 0 else mret tt);; mret 0)
    (mkDir 0 ∅ 0 [] ∅ ∅ stateStarted f) (fun r d' => r = 0 /\ d' = d)) as Hrun.
  { unfold FormatNode, WriteNode. wsteps. change (m_wThisBNodeIdx (NewBPlusNode G 0)) with 0.
    rewrite pos_page, Z.mul_0_l by done. simpl m_oFile. rewrite Ew. wsteps. unfold or_fail. rewrite W2. wsteps. rewrite HS.
    unfold SetDirty. wsteps. done. }
  apply wp_eq in Hrun as (d' & r & Hrun & -> & ->). exists d. split; [exact Hrun|]. split; [|split; [done|split; [done|split; [simpl; apply map_size_singleton|]]]].
  2: { simpl. rewrite Hsz in W5. simpl in W5. lia. }
  assert (forall i m, ({[0 := n]} : gmap Z CBPlusNode) !! i = Some m -> i = 0 /\ m = n) as Hone.
  { intros i m Hi. apply lookup_singleton_Some in Hi as [<- <-]. done. }
  assert (node_ok G 0 n) as Hok by (split; simpl; rewrite ?length_replicate; done || lia).
  split.
  - exists 0%nat, (fun _ => mkG 0 None None). split; [|intros i m Hi; by destruct (Hone i m Hi) as [-> ->]].
    assert (vtree d = {[0 := view n]}) as Ev by (unfold vtree, d; simpl; by rewrite map_fmap_singleton).
    change (m_pRootNode d) with 0. rewrite Ev. assert (forall i v, ({[0 := view n]} : gmap Z vnode) !! i = Some v -> i = 0 /\ v = view n) as Hv.
    { intros i v Hi. apply lookup_singleton_Some in Hi as [<- <-]. done. }
    split.
    + split; [done|]. exists (view n). split; [apply lookup_singleton_eq|done].
    + intros i v Hi. destruct (Hv i v Hi) as [-> ->]. split; simpl; try done; [lia|constructor..|constructor].
    + intros i v Hi. destruct (Hv i v Hi) as [-> ->]. simpl. split; [lia|done].
    + intros i v j c Hi Hc. destruct (Hv i v Hi) as [-> ->]. done.
    + intros i v Hi. by destruct (Hv i v Hi) as [-> ->].
    + intros i v Hi Hlf. by destruct (Hv i v Hi) as [-> ->].
  - split; simpl; try done.
    + intros i m Hi. destruct (Hone i m Hi) as [-> ->]. split; [by split|]. split; [done|]. lia.
    + split; simpl; [done|constructor..].
    + intros x Hx. by apply not_elem_of_nil in Hx.
    + intros i m Hi. destruct (Hone i m Hi) as [-> ->]. right. left. change (u32 0) with 0. set_solver.
    + intros i e' Hi. by apply not_elem_of_nil in Hi.
    + left. set_solver.
  - intros k x. rewrite lookup_empty. split; [done|]. intros (i & v & s & Hi & _ & Hs & _).
    apply vtree_some in Hi as (m & Hm & ->). simpl in Hm. destruct (Hone i m Hm) as [-> ->]. simpl in Hs. by apply not_elem_of_nil in Hs.
Qed.
End Calls.

(** ** A file in memory

    A [DirFileOk] whose pages are a map: inodes are numbered from 1000 on. *)

Definition ram_geom : geometry := mkGeom 512 4096 true.
Record ram := mkRam { r_pages : gmap Z (list Z); r_count : Z; r_root : Z; r_next : Z }.
#[export] Instance ram_file : DirFile ram := {
  df_size f := r_count f * 4096;
  df_write off l f := (mkRam (<[off / 4096 := l]> (r_pages f)) (Z.max (r_count f) (off / 4096 + 1)) (r_root f) (r_next f), 4096);
  df_read off n f := (default [] (r_pages f !! (off / 4096)), 4096);
  df_truncate off f := (mkRam (r_pages f) (off / 4096) (r_root f) (r_next f), 0);
  df_root := r_root;
  df_flush_inode r f := (mkRam (r_pages f) (r_count f) r (r_next f), 0);
  df_create t f := (mkRam (r_pages f) (r_count f) (r_root f) (r_next f + 1), u32 (r_next f), 0);
  df_load i t f := (mkFile None 0 stateStarted, 0);
}.
Definition ram_empty : ram := mkRam ∅ 0 0 1000.

Lemma ram_geom_ok : node_geom ram_geom.
Proof.
  split.
  - by vm_compute.
  - exists 12. by vm_compute.
  - by vm_compute.
  - by vm_compute.
Qed.

#[export] Instance ram_ok : DirFileOk ram_geom ram.
Proof.
  refine (Build_DirFileOk ram_geom ram ram_file (fun f => 0 <= r_count f <= 2065)
    (fun f i => default [] (r_pages f !! i)) (fun f => Z.to_nat (2065 - r_count f)) _ _ _ _ _);
    change (BNODE_SIZE ram_geom) with 4096; simpl.
  - intros f Hf. change (MAX_FILE_SIZE ram_geom) with 8460800. split_and!; [lia|exists (r_count f); lia|lia].
  - intros f i l Hf Hi Hs Hr Hl. rewrite Z.div_mul by done. split; [destruct Hr; lia|]. split; [done|]. split; [lia|].
    split; [done|]. split; [destruct (Z.ltb_spec (i * 4096) (r_count f * 4096)); lia|].
    intros j Hj Hjs. destruct (decide (j = i)) as [->|]; [by rewrite lookup_insert_eq|by rewrite lookup_insert_ne].
  - intros f i Hf Hi Hs. by rewrite Z.div_mul.
  - intros f r Hf. done.
  - intros f t Hf. pose proof (u32_range (r_next f)). split_and!; try done; lia.
Defined.

(** The new directory in memory. *)
Lemma ram_dir : exists d : CDirImage ram, FormatDir ram_geom ram_empty = Ret (d, 0) /\ dir_state ram_geom d ∅ /\
  m_dwDirState d <> stateStopped /\ m_mapFiles d = ∅ /\ (tree_fuel d < df_room (G := ram_geom) (m_oFile d))%nat.
Proof.
  destruct (FormatDir_ok ram_geom ram_geom_ok eq_refl ram_empty) as (d & H1 & H2 & H3 & H4 & H5 & H6);
    [simpl; lia|done|simpl; lia|].
  exists d. split; [done|]. split; [done|]. split; [by rewrite H3|]. split; [done|]. unfold tree_fuel. rewrite H5.
  assert (df_room (G := ram_geom) ram_empty = Z.to_nat 2065) as E by done. rewrite E in H6. lia.
Qed.

Lemma CreateFile_spec_witness : exists d : CDirImage ram, dir_state ram_geom d ∅ /\
  wp (CreateFile ram_geom "conf" 1) d (fun r d' => m_setDirtyNodes d' = ∅ /\ r = 0 /\ dir_state ram_geom d' {["conf"%string := (u32 (r_next (m_oFile d)), 1)]}).
Proof.
  destruct ram_dir as (d & _ & Hd & Hst & Hf & Hroom). exists d. split; [done|].
  eapply wp_mono; [apply (CreateFile_spec ram_geom ram_geom_ok eq_refl d ∅ "conf" 1 Hd Hst)|]; [done| |done|by rewrite Hf|].
  - repeat constructor; done.
  - simpl. intros r d' [Hc [_ [-> Hd']]]. split; [done|]. split; [done|]. by rewrite insert_empty in Hd'.
Defined.

Lemma Search_spec_witness : exists d : CDirImage ram, dir_state ram_geom d ∅ /\
  wp (Search ram_geom "conf") d (fun r d' => r = (- ENOENT, None)).
Proof.
  destruct ram_dir as (d & _ & Hd & Hst & _). exists d. split; [done|].
  eapply wp_mono; [apply (Search_spec ram_geom ram_geom_ok eq_refl d ∅ "conf" Hd Hst)|]. by intros r d' (_ & _ & -> & _).
Defined.

Lemma ListDir_spec_witness : exists d : CDirImage ram, dir_state ram_geom d ∅ /\
  wp ListDir d (fun r d' => d' = d /\ r.2 = []).
Proof.
  destruct ram_dir as (d & _ & Hd & Hst & _). exists d. split; [done|].
  eapply wp_mono; [apply (ListDir_spec ram_geom ram_geom_ok eq_refl d ∅ Hd Hst)|]. intros [r l] d' (-> & _ & _ & H). split; [done|].
  destruct l as [|s l]; [done|]. exfalso.
  assert ((∅ : gmap key (Z * Z)) !! szKey s = Some (dwInodeIdx s, byFileType s)) as E by (apply H; exists s; split; [by left|done]).
  by rewrite lookup_empty in E.
Defined.
