(* ===== verification/DirReload.v ===== *)
(** * Directories come back from the disk

    A page is read back as the node, or the page of the pool, that was written
    ([ntoh_hton], [ntoh_free_hton]); [Reload] reads the pages of the tree down
    from the root and those of the pool along its chain, and finds the directory
    that was committed ([ReloadDir_spec]). *)

From Stdlib Require Import ZArith Lia Sorted.
From stdpp Require Import strings sorting.
From S2P Require Import TaskGroup BlkCache Prelude Buffer BlkBitmap DirTree DirWf DirSplit DirInsert DirCreate DirCalls.
Local Open Scope Z_scope.

(** ** Numbers and names *)

Lemma le_bytes_mod n z : le_bytes n (uN (8 * Z.of_nat n) z) = le_bytes n z.
Proof.
  revert z. induction n as [|n IH]; intros z; [done|]. cbn [le_bytes].
  replace (8 * Z.of_nat (S n)) with (8 + 8 * Z.of_nat n) by lia.
  unfold uN in *. rewrite Z.pow_add_r by lia. rewrite <- (IH (Z.shiftr z 8)). f_equal.
  - change 0xFF with (Z.ones 8). rewrite !Z.land_ones by done. rewrite Z.rem_mul_r by lia.
    rewrite Z.mul_comm, Z_mod_plus_full. by apply Z.mod_mod.
  - rewrite !Z.shiftr_div_pow2 by done. f_equal. rewrite Z.rem_mul_r by lia.
    rewrite Z.mul_comm, Z.div_add by done. rewrite Z.div_small by (apply Z.mod_pos_bound; done). lia.
Qed.
Lemma be_val_be n z : be_val (be_bytes n z) = uN (8 * Z.of_nat n) z.
Proof.
  unfold be_bytes. rewrite <- le_bytes_mod. apply be_val_bytes. apply uN_range. lia.
Qed.
Lemma be2_val z : be_val (be_bytes 2 z) = u16 z.
Proof. apply be_val_be. Qed.

Lemma u16_u16 z : u16 (u16 z) = u16 z.
Proof. unfold u16, uN. by rewrite Z.mod_mod. Qed.

Lemma substring_length n k : String.substring 0 n k = k -> (String.length k <= n)%nat.
Proof.
  revert n. induction k as [|c k IH]; intros [|n]; simpl; try (intros; lia).
  - done.
  - intros [= H]. apply IH in H. lia.
Qed.

Lemma name_of_firstn k : c_string k -> forall n m, (String.length k < n)%nat -> (0 < m)%nat ->
  name_of_bytes (firstn n (map (fun c => Z.of_N (Ascii.N_of_ascii c)) (String.list_ascii_of_string k) ++ replicate m 0)) = k.
Proof.
  unfold c_string. induction k as [|c k IH]; intros Hc [|n] m Hn Hm; simpl in *; try lia.
  - destruct m; [lia|done].
  - apply Forall_cons in Hc as [Hc Hk]. destruct (Z.eqb_spec (Z.of_N (Ascii.N_of_ascii c)) 0) as [E|_].
    { exfalso. apply Hc. rewrite <- (Ascii.ascii_N_embedding c). replace (Ascii.N_of_ascii c) with 0%N by lia. done. }
    rewrite N2Z.id, Ascii.ascii_N_embedding. by rewrite IH by (done || lia).
Qed.
(** A name that fits is read back. *)
Lemma name_roundtrip k : trunc_key k = k -> c_string k -> name_of_bytes (name_bytes k) = k.
Proof.
  intros Hk Hc. apply name_of_firstn; [done| |unfold REGFS_NAME_LENGTH; lia].
  apply substring_length in Hk. unfold REGFS_NAME_LENGTH in *. lia.
Qed.

(** ** Slots *)

Lemma slot_roundtrip s : 0 <= dwBNodeIdx s < 2 ^ 32 ->
  slot_of_bytes (slot_bytes s) = mkSlot (name_of_bytes (name_bytes (szKey s))) (dwBNodeIdx s) (byFileType s).
Proof.
  intros Hi. pose proof (length_name_bytes (szKey s)) as Hn.
  assert (zlen (name_bytes (szKey s)) = REGFS_NAME_LENGTH) as Hz by (unfold zlen; by rewrite Hn).
  unfold slot_of_bytes, slot_bytes. rewrite ztake_app_exact, zdrop_app_exact by done.
  rewrite ztake_app_exact by (by rewrite zlen_be_bytes). rewrite be_val_be. change (8 * Z.of_nat 4) with 32. rewrite uN_small by done.
  rewrite app_assoc, zdrop_app_exact by (rewrite zlen_app, zlen_be_bytes, Hz; done). done.
Qed.

Lemma chunk {A} (f : A -> list Z) w v rest i x : (forall y, length (f y) = w) -> v !! i = Some x ->
  take w (drop (i * w) (concat (map f v) ++ rest)) = f x.
Proof.
  intros Hw. revert i. induction v as [|y v IH]; intros i; [done|]. destruct i as [|i]; simpl.
  - intros [= ->]. rewrite drop_0, <- app_assoc, take_app_le by (rewrite Hw; lia). by rewrite take_ge by (rewrite Hw; lia).
  - intros Hx. rewrite <- app_assoc, drop_app_ge by (rewrite Hw; lia). rewrite Hw.
    replace (w + i * w - w)%nat with (i * w)%nat by lia. by apply IH.
Qed.
Lemma load_slots_bytes v rest w :
  load_slots (Z.of_nat (length v)) (concat (map slot_bytes v) ++ rest) w =
  map (fun s => slot_of_bytes (slot_bytes s)) v ++ drop (length v) w.
Proof.
  unfold load_slots. rewrite Nat2Z.id. f_equal. apply list_eq. intros i. rewrite !list_lookup_fmap.
  destruct (decide (i < length v)%nat) as [Hi|Hi].
  - rewrite lookup_seqZ_lt by lia. destruct (lookup_lt_is_Some_2 v i Hi) as [s Hs]. rewrite Hs. simpl. f_equal.
    unfold ztake, zdrop. replace (Z.to_nat ((0 + Z.of_nat i) * sizeof_KEYPTR_SLOT)) with (i * 104)%nat
      by (unfold sizeof_KEYPTR_SLOT, REGFS_NAME_LENGTH; lia).
    change (Z.to_nat sizeof_KEYPTR_SLOT) with 104%nat. by rewrite (chunk slot_bytes 104 v rest i s length_slot_bytes Hs).
  - rewrite lookup_seqZ_ge by lia. by rewrite lookup_ge_None_2 by lia.
Qed.

(** ** Nodes *)

Lemma map_pair_eq {A B C} (f : A -> B) (g : A -> C) (inj : forall x y, f x = f y -> g x = g y -> x = y) l l' :
  map f l = map f l' -> map g l = map g l' -> l = l'.
Proof.
  revert l'. induction l as [|x l IH]; intros [|y l']; simpl; try done. intros [= H1 H2] [= H3 H4].
  f_equal; [by apply inj|by apply IH].
Qed.

Section Pages.
Context (G : geometry) (HG : node_geom G).

(** What a node must be like to be read back. *)
Record page_node (i : Z) (n : CBPlusNode) : Prop := mkPageNode {
  pn_ok : node_ok G i n;
  pn_max : m_wNumKeys n <= MAX_KEYS_PER_NODE G;
  pn_next : m_wNextLeaf n = INVALID_BNODE_IDX \/ 0 <= m_wNextLeaf n <= MAX_BNODE_NUMBER G;
  pn_keys : Forall key_ok (keys n);
  pn_idx : Forall (fun s => 0 <= dwBNodeIdx s < 2 ^ 32) (take (Z.to_nat (slots_used n)) (m_vecSlots n));
}.

Definition header (n : CBPlusNode) : list Z :=
  be_bytes 2 (m_wNumKeys n) ++ be_bytes 2 (m_wNumPtrs n) ++ be_bytes 2 (m_wThisBNodeIdx n) ++
  be_bytes 2 INVALID_BNODE_IDX ++ be_bytes 2 (m_wNextLeaf n) ++
  [if m_bLeaf n then 1 else 0; 0] ++ be_bytes 2 (m_wFreeBNodeIdx n).

Lemma header_field n rest : let p i := be_val (ztake 2 (zdrop (2 * i) (header n ++ rest))) in
  p 0 = u16 (m_wNumKeys n) /\ p 1 = u16 (m_wNumPtrs n) /\ p 2 = u16 (m_wThisBNodeIdx n) /\
  p 3 = INVALID_BNODE_IDX /\ p 4 = u16 (m_wNextLeaf n) /\ p 6 = u16 (m_wFreeBNodeIdx n) /\
  negb (nth 0 (zdrop 10 (header n ++ rest)) 0 =? 0) = m_bLeaf n.
Proof.
  assert (forall z, exists a b, be_bytes 2 z = [a; b] /\ be_val [a; b] = u16 z) as H2.
  { intros z. pose proof (be2_val z) as E. pose proof (length_be 2 z) as L.
    destruct (be_bytes 2 z) as [|a [|b [|]]]; try done. by exists a, b. }
  cbn zeta. unfold header.
  destruct (H2 (m_wNumKeys n)) as (a1 & b1 & -> & E1). destruct (H2 (m_wNumPtrs n)) as (a2 & b2 & -> & E2).
  destruct (H2 (m_wThisBNodeIdx n)) as (a3 & b3 & -> & E3). destruct (H2 (m_wNextLeaf n)) as (a5 & b5 & -> & E5).
  destruct (H2 (m_wFreeBNodeIdx n)) as (a7 & b7 & -> & E7). destruct (H2 INVALID_BNODE_IDX) as (a4 & b4 & -> & E4).
  clear H2. split_and!; [exact E1|exact E2|exact E3|exact E4|exact E5|exact E7|].
  unfold zdrop. simpl. by destruct (m_bLeaf n).
Qed.

Lemma page_layout n : 0 <= slots_used n <= MAX_PTRS_PER_NODE G -> exists pad rest,
  hton G n = concat (map slot_bytes (take (Z.to_nat (slots_used n)) (m_vecSlots n))) ++ pad ++ header n ++ rest /\
  zlen (concat (map slot_bytes (take (Z.to_nat (slots_used n)) (m_vecSlots n))) ++ pad) = MAX_PTRS_PER_NODE G * sizeof_KEYPTR_SLOT.
Proof.
  intros Hu. unfold hton. fold (header n). set (v := concat _). set (p := pad_to (_ * _) v). unfold pad_to at 1.
  exists (replicate (Z.to_nat (MAX_PTRS_PER_NODE G * sizeof_KEYPTR_SLOT) - length v) 0),
    (replicate (Z.to_nat (BNODE_SIZE G) - length (p ++ header n)) 0).
  split; [rewrite <- !app_assoc; unfold p at 1, pad_to; by rewrite <- app_assoc|]. unfold zlen, v. clear p v.
  assert (Z.of_nat (length (concat (map slot_bytes (take (Z.to_nat (slots_used n)) (m_vecSlots n))))) <=
    MAX_PTRS_PER_NODE G * sizeof_KEYPTR_SLOT) as Hc.
  { rewrite length_slots, length_take. unfold sizeof_KEYPTR_SLOT, REGFS_NAME_LENGTH. lia. }
  by apply length_pad_to.
Qed.

(** The slots of a page are read back: names that fit, and all pairs. *)
Abbreviation reread := (fun s => slot_of_bytes (slot_bytes s)).
Lemma reread_keys v : Forall (fun s => 0 <= dwBNodeIdx s < 2 ^ 32) v -> Forall key_ok (szKey <$> v) -> szKey <$> map reread v = szKey <$> v.
Proof.
  induction v as [|s v IH]; [done|]. cbn [map fmap list_fmap]. intros [Hs Hv]%Forall_cons [(H1 & _ & H3) Hk]%Forall_cons.
  f_equal; [|by apply IH]. rewrite slot_roundtrip by done. by apply name_roundtrip.
Qed.
Lemma reread_pairs v : Forall (fun s => 0 <= dwBNodeIdx s < 2 ^ 32) v ->
  map (fun s => (dwBNodeIdx s, byFileType s)) (map reread v) = map (fun s => (dwBNodeIdx s, byFileType s)) v.
Proof.
  induction v as [|s v IH]; [done|]. cbn [map]. intros [Hs Hv]%Forall_cons. f_equal; [|by apply IH]. by rewrite slot_roundtrip.
Qed.

(** What is read depends on the image only. *)
Lemma ntoh_hton m n i : page_node i n -> image m = image n -> let r := (ntoh G (hton G m) (NewBPlusNode G i)).1 in
  (ntoh G (hton G m) (NewBPlusNode G i)).2 = 0 /\ image r = image n /\ m_pParent r = None /\
  length (m_vecSlots r) = Z.to_nat (MAX_PTRS_PER_NODE G + 1) /\ m_wFreeBNodeIdx r = u16 (m_wFreeBNodeIdx n).
Proof using HG.
  intros HP Him. pose proof (pn_ok _ _ HP) as Hok. pose proof (no_keys _ _ _ Hok) as Hk. pose proof (no_ptrs _ _ _ Hok) as Hp.
  pose proof (ng_ptrs _ HG) as Hptrs. pose proof (pn_max _ _ HP) as Hmax. unfold MAX_KEYS_PER_NODE in Hmax.
  pose proof (slots_used_bound G HG i n Hok (or_intror Hmax)) as Hu.
  assert (Him' := Him). unfold image in Him'. injection Him' as E1 E2 E3 E4 E5 E6 E7 E8.
  assert (slots_used m = slots_used n) as Eu by (unfold slots_used; by rewrite E3, E5, E6).
  set (v := take (Z.to_nat (slots_used m)) (m_vecSlots m)) in *.
  set (w := take (Z.to_nat (slots_used n)) (m_vecSlots n)) in *.
  assert (length v = Z.to_nat (slots_used n)) as Hlv.
  { rewrite <- (length_map (fun s => (dwBNodeIdx s, byFileType s))), E8, length_map. unfold w. rewrite length_take, (no_slots _ _ _ Hok). lia. }
  destruct (page_layout m) as (pad & rest & Epage & Elen); [lia|]. fold v in Epage, Elen.
  set (l := hton G m) in *. set (S0 := MAX_PTRS_PER_NODE G * sizeof_KEYPTR_SLOT) in *.
  assert (0 <= S0) as HS0 by (unfold S0, sizeof_KEYPTR_SLOT, REGFS_NAME_LENGTH; lia).
  assert (zdrop S0 l = header m ++ rest) as Eh by (rewrite Epage, app_assoc; by apply zdrop_app_exact).
  destruct (header_field m rest) as (F0 & F1 & F2 & F3 & F4 & F6 & F5). rewrite <- Eh in *.
  rewrite !zdrop_zdrop in * by lia.
  assert (u16 (m_wNumKeys m) = m_wNumKeys n) as Q1 by (rewrite E5; apply uN_small; lia).
  assert (u16 (m_wNumPtrs m) = m_wNumPtrs n) as Q2 by (rewrite E6; apply uN_small; destruct (m_bLeaf n); lia).
  assert (u16 (m_wThisBNodeIdx m) = m_wThisBNodeIdx n) as Q3
    by (rewrite E1, (no_this _ _ _ Hok); apply u16_idx, (no_idx _ _ _ Hok)).
  assert (u16 (m_wNextLeaf m) = m_wNextLeaf n) as Q4.
  { rewrite E2. pose proof (ng_index _ HG). unfold MAX_BNODE_NUMBER in *. 
    destruct (pn_next _ _ HP) as [->|]; [done|]. apply uN_small. unfold INVALID_BNODE_IDX, USHRT_MAX in *. unfold MAX_BNODE_NUMBER in *. lia. }
  rewrite Q1 in F0. rewrite Q2 in F1. rewrite Q3 in F2. rewrite Q4 in F4. rewrite E4 in F6. rewrite E3 in F5.
  assert (BNODE_SIZE G <= Z.of_nat (length l)) as Hfull by (unfold l, hton, pad_to; rewrite length_app, length_replicate; lia).
  unfold ntoh. fold S0. destruct (Z.ltb_spec (Z.of_nat (length l)) (BNODE_SIZE G)); [lia|]. rewrite F0, F1, F2, F3, F4, F5, F6. simpl m_wNumPtrs. simpl m_wNumKeys. simpl m_wNextLeaf.
  unfold MAX_KEYS_PER_NODE.
  destruct (Z.ltb_spec (MAX_PTRS_PER_NODE G) (m_wNumPtrs n)); [destruct (m_bLeaf n); lia|].
  destruct (Z.ltb_spec (MAX_PTRS_PER_NODE G - 1) (m_wNumKeys n)); [lia|]. cbn [orb].
  assert (bad_bnode G INVALID_BNODE_IDX = false) as -> by (unfold bad_bnode; by rewrite Z.eqb_refl, andb_false_r).
  assert (bad_bnode G (m_wNextLeaf n) = false) as ->.
  { unfold bad_bnode. destruct (pn_next _ _ HP) as [->|Hn]; [by rewrite Z.eqb_refl, andb_false_r|].
    destruct (Z.ltb_spec (MAX_BNODE_NUMBER G) (m_wNextLeaf n)); [lia|done]. }
  set (nd := mkNode _ _ _ _ _ _ _ _). assert (slots_used nd = slots_used n) as End by done. rewrite End.
  assert (slots_used n = Z.of_nat (length v)) as Ev by lia.
  set (ld := load_slots _ _ _). assert (ld = map (fun s => slot_of_bytes (slot_bytes s)) v ++ drop (length v) (m_vecSlots nd)) as Eld.
  { unfold ld. rewrite Ev, Epage. apply load_slots_bytes. }
  cbn [fst snd]. split; [done|].
  assert (take (Z.to_nat (slots_used n)) ld = map (fun s => slot_of_bytes (slot_bytes s)) v) as Etk.
  { rewrite Eld, take_app_le, take_ge by (rewrite length_map; lia). done. }
  assert (Forall (fun s => 0 <= dwBNodeIdx s < 2 ^ 32) v) as Hvi.
  { pose proof (pn_idx _ _ HP) as Hi. fold w in Hi. rewrite Forall_lookup in Hi |- *. intros j s Hs.
    assert (map (fun s => (dwBNodeIdx s, byFileType s)) v !! j = Some (dwBNodeIdx s, byFileType s)) as Hj by (by rewrite list_lookup_fmap, Hs).
    rewrite E8, list_lookup_fmap in Hj. destruct (w !! j) as [t|] eqn:Et; [|done]. injection Hj as <- _. by eapply Hi. }
  assert (length ld = Z.to_nat (MAX_PTRS_PER_NODE G + 1)) as Hlld.
  { rewrite Eld, length_app, length_map, length_drop. simpl. rewrite length_replicate. lia. }
  split; [|split; [done|split; [exact Hlld|]]].
  2: { simpl. by rewrite !u16_u16. }
  assert (Z.to_nat (m_wNumKeys n) <= length v)%nat as Hkv.
  { rewrite Hlv. unfold slots_used. destruct (m_bLeaf n); lia. }
  assert (keys (set_slots ld (SetFreeBNodeIdx (u16 (m_wFreeBNodeIdx n)) nd)) = keys n) as Ek.
  { rewrite <- E7. unfold keys, entries. simpl. rewrite E5.
    assert (take (Z.to_nat (m_wNumKeys n)) (m_vecSlots m) = take (Z.to_nat (m_wNumKeys n)) v) as Em.
    { unfold v. rewrite take_take. f_equal. rewrite Eu. lia. }
    rewrite Eld, take_app_le by (rewrite length_map; lia). rewrite Em, firstn_map.
    apply reread_keys; [by apply Forall_take|]. rewrite <- Em, <- E5. change (Forall key_ok (keys m)). rewrite E7. apply (pn_keys _ _ HP). }
  assert (map (fun s => (dwBNodeIdx s, byFileType s)) (take (Z.to_nat (slots_used n)) ld) = map (fun s => (dwBNodeIdx s, byFileType s)) w) as Emap
    by (rewrite Etk, <- E8; by apply reread_pairs).
  unfold image. fold w. simpl m_vecSlots. change (slots_used (set_slots ld _)) with (slots_used n). rewrite Ek, Emap. simpl.
  by rewrite !(u16_u16).
Qed.

(** The tree sees the same node. *)
Lemma image_view i n r : node_ok G i n -> image r = image n -> view (SetParent (m_pParent n) r) = view n.
Proof using HG.
  intros Hok E. unfold image in E. injection E as E1 E2 E3 E4 E5 E6 E7 E8.
  assert (slots_used r = slots_used n) as Eu by (unfold slots_used; by rewrite E3, E5, E6). rewrite Eu in E8.
  unfold view. simpl. change (keys (SetParent (m_pParent n) r)) with (keys r). change (ptrs (SetParent (m_pParent n) r)) with (ptrs r).
  change (entries (SetParent (m_pParent n) r)) with (entries r). rewrite E2, E3, E7. unfold slots_used in E8.
  pose proof (no_ptrs _ _ _ Hok) as Hp. destruct (m_bLeaf n).
  - assert (ptrs r = ptrs n) as -> by (unfold ptrs; by rewrite E6, Hp). f_equal. unfold keys, entries in *. rewrite E5 in *.
    apply (map_pair_eq (fun s => (dwBNodeIdx s, byFileType s)) szKey); [|done..].
    intros [k a b] [k' a' b']; simpl. congruence.
  - f_equal. unfold ptrs. rewrite E6. apply (f_equal (map fst)) in E8. rewrite !map_map in E8. exact E8.
Qed.

Lemma image_ok i n r p : node_ok G i n -> image r = image n -> length (m_vecSlots r) = Z.to_nat (MAX_PTRS_PER_NODE G + 1) ->
  node_ok G i (SetParent p r).
Proof.
  intros [H1 H2 H3 H4 H5 H6] E Hl. unfold image in E. injection E as E1 E2 E3 E4 E5 E6 E7 E8.
  split; simpl; rewrite ?E1, ?E2, ?E3, ?E5, ?E6; done.
Qed.

(** ** Pages of the pool *)

Lemma max_count : 0 <= GetMaxCount G < 65536.
Proof using HG.
  pose proof (page_pos G HG) as Hpp. pose proof (ng_ptrs _ HG) as H. unfold MAX_PTRS_PER_NODE in H.
  pose proof (Z_div_mod_eq_full (BNODE_SIZE G) sizeof_KEYPTR_SLOT) as E. unfold sizeof_KEYPTR_SLOT, REGFS_NAME_LENGTH in *.
  pose proof (Z.mod_pos_bound (BNODE_SIZE G) (96 + 8)).
  unfold GetMaxCount. rewrite Z.shiftr_div_pow2 by done. change (2 ^ 1) with 2. split; [apply Z.div_pos; lia|].
  apply Z.div_lt_upper_bound; lia.
Qed.

Lemma ntoh_free_hton f : m_wBNCount f <= GetMaxCount G -> Forall (fun x => 0 <= x < INVALID_BNODE_IDX) (m_arrFreeBNIdx f) ->
  ntoh_free G (hton_free G f) = (f, 0).
Proof using HG.
  intros Hc Hr. pose proof max_count as Hm. destruct f as [b arr]. unfold m_wBNCount in *. simpl in *.
  unfold hton_free, m_wBNCount. simpl m_bNextBNode. simpl m_arrFreeBNIdx.
  set (rest := replicate _ _). set (l := be_bytes 2 _ ++ _).
  assert (be_val (ztake 2 l) = Z.of_nat (length arr)) as E1.
  { unfold l. rewrite ztake_app_exact by (by rewrite zlen_be_bytes). rewrite be2_val. apply uN_small. lia. }
  assert (zdrop 2 l = [if b then 1 else 0; 0] ++ concat (map (be_bytes 2) arr) ++ rest) as E2.
  { unfold l. by rewrite zdrop_app_exact by (by rewrite zlen_be_bytes). }
  unfold ntoh_free. rewrite E1, E2. destruct (Z.ltb_spec (GetMaxCount G) (Z.of_nat (length arr))); [lia|].
  assert (map (fun i => be_val (ztake 2 (zdrop (4 + 2 * i) l))) (seqZ 0 (Z.of_nat (length arr))) = arr) as ->.
  { apply list_eq. intros i. rewrite list_lookup_fmap. destruct (arr !! i) as [x|] eqn:Ex.
    - pose proof (lookup_lt_Some _ _ _ Ex). rewrite lookup_seqZ_lt by lia. simpl.
      replace (4 + 2 * (0 + Z.of_nat i)) with (2 + (2 + 2 * Z.of_nat i)) by lia. rewrite <- zdrop_zdrop, E2 by lia.
      rewrite <- zdrop_zdrop, zdrop_app_exact by (done || lia). unfold ztake, zdrop.
      replace (Z.to_nat (2 * Z.of_nat i)) with (i * 2)%nat by lia. change (Z.to_nat 2) with 2%nat.
      rewrite (chunk (be_bytes 2) 2 arr rest i x (length_be 2) Ex), be2_val. f_equal. apply u16_idx.
      rewrite Forall_lookup in Hr. by eapply Hr.
    - rewrite lookup_seqZ_ge; [done|]. apply lookup_ge_None in Ex. lia. }
  by destruct b.
Qed.
End Pages.

(** ** Subtrees *)

Section Subtree.
Context {F : Type} (d : CDirImage F).
Fixpoint subtree (L : nat) (i : Z) : gset Z :=
  match L, m_mapChilds d !! i with
  | S L, Some n => ⋃ ((fun c => {[c]} ∪ subtree L c) <$> ptrs n)
  | _, _ => ∅
  end.
Definition parent_of (x : Z) : Z := default x (m_mapChilds d !! x ≫= m_pParent).
(** The [k]th node above. *)
Definition ancestor (k : nat) (x : Z) : Z := Nat.iter k parent_of x.
End Subtree.

Section Sub.
Context (G : geometry) (HG : node_geom G).
Context {F : Type} {h : nat} {γ : Z -> ginfo} {d : CDirImage F}.
Context (HD : dir_ok G ∅ h γ d).
Let HT := do_tree _ _ _ _ _ HD.

Abbreviation sub := (subtree d).
Abbreviation up := (parent_of d).
Abbreviation anc := (ancestor d).

Lemma elem_sub L i n x : m_mapChilds d !! i = Some n ->
  x ∈ sub (S L) i <-> exists c, c ∈ ptrs n /\ (x = c \/ x ∈ sub L c).
Proof using HD HG.
  intros Hi. cbn [subtree]. rewrite Hi. rewrite elem_of_union_list. split.
  - intros (X & HX & Hx). apply list_elem_of_fmap in HX as (c & -> & Hc). exists c. split; [done|set_solver].
  - intros (c & Hc & Hx). exists ({[c]} ∪ sub L c). split; [|set_solver]. apply list_elem_of_fmap. by exists c.
Qed.

Lemma ptr_child i n c : m_mapChilds d !! i = Some n -> c ∈ ptrs n -> exists nc,
  m_mapChilds d !! c = Some nc /\ m_pParent nc = Some i /\ g_lev (γ i) = S (g_lev (γ c)).
Proof using HD HG.
  intros Hi Hc. apply list_elem_of_lookup in Hc as [j Hj]. destruct (child_node G HG HD i n j c Hi Hj) as (nc & H1 & H2 & _).
  exists nc. split; [done|]. split; [done|]. exact (child_lev HT i (view n) j c (vtree_lookup _ _ _ Hi) Hj).
Qed.

Lemma sub_anc L : forall i n x, m_mapChilds d !! i = Some n -> g_lev (γ i) = L -> x ∈ sub L i ->
  is_Some (m_mapChilds d !! x) /\ (g_lev (γ x) < L)%nat /\ anc (L - g_lev (γ x)) x = i.
Proof using HD HG.
  induction L as [|L IH]; intros i n x Hi HL Hx; [by apply not_elem_of_empty in Hx|].
  apply (elem_sub L i n x Hi) in Hx as (c & Hc & Hx). destruct (ptr_child i n c Hi Hc) as (nc & Hnc & Hp & Hl).
  rewrite HL in Hl. injection Hl as Hl.
  assert (up c = i) as Hup by (unfold parent_of; by rewrite Hnc; simpl; rewrite Hp).
  destruct Hx as [->|Hx].
  - split; [eauto|]. split; [lia|]. replace (S L - g_lev (γ c))%nat with 1%nat by lia. done.
  - destruct (IH c nc x Hnc (eq_sym Hl) Hx) as (H1 & H2 & H3). split; [done|]. split; [lia|].
    replace (S L - g_lev (γ x))%nat with (S (L - g_lev (γ x))) by lia. change (up (anc (L - g_lev (γ x)) x) = i). by rewrite H3.
Qed.

(** The subtrees of two children are apart. *)
Lemma sub_apart i n c1 c2 x L : m_mapChilds d !! i = Some n -> g_lev (γ i) = S L -> c1 ∈ ptrs n -> c2 ∈ ptrs n ->
  x = c1 \/ x ∈ sub L c1 -> x = c2 \/ x ∈ sub L c2 -> c1 = c2.
Proof using HD HG.
  intros Hi HL H1 H2. destruct (ptr_child i n c1 Hi H1) as (n1 & Hn1 & _ & L1). destruct (ptr_child i n c2 Hi H2) as (n2 & Hn2 & _ & L2).
  assert (forall c nc, m_mapChilds d !! c = Some nc -> g_lev (γ i) = S (g_lev (γ c)) -> x = c \/ x ∈ sub L c -> anc (L - g_lev (γ x)) x = c) as H.
  { intros c nc Hnc Hl [->|Hx].
    - replace (L - g_lev (γ c))%nat with 0%nat by lia. done.
    - eapply (sub_anc L c nc x); [done|lia|done]. }
  intros Hx1 Hx2. rewrite <- (H c1 n1 Hn1 L1 Hx1). by apply (H c2 n2).
Qed.

Lemma sub_trans L : forall i n x y nx, m_mapChilds d !! i = Some n -> g_lev (γ i) = L -> x ∈ sub L i -> m_mapChilds d !! x = Some nx ->
  y ∈ ptrs nx -> y ∈ sub L i.
Proof using HD HG.
  induction L as [|L IH]; intros i n x y nx Hi HL Hx Hnx Hy; [by apply not_elem_of_empty in Hx|].
  apply (elem_sub L i n x Hi) in Hx as (c & Hc & Hx). apply (elem_sub L i n y Hi). exists c. split; [done|]. right.
  destruct (ptr_child i n c Hi Hc) as (nc & Hnc & _ & Hl). rewrite HL in Hl. injection Hl as Hl. destruct Hx as [->|Hx].
  - destruct (ptr_child c nx y Hnx Hy) as (_ & _ & _ & Hl'). destruct L as [|L]; [lia|]. apply (elem_sub L c nx y Hnx). exists y. auto.
  - by apply (IH c nc x y nx).
Qed.

(** Every node is below the root. *)
Lemma sub_root x nx : m_mapChilds d !! x = Some nx -> x = m_pRootNode d \/ x ∈ sub h (m_pRootNode d).
Proof using HD HG.
  destruct (to_root _ _ _ _ _ _ HT) as (Hg & v & Hr & _). apply vtree_some in Hr as (rn & Hrn & _).
  remember (h - g_lev (γ x))%nat as k eqn:Ek. revert x nx Ek. induction k as [k IH] using lt_wf_ind. intros x nx Ek Hx.
  pose proof (to_parent _ _ _ _ _ _ HT _ _ (vtree_lookup _ _ _ Hx)) as Hp. simpl in Hp. destruct (m_pParent nx) as [p|]; [|by left].
  destruct Hp as (v' & j & Hv' & Hj). apply vtree_some in Hv' as (np & Hnp & ->). right.
  assert (x ∈ ptrs np) as Hin by (by eapply list_elem_of_lookup_2).
  destruct (ptr_child p np x Hnp Hin) as (_ & _ & _ & Hl). destruct (to_lev _ _ _ _ _ _ HT _ _ (vtree_lookup _ _ _ Hnp)) as [Hlev _].
  destruct (IH (h - g_lev (γ p))%nat ltac:(lia) p np eq_refl Hnp) as [->|Hsub].
  - rewrite Hg in Hlev, Hl. simpl in *. replace h with (S (pred h)) by lia. apply (elem_sub (pred h) _ np x Hnp). exists x. auto.
  - eapply (sub_trans h _ rn p x np); [done| |done|done|done]. by rewrite Hg.
Qed.
End Sub.

(** ** The tree *)

Section Tree.
Context (G : geometry) (HG : node_geom G) (HS : IsSafeMode G = true).
Context {F : Type} {HF : DirFile F} {HFok : DirFileOk G F}.
Context {h : nat} {γ : Z -> ginfo} {d : CDirImage F}.
Context (HD : dir_ok G ∅ h γ d) (HSt : store_ok G ∅ d) (Hclean : m_setDirtyNodes d = ∅).
(** Inode numbers have 32 bits. *)
Context (Hino : forall i n s, m_mapChilds d !! i = Some n -> m_bLeaf n = true -> s ∈ entries n -> 0 <= dwInodeIdx s < 2 ^ 32).
Let HT := do_tree _ _ _ _ _ HD.

Lemma pages_fit i : in_file G (m_oFile d) i -> 0 <= i < df_size (m_oFile d) / BNODE_SIZE G /\ i < MAX_BNODE_NUMBER G.
Proof using HG HSt.
  intros [Hi Hs]. pose proof (page_pos G HG). destruct (df_fits _ (so_inv _ _ _ HSt)) as (H1 & [k Hk] & H3).
  rewrite Hk in *. rewrite Z.div_mul by lia. assert (i < k) as Hik by nia. split; [lia|]. unfold MAX_BNODE_NUMBER.
  enough (i + 1 <= MAX_FILE_SIZE G / BNODE_SIZE G) by lia. apply Z.div_le_lower_bound; [lia|].
  assert (BNODE_SIZE G * (i + 1) <= k * BNODE_SIZE G) by nia.
  assert (0 <= Z.of_nat (df_room (m_oFile d)) * BNODE_SIZE G) by nia. lia.
Qed.

Lemma node_page i n : m_mapChilds d !! i = Some n -> page_node G i n /\ on_page G (df_page (m_oFile d) i) n.
Proof using All.
  intros Hi. pose proof (do_node _ _ _ _ _ HD i n Hi) as Hok. pose proof (view_shape G HD i n Hi) as Hsh.
  split.
  2: { destruct (so_disk _ _ _ HSt i n Hi) as [|[Hx|]]; [set_solver|rewrite Hclean in Hx; set_solver|done]. }
  split; [done| | | |].
  - rewrite (length_keys G HG i n Hok). pose proof (vs_max _ _ _ _ Hsh) as H. rewrite bool_decide_false in H by set_solver.
    simpl in H. pose proof (max_keys_Z G HG). unfold MAX_KEYS_PER_NODE. lia.
  - destruct (m_bLeaf n) eqn:El.
    + pose proof (to_next _ _ _ _ _ _ HT _ _ (vtree_lookup _ _ _ Hi) El) as Hn. simpl in Hn. destruct (g_hi (γ i)); [|by left].
      destruct Hn as (_ & v & Hv & _). apply vtree_some in Hv as (m & Hm & _). right.
      destruct (so_node _ _ _ HSt _ _ Hm) as [_ Hin]. apply pages_fit in Hin as [Hn0 Hn1].
      change (v_next (view n)) with (m_wNextLeaf n) in *. lia.
    + left. by apply (no_next _ _ _ Hok).
  - apply (vs_ok _ _ _ _ Hsh).
  - apply Forall_lookup. intros j s Hs. destruct (m_bLeaf n) eqn:El.
    + apply (Hino i n s Hi El). unfold slots_used in Hs. rewrite El in Hs. by eapply list_elem_of_lookup_2.
    + unfold slots_used in Hs. rewrite El in Hs. assert (ptrs n !! j = Some (dwBNodeIdx s)) as Hp by (unfold ptrs; by rewrite list_lookup_fmap, Hs).
      destruct (child_node G HG HD i n j _ Hi Hp) as (nc & Hnc & _).
      destruct (so_node _ _ _ HSt _ _ Hnc) as [[_ Hr] _]. unfold INVALID_BNODE_IDX, USHRT_MAX in Hr. lia.
Qed.

(** The node that is read from a page, and the node it becomes in the map. *)
Definition loaded (i : Z) : CBPlusNode := (ntoh G (df_page (m_oFile d) i) (NewBPlusNode G i)).1.
Definition full : gmap Z CBPlusNode := map_imap (fun i n => Some (SetParent (m_pParent n) (loaded i))) (m_mapChilds d).

Lemma loaded_ok i n : m_mapChilds d !! i = Some n ->
  (ntoh G (df_page (m_oFile d) i) (NewBPlusNode G i)).2 = 0 /\ image (loaded i) = image n /\ m_pParent (loaded i) = None /\
  length (m_vecSlots (loaded i)) = Z.to_nat (MAX_PTRS_PER_NODE G + 1) /\ m_wFreeBNodeIdx (loaded i) = u16 (m_wFreeBNodeIdx n).
Proof using All.
  intros Hi. destruct (node_page i n Hi) as [Hp (m & Him & Hpg)]. unfold loaded. rewrite <- Hpg. by apply ntoh_hton.
Qed.
Lemma full_lookup i : full !! i = (fun n => SetParent (m_pParent n) (loaded i)) <$> (m_mapChilds d !! i).
Proof. unfold full. rewrite map_lookup_imap. by destruct (m_mapChilds d !! i). Qed.
Lemma loaded_this i n : m_mapChilds d !! i = Some n -> m_wThisBNodeIdx (loaded i) = i.
Proof using All.
  intros Hi. destruct (loaded_ok i n Hi) as (_ & E & _). unfold image in E. injection E as -> _ _ _ _ _ _ _.
  apply (no_this _ _ _ (do_node _ _ _ _ _ HD i n Hi)).
Qed.


Lemma loaded_view i n : m_mapChilds d !! i = Some n -> view (SetParent (m_pParent n) (loaded i)) = view n.
Proof using All.
  intros Hi. destruct (loaded_ok i n Hi) as (_ & E & _). eapply image_view; [done| |done]. by apply (do_node _ _ _ _ _ HD).
Qed.
Lemma loaded_ptrs i n : m_mapChilds d !! i = Some n ->
  ptrs (loaded i) = ptrs n /\ m_bLeaf (loaded i) = m_bLeaf n /\ m_wNumPtrs (loaded i) = m_wNumPtrs n.
Proof using All.
  intros Hi. pose proof (loaded_view i n Hi) as E. destruct (loaded_ok i n Hi) as (_ & E' & _).
  unfold image in E'. injection E' as _ _ -> _ _ -> _ _. split; [|done]. by apply (f_equal v_cs) in E.
Qed.

(** The nodes of [X], as they are loaded. *)
Definition restr (X : gset Z) : gmap Z CBPlusNode := filter (fun p => p.1 ∈ X) full.
Lemma restr_lookup X i : restr X !! i = if decide (i ∈ X) then full !! i else None.
Proof.
  unfold restr. rewrite map_lookup_filter. destruct (full !! i); simpl; [|by destruct (decide _)].
  by destruct (decide (i ∈ X)); simplify_option_eq.
Qed.
Lemma restr_insert X i n : full !! i = Some n -> <[i := n]> (restr X) = restr ({[i]} ∪ X).
Proof.
  intros Hi. apply map_eq. intros x. rewrite restr_lookup. destruct (decide (x = i)) as [->|Hx].
  - rewrite lookup_insert_eq, decide_True by set_solver. done.
  - rewrite lookup_insert_ne, restr_lookup by done. destruct (decide (x ∈ X)); [by rewrite decide_True by set_solver|].
    by rewrite decide_False by set_solver.
Qed.

Definition below (L : nat) (cs : list Z) : gset Z := ⋃ ((fun c => {[c]} ∪ subtree d L c) <$> cs).
Lemma elem_below L cs x : x ∈ below L cs <-> exists c, c ∈ cs /\ (x = c \/ x ∈ subtree d L c).
Proof.
  unfold below. rewrite elem_of_union_list. split.
  - intros (X & HX & Hx). apply list_elem_of_fmap in HX as (c & -> & Hc). exists c. split; [done|set_solver].
  - intros (c & Hc & Hx). exists ({[c]} ∪ subtree d L c). split; [|set_solver]. apply list_elem_of_fmap. by exists c.
Qed.
Lemma sub_below L i n : m_mapChilds d !! i = Some n -> subtree d (S L) i = below L (ptrs n).
Proof. intros Hi. cbn [subtree]. by rewrite Hi. Qed.

(** [Reload] of a node from a map that has the nodes of [X]. *)
Definition reloads (fuel : nat) (i : Z) (L : nat) : Prop := forall X e,
  subtree d L i ## X -> m_oFile e = m_oFile d -> m_mapChilds e = restr X ->
  wp (ReloadNode G fuel i) e (fun r e' => r = (0, loaded i) /\ e' = set_childs (restr (subtree d L i ∪ X)) e).

Lemma ReloadChilds_ok fuel i n L :
  m_mapChilds d !! i = Some n -> g_lev (γ i) = S L -> (forall c, c ∈ ptrs n -> reloads fuel c L) ->
  forall cs j X e, drop j (ptrs n) = cs -> below L cs ## X -> m_oFile e = m_oFile d -> m_mapChilds e = restr X ->
  wp (ReloadChilds (ReloadNode G fuel) (loaded i) (length cs) (Z.of_nat j) 0) e
    (fun r e' => r = 0 /\ e' = set_childs (restr (below L cs ∪ X)) e).
Proof using All.
  intros Hi HL Hload. destruct (loaded_ptrs i n Hi) as (Eptr & _ & _).
  assert (forall X (e : CDirImage F), m_mapChilds e = restr X -> set_childs (restr X) e = e) as Hsame by (intros X e <-; by destruct e).
  induction cs as [|c cs IH]; intros j X e Hcs HX He Hm; cbn [ReloadChilds length].
  - wsteps. split; [done|]. change (below L []) with (∅ : gset Z). rewrite (left_id_L ∅ (∪)). by rewrite Hsame.
  - assert (ptrs n !! j = Some c) as Hj by (rewrite <- (Nat.add_0_r j), <- lookup_drop, Hcs; done).
    assert (drop (S j) (ptrs n) = cs) as Hcs' by (rewrite <- Nat.add_1_r, <- drop_drop, Hcs; done).
    assert (c ∈ ptrs n) as Hin by (by eapply list_elem_of_lookup_2).
    destruct (ptr_child G HG HD i n c Hi Hin) as (nc & Hnc & Hp & Hl). rewrite HL in Hl. injection Hl as Hl.
    assert (i <> c) as Hic by (intros ->; lia).
    rewrite <- Eptr in Hj. destruct (ptr_slot _ _ _ Hj) as (s & Hs & Es).
    apply wp_bind. eapply wp_lift; [by apply rd_lookup|]. rewrite Es.
    apply wp_bind. eapply wp_mono; [apply (Hload c Hin X e); [|done|done]|].
    { intros x Hx1 Hx2. apply (HX x); [|done]. apply elem_below. exists c. split; [by left|by right]. }
    intros r e1 [-> ->]. cbn beta iota. change (ERROR 0) with false. cbn iota. rewrite (loaded_this c nc), Z.eqb_refl by done. cbn [negb].
    rewrite (loaded_this i n) by done. apply wp_bind.
    eapply wp_mono; [apply AddChildDirect_ok; [|by rewrite (loaded_this c nc)]|].
    { simpl. rewrite restr_lookup, decide_False; [done|]. intros [Hx|Hx]%elem_of_union.
      - apply (sub_anc G HG HD L c nc c Hnc (eq_sym Hl)) in Hx as (_ & Hx & _). lia.
      - apply (HX c); [|done]. apply elem_below. exists c. split; [by left|by left]. }
    intros r e2 [-> ->]. simpl m_mapChilds. rewrite (restr_insert _ c) by (rewrite full_lookup, Hnc; simpl; by rewrite Hp).
    replace (Z.of_nat j + 1) with (Z.of_nat (S j)) by lia.
    eapply wp_mono; [apply (IH (S j) ({[c]} ∪ (subtree d L c ∪ X))); [done| |done|done]|].
    { intros x Hx1 Hx2. apply elem_below in Hx1 as Hx1'. destruct Hx1' as (c' & Hc' & Hx').
      assert ((x = c \/ x ∈ subtree d L c) \/ x ∈ X) as [Hx|Hx] by set_solver.
      2: { apply (HX x); [|done]. apply elem_below. exists c'. split; [by right|done]. }
      assert (c' ∈ ptrs n) as Hin' by (rewrite <- (take_drop (S j) (ptrs n)), Hcs'; apply elem_of_app; by right).
      pose proof (sub_apart G HG HD i n c c' x L Hi HL Hin Hin' Hx Hx') as <-.
      rewrite <- Hcs' in Hc'. apply list_elem_of_lookup in Hc' as [j' Hj']. rewrite lookup_drop in Hj'. rewrite Eptr in Hj.
      pose proof (child_place HT i (view n) _ _ _ (vtree_lookup _ _ _ Hi) Hj Hj'). lia. }
    intros r e' [-> ->]. split; [done|].
    enough (below L cs ∪ ({[c]} ∪ (subtree d L c ∪ X)) = below L (c :: cs) ∪ X) as -> by done.
    unfold below. simpl. set_solver.
Qed.

Lemma ReloadNode_ok L : forall fuel i n,
  m_mapChilds d !! i = Some n -> g_lev (γ i) = L -> (L < fuel)%nat -> reloads fuel i L.
Proof using All.
  induction L as [|L IH]; intros [|fuel] i n Hi HL Hf X e HX He Hm; try lia; cbn [ReloadNode]; wsteps; rewrite He, (pos_page G HG).
  all: destruct (so_node _ _ _ HSt i n Hi) as [_ [[Hi0 _] Hsz]].
  all: destruct (df_read_ok _ i (so_inv _ _ _ HSt) Hi0 Hsz) as [Hrd Hre].
  all: destruct (df_read (i * BNODE_SIZE G) (BNODE_SIZE G) (m_oFile d)) as [l ret]; simpl in Hrd, Hre; subst l; rewrite Hre; cbn iota.
  all: assert (ntoh G (df_page (m_oFile d) i) (NewBPlusNode G i) = (loaded i, 0)) as ->
    by (destruct (loaded_ok i n Hi) as (Hret & _); unfold loaded; rewrite <- Hret; apply surjective_pairing).
  all: destruct (loaded_ptrs i n Hi) as (Eptr & Elf & Enp).
  all: change (ERROR 0) with false; cbn iota; rewrite Elf.
  all: destruct (to_lev _ _ _ _ _ _ HT _ _ (vtree_lookup _ _ _ Hi)) as [_ Hlev]; simpl in Hlev; rewrite HL in Hlev.
  - rewrite (proj2 Hlev eq_refl). wsteps. split; [done|]. change (subtree d 0 i) with (∅ : gset Z).
    rewrite (left_id_L ∅ (∪)), <- Hm. by destruct e.
  - destruct (m_bLeaf n) eqn:El; [by destruct Hlev as [Hlev _]; specialize (Hlev eq_refl)|]. apply wp_bind.
    rewrite Enp, (length_ptrs G HG i n (do_node _ _ _ _ _ HD i n Hi)), Nat2Z.id. change 0 with (Z.of_nat 0) at 1.
    rewrite (sub_below L i n Hi) in *.
    eapply wp_mono; [apply (ReloadChilds_ok fuel i n L Hi HL) with (cs := ptrs n) (j := 0%nat) (X := X); try done|].
    + intros c Hc. destruct (ptr_child G HG HD i n c Hi Hc) as (nc & Hnc & _ & Hl). eapply (IH fuel c nc Hnc); lia.
    + intros r e' [-> ->]. by wsteps.
Qed.

(** *** The pool *)

Lemma ReloadPool_ok v : forall fuel i pre e, chain G i v ->
  (forall j f, (j, f) ∈ v -> df_page (m_oFile d) j = hton_free G f /\ in_file G (m_oFile d) j /\
     Forall (fun x => 0 <= x < INVALID_BNODE_IDX) (m_arrFreeBNIdx f)) ->
  m_oFile e = m_oFile d -> m_vecFreeBNodes e = pre -> (length v <= fuel)%nat ->
  Z.of_nat (length pre + length v) < MAX_FILE_SIZE G / BNODE_SIZE G ->
  wp (ReloadPool G fuel i) e (fun r e' => r = 0 /\ e' = set_pool (pre ++ v) e).
Proof using All.
  induction v as [|[j f] v IH]; intros [|fuel] i pre e Hch Hv He Hpre Hf Hlen; simpl in Hf; try done; try lia.
  destruct (Hv j f) as (Hpg & [[Hj _] Hjs] & Hr); [by left|].
  assert (j = i /\ m_wBNCount f <= GetMaxCount G) as [-> Hc] by (destruct v; [by destruct Hch as (? & ? & _)|by destruct Hch as (? & ? & _)]).
  cbn [ReloadPool]. wsteps. rewrite He, (pos_page G HG). destruct (df_read_ok _ i (so_inv _ _ _ HSt) Hj Hjs) as [Hrd Hre].
  destruct (df_read (i * BNODE_SIZE G) (BNODE_SIZE G) (m_oFile d)) as [l ret]; simpl in Hrd, Hre; subst l; rewrite Hre; cbn iota.
  rewrite Hpg, ntoh_free_hton by done. change (ERROR 0) with false. cbn iota. wsteps. rewrite Hpre. simpl in Hlen.
  destruct (Z.leb_spec (MAX_FILE_SIZE G / BNODE_SIZE G) (Z.of_nat (length pre) + 1)); [lia|].
  destruct v as [|p v].
  - destruct Hch as (_ & _ & Hnx). rewrite Hnx, orb_true_r. wsteps. done.
  - apply (chain_cons G i i f (p :: v)) in Hch as (_ & _ & Hnx & Hfl & x & Hx & Hch); [|done]. rewrite Hnx, Hfl. cbn [negb orb].
    unfold GetLastBNodeIdx. rewrite Hx. simpl default.
    assert (0 <= x < INVALID_BNODE_IDX) as Hxr by (rewrite Forall_forall in Hr; by apply Hr, last_Some_elem_of).
    destruct (Z.eqb_spec x INVALID_BNODE_IDX); [lia|].
    eapply wp_mono; [apply (IH fuel x (pre ++ [(i, f)])); try done|].
    + intros j g Hg. apply Hv. by right.
    + simpl in *. lia.
    + rewrite length_app. simpl in *. lia.
    + intros r e' [-> ->]. split; [done|]. by rewrite <- app_assoc.
Qed.

Lemma nodup_bound (l : list Z) k : NoDup l -> (forall x, x ∈ l -> 0 <= x < k) -> Z.of_nat (length l) <= Z.max 0 k.
Proof.
  intros Hnd Hl. assert (l ⊆+ seqZ 0 k) as Hsub.
  { apply NoDup_submseteq; [done|]. intros x Hx. apply elem_of_seqZ. specialize (Hl x Hx). lia. }
  apply submseteq_length in Hsub. rewrite length_seqZ in Hsub. lia.
Qed.

(** Nodes and pages of the pool have a page of their own each. *)
Lemma pages_bound :
  Z.of_nat (base.size (m_mapChilds d)) <= df_size (m_oFile d) / BNODE_SIZE G /\
  Z.of_nat (length (m_vecFreeBNodes d)) < df_size (m_oFile d) / BNODE_SIZE G <= MAX_FILE_SIZE G / BNODE_SIZE G.
Proof using All.
  destruct (so_root _ _ _ HSt) as [_ [rn Hrn]]. set (P := df_size (m_oFile d) / BNODE_SIZE G).
  assert (forall x, is_Some (m_mapChilds d !! x) -> 0 <= x < P) as Hm.
  { intros x [n Hn]. destruct (so_node _ _ _ HSt x n Hn) as [_ Hin]. by apply pages_fit in Hin as [? _]. }
  pose proof (Hm (m_pRootNode d) ltac:(eauto)) as HP. split; [|split].
  - pose proof (nodup_bound (elements (dom (m_mapChilds d))) P (NoDup_elements _)) as H.
    rewrite <- size_dom. unfold base.size, set_size. simpl. replace P with (Z.max 0 P) by lia. apply H.
    intros x Hx. apply Hm. by apply elem_of_elements, elem_of_dom in Hx.
  - destruct (so_pool _ _ _ HSt) as [P1 P2 P3]. unfold free_pages in P2.
    assert (NoDup (map fst (m_vecFreeBNodes d))) as Hnd'.
    { destruct (Z.eqb_spec (head_of d) INVALID_BNODE_IDX); [rewrite P1; constructor|]. by apply (pool_pages_nodup G HG HS (head_of d)). }
    assert (forall x, x ∈ m_pRootNode d :: map fst (m_vecFreeBNodes d) -> 0 <= x < P) as Hx.
    { intros x [->|Hx]%elem_of_cons; [done|]. eapply pool_in in Hx; [|apply (so_pool _ _ _ HSt)].
      destruct (so_free _ _ _ HSt x Hx) as [_ Hin]. by apply pages_fit in Hin as [? _]. }
    assert (NoDup (m_pRootNode d :: map fst (m_vecFreeBNodes d))) as Hnd.
    { constructor; [|done]. intros Hin. eapply pool_in in Hin; [|apply (so_pool _ _ _ HSt)].
      destruct (so_free _ _ _ HSt _ Hin) as [E _]. congruence. }
    pose proof (nodup_bound _ P Hnd Hx) as H. simpl in H. rewrite length_map in H. lia.
  - apply Z.div_le_mono; [pose proof (page_pos G HG); lia|]. destruct (df_fits _ (so_inv _ _ _ HSt)) as (H1 & _ & H3).
    pose proof (page_pos G HG). nia.
Qed.

(** *** The directory that is found *)

Definition reloaded : CDirImage F :=
  mkDir (m_pRootNode d) full (m_pRootNode d) (m_vecFreeBNodes d) ∅ ∅ stateStarted (m_oFile d).

Lemma full_some i : is_Some (full !! i) <-> is_Some (m_mapChilds d !! i).
Proof using Type. rewrite full_lookup. by destruct (m_mapChilds d !! i). Qed.
Lemma full_all : restr ({[m_pRootNode d]} ∪ subtree d h (m_pRootNode d)) = full.
Proof using All.
  apply map_eq. intros x. rewrite restr_lookup. destruct (decide _) as [|Hx]; [done|].
  destruct (full !! x) as [n|] eqn:E; [|done]. exfalso. apply Hx.
  destruct (proj1 (full_some x)) as [nx Hnx]; [eauto|]. destruct (sub_root G HG HD x nx Hnx) as [->|?]; set_solver.
Qed.

Lemma reloaded_head : head_of reloaded = head_of d.
Proof using All.
  unfold head_of, reloaded. simpl. rewrite full_lookup. destruct (so_root _ _ _ HSt) as [_ [rn Hrn]]. rewrite Hrn. simpl.
  destruct (loaded_ok _ rn Hrn) as (_ & _ & _ & _ & ->). destruct (so_pool _ _ _ HSt) as [_ _ P3].
  unfold head_of, free_pages in P3. rewrite Hrn in P3. destruct (Z.eqb_spec (m_wFreeBNodeIdx rn) INVALID_BNODE_IDX) as [->|]; [done|].
  apply Forall_cons in P3 as [Hr _]. by apply u16_idx.
Qed.

Lemma reloaded_view : vtree reloaded = vtree d.
Proof using All.
  apply map_eq. intros x. unfold vtree, reloaded. simpl. rewrite !lookup_fmap, full_lookup.
  destruct (m_mapChilds d !! x) as [n|] eqn:E; [|done]. simpl. f_equal. by apply loaded_view.
Qed.

Lemma reloaded_dir : dir_ok G ∅ h γ reloaded.
Proof using All.
  split; [rewrite reloaded_view; exact HT|]. intros i n' Hi. unfold reloaded in Hi. simpl in Hi. rewrite full_lookup in Hi.
  destruct (m_mapChilds d !! i) as [n|] eqn:E; [|done]. injection Hi as <-. destruct (loaded_ok i n E) as (_ & Him & _ & Hl & _).
  eapply image_ok; [by apply (do_node _ _ _ _ _ HD)|done|done].
Qed.

Lemma reloaded_store : store_ok G ∅ reloaded.
Proof using All.
  pose proof HSt as [H1 H2 H3 H4 H5 H6 H7 H8].
  assert (forall i n', full !! i = Some n' -> exists n, m_mapChilds d !! i = Some n /\ n' = SetParent (m_pParent n) (loaded i)) as Hfull.
  { intros i n' Hi. rewrite full_lookup in Hi. destruct (m_mapChilds d !! i) as [n|]; [|done]. injection Hi as <-. eauto. }
  split; rewrite ?reloaded_head; simpl; try done.
  - split; [done|]. apply full_some. apply H2.
  - intros i n' Hi. destruct (Hfull i n' Hi) as (n & Hn & ->). destruct (H3 i n Hn) as [[_ Hr] Hin]. split; [|done].
    split; [|done]. by apply (loaded_this i n).
  - intros x Hx. destruct (H5 x Hx) as [E Hin]. split; [|done]. by rewrite full_lookup, E.
  - intros i n' Hi. destruct (Hfull i n' Hi) as (n & Hn & ->). right. right. destruct (node_page i n Hn) as [_ Hpg].
    eapply on_page_image; [|exact Hpg]. by destruct (loaded_ok i n Hn) as (_ & Him & _).
  - intros i f Hi. right. destruct (H7 i f Hi) as [Hx|]; [rewrite Hclean in Hx; set_solver|done].
  - right. destruct H8 as [Hx|Hx]; [rewrite Hclean in Hx; set_solver|]. by rewrite Hx, (proj1 H2).
Qed.

Lemma ReloadDir_ok : ReloadDir G (m_oFile d) = Ret (reloaded, 0).
Proof using All.
  destruct (so_root _ _ _ HSt) as [Eri [rn Hrn]]. pose proof pages_bound as (B1 & B2 & B3).
  pose proof (height_bound HT) as Hh. rewrite size_vtree in Hh. destruct (to_root _ _ _ _ _ _ HT) as (Hg & v & Hv & Hpar).
  rewrite (vtree_lookup _ _ _ Hrn) in Hv. injection Hv as <-. simpl in Hpar.
  assert (df_root (m_oFile d) = m_pRootNode d) as Er.
  { destruct (so_droot _ _ _ HSt) as [Hx|Hx]; [rewrite Hclean in Hx; set_solver|]. by rewrite Hx. }
  destruct (loaded_ok _ rn Hrn) as (_ & _ & Hnone & _). pose proof reloaded_head as Eh.
  enough (wp (fun _ => ReloadDir G (m_oFile d)) d (fun r d' => r = 0 /\ d' = reloaded)) as Hw.
  { unfold wp in Hw. destruct (ReloadDir G (m_oFile d)) as [[d' r]| |]; [by destruct Hw as [-> ->]|done..]. }
  unfold ReloadDir. rewrite Er. set (d0 := mkDir _ _ _ _ _ _ _ _).
  match goal with |- wp (fun _ => ?m d0) d ?Q => change (wp m d0 Q) end.
  apply wp_bind. eapply wp_mono.
  { apply (ReloadNode_ok h (reload_fuel G (m_oFile d)) (m_pRootNode d) rn Hrn); [by rewrite Hg| |instantiate (1 := ∅); set_solver|done|].
    - unfold reload_fuel. lia.
    - apply map_eq. intros x. rewrite restr_lookup, decide_False by set_solver. done. }
  intros r e [-> ->]. cbn beta iota. change (ERROR 0) with false. cbn iota. wsteps. simpl m_mapChilds.
  rewrite restr_lookup, decide_False.
  2: { intros [Hx|Hx]%elem_of_union; [|set_solver]. 
       apply (sub_anc G HG HD h (m_pRootNode d) rn) in Hx as (_ & Hx & _); [|done|by rewrite Hg]. rewrite Hg in Hx. simpl in Hx. lia. }
  wsteps. simpl m_mapChilds. rewrite (restr_insert _ (m_pRootNode d)).
  2: { rewrite full_lookup, Hrn. simpl. rewrite Hpar. f_equal. destruct (loaded (m_pRootNode d)). simpl in *. by subst. }
  rewrite (right_id_L ∅ (∪)), full_all. set (e := set_childs _ _).
  assert (e = set_pool [] reloaded) as -> by done. unfold GetHeadFreeBNode, RootNode. wsteps. simpl m_pRootNode.
  assert (full !! m_pRootNode d = Some (SetParent (m_pParent rn) (loaded (m_pRootNode d)))) as Hfr by (by rewrite full_lookup, Hrn).
  wsteps. change (m_wFreeBNodeIdx (SetParent (m_pParent rn) (loaded (m_pRootNode d)))) with (m_wFreeBNodeIdx (loaded (m_pRootNode d))).
  assert (m_wFreeBNodeIdx (loaded (m_pRootNode d)) = head_of d) as ->.
  { rewrite <- Eh. unfold head_of, reloaded. simpl. by rewrite Hfr. }
  destruct (so_pool _ _ _ HSt) as [P1 P2 P3]. destruct (Z.eqb_spec (head_of d) INVALID_BNODE_IDX) as [Ei|Ei].
  - wsteps. split; [done|]. unfold reloaded. by rewrite P1.
  - eapply wp_mono; [apply (ReloadPool_ok (m_vecFreeBNodes d) _ (head_of d) [] _ P1); try done|].
    + intros j f Hj. split; [|split].
      * destruct (so_dpool _ _ _ HSt j f Hj) as [Hx|]; [rewrite Hclean in Hx; set_solver|done].
      * eapply so_free; [done|]. eapply pool_in; [apply (so_pool _ _ _ HSt)|]. apply list_elem_of_fmap. by exists (j, f).
      * unfold free_pages in P3. destruct (Z.eqb_spec (head_of d) INVALID_BNODE_IDX); [done|]. apply Forall_cons in P3 as [_ P3].
        apply Forall_forall. intros x Hx. rewrite Forall_forall in P3. apply P3. unfold pool_entries.
        apply list_elem_of_In, in_concat. exists (m_arrFreeBNIdx f). split; apply list_elem_of_In; [|done].
        apply list_elem_of_fmap. by exists (j, f).
    + unfold reload_fuel. lia.
    + simpl. lia.
    + intros r e' [-> ->]. done.
Qed.
End Tree.

Lemma ReloadDir_map G (HG : node_geom G) (HS : IsSafeMode G = true) {F} {HF : DirFile F} {HFok : DirFileOk G F} (d : CDirImage F) M :
  dir_state G d M -> m_setDirtyNodes d = ∅ -> (forall k i t, M !! k = Some (i, t) -> 0 <= i < 2 ^ 32) ->
  exists d', ReloadDir G (m_oFile d) = Ret (d', 0) /\ dir_state G d' M /\ m_oFile d' = m_oFile d /\
    m_setDirtyNodes d' = ∅ /\ m_dwDirState d' = stateStarted /\ m_mapFiles d' = ∅.
Proof.
  intros [(h & γ & HD) HSt Hh] Hclean HM.
  assert (forall i n s, m_mapChilds d !! i = Some n -> m_bLeaf n = true -> s ∈ entries n -> 0 <= dwInodeIdx s < 2 ^ 32) as Hino.
  { intros i n s Hi Hl Hs. apply (HM (szKey s) (dwInodeIdx s) (byFileType s)), Hh. exists i, (view n), s.
    split; [by apply vtree_lookup|]. split; [done|]. simpl. by rewrite Hl. }
  exists (reloaded G (d := d)). split; [by apply (ReloadDir_ok G HG HS HD HSt Hclean Hino)|]. split; [|done]. split.
  - exists h, γ. by apply (reloaded_dir G HG HS HD HSt Hclean Hino).
  - by apply (reloaded_store G HG HS HD HSt Hclean Hino).
  - intros k x. rewrite Hh. by rewrite (reloaded_view G HG HS HD HSt Hclean Hino).
Qed.

(** C19: what was committed is what a restart finds: [Reload], which has
    the file only, ends with success and with a directory that holds the same
    names, inodes and types. *)
Theorem ReloadDir_spec G (HG : node_geom G) (HS : IsSafeMode G = true) {F} {HF : DirFile F} {HFok : DirFileOk G F} (d : CDirImage F) M :
  dir_state G d M -> m_setDirtyNodes d = ∅ -> (forall k i t, M !! k = Some (i, t) -> 0 <= i < 2 ^ 32) ->
  exists d', ReloadDir G (m_oFile d) = Ret (d', 0) /\ dir_state G d' M /\ m_oFile d' = m_oFile d /\
    m_setDirtyNodes d' = ∅ /\ m_dwDirState d' = stateStarted /\ m_mapFiles d' = ∅.
Proof. by apply ReloadDir_map. Qed.

(** ** Histories *)

(** The directories that the calls lead to from a new one, with the map that
    each stands for; a restart sees the file only. *)
Inductive history (G : geometry) {F} {HF : DirFile F} {HFok : DirFileOk G F} : CDirImage F -> gmap key (Z * Z) -> Prop :=
| after_format f d : df_inv f -> df_size f = 0 -> (0 < df_room f)%nat -> FormatDir G f = Ret (d, 0) -> history G d ∅
| after_create d M name t d' r : history G d M ->
    name <> ""%string -> c_string name -> (tree_fuel d < df_room (m_oFile d))%nat ->
    m_mapFiles d !! (df_create t (m_oFile d)).1.2 = None -> CreateFile G name t d = Ret (d', r) ->
    history G d' (if r =? 0 then <[trunc_key name := ((df_create t (m_oFile d)).1.2, t)]> M else M)
| after_search d M k d' r : history G d M -> Search G k d = Ret (d', r) -> history G d' M
| after_list d M d' r : history G d M -> ListDir d = Ret (d', r) -> history G d' M
| after_commit d M d' r : history G d M -> CommitDirtyNodes G d = Ret (d', r) -> history G d' M
| after_restart d M d' r : history G d M -> m_setDirtyNodes d = ∅ -> ReloadDir G (m_oFile d) = Ret (d', r) -> history G d' M.

Section History.
Context (G : geometry) (HG : node_geom G) (HS : IsSafeMode G = true).
Context {F : Type} {HF : DirFile F} {HFok : DirFileOk G F}.
Implicit Types d : CDirImage F.

Lemma wp_run_eq {A} (m : act (F := F) A) d Q d' a : wp m d Q -> m d = Ret (d', a) -> Q a d'.
Proof. unfold wp. intros H E. by rewrite E in H. Qed.

Record hist_ok d (M : gmap key (Z * Z)) : Prop := mkHistOk {
  ho_state : dir_state G d M;
  ho_started : m_dwDirState d = stateStarted;
  ho_inodes : forall k i t, M !! k = Some (i, t) -> 0 <= i < 2 ^ 32;
}.

Lemma create_hist d M name t d' r : hist_ok d M ->
  name <> ""%string -> c_string name -> (tree_fuel d < df_room (m_oFile d))%nat ->
  m_mapFiles d !! (df_create t (m_oFile d)).1.2 = None -> CreateFile G name t d = Ret (d', r) ->
  hist_ok d' (if r =? 0 then <[trunc_key name := ((df_create t (m_oFile d)).1.2, t)]> M else M).
Proof using HG HS.
  intros [H1 H2 H3] Hne Hc Hroom Hfree Hrun.
  assert (m_dwDirState d <> stateStopped) as Hst by (by rewrite H2).
  pose proof (wp_run_eq _ _ _ _ _ (CreateFile_map G HG HS d M name t H1 Hst Hne Hc Hroom Hfree) Hrun) as (_ & Hst' & Hres).
  destruct (df_create_ok _ t (so_inv _ _ _ (ds_store _ _ _ H1))) as (_ & _ & _ & _ & _ & Hi).
  destruct (df_create t (m_oFile d)) as [[f i] e]. simpl in *. rewrite H2 in Hst'.
  assert (forall e', ERROR e' = true -> (e' =? 0) = false) as He
    by (intros e' He'; destruct (Z.eqb_spec e' 0) as [->|]; [done|done]).
  destruct (M !! trunc_key name) as [x|] eqn:EM.
  - destruct Hres as [Hd' [->|[E ->]]]; [by split|]. rewrite He by done. by split.
  - destruct (ERROR e) eqn:E.
    + destruct Hres as [-> Hd']. rewrite He by done. by split.
    + destruct Hres as [-> Hd']. change (0 =? 0) with true. cbn iota. split; [done|done|]. intros k i' t'. rewrite lookup_insert_Some.
      intros [[_ [= <- _]]|[_ Hk]]; [done|by eapply H3].
Qed.

Lemma history_ok d M : history G d M -> hist_ok d M.
Proof using HG HS.
  induction 1 as [f d Hinv Hsz Hroom Hrun|d M name t d' r Hh IH Hne Hc Hroom Hfree Hrun|d M k d' r Hh IH Hrun|d M d' r Hh IH Hrun|d M d' r Hh IH Hrun|d M d' r Hh IH Hcl Hrun].
  - destruct (FormatDir_ok G HG HS f Hinv Hsz Hroom) as (d1 & E & H1 & H2 & _). rewrite Hrun in E. injection E as <-.
    split; [done|done|]. intros k i t. by rewrite lookup_empty.
  - by apply (create_hist d M name t d' r).
  - destruct IH as [H1 H2 H3]. assert (m_dwDirState d <> stateStopped) as Hst by (by rewrite H2).
    pose proof (wp_run_eq _ _ _ _ _ (Search_map G HG HS d M k H1 Hst) Hrun) as (Hd' & [fs ->] & _). by split.
  - destruct IH as [H1 H2 H3]. assert (m_dwDirState d <> stateStopped) as Hst by (by rewrite H2).
    pose proof (wp_run_eq _ _ _ _ _ (ListDir_map G HG HS d M H1 Hst) Hrun) as (-> & _). by split.
  - destruct IH as [H1 H2 H3]. destruct (ds_tree _ _ _ H1) as (h & γ & HD).
    pose proof (wp_run_eq _ _ _ _ _ (CommitDirtyNodes_ok G HG HS h γ d HD (ds_store _ _ _ H1)) Hrun) as (Hst & Hof & _).
    split; [by eapply dir_state_file| |done]. by destruct Hof as [(f & s & ->) _].
  - destruct IH as [H1 H2 H3]. destruct (ReloadDir_map G HG HS d M H1 Hcl H3) as (d1 & E & Hd & _ & _ & Hst & _).
    rewrite Hrun in E. injection E as <- _. by split.
Qed.

(** C13: after any history of creations, searches, listings, commits and
    restarts from a new directory, a directory whose changes are committed is
    found again from its file, and the listing then has exactly the names that
    were created, in order.  At each creation the file can still grow by more
    pages than the tree has nodes, so that -EFBIG does not occur, and the inode
    that the new file gets is not that of an open one; [Reload] begins after the
    inode. *)
Theorem directory_recovers d M :
  history G d M -> m_setDirtyNodes d = ∅ ->
  exists d', ReloadDir G (m_oFile d) = Ret (d', 0) /\ history G d' M /\
    wp ListDir d' (fun r d'' => d'' = d' /\ r.1 = 0 /\ ksorted (szKey <$> r.2) /\
      forall k x, M !! k = Some x <-> exists s, s ∈ r.2 /\ szKey s = k /\ x = (dwInodeIdx s, byFileType s)).
Proof using HG HS.
  intros Hh Hcl. destruct (history_ok d M Hh) as [H1 H2 H3].
  destruct (ReloadDir_map G HG HS d M H1 Hcl H3) as (d' & E & Hd & _ & _ & Hst & _). exists d'. split; [done|].
  split; [by eapply after_restart|]. apply (ListDir_map G HG HS); [done|]. by rewrite Hst.
Qed.
End History.


(** ** In memory *)

(** A directory with one file, committed. *)
Lemma ram_conf : exists (d : CDirImage ram) x, history ram_geom d {["conf"%string := x]} /\ m_setDirtyNodes d = ∅.
Proof.
  destruct ram_dir as (d & Hrun & Hd & Hst & Hf & Hroom).
  assert (c_string "conf") as Hc by (repeat constructor; done).
  assert (history ram_geom d ∅) as Hh by (eapply (after_format ram_geom ram_empty); [simpl; lia|done|simpl; lia|done]).
  pose proof (CreateFile_map ram_geom ram_geom_ok eq_refl d ∅ "conf" 1 Hd Hst ltac:(done) Hc Hroom) as H.
  rewrite Hf in H. specialize (H (lookup_empty _)). apply wp_eq in H as (d' & r & Hcreate & Hcl & _ & Hres).
  simpl in Hres. destruct Hres as [-> _]. exists d', (u32 (r_next (m_oFile d)), 1). split; [|done].
  pose proof (after_create ram_geom d ∅ "conf" 1 d' 0 Hh ltac:(done) Hc Hroom) as H. rewrite Hf in H.
  specialize (H (lookup_empty _) Hcreate). by rewrite Z.eqb_refl, insert_empty in H.
Qed.

Lemma ReloadDir_spec_witness : exists (d : CDirImage ram) x, m_setDirtyNodes d = ∅ /\
  exists d', ReloadDir ram_geom (m_oFile d) = Ret (d', 0) /\ dir_state ram_geom d' {["conf"%string := x]}.
Proof.
  destruct ram_conf as (d & x & Hh & Hcl). exists d, x. split; [done|].
  destruct (history_ok ram_geom ram_geom_ok eq_refl d _ Hh) as [H1 H2 H3].
  destruct (ReloadDir_spec ram_geom ram_geom_ok eq_refl d _ H1 Hcl H3) as (d' & E & Hd & _). by exists d'.
Defined.

Lemma directory_recovers_witness : exists d : CDirImage ram, m_setDirtyNodes d = ∅ /\
  exists d', ReloadDir ram_geom (m_oFile d) = Ret (d', 0) /\ wp ListDir d' (fun r _ => exists s, s ∈ r.2 /\ szKey s = "conf"%string).
Proof.
  destruct ram_conf as (d & x & Hh & Hcl). exists d. split; [done|].
  destruct (directory_recovers ram_geom ram_geom_ok eq_refl d _ Hh Hcl) as (d' & E & _ & Hl). exists d'. split; [done|].
  eapply wp_mono; [exact Hl|]. intros r d'' (_ & _ & _ & H). destruct (proj1 (H "conf"%string x)) as (s & Hs & Hk & _); [|by exists s].
  apply lookup_singleton_eq.
Defined.

(** ** [Insert] from the root

    [CreateFile] inserts into the leaf that the search has found.  [Rename]
    inserts from the root, and there the search of an inner node looks at one key
    too many, and the status of the child is lost. *)

Fixpoint create_all (l : list key) (d : CDirImage ram) : outcome (CDirImage ram) :=
  match l with
  | [] => Ret d
  | k :: l => match CreateFile ram_geom k ftRegular d with
              | Ret (d, r) => if r =? 0 then create_all l d else Undef
              | _ => Undef
              end
  end.
(** One name more than a leaf has room for: "A", "B", up to "e". *)
Definition many : list key := map (fun i => String.String (Ascii.ascii_of_nat (65 + i)) "") (seq 0 37).
Definition two_levels : outcome (CDirImage ram) :=
  match FormatDir ram_geom ram_empty with Ret (d, _) => create_all many d | _ => Undef end.
(** What a call answers in that directory, and what is listed afterwards. *)
Definition then_listed (m : act (F := ram) Z) : outcome (Z * list key) :=
  match two_levels with
  | Ret d => match m d with
             | Ret (d, r) => match ListDir d with Ret (_, (_, l)) => Ret (r, szKey <$> l) | Throw => Throw | Undef => Undef end
             | Throw => Throw
             | Undef => Undef
             end
  | _ => Undef
  end.
Definition root_insert (k : key) : act (F := ram) Z := d ← ask; Insert ram_geom (m_pRootNode d) (mkSlot k 7 ftRegular).

(** The root has the separator "S".  A name behind it is compared with a null
    pointer; a name that is there is not added, but the answer is success; and
    the separator itself, which the search finds on its right, is added on its
    left, so that the directory has it twice. *)
Lemma root_insert_defects :
  then_listed (mret 0) = Ret (0, many) /\
  then_listed (root_insert "z") = Undef /\
  then_listed (root_insert "A") = Ret (0, many) /\
  then_listed (root_insert "S") = Ret (0, take 19 many ++ ["S"%string] ++ drop 19 many).
Proof. split_and!; vm_compute; reflexivity. Qed.
